(* ===== verification/_CoqProject ===== *)
-Q . S2P
Prelude.v
Lzs.v
LzsStream.v
LzsCorrect.v
Htable.v
CcanHtable.v
CcanHtableSpec.v
Store.v
CString.v
CText.v
SecModData.v
SecModDb.v
SecModAuth.v
SecModDbSpec.v
SecModMachine.v
SecModRefine.v
SecModSafety.v
SecModTheorems.v
PlainAuth.v
PlainSpec.v
PlainMod.v
Ocpasswd.v
OcpasswdSpec.v
IpUtil.v
TlsResume.v
Ban.v
IpLease.v
Sock.v
NetText.v
ProxyProto.v
ProxySafety.v
ProcTable.v
MainUdp.v
MainProc.v
MainProcSpec.v
MainTheorems.v
Bandwidth.v
WorkerState.v
WorkerIo.v
WorkerMtu.v
WorkerMtuSearch.v
WorkerLoop.v
WorkerTurn.v
WorkerLaws.v
WorkerSafety.v
WorkerSession.v
WorkerTurnSafe.v
WorkerLive.v
WorkerDeadline.v
WorkerTunnel.v
WorkerTheorems.v
Html.v
HtmlSpec.v
Str.v
StrSpec.v
RouteAdd.v
HttpHeads.v
HttpReq.v
HttpReqSpec.v
HttpSafety.v
LoginParse.v
Login.v
LoginPages.v
LoginSpec.v
LoginTheorems.v
Ini.v
IniSpec.v
ConfPorts.v
ConfPortsSpec.v
ConfSub.v
ConfSubSpec.v
ConfValue.v
Config.v
ConfCheck.v
ConfSpec.v
ConfTheorems.v
SupConfig.v
SupSpec.v
ConfAttic.v
MainCtl.v
