(* ===== verification/Prelude.v ===== *)
(** * A verification of the core of ocserv, the openconnect VPN server

    ** The program

    ocserv runs as three kinds of processes.  The _main_ process accepts
    connections, forks a _worker_ for each of them, keeps the table of clients,
    gives out IP addresses and bans addresses that misbehave.  The _security
    module_ authenticates users and keeps their sessions, each named by a
    cookie (SID).  Workers talk to the client over TLS and DTLS, and to the
    other two processes over sockets.  A client authenticates at the security
    module through its worker, obtains a cookie, and presents it to the main
    process, which asks the security module to open the session.

    ** The model

    C code is translated function by function, under the names it has in src/.
    A computation that can go wrong has type [cres]: a value, an early return
    with a code, an undefined operation ([UB]: an access out of bounds, to an
    uninitialised cell or to a freed object) or the end of the fuel of a loop.
    Integers are [Z] with their wrap-around written out ([u8] to [u64]);
    buffers and addresses are lists of bytes; heap objects are finite maps from
    pointers, so that two tables that share an object share its changes.  What
    a handler obtains from outside (time, random numbers, memory, results of
    system calls, answers of other processes) is a record of answers it takes
    as an argument; what it sends or signals is appended to a log.

    - Prelude: the above, arrays, machine integers, automation ([run], [dlia],
      [bool_cases], the hint database [ocserv]).
    - Lzs, LzsStream, LzsCorrect (src/lzs.c): the packet compression.  Lzs is
      the model of [lzs_decompress] and [lzs_compress] with their bit macros,
      LzsStream the bit stream both agree on, LzsCorrect the round trip, the
      safety of the decompressor on every input and the totality of the
      compressor.
    - Htable (interface), CcanHtable, CcanHtableSpec (src/ccan/htable): the
      class [HTable] of operations and the class [HTableSpec] of what they
      promise; the databases below are proved against it.  CcanHtable models
      the table itself on machine words, with the hash bits hidden in the
      pointers, and CcanHtableSpec shows that it keeps the promise
      ([ccan_spec]) for heap addresses with a common highest bit, and that it
      does not for others.  Concrete runs use the plain table of Htable.
    - Store: objects indexed by one such table as a map from keys, with lookup,
      insertion, removal and sweeping; CString, CText (gl/): string functions.
    - SecModData, SecModDb, SecModAuth, SecModMachine (src/sec-mod.c,
      sec-mod-auth.c, sec-mod-db.c, sec-mod-cookies.c, vhost.h): the security
      module.  [sec_step] is one command; [sess_step] is the life of a session
      as other processes may rely on it.  SecModDbSpec, SecModRefine,
      SecModSafety and SecModTheorems show that the former refines the latter
      and what follows for authentication, cookies and statistics.
    - PlainAuth, PlainSpec, PlainMod (src/auth/plain.c): authentication with a
      password file, whom it lets in, and a security module that uses it.
      Ocpasswd, OcpasswdSpec (src/ocpasswd): the utility that writes the file,
      as operations on a list of accounts, and both together.
    - IpUtil, NetText (src/ip-util.c): masks, routes, comparison and text of
      addresses, with [inet_pton] and decimal numbers read back.
    - TlsResume (src/sec-mod-resume.c): the cache of TLS sessions.
    - Ban (src/main-ban.c): the ban list.  IpLease (src/ip-lease.c): leases.
    - Sock (src/common/common.c): reading from a socket that delivers its bytes
      in pieces.  ProxyProto, ProxySafety (src/worker-proxyproto.c): the parser
      of proxy protocol headers, safe on every input, exact on good ones.
    - ProcTable (src/proc-search.c), MainUdp (src/main.c), MainProc
      (src/main-auth.c, main-proc.c, main-worker-cmd.c, parts of
      main-sec-mod-cmd.c, main.c, main-user.c, tun.c): the main process.
      [main_step] is one event of its loop.  MainProcSpec has its invariant
      [main_inv], which contains those of the tables, the leases and the ban
      list, and MainTheorems the theorems, among them the one about the main
      process and the security module together.  MainCtl (main-ctl-unix.c) has
      the commands of the control socket and what they do to the clients.
    - Html, HtmlSpec (src/html.c): escaped text.  Str, StrSpec (src/str.c):
      strings in a block that grows, and patterns in them.  RouteAdd
      (src/route-add.c): the routes of a client.
    - Bandwidth (src/worker-bandwidth.c): the limit on a direction of a
      session.
    - WorkerState, WorkerIo, WorkerMtu, WorkerLoop, WorkerTurn (src/worker-vpn.c,
      tlslib.c, worker-misc.c): an established session of a worker.
      [session_turn] is one turn of its loop; the peer, the device, GnuTLS and
      the main process are the class [World].  WorkerLaws has the class
      [WorldLaws] of what is relied on, [WholeRecords] for clients that have
      not negotiated small TLS records, and [prompt] for channels that are
      always ready; WorkerMtuSearch, WorkerSafety,
      WorkerSession, WorkerTurnSafe, WorkerLive, WorkerDeadline, WorkerTunnel
      and WorkerTheorems have the theorems.
    - HttpHeads, HttpReq, HttpReqSpec, HttpSafety (src/http-heads.h,
      worker-http.c): the callbacks of the HTTP parser, the perfect hash of
      header names and what each header does.
    - LoginParse, Login, LoginPages, LoginSpec, LoginTheorems
      (src/worker-auth.c, worker-http-handlers.c, [vpn_server]): the fields of
      a login form, the steps of a login, the pages, and the loop over the
      requests of a connection.  The client, the security module and the main
      process are the class [LoginWorld].
    - Ini, IniSpec (src/inih/ini.c): the parser of configuration files, for any
      handler.  ConfPorts, ConfPortsSpec (config-ports.c), ConfSub, ConfSubSpec
      (subconfig.c, config-kkdcp.c), ConfValue: the values of options.
      Config (config.c) has the options of the server and of its virtual hosts
      as tables, and [cfg_ini_handler]; ConfCheck the methods of
      authentication, [check_cfg], [parse_cfg_file] and [reload_cfg_file].
      ConfSpec shows how a file is read, ConfTheorems what holds of a
      configuration once it is loaded and across reloads.
    - SupConfig, SupSpec (src/sup-config/file.c, main-sec-mod-cmd.c): the files
      of groups and users, and the configuration a session gets.
    - ConfAttic (config.c): which configurations are freed when.

    ** What is shown

    - Data: decompression inverts compression; text and binary forms of
      addresses, routes and proxy headers are read back; a stored TLS session
      is fetched again; configuration files (in lines of at most 199 bytes,
      without comment characters in values), lists of ports and options in
      brackets are read as they were written.
    - Safety: no input makes the decompressor, the proxy header parser, the
      search for DTLS session IDs (in packets shorter than its buffer) or a
      handler of the main process (for such packets, and for addresses of the
      size of a socket address, as [input_ok] has it) perform an undefined
      operation, and all of them end.
    - Refinement: the hash table refines a finite map; each command of the
      security module is an allowed step of every session; the ban list
      refines a map from addresses to scores.
    - Invariants: over all sequences of events of the security module and of
      the main process, for sessions, pointers between tables, the counts of
      clients and the addresses they hold.
    - Access: a session is completed only by its authentication method, a
      failed one stays failed, a cookie is honoured only while it is valid,
      and the main process connects a client only as the user of such a
      session; TLS sessions resume only for the same peer, on the default
      virtual host; bans hold until they expire or the score is reset.  A
      worker hands out a cookie only after the security module has granted it,
      and sets up a tunnel only after the main process has accepted one,
      whatever requests it is sent.  With a password file only those get in
      who give the password in it (or whose password is empty), and those do
      who give it first; what the utility sets, locks or deletes takes effect
      there.
    - Configuration: what is accepted satisfies the checks in every virtual
      host; a reload changes no method of authentication and no permanent
      setting, and frees no configuration in use; a session is refused exactly
      for an invalid route, and takes each number from the file of its user,
      of its group, or from the server.
    - Control: a command to disconnect a user sends the signals for the clients
      of this name and no others, leaves all other clients as they are and the
      main process in a good state.
    - Sessions: with whole TLS records, a worker's session stays well formed
      whatever arrives.  It ends when the peer is dead or the time is over,
      unless it is repeating a call on a channel that is not ready
      ([ended_or_waits]).  It passes packets unchanged when sends are taken
      whole ([accepting]), lets through at most twice its bandwidth limit and a
      burst, and finds the path MTU.
    - Text: headers mean the same however they are cut into pieces; fields of
      forms come out as they were entered; patterns are replaced everywhere;
      routes are added all or none.
    - Behaviour that is not intended, where modelling showed it: theorems and
      examples for it are in the files of the functions concerned.  The
      conditions named above are those without which there is such an example:
      sends that are continued in parts, addresses that are too short, packets
      that fill the buffer, values that contain patterns, a ban that a reset
      of the score lifts.

    ** Bounds

    Loops take fuel that is the size of what they consume: the length of the
    input for parsers, the number of cells for the hash table, the bound the
    code itself has for retries.  Theorems state that the result is never
    [Fuel].  Each theorem names the sizes it relies on; they are those of the
    C types and buffers.  Calls a worker repeats while a channel is not ready
    have as fuel the [patience] of the laws of [World]; the search for the MTU
    ends after forty probes.  The two handlers of the login form call each
    other with fuel: the theorems about them hold for every fuel.

    ** Not modelled

    occtl, the other authentication and accounting
    backends (PAM, RADIUS, GSSAPI, which are glue around their libraries),
    of the configuration the command line, the groups an authentication
    module lists and what is loaded into GnuTLS,
    the set-up of TLS and devices (most of tlslib.c, tun.c apart from
    [open_tun]), of a worker the headers [connect_handler] prints, the names in
    a certificate ([get_cert_names]) and the Kerberos proxy, and code from
    elsewhere (protobuf-c, http-parser, talloc, libev, GnuTLS, generated
    message code).  Messages are modelled once unpacked.  Of the main process
    the text fields of session info messages, utmp, cgroups, the
    environment of scripts, commands the security module sends on its own, and
    shutdown are left out; of the
    command loop of the security module the private key operations, the
    reload and the process set-up.  Memory that cannot be allocated is
    modelled where the code checks for it. *)

From Stdlib Require Export ZArith Lia.
From stdpp Require Export base tactics numbers strings gmap list.
#[global] Open Scope Z_scope.

#[global] Arguments Z.add : simpl never.
#[global] Arguments Z.sub : simpl never.
#[global] Arguments Z.mul : simpl never.
#[global] Arguments Z.pow : simpl never.
#[global] Arguments Z.div : simpl never.
#[global] Arguments Z.modulo : simpl never.
#[global] Arguments Z.land : simpl never.
#[global] Arguments Z.lor : simpl never.
#[global] Arguments Z.shiftl : simpl never.
#[global] Arguments Z.shiftr : simpl never.
#[global] Arguments Z.testbit : simpl never.

(** ** C computations

    [cres A] is the result of running a piece of C: it falls through with a
    value, it leaves the enclosing function early with an integer code (the
    [return -EINVAL] of a macro, an [ERR_*] return), it performs an undefined
    operation (a read or write out of bounds, a read of an uninitialised
    cell), or the fuel that bounds a loop of the model is used up.  [UB] and
    [Fuel] are never results of the program: theorems show that they do not
    occur. *)
Inductive cres (A : Type) : Type :=
| Ok (a : A)
| Err (code : Z)
| UB
| Fuel.
Arguments Ok {_} _.
Arguments Err {_} _.
Arguments UB {_}.
Arguments Fuel {_}.

#[global] Instance cres_ret : MRet cres := λ A a, Ok a.
#[global] Instance cres_bind : MBind cres := λ A B f m,
  match m with
  | Ok a => f a
  | Err c => Err c
  | UB => UB
  | Fuel => Fuel
  end.
#[global] Instance cres_fmap : FMap cres := λ A B f m, m ≫= λ a, Ok (f a).

#[global] Instance cres_eq_dec `{EqDecision A} : EqDecision (cres A).
Proof. solve_decision. Defined.

(** [defined m]: the computation performs no undefined operation and the
    fuel of the model was enough. *)
Definition defined {A} (m : cres A) : Prop :=
  match m with UB | Fuel => False | _ => True end.

(** [cwp m Q E]: [m] is defined, a value it falls through with satisfies [Q]
    and a code it leaves with satisfies [E]. *)
Definition cwp {A} (m : cres A) (Q : A → Prop) (E : Z → Prop) : Prop :=
  match m with Ok a => Q a | Err c => E c | UB | Fuel => False end.

Lemma cwp_bind {A B} (m : cres A) (f : A → cres B) Q E :
  cwp m (λ a, cwp (f a) Q E) E → cwp (m ≫= f) Q E.
Proof. by destruct m. Qed.

Lemma cwp_mono {A} (m : cres A) (Q Q' : A → Prop) (E E' : Z → Prop) :
  cwp m Q E → (∀ a, Q a → Q' a) → (∀ c, E c → E' c) → cwp m Q' E'.
Proof. destruct m; simpl; auto. Qed.

Lemma cwp_defined {A} (m : cres A) Q E : cwp m Q E → defined m.
Proof. by destruct m. Qed.

Lemma cres_bind_assoc {A B C} (m : cres A) (f : A → cres B) (g : B → cres C) :
  ((m ≫= f) ≫= g) = (m ≫= λ a, f a ≫= g).
Proof. by destruct m. Qed.

Lemma bind_pair_Ok {A B C D} (m : cres (A * B)) (f : A → B → cres C) (g : C → cres D) c :
  ('(a, b) ← m; f a b) = Ok c → ('(a, b) ← m; f a b ≫= g) = g c.
Proof. destruct m as [[a b]| | |]; simpl; [by intros ->|done..]. Qed.

Lemma bind_Ok {A B} (m : cres A) (f : A → cres B) (b : B) :
  (m ≫= f) = Ok b ↔ ∃ a, m = Ok a ∧ f a = Ok b.
Proof. destruct m; simpl; naive_solver. Qed.

(** ** Machine integers *)

(** The value of [x] converted to an unsigned type of [w] bits. *)
Definition wrap (w x : Z) : Z := x mod 2 ^ w.
Abbreviation u8 := (wrap 8).
Abbreviation u16 := (wrap 16).
Abbreviation u32 := (wrap 32).
Abbreviation u64 := (wrap 64).

(** The value of [x] converted to [int]. *)
Definition s32 (x : Z) : Z := let y := u32 x in if y <? 2 ^ 31 then y else y - 2 ^ 32.

Definition is_byte (b : Z) : bool := (0 <=? b) && (b <? 256).
Definition bytes (l : list Z) : Prop := Forall (λ b, 0 ≤ b < 256) l.

Lemma bytes_cons b l : bytes (b :: l) ↔ 0 ≤ b < 256 ∧ bytes l.
Proof. unfold bytes. by rewrite Forall_cons. Qed.

Lemma bytes_app l k : bytes (l ++ k) ↔ bytes l ∧ bytes k.
Proof. unfold bytes. by rewrite Forall_app. Qed.

Lemma bytes_lookup l i b : bytes l → l !! i = Some b → 0 ≤ b < 256.
Proof. intros Hl Hi. exact (Forall_lookup_1 _ _ _ _ Hl Hi). Qed.

Lemma wrap_small w x : 0 ≤ x < 2 ^ w → wrap w x = x.
Proof. intros. by apply Z.mod_small. Qed.

Lemma wrap_range w x : 0 ≤ w → 0 ≤ wrap w x < 2 ^ w.
Proof. intros. apply Z.mod_pos_bound. lia. Qed.

Lemma s32_small x : 0 ≤ x < 2 ^ 31 → s32 x = x.
Proof.
  intros. unfold s32. rewrite wrap_small by lia. by destruct (Z.ltb_spec x (2 ^ 31)); [|lia].
Qed.

Lemma wrap_testbit w x i : 0 ≤ i → 0 ≤ w →
  Z.testbit (wrap w x) i = (i <? w) && Z.testbit x i.
Proof.
  intros. unfold wrap. destruct (Z.ltb_spec i w).
  - by rewrite Z.mod_pow2_bits_low.
  - by rewrite Z.mod_pow2_bits_high.
Qed.

Lemma testbit_small x n i : 0 ≤ x < 2 ^ n → n ≤ i → Z.testbit x i = false.
Proof.
  intros [Hx Hn] Hi. destruct (decide (x = 0)) as [->|]; [apply Z.testbit_0_l|].
  apply Z.bits_above_log2; [done|].
  destruct (Z.le_gt_cases 0 n).
  - assert (Z.log2 x < n) by (apply Z.log2_lt_pow2; lia). lia.
  - rewrite Z.pow_neg_r in Hn by lia. lia.
Qed.

Lemma testbit_byte x i : 0 ≤ x < 256 → 8 ≤ i → Z.testbit x i = false.
Proof. intros. by apply (testbit_small x 8). Qed.

(** ** Arrays

    A C array is a list; an access outside it is undefined. *)
Definition aread {A} (l : list A) (i : Z) : cres A :=
  if i <? 0 then UB else
  match l !! Z.to_nat i with Some x => Ok x | None => UB end.

Definition awrite {A} (l : list A) (i : Z) (x : A) : cres (list A) :=
  if (0 <=? i) && (i <? Z.of_nat (length l))
  then Ok (<[Z.to_nat i := x]> l) else UB.

(** [memcpy(m + off, bs, length bs)]. *)
Definition poke {A} (m : list A) (off : nat) (bs : list A) : cres (list A) :=
  if (off + length bs <=? length m)%nat
  then Ok (take off m ++ bs ++ drop (off + length bs) m) else UB.

(** [*p] for a pointer into a buffer, given by what the buffer still holds
    from [p] on. *)
Definition deref {A} (l : list A) : cres A :=
  match l with x :: _ => Ok x | [] => UB end.

Lemma aread_Ok {A} (l : list A) i x :
  0 ≤ i → l !! Z.to_nat i = Some x → aread l i = Ok x.
Proof. intros ? H. unfold aread. destruct (Z.ltb_spec i 0); [lia|]. by rewrite H. Qed.

Lemma aread_inv {A} (l : list A) i x :
  aread l i = Ok x → 0 ≤ i ∧ l !! Z.to_nat i = Some x.
Proof.
  unfold aread. destruct (Z.ltb_spec i 0); [done|].
  destruct (l !! Z.to_nat i) eqn:E; naive_solver.
Qed.

Lemma aread_lt {A} (l : list A) i :
  0 ≤ i < Z.of_nat (length l) → ∃ x, aread l i = Ok x ∧ l !! Z.to_nat i = Some x.
Proof.
  intros. destruct (lookup_lt_is_Some_2 l (Z.to_nat i)) as [x Hx]; [lia|].
  exists x. split; [by apply aread_Ok; [lia|]|done].
Qed.

Lemma awrite_lt {A} (l : list A) i x :
  0 ≤ i < Z.of_nat (length l) → awrite l i x = Ok (<[Z.to_nat i := x]> l).
Proof.
  intros. unfold awrite.
  destruct (Z.leb_spec 0 i), (Z.ltb_spec i (Z.of_nat (length l))); (done || lia).
Qed.

Lemma awrite_length {A} (l l' : list A) i x :
  awrite l i x = Ok l' → length l' = length l.
Proof.
  unfold awrite. case_match; [|done]. intros [= <-]. by rewrite length_insert.
Qed.

Lemma poke_Ok {A} (m bs : list A) off : (off + length bs ≤ length m)%nat →
  ∃ m', poke m off bs = Ok m' ∧ length m' = length m ∧
    take (length bs) (drop off m') = bs.
Proof.
  intros. unfold poke. destruct (Nat.leb_spec (off + length bs) (length m)); [|lia].
  eexists. split; [done|]. rewrite !length_app, length_take, length_drop. split; [lia|].
  rewrite drop_app_length' by (rewrite length_take; lia). by rewrite take_app_length.
Qed.

(** ** Proof automation *)

(** Runs the binds of a C computation whose first step is known. *)
Ltac run := cbn [mbind cres_bind].

(** [lia] with division and modulo by constants. *)
Ltac dlia := Z.to_euclidean_division_equations; lia.

Ltac bool_cases :=
  repeat match goal with
  | |- context [Z.ltb ?a ?b] => destruct (Z.ltb_spec a b); try lia
  | |- context [Z.leb ?a ?b] => destruct (Z.leb_spec a b); try lia
  | |- context [Z.eqb ?a ?b] => destruct (Z.eqb_spec a b); try lia
  end; simpl.

Create HintDb ocserv discriminated.
#[export] Hint Resolve wrap_range : ocserv.
