(* ===== verification/LzsStream.v ===== *)
(** * Bit streams for LZS

    The view of a byte buffer as a stream of bits, most significant bit
    first, and what [GET_BITS] and [PUT_BITS] of src/lzs.c do to it: a read
    takes the next bits off the front of the reader's stream, a write adds
    bits at the end of the writer's. *)

From S2P Require Import Prelude Lzs.

(** The [n] low bits of [x], most significant first. *)
Fixpoint be (n : nat) (x : Z) : list bool :=
  match n with
  | O => []
  | S n => Z.testbit x (Z.of_nat n) :: be n x
  end.

Definition stream (l : list Z) : list bool := concat (be 8 <$> l).

(** What the reader has still to deliver. *)
Definition rstream (r : reader) : list bool :=
  match src r with
  | [] => []
  | b :: l => be (Z.to_nat (bits_left r)) b ++ stream l
  end.

(** What has been handed to the writer: the bytes written and the bits it
    still holds. *)
Definition wstream (w : writer) : list bool :=
  stream (take (Z.to_nat (outpos w)) (dst w)) ++ be (Z.to_nat (nr_outbits w)) (outbits w).

(** The invariant of the reader: [bits_left] is never 0. *)
Record reader_ok (r : reader) : Prop := {
  rd_bits : 1 ≤ bits_left r ≤ 8;
  rd_len : srclen r = Z.of_nat (length (src r));
  rd_bytes : bytes (src r);
}.

Record writer_ok (dstlen : Z) (w : writer) : Prop := {
  wr_nr : 0 ≤ nr_outbits w < 8;
  wr_pos : 0 ≤ outpos w ≤ dstlen;
  wr_len : dstlen ≤ Z.of_nat (length (dst w));
  wr_bits : 0 ≤ outbits w;
  wr_bytes : bytes (take (Z.to_nat (outpos w)) (dst w));
}.

(** ** Bit lists *)

Lemma length_be n x : length (be n x) = n.
Proof. induction n; simpl; auto. Qed.

Lemma length_stream l : length (stream l) = (8 * length l)%nat.
Proof.
  induction l as [|b l IH]; [done|]. change (stream (b :: l)) with (be 8 b ++ stream l).
  rewrite length_app, length_be. simpl. lia.
Qed.

Lemma stream_app l k : stream (l ++ k) = stream l ++ stream k.
Proof. unfold stream. by rewrite fmap_app, concat_app. Qed.

Lemma be_ext n x y :
  (∀ i, 0 ≤ i < Z.of_nat n → Z.testbit x i = Z.testbit y i) → be n x = be n y.
Proof.
  induction n as [|n IH]; intros H; simpl; [done|].
  f_equal; [apply H; lia|apply IH; intros; apply H; lia].
Qed.

Lemma be_app n m x : be (n + m) x = be n (Z.shiftr x (Z.of_nat m)) ++ be m x.
Proof.
  induction n as [|n IH]; simpl; [done|].
  rewrite IH, Z.shiftr_spec by lia. f_equal. f_equal. lia.
Qed.

Lemma be_inj_bits n x y :
  be n x = be n y → ∀ i, 0 ≤ i < Z.of_nat n → Z.testbit x i = Z.testbit y i.
Proof.
  induction n as [|n IH]; simpl; [lia|]. intros [= H1 H2] i Hi.
  destruct (decide (i = Z.of_nat n)) as [->|]; [done|apply IH; auto with lia].
Qed.

Lemma be_inj n x y :
  0 ≤ x < 2 ^ Z.of_nat n → 0 ≤ y < 2 ^ Z.of_nat n → be n x = be n y → x = y.
Proof.
  intros Hx Hy H. apply Z.bits_inj'. intros i Hi.
  destruct (Z.lt_ge_cases i (Z.of_nat n)).
  - by apply (be_inj_bits n).
  - by rewrite !(testbit_small _ (Z.of_nat n)) by lia.
Qed.

Lemma stream_cons b l : stream (b :: l) = be 8 b ++ stream l.
Proof. done. Qed.
#[global] Arguments be : simpl never.
#[global] Arguments stream : simpl never.

(** ** The reader *)

Lemma rstream_length r :
  reader_ok r → Z.of_nat (length (rstream r)) ≤ 8 * srclen r.
Proof.
  intros [Hb Hl _]. unfold rstream. destruct (src r) as [|b l]; simpl in *; [lia|].
  rewrite length_app, length_be, length_stream. lia.
Qed.

Lemma rstream_srclen r :
  reader_ok r → (9 ≤ length (rstream r))%nat → 2 ≤ srclen r.
Proof. intros Hr. pose proof (rstream_length r Hr). lia. Qed.

(** The bits [GET_BITS] assembles when it needs the whole of what is left of
    the current byte ([b0], [k] bits) and [m] bits of the next ([b1]). *)
Lemma be_joined (k m : nat) b0 b1 :
  0 ≤ b1 < 256 → (m ≤ 8)%nat →
  be (k + m) (Z.lor (Z.land (Z.shiftl b0 (Z.of_nat m)) (Z.shiftl 1 (Z.of_nat (k + m)) - 1))
                    (Z.shiftr b1 (8 - Z.of_nat m)))
  = be k b0 ++ be m (Z.shiftr b1 (8 - Z.of_nat m)).
Proof.
  intros Hb Hm. rewrite be_app. f_equal; apply be_ext; intros i Hi.
  all: replace (Z.shiftl 1 (Z.of_nat (k + m)) - 1) with (Z.ones (Z.of_nat (k + m)))
    by (rewrite Z.ones_equiv, Z.shiftl_1_l; lia).
  - rewrite Z.shiftr_spec, Z.lor_spec, Z.land_spec, Z.shiftl_spec, Z.ones_spec_low,
      Z.shiftr_spec by lia.
    rewrite (testbit_byte b1) by lia. rewrite andb_true_r, orb_false_r. f_equal. lia.
  - rewrite Z.lor_spec, Z.land_spec, Z.shiftl_spec by lia.
    rewrite (Z.testbit_neg_r b0) by lia. done.
Qed.

Lemma be_masked n x : 0 ≤ n →
  be (Z.to_nat n) (Z.land x (Z.shiftl 1 n - 1)) = be (Z.to_nat n) x.
Proof.
  intros Hn. apply be_ext. intros i Hi.
  replace (Z.shiftl 1 n - 1) with (Z.ones n)
    by (rewrite Z.ones_equiv, Z.shiftl_1_l; lia).
  rewrite Z.land_spec, Z.ones_spec_low by lia. apply andb_true_r.
Qed.

Lemma bits_lt_pow2 x n :
  0 ≤ x → 0 ≤ n → (∀ i, n ≤ i → Z.testbit x i = false) → x < 2 ^ n.
Proof.
  intros Hx Hn H. destruct (Z.lt_ge_cases x (2 ^ n)) as [|Hge]; [done|].
  assert (n ≤ Z.log2 x) by (apply Z.log2_le_pow2; lia).
  assert (0 < x) as Hpos by (pose proof (Z.pow_pos_nonneg 2 n); lia).
  pose proof (Z.bit_log2 x Hpos) as Hb. by rewrite H in Hb.
Qed.

Lemma land_ones_range x n : 0 ≤ n → 0 ≤ Z.land x (Z.shiftl 1 n - 1) < 2 ^ n.
Proof.
  intros. replace (Z.shiftl 1 n - 1) with (Z.ones n) by (rewrite Z.ones_equiv, Z.shiftl_1_l; lia).
  rewrite Z.land_ones by lia. apply Z.mod_pos_bound. lia.
Qed.

Lemma lor_range x y n :
  0 ≤ n → 0 ≤ x < 2 ^ n → 0 ≤ y < 2 ^ n → 0 ≤ Z.lor x y < 2 ^ n.
Proof.
  intros. assert (0 ≤ Z.lor x y) by (apply Z.lor_nonneg; lia). split; [done|].
  apply bits_lt_pow2; [done..|]. intros. rewrite Z.lor_spec.
  by rewrite !(testbit_small _ n) by lia.
Qed.

Lemma shiftr_byte_range b k : 0 ≤ b < 256 → 0 ≤ k ≤ 8 → 0 ≤ Z.shiftr b k < 2 ^ (8 - k).
Proof.
  intros. rewrite Z.shiftr_div_pow2 by lia.
  assert (2 ^ (8 - k) * 2 ^ k = 256) by (rewrite <- Z.pow_add_r by lia; by replace (8 - k + k) with 8 by lia).
  split; [apply Z.div_pos; lia|]. apply Z.div_lt_upper_bound; lia.
Qed.

Lemma be_split_byte (k : nat) b : (k ≤ 8)%nat →
  be 8 b = be k (Z.shiftr b (8 - Z.of_nat k)) ++ be (8 - k) b.
Proof.
  intros. replace 8%nat with (k + (8 - k))%nat at 1 by lia. rewrite be_app.
  do 3 f_equal. lia.
Qed.

(** [GET_BITS(bits)] on a well-formed reader with two bytes left takes the
    next [bits] bits off its stream and keeps it well formed. *)
Lemma GET_BITS_ok r n :
  reader_ok r → 2 ≤ srclen r → 1 ≤ n ≤ 9 →
  ∃ data r', GET_BITS n r = Ok (data, r') ∧
    rstream r = be (Z.to_nat n) data ++ rstream r' ∧ 0 ≤ data < 2 ^ n ∧ reader_ok r'.
Proof.
  intros [Hb Hl Hby] Hlen Hn. destruct r as [s sl bl]; simpl in *.
  destruct s as [|b0 [|b1 s]]; simpl in *; [lia..|].
  apply bytes_cons in Hby as [Hb0 Hby]. pose proof Hby as Hby1.
  apply bytes_cons in Hby as [Hb1 Hby].
  unfold GET_BITS; simpl. destruct (Z.ltb_spec sl 2); [lia|].
  assert (2 ^ 8 = 256) as E8 by done.
  destruct ((8 <=? n) || (bl <=? n)) eqn:Ebig; simpl.
  - assert (bl ≤ n) by (apply orb_true_iff in Ebig; rewrite !Z.leb_le in Ebig; lia).
    destruct ((8 <? n) || (bl + (8 - n) <? 8)) eqn:Enext; simpl.
    + set (data := Z.lor _ _).
      pose (k := Z.to_nat bl). pose (m := Z.to_nat (n - bl)).
      assert (be (Z.to_nat n) data = be k b0 ++ be m (Z.shiftr b1 (8 - Z.of_nat m))) as Hd.
      { replace (Z.to_nat n) with (k + m)%nat by (unfold k, m; lia).
        rewrite <- be_joined by (unfold m; lia).
        unfold data. f_equal. f_equal; [f_equal|]; [|f_equal|]; f_equal; unfold k, m; lia. }
      assert (0 ≤ data < 2 ^ n).
      { apply lor_range; [lia|apply land_ones_range; lia|].
        pose proof (shiftr_byte_range b1 (bl + (8 - n)) Hb1).
        assert (2 ^ (8 - (bl + (8 - n))) ≤ 2 ^ n) by (apply Z.pow_le_mono_r; lia). lia. }
      destruct ((8 <? n) && (bl + (8 - n) =? 0)) eqn:Eall.
      * apply andb_true_iff in Eall as [?%Z.ltb_lt ?%Z.eqb_eq].
        eexists _, _. split_and!; [done| |lia|lia|].
        -- rewrite Hd. unfold rstream; simpl. unfold k, m.
           replace (Z.to_nat (n - bl)) with 8%nat by lia. simpl Z.of_nat.
           rewrite Z.sub_diag, Z.shiftr_0_r, stream_cons, <- app_assoc.
           by destruct s.
        -- split; simpl in *; [lia..|done].
      * apply orb_true_iff in Enext. apply andb_false_iff in Eall.
        rewrite !Z.ltb_lt in Enext. rewrite Z.ltb_ge, Z.eqb_neq in Eall.
        eexists _, _. split_and!; [done| |lia|lia|].
        -- rewrite Hd. unfold rstream; simpl. rewrite <- app_assoc. fold k. f_equal.
           rewrite stream_cons, (be_split_byte m b1) by (unfold m; lia).
           rewrite <- app_assoc. do 3 f_equal. unfold m. lia.
        -- split; simpl in *; [lia..|done].
    + apply orb_false_iff in Enext as [?%Z.ltb_ge ?%Z.ltb_ge].
      apply orb_true_iff in Ebig. rewrite !Z.leb_le in Ebig.
      assert (n = bl) as -> by lia. rewrite Z.sub_diag, Z.shiftl_0_r.
      eexists _, _. split_and!; [done| |apply land_ones_range; lia..|].
      * rewrite be_masked by lia.
        unfold rstream; simpl. rewrite stream_cons. do 3 f_equal. lia.
      * split; simpl in *; [lia..|done].
  - apply orb_false_iff in Ebig as [?%Z.leb_gt ?%Z.leb_gt].
    eexists _, _. split_and!; [done| |apply land_ones_range; lia..|].
    + rewrite be_masked by lia. unfold rstream; simpl.
      rewrite app_assoc. f_equal.
      replace (Z.to_nat bl) with (Z.to_nat n + Z.to_nat (bl - n))%nat by lia.
      rewrite be_app. do 3 f_equal. lia.
    + split; simpl in *; [lia..|by constructor].
Qed.

Lemma GET_BITS_cases r n :
  reader_ok r → 1 ≤ n ≤ 9 →
  GET_BITS n r = Err (- EINVAL) ∨
  ∃ data r', GET_BITS n r = Ok (data, r') ∧ 0 ≤ data < 2 ^ n ∧ reader_ok r' ∧
    length (rstream r) = (Z.to_nat n + length (rstream r'))%nat.
Proof.
  intros Hr Hn. destruct (Z.lt_ge_cases (srclen r) 2) as [Hlt|].
  - left. unfold GET_BITS. by apply Z.ltb_lt in Hlt as ->.
  - right. destruct (GET_BITS_ok r n) as (d & r' & -> & Hs & ? & ?); [done..|].
    exists d, r'. by rewrite Hs, length_app, length_be.
Qed.

(** When the next bits of the stream are the [n]-bit code of [x] and at least
    nine bits are left, [GET_BITS(n)] delivers [x]. *)
Lemma GET_BITS_value r n x rest :
  reader_ok r → 1 ≤ n ≤ 9 → 0 ≤ x < 2 ^ n →
  rstream r = be (Z.to_nat n) x ++ rest → (9 ≤ Z.to_nat n + length rest)%nat →
  ∃ r', GET_BITS n r = Ok (x, r') ∧ reader_ok r' ∧ rstream r' = rest.
Proof.
  intros Hr Hn Hx Hs Hlen.
  destruct (GET_BITS_ok r n) as (d & r' & Hg & Hs' & Hd & Hr'); [done| |lia|].
  { apply rstream_srclen; [done|]. rewrite Hs, length_app, length_be. lia. }
  rewrite Hs in Hs'. apply app_inj_1 in Hs' as [Hbe ->]; [|by rewrite !length_be].
  apply be_inj in Hbe as ->; [|rewrite Z2Nat.id by lia; done..]. eauto.
Qed.

(** ** The writer *)

Lemma stream_take_snoc (l : list Z) (i : nat) b :
  (i < length l)%nat → stream (take (S i) (<[i:=b]> l)) = stream (take i l) ++ be 8 b.
Proof.
  intros Hi. rewrite (take_S_r _ _ b) by (by apply list_lookup_insert_eq).
  rewrite stream_app, take_insert_ge by lia.
  f_equal.
Qed.

Lemma be_u8 x : be 8 (u8 x) = be 8 x.
Proof.
  apply be_ext. intros i Hi. rewrite wrap_testbit by lia.
  by destruct (Z.ltb_spec i 8); [|lia].
Qed.

(** One byte leaves the writer for the buffer: the stream is the same. *)
Lemma put_byte_ok dstlen w :
  8 ≤ nr_outbits w → 0 ≤ outpos w < dstlen → dstlen ≤ Z.of_nat (length (dst w)) →
  ∃ d, put_byte dstlen w = Ok (Writer d (outpos w + 1) (outbits w) (nr_outbits w - 8)) ∧
    length d = length (dst w) ∧
    (bytes (take (Z.to_nat (outpos w)) (dst w)) → bytes (take (Z.to_nat (outpos w + 1)) d)) ∧
    wstream (Writer d (outpos w + 1) (outbits w) (nr_outbits w - 8)) = wstream w.
Proof.
  intros Hnr Hpos Hlen. destruct w as [d o ob nr]; unfold put_byte; simpl in *.
  destruct (Z.eqb_spec o dstlen); [lia|]. rewrite awrite_lt by lia. simpl.
  eexists. split; [done|]. split; [by rewrite length_insert|].
  unfold wstream; simpl. replace (Z.to_nat (o + 1)) with (S (Z.to_nat o)) by lia.
  split.
  { intros Hb. erewrite take_S_r by (apply list_lookup_insert_eq; lia).
    rewrite take_insert_ge by lia. apply bytes_app. split; [done|].
    apply bytes_cons. split; [by apply wrap_range|constructor]. }
  rewrite stream_take_snoc by lia. rewrite <- app_assoc. f_equal.
  rewrite be_u8. replace (Z.to_nat nr) with (8 + Z.to_nat (nr - 8))%nat by lia.
  rewrite be_app. do 3 f_equal. lia.
Qed.

Lemma put_byte_full dstlen w :
  outpos w = dstlen → put_byte dstlen w = Err (- EFBIG).
Proof. intros <-. unfold put_byte. by rewrite Z.eqb_refl. Qed.

(** [outbits <<= nr; outbits |= bits] appends the [nr]-bit code of [bits]. *)
Lemma be_push (k n : nat) ob x :
  (k + n ≤ 32)%nat → 0 ≤ x < 2 ^ Z.of_nat n →
  be (k + n) (Z.lor (u32 (Z.shiftl ob (Z.of_nat n))) x) = be k ob ++ be n x.
Proof.
  intros Hk Hx. rewrite be_app. f_equal; apply be_ext; intros i Hi.
  - rewrite Z.shiftr_spec, Z.lor_spec, wrap_testbit, Z.shiftl_spec by lia.
    rewrite (testbit_small x (Z.of_nat n)) by lia.
    destruct (Z.ltb_spec (i + Z.of_nat n) 32); [|lia].
    rewrite orb_false_r. simpl. f_equal. lia.
  - rewrite Z.lor_spec, wrap_testbit, Z.shiftl_spec by lia.
    rewrite (Z.testbit_neg_r ob) by lia. by rewrite andb_false_r.
Qed.

Lemma wstream_length w :
  0 ≤ outpos w ≤ Z.of_nat (length (dst w)) → 0 ≤ nr_outbits w →
  Z.of_nat (length (wstream w)) = 8 * outpos w + nr_outbits w.
Proof.
  intros. unfold wstream. rewrite length_app, length_stream, length_be, length_take. lia.
Qed.

(** The last test of [PUT_BITS]: a whole byte that is left is written. *)
Lemma flush_ok dstlen w :
  0 ≤ outpos w ≤ dstlen → dstlen ≤ Z.of_nat (length (dst w)) →
  0 ≤ nr_outbits w < 16 → 0 ≤ outbits w → bytes (take (Z.to_nat (outpos w)) (dst w)) →
  ((if 8 <=? nr_outbits w then put_byte dstlen w else Ok w) = Err (- EFBIG) ∧
   8 * dstlen + 8 ≤ Z.of_nat (length (wstream w))) ∨
  ∃ w', (if 8 <=? nr_outbits w then put_byte dstlen w else Ok w) = Ok w' ∧
    writer_ok dstlen w' ∧ wstream w' = wstream w ∧ length (dst w') = length (dst w).
Proof.
  intros Hp Hl Hn Ho Hby. pose proof (wstream_length w).
  destruct (Z.leb_spec 8 (nr_outbits w)).
  - destruct (decide (outpos w = dstlen)) as [Heq|].
    + left. split; [by apply put_byte_full|lia].
    + right. destruct (put_byte_ok dstlen w) as (d & -> & Hd & Hby' & Hs); [lia..|].
      eexists. split; [done|]. rewrite Hs. split_and!; [|done|done].
      split; simpl; (lia || auto).
  - right. exists w. split; [done|]. split; [|done]. split; (lia || done).
Qed.

(** [PUT_BITS(nr, bits)] appends [nr] bits to the stream, or stops with
    [-EFBIG] exactly when the whole bytes of the longer stream do not fit. *)
Lemma PUT_BITS_ok dstlen w (n : nat) x :
  writer_ok dstlen w → (1 ≤ n ≤ 16)%nat → 0 ≤ x < 2 ^ Z.of_nat n →
  (PUT_BITS dstlen (Z.of_nat n) x w = Err (- EFBIG) ∧
   8 * dstlen + 8 ≤ Z.of_nat (length (wstream w) + n)) ∨
  ∃ w', PUT_BITS dstlen (Z.of_nat n) x w = Ok w' ∧ writer_ok dstlen w' ∧
    wstream w' = wstream w ++ be n x ∧ length (dst w') = length (dst w).
Proof.
  intros [Hnr Hpos Hlen Hob Hby] Hn Hx. unfold PUT_BITS.
  set (w1 := Writer (dst w) _ _ _).
  assert (wstream w1 = wstream w ++ be n x) as Hs1.
  { unfold wstream, w1; simpl. rewrite <- app_assoc. f_equal.
    rewrite <- be_push by lia. f_equal. lia. }
  assert (0 ≤ outbits w1).
  { simpl. apply Z.lor_nonneg. pose proof (wrap_range 32 (Z.shiftl (outbits w) (Z.of_nat n))). lia. }
  assert (length (wstream w) + n = length (wstream w1))%nat as Hlw
    by (by rewrite Hs1, length_app, length_be).
  pose proof (wstream_length w1) as Hw1. simpl in Hw1. rewrite Hlw, <- Hs1.
  destruct (Z.ltb_spec 8 (Z.of_nat n)); simpl.
  - destruct (decide (outpos w = dstlen)) as [Heq|].
    + left. rewrite put_byte_full by done. split; [done|lia].
    + destruct (put_byte_ok dstlen w1) as (d & -> & Hd & Hby' & Hs); [simpl; lia..|].
      simpl mbind. rewrite <- Hs. change (dst w) with (dst w1). rewrite <- Hd.
      apply (flush_ok dstlen (Writer d (outpos w1 + 1) (outbits w1) (nr_outbits w1 - 8)));
        subst w1; simpl in *; first [by auto|lia].
  - apply (flush_ok dstlen w1); subst w1; simpl in *; first [by auto|lia].
Qed.
