(* ===== verification/LzsCorrect.v ===== *)
(** * Correctness of LZS compression

    Memory safety and termination of [lzs_decompress] on any input,
    totality of [lzs_compress], and the round trip between the two. *)

From S2P Require Import Prelude Lzs LzsStream.

(** ** Decompression of arbitrary input *)

Section decompress_safe.
Context (dstlen : Z).

Definition lzs_error (c : Z) : Prop := c = - EINVAL ∨ c = - EFBIG.

Lemma GET_BITS_wp r n :
  reader_ok r → 1 ≤ n ≤ 9 →
  cwp (GET_BITS n r) (λ '(data, r'), 0 ≤ data < 2 ^ n ∧ reader_ok r' ∧
    length (rstream r) = (Z.to_nat n + length (rstream r'))%nat) lzs_error.
Proof.
  intros Hr Hn. destruct (GET_BITS_cases r n) as [->|(d & r' & -> & ? & ? & ?)];
    [done..|by left|done].
Qed.

Lemma literals_wp fuel data r dst outlen :
  reader_ok r → 0 ≤ data < 512 → (length (rstream r) < fuel)%nat →
  0 ≤ outlen ≤ dstlen → dstlen ≤ Z.of_nat (length dst) →
  cwp (literals fuel data r dst dstlen outlen) (λ '(data', r', dst', outlen'),
    256 ≤ data' < 512 ∧ reader_ok r' ∧ (length (rstream r') ≤ length (rstream r))%nat ∧
    length dst' = length dst ∧ 0 ≤ outlen' ≤ dstlen) lzs_error.
Proof.
  revert data r dst outlen. induction fuel as [|fuel IH];
    intros data r dst outlen Hr Hd Hf Ho Hl; simpl; [lia|].
  destruct (Z.ltb_spec data 256); [|simpl; split_and!; (done || lia)].
  destruct (Z.eqb_spec outlen dstlen); [by right|].
  rewrite awrite_lt by lia. simpl. apply cwp_bind.
  eapply cwp_mono; [by apply GET_BITS_wp| |done].
  intros [data' r'] (Hd' & Hr' & Hs). eapply cwp_mono; [apply IH| |done].
  all: rewrite ?length_insert; try (done || lia).
  intros [[[??]?]?] (?&?&?&->&?). split_and!; (done || lia).
Qed.

Lemma long_length_wp fuel len r :
  reader_ok r → 0 ≤ len < 65536 → (length (rstream r) < fuel)%nat →
  cwp (long_length fuel len r) (λ '(len', r'), 0 ≤ len' < 65536 ∧ reader_ok r' ∧
    (length (rstream r') ≤ length (rstream r))%nat) lzs_error.
Proof.
  revert len r. induction fuel as [|fuel IH]; intros len r Hr Hlen Hf; simpl; [lia|].
  apply cwp_bind. eapply cwp_mono; [by apply GET_BITS_wp| |done].
  intros [data r'] (Hd & Hr' & Hs). destruct (Z.eqb_spec data 15); simpl.
  - eapply cwp_mono; [apply IH|..]; [done|by apply wrap_range|lia| |done].
    intros [??] (?&?&?). split_and!; (done || lia).
  - split_and!; [by apply wrap_range..|done|lia].
Qed.

Lemma match_length_wp fuel r :
  reader_ok r → (length (rstream r) < fuel)%nat →
  cwp (match_length fuel r) (λ '(len, r'), 0 ≤ len < 65536 ∧ reader_ok r' ∧
    (length (rstream r') ≤ length (rstream r))%nat) lzs_error.
Proof.
  intros Hr Hf. unfold match_length.
  apply cwp_bind. eapply cwp_mono; [by apply GET_BITS_wp| |done].
  intros [d r1] (Hd & Hr1 & Hs1). destruct (Z.eqb_spec d 3); simpl;
    [|split_and!; (done || lia)].
  apply cwp_bind. eapply cwp_mono; [by apply GET_BITS_wp| |done].
  intros [d2 r2] (Hd2 & Hr2 & Hs2). destruct (Z.eqb_spec d2 3); simpl;
    [|split_and!; (done || lia)].
  eapply cwp_mono; [by apply long_length_wp; [|lia..]| |done].
  intros [??] (?&?&?). split_and!; (done || lia).
Qed.

Lemma copy_match_wp n dst outlen offset :
  0 ≤ offset ≤ outlen → outlen + Z.of_nat n ≤ Z.of_nat (length dst) →
  cwp (copy_match n dst outlen offset) (λ '(dst', outlen'),
    length dst' = length dst ∧ outlen' = outlen + Z.of_nat n) lzs_error.
Proof.
  revert dst outlen. induction n as [|n IH]; intros dst outlen Ho Hn;
    cbn [copy_match]; [simpl; lia|].
  destruct (aread_lt dst (outlen - offset)) as (b & -> & _); [lia|]. simpl.
  rewrite awrite_lt by lia. simpl. eapply cwp_mono; [apply IH| |done].
  all: rewrite ?length_insert; try lia. intros [??] [-> ->]. split; lia.
Qed.

Lemma decompress_loop_wp fuel r dst outlen :
  reader_ok r → (length (rstream r) < fuel)%nat →
  0 ≤ outlen ≤ dstlen → dstlen ≤ Z.of_nat (length dst) →
  cwp (decompress_loop fuel r dst dstlen outlen) (λ '(n, dst'),
    0 ≤ n ≤ dstlen ∧ length dst' = length dst) lzs_error.
Proof.
  revert r dst outlen. induction fuel as [|fuel IH];
    intros r dst outlen Hr Hf Ho Hl; cbn [decompress_loop]; [lia|].
  apply cwp_bind. eapply cwp_mono; [by apply GET_BITS_wp| |done].
  intros [data r1] (Hd & Hr1 & Hs1). apply cwp_bind.
  eapply cwp_mono; [by apply literals_wp; [|lia..]| |done].
  intros [[[data2 r2] dst2] outlen2] (Hd2 & Hr2 & Hs2 & Hl2 & Ho2).
  destruct (Z.eqb_spec data2 384); [simpl; split_and!; (done || lia)|].
  apply cwp_bind. eapply (cwp_mono _ (λ '(offset, r3), 0 ≤ offset ∧ reader_ok r3 ∧
    (length (rstream r3) ≤ length (rstream r2))%nat)); [| |done].
  { assert (0 ≤ Z.land data2 127) by (apply Z.land_nonneg; lia).
    destruct (Z.ltb_spec data2 384); [|simpl; split_and!; (done || lia)].
    apply cwp_bind. eapply cwp_mono; [by apply GET_BITS_wp| |done].
    intros [d r3] (Hd3 & Hr3 & Hs3). simpl. split_and!; [|done|lia].
    apply Z.lor_nonneg. pose proof (wrap_range 16 (Z.shiftl (Z.land data2 127) 4)). lia. }
  intros [offset r3] (Hoff & Hr3 & Hs3). apply cwp_bind.
  eapply cwp_mono; [by apply match_length_wp; [|lia]| |done].
  intros [len r4] (Hlen & Hr4 & Hs4).
  destruct (Z.ltb_spec outlen2 offset); [by left|].
  destruct (Z.ltb_spec dstlen (len + outlen2)); [by right|].
  apply cwp_bind. eapply cwp_mono; [apply copy_match_wp; lia| |done].
  intros [dst5 outlen5] [Hl5 ->]. eapply cwp_mono; [apply IH| |done].
  all: rewrite ?Hl5, ?Hl2; try (done || lia).
Qed.
End decompress_safe.

Lemma lzs_decompress_defined (dst src : list Z) (dstlen : Z) :
  bytes src → 0 ≤ dstlen ≤ Z.of_nat (length dst) →
  match lzs_decompress dst dstlen src (Z.of_nat (length src)) with
  | Ok (n, dst') => 0 ≤ n ≤ dstlen ∧ length dst' = length dst
  | Err c => c = - EINVAL ∨ c = - EFBIG
  | UB | Fuel => False
  end.
Proof.
  intros Hb Hd. set (r := Reader src (Z.of_nat (length src)) 8).
  assert (reader_ok r) as Hr by (split; simpl; (done || lia)).
  pose proof (rstream_length r Hr) as Hlen. simpl in Hlen.
  pose proof (decompress_loop_wp dstlen (bits_fuel (Z.of_nat (length src))) r dst 0 Hr) as H.
  unfold lzs_decompress. fold r. unfold cwp, lzs_error in H.
  assert (length (rstream r) < bits_fuel (Z.of_nat (length src)))%nat as Hf
    by (unfold bits_fuel; lia).
  specialize (H Hf ltac:(lia) ltac:(lia)). by repeat case_match.
Qed.

(** C9: Decompressing any bytes into a buffer of at least [dstlen] cells ends,
    reads and writes inside the buffers, and either fails with [-EINVAL] or
    [-EFBIG] or says how many of the [dstlen] cells it filled. *)
Theorem lzs_decompress_safe (dst src : list Z) (dstlen : Z) :
  bytes src → 0 ≤ dstlen ≤ Z.of_nat (length dst) →
  match lzs_decompress dst dstlen src (Z.of_nat (length src)) with
  | Ok (n, dst') => 0 ≤ n ≤ dstlen ∧ length dst' = length dst
  | Err c => c = - EINVAL ∨ c = - EFBIG
  | UB | Fuel => False
  end.
Proof. apply lzs_decompress_defined. Qed.


(** ** Tokens

    The compressed stream is a sequence of literals and copies followed by
    an end marker. *)
Inductive token := Lit (b : Z) | Copy (ofs len : Z).

Definition enc_offset (o : Z) : list bool :=
  if o <? 128 then be 9 (Z.lor 384 o) else be 13 (Z.lor 4096 o).

Definition nibbles (q : nat) : list bool := concat (replicate q (be 4 15)).

Definition enc_length (len : Z) : list bool :=
  if len <? 5 then be 2 (len - 2) else
  if len <? 8 then be 4 (len + 7) else
  nibbles (Z.to_nat ((len + 7) / 15)) ++ be 4 ((len + 7) mod 15).

Definition enc (t : token) : list bool :=
  match t with
  | Lit b => be 9 b
  | Copy o l => enc_offset o ++ enc_length l
  end.

Definition encs (ts : list token) : list bool := concat (enc <$> ts).

(** [covers src p ts q]: the tokens describe the bytes of [src] from [p] up
    to [q], a copy by an earlier occurrence of the bytes in reach of an
    11-bit offset. *)
Inductive covers (src : list Z) : Z → list token → Z → Prop :=
| covers_nil p : covers src p [] p
| covers_lit p q b ts :
    0 ≤ p → src !! Z.to_nat p = Some b → covers src (p + 1) ts q →
    covers src p (Lit b :: ts) q
| covers_copy p q o l ts :
    1 ≤ o ≤ p → o < 2048 → 2 ≤ l < 65536 → p + l ≤ Z.of_nat (length src) →
    (∀ k, 0 ≤ k < l → src !! Z.to_nat (p + k) = src !! Z.to_nat (p - o + k)) →
    covers src (p + l) ts q → covers src p (Copy o l :: ts) q.

Lemma covers_app src p ts q us r :
  covers src p ts q → covers src q us r → covers src p (ts ++ us) r.
Proof. induction 1; simpl; eauto using covers. Qed.

Lemma covers_le src p ts q : covers src p ts q → p ≤ q.
Proof. induction 1; lia. Qed.

Lemma encs_app ts us : encs (ts ++ us) = encs ts ++ encs us.
Proof. unfold encs. by rewrite fmap_app, concat_app. Qed.

Lemma encs_cons t ts : encs (t :: ts) = enc t ++ encs ts.
Proof. done. Qed.

Lemma length_encs_lit bs : length (encs (Lit <$> bs)) = (9 * length bs)%nat.
Proof.
  induction bs as [|b bs IH]; [done|]. rewrite fmap_cons, encs_cons, length_app, IH.
  cbn [enc length]. rewrite length_be. lia.
Qed.

Lemma nibbles_S q : nibbles (S q) = be 4 15 ++ nibbles q.
Proof. done. Qed.

Lemma length_nibbles q : length (nibbles q) = (4 * q)%nat.
Proof.
  induction q as [|q IH]; [done|]. rewrite nibbles_S, length_app, length_be, IH. lia.
Qed.

Lemma length_enc_offset o : (9 ≤ length (enc_offset o) ≤ 13)%nat.
Proof. unfold enc_offset. case_match; rewrite length_be; lia. Qed.

(** A copy never takes more bits than its bytes would as literals. *)
Lemma length_enc_copy o l :
  2 ≤ l → Z.of_nat (length (enc (Copy o l))) ≤ 9 * l.
Proof.
  intros Hl. simpl. rewrite length_app. pose proof (length_enc_offset o).
  unfold enc_length.
  bool_cases; rewrite ?length_app, ?length_nibbles, ?length_be; try lia.
  pose proof (Z.div_mod (l + 7) 15). pose proof (Z.mod_pos_bound (l + 7) 15). lia.
Qed.

Lemma length_encs src p ts q :
  covers src p ts q → Z.of_nat (length (encs ts)) ≤ 9 * (q - p).
Proof.
  unfold encs. induction 1 as [|p q b ts ??? IH|p q o l ts ????? _ IH].
  - simpl. lia.
  - cbn [fmap list_fmap concat enc]. rewrite length_app, length_be. lia.
  - cbn [fmap list_fmap concat]. rewrite length_app.
    pose proof (length_enc_copy o l). lia.
Qed.

(** ** What the compressor writes *)

Section emit.
Context (dstlen : Z).

Definition emits (w : writer) (bits : list bool) (w' : writer) : Prop :=
  writer_ok dstlen w' ∧ wstream w' = wstream w ++ bits ∧ length (dst w') = length (dst w).

(** [-EFBIG] with [n] bits to come is returned only if they do not fit. *)
Definition full (w : writer) (n : nat) (c : Z) : Prop :=
  c = - EFBIG ∧ 8 * dstlen + 8 ≤ Z.of_nat (length (wstream w) + n).

Lemma PUT_BITS_wp w (n : nat) x :
  writer_ok dstlen w → (1 ≤ n ≤ 16)%nat → 0 ≤ x < 2 ^ Z.of_nat n →
  cwp (PUT_BITS dstlen (Z.of_nat n) x w) (emits w (be n x)) (full w n).
Proof.
  intros Hw Hn Hx. destruct (PUT_BITS_ok dstlen w n x Hw Hn Hx)
    as [[-> ?]|(w' & -> & ? & ? & ?)]; done.
Qed.

Lemma emits_trans w bs w' cs w'' :
  emits w bs w' → emits w' cs w'' → emits w (bs ++ cs) w''.
Proof.
  intros (?&Hs&Hl) (?&Hs'&Hl'). split; [done|].
  by rewrite Hs', Hs, Hl', Hl, app_assoc.
Qed.

Lemma full_le w n m c : full w n c → (n ≤ m)%nat → full w m c.
Proof. intros [??] ?. split; [done|lia]. Qed.

Lemma full_emits w bs w' n m c :
  emits w bs w' → full w' n c → (length bs + n ≤ m)%nat → full w m c.
Proof. intros (?&Hs&?) [? Hful] ?. split; [done|]. rewrite Hs, length_app in Hful. lia. Qed.

(** Running [f] after something was emitted. *)
Lemma emits_bind w bs cs (m : cres writer) (f : writer → cres writer) :
  cwp m (emits w bs) (full w (length bs)) →
  (∀ w', emits w bs w' → cwp (f w') (emits w' cs) (full w' (length cs))) →
  cwp (m ≫= f) (emits w (bs ++ cs)) (full w (length (bs ++ cs))).
Proof.
  intros Hm Hf. rewrite length_app. apply cwp_bind. eapply cwp_mono; [exact Hm|..].
  - intros w' Hw'. eapply cwp_mono; [by apply Hf|..].
    + intros. by eapply emits_trans.
    + intros. by eapply full_emits.
  - intros c Hc. eapply full_le; [done|lia].
Qed.

Lemma put_offset_wp w o :
  writer_ok dstlen w → 1 ≤ o < 2048 →
  cwp (put_offset dstlen o w) (emits w (enc_offset o)) (full w (length (enc_offset o))).
Proof.
  intros Hw Ho. unfold put_offset, enc_offset.
  destruct (Z.ltb_spec o 128); rewrite length_be.
  - apply (PUT_BITS_wp w 9); [done|lia|]. apply lor_range; simpl; lia.
  - apply (PUT_BITS_wp w 13); [done|lia|]. apply lor_range; simpl; lia.
Qed.

Lemma nibbles_app m n : nibbles (m + n) = nibbles m ++ nibbles n.
Proof. unfold nibbles. by rewrite replicate_add, concat_app. Qed.

Lemma put_long_wp fuel len w :
  writer_ok dstlen w → 0 ≤ len ≤ Z.of_nat fuel →
  cwp (put_long fuel dstlen len w)
    (λ '(len', w'), len' = len mod 30 ∧ emits w (nibbles (2 * Z.to_nat (len / 30))) w')
    (full w (8 * Z.to_nat (len / 30))).
Proof.
  revert len w. induction fuel as [|fuel IH]; intros len w Hw Hlen; cbn [put_long].
  all: destruct (Z.leb_spec 30 len); try lia.
  2: apply cwp_bind; eapply cwp_mono; [by apply (PUT_BITS_wp w 8 255); [|lia|]|..].
  2: { intros w1 Hw1. eapply cwp_mono; [apply IH; [apply Hw1|lia]|..].
    - intros [len' w2] [-> Hw2]. split; [dlia|].
      replace (2 * Z.to_nat (len / 30))%nat with (2 + 2 * Z.to_nat ((len - 30) / 30))%nat by dlia.
      rewrite nibbles_app. by eapply emits_trans.
    - intros c Hc. eapply full_emits; [done..|]. rewrite length_be. dlia. }
  2: intros c Hc; eapply full_le; [done|dlia].
  all: simpl; split; [dlia|]; replace (Z.to_nat (len / 30)) with 0%nat by dlia.
  all: split; [done|]; split; [by rewrite app_nil_r|done].
Qed.

Lemma be_f0 m : 0 ≤ m < 16 → be 8 (240 + m) = be 4 15 ++ be 4 m.
Proof.
  intros Hm.
  assert (Forall (λ m, be 8 (240 + m) = be 4 15 ++ be 4 m) (seqZ 0 16)) as Hall
    by (by apply (bool_decide_unpack _); vm_compute).
  rewrite Forall_forall in Hall. apply Hall, elem_of_seqZ. lia.
Qed.

Lemma put_length_wp w l :
  writer_ok dstlen w → 2 ≤ l →
  cwp (put_length dstlen l w) (emits w (enc_length l)) (full w (length (enc_length l))).
Proof.
  intros Hw Hl. unfold put_length, enc_length. bool_cases; rewrite ?length_be.
  - apply (PUT_BITS_wp w 2); [done|lia|simpl; lia].
  - apply (PUT_BITS_wp w 4); [done|lia|simpl; lia].
  - apply cwp_bind. eapply cwp_mono; [apply put_long_wp; [done|lia]|..].
    + intros [len w1] [-> Hw1]. destruct (Z.leb_spec 15 ((l + 7) mod 30)).
      * replace (Z.to_nat ((l + 7) / 15)) with (2 * Z.to_nat ((l + 7) / 30) + 1)%nat by dlia.
        replace ((l + 7) mod 15) with ((l + 7) mod 30 - 15) by dlia.
        rewrite nibbles_app, <- app_assoc, length_app.
        change (nibbles 1 ++ be 4 ((l + 7) mod 30 - 15))
          with (be 4 15 ++ be 4 ((l + 7) mod 30 - 15)).
        rewrite <- be_f0 by dlia.
        eapply cwp_mono; [apply (PUT_BITS_wp w1 8); [apply Hw1|lia|dlia]|..].
        -- intros w2 Hw2. replace (240 + ((l + 7) mod 30 - 15)) with (240 + (l + 7) mod 30 - 15) by lia.
           by eapply emits_trans.
        -- intros c Hc. eapply full_emits; [done..|]. rewrite length_nibbles, length_be. dlia.
      * replace (Z.to_nat ((l + 7) / 15)) with (2 * Z.to_nat ((l + 7) / 30))%nat by dlia.
        replace ((l + 7) mod 15) with ((l + 7) mod 30) by dlia.
        eapply cwp_mono; [apply (PUT_BITS_wp w1 4); [apply Hw1|lia|dlia]|..].
        -- intros w2 Hw2. by eapply emits_trans.
        -- intros c Hc. eapply full_emits; [done..|]. rewrite length_app, !length_nibbles, length_be. dlia.
    + intros c Hc. eapply full_le; [done|]. rewrite length_app, length_nibbles, length_be. dlia.
Qed.
End emit.

(** ** The match finder *)

Section matches.
Context (src : list Z) (Hbytes : bytes src).
Abbreviation n := (Z.of_nat (length src)).

Lemma HASH_ok p :
  0 ≤ p → p + 1 < n →
  ∃ a b, src !! Z.to_nat p = Some a ∧ src !! Z.to_nat (p + 1) = Some b ∧
    HASH src p = Ok (a + 256 * b) ∧ 0 ≤ a < 256.
Proof.
  intros. unfold HASH.
  destruct (aread_lt src p) as (a & -> & Ha); [lia|].
  destruct (aread_lt src (p + 1)) as (b & -> & Hb); [lia|].
  exists a, b. split_and!; try done; by apply (bytes_lookup src _ _ Hbytes Ha).
Qed.

(** "Since the hash is 16-bits, we know the first two bytes match" *)
Lemma HASH_eq p q :
  0 ≤ p → p + 1 < n → 0 ≤ q → q + 1 < n → HASH src p = HASH src q →
  src !! Z.to_nat p = src !! Z.to_nat q ∧
  src !! Z.to_nat (p + 1) = src !! Z.to_nat (q + 1).
Proof.
  intros ???? H. destruct (HASH_ok p) as (a & b & Ha & Hb & E & ?); [done..|].
  destruct (HASH_ok q) as (a' & b' & Ha' & Hb' & E' & ?); [done..|].
  rewrite E, E' in H. injection H as H. rewrite Ha, Hb, Ha', Hb'.
  split; f_equal; lia.
Qed.

(** A candidate for a match at [p]: none, or an earlier position with the
    same hash. *)
Definition candidate (p v : Z) : Prop :=
  v = INVALID_OFS ∨ (0 ≤ v < p ∧ HASH src v = HASH src p).

(** The history after the positions below [p] were recorded: the table
    holds earlier positions under their hash, and the ring buffer holds the
    link of each of the last [MAX_HISTORY] positions. *)
Record hist_ok (p : Z) (h : history) : Prop := {
  ho_range : 0 ≤ p ≤ INVALID_OFS;
  ho_table : ∀ k v, hash_table h !! k = Some v → 0 ≤ v < p ∧ HASH src v = Ok k;
  ho_chain : ∀ q, 0 ≤ q < p → p ≤ q + 2048 →
    ∃ v, hash_chain h !! chain_slot q = Some v ∧ candidate q v;
}.

Lemma chain_slot_mod p : 0 ≤ p → chain_slot p = p mod 2048.
Proof. intros. unfold chain_slot. by apply (Z.land_ones p 11). Qed.

Lemma ht_get_candidate p h k :
  hist_ok p h → HASH src p = Ok k → candidate p (ht_get h k).
Proof.
  intros Hh Hk. unfold ht_get. destruct (hash_table h !! k) as [v|] eqn:E; simpl; [|by left].
  right. destruct (ho_table _ _ Hh _ _ E) as [? Hv]. by rewrite Hv, Hk.
Qed.

Lemma hist_ok_init : hist_ok 0 (History ∅ ∅).
Proof. split; [done|done|lia]. Qed.

Lemma record_pos_ok p h k :
  hist_ok p h → HASH src p = Ok k → p < INVALID_OFS →
  hist_ok (p + 1) (record_pos h k p).2 ∧ candidate p (record_pos h k p).1.
Proof.
  intros Hh Hk Hp. pose proof (ho_range _ _ Hh). split; [|by apply ht_get_candidate].
  unfold INVALID_OFS in *. split; simpl; [unfold INVALID_OFS; lia|..].
  - intros k' v. rewrite lookup_insert. case_decide as Hd; intros E.
    + injection E as <-. rewrite wrap_small by (simpl; lia). subst k'. split; [lia|done].
    + destruct (ho_table _ _ Hh _ _ E) as [? Hv]. split; [lia|done].
  - intros q Hq Hr. rewrite !chain_slot_mod, lookup_insert by lia.
    destruct (decide (p mod 2048 = q mod 2048)) as [Em|Em].
    + assert (q = p) as -> by dlia. exists (ht_get h k). split; [done|].
      by apply ht_get_candidate.
    + assert (q ≠ p) by (by intros ->). rewrite <- chain_slot_mod by lia.
      apply (ho_chain _ _ Hh); lia.
Qed.

Lemma record_rest_ok m p h :
  hist_ok p h → p + Z.of_nat m < n → p + Z.of_nat m ≤ INVALID_OFS →
  ∃ h', record_rest m h src p = Ok (h', p + Z.of_nat m) ∧ hist_ok (p + Z.of_nat m) h'.
Proof.
  revert p h. induction m as [|m IH]; intros p h Hh Hn Hp; cbn [record_rest].
  - exists h. rewrite Z.add_0_r. done.
  - pose proof (ho_range _ _ Hh).
    destruct (HASH_ok p) as (a & b & _ & _ & E & _); [lia..|]. rewrite E. run.
    destruct (record_pos_ok p h (a + 256 * b)) as [Hh' _]; [done|done|lia|].
    destruct (IH (p + 1) _ Hh') as (h' & -> & Hok); [lia..|].
    exists h'. replace (p + Z.of_nat (S m)) with (p + 1 + Z.of_nat m) by lia. done.
Qed.

(** [len] bytes at [o] and at [p] are the same. *)
Definition same (p o len : Z) : Prop :=
  ∀ k, 0 ≤ k < len → src !! Z.to_nat (p + k) = src !! Z.to_nat (o + k).

Lemma same_S p o len :
  0 ≤ len → same p o len → src !! Z.to_nat (len + p) = src !! Z.to_nat (len + o) →
  same p o (len + 1).
Proof.
  intros ? Hs H k Hk. destruct (decide (k = len)) as [->|]; [|apply Hs; lia].
  by rewrite (Z.add_comm p), (Z.add_comm o).
Qed.

Lemma mem_eq_ok m p q :
  0 ≤ p → p + Z.of_nat m ≤ n → 0 ≤ q → q + Z.of_nat m ≤ n →
  ∃ b, mem_eq src p q m = Ok b ∧ (b = true → same q p (Z.of_nat m)).
Proof.
  revert p q. induction m as [|m IH]; intros p q Hp Hpn Hq Hqn; cbn [mem_eq].
  - exists true. split; [done|]. intros _ k Hk. lia.
  - destruct (aread_lt src p) as (a & -> & Ha); [lia|].
    destruct (aread_lt src q) as (b & -> & Hb); [lia|]. run.
    destruct (Z.eqb_spec a b) as [->|]; [|by exists false].
    destruct (IH (p + 1) (q + 1)) as (r & -> & Hr); [lia..|].
    exists r. split; [done|]. intros Hrt k Hk. destruct (decide (k = 0)) as [->|].
    + by rewrite !Z.add_0_r, Ha, Hb.
    + specialize (Hr Hrt (k - 1)). rewrite <- !Z.add_assoc in Hr.
      replace (1 + (k - 1)) with k in Hr by lia. apply Hr. lia.
Qed.

Lemma extend_match_ok fuel p o len :
  0 ≤ o < p → 0 ≤ len → same p o (len + 1) → p + len < n → n ≤ 65536 →
  n - p - len ≤ Z.of_nat fuel →
  ∃ len' fin, extend_match fuel src n p o len = Ok (len', fin) ∧
    len < len' ∧ same p o len' ∧ p + len' ≤ n ∧ (fin = false → p + len' < n).
Proof.
  revert len. induction fuel as [|fuel IH]; intros len Ho Hlen Hs Hp Hn Hf;
    cbn [extend_match]; [lia|].
  rewrite wrap_small by (simpl; lia).
  destruct (Z.eqb_spec (len + 1 + p) n).
  - exists (len + 1), true. split_and!; (done || lia).
  - destruct (aread_lt src (len + 1 + p)) as (a & -> & Ha); [lia|].
    destruct (aread_lt src (len + 1 + o)) as (b & -> & Hb); [lia|]. run.
    destruct (Z.eqb_spec a b) as [->|].
    + destruct (IH (len + 1)) as (len' & fin & -> & ? & ? & ? & ?); [lia..| | | | |].
      { apply same_S; [lia|done|by rewrite Ha, Hb]. }
      1-3: lia. exists len', fin. split_and!; (done || lia).
    + exists (len + 1), false. split_and!; (done || lia).
Qed.

(** A match the compressor may encode. *)
Definition good (p o len : Z) : Prop :=
  0 ≤ o < p ∧ p < o + 2048 ∧ 2 ≤ len ∧ p + len ≤ n ∧ same p o len.

Lemma find_match_ok fuel h p hofs len ofs :
  hist_ok (p + 1) h → candidate p hofs → n ≤ 65536 →
  (hofs = INVALID_OFS ∨ hofs < Z.of_nat fuel) →
  good p ofs len → p + len < n →
  ∃ len' ofs', find_match fuel h src n p hofs len ofs = Ok (len', ofs') ∧ good p ofs' len'.
Proof.
  revert hofs len ofs. induction fuel as [|fuel IH];
    intros hofs len ofs Hh Hc Hn Hf Hg Hlt; cbn [find_match].
  all: destruct (Z.eqb_spec hofs INVALID_OFS) as [->|Hne]; simpl; [by eauto|].
  all: destruct Hc as [?|[Hc Hhash]]; [done|].
  all: change MAX_HISTORY with 2048; destruct (Z.ltb_spec p (hofs + 2048)); [|by eauto].
  { lia. }
  destruct Hg as (Ho & Hr & Hl & Hp & Hs).
  destruct (mem_eq_ok (Z.to_nat (len - 1)) (hofs + 2) (p + 2)) as (b & -> & Hb); [lia..|].
  assert (∃ v, chain_get h (chain_slot hofs) = Ok v ∧ candidate hofs v) as (v & Hv & Hcv).
  { destruct (ho_chain _ _ Hh hofs) as (v & Hv & ?); [lia..|]. exists v.
    unfold chain_get. by rewrite Hv. }
  assert (candidate p v) as Hpv.
  { destruct Hcv as [|[? E]]; [by left|right]. split; [lia|congruence]. }
  assert (v = INVALID_OFS ∨ v < Z.of_nat fuel) as Hfv by (destruct Hcv; lia).
  run. destruct b.
  - assert (same p hofs (len + 1)) as Hs1.
    { destruct (HASH_eq hofs p) as [E0 E1]; [lia..|done|].
      intros k Hk. destruct (decide (k = 0)) as [->|]; [by rewrite !Z.add_0_r|].
      destruct (decide (k = 1)) as [->|]; [done|].
      specialize (Hb eq_refl (k - 2)). rewrite <- !Z.add_assoc in Hb.
      replace (2 + (k - 2)) with k in Hb by lia. apply Hb. lia. }
    destruct (extend_match_ok (Z.to_nat n) p hofs len)
      as (len' & fin & -> & ? & ? & ? & ?); [lia|lia|done|lia..|]. run.
    destruct fin; [exists len', hofs; split; [done|]; split_and!; (done || lia)|]. rewrite Hv. run.
    apply IH; [done..| |by eauto]. split_and!; (done || lia).
  - rewrite Hv. run. apply IH; [done..| |done]. split_and!; (done || lia).
Qed.
End matches.

(** ** The compressor *)

Section compress.
Context (dstlen : Z) (src : list Z) (Hbytes : bytes src).
Abbreviation n := (Z.of_nat (length src)).
Context (Hsize : n ≤ 65536).

Definition table_ok (p : Z) (h : history) : Prop :=
  ∀ k v, hash_table h !! k = Some v → 0 ≤ v < p ∧ HASH src v = Ok k.

Lemma hist_table p q h : hist_ok src p h → p ≤ q → table_ok q h.
Proof. intros Hh ? k v Hv. destruct (ho_table _ _ _ Hh _ _ Hv). split; [lia|done]. Qed.

(** The bits still to come when the input is at [p]. *)
Definition budget (p : Z) : nat := Z.to_nat (9 * (n - p)).

Lemma put_copy_wp w o l :
  writer_ok dstlen w → 1 ≤ o < 2048 → 2 ≤ l →
  cwp (w ← put_offset dstlen o w; put_length dstlen l w)
    (emits dstlen w (enc (Copy o l))) (full dstlen w (length (enc (Copy o l)))).
Proof.
  intros Hw Ho Hl. apply emits_bind; [by apply put_offset_wp|].
  intros w' (Hw' & _). by apply put_length_wp.
Qed.

Lemma put_lit_wp w b :
  writer_ok dstlen w → 0 ≤ b < 256 →
  cwp (PUT_BITS dstlen 9 b w) (emits dstlen w (enc (Lit b))) (full dstlen w 9).
Proof. intros. apply (PUT_BITS_wp dstlen w 9); simpl; (done || lia). Qed.

Lemma good_covers p o len q ts :
  good src p o len → 0 ≤ p → covers src (p + len) ts q →
  covers src p (Copy (p - o) len :: ts) q.
Proof.
  intros (?&?&?&?&Hs) ??. constructor; try lia; [|done].
  intros k Hk. rewrite Hs by lia. by replace (p - (p - o)) with o by lia.
Qed.

Definition loop_post (w : writer) (p : Z) (res : history * writer * Z) : Prop :=
  let '(h', w', p') := res in
  ∃ ts, emits dstlen w (encs ts) w' ∧ covers src p ts p' ∧ n - 2 ≤ p' ≤ n ∧ table_ok p' h'.

Lemma loop_post_trans w t w' p p' res :
  emits dstlen w (enc t) w' → (∀ ts q, covers src p' ts q → covers src p (t :: ts) q) →
  loop_post w' p' res → loop_post w p res.
Proof.
  destruct res as [[h w''] q]. intros He Hc (ts & Hts & Hcov & ? & ?).
  exists (t :: ts). split_and!; [|by auto|lia..|done].
  change (encs (t :: ts)) with (enc t ++ encs ts). by eapply emits_trans.
Qed.

Lemma lit_step_wp (rec : writer → cres (history * writer * Z)) w p a :
  writer_ok dstlen w → 0 ≤ p < n → src !! Z.to_nat p = Some a →
  (∀ w1, writer_ok dstlen w1 →
     cwp (rec w1) (loop_post w1 (p + 1)) (full dstlen w1 (budget (p + 1)))) →
  cwp (b ← aread src p; w ← PUT_BITS dstlen 9 b w; rec w)
    (loop_post w p) (full dstlen w (budget p)).
Proof.
  intros Hw Hp Ha Hrec. rewrite (aread_Ok src p a) by (done || lia). run.
  apply cwp_bind. eapply cwp_mono; [apply put_lit_wp; [done|by eapply bytes_lookup]|..].
  - intros w1 Hw1. eapply cwp_mono; [apply Hrec, Hw1|..].
    + intros res Hres. eapply loop_post_trans; [done| |done].
      intros. apply covers_lit; (done || lia).
    + intros c Hc. eapply full_emits; [done..|]. unfold enc. rewrite length_be. unfold budget. lia.
  - intros c Hc. eapply full_le; [done|]. unfold budget. lia.
Qed.

Lemma copy_step_wp (rec : writer → cres (history * writer * Z)) w p o len :
  writer_ok dstlen w → good src p o len →
  (∀ w1, writer_ok dstlen w1 →
     cwp (rec w1) (loop_post w1 (p + len)) (full dstlen w1 (budget (p + len)))) →
  cwp (w ← put_offset dstlen (p - o) w; w ← put_length dstlen len w; rec w)
    (loop_post w p) (full dstlen w (budget p)).
Proof.
  intros Hw Hg Hrec. pose proof Hg as (?&?&?&?&_).
  pose proof (length_enc_copy (p - o) len).
  enough (cwp ((put_offset dstlen (p - o) w ≫= put_length dstlen len) ≫= rec)
    (loop_post w p) (full dstlen w (budget p))) as Hx
    by (rewrite cres_bind_assoc in Hx; exact Hx).
  apply cwp_bind. eapply cwp_mono; [apply put_copy_wp; [done|lia..]|..].
  - intros w1 Hw1. eapply cwp_mono; [apply Hrec, Hw1|..].
    + intros res Hres. eapply loop_post_trans; [done| |done].
      intros. apply good_covers; (done || lia).
    + intros c Hc. eapply full_emits; [done..|]. unfold budget. lia.
  - intros c Hc. eapply full_le; [done|]. unfold budget. lia.
Qed.

Lemma compress_loop_wp fuel h w p :
  writer_ok dstlen w → hist_ok src p h → 0 ≤ p ≤ n → n - p ≤ Z.of_nat fuel →
  cwp (compress_loop fuel h dstlen w src n p) (loop_post w p) (full dstlen w (budget p)).
Proof.
  revert h w p. induction fuel as [|fuel IH]; intros h w p Hw Hh Hp Hf; cbn [compress_loop].
  all: destruct (Z.ltb_spec p (n - 2)) as [Hlt|];
    [|exists []; split_and!; [by split; rewrite ?app_nil_r|constructor|lia..|
                              by eapply hist_table]].
  { lia. }
  destruct (HASH_ok src Hbytes p) as (a & b & Ha & _ & E & _); [lia..|]. rewrite E. run.
  destruct (record_pos_ok src p h (a + 256 * b) Hh E) as [Hh1 Hc]; [unfold INVALID_OFS; lia|].
  destruct (record_pos h (a + 256 * b) p) as [hofs h1]; simpl in Hh1, Hc.
  destruct (Z.eqb_spec hofs INVALID_OFS) as [->|Hne]; simpl orb.
  { eapply lit_step_wp; [done|lia|done|]. intros. apply IH; (done || lia). }
  change MAX_HISTORY with 2048. destruct (Z.leb_spec (hofs + 2048) p) as [|Hin].
  { eapply lit_step_wp; [done|lia|done|]. intros. apply IH; (done || lia). }
  destruct Hc as [?|[Hr Hhash]]; [done|].
  destruct (find_match_ok src Hbytes (Z.to_nat n) h1 p hofs 2 hofs)
    as (len & ofs & -> & Hg); [done|by right|lia|lia| |lia|]; [|run].
  { destruct (HASH_eq src Hbytes hofs p) as [E0 E1]; [lia..|done|]. split_and!; try lia.
    intros k Hk. assert (k = 0 ∨ k = 1) as [-> | ->] by lia; [by rewrite !Z.add_0_r|done]. }
  apply copy_step_wp; [done..|]. intros w1 Hw1. destruct Hg as (?&?&?&?&_).
  destruct (Z.leb_spec (n - 2) (p + len)).
  { exists []. split_and!; [by split; rewrite ?app_nil_r|constructor|lia..|].
    eapply hist_table; [done|lia]. }
  destruct (record_rest_ok src Hbytes (Z.to_nat (len - 1)) (p + 1) h1)
    as (h2 & -> & Hh2); [done|lia|unfold INVALID_OFS; lia|]. run.
  replace (p + 1 + Z.of_nat (Z.to_nat (len - 1))) with (p + len) in * by lia.
  apply IH; (done || lia).
Qed.

(** What the compressor does before the end marker. *)
Definition tail_post (w : writer) (p : Z) (w' : writer) : Prop :=
  ∃ ts, covers src p ts n ∧ emits dstlen w (encs ts) w'.

Lemma tail_post_trans w t w' p p' w'' :
  emits dstlen w (enc t) w' → (∀ ts q, covers src p' ts q → covers src p (t :: ts) q) →
  tail_post w' p' w'' → tail_post w p w''.
Proof.
  intros He Hc (ts & Hcov & Hts). exists (t :: ts). split; [by auto|].
  change (encs (t :: ts)) with (enc t ++ encs ts). by eapply emits_trans.
Qed.

Lemma tail_post_nil w : writer_ok dstlen w → tail_post w n w.
Proof. exists []. split; [constructor|]. by split; rewrite ?app_nil_r. Qed.

Lemma tail_lit_wp (rec : writer → cres writer) w p a :
  writer_ok dstlen w → 0 ≤ p < n → src !! Z.to_nat p = Some a →
  (∀ w1, writer_ok dstlen w1 →
     cwp (rec w1) (tail_post w1 (p + 1)) (full dstlen w1 (budget (p + 1)))) →
  cwp (w ← PUT_BITS dstlen 9 a w; rec w) (tail_post w p) (full dstlen w (budget p)).
Proof.
  intros Hw Hp Ha Hrec.
  apply cwp_bind. eapply cwp_mono; [apply put_lit_wp; [done|by eapply bytes_lookup]|..].
  - intros w1 Hw1. eapply cwp_mono; [apply Hrec, Hw1|..].
    + intros res Hres. eapply tail_post_trans; [done| |done].
      intros. apply covers_lit; (done || lia).
    + intros c Hc. eapply full_emits; [done..|]. unfold enc. rewrite length_be. unfold budget. lia.
  - intros c Hc. eapply full_le; [done|]. unfold budget. lia.
Qed.

Lemma tail_last_wp w p a :
  writer_ok dstlen w → 0 ≤ p → p + 1 = n → src !! Z.to_nat p = Some a →
  cwp (PUT_BITS dstlen 9 a w) (tail_post w p) (full dstlen w (budget p)).
Proof.
  intros Hw Hp Hn Ha.
  pose proof (tail_lit_wp Ok w p a Hw ltac:(lia) Ha) as H.
  rewrite Hn in H. destruct (PUT_BITS dstlen 9 a w); apply H; intros; by apply tail_post_nil.
Qed.

(** The copy of two bytes at the end. *)
Lemma tail_copy_wp w p v :
  writer_ok dstlen w → 0 ≤ v < p → p < v + 2048 → p + 2 = n →
  HASH src v = HASH src p →
  cwp (w ← put_offset dstlen (p - v) w; PUT_BITS dstlen 2 0 w)
    (tail_post w p) (full dstlen w (budget p)).
Proof.
  intros Hw Hv Hr Hn Hk.
  destruct (HASH_eq src Hbytes v p) as [E0 E1]; [lia..|done|].
  eapply cwp_mono; [apply (put_copy_wp w (p - v) 2); [done|lia..]|..].
  - intros w1 Hw1. eapply tail_post_trans; [done| |by apply tail_post_nil, Hw1].
    intros ts q Hcov. apply good_covers; [|lia|by rewrite Hn].
    split_and!; try lia. intros k Hk'.
    assert (k = 0 ∨ k = 1) as [-> | ->] by lia; [by rewrite !Z.add_0_r|done].
  - intros c Hc. eapply full_le; [done|]. pose proof (length_enc_copy (p - v) 2).
    unfold budget. lia.
Qed.

Lemma compress_tail_wp h w p :
  writer_ok dstlen w → table_ok p h → 0 ≤ p → n - 2 ≤ p ≤ n →
  cwp (compress_tail h dstlen w src n p)
    (λ w', ∃ ts, covers src p ts n ∧ emits dstlen w (encs ts ++ be 16 0xc000) w')
    (full dstlen w (budget p + 16)).
Proof.
  intros Hw Ht Hp Hn. unfold compress_tail. apply cwp_bind.
  eapply (cwp_mono _ (tail_post w p) _ (full dstlen w (budget p))).
  - destruct (Z.eqb_spec p (n - 2)) as [Ep|Ep].
    + destruct (HASH_ok src Hbytes p) as (a & b & Ha & Hb & E & _); [lia..|]. rewrite E. run.
      assert (cwp (b0 ← aread src p; w ← PUT_BITS dstlen 9 b0 w;
                   b1 ← aread src (p + 1); PUT_BITS dstlen 9 b1 w)
                (tail_post w p) (full dstlen w (budget p))) as Hlits.
      { rewrite (aread_Ok src p a) by (done || lia). run.
        apply tail_lit_wp; [done|lia|done|]. intros w1 Hw1.
        rewrite (aread_Ok src (p + 1) b) by (done || lia). run. apply tail_last_wp; (done || lia). }
      unfold ht_get. destruct (hash_table h !! (a + 256 * b)) as [v|] eqn:Ev; simpl; [|done].
      destruct (Ht _ _ Ev) as [Hv Hk]. change MAX_HISTORY with 2048.
      destruct (Z.eqb_spec v INVALID_OFS); simpl; [done|].
      destruct (Z.ltb_spec p (v + 2048)); [|done].
      apply tail_copy_wp; try done; [lia|congruence].
    + destruct (Z.eqb_spec p (n - 1)) as [Ep1|Ep1].
      * destruct (aread_lt src p) as (a & -> & Ha); [lia|]. run. apply tail_last_wp; (done || lia).
      * assert (p = n) as -> by lia. by apply tail_post_nil.
  - intros w1 (ts & Hcov & Hw1). eapply cwp_mono.
    + apply (PUT_BITS_wp dstlen w1 16); [apply Hw1|lia|done].
    + intros w2 Hw2. exists ts. split; [done|]. by eapply emits_trans.
    + intros c Hc. eapply full_emits; [done..|]. pose proof (length_encs _ _ _ _ Hcov).
      unfold budget. lia.
  - intros c Hc. eapply full_le; [done|lia].
Qed.

(** "End marker, with 7 trailing zero bits to ensure that it's flushed" *)
Lemma stream_flushed (S B X : list bool) :
  S ++ B = X ++ be 16 0xc000 → (length B ≤ 7)%nat →
  S = X ++ be 9 384 ++ replicate (7 - length B) false.
Proof.
  intros H HB. change (be 16 0xc000) with (be 9 384 ++ replicate 7 false) in H.
  assert (replicate 7 false = replicate (7 - length B) false ++ replicate (length B) false)
    as E by (rewrite <- replicate_add; f_equal; lia).
  rewrite E, !app_assoc in H. apply app_inj_2 in H as [H _];
    [by rewrite H, app_assoc|by rewrite length_replicate].
Qed.

(** What [lzs_compress] writes, but for at most seven zero bits, and when it
    gives up. *)
Lemma lzs_compress_wp dst :
  0 ≤ dstlen ≤ Z.of_nat (length dst) →
  cwp (lzs_compress dst dstlen src n)
    (λ '(m, out), 0 ≤ m ≤ dstlen ∧ length out = length dst ∧ bytes (take (Z.to_nat m) out) ∧
       ∃ ts k, covers src 0 ts n ∧
         stream (take (Z.to_nat m) out) = encs ts ++ be 9 384 ++ replicate k false)
    (λ c, c = - EFBIG ∧ 8 * dstlen + 8 ≤ 9 * n + 16).
Proof.
  intros Hd. unfold lzs_compress, INVALID_OFS. destruct (Z.ltb_spec (65535 + 1) n); [lia|].
  set (w0 := Writer dst 0 0 0).
  assert (writer_ok dstlen w0) as Hw0 by (split; simpl; (lia || constructor)).
  assert (wstream w0 = []) as Hs0 by done.
  apply cwp_bind. eapply cwp_mono.
  - apply compress_loop_wp; [exact Hw0|apply hist_ok_init|lia..].
  - intros [[h w1] p] (ts & Hw1 & Hcov & Hp & Ht). pose proof (covers_le _ _ _ _ Hcov).
    apply cwp_bind. eapply cwp_mono; [by apply compress_tail_wp; [apply Hw1|..]|..].
    + intros w2 (us & Hcov2 & Hw2). simpl.
      pose proof (emits_trans _ _ _ _ _ _ Hw1 Hw2) as ([Hnr Hpos Hlen _ Hby] & Hs & Hl).
      rewrite Hs0, app_nil_l, app_assoc, <- encs_app in Hs. split_and!; [lia..|done|done|].
      exists (ts ++ us), (7 - Z.to_nat (nr_outbits w2))%nat.
      split; [by eapply covers_app|].
      rewrite <- (length_be (Z.to_nat (nr_outbits w2)) (outbits w2)).
      apply stream_flushed; [|rewrite length_be; lia]. by rewrite <- Hs.
    + intros c Hc. eapply full_emits in Hc as [-> Hc]; [|done|reflexivity].
      split; [done|]. rewrite Hs0 in Hc. simpl in Hc.
      pose proof (length_encs _ _ _ _ Hcov). unfold budget in Hc. lia.
  - intros c [-> Hc]. split; [done|]. rewrite Hs0 in Hc. simpl in Hc. unfold budget in Hc. lia.
Qed.
End compress.

(** ** Reading the tokens back *)

Section decode.
Context (dstlen : Z) (src : list Z) (Hbytes : bytes src).

Definition agree (d : list Z) (p : Z) : Prop :=
  ∀ i, 0 ≤ i < p → d !! Z.to_nat i = src !! Z.to_nat i.

Lemma agree_write d p b :
  agree d p → 0 ≤ p < Z.of_nat (length d) → src !! Z.to_nat p = Some b →
  agree (<[Z.to_nat p:=b]> d) (p + 1).
Proof.
  intros Ha Hp Hb i Hi. destruct (decide (i = p)) as [->|].
  - rewrite list_lookup_insert_eq by lia. done.
  - rewrite list_lookup_insert_ne by lia. apply Ha. lia.
Qed.

Lemma covers_lit_inv p b ts q :
  covers src p (Lit b :: ts) q →
  0 ≤ p ∧ src !! Z.to_nat p = Some b ∧ covers src (p + 1) ts q.
Proof. by inversion 1. Qed.

Lemma covers_app_inv p ts us q :
  covers src p (ts ++ us) q → ∃ m, covers src p ts m ∧ covers src m us q.
Proof.
  revert p. induction ts as [|t ts IH]; intros p; simpl; [eauto using covers|].
  inversion 1; subst.
  all: match goal with H : covers _ _ (_ ++ _) _ |- _ => apply IH in H as (m & ? & ?) end.
  all: exists m; split; [|done]; by constructor.
Qed.

Lemma literals_run bs fuel r d p q x rest :
  reader_ok r → rstream r = encs (Lit <$> bs) ++ be 9 x ++ rest → 256 ≤ x < 512 →
  (length bs ≤ fuel)%nat → covers src p (Lit <$> bs) q → agree d p →
  q ≤ dstlen ≤ Z.of_nat (length d) →
  ∃ r' d', ('(data, r) ← GET_BITS 9 r; literals fuel data r d dstlen p) = Ok (x, r', d', q) ∧
    reader_ok r' ∧ rstream r' = rest ∧ length d' = length d ∧ agree d' q.
Proof.
  revert fuel r d p. induction bs as [|b bs IH]; intros fuel r d p Hr Hs Hx Hf Hc Ha Hl.
  - destruct (GET_BITS_value r 9 x rest) as (r' & E & Hr' & Hs'); [done|lia|lia|done|lia|]. rewrite E. run. exists r', d. inversion Hc; subst.
    destruct fuel; simpl; bool_cases; done.
  - destruct (GET_BITS_value r 9 b (encs (Lit <$> bs) ++ be 9 x ++ rest))
      as (r' & E & Hr' & Hs'); [done|lia| |by rewrite Hs|rewrite !length_app, length_be; lia|].
    { apply covers_lit_inv in Hc as (_ & Hb & _).
      pose proof (bytes_lookup _ _ _ Hbytes Hb). simpl. lia. } rewrite E. run. apply covers_lit_inv in Hc as (? & Hb & Hc).
    pose proof (covers_le _ _ _ _ Hc). pose proof (bytes_lookup _ _ _ Hbytes Hb).
    destruct fuel as [|fuel]; simpl in Hf; [lia|]. cbn [literals]. bool_cases.
    rewrite awrite_lt by lia. run. rewrite (wrap_small 8 b) by (simpl; lia).
    destruct (IH fuel r' (<[Z.to_nat p:=b]> d) (p + 1)) as (r2 & d2 & E2 & ? & ? & Hd & ?);
      rewrite ?length_insert; try (done || lia).
    { apply agree_write; (done || lia). }
    exists r2, d2. rewrite length_insert in Hd. done.
Qed.

Lemma long_length_run q fuel len r x rest :
  reader_ok r → rstream r = nibbles q ++ be 4 x ++ rest → 0 ≤ x < 15 →
  (9 ≤ length rest)%nat → (q < fuel)%nat → 0 ≤ len → len + 15 * Z.of_nat q + x < 65536 →
  ∃ r', long_length fuel len r = Ok (len + 15 * Z.of_nat q + x, r') ∧
    reader_ok r' ∧ rstream r' = rest.
Proof.
  revert fuel len r. induction q as [|q IH]; intros [|fuel] len r Hr Hs Hx Hrest Hf Hl Hb;
    try lia; cbn [long_length].
  - destruct (GET_BITS_value r 4 x rest) as (r' & E & Hr' & Hs'); [done|lia|lia|done|lia|]. rewrite E. run. bool_cases. rewrite wrap_small by (simpl; lia).
    exists r'. split; [|done]. do 2 f_equal. lia.
  - destruct (GET_BITS_value r 4 15 (nibbles q ++ be 4 x ++ rest)) as (r' & E & Hr' & Hs');
      [done|lia|done|by rewrite Hs|rewrite !length_app; lia|]. rewrite E. run. simpl. rewrite wrap_small by (simpl; lia).
    destruct (IH fuel (len + 15) r') as (r2 & -> & ? & ?); [done|done|lia..|].
    exists r2. split; [|done]. do 2 f_equal. lia.
Qed.

Lemma be_2_5 l : 5 ≤ l < 8 → be 4 (l + 7) = be 2 3 ++ be 2 (l - 5).
Proof. intros. assert (l = 5 ∨ l = 6 ∨ l = 7) as [-> | [-> | ->]] by lia; done. Qed.

Lemma match_length_run fuel l r rest :
  reader_ok r → rstream r = enc_length l ++ rest → 2 ≤ l < 65536 →
  (9 ≤ length rest)%nat → (length (rstream r) < fuel)%nat →
  ∃ r', match_length fuel r = Ok (l, r') ∧ reader_ok r' ∧ rstream r' = rest.
Proof.
  intros Hr Hs Hl Hrest Hf. unfold match_length. unfold enc_length in Hs.
  destruct (Z.ltb_spec l 5).
  { destruct (GET_BITS_value r 2 (l - 2) rest) as (r' & E & Hr' & Hs'); [done|lia|lia|done|lia|]. rewrite E. run. bool_cases. exists r'. split; [|done]. do 2 f_equal. lia. }
  assert (∃ s, rstream r = be 2 3 ++ s ∧ (9 ≤ length s)%nat ∧
    (l < 8 ∧ s = be 2 (l - 5) ++ rest ∨
     8 ≤ l ∧ s = be 2 3 ++ nibbles (Z.to_nat ((l + 7) / 15 - 1)) ++ be 4 ((l + 7) mod 15) ++ rest))
    as (s & Hs1 & Hlen & Hcase).
  { destruct (Z.ltb_spec l 8).
    - exists (be 2 (l - 5) ++ rest). rewrite Hs, be_2_5, <- app_assoc by lia.
      rewrite length_app. split_and!; [done|lia|by left].
    - exists (be 2 3 ++ nibbles (Z.to_nat ((l + 7) / 15 - 1)) ++ be 4 ((l + 7) mod 15) ++ rest).
      rewrite !length_app. split_and!; [|lia|by right].
      rewrite Hs. replace (Z.to_nat ((l + 7) / 15)) with (S (Z.to_nat ((l + 7) / 15 - 1))) by dlia.
      rewrite nibbles_S, <- !app_assoc. done. }
  destruct (GET_BITS_value r 2 3 s) as (r1 & E1 & Hr1 & Hs2); [done|lia|done|done|lia|]. rewrite E1. run. simpl. clear Hs.
  destruct Hcase as [[Hl8 ->]|[Hl8 ->]].
  - destruct (GET_BITS_value r1 2 (l - 5) rest) as (r2 & E2 & Hr2 & Hs3); [done|lia|lia|done|lia|]. rewrite E2. run. bool_cases. exists r2. split; [|done]. do 2 f_equal. lia.
  - destruct (GET_BITS_value r1 2 3 (nibbles (Z.to_nat ((l + 7) / 15 - 1)) ++ be 4 ((l + 7) mod 15) ++ rest))
      as (r2 & E2 & Hr2 & Hs3); [done|lia|done|done|rewrite !length_app; lia|]. rewrite E2. run. simpl.
    destruct (long_length_run (Z.to_nat ((l + 7) / 15 - 1)) fuel 8 r2 ((l + 7) mod 15) rest)
      as (r3 & -> & ? & ?); [done|done|dlia|done| |lia|dlia|].
    { rewrite Hs1, !length_app, length_nibbles, !length_be in Hf. lia. }
    exists r3. split; [|done]. do 2 f_equal. dlia.
Qed.

Lemma offset_codes o : 1 ≤ o < 2048 →
  if o <? 128 then be 9 (Z.lor 384 o) = be 9 (384 + o) ∧ Z.land (384 + o) 127 = o
  else be 13 (Z.lor 4096 o) = be 9 (256 + o / 16) ++ be 4 (o mod 16) ∧
       Z.lor (u16 (Z.shiftl (Z.land (256 + o / 16) 127) 4)) (o mod 16) = o.
Proof.
  intros Ho.
  assert (Forall (λ o, if o <? 128
    then be 9 (Z.lor 384 o) = be 9 (384 + o) ∧ Z.land (384 + o) 127 = o
    else be 13 (Z.lor 4096 o) = be 9 (256 + o / 16) ++ be 4 (o mod 16) ∧
       Z.lor (u16 (Z.shiftl (Z.land (256 + o / 16) 127) 4)) (o mod 16) = o) (seqZ 1 2047)) as H.
  { apply (Forall_impl (λ o, (if o <? 128
      then bool_decide (be 9 (Z.lor 384 o) = be 9 (384 + o) ∧ Z.land (384 + o) 127 = o)
      else bool_decide (be 13 (Z.lor 4096 o) = be 9 (256 + o / 16) ++ be 4 (o mod 16) ∧
       Z.lor (u16 (Z.shiftl (Z.land (256 + o / 16) 127) 4)) (o mod 16) = o)) = true)).
    - by apply (bool_decide_unpack _); vm_compute.
    - intros x. case_match; by rewrite bool_decide_eq_true. }
  rewrite Forall_forall in H. apply H, elem_of_seqZ. lia.
Qed.

Lemma copy_match_run m d p o :
  agree d p → 1 ≤ o ≤ p → p + Z.of_nat m ≤ Z.of_nat (length src) →
  p + Z.of_nat m ≤ Z.of_nat (length d) →
  (∀ k, 0 ≤ k < Z.of_nat m → src !! Z.to_nat (p + k) = src !! Z.to_nat (p - o + k)) →
  ∃ d', copy_match m d p o = Ok (d', p + Z.of_nat m) ∧
    length d' = length d ∧ agree d' (p + Z.of_nat m).
Proof.
  revert d p. induction m as [|m IH]; intros d p Ha Ho Hs Hd Hsame; cbn [copy_match].
  - exists d. rewrite Z.add_0_r. done.
  - destruct (lookup_lt_is_Some_2 src (Z.to_nat p)) as [b Hb]; [lia|].
    assert (d !! Z.to_nat (p - o) = Some b) as Hdb.
    { rewrite Ha by lia. specialize (Hsame 0). rewrite !Z.add_0_r in Hsame. rewrite <- Hsame; [done|lia]. }
    rewrite (aread_Ok d (p - o) b) by (done || lia). run. rewrite awrite_lt by lia. run.
    destruct (IH (<[Z.to_nat p:=b]> d) (p + 1)) as (d' & -> & Hl & ?);
      rewrite ?length_insert in *; try lia.
    + apply agree_write; (done || lia).
    + intros k Hk. specialize (Hsame (k + 1)).
      replace (p + 1 + k) with (p + (k + 1)) by lia. rewrite Hsame by lia. f_equal. lia.
    + exists d'. replace (p + Z.of_nat (S m)) with (p + 1 + Z.of_nat m) by lia. done.
Qed.

Lemma tokens_split (ts : list token) :
  ∃ bs, ts = Lit <$> bs ∨ ∃ o l us, ts = (Lit <$> bs) ++ Copy o l :: us.
Proof.
  induction ts as [|[b|o l] ts (bs & IH)].
  - exists []. by left.
  - exists (b :: bs). destruct IH as [->|(o & l & us & ->)]; [by left|right].
    by exists o, l, us.
  - exists []. right. by exists o, l, ts.
Qed.

(** The nine bits that follow the literals, and the offset they begin. *)
Lemma offset_run o rest :
  1 ≤ o < 2048 → (9 ≤ length rest)%nat →
  ∃ x s, enc_offset o ++ rest = be 9 x ++ s ∧ 256 ≤ x < 512 ∧ x ≠ 384 ∧
    (∀ r, reader_ok r → rstream r = s →
     ∃ r', (if x <? 384 then
              '(data, r) ← GET_BITS 4 r;
              Ok (Z.lor (u16 (Z.shiftl (Z.land x 127) 4)) data, r)
            else Ok (Z.land x 127, r)) = Ok (o, r') ∧ reader_ok r' ∧ rstream r' = rest).
Proof.
  intros Ho Hrest. pose proof (offset_codes o Ho) as Hc. unfold enc_offset.
  destruct (Z.ltb_spec o 128); destruct Hc as [Hbe Hval]; rewrite Hbe.
  - exists (384 + o), rest. split_and!; [done|lia..|]. intros r Hr Hs. bool_cases.
    exists r. by rewrite Hval.
  - exists (256 + o / 16), (be 4 (o mod 16) ++ rest).
    split_and!; [by rewrite <- app_assoc|dlia..|]. intros r Hr Hs.
    destruct (Z.ltb_spec (256 + o / 16) 384); [|dlia].
    destruct (GET_BITS_value r 4 (o mod 16) rest) as (r' & -> & ? & ?); [done|lia|dlia|done|lia|].
    exists r'. run. by rewrite Hval.
Qed.

Lemma decompress_run fuel ts r d p pad :
  reader_ok r → rstream r = encs ts ++ be 9 384 ++ pad →
  (length (rstream r) < fuel)%nat → 0 ≤ p → covers src p ts (Z.of_nat (length src)) →
  agree d p → Z.of_nat (length src) ≤ dstlen ≤ Z.of_nat (length d) →
  ∃ d', decompress_loop fuel r d dstlen p = Ok (Z.of_nat (length src), d') ∧
    length d' = length d ∧ agree d' (Z.of_nat (length src)).
Proof.
  revert ts r d p. induction fuel as [|fuel IH]; intros ts r d p Hr Hs Hf Hp Hc Ha Hl; [lia|].
  destruct (tokens_split ts) as (bs & [->|(o & l & us & ->)]).
  - destruct (literals_run bs (S fuel) r d p (Z.of_nat (length src)) 384 pad)
      as (r' & d' & E & _ & _ & ? & ?); [done|done|lia| |done|done|lia|].
    { rewrite Hs, !length_app, length_encs_lit in Hf. lia. }
    cbn [decompress_loop]. erewrite bind_pair_Ok by exact E. by exists d'.
  - apply covers_app_inv in Hc as (m & Hc1 & Hc2).
    inversion Hc2 as [| |p' q' o' l' us' ? ? ? ? Hsame Hc3]; subst.
    rewrite encs_app, encs_cons in Hs. cbn [enc] in Hs. rewrite <- !app_assoc in Hs.
    set (rest := enc_length l ++ encs us ++ be 9 384 ++ pad) in Hs.
    assert (9 ≤ length rest)%nat by (unfold rest; rewrite !length_app, length_be; lia).
    destruct (offset_run o rest) as (x & s & Ex & Hx & Hne & Hoff); [lia|done|].
    rewrite Ex in Hs. pose proof (covers_le _ _ _ _ Hc1). pose proof (covers_le _ _ _ _ Hc3).
    destruct (literals_run bs (S fuel) r d p m x s)
      as (r1 & d1 & E & Hr1 & Hs1 & Hd1 & Ha1); [done|done|lia| |done|done|lia|].
    { rewrite Hs, !length_app, length_encs_lit in Hf. lia. }
    cbn [decompress_loop]. erewrite bind_pair_Ok by exact E. bool_cases.
    destruct (Hoff r1 Hr1 Hs1) as (r2 & -> & Hr2 & Hs2). run.
    assert (length (rstream r2) < fuel)%nat as Hf2.
    { rewrite Hs, length_app, <- Ex, length_app, <- Hs2 in Hf.
      pose proof (length_enc_offset o). lia. }
    destruct (match_length_run (S fuel) l r2 (encs us ++ be 9 384 ++ pad))
      as (r3 & -> & Hr3 & Hs3); [done|done|lia|rewrite !length_app, length_be; lia|lia|]. run.
    bool_cases. destruct (copy_match_run (Z.to_nat l) d1 m o) as (d2 & -> & Hd2 & Ha2);
      [done|lia..| |]; [intros; apply Hsame; lia|]. run.
    rewrite Z2Nat.id in * by lia.
    destruct (IH us r3 d2 (m + l)) as (d3 & -> & Hd3 & Ha3); try (done || lia).
    { rewrite Hs3. rewrite Hs2 in Hf2. unfold rest in Hf2. rewrite length_app in Hf2. lia. }
    exists d3. split_and!; [done|lia|done].
Qed.
End decode.

(** ** Theorems *)

Lemma lzs_compress_defined (dst src : list Z) (dstlen : Z) :
  bytes src → 0 ≤ dstlen ≤ Z.of_nat (length dst) →
  match lzs_compress dst dstlen src (Z.of_nat (length src)) with
  | Ok (m, out) => 0 ≤ m ≤ dstlen ∧ length out = length dst
  | Err c => c = - EFBIG ∧ (65536 < Z.of_nat (length src) ∨
                            8 * dstlen + 8 ≤ 9 * Z.of_nat (length src) + 16)
  | UB | Fuel => False
  end.
Proof.
  intros Hb Hd. destruct (Z.le_gt_cases (Z.of_nat (length src)) 65536) as [Hn|Hn].
  - pose proof (lzs_compress_wp dstlen src Hb Hn dst Hd) as H. unfold cwp in H.
    repeat case_match; naive_solver.
  - unfold lzs_compress, INVALID_OFS. destruct (Z.ltb_spec (65535 + 1) (Z.of_nat (length src)));
      [|lia]. auto.
Qed.

(** The output of [lzs_compress] never leaves its buffer; a packet of at
    most 64 KiB is refused only when the buffer is smaller than nine bits for
    each byte and two bytes of end marker. *)
Theorem lzs_compress_total (dst src : list Z) (dstlen : Z) :
  bytes src → 0 ≤ dstlen ≤ Z.of_nat (length dst) →
  match lzs_compress dst dstlen src (Z.of_nat (length src)) with
  | Ok (m, out) => 0 ≤ m ≤ dstlen ∧ length out = length dst
  | Err c => c = - EFBIG ∧ (65536 < Z.of_nat (length src) ∨
                            8 * dstlen + 8 ≤ 9 * Z.of_nat (length src) + 16)
  | UB | Fuel => False
  end.
Proof. apply lzs_compress_defined. Qed.

Lemma lzs_inverse (src dst dst2 out : list Z) (dstlen dstlen2 m : Z) :
  bytes src → Z.of_nat (length src) ≤ 65536 → 0 ≤ dstlen ≤ Z.of_nat (length dst) →
  Z.of_nat (length src) ≤ dstlen2 ≤ Z.of_nat (length dst2) →
  lzs_compress dst dstlen src (Z.of_nat (length src)) = Ok (m, out) →
  ∃ d, lzs_decompress dst2 dstlen2 (take (Z.to_nat m) out) m
         = Ok (Z.of_nat (length src), d) ∧ take (length src) d = src.
Proof.
  intros Hb Hn Hd Hd2 E. pose proof (lzs_compress_wp dstlen src Hb Hn dst Hd) as H.
  rewrite E in H. destruct H as (Hm & Hlo & Hbo & ts & k & Hc & Hs).
  assert (length (take (Z.to_nat m) out) = Z.to_nat m) as Hlt by (rewrite length_take; lia).
  set (r := Reader (take (Z.to_nat m) out) m 8).
  assert (reader_ok r) as Hr by (split; simpl; (done || lia)).
  assert (rstream r = stream (take (Z.to_nat m) out)) as Hrs.
  { unfold rstream; simpl. by destruct (take (Z.to_nat m) out). }
  destruct (decompress_run dstlen2 src Hb (bits_fuel m) ts r dst2 0 (replicate k false))
    as (d & E2 & Hdl & Hag); [done|by rewrite Hrs| |done|done|intros i Hi; lia|lia|].
  { pose proof (rstream_length r Hr). simpl in *. unfold bits_fuel. lia. }
  exists d. split; [exact E2|]. apply list_eq. intros i.
  destruct (decide (i < length src)%nat).
  - rewrite lookup_take_lt by lia. specialize (Hag (Z.of_nat i)).
    rewrite !Nat2Z.id in Hag. apply Hag. lia.
  - rewrite lookup_take_ge, lookup_ge_None_2; [done|lia..].
Qed.

(** C1: Decompressing what [lzs_compress] made of a packet of at most 64 KiB
    gives the packet back, for every packet and every content of the output
    buffers. *)
Theorem lzs_roundtrip (src dst dst2 out : list Z) (dstlen dstlen2 m : Z) :
  bytes src → Z.of_nat (length src) ≤ 65536 → 0 ≤ dstlen ≤ Z.of_nat (length dst) →
  Z.of_nat (length src) ≤ dstlen2 ≤ Z.of_nat (length dst2) →
  lzs_compress dst dstlen src (Z.of_nat (length src)) = Ok (m, out) →
  ∃ d, lzs_decompress dst2 dstlen2 (take (Z.to_nat m) out) m
         = Ok (Z.of_nat (length src), d) ∧ take (length src) d = src.
Proof. apply lzs_inverse. Qed.

(** A match with the eleven bit offset zero is accepted although no byte
    was output yet: the three bytes 80 01 80 decompress to two bytes that are
    whatever the output buffer held before. *)
Theorem lzs_decompress_offset_zero (d0 d1 : Z) :
  lzs_decompress [d0; d1] 2 [128; 1; 128] 3 = Ok (2, [d0; d1]).
Proof. reflexivity. Qed.

(** ** Witnesses *)

Lemma lzs_decompress_safe_witness :
  match lzs_decompress [9; 9; 9; 9] 4 [32; 200; 96] (Z.of_nat (length [32; 200; 96])) with
  | Ok (n, dst') => 0 ≤ n ≤ 4 ∧ length dst' = length [9; 9; 9; 9]
  | Err c => c = - EINVAL ∨ c = - EFBIG
  | UB | Fuel => False
  end.
Proof.
  apply (lzs_decompress_safe [9; 9; 9; 9] [32; 200; 96] 4); [repeat constructor; lia|simpl; lia].
Defined.

Lemma lzs_compress_total_witness :
  match lzs_compress (replicate 40 0) 40 [65; 66; 65; 66; 65; 66] (Z.of_nat (length [65; 66; 65; 66; 65; 66])) with
  | Ok (m, out) => 0 ≤ m ≤ 40 ∧ length out = length (replicate 40 0)
  | Err c => c = - EFBIG ∧ (65536 < Z.of_nat (length [65; 66; 65; 66; 65; 66]) ∨
                            8 * 40 + 8 ≤ 9 * Z.of_nat (length [65; 66; 65; 66; 65; 66]) + 16)
  | UB | Fuel => False
  end.
Proof.
  apply (lzs_compress_total (replicate 40 0) [65; 66; 65; 66; 65; 66] 40);
    [repeat constructor; lia|simpl; lia].
Defined.

(** The compressed form of a packet with a match. *)
Definition sample_out : Z * list Z :=
  match lzs_compress (replicate 12 0) 12 [65; 66; 65; 66; 65; 66] 6 with Ok r => r | _ => (0, []) end.

Lemma lzs_roundtrip_witness :
  ∃ d, lzs_decompress (replicate 8 1) 8 (take (Z.to_nat sample_out.1) sample_out.2) sample_out.1
         = Ok (Z.of_nat (length [65; 66; 65; 66; 65; 66]), d) ∧
       take (length [65; 66; 65; 66; 65; 66]) d = [65; 66; 65; 66; 65; 66].
Proof.
  apply (lzs_roundtrip [65; 66; 65; 66; 65; 66] (replicate 12 0) (replicate 8 1) sample_out.2 12 8
    sample_out.1); [repeat constructor; lia|simpl; lia|simpl; lia|simpl; lia|by vm_compute].
Defined.
