(* ===== verification/Htable.v ===== *)
(** * The hash table interface (src/ccan/htable)

    What the databases of ocserv rely on from the hash table: a [HTable] is a
    type with the operations the clients call and [HTableSpec] states what
    they promise, in terms of the finite map from the stored pointers to the
    hash each was stored with.  A lookup by hash may also deliver pointers
    stored under another hash, in any order; the clients compare the keys
    themselves. *)

From S2P Require Import Prelude.

Abbreviation ptr := positive (only parsing).

(** A pointer the table may hold: an address of the heap of a 64-bit process,
    where all of them have the same highest bit.  The table relies on that: it
    can lose a pointer that has not (see CcanHtableSpec.v). *)
Definition ptr_ok (p : ptr) : Prop := 2 ^ 46 ≤ Z.pos p < 2 ^ 47.

(** Addresses for concrete runs. *)
Definition heap (n : positive) : ptr := (70368744177664 + n)%positive.

Class HTable (T : Type) : Type := {
  htable_init : T;
  (** [htable_add ok rehash h p t]; [ok] says whether [calloc] succeeds,
      [rehash] is the table's own function on stored pointers. *)
  htable_add : bool → (ptr → Z) → Z → ptr → T → bool * T;
  (** What [htable_firstval] and then [htable_nextval] deliver for a hash. *)
  htable_probe : Z → T → list ptr;
  htable_del : Z → ptr → T → bool * T;
  (** What [htable_first] and then [htable_next] deliver. *)
  htable_walk : T → list ptr;
  (** [htable_delval] with the iterator at the entry that holds [p]. *)
  htable_delval : ptr → T → T;
  htable_elems : T → Z;
}.

(** [htable_get]: the first pointer under the hash that satisfies [cmp]. *)
Definition htable_get `{HTable T} (h : Z) (cmp : ptr → bool) (t : T) : option ptr :=
  list_find (λ p, cmp p = true) (htable_probe h t) ≫= λ '(_, p), Some p.

Class HTableSpec (T : Type) `{HTable T} : Type := {
  Rep : T → gmap ptr Z → Prop;
  rep_init : Rep htable_init ∅;
  rep_add t M ok rehash h p :
    Rep t M → ptr_ok p → M !! p = None → rehash p = h →
    (∀ q k, M !! q = Some k → rehash q = k) →
    let '(b, t') := htable_add ok rehash h p t in
    if b then Rep t' (<[p:=h]> M) else ok = false ∧ Rep t' M;
  rep_probe_sound t M h p : Rep t M → p ∈ htable_probe h t → is_Some (M !! p);
  rep_probe_complete t M h p : Rep t M → M !! p = Some h → p ∈ htable_probe h t;
  rep_del t M h p :
    Rep t M → M !! p = Some h →
    let '(b, t') := htable_del h p t in b = true ∧ Rep t' (delete p M);
  rep_del_none t M h p :
    Rep t M → M !! p = None →
    let '(b, t') := htable_del h p t in b = false ∧ Rep t' M;
  rep_walk_nodup t M : Rep t M → NoDup (htable_walk t);
  rep_walk t M p : Rep t M → p ∈ htable_walk t ↔ is_Some (M !! p);
  rep_delval t M p : Rep t M → is_Some (M !! p) → Rep (htable_delval p t) (delete p M);
  rep_elems t M : Rep t M → htable_elems t = Z.of_nat (size M);
}.

(** ** A reference table

    The plainest table that keeps the promise, used to run the models of the
    clients on concrete inputs. *)
Abbreviation rtable := (list (ptr * Z)).

Section reference.
#[global] Instance rtable_ops : HTable rtable := {
  htable_init := [];
  htable_add ok rehash h p t := if ok then (true, (p, h) :: t) else (false, t);
  htable_probe h t := (filter (λ e, e.2 = h) t).*1;
  htable_del h p t :=
    if decide (p ∈ t.*1) then (true, filter (λ e, e.1 ≠ p) t) else (false, t);
  htable_walk t := t.*1;
  htable_delval p t := filter (λ e, e.1 ≠ p) t;
  htable_elems t := Z.of_nat (length t);
}.

Definition rtable_rep (t : rtable) (M : gmap ptr Z) : Prop :=
  NoDup t.*1 ∧ M = list_to_map t.

Lemma rtable_lookup t M p h :
  rtable_rep t M → M !! p = Some h ↔ (p, h) ∈ t.
Proof. intros [Hnd ->]. symmetry. by apply elem_of_list_to_map. Qed.

Lemma rtable_dom t M p : rtable_rep t M → p ∈ t.*1 ↔ is_Some (M !! p).
Proof.
  intros Hr. rewrite list_elem_of_fmap. split.
  - intros ([q h] & -> & Hin). exists h. by apply (rtable_lookup t).
  - intros [h Hh]. apply (rtable_lookup t) in Hh; [|done]. by exists (p, h).
Qed.

Lemma rtable_filter t M p :
  rtable_rep t M → rtable_rep (filter (λ e, e.1 ≠ p) t) (delete p M).
Proof.
  intros [Hnd ->]. assert (NoDup (filter (λ e : ptr * Z, e.1 ≠ p) t).*1) as Hnd'.
  { induction t as [|[q h] t IH]; [constructor|].
    apply NoDup_cons in Hnd as [Hq Hnd]. destruct (decide (q = p)) as [->|Hqp];
      [rewrite filter_cons_False by naive_solver; auto|rewrite filter_cons_True by done].
    simpl. apply NoDup_cons. split; [|auto].
    intros ([? ?] & -> & Hin%list_elem_of_filter)%list_elem_of_fmap.
    apply Hq, list_elem_of_fmap. eexists. split; [|apply Hin]. done. }
  split; [done|]. apply map_eq. intros q. apply option_eq. intros h.
  rewrite <- (elem_of_list_to_map _ _ _ Hnd'), list_elem_of_filter.
  rewrite lookup_delete_Some, <- (elem_of_list_to_map _ _ _ Hnd). naive_solver.
Qed.

#[global] Program Instance rtable_spec : HTableSpec rtable := { Rep := rtable_rep }.
Next Obligation. split; [constructor|done]. Qed.
Next Obligation.
  intros t M ok rehash h p Hr _ Hp _ _. destruct ok; simpl; [|done].
  destruct Hr as [Hnd ->]. split; [|done]. simpl. apply NoDup_cons. split; [|done].
  by apply not_elem_of_list_to_map.
Qed.
Next Obligation.
  intros t M h p Hr ([q k] & -> & [_ Hin]%list_elem_of_filter)%list_elem_of_fmap.
  exists k. by apply (rtable_lookup t).
Qed.
Next Obligation.
  intros t M h p Hr Hp. apply list_elem_of_fmap. exists (p, h). split; [done|].
  apply list_elem_of_filter. split; [done|]. by apply (rtable_lookup t M).
Qed.
Next Obligation.
  intros t M h p Hr Hp. simpl. rewrite decide_True by (apply (rtable_dom t M); eauto).
  split; [done|]. by apply rtable_filter.
Qed.
Next Obligation.
  intros t M h p Hr Hp. simpl. rewrite decide_False; [done|].
  rewrite (rtable_dom t M) by done. rewrite Hp. by intros [].
Qed.
Next Obligation. by intros t M [? _]. Qed.
Next Obligation. intros t M p Hr. by apply rtable_dom. Qed.
Next Obligation. intros t M p Hr _. by apply rtable_filter. Qed.
Next Obligation.
  intros t M [Hnd ->]. simpl. by rewrite map_size_list_to_map.
Qed.
End reference.
