(* ===== verification/CcanHtable.v ===== *)
(** * The hash table (src/ccan/htable/htable.c)

    A table with open addressing whose cells are machine words: 0 is an empty
    cell, 1 marks a deleted one, anything else is a stored pointer in which
    the bits that all stored pointers have in common ([common_mask]) are
    replaced by bits of the hash and by the "perfect" bit that says that the
    entry sits in its own bucket.  Pointers and cells are [Z]; an access
    outside the array is [UB] and a loop that does not end runs out of
    [Fuel]; CcanHtableSpec.v shows that neither happens and that the table
    keeps the promises of the interface in Htable.v.

    The number of buckets is not bounded here, while the code computes
    [1 << bits] as an int: the model is that of the code as long as a table
    has less than 2^31 buckets, which is 16 GiB. *)

From S2P Require Import Prelude.

Module Ccan.

Record htable := {
  bits : nat;
  elems : Z; deleted : Z; hmax : Z; max_with_deleted : Z;
  common_mask : Z; common_bits : Z;
  perfect_bit : Z;
  (** [None]: the pointer [table] is [&ht->perfect_bit]. *)
  table : option (list Z) }.

(** What [table] points to. *)
Definition cells (ht : htable) : list Z :=
  match table ht with None => [perfect_bit ht] | Some l => l end.

(** [table[i] = e]. *)
Definition set_cell (ht : htable) (i e : Z) : cres htable :=
  match table ht with
  | None => if i =? 0 then Ok {| ht with perfect_bit := e |} else UB
  | Some l => l ← awrite l i e; Ok {| ht with table := Some l |}
  end.

Definition HTABLE_DELETED : Z := 1.
Definition UINTPTR_MAX : Z := 2 ^ 64 - 1.

(** [1 << ht->bits] and the reduction of an index to the table. *)
Definition buckets (ht : htable) : Z := Z.shiftl 1 (Z.of_nat (bits ht)).
Definition in_table (ht : htable) (i : Z) : Z := Z.land i (buckets ht - 1).

(** [x & ~m] is [Z.ldiff x m]. *)
Definition get_extra_ptr_bits (ht : htable) (e : Z) : Z := Z.land e (common_mask ht).
Definition get_raw_ptr (ht : htable) (e : Z) : Z :=
  Z.lor (Z.ldiff e (common_mask ht)) (common_bits ht).
Definition make_hval (ht : htable) (p bits : Z) : Z := Z.lor (Z.ldiff p (common_mask ht)) bits.
Definition entry_is_valid (e : Z) : bool := HTABLE_DELETED <? e.
Definition get_hash_ptr_bits (ht : htable) (hash : Z) : Z :=
  Z.ldiff (Z.land (Z.lxor hash (Z.shiftr hash (Z.of_nat (bits ht)))) (common_mask ht)) (perfect_bit ht).

Definition htable_init : htable := {|
  bits := 0; elems := 0; deleted := 0; hmax := 0; max_with_deleted := 0;
  common_mask := UINTPTR_MAX; common_bits := 0; perfect_bit := 0; table := None |}.

Definition htable_clear (ht : htable) : htable := htable_init.

Definition hash_bucket (ht : htable) (h : Z) : Z := in_table ht h.

(** ** Looking up *)

(** The loop of [htable_val]: the pointer found and where. *)
Fixpoint val_loop (fuel : nat) (ht : htable) (off h2 perfect : Z) : cres (option (Z * Z)) :=
  match fuel with
  | O => Fuel
  | S fuel =>
    e ← aread (cells ht) off;
    if e =? 0 then Ok None else
    if negb (e =? HTABLE_DELETED) && (get_extra_ptr_bits ht e =? h2)
    then Ok (Some (get_raw_ptr ht e, off))
    else val_loop fuel ht (in_table ht (off + 1)) (Z.ldiff h2 perfect) perfect
  end.

Definition htable_val (ht : htable) (off hash perfect : Z) : cres (option (Z * Z)) :=
  val_loop (S (length (cells ht))) ht off (Z.lor (get_hash_ptr_bits ht hash) perfect) perfect.

Definition htable_firstval (ht : htable) (hash : Z) : cres (option (Z * Z)) :=
  htable_val ht (hash_bucket ht hash) hash (perfect_bit ht).

Definition htable_nextval (ht : htable) (off hash : Z) : cres (option (Z * Z)) :=
  htable_val ht (in_table ht (off + 1)) hash 0.

(** [for (c = htable_firstval(...); c; c = htable_nextval(...))]: all
    candidates and where they are. *)
Fixpoint vals_loop (fuel : nat) (ht : htable) (hash : Z) (c : cres (option (Z * Z))) : cres (list (Z * Z)) :=
  c ← c;
  match c with
  | None => Ok []
  | Some (p, off) =>
    match fuel with
    | O => Fuel
    | S fuel => r ← vals_loop fuel ht hash (htable_nextval ht off hash); Ok ((p, off) :: r)
    end
  end.

Definition htable_vals (ht : htable) (hash : Z) : cres (list (Z * Z)) :=
  vals_loop (length (cells ht)) ht hash (htable_firstval ht hash).

(** [htable_get] for a comparison function [cmp]. *)
Fixpoint get_loop (fuel : nat) (ht : htable) (hash : Z) (cmp : Z → bool) (c : cres (option (Z * Z)))
    : cres (option Z) :=
  c ← c;
  match c with
  | None => Ok None
  | Some (p, off) =>
    if cmp p then Ok (Some p) else
    match fuel with
    | O => Fuel
    | S fuel => get_loop fuel ht hash cmp (htable_nextval ht off hash)
    end
  end.

Definition htable_get (ht : htable) (h : Z) (cmp : Z → bool) : cres (option Z) :=
  get_loop (length (cells ht)) ht h cmp (htable_firstval ht h).

(** ** Iteration *)

(** [for (...; i->off < 1 << ht->bits; i->off++)]; [n] buckets are left. *)
Fixpoint scan (n : nat) (ht : htable) (off : Z) : cres (option (Z * Z)) :=
  match n with
  | O => Ok None
  | S n =>
    e ← aread (cells ht) off;
    if entry_is_valid e then Ok (Some (get_raw_ptr ht e, off)) else scan n ht (off + 1)
  end.

Definition htable_first (ht : htable) : cres (option (Z * Z)) :=
  scan (Z.to_nat (buckets ht)) ht 0.

Definition htable_next (ht : htable) (off : Z) : cres (option (Z * Z)) :=
  scan (Z.to_nat (buckets ht - (off + 1))) ht (off + 1).

(** All entries from [c] on. *)
Fixpoint walk_loop (fuel : nat) (ht : htable) (c : cres (option (Z * Z))) : cres (list (Z * Z)) :=
  c ← c;
  match c with
  | None => Ok []
  | Some (p, off) =>
    match fuel with
    | O => Fuel
    | S fuel => r ← walk_loop fuel ht (htable_next ht off); Ok ((p, off) :: r)
    end
  end.

Definition htable_walk (ht : htable) : cres (list (Z * Z)) :=
  walk_loop (length (cells ht)) ht (htable_first ht).

(** ** Adding *)

(** [while (entry_is_valid(ht->table[i]))] of [ht_add]. *)
Fixpoint ht_add_loop (fuel : nat) (ht : htable) (i perfect : Z) : cres (Z * Z) :=
  match fuel with
  | O => Fuel
  | S fuel =>
    e ← aread (cells ht) i;
    if entry_is_valid e then ht_add_loop fuel ht (in_table ht (i + 1)) 0 else Ok (i, perfect)
  end.

Definition ht_add (ht : htable) (new h : Z) : cres htable :=
  '(i, perfect) ← ht_add_loop (S (length (cells ht))) ht (hash_bucket ht h) (perfect_bit ht);
  set_cell ht i (make_hval ht new (Z.lor (get_hash_ptr_bits ht h) perfect)).

(** The lowest bit of the mask, searched from bit [i] on. *)
Fixpoint find_perfect (n : nat) (i mask : Z) : Z :=
  match n with
  | O => 0
  | S n => if negb (Z.land mask (Z.shiftl 1 i) =? 0) then Z.shiftl 1 i else find_perfect n (i + 1) mask
  end.

(** The entries of the old table are added to the new one. *)
Fixpoint readd (rehash : Z → Z) (old : list Z) (ht : htable) : cres htable :=
  match old with
  | [] => Ok ht
  | e :: old =>
    if entry_is_valid e then
      let p := get_raw_ptr ht e in
      ht ← ht_add ht p (rehash p); readd rehash old ht
    else readd rehash old ht
  end.

(** [ok]: whether [calloc] succeeds. *)
Definition double_table (ok : bool) (rehash : Z → Z) (ht : htable) : cres (bool * htable) :=
  if negb ok then Ok (false, ht) else
  let oldtable := table ht in
  let b := S (bits ht) in
  let ht := {| ht with table := Some (replicate (Z.to_nat (Z.shiftl 1 (Z.of_nat b))) 0);
                       bits := b;
                       hmax := Z.shiftl 3 (Z.of_nat b) / 4;
                       max_with_deleted := Z.shiftl 9 (Z.of_nat b) / 10 |} in
  let ht :=
    if (perfect_bit ht =? 0) && negb (common_mask ht =? 0)
    then {| ht with perfect_bit := find_perfect 64 0 (common_mask ht) |} else ht in
  ht ← match oldtable with Some old => readd rehash old ht | None => Ok ht end;
  Ok (true, {| ht with deleted := 0 |}).

(** [for (start = 0; ht->table[start]; start++);] *)
Fixpoint first_empty (l : list Z) (start : Z) : cres Z :=
  match l with
  | [] => UB
  | e :: l => if e =? 0 then Ok start else first_empty l (start + 1)
  end.

(** The loop of [rehash_table], [n] rounds from [i] on. *)
Fixpoint rehash_loop (n : nat) (rehash : Z → Z) (start i : Z) (ht : htable) : cres htable :=
  match n with
  | O => Ok ht
  | S n =>
    let h := in_table ht (i + start) in
    e ← aread (cells ht) h;
    ht ← (if e =? 0 then Ok ht else
          if e =? HTABLE_DELETED then set_cell ht h 0 else
          if Z.land e (perfect_bit ht) =? 0 then
            let p := get_raw_ptr ht e in
            ht ← set_cell ht h 0; ht_add ht p (rehash p)
          else Ok ht);
    rehash_loop n rehash start (i + 1) ht
  end.

Definition rehash_table (rehash : Z → Z) (ht : htable) : cres htable :=
  start ← first_empty (cells ht) 0;
  ht ← rehash_loop (Z.to_nat (buckets ht)) rehash start 0 ht;
  Ok {| ht with deleted := 0 |}.

(** The highest bit of [p], searched from bit [i] down to 0. *)
Fixpoint top_bit (i : nat) (p : Z) : Z :=
  match i with
  | O => 0
  | S j => if negb (Z.land p (Z.shiftl 1 (Z.of_nat i)) =? 0) then Z.of_nat i else top_bit j p
  end.

(** The cells with the bits put back that are no longer common. *)
Definition fix_cell (maskdiff bitsdiff e : Z) : Z :=
  if entry_is_valid e then Z.lor (Z.ldiff e maskdiff) bitsdiff else e.

Definition update_common (ht : htable) (p : Z) : htable :=
  if elems ht =? 0 then
    let mask := Z.ldiff UINTPTR_MAX (Z.shiftl 1 (top_bit 63 p)) in
    {| ht with common_mask := mask; common_bits := Z.land p mask; perfect_bit := 1 |}
  else
    let maskdiff := Z.lxor (common_bits ht) (Z.land p (common_mask ht)) in
    let bitsdiff := Z.land (common_bits ht) maskdiff in
    {| ht with table := match table ht with Some l => Some (fix_cell maskdiff bitsdiff <$> l) | None => None end;
               common_mask := Z.ldiff (common_mask ht) maskdiff;
               common_bits := Z.ldiff (common_bits ht) maskdiff;
               perfect_bit := Z.ldiff (perfect_bit ht) maskdiff |}.

Definition htable_add (ok : bool) (rehash : Z → Z) (ht : htable) (hash p : Z) : cres (bool * htable) :=
  '(b, ht) ← (if hmax ht <? elems ht + 1 then double_table ok rehash ht else Ok (true, ht));
  if negb b then Ok (false, ht) else
  ht ← (if max_with_deleted ht <? elems ht + 1 + deleted ht then rehash_table rehash ht else Ok ht);
  let ht := if negb (Z.land p (common_mask ht) =? common_bits ht) then update_common ht p else ht in
  ht ← ht_add ht p hash;
  Ok (true, {| ht with elems := elems ht + 1 |}).

(** ** Deleting *)

(** The assertions fail as [UB]. *)
Definition htable_delval (ht : htable) (off : Z) : cres htable :=
  e ← aread (cells ht) off;
  if negb (entry_is_valid e) then UB else
  let ht := {| ht with elems := elems ht - 1 |} in
  ht ← set_cell ht off HTABLE_DELETED;
  Ok {| ht with deleted := deleted ht + 1 |}.

Fixpoint del_loop (fuel : nat) (ht : htable) (h p : Z) (c : cres (option (Z * Z))) : cres (bool * htable) :=
  c ← c;
  match c with
  | None => Ok (false, ht)
  | Some (q, off) =>
    if q =? p then ht ← htable_delval ht off; Ok (true, ht) else
    match fuel with
    | O => Fuel
    | S fuel => del_loop fuel ht h p (htable_nextval ht off h)
    end
  end.

Definition htable_del (ht : htable) (h p : Z) : cres (bool * htable) :=
  del_loop (length (cells ht)) ht h p (htable_firstval ht h).

End Ccan.
