(* ===== verification/CcanHtableSpec.v ===== *)
(** * The hash table keeps the promises of its interface

    The cells of the table of CcanHtable.v encode slots: empty, deleted, or a
    pointer with the hash it was stored with.  [ht_rep] relates a table to
    its slots; the operations are first related to operations on the slots,
    where the invariant of linear probing (no empty slot between the bucket
    of an entry and the entry) is shown to be kept.  The instance of
    [HTableSpec] at the end makes the theorems about the databases theorems
    about this table. *)

From S2P Require Import Prelude Htable CcanHtable.
Import Ccan.

(** ** Bits *)

(** Goals about bit operations, bit by bit. *)
Ltac bits :=
  apply Z.bits_inj'; intros k Hk;
  repeat match goal with
  | H : ?a = ?b |- _ =>
    match type of a with Z => apply (f_equal (λ z, Z.testbit z k)) in H end
  end;
  repeat rewrite ?Z.lor_spec, ?Z.ldiff_spec, ?Z.land_spec, ?Z.lxor_spec, ?Z.bits_0 in *;
  repeat match goal with
  | H : context [Z.testbit ?x k] |- _ => destruct (Z.testbit x k)
  | |- context [Z.testbit ?x k] => destruct (Z.testbit x k)
  end; simpl in *; try done.

Section bits.
Context (ht : htable).

Lemma extra_make p tag :
  Z.land tag (common_mask ht) = tag → get_extra_ptr_bits ht (make_hval ht p tag) = tag.
Proof. intros H. unfold get_extra_ptr_bits, make_hval. bits. Qed.

Lemma raw_make p tag :
  Z.land tag (common_mask ht) = tag → Z.land p (common_mask ht) = common_bits ht →
  get_raw_ptr ht (make_hval ht p tag) = p.
Proof. intros H1 H2. unfold get_raw_ptr, make_hval. bits. Qed.

Lemma hash_bits_mask h :
  Z.land (get_hash_ptr_bits ht h) (common_mask ht) = get_hash_ptr_bits ht h.
Proof. unfold get_hash_ptr_bits. bits. Qed.

Lemma hash_bits_perfect h : Z.land (get_hash_ptr_bits ht h) (perfect_bit ht) = 0.
Proof. unfold get_hash_ptr_bits. bits. Qed.

End bits.

Lemma testbit_ge e k : 0 ≤ e → 0 ≤ k → Z.testbit e k = true → 2 ^ k ≤ e.
Proof.
  intros He Hk Hb. destruct (Z.le_gt_cases (2 ^ k) e); [done|].
  rewrite (testbit_small e k k) in Hb by lia. done.
Qed.

(** ** Cyclic lists *)

Inductive slot := Empty | Deleted | Full (p h : Z).
#[global] Instance slot_inhabited : Inhabited slot := populate Empty.
#[global] Instance slot_eq_dec : EqDecision slot.
Proof. solve_decision. Defined.

Definition len (l : list slot) : Z := Z.of_nat (length l).

(** The slot at any integer position, modulo the length. *)
Definition at_ (l : list slot) (x : Z) : slot := l !!! Z.to_nat (x mod len l).
Definition upd (l : list slot) (x : Z) (s : slot) : list slot := <[Z.to_nat (x mod len l) := s]> l.

Lemma upd_len l x s : len (upd l x s) = len l.
Proof. unfold len, upd. by rewrite length_insert. Qed.

Lemma at_mod l x : at_ l (x mod len l) = at_ l x.
Proof. unfold at_. by rewrite Z.mod_mod_divide. Qed.

Lemma at_eq l x y : x mod len l = y mod len l → at_ l x = at_ l y.
Proof. unfold at_. by intros ->. Qed.

Lemma mod_index l x : 0 < len l → (Z.to_nat (x mod len l) < length l)%nat.
Proof. unfold len. intros H. pose proof (Z.mod_pos_bound x (Z.of_nat (length l))). lia. Qed.

Lemma at_lookup l x : 0 < len l → l !! Z.to_nat (x mod len l) = Some (at_ l x).
Proof.
  intros H. unfold at_. destruct (lookup_lt_is_Some_2 l _ (mod_index l x H)) as [s Hs].
  by rewrite Hs, (list_lookup_total_correct _ _ _ Hs).
Qed.

Lemma lookup_at l i s : l !! i = Some s → at_ l (Z.of_nat i) = s.
Proof.
  intros Hi. pose proof (lookup_lt_Some _ _ _ Hi). unfold at_, len.
  rewrite Z.mod_small, Nat2Z.id by lia. by apply list_lookup_total_correct.
Qed.

Lemma upd_at l x s y :
  0 < len l → at_ (upd l x s) y = if decide (y mod len l = x mod len l) then s else at_ l y.
Proof.
  intros Hl. unfold at_. rewrite upd_len. unfold upd.
  pose proof (Z.mod_pos_bound x (len l) Hl). pose proof (Z.mod_pos_bound y (len l) Hl).
  case_decide as E.
  - rewrite E. apply list_lookup_total_insert_eq. by apply mod_index.
  - apply list_lookup_total_insert_ne. lia.
Qed.

(** ** Encoding *)

Definition heap_ptr (p : Z) : Prop := 2 ^ 46 ≤ p < 2 ^ 47.
Definition TOP : Z := 46.

Definition enc (ht : htable) (i : Z) (s : slot) : Z :=
  match s with
  | Empty => 0
  | Deleted => HTABLE_DELETED
  | Full p h => make_hval ht p
      (Z.lor (get_hash_ptr_bits ht h) (if i =? hash_bucket ht h then perfect_bit ht else 0))
  end.

(** A pointer that can be stored with the current mask. *)
Definition storable (ht : htable) (p : Z) : Prop :=
  heap_ptr p ∧ Z.land p (common_mask ht) = common_bits ht ∧ Z.testbit (common_mask ht) TOP = false.

Record params_ok (ht : htable) : Prop := {
  po_mask : 0 ≤ common_mask ht;
  po_perfect : 0 ≤ perfect_bit ht ∧ Z.land (perfect_bit ht) (common_mask ht) = perfect_bit ht }.

Record ht_rep (ht : htable) (l : list slot) : Prop := {
  hr_len : len l = 2 ^ Z.of_nat (bits ht);
  hr_cells : ∀ x, aread (cells ht) (x mod len l) = Ok (enc ht (x mod len l) (at_ l x));
  hr_length : length (cells ht) = length l;
  hr_full x p h : at_ l x = Full p h → storable ht p;
  hr_params : params_ok ht }.

Lemma heap_ptr_top p : heap_ptr p → Z.testbit p TOP = true.
Proof.
  intros Hp. unfold heap_ptr, TOP in *.
  apply Z.testbit_true; [lia|]. assert (p / 2 ^ 46 = 1) as ->; [|done].
  symmetry. apply (Z.div_unique p (2 ^ 46) 1 (p - 2 ^ 46)); lia.
Qed.

Section rep.
Context (ht : htable) (l : list slot) (Hr : ht_rep ht l).

Lemma rep_len_pos : 0 < len l.
Proof. rewrite (hr_len _ _ Hr). lia. Qed.

Lemma in_table_mod x : in_table ht x = x mod len l.
Proof.
  unfold in_table, buckets. rewrite Z.shiftl_1_l, (hr_len _ _ Hr).
  rewrite <- Z.land_ones by lia. f_equal. rewrite Z.ones_equiv. lia.
Qed.

Definition tag (i h : Z) : Z :=
  Z.lor (get_hash_ptr_bits ht h) (if i =? hash_bucket ht h then perfect_bit ht else 0).

Lemma tag_mask i h : Z.land (tag i h) (common_mask ht) = tag i h.
Proof.
  unfold tag. destruct (hr_params _ _ Hr) as [_ [_ Hp]]. pose proof (hash_bits_mask ht h) as Hh.
  rewrite Z.land_lor_distr_l, Hh. destruct (_ =? _); by rewrite ?Hp.
Qed.

Lemma tag_nonneg i h : 0 ≤ tag i h.
Proof.
  rewrite <- tag_mask. apply Z.land_nonneg. right. apply (hr_params _ _ Hr).
Qed.

Lemma enc_full_valid i p h : storable ht p → 1 < enc ht i (Full p h).
Proof.
  intros (Hp & _ & Hm). cbn [enc]. fold (tag i h). unfold make_hval.
  assert (0 ≤ Z.lor (Z.ldiff p (common_mask ht)) (tag i h)) as H0.
  { apply Z.lor_nonneg. split; [|apply tag_nonneg]. apply Z.ldiff_nonneg. left. unfold heap_ptr in Hp. lia. }
  assert (2 ^ TOP ≤ Z.lor (Z.ldiff p (common_mask ht)) (tag i h)); [|unfold TOP in *; lia].
  apply testbit_ge; [done|by unfold TOP|].
  rewrite Z.lor_spec, Z.ldiff_spec, Hm, heap_ptr_top by done. done.
Qed.


Lemma enc_zero x : (enc ht (x mod len l) (at_ l x) =? 0) = bool_decide (at_ l x = Empty).
Proof.
  destruct (at_ l x) as [| |p h] eqn:E; [done..|].
  pose proof (enc_full_valid (x mod len l) p h (hr_full _ _ Hr _ _ _ E)).
  rewrite bool_decide_eq_false_2 by done. apply Z.eqb_neq. lia.
Qed.

Lemma enc_deleted x : (enc ht (x mod len l) (at_ l x) =? HTABLE_DELETED) = bool_decide (at_ l x = Deleted).
Proof.
  unfold HTABLE_DELETED. destruct (at_ l x) as [| |p h] eqn:E; [done..|].
  pose proof (enc_full_valid (x mod len l) p h (hr_full _ _ Hr _ _ _ E)).
  rewrite bool_decide_eq_false_2 by done. apply Z.eqb_neq. lia.
Qed.

Definition is_full (s : slot) : bool := match s with Full _ _ => true | _ => false end.

Lemma enc_valid x : entry_is_valid (enc ht (x mod len l) (at_ l x)) = is_full (at_ l x).
Proof.
  unfold entry_is_valid, HTABLE_DELETED. destruct (at_ l x) as [| |p h] eqn:E; [done..|].
  pose proof (enc_full_valid (x mod len l) p h (hr_full _ _ Hr _ _ _ E)). apply Z.ltb_lt. lia.
Qed.

Lemma enc_raw x p h : at_ l x = Full p h → get_raw_ptr ht (enc ht (x mod len l) (at_ l x)) = p.
Proof.
  intros E. rewrite E. apply raw_make; [apply tag_mask|]. by apply (hr_full _ _ Hr) in E as (_ & ? & _).
Qed.

Lemma enc_extra x p h :
  at_ l x = Full p h → get_extra_ptr_bits ht (enc ht (x mod len l) (at_ l x)) = tag (x mod len l) h.
Proof. intros E. rewrite E. apply extra_make, tag_mask. Qed.

Lemma enc_perfect x p h :
  at_ l x = Full p h →
  Z.land (enc ht (x mod len l) (at_ l x)) (perfect_bit ht) =
    if x mod len l =? h mod len l then perfect_bit ht else 0.
Proof.
  intros E. rewrite E. cbn [enc]. unfold hash_bucket. rewrite in_table_mod.
  destruct (hr_params _ _ Hr) as [_ [_ Hp]]. pose proof (hash_bits_perfect ht h) as Hh.
  unfold make_hval. destruct (_ =? _); bits.
Qed.
End rep.

(** ** Looking up *)

(** The least number with a property. *)
Lemma least_nat (P : nat → Prop) `{∀ n, Decision (P n)} n :
  P n → ∃ m, (m ≤ n)%nat ∧ P m ∧ ∀ j, (j < m)%nat → ¬ P j.
Proof.
  revert n. induction n as [n IH] using lt_wf_ind. intros Hn.
  destruct (decide (Exists P (seq 0 n))) as [He|He].
  - apply Exists_exists in He as (m & Hm%elem_of_seq & HP).
    destruct (IH m) as (k & Hk & HPk & Hj); [lia|done|]. exists k. split; [lia|done].
  - exists n. split_and!; [done..|]. intros j Hj HP. apply He, Exists_exists. exists j.
    split; [apply elem_of_seq; lia|done].
Qed.

(** The first slot from [x] on that satisfies [P] is [r] further. *)
Definition first_at (P : slot → Prop) (l : list slot) (x : Z) (r : nat) : Prop :=
  P (at_ l (x + Z.of_nat r)) ∧ ∀ j, (j < r)%nat → ¬ P (at_ l (x + Z.of_nat j)).

Lemma first_at_exists P `{∀ s, Decision (P s)} l x y :
  0 < len l → P (at_ l y) → ∃ r, (r < length l)%nat ∧ first_at P l x r.
Proof.
  intros Hl HP. set (d := Z.to_nat ((y - x) mod len l)).
  pose proof (Z.mod_pos_bound (y - x) (len l) Hl) as Hd.
  destruct (least_nat (λ r, P (at_ l (x + Z.of_nat r))) d) as (r & Hr & HPr & Hj).
  - rewrite (at_eq l _ y); [done|]. unfold d. rewrite Z2Nat.id by lia.
    rewrite Zplus_mod_idemp_r. f_equal. lia.
  - exists r. split; [|done]. unfold d, len in *. lia.
Qed.

Lemma first_at_S P l x r : first_at P l x (S r) → ¬ P (at_ l x) ∧ first_at P l (x + 1) r.
Proof.
  intros [HP Hj]. split.
  - rewrite <- (Z.add_0_r x). by apply (Hj 0%nat); lia.
  - split.
    + by replace (x + 1 + Z.of_nat r) with (x + Z.of_nat (S r)) by lia.
    + intros j Hlt. replace (x + 1 + Z.of_nat j) with (x + Z.of_nat (S j)) by lia. apply Hj. lia.
Qed.

Lemma first_at_0 P l x : first_at P l x 0 → P (at_ l x).
Proof. intros [HP _]. by rewrite Z.add_0_r in HP. Qed.

(** What [htable_firstval] and [htable_nextval] deliver one after another. *)
Inductive iter (ht : htable) (hash : Z) : cres (option (Z * Z)) → list (Z * Z) → Prop :=
| iter_nil : iter ht hash (Ok None) []
| iter_cons p off r : iter ht hash (htable_nextval ht off hash) r →
    iter ht hash (Ok (Some (p, off))) ((p, off) :: r).

Lemma iter_vals ht hash c r fuel :
  iter ht hash c r → (length r ≤ fuel)%nat → vals_loop fuel ht hash c = Ok r.
Proof.
  intros Hi. revert fuel. induction Hi as [|p off r Hi IH]; intros fuel Hf; [by destruct fuel|].
  destruct fuel as [|fuel]; simpl in Hf; [lia|]. cbn [vals_loop]. run. rewrite IH by lia. done.
Qed.

Lemma iter_get ht hash cmp c r fuel :
  iter ht hash c r → (length r ≤ fuel)%nat →
  get_loop fuel ht hash cmp c = Ok (list_find (λ q, cmp q.1 = true) r ≫= λ '(_, q), Some q.1).
Proof.
  intros Hi. revert fuel. induction Hi as [|p off r Hi IH]; intros fuel Hf; [by destruct fuel|].
  destruct fuel as [|fuel]; simpl in Hf; [lia|]. cbn [get_loop list_find]. run. simpl.
  destruct (cmp p) eqn:E.
  - by rewrite decide_True.
  - rewrite decide_False by done. rewrite IH by lia.
    by destruct (list_find _ r) as [[? ?]|].
Qed.

Lemma iter_del ht hash c r fuel p :
  iter ht hash c r → (length r ≤ fuel)%nat →
  del_loop fuel ht hash p c =
    match list_find (λ q, q.1 = p) r with
    | Some (_, (_, off)) => ht' ← htable_delval ht off; Ok (true, ht')
    | None => Ok (false, ht)
    end.
Proof.
  intros Hi. revert fuel. induction Hi as [|q off r Hi IH]; intros fuel Hf; [by destruct fuel|].
  destruct fuel as [|fuel]; simpl in Hf; [lia|]. cbn [del_loop list_find]. run. simpl.
  destruct (Z.eqb_spec q p) as [->|Hne]; [by rewrite decide_True|].
  rewrite decide_False by done. rewrite IH by lia. by destruct (list_find _ r) as [[? [? ?]]|].
Qed.

Section lookup.
Context (ht : htable) (l : list slot) (Hr : ht_rep ht l).

(** The matches in the [r] slots from [x] on. *)
Fixpoint hits (r : nat) (x h2 perfect : Z) : list (Z * Z) :=
  match r with
  | O => []
  | S r =>
    let rest := hits r (x + 1) (Z.ldiff h2 perfect) perfect in
    match at_ l x with
    | Full p h => if tag ht (x mod len l) h =? h2 then (p, x mod len l) :: rest else rest
    | _ => rest
    end
  end.

Lemma next_index x : in_table ht (x mod len l + 1) = (x + 1) mod len l.
Proof. rewrite (in_table_mod _ _ Hr). apply Zplus_mod_idemp_l. Qed.

Lemma val_loop_hits r : ∀ x fuel h2 perfect,
  first_at (λ s, s = Empty) l x r → (r < fuel)%nat →
  val_loop fuel ht (x mod len l) h2 perfect = Ok (head (hits r x h2 perfect)).
Proof.
  induction r as [|r IH]; intros x fuel h2 perfect Hx Hf; destruct fuel as [|fuel]; try lia;
    cbn [val_loop]; rewrite (hr_cells _ _ Hr); run; rewrite (enc_zero _ _ Hr).
  - apply first_at_0 in Hx. by rewrite bool_decide_eq_true_2.
  - apply first_at_S in Hx as [Hne Hx]. rewrite bool_decide_eq_false_2 by done.
    rewrite (enc_deleted _ _ Hr), next_index. cbn [hits].
    destruct (at_ l x) as [| |p h] eqn:E; [done|simpl; by apply IH; [|lia]|].
    rewrite bool_decide_eq_false_2 by done. cbn [negb andb]. rewrite <- E, (enc_extra _ _ Hr _ _ _ E).
    destruct (_ =? h2); [by rewrite (enc_raw _ _ Hr _ _ _ E)|]. by apply IH; [|lia].
Qed.

Lemma hits_stable r x h2 perfect : Z.ldiff h2 perfect = h2 → hits r x h2 perfect = hits r x h2 0.
Proof.
  intros H. revert x. induction r as [|r IH]; intros x; cbn [hits]; [done|].
  rewrite H, Z.ldiff_0_r, IH. done.
Qed.

Lemma hits_iter h r x :
  first_at (λ s, s = Empty) l x r → (r < length l)%nat →
  iter ht h (Ok (head (hits r x (get_hash_ptr_bits ht h) 0))) (hits r x (get_hash_ptr_bits ht h) 0).
Proof.
  revert x. induction r as [|r IH]; intros x Hx Hlt; cbn [hits]; [constructor|].
  rewrite Z.ldiff_0_r. apply first_at_S in Hx as [_ Hx].
  destruct (at_ l x) as [| |p h'] eqn:E; [by apply IH; [|lia]..|].
  destruct (_ =? _); [|by apply IH; [|lia]]. cbn [head]. constructor.
  unfold htable_nextval, htable_val. rewrite next_index, Z.lor_0_r, (hr_length _ _ Hr).
  rewrite (val_loop_hits r) by (done || lia). apply IH; [done|lia].
Qed.

Definition perfect_hits (r : nat) (h : Z) : list (Z * Z) :=
  hits r h (Z.lor (get_hash_ptr_bits ht h) (perfect_bit ht)) (perfect_bit ht).

Lemma perfect_hits_S r h :
  perfect_hits (S r) h =
    match at_ l h with
    | Full p k => if tag ht (h mod len l) k =? Z.lor (get_hash_ptr_bits ht h) (perfect_bit ht)
                  then [(p, h mod len l)] else []
    | _ => []
    end ++ hits r (h + 1) (get_hash_ptr_bits ht h) 0.
Proof.
  unfold perfect_hits. cbn [hits]. pose proof (hash_bits_perfect ht h) as Hh.
  assert (Z.ldiff (Z.lor (get_hash_ptr_bits ht h) (perfect_bit ht)) (perfect_bit ht)
    = get_hash_ptr_bits ht h) as -> by bits.
  rewrite hits_stable by bits. destruct (at_ l h); try done. by destruct (_ =? _).
Qed.

Lemma firstval_iter h r :
  first_at (λ s, s = Empty) l h r → (r < length l)%nat →
  iter ht h (htable_firstval ht h) (perfect_hits r h).
Proof.
  intros Hx Hlt. unfold htable_firstval, htable_val, hash_bucket.
  rewrite (in_table_mod _ _ Hr), (hr_length _ _ Hr), (val_loop_hits r) by (done || lia).
  fold (perfect_hits r h). destruct r as [|r]; [constructor|]. rewrite perfect_hits_S.
  apply first_at_S in Hx as [_ Hx].
  destruct (at_ l h) as [| |p k]; [by apply hits_iter; [|lia]..|].
  destruct (_ =? _); [|by apply hits_iter; [|lia]]. cbn [app head]. constructor.
  unfold htable_nextval, htable_val. rewrite next_index, Z.lor_0_r, (hr_length _ _ Hr).
  rewrite (val_loop_hits r) by (done || lia). apply hits_iter; [done|lia].
Qed.

Lemma hits_length r x h2 perfect : (length (hits r x h2 perfect) ≤ r)%nat.
Proof.
  revert x h2. induction r as [|r IH]; intros x h2; cbn [hits]; [done|].
  specialize (IH (x + 1) (Z.ldiff h2 perfect)).
  destruct (at_ l x); [lia..|]. destruct (_ =? _); simpl; lia.
Qed.

(** Every match is an entry. *)
Lemma hits_sound r x h2 perfect p off :
  (p, off) ∈ hits r x h2 perfect → ∃ y h, off = y mod len l ∧ at_ l y = Full p h.
Proof.
  revert x h2. induction r as [|r IH]; intros x h2; cbn [hits]; [by intros ?%elem_of_nil|].
  destruct (at_ l x) as [| |q k] eqn:E; [by apply IH..|]. destruct (_ =? _); [|by apply IH].
  intros [[= -> ->]|Hin]%elem_of_cons; [by exists x, k|]. by apply IH in Hin.
Qed.

(** Every entry in reach whose tag matches is delivered. *)
Lemma hits_complete r x h2 d p h :
  (d < r)%nat → at_ l (x + Z.of_nat d) = Full p h → tag ht ((x + Z.of_nat d) mod len l) h = h2 →
  (p, (x + Z.of_nat d) mod len l) ∈ hits r x h2 0.
Proof.
  revert x d. induction r as [|r IH]; intros x d Hd E Ht; [lia|]. cbn [hits]. rewrite Z.ldiff_0_r.
  destruct d as [|d].
  - rewrite Z.add_0_r in *. rewrite E, Ht, Z.eqb_refl. by left.
  - replace (x + Z.of_nat (S d)) with (x + 1 + Z.of_nat d) in * by lia.
    specialize (IH (x + 1) d ltac:(lia) E Ht).
    destruct (at_ l x); [done..|]. destruct (_ =? _); [by right|done].
Qed.
End lookup.

(** ** Iteration *)

Inductive witer (ht : htable) : cres (option (Z * Z)) → list (Z * Z) → Prop :=
| witer_nil : witer ht (Ok None) []
| witer_cons p off r : witer ht (htable_next ht off) r →
    witer ht (Ok (Some (p, off))) ((p, off) :: r).

Lemma witer_walk ht c r fuel :
  witer ht c r → (length r ≤ fuel)%nat → walk_loop fuel ht c = Ok r.
Proof.
  intros Hi. revert fuel. induction Hi as [|p off r Hi IH]; intros fuel Hf; [by destruct fuel|].
  destruct fuel as [|fuel]; simpl in Hf; [lia|]. cbn [walk_loop]. run. rewrite IH by lia. done.
Qed.

(** The entries in the [n] slots from [off] on. *)
Fixpoint entries (l : list slot) (n : nat) (off : Z) : list (Z * Z) :=
  match n with
  | O => []
  | S n =>
    match at_ l off with
    | Full p _ => (p, off) :: entries l n (off + 1)
    | _ => entries l n (off + 1)
    end
  end.

Section walk.
Context (ht : htable) (l : list slot) (Hr : ht_rep ht l).

Lemma scan_entries n off :
  0 ≤ off → off + Z.of_nat n = len l → scan n ht off = Ok (head (entries l n off)).
Proof.
  revert off. induction n as [|n IH]; intros off H0 Hn; cbn [scan entries]; [done|].
  rewrite <- (Z.mod_small off (len l)) at 1 by lia. rewrite (hr_cells _ _ Hr). run.
  rewrite (enc_valid _ _ Hr). destruct (at_ l off) as [| |p h] eqn:E; cbn [is_full]; [by apply IH; lia..|].
  by rewrite <- E, (enc_raw _ _ Hr _ _ _ E).
Qed.

Lemma entries_witer n off :
  0 ≤ off → off + Z.of_nat n = len l → witer ht (Ok (head (entries l n off))) (entries l n off).
Proof.
  revert off. induction n as [|n IH]; intros off H0 Hn; cbn [entries]; [constructor|].
  destruct (at_ l off) as [| |p h] eqn:E; [by apply IH; lia..|]. cbn [head]. constructor.
  unfold htable_next, buckets. rewrite Z.shiftl_1_l, <- (hr_len _ _ Hr).
  replace (Z.to_nat (len l - (off + 1))) with n by lia.
  rewrite scan_entries by lia. apply IH; lia.
Qed.

Lemma entries_length n off : (length (entries l n off) ≤ n)%nat.
Proof.
  revert off. induction n as [|n IH]; intros off; cbn [entries]; [done|].
  specialize (IH (off + 1)). destruct (at_ l off); simpl; lia.
Qed.

(** Walking delivers the entries in the order of the slots. *)
Lemma walk_entries : htable_walk ht = Ok (entries l (length l) 0).
Proof.
  unfold htable_walk, htable_first, buckets. rewrite Z.shiftl_1_l, <- (hr_len _ _ Hr).
  unfold len at 1. rewrite Nat2Z.id, scan_entries, (hr_length _ _ Hr) by (unfold len; lia).
  apply witer_walk; [apply entries_witer; unfold len; lia|apply entries_length].
Qed.

Lemma elem_of_entries n off p x :
  0 ≤ off → off + Z.of_nat n = len l →
  (p, x) ∈ entries l n off ↔ off ≤ x < len l ∧ ∃ h, at_ l x = Full p h.
Proof.
  revert off. induction n as [|n IH]; intros off H0 Hn; cbn [entries].
  - split; [by intros ?%elem_of_nil|]. intros [? _]. lia.
  - assert ((p, x) ∈ entries l n (off + 1) ↔ off + 1 ≤ x < len l ∧ ∃ h, at_ l x = Full p h) as IH'
      by (apply IH; lia).
    destruct (decide (x = off)) as [->|Hne].
    + destruct (at_ l off) as [| |q k] eqn:E.
      * rewrite IH'. split; [lia|]. by intros [_ [? ?]].
      * rewrite IH'. split; [lia|]. by intros [_ [? ?]].
      * rewrite elem_of_cons, IH'. split.
        -- intros [[= ->]|?]; [|lia]. split; [lia|by eexists].
        -- intros [_ [h [= -> ->]]]. by left.
    + assert (off + 1 ≤ x < len l ↔ off ≤ x < len l) as Hb by lia. rewrite Hb in IH'.
      destruct (at_ l off); [done..|]. rewrite elem_of_cons, IH'. naive_solver.
Qed.
End walk.

(** ** Writing *)

(** Tables that differ in their cells only. *)
Definition same_but_cells (ht ht' : htable) : Prop :=
  ht' = {| ht with table := table ht' |} ∧ is_Some (table ht').

Lemma same_but_cells_trans a b c : same_but_cells a b → same_but_cells b c → same_but_cells a c.
Proof. intros [E1 _] [E2 H]. split; [|done]. rewrite E2 at 1. rewrite E1. done. Qed.

Lemma enc_same ht ht' i s : same_but_cells ht ht' → enc ht' i s = enc ht i s.
Proof. intros [-> _]. by destruct s. Qed.

Lemma storable_same ht ht' p : same_but_cells ht ht' → storable ht' p ↔ storable ht p.
Proof. intros [-> _]. done. Qed.

Section write.
Context (ht : htable) (l : list slot) (Hr : ht_rep ht l) (Ht : is_Some (table ht)).

Lemma set_cell_rep x s :
  (∀ p h, s = Full p h → storable ht p) →
  ∃ ht', set_cell ht (x mod len l) (enc ht (x mod len l) s) = Ok ht' ∧
    ht_rep ht' (upd l x s) ∧ same_but_cells ht ht'.
Proof.
  intros Hs. destruct Ht as [t Et]. pose proof (rep_len_pos _ _ Hr) as Hpos.
  pose proof (hr_length _ _ Hr) as Hlen. unfold cells in Hlen. rewrite Et in Hlen.
  pose proof (Z.mod_pos_bound x (len l) Hpos) as Hx.
  unfold set_cell. rewrite Et, awrite_lt by (unfold len in *; lia). run.
  eexists. split; [done|]. assert (same_but_cells ht
    {| ht with table := Some (<[Z.to_nat (x mod len l):=enc ht (x mod len l) s]> t) |}) as Hsame by (by split; [|eexists]).
  split; [|done]. split.
  - rewrite upd_len. apply (hr_len _ _ Hr).
  - intros y. rewrite upd_len, upd_at by done. rewrite (enc_same _ _ _ _ Hsame). cbn [cells table].
    pose proof (hr_cells _ _ Hr y) as Hy. unfold cells in Hy. rewrite Et in Hy.
    apply aread_inv in Hy as [Hy0 Hy]. case_decide as E.
    + rewrite E. apply aread_Ok; [lia|]. apply list_lookup_insert_eq. unfold len in *. lia.
    + apply aread_Ok; [lia|]. by rewrite list_lookup_insert_ne by lia.
  - cbn [cells table]. unfold upd. by rewrite !length_insert.
  - intros y p h. rewrite upd_at by done. rewrite (storable_same _ _ _ Hsame).
    case_decide; [apply Hs|apply (hr_full _ _ Hr)].
  - destruct (hr_params _ _ Hr). by constructor.
Qed.

Lemma ht_add_loop_rep r : ∀ x fuel perfect,
  first_at (λ s, is_full s = false) l x r → (r < fuel)%nat →
  ht_add_loop fuel ht (x mod len l) perfect =
    Ok ((x + Z.of_nat r) mod len l, if (r =? 0)%nat then perfect else 0).
Proof.
  induction r as [|r IH]; intros x fuel perfect Hx Hf; destruct fuel as [|fuel]; try lia;
    cbn [ht_add_loop]; rewrite (hr_cells _ _ Hr); run; rewrite (enc_valid _ _ Hr).
  - apply first_at_0 in Hx. by rewrite Hx, Z.add_0_r.
  - apply first_at_S in Hx as [Hne Hx]. destruct (is_full (at_ l x)); [|done].
    rewrite (next_index _ _ Hr), IH by (done || lia). destruct (r =? 0)%nat; do 3 f_equal; lia.
Qed.

Lemma ht_add_rep p h :
  storable ht p → (∃ y, is_full (at_ l y) = false) →
  ∃ r ht', (r < length l)%nat ∧ first_at (λ s, is_full s = false) l h r ∧
    ht_add ht p h = Ok ht' ∧ ht_rep ht' (upd l (h + Z.of_nat r) (Full p h)) ∧ same_but_cells ht ht'.
Proof.
  intros Hp [y Hy]. pose proof (rep_len_pos _ _ Hr) as Hpos.
  destruct (first_at_exists (λ s, is_full s = false) l h y Hpos Hy) as (r & Hlt & Hfirst).
  unfold ht_add, hash_bucket. rewrite (in_table_mod _ _ Hr), (hr_length _ _ Hr).
  rewrite (ht_add_loop_rep r) by (done || lia). run.
  destruct (set_cell_rep (h + Z.of_nat r) (Full p h)) as (ht' & E & Hr' & Hs); [by intros ? ? [= <- <-]|].
  exists r, ht'. split_and!; try done. rewrite <- E. cbn [enc]. unfold hash_bucket.
  rewrite (in_table_mod _ _ Hr). do 2 f_equal.
  destruct (Nat.eqb_spec r 0) as [->|Hr0]; [by rewrite Z.add_0_r, Z.eqb_refl|].
  rewrite (proj2 (Z.eqb_neq _ _)); [done|]. intros Heq. unfold len in *.
  assert ((h + Z.of_nat r - h) mod Z.of_nat (length l) = 0) as Hz.
  { rewrite Zminus_mod, Heq, Z.sub_diag. by apply Z.mod_0_l; lia. }
  replace (h + Z.of_nat r - h) with (Z.of_nat r) in Hz by lia. rewrite Z.mod_small in Hz by lia. lia.
Qed.
End write.

(** ** Slots *)

(** No empty slot between the bucket of an entry and the entry. *)
Definition probing (l : list slot) : Prop :=
  ∀ x p h, at_ l x = Full p h → ∀ k, 0 ≤ k < (x - h) mod len l → at_ l (h + k) ≠ Empty.

Definition distinct (l : list slot) : Prop :=
  ∀ x y p h k, at_ l x = Full p h → at_ l y = Full p k → x mod len l = y mod len l.

Definition content (l : list slot) (M : gmap ptr Z) : Prop :=
  ∀ p h, (∃ x, at_ l x = Full (Z.pos p) h) ↔ M !! p = Some h.

Lemma mod_shift l x h : 0 < len l → at_ l (h + (x - h) mod len l) = at_ l x.
Proof. intros Hl. apply at_eq. rewrite Zplus_mod_idemp_r. f_equal. lia. Qed.

(** Filling a slot that holds no entry. *)
Lemma fill_probing l x p h :
  0 < len l → probing l → is_full (at_ l x) = false →
  (∀ k, 0 ≤ k < (x - h) mod len l → at_ l (h + k) ≠ Empty) → probing (upd l x (Full p h)).
Proof.
  intros Hl Hpr Hx Hnew y q k E j Hj. rewrite upd_len in Hj. rewrite upd_at in E |- * by done.
  destruct (decide ((k + j) mod len l = x mod len l)); [done|].
  case_decide as Ey; [|by apply (Hpr y q k)].
  simplify_eq. apply Hnew. by rewrite Zminus_mod, Ey, <- Zminus_mod in Hj.
Qed.

Lemma fill_distinct l x p h :
  0 < len l → distinct l → is_full (at_ l x) = false → (∀ y k, at_ l y ≠ Full p k) →
  distinct (upd l x (Full p h)).
Proof.
  intros Hl Hd Hx Hp y z q k k' Ey Ez. rewrite upd_len. rewrite upd_at in Ey, Ez by done.
  case_decide as H1; case_decide as H2; simplify_eq;
    [congruence|exfalso; by eapply Hp..|].
  by apply (Hd y z q k k').
Qed.

Lemma fill_content l M x p h :
  0 < len l → content l M → is_full (at_ l x) = false → M !! p = None →
  content (upd l x (Full (Z.pos p) h)) (<[p:=h]> M).
Proof.
  intros Hl Hc Hx Hp q k. split.
  - intros [y E]. rewrite upd_at in E by done. case_decide.
    + simplify_eq. by apply lookup_insert_Some; left.
    + assert (M !! q = Some k) as Hq by (apply Hc; by exists y).
      rewrite lookup_insert_ne; [done|]. intros <-. congruence.
  - intros [[<- <-]|[Hne Hq]]%lookup_insert_Some.
    + exists x. rewrite upd_at by done. by rewrite decide_True.
    + apply Hc in Hq as [y E]. exists y. rewrite upd_at by done. rewrite decide_False; [done|].
      intros Heq. rewrite (at_eq _ _ _ Heq) in E. by rewrite E in Hx.
Qed.

(** Emptying the slot of an entry. *)
Lemma delete_probing l x : 0 < len l → probing l → probing (upd l x Deleted).
Proof.
  intros Hl Hpr y q k E j Hj. rewrite upd_len in Hj. rewrite upd_at in E |- * by done.
  case_decide; [done|]. case_decide; [done|]. by apply (Hpr y q k).
Qed.

Lemma clear_distinct l x s :
  0 < len l → is_full s = false → distinct l → distinct (upd l x s).
Proof.
  intros Hl Hs Hd y z q k k' Ey Ez. rewrite upd_len. rewrite upd_at in Ey, Ez by done.
  case_decide; [by subst s|]. case_decide; [by subst s|]. by apply (Hd y z q k k').
Qed.

Lemma clear_content l M x p h s :
  0 < len l → is_full s = false → content l M → distinct l → at_ l x = Full (Z.pos p) h →
  content (upd l x s) (delete p M).
Proof.
  intros Hl Hs Hc Hd Hx q k. rewrite lookup_delete_Some, <- (Hc q k). split.
  - intros [y E]. rewrite upd_at in E by done. case_decide as Hne; [by subst s|]. split; [|by exists y].
    intros <-. apply Hne. by apply (Hd y x (Z.pos p) k h).
  - intros [Hne [y E]]. exists y. rewrite upd_at by done. rewrite decide_False; [done|].
    intros Heq. rewrite (at_eq _ _ _ Heq), Hx in E. by simplify_eq.
Qed.

(** Replacing a slot without an entry by another. *)
Lemma replace_content l M x s :
  0 < len l → is_full s = false → is_full (at_ l x) = false → content l M → content (upd l x s) M.
Proof.
  intros Hl Hs Hx Hc q k. rewrite <- (Hc q k). split; intros [y E]; exists y.
  - rewrite upd_at in E by done. case_decide; [by subst s|done].
  - rewrite upd_at by done. rewrite decide_False; [done|].
    intros Heq. rewrite (at_eq _ _ _ Heq) in E. by rewrite E in Hx.
Qed.

(** *** Counting *)

Definition count (f : slot → bool) (l : list slot) : nat := length (filter (λ s, f s = true) l).
Definition is_deleted (s : slot) : bool := match s with Deleted => true | _ => false end.

Lemma count_cons f s l : count f (s :: l) = ((if f s then 1 else 0) + count f l)%nat.
Proof. unfold count. rewrite filter_cons. destruct (f s); simpl; done. Qed.

Lemma count_le f l : (count f l ≤ length l)%nat.
Proof. apply length_filter. Qed.

Lemma count_insert f l i s s' :
  l !! i = Some s →
  (count f (<[i:=s']> l) + (if f s then 1 else 0) = count f l + (if f s' then 1 else 0))%nat.
Proof.
  revert i. induction l as [|t l IH]; intros [|i] Hi; simpl in *; simplify_eq.
  - rewrite !count_cons. lia.
  - rewrite !count_cons. specialize (IH i Hi). lia.
Qed.

Lemma count_upd f l x s :
  0 < len l →
  (count f (upd l x s) + (if f (at_ l x) then 1 else 0) = count f l + (if f s then 1 else 0))%nat.
Proof. intros Hl. apply count_insert. by apply at_lookup. Qed.

Lemma count_free f l : (count f l < length l)%nat → ∃ y, f (at_ l y) = false.
Proof.
  intros H. assert (∃ i s, l !! i = Some s ∧ f s = false) as (i & s & Hi & Hs).
  { revert H. induction l as [|s l IH]; simpl; [lia|]. rewrite count_cons. destruct (f s) eqn:Hs.
    - intros H. destruct IH as (i & t & ? & ?); [lia|]. by exists (S i), t.
    - by exists 0%nat, s. }
  exists (Z.of_nat i). by rewrite (lookup_at _ _ _ Hi).
Qed.

Lemma count_two l : count (λ s, is_full s || is_deleted s) l = (count is_full l + count is_deleted l)%nat.
Proof. induction l as [|[] l IH]; [done|rewrite !count_cons, IH; simpl; lia..]. Qed.

Lemma empty_exists l : (count is_full l + count is_deleted l < length l)%nat → ∃ y, at_ l y = Empty.
Proof.
  rewrite <- count_two. intros [y Hy]%count_free. exists y. by destruct (at_ l y).
Qed.

(** *** The pointers in the slots *)

Definition ptrs (l : list slot) : list Z :=
  omap (λ s, match s with Full p _ => Some p | _ => None end) l.

Lemma elem_of_ptrs l p : p ∈ ptrs l ↔ ∃ h, Full p h ∈ l.
Proof.
  unfold ptrs. rewrite list_elem_of_omap. split.
  - intros ([| |q h] & Hin & E); simplify_eq. by exists h.
  - intros [h Hin]. by exists (Full p h).
Qed.

Lemma elem_of_at l s : 0 < len l → s ∈ l ↔ ∃ x, at_ l x = s.
Proof.
  intros Hl. rewrite list_elem_of_lookup. split.
  - intros [i Hi]. exists (Z.of_nat i). by apply lookup_at.
  - intros [x <-]. eexists. by apply at_lookup.
Qed.

Lemma distinct_nodup l : distinct l → NoDup (ptrs l).
Proof.
  intros Hd. assert (∀ i j p h k, l !! i = Some (Full p h) → l !! j = Some (Full p k) → i = j) as Hij.
  { intros i j p h k Hi Hj. pose proof (Hd _ _ _ _ _ (lookup_at _ _ _ Hi) (lookup_at _ _ _ Hj)) as E.
    apply lookup_lt_Some in Hi, Hj. unfold len in E. rewrite !Z.mod_small in E by lia. lia. }
  clear Hd. induction l as [|s l IH]; [constructor|].
  assert (NoDup (ptrs l)) as IH'.
  { apply IH. intros i j p h k Hi Hj. pose proof (Hij (S i) (S j) p h k Hi Hj). lia. }
  destruct s as [| |p h]; [done..|]. simpl. constructor; [|done].
  intros [k [j Hj]%list_elem_of_lookup]%elem_of_ptrs. by pose proof (Hij 0%nat (S j) p h k eq_refl Hj).
Qed.

Lemma entries_ptrs l n off :
  0 ≤ off → off + Z.of_nat n = len l → (entries l n off).*1 = ptrs (drop (Z.to_nat off) l).
Proof.
  revert off. induction n as [|n IH]; intros off H0 Hn; cbn [entries].
  - rewrite drop_ge by (unfold len in Hn; lia). done.
  - assert (l !! Z.to_nat off = Some (at_ l off)) as Ho.
    { rewrite <- (Z.mod_small off (len l)) at 1 by lia. apply at_lookup. lia. }
    rewrite (drop_S _ _ _ Ho). specialize (IH (off + 1) ltac:(lia) ltac:(lia)).
    replace (Z.to_nat (off + 1)) with (S (Z.to_nat off)) in IH by lia.
    destruct (at_ l off) as [| |p h]; [exact IH..|]. exact (f_equal (cons p) IH).
Qed.

(** *** Adding an entry *)

(** The slots between the bucket and the first one without an entry. *)
Lemma first_free_path l h r k :
  0 < len l → (r < length l)%nat → first_at (λ s, is_full s = false) l h r →
  0 ≤ k < (h + Z.of_nat r - h) mod len l → is_full (at_ l (h + k)) = true.
Proof.
  intros Hl Hr [_ Hb] Hk. replace (h + Z.of_nat r - h) with (Z.of_nat r) in Hk by lia.
  rewrite Z.mod_small in Hk by (unfold len; lia). specialize (Hb (Z.to_nat k) ltac:(lia)).
  rewrite Z2Nat.id in Hb by lia. by destruct (is_full _).
Qed.

Lemma add_slots l D p h r :
  0 < len l → (r < length l)%nat → first_at (λ s, is_full s = false) l h r →
  probing l → distinct l → content l D → D !! p = None →
  let l1 := upd l (h + Z.of_nat r) (Full (Z.pos p) h) in
  probing l1 ∧ distinct l1 ∧ content l1 (<[p:=h]> D) ∧
  count is_full l1 = S (count is_full l) ∧ (count is_deleted l1 ≤ count is_deleted l)%nat ∧ len l1 = len l.
Proof.
  intros Hl Hr Hf Hpr Hd Hc Hp l1. pose proof Hf as [Hfree _].
  pose proof (count_upd is_full l (h + Z.of_nat r) (Full (Z.pos p) h) Hl) as Hu.
  pose proof (count_upd is_deleted l (h + Z.of_nat r) (Full (Z.pos p) h) Hl) as Hu'.
  rewrite Hfree in Hu. simpl in Hu, Hu'. split_and!.
  - apply fill_probing; [done..|]. intros k Hk He.
    apply (first_free_path l h r k Hl Hr Hf) in Hk. by rewrite He in Hk.
  - apply fill_distinct; [done..|]. intros y k Hy.
    assert (D !! p = Some k) by (apply Hc; by exists y). congruence.
  - by apply fill_content.
  - unfold l1. lia.
  - unfold l1. destruct (is_deleted (at_ l _)); lia.
  - apply upd_len.
Qed.

(** ** Growing *)

Lemma find_perfect_ok n i mask :
  0 ≤ i → 0 ≤ find_perfect n i mask ∧ Z.land (find_perfect n i mask) mask = find_perfect n i mask.
Proof.
  revert i. induction n as [|n IH]; intros i Hi; cbn [find_perfect]; [done|].
  destruct (Z.eqb_spec (Z.land mask (Z.shiftl 1 i)) 0) as [E|E]; simpl; [apply IH; lia|].
  rewrite Z.shiftl_1_l in *. split; [lia|].
  assert (Z.testbit mask i = true) as Hb.
  { destruct (Z.testbit mask i) eqn:Hb; [done|]. destruct E. apply Z.bits_inj'. intros k Hk.
    rewrite Z.land_spec, Z.bits_0, Z.pow2_bits_eqb by done.
    destruct (Z.eqb_spec i k) as [<-|]; [by rewrite Hb|by rewrite andb_false_r]. }
  apply Z.bits_inj'. intros k Hk. rewrite Z.land_spec, Z.pow2_bits_eqb by done.
  destruct (Z.eqb_spec i k) as [<-|]; [by rewrite Hb|done].
Qed.

(** A cell of the old table and the slot it encodes; only the mask and the
    common bits matter. *)
Definition decodes (ht : htable) (rehash : Z → Z) (e : Z) (s : slot) : Prop :=
  entry_is_valid e = is_full s ∧
  ∀ p h, s = Full p h → get_raw_ptr ht e = p ∧ storable ht p ∧ rehash p = h.

(** Adding the entries of the old table to the new one. *)
Lemma readd_rep rehash es ss : ∀ ht l D,
  Forall2 (decodes ht rehash) es ss →
  ht_rep ht l → is_Some (table ht) → probing l → distinct l → content l D →
  NoDup (ptrs ss) → (∀ p h, Full (Z.pos p) h ∈ ss → D !! p = None) →
  (count is_full l + count is_full ss < length l)%nat →
  ∃ ht' l' D', readd rehash es ht = Ok ht' ∧ same_but_cells ht ht' ∧
    ht_rep ht' l' ∧ len l' = len l ∧ probing l' ∧ distinct l' ∧ content l' D' ∧
    (∀ p h, D' !! p = Some h ↔ D !! p = Some h ∨ Full (Z.pos p) h ∈ ss) ∧
    count is_full l' = (count is_full l + count is_full ss)%nat ∧
    (count is_deleted l' ≤ count is_deleted l)%nat.
Proof.
  revert ss. induction es as [|e es IH]; intros ss ht l D Hdec Hr Ht Hpr Hd Hc Hnd Hdisj Hcnt.
  { apply Forall2_nil_inv_l in Hdec as ->. exists ht, l, D. split_and!; try done.
    - split; [by destruct ht|done].
    - intros p h. split; [by left|]. by intros [|?%elem_of_nil]. }
  apply Forall2_cons_inv_l in Hdec as (s & ss' & [Hv Hfull] & Hdec & ->).
  pose proof (rep_len_pos _ _ Hr) as Hpos. cbn [readd]. rewrite Hv. rewrite count_cons in Hcnt |- *.
  destruct s as [| |p h]; cbn [is_full] in Hcnt |- *.
  1,2: destruct (IH ss' ht l D) as (ht' & l' & D' & E & Hs & Hr' & Hl' & H1 & H2 & H3 & H4 & H5 & H6);
    try done; [intros q k Hq; apply (Hdisj q k); by right|];
    exists ht', l', D'; split_and!; try done;
    intros q k; rewrite H4, elem_of_cons; naive_solver.
  destruct (Hfull p h eq_refl) as (Hraw & Hst & Hreh). rewrite Hraw, Hreh.
  destruct (count_free is_full l ltac:(lia)) as [y0 Hy0].
  destruct (ht_add_rep ht l Hr Ht p h Hst (ex_intro _ y0 Hy0)) as (r & ht1 & Hrlt & Hf & E1 & Hr1 & Hs1).
  rewrite E1. run.
  destruct p as [|p|p]; [unfold storable, heap_ptr in Hst; lia| |unfold storable, heap_ptr in Hst; lia].
  assert (D !! p = None) as HDp by (apply (Hdisj p h); by left).
  destruct (add_slots l D p h r Hpos Hrlt Hf Hpr Hd Hc HDp) as (Hpr1 & Hd1 & Hc1 & Hn1 & Hn2 & Hl1).
  set (l1 := upd l (h + Z.of_nat r) (Full (Z.pos p) h)) in *.
  apply NoDup_cons in Hnd as [Hnin Hnd].
  destruct (IH ss' ht1 l1 (<[p:=h]> D)) as (ht' & l' & D' & E & Hs & Hr' & Hl' & H1 & H2 & H3 & H4 & H5 & H6).
  - eapply Forall2_impl; [exact Hdec|]. intros a b [Ha Hb]. split; [done|]. destruct Hs1 as [-> _]. done.
  - done.
  - apply Hs1.
  - done.
  - done.
  - done.
  - done.
  - intros q k Hq. assert (q ≠ p). { intros ->. apply Hnin, elem_of_ptrs. by exists k. }
    rewrite lookup_insert_ne by done. apply (Hdisj q k). by right.
  - unfold len in Hl1. lia.
  - exists ht', l', D'. split_and!; try done; [by eapply same_but_cells_trans|congruence| |lia|lia].
    intros q k. rewrite H4, elem_of_cons, lookup_insert_Some. naive_solver congruence.
Qed.

(** ** The invariant *)

Record table_ok (ht : htable) (l : list slot) (M : gmap ptr Z) : Prop := {
  ok_rep : ht_rep ht l;
  ok_probing : probing l;
  ok_distinct : distinct l;
  ok_content : content l M;
  ok_elems : elems ht = Z.of_nat (count is_full l);
  ok_deleted : Z.of_nat (count is_deleted l) ≤ deleted ht;
  ok_room : elems ht + deleted ht ≤ max_with_deleted ht;
  ok_elems_max : elems ht ≤ hmax ht;
  ok_hmax : hmax ht = 3 * 2 ^ Z.of_nat (bits ht) / 4;
  ok_mwd : max_with_deleted ht = 9 * 2 ^ Z.of_nat (bits ht) / 10;
  ok_mask : Z.testbit (common_mask ht) TOP = false ∨
            common_mask ht = UINTPTR_MAX ∧ common_bits ht = 0;
  ok_table : table ht = None → bits ht = 0%nat }.

Lemma content_empty n : content (replicate n Empty) ∅.
Proof.
  intros p h. rewrite lookup_empty. split; [|done]. intros [x E]. unfold at_ in E.
  destruct (replicate n Empty !! Z.to_nat (x mod len (replicate n Empty))) as [s|] eqn:Hs.
  - apply lookup_replicate in Hs as Hs'. destruct Hs' as [-> _].
    by rewrite (list_lookup_total_correct _ _ _ Hs) in E.
  - by rewrite list_lookup_total_alt, Hs in E.
Qed.

Lemma at_replicate n x : at_ (replicate n Empty) x = Empty.
Proof.
  unfold at_. rewrite list_lookup_total_alt.
  destruct (replicate n Empty !! _) as [s|] eqn:Hs; [|done]. by apply lookup_replicate in Hs as [-> _].
Qed.

Lemma count_replicate f n : f Empty = false → count f (replicate n Empty) = 0%nat.
Proof. intros H. induction n as [|n IH]; [done|]. simpl. by rewrite count_cons, H, IH. Qed.

(** A table of empty cells. *)
Lemma empty_rep ht n :
  table ht = Some (replicate n 0) → Z.of_nat n = 2 ^ Z.of_nat (bits ht) → params_ok ht →
  ht_rep ht (replicate n Empty).
Proof.
  intros Et Hn Hp. assert (len (replicate n Empty) = Z.of_nat n) as Hl
    by (unfold len; by rewrite length_replicate). split.
  - by rewrite Hl.
  - intros x. rewrite at_replicate. unfold cells. rewrite Et, Hl. cbn [enc].
    pose proof (Z.mod_pos_bound x (Z.of_nat n)). apply aread_Ok; [lia|].
    apply lookup_replicate_2. lia.
  - unfold cells. by rewrite Et, !length_replicate.
  - intros x p h. by rewrite at_replicate.
  - done.
Qed.

Lemma count_ptrs l : count is_full l = length (ptrs l).
Proof. induction l as [|[] l IH]; [done|rewrite count_cons, IH; done..]. Qed.

(** The number of entries is the size of the map. *)
Lemma content_size l M :
  0 < len l → (∀ x p h, at_ l x = Full p h → 0 < p) → content l M → distinct l →
  size M = count is_full l.
Proof.
  intros Hl Hp Hc Hd. rewrite count_ptrs, <- size_dom.
  assert (∀ p, p ∈ ptrs l → 0 < p) as Hpos.
  { intros p [h [x E]%(elem_of_at l _ Hl)]%elem_of_ptrs. by apply (Hp x p h). }
  assert (dom M = list_to_set (Z.to_pos <$> ptrs l)) as ->.
  { apply set_eq. intros p. rewrite elem_of_dom, elem_of_list_to_set, list_elem_of_fmap. split.
    - intros [h [x E]%Hc]. exists (Z.pos p). split; [done|]. apply elem_of_ptrs. exists h.
      apply (elem_of_at l _ Hl). by exists x.
    - intros (q & -> & Hq). pose proof (Hpos q Hq). apply elem_of_ptrs in Hq as [h [x E]%(elem_of_at l _ Hl)].
      exists h. apply Hc. exists x. by rewrite Z2Pos.id. }
  rewrite size_list_to_set, length_fmap; [done|]. apply NoDup_fmap_2_strong; [|by apply distinct_nodup].
  intros p q Hp' Hq'. apply Z2Pos.inj; by apply Hpos.
Qed.

Lemma ok_size ht l M : table_ok ht l M → elems ht = Z.of_nat (size M).
Proof.
  intros Hok. rewrite (ok_elems _ _ _ Hok). pose proof (ok_rep _ _ _ Hok) as Hr.
  rewrite (content_size l M); [done|apply (rep_len_pos _ _ Hr)| |apply Hok..].
  intros x p h E. apply (hr_full _ _ Hr) in E as [E _]. unfold heap_ptr in E. lia.
Qed.

(** The cells of a table decode to its slots. *)
Lemma cells_decode ht ht1 l M rehash :
  table_ok ht l M → (∀ p h, M !! p = Some h → rehash (Z.pos p) = h) →
  common_mask ht1 = common_mask ht → common_bits ht1 = common_bits ht →
  Forall2 (decodes ht1 rehash) (cells ht) l.
Proof.
  intros Hok Hre Em Eb. pose proof (ok_rep _ _ _ Hok) as Hr.
  apply Forall2_same_length_lookup. split; [apply (hr_length _ _ Hr)|].
  intros i e s He Hs. pose proof (lookup_lt_Some _ _ _ Hs) as Hlt.
  pose proof (hr_cells _ _ Hr (Z.of_nat i)) as Hc. rewrite (lookup_at _ _ _ Hs) in Hc.
  assert (Z.of_nat i mod len l = Z.of_nat i) as Hi by (apply Z.mod_small; unfold len; lia).
  rewrite Hi in Hc. apply aread_inv in Hc as [_ Hc]. rewrite Nat2Z.id, He in Hc. simplify_eq.
  pose proof (enc_valid _ _ Hr (Z.of_nat i)) as Hv. rewrite Hi, (lookup_at _ _ _ Hs) in Hv.
  split; [done|]. intros p h ->.
  pose proof (enc_raw _ _ Hr _ _ _ (lookup_at _ _ _ Hs)) as Hraw. rewrite Hi, (lookup_at _ _ _ Hs) in Hraw.
  pose proof (hr_full _ _ Hr _ _ _ (lookup_at _ _ _ Hs)) as Hst.
  split_and!.
  - etrans; [|exact Hraw]. unfold get_raw_ptr. by rewrite Em, Eb.
  - unfold storable in *. by rewrite Em, Eb.
  - destruct p as [|p|p]; [unfold storable, heap_ptr in Hst; lia| |unfold storable, heap_ptr in Hst; lia].
    apply Hre. apply (ok_content _ _ _ Hok). exists (Z.of_nat i). by apply lookup_at.
Qed.

Lemma double_ok ht l M rehash :
  table_ok ht l M → (∀ p h, M !! p = Some h → rehash (Z.pos p) = h) →
  ∃ ht' l', double_table true rehash ht = Ok (true, ht') ∧ table_ok ht' l' M ∧
    is_Some (table ht') ∧ elems ht' + 1 ≤ hmax ht'.
Proof.
  intros Hok Hre. unfold double_table. cbn [negb].
  set (b := S (bits ht)). set (n := Z.to_nat (Z.shiftl 1 (Z.of_nat b))).
  set (ht0 := {| ht with table := Some (replicate n 0); bits := b;
    hmax := Z.shiftl 3 (Z.of_nat b) / 4; max_with_deleted := Z.shiftl 9 (Z.of_nat b) / 10 |}).
  set (ht1 := if (perfect_bit ht0 =? 0) && negb (common_mask ht0 =? 0)
    then {| ht0 with perfect_bit := find_perfect 64 0 (common_mask ht0) |} else ht0).
  pose proof (ok_size _ _ _ Hok) as Hsz. pose proof Hok as Hok'.
  destruct Hok' as [Hr Hpr Hd Hc He Hdel Hroom Hemax Hhm Hmwd Hmask Htab].
  assert (table ht1 = Some (replicate n 0) ∧ bits ht1 = b ∧ elems ht1 = elems ht ∧
    common_mask ht1 = common_mask ht ∧ common_bits ht1 = common_bits ht ∧
    hmax ht1 = Z.shiftl 3 (Z.of_nat b) / 4 ∧ max_with_deleted ht1 = Z.shiftl 9 (Z.of_nat b) / 10 ∧
    params_ok ht1) as (Et1 & Eb1 & Ee1 & Em1 & Ec1 & Eh1 & Ew1 & Hp1).
  { destruct (hr_params _ _ Hr) as [Hpm Hpp]. subst ht1. destruct (_ && _); split_and!; try done; constructor; try done.
    by apply find_perfect_ok. }
  assert (Z.of_nat n = 2 * 2 ^ Z.of_nat (bits ht)) as Hn.
  { unfold n, b. rewrite Z.shiftl_1_l, Nat2Z.inj_succ, Z.pow_succ_r by lia. lia. }
  assert (2 ^ Z.of_nat b = Z.of_nat n) as Hnb by (unfold n; rewrite Z.shiftl_1_l; lia).
  assert (len l = 2 ^ Z.of_nat (bits ht)) as Hll by apply (hr_len _ _ Hr).
  pose proof (rep_len_pos _ _ Hr) as Hpos.
  assert (ht_rep ht1 (replicate n Empty)) as Hr1.
  { apply empty_rep; [done| |done]. rewrite Eb1, Hnb. done. }
  set (old := match table ht with Some _ => cells ht | None => [] end).
  set (ss := match table ht with Some _ => l | None => [] end).
  assert (Forall2 (decodes ht1 rehash) old ss) as Hdec.
  { subst old ss. destruct (table ht) eqn:Et; [|constructor].
    by apply (cells_decode ht ht1 l M). }
  assert (∀ p h, M !! p = Some h ↔ Full (Z.pos p) h ∈ ss) as HM.
  { intros p h. subst ss. destruct (table ht) eqn:Et.
    - rewrite (elem_of_at l _ Hpos). symmetry. apply Hc.
    - rewrite (Htab eq_refl) in Hhm. assert (M = ∅) as ->.
      { apply map_size_empty_iff. change (3 * 2 ^ Z.of_nat 0 / 4) with 0 in Hhm. lia. }
      rewrite lookup_empty. split; [done|]. by intros ?%elem_of_nil. }
  assert ((count is_full ss ≤ count is_full l)%nat ∧ NoDup (ptrs ss)) as [Hcs Hnd].
  { subst ss. destruct (table ht); [split; [done|by apply distinct_nodup]|]. split; [|constructor].
    unfold count at 1. simpl. lia. }
  destruct (readd_rep rehash old ss ht1 (replicate n Empty) ∅)
    as (ht2 & l2 & D & E & Hs & Hr2 & Hl2 & Hpr2 & Hd2 & Hc2 & HD & Hn2 & Hdel2).
  - done.
  - done.
  - rewrite Et1. by eexists.
  - intros x p h. by rewrite at_replicate.
  - intros x y p h k. by rewrite at_replicate.
  - apply content_empty.
  - done.
  - done.
  - rewrite count_replicate, length_replicate by done. pose proof (count_le is_full l). unfold len in Hll. lia.
  - assert (D = M) as ->.
    { apply map_eq. intros p. apply option_eq. intros h. rewrite HD, HM, lookup_empty. naive_solver. }
    assert (match table ht with Some o => readd rehash o ht1 | None => Ok ht1 end = Ok ht2) as ->.
    { rewrite <- E. subst old. unfold cells. by destruct (table ht). }
    run. rewrite !count_replicate in * by done.
    destruct Hs as [Es2 Ht2]. assert (elems ht2 = Z.of_nat (count is_full l2)) as He2.
    { rewrite (content_size l2 M) in Hsz; [|apply (rep_len_pos _ _ Hr2)| |done|done].
      - rewrite Es2. simpl. congruence.
      - intros x p h Ex. apply (hr_full _ _ Hr2) in Ex as [Ex _]. unfold heap_ptr in Ex. lia. }
    assert (bits ht2 = b ∧ elems ht2 = elems ht ∧ hmax ht2 = 3 * Z.of_nat n / 4 ∧
      max_with_deleted ht2 = 9 * Z.of_nat n / 10 ∧ common_mask ht2 = common_mask ht ∧
      common_bits ht2 = common_bits ht) as (Eb2 & Ee2 & Eh2 & Ew2 & Em2 & Ec2).
    { rewrite Es2. cbn [bits elems hmax max_with_deleted common_mask common_bits].
      rewrite Eh1, Ew1, !Z.shiftl_mul_pow2, Hnb by lia. done. }
    exists {| ht2 with deleted := 0 |}, l2. split_and!; [done| |done|].
    + split; cbn [elems deleted hmax max_with_deleted common_mask common_bits bits table]; try done.
      * destruct Hr2 as [Ra Rb Rc Rd [Re Rf]]. by split.
      * lia.
      * rewrite Ew2, Ee2. dlia.
      * rewrite Eh2, Ee2. dlia.
      * by rewrite Eb2, Hnb.
      * by rewrite Eb2, Hnb.
      * by rewrite Em2, Ec2.
      * intros Hnone. rewrite Hnone in Ht2. by destruct Ht2.
    + cbn [elems hmax]. rewrite Eh2, Ee2. dlia.
Qed.

(** ** Rehashing in place *)

(** [lin l st i]: counted from the slot [st], the entries in the first [i]
    slots are in reach of their bucket without passing [st] or an empty
    slot. *)
Definition lin (l : list slot) (st i : Z) : Prop :=
  ∀ j p h, 0 ≤ j < i → at_ l (st + j) = Full p h →
    let o := (h - st) mod len l in
    o ≤ j ∧ ∀ k, o ≤ k < j → at_ l (st + k) ≠ Empty.

Lemma at_offset l h st k : 0 < len l → at_ l (st + ((h - st) mod len l + k)) = at_ l (h + k).
Proof.
  intros Hl. apply at_eq. rewrite Z.add_assoc, (Z.add_comm st), <- Z.add_assoc, Zplus_mod_idemp_l.
  f_equal. lia.
Qed.

(** The distance of two slots, counted from [st]. *)
Lemma offset_diff l h st j :
  0 < len l → 0 ≤ j < len l → (h - st) mod len l ≤ j →
  (st + j - h) mod len l = j - (h - st) mod len l.
Proof.
  intros Hl Hj Ho. pose proof (Z.mod_pos_bound (h - st) (len l) Hl).
  rewrite <- (Z.mod_small (j - (h - st) mod len l) (len l)) by lia.
  rewrite Zminus_mod_idemp_r. f_equal. lia.
Qed.

Lemma lin_probing l st : 0 < len l → lin l st (len l) → probing l.
Proof.
  intros Hl Hlin x p h E k Hk.
  pose proof (Z.mod_pos_bound (x - st) (len l) Hl) as Hj. set (j := (x - st) mod len l) in *.
  assert (at_ l (st + j) = Full p h) as Ej by (by rewrite <- E; apply mod_shift).
  destruct (Hlin j p h Hj Ej) as [Ho Hpath].
  assert ((x - h) mod len l = j - (h - st) mod len l) as Hd.
  { rewrite <- (offset_diff l h st j) by done. rewrite Zminus_mod, (Zminus_mod (st + j)). do 2 f_equal.
    unfold j. rewrite Zplus_mod_idemp_r. f_equal. lia. }
  rewrite <- (at_offset l h st k Hl). apply Hpath. lia.
Qed.

Lemma probing_lin l st : 0 < len l → at_ l st = Empty → probing l → lin l st (len l).
Proof.
  intros Hl Hst Hpr j p h Hj E. pose proof (Z.mod_pos_bound (h - st) (len l) Hl) as Ho.
  set (o := (h - st) mod len l) in *. cbv zeta.
  assert (j ≠ 0) as Hj0. { intros ->. rewrite Z.add_0_r in E. congruence. }
  destruct (Z.le_gt_cases o j) as [Hle|Hgt].
  - split; [done|]. intros k Hk.
    rewrite <- (Z.sub_add o k), (Z.add_comm (k - o)). unfold o at 1. rewrite (at_offset l h st) by done.
    apply (Hpr _ _ _ E). rewrite offset_diff by done. fold o. lia.
  - exfalso. apply (Hpr _ _ _ E (len l - o)).
    + assert ((st + j - h) mod len l = j - o + len l) as ->; [|lia].
      rewrite <- (Z.mod_small (j - o + len l) (len l)) by lia.
      rewrite <- Z.add_mod_idemp_r, Z.mod_same, Z.add_0_r by lia.
      unfold o. rewrite Zminus_mod_idemp_r. f_equal. lia.
    + rewrite <- (at_offset l h st) by done. fold o. rewrite <- Hst. apply at_eq.
      replace (st + (o + (len l - o))) with (st + 1 * len l) by lia. by rewrite Z.mod_add by lia.
Qed.

(** The offset of a slot that was changed. *)
Lemma upd_offset l st i s j :
  0 < len l → 0 ≤ i < len l → 0 ≤ j < len l →
  at_ (upd l (st + i) s) (st + j) = if decide (j = i) then s else at_ l (st + j).
Proof.
  intros Hl Hi Hj. rewrite upd_at by done. destruct (decide (j = i)) as [->|Hne].
  - by rewrite decide_True.
  - rewrite decide_False; [done|]. intros Heq.
    assert ((st + j - (st + i)) mod len l = 0) as Hz by (by rewrite Zminus_mod, Heq, Z.sub_diag, Zmod_0_l).
    replace (st + j - (st + i)) with (j - i) in Hz by lia.
    apply Z.mod_divide in Hz as [q Hq]; [|lia]. assert (q = 0) by nia. lia.
Qed.

(** Clearing the slot that is next keeps what was done. *)
Lemma lin_clear l st i s :
  0 < len l → 0 ≤ i < len l → is_full s = false → lin l st i → lin (upd l (st + i) s) st (i + 1).
Proof.
  intros Hl Hi Hs Hlin j p h Hj E. rewrite upd_len. rewrite upd_offset in E by lia.
  case_decide; [by subst s|]. destruct (Hlin j p h ltac:(lia) E) as [Ho Hp].
  split; [done|]. intros k Hk. pose proof (Z.mod_pos_bound (h - st) (len l) Hl).
  rewrite upd_offset by lia. rewrite decide_False by lia. by apply Hp.
Qed.

(** Filling a slot that was done already. *)
Lemma lin_fill l st i o r p h :
  0 < len l → i ≤ len l → o = (h - st) mod len l → 0 ≤ r → o + r < i →
  is_full (at_ l (st + (o + r))) = false →
  (∀ k, 0 ≤ k < r → at_ l (st + (o + k)) ≠ Empty) →
  lin l st i → lin (upd l (st + (o + r)) (Full p h)) st i.
Proof.
  intros Hl Hi Ho Hr Hlt Hx Hpath Hlin j q g Hj E.
  pose proof (Z.mod_pos_bound (h - st) (len l) Hl).
  rewrite upd_len. rewrite upd_offset in E by lia. destruct (decide (j = o + r)) as [->|Hne].
  - injection E as <- <-. rewrite <- Ho. split; [lia|]. intros k Hk.
    rewrite upd_offset by lia. case_decide; [done|].
    replace k with (o + (k - o)) by lia. apply Hpath. lia.
  - destruct (Hlin j q g ltac:(lia) E) as [Hoj Hp]. split; [done|]. intros k Hk.
    pose proof (Z.mod_pos_bound (g - st) (len l) Hl).
    rewrite upd_offset by lia. case_decide; [done|]. by apply Hp.
Qed.

Lemma lin_stay l st i :
  lin l st i → (∀ p h, at_ l (st + i) = Full p h → (h - st) mod len l = i) → lin l st (i + 1).
Proof.
  intros Hlin Hhome j p h Hj E. destruct (decide (j = i)) as [->|].
  - rewrite (Hhome p h E). split; [done|lia].
  - apply (Hlin j p h); [lia|done].
Qed.

Section rehash.
Context (ht0 : htable) (lo : list slot) (M : gmap ptr Z) (st : Z) (rehash : Z → Z).
Context (Hst : at_ lo st = Empty) (Hlo : 0 < len lo) (Hlin0 : lin lo st (len lo)).
Context (Hre : ∀ p h, M !! p = Some h → rehash (Z.pos p) = h).

(** After [i] rounds: the slots from [i] on are as before, the ones before
    hold no marker and are in reach of their buckets. *)
Record rehash_inv (ht : htable) (l : list slot) (i : Z) : Prop := {
  ri_rep : ht_rep ht l;
  ri_same : same_but_cells ht0 ht;
  ri_len : len l = len lo;
  ri_lin : lin l st i;
  ri_todo j : i ≤ j < len lo → at_ l (st + j) = at_ lo (st + j);
  ri_done j : 0 ≤ j < i → at_ l (st + j) ≠ Deleted;
  ri_distinct : distinct l;
  ri_content : content l M }.

Definition rehash_step (i : Z) (ht : htable) : cres htable :=
  let h := in_table ht (i + st) in
  e ← aread (cells ht) h;
  if e =? 0 then Ok ht else
  if e =? HTABLE_DELETED then set_cell ht h 0 else
  if Z.land e (perfect_bit ht) =? 0 then
    let p := get_raw_ptr ht e in
    ht ← set_cell ht h 0; ht_add ht p (rehash p)
  else Ok ht.

Lemma rehash_loop_S n i ht :
  rehash_loop (S n) rehash st i ht = (ht ← rehash_step i ht; rehash_loop n rehash st (i + 1) ht).
Proof. unfold rehash_step. cbn [rehash_loop]. by rewrite cres_bind_assoc. Qed.

(** A round that leaves the slot [i] without an entry or in its bucket. *)
Lemma rehash_inv_keep ht l i :
  rehash_inv ht l i → 0 ≤ i < len lo → at_ l (st + i) ≠ Deleted →
  (∀ p h, at_ l (st + i) = Full p h → (h - st) mod len l = i) → rehash_inv ht l (i + 1).
Proof.
  intros [Hr Hs Hl Hlin Htodo Hdone Hd Hc] Hi Hnd Hhome. split; try done.
  - by apply lin_stay.
  - intros j Hj. apply Htodo. lia.
  - intros j Hj. destruct (decide (j = i)) as [->|]; [done|]. apply Hdone. lia.
Qed.

(** Clearing the slot [i]. *)
Lemma rehash_inv_clear ht l i :
  rehash_inv ht l i → 0 ≤ i < len lo →
  ∃ ht1, set_cell ht ((st + i) mod len l) 0 = Ok ht1 ∧ ht_rep ht1 (upd l (st + i) Empty) ∧
    same_but_cells ht0 ht1 ∧ len (upd l (st + i) Empty) = len lo ∧
    lin (upd l (st + i) Empty) st (i + 1) ∧ distinct (upd l (st + i) Empty) ∧
    (∀ j, i + 1 ≤ j < len lo → at_ (upd l (st + i) Empty) (st + j) = at_ lo (st + j)) ∧
    (∀ j, 0 ≤ j < i + 1 → at_ (upd l (st + i) Empty) (st + j) ≠ Deleted).
Proof.
  intros [Hr Hs Hl Hlin Htodo Hdone Hd Hc] Hi. assert (0 < len l) as Hpos by lia.
  destruct (set_cell_rep ht l Hr (proj2 Hs) (st + i) Empty) as (ht1 & E & Hr1 & Hs1); [done|].
  exists ht1. split_and!; [done|done| | | | | |].
  - by eapply same_but_cells_trans.
  - by rewrite upd_len.
  - apply lin_clear; [done|lia|done..].
  - by apply clear_distinct.
  - intros j Hj. rewrite upd_offset by lia. rewrite decide_False by lia. apply Htodo. lia.
  - intros j Hj. rewrite upd_offset by lia. case_decide; [done|]. apply Hdone. lia.
Qed.

(** Moving the entry of the slot [i] towards its bucket. *)
Lemma rehash_move ht l i p h :
  rehash_inv ht l i → 0 ≤ i < len lo → at_ l (st + i) = Full p h →
  ∃ ht' l', (ht ← set_cell ht ((st + i) mod len l) 0; ht_add ht p (rehash p)) = Ok ht' ∧
    rehash_inv ht' l' (i + 1).
Proof.
  intros Hinv Hi E. pose proof Hinv as [Hr Hs Hl Hlin Htodo Hdone Hd Hc].
  assert (0 < len l) as Hpos by lia. pose proof (hr_full _ _ Hr _ _ _ E) as Hstor.
  destruct p as [|p|p]; [unfold storable, heap_ptr in Hstor; lia| |unfold storable, heap_ptr in Hstor; lia].
  assert (M !! p = Some h) as HM by (apply Hc; by exists (st + i)). rewrite (Hre p h HM).
  destruct (rehash_inv_clear ht l i Hinv Hi) as (ht1 & -> & Hr1 & Hs1 & Hl1 & Hlin1 & Hd1 & Ht1 & Hn1).
  set (l1 := upd l (st + i) Empty) in *. run.
  assert (content l1 (delete p M)) as Hc1 by (by apply (clear_content l M (st + i) p h)).
  set (o := (h - st) mod len l1). assert (o ≤ i) as Ho.
  { unfold o. rewrite Hl1. apply (Hlin0 i (Z.pos p) h); [lia|]. rewrite <- E. symmetry. apply Htodo. lia. }
  assert (∀ k, at_ l1 (st + (o + k)) = at_ l1 (h + k)) as Hoff by (intros k; apply at_offset; lia).
  assert (at_ l1 (h + (i - o)) = Empty) as Hfree.
  { rewrite <- Hoff. replace (o + (i - o)) with i by lia. unfold l1. rewrite upd_offset by lia. by rewrite decide_True. }
  destruct (ht_add_rep ht1 l1 Hr1 (proj2 Hs1) (Z.pos p) h) as (r & ht2 & Hr0 & Hf & E2 & Hr2 & Hs2).
  { apply (storable_same ht0); [done|]. by apply (storable_same ht0 ht). }
  { exists (h + (i - o)). by rewrite Hfree. }
  assert (o + Z.of_nat r ≤ i) as Hri.
  { destruct (Z.le_gt_cases (o + Z.of_nat r) i); [done|]. destruct Hf as [_ Hb].
    destruct (Hb (Z.to_nat (i - o)) ltac:(lia)). rewrite Z2Nat.id by lia. by rewrite Hfree. }
  pose proof (Z.mod_pos_bound (h - st) (len l1) ltac:(lia)) as Hob. fold o in Hob.
  assert (upd l1 (h + Z.of_nat r) (Full (Z.pos p) h) = upd l1 (st + (o + Z.of_nat r)) (Full (Z.pos p) h)) as Hupd.
  { unfold upd. do 2 f_equal. unfold o.
    rewrite Z.add_assoc, (Z.add_comm st), <- Z.add_assoc, Zplus_mod_idemp_l. f_equal. lia. }
  assert (distinct (upd l1 (h + Z.of_nat r) (Full (Z.pos p) h))) as Hd2.
  { apply fill_distinct; [lia|done|apply Hf|]. intros y k Hy.
    assert (delete p M !! p = Some k) as Hk by (apply Hc1; by exists y). by rewrite lookup_delete_eq in Hk. }
  assert (content (upd l1 (h + Z.of_nat r) (Full (Z.pos p) h)) (<[p:=h]> (delete p M))) as Hc2.
  { apply fill_content; [lia|done|apply Hf|apply lookup_delete_eq]. }
  rewrite insert_delete_id in Hc2 by done. rewrite Hupd in *.
  exists ht2, (upd l1 (st + (o + Z.of_nat r)) (Full (Z.pos p) h)). split; [done|]. split; try done.
  - by eapply same_but_cells_trans.
  - by rewrite upd_len.
  - apply lin_fill; try lia; try done.
    + rewrite Hoff. apply Hf.
    + intros k Hk. rewrite Hoff. destruct Hf as [_ Hb]. specialize (Hb (Z.to_nat k) ltac:(lia)).
      rewrite Z2Nat.id in Hb by lia. intros He. by rewrite He in Hb.
  - intros j Hj. rewrite upd_offset by lia. rewrite decide_False by lia. by apply Ht1.
  - intros j Hj. rewrite upd_offset by lia. case_decide; [done|]. by apply Hn1.
Qed.

Lemma rehash_step_inv ht l i :
  rehash_inv ht l i → 0 ≤ i < len lo →
  ∃ ht' l', rehash_step i ht = Ok ht' ∧ rehash_inv ht' l' (i + 1).
Proof.
  intros Hinv Hi. pose proof Hinv as [Hr Hs Hl Hlin Htodo Hdone Hd Hc].
  assert (0 < len l) as Hpos by lia. unfold rehash_step.
  rewrite (in_table_mod _ _ Hr), (Z.add_comm i), (hr_cells _ _ Hr). run.
  rewrite (enc_zero _ _ Hr), (enc_deleted _ _ Hr).
  destruct (at_ l (st + i)) as [| |p h] eqn:E.
  - exists ht, l. split; [done|]. apply rehash_inv_keep; [done..| |]; by rewrite E.
  - rewrite bool_decide_eq_false_2, bool_decide_eq_true_2 by done.
    destruct (rehash_inv_clear ht l i Hinv Hi) as (ht1 & -> & Hr1 & Hs1 & Hl1 & Hlin1 & Hd1 & Ht1 & Hn1).
    exists ht1, (upd l (st + i) Empty). split; [done|]. split; try done.
    apply replace_content; [done..| |done]. by rewrite E.
  - rewrite !bool_decide_eq_false_2 by done. rewrite <- E, (enc_perfect _ _ Hr _ _ _ E).
    rewrite (enc_raw _ _ Hr _ _ _ E). destruct (_ =? 0) eqn:Ez; [by apply (rehash_move ht l i p h)|].
    exists ht, l. split; [done|]. apply rehash_inv_keep; [done..|by rewrite E|]. rewrite E. intros q g [= <- <-].
    destruct (Z.eqb_spec ((st + i) mod len l) (h mod len l)) as [Hhome|]; [|done].
    rewrite Zminus_mod, <- Hhome, <- Zminus_mod. replace (st + i - st) with i by lia.
    apply Z.mod_small. lia.
Qed.

Lemma rehash_loop_inv n ht l i :
  rehash_inv ht l i → 0 ≤ i → i + Z.of_nat n = len lo →
  ∃ ht' l', rehash_loop n rehash st i ht = Ok ht' ∧ rehash_inv ht' l' (len lo).
Proof.
  revert ht l i. induction n as [|n IH]; intros ht l i Hinv Hi Hn.
  - exists ht, l. split; [done|]. by replace (len lo) with i by lia.
  - rewrite rehash_loop_S. destruct (rehash_step_inv ht l i Hinv) as (ht1 & l1 & -> & Hinv1); [lia|].
    run. apply (IH ht1 l1); [done|lia..].
Qed.
End rehash.

Lemma first_empty_ok l k i :
  l !! i = Some 0 → ∃ j, first_empty l k = Ok (k + Z.of_nat j) ∧ l !! j = Some 0.
Proof.
  revert k i. induction l as [|e l IH]; intros k i Hi; [done|]. cbn [first_empty].
  destruct (Z.eqb_spec e 0) as [->|Hne]; [exists 0%nat; by rewrite Z.add_0_r|].
  destruct i as [|i]; [by injection Hi as ->|]. destruct (IH (k + 1) i Hi) as (j & -> & Hj).
  exists (S j). split; [f_equal; lia|done].
Qed.

Lemma count_none f l : (∀ s, s ∈ l → f s = false) → count f l = 0%nat.
Proof.
  induction l as [|s l IH]; intros H; [done|]. rewrite count_cons, (H s) by (by left).
  rewrite IH; [done|]. intros t Ht. apply H. by right.
Qed.

(** The number of slots and the limits. *)
Lemma room_empty ht l M : table_ok ht l M → ∃ y, at_ l y = Empty.
Proof.
  intros Hok. apply empty_exists. pose proof (hr_len _ _ (ok_rep _ _ _ Hok)) as Hl. unfold len in Hl.
  pose proof (ok_room _ _ _ Hok). pose proof (ok_mwd _ _ _ Hok). pose proof (ok_elems _ _ _ Hok).
  pose proof (ok_deleted _ _ _ Hok). rewrite <- Hl in *. dlia.
Qed.

Lemma rehash_ok ht l M rehash :
  table_ok ht l M → is_Some (table ht) → (∀ p h, M !! p = Some h → rehash (Z.pos p) = h) →
  ∃ ht' l', rehash_table rehash ht = Ok ht' ∧ table_ok ht' l' M ∧ is_Some (table ht') ∧
    elems ht' = elems ht ∧ hmax ht' = hmax ht ∧ max_with_deleted ht' = max_with_deleted ht ∧ deleted ht' = 0.
Proof.
  intros Hok Ht Hre. pose proof (ok_rep _ _ _ Hok) as Hr. pose proof (rep_len_pos _ _ Hr) as Hpos.
  destruct (room_empty _ _ _ Hok) as [y Hy].
  assert (∃ st, first_empty (cells ht) 0 = Ok st ∧ at_ l st = Empty) as (st & Est & Hst).
  { pose proof (hr_cells _ _ Hr y) as Hc. rewrite Hy in Hc. apply aread_inv in Hc as [_ Hc].
    destruct (first_empty_ok _ 0 _ Hc) as (j & E & Hj). exists (Z.of_nat j). split; [done|].
    pose proof (lookup_lt_Some _ _ _ Hj) as Hlt. rewrite (hr_length _ _ Hr) in Hlt.
    pose proof (enc_zero _ _ Hr (Z.of_nat j)) as Hz. pose proof (hr_cells _ _ Hr (Z.of_nat j)) as Hcj.
    rewrite Z.mod_small in Hz, Hcj by (unfold len; lia). apply aread_inv in Hcj as [_ Hcj].
    rewrite Nat2Z.id, Hj in Hcj. injection Hcj as Hcj. rewrite <- Hcj in Hz. symmetry in Hz. by apply bool_decide_eq_true in Hz. }
  unfold rehash_table. rewrite Est. run. unfold buckets. rewrite Z.shiftl_1_l, <- (hr_len _ _ Hr).
  destruct (rehash_loop_inv ht l M st rehash (probing_lin l st Hpos Hst (ok_probing _ _ _ Hok)) Hre
    (Z.to_nat (len l)) ht l 0) as (ht1 & l1 & -> & [Hr1 [Es1 Ht1] Hl1 Hlin1 _ Hnd Hd1 Hc1]); [|lia..|].
  { split; try done; [|intros j p h; lia|lia|apply Hok..]. split; [by destruct ht|done]. }
  run. exists {| ht1 with deleted := 0 |}, l1.
  assert (elems ht1 = elems ht ∧ hmax ht1 = hmax ht ∧ max_with_deleted ht1 = max_with_deleted ht ∧
    bits ht1 = bits ht ∧ common_mask ht1 = common_mask ht ∧ common_bits ht1 = common_bits ht)
    as (Ee & Eh & Ew & Eb & Em & Ec) by (rewrite Es1; done).
  assert (0 < len l1) as Hpos1 by lia.
  assert (count is_deleted l1 = 0%nat) as Hdel1.
  { apply count_none. intros s [x <-]%(elem_of_at l1 _ Hpos1).
    destruct (at_ l1 x) eqn:E; try done. exfalso.
    apply (Hnd ((x - st) mod len l1)); [rewrite <- Hl1; by apply Z.mod_pos_bound|].
    by rewrite mod_shift. }
  split_and!; try done. split; cbn [elems deleted hmax max_with_deleted common_mask common_bits bits table]; try done.
  - destruct Hr1 as [Ra Rb Rc Rd [Re Rf]]. by split.
  - apply (lin_probing l1 st); [lia|by rewrite Hl1].
  - rewrite Ee, (ok_size _ _ _ Hok), (content_size l1 M); try done.
    intros x p h E. apply (hr_full _ _ Hr1) in E as [E _]. unfold heap_ptr in E. lia.
  - lia.
  - pose proof (ok_room _ _ _ Hok). pose proof (ok_deleted _ _ _ Hok). lia.
  - rewrite Ee, Eh. apply Hok.
  - rewrite Eh, Eb. apply Hok.
  - rewrite Ew, Eb. apply Hok.
  - rewrite Em, Ec. apply Hok.
  - intros Hnone. rewrite Hnone in Ht1. by destruct Ht1.
Qed.

(** ** The common bits *)

Lemma top_bit_ok i p k :
  0 ≤ k ≤ Z.of_nat i → 2 ^ k ≤ p < 2 ^ (k + 1) → top_bit i p = k.
Proof.
  induction i as [|i IH]; intros Hk Hp; [simpl; lia|]. cbn [top_bit].
  rewrite Z.shiftl_1_l. assert (Z.land p (2 ^ Z.of_nat (S i)) = 0 ↔ Z.testbit p (Z.of_nat (S i)) = false) as Hb.
  { split.
    - intros E. apply (f_equal (λ z, Z.testbit z (Z.of_nat (S i)))) in E.
      rewrite Z.land_spec, Z.pow2_bits_true, Z.bits_0, andb_true_r in E by lia. done.
    - intros E. apply Z.bits_inj'. intros j Hj. rewrite Z.land_spec, Z.pow2_bits_eqb, Z.bits_0 by lia.
      destruct (Z.eqb_spec (Z.of_nat (S i)) j) as [<-|]; [by rewrite E|by rewrite andb_false_r]. }
  destruct (Z.eqb_spec (Z.land p (2 ^ Z.of_nat (S i))) 0) as [E|E]; simpl.
  - apply Hb in E. apply IH; [|done]. destruct (decide (k = Z.of_nat (S i))) as [->|]; [|lia].
    exfalso. assert (p / 2 ^ Z.of_nat (S i) = 1) as Hd.
    { symmetry. apply (Z.div_unique p _ 1 (p - 2 ^ Z.of_nat (S i))); rewrite Z.pow_add_r in Hp; lia. }
    rewrite <- not_true_iff_false in E. apply E. apply Z.testbit_true; [lia|]. by rewrite Hd.
  - destruct (decide (k = Z.of_nat (S i))) as [->|]; [done|]. exfalso. apply E, Hb.
    apply (testbit_small p (k + 1)); [|lia]. split; [|lia].
    assert (0 < 2 ^ k) by (apply Z.pow_pos_nonneg; lia). lia.
Qed.

Lemma top_bit_heap p : heap_ptr p → top_bit 63 p = TOP.
Proof. intros Hp. apply top_bit_ok; [by unfold TOP; lia|exact Hp]. Qed.

(** The first pointer sets the mask. *)
Lemma update_common_first ht l p :
  ht_rep ht l → is_Some (table ht) → elems ht = 0 → (∀ x, is_full (at_ l x) = false) → heap_ptr p →
  ht_rep (update_common ht p) l ∧ storable (update_common ht p) p.
Proof.
  intros Hr Ht He Hnone Hp. unfold update_common. rewrite He. cbn [Z.eqb]. rewrite top_bit_heap by done.
  change (Z.ldiff UINTPTR_MAX (Z.shiftl 1 TOP)) with (2 ^ 64 - 1 - 2 ^ 46).
  split; [|by split_and!]. destruct Hr as [Ra Rb Rc Rd Re]. destruct Ht as [t Et]. split.
  - done.
  - intros x. unfold cells in *. cbn [table]. rewrite Et in *. rewrite Rb.
    specialize (Hnone x). by destruct (at_ l x).
  - unfold cells in *. cbn [table]. by rewrite Et in *.
  - intros x q h E. specialize (Hnone x). by rewrite E in Hnone.
  - constructor; [done|]. done.
Qed.

(** The bits that are no longer common are put back in the cells. *)
Lemma fix_cell_enc ht p i q h :
  let d := Z.lxor (common_bits ht) (Z.land p (common_mask ht)) in
  elems ht ≠ 0 → params_ok ht → Z.land q (common_mask ht) = common_bits ht →
  Z.lor (Z.ldiff (enc ht i (Full q h)) d) (Z.land (common_bits ht) d) =
    enc (update_common ht p) i (Full q h).
Proof.
  intros d He [_ [_ Hp]] Hq. unfold update_common. destruct (Z.eqb_spec (elems ht) 0); [done|].
  cbn [enc]. unfold hash_bucket, in_table, buckets, make_hval, get_hash_ptr_bits.
  cbn [bits common_mask common_bits perfect_bit]. fold d.
  generalize (Z.lxor h (Z.shiftr h (Z.of_nat (bits ht)))) as X. intros X.
  destruct (_ =? _); unfold d; bits.
Qed.

Lemma update_common_next ht l p :
  ht_rep ht l → is_Some (table ht) → elems ht ≠ 0 → Z.testbit (common_mask ht) TOP = false → heap_ptr p →
  ht_rep (update_common ht p) l ∧ storable (update_common ht p) p.
Proof.
  intros Hr Ht He Hm Hp. pose proof Hr as [Ra Rb Rc Rd Re]. destruct Ht as [t Et].
  assert (∀ q, Z.land q (common_mask ht) = common_bits ht → heap_ptr q → storable (update_common ht p) q) as Hst.
  { intros q Hq Hh. unfold storable, update_common. destruct (Z.eqb_spec (elems ht) 0); [done|].
    cbn [common_mask common_bits]. split_and!; [done|bits|by rewrite Z.ldiff_spec, Hm]. }
  split.
  - unfold cells in Rb, Rc. rewrite Et in Rb, Rc.
    assert (cells (update_common ht p) = fix_cell (Z.lxor (common_bits ht) (Z.land p (common_mask ht)))
      (Z.land (common_bits ht) (Z.lxor (common_bits ht) (Z.land p (common_mask ht)))) <$> t) as Ecells.
    { unfold update_common, cells. destruct (Z.eqb_spec (elems ht) 0); [done|]. cbn [table]. by rewrite Et. }
    split.
    + rewrite Ra. unfold update_common. by destruct (_ =? 0).
    + intros x. rewrite Ecells. specialize (Rb x). apply aread_inv in Rb as [H0 Hx].
      apply aread_Ok; [done|]. rewrite list_lookup_fmap, Hx. cbn [fmap option_fmap option_map].
      f_equal. unfold fix_cell. rewrite (enc_valid _ _ Hr).
      destruct (at_ l x) as [| |q h] eqn:E; [done..|]. cbn [is_full].
      apply fix_cell_enc; [done..|]. by apply Rd in E as (_ & ? & _).
    + by rewrite Ecells, length_fmap.
    + intros x q h E. apply Rd in E as (? & ? & _). by apply Hst.
    + destruct Re as [Hm0 [Hp0 Hp1]]. unfold update_common. destruct (Z.eqb_spec (elems ht) 0); [done|].
      constructor; cbn [common_mask perfect_bit].
      * apply Z.ldiff_nonneg. by left.
      * split; [apply Z.ldiff_nonneg; by left|bits].
  - unfold storable, update_common. destruct (Z.eqb_spec (elems ht) 0); [done|].
    cbn [common_mask common_bits]. split_and!; [done|bits|by rewrite Z.ldiff_spec, Hm].
Qed.

Lemma no_full ht l M : table_ok ht l M → elems ht = 0 → ∀ x, is_full (at_ l x) = false.
Proof.
  intros Hok He x. rewrite (ok_elems _ _ _ Hok) in He.
  destruct (is_full (at_ l x)) eqn:E; [|done]. exfalso.
  pose proof (count_upd is_full l x Empty (rep_len_pos _ _ (ok_rep _ _ _ Hok))) as Hu.
  rewrite E in Hu. simpl in Hu. lia.
Qed.

(** Making the pointer storable. *)
Lemma update_common_ok ht l M p :
  table_ok ht l M → is_Some (table ht) → heap_ptr p →
  let ht' := if negb (Z.land p (common_mask ht) =? common_bits ht) then update_common ht p else ht in
  table_ok ht' l M ∧ is_Some (table ht') ∧ storable ht' p ∧ elems ht' = elems ht ∧
  hmax ht' = hmax ht ∧ max_with_deleted ht' = max_with_deleted ht ∧ deleted ht' = deleted ht.
Proof.
  intros Hok Ht Hp. destruct (Z.eqb_spec (Z.land p (common_mask ht)) (common_bits ht)) as [Heq|Hne]; cbn [negb].
  - split_and!; try done. unfold storable. split_and!; try done.
    destruct (ok_mask _ _ _ Hok) as [|[Hm Hb]]; [done|]. exfalso. rewrite Hm, Hb in Heq.
    apply (f_equal (λ z, Z.testbit z TOP)) in Heq. rewrite Z.land_spec, heap_ptr_top in Heq by done. done.
  - assert (ht_rep (update_common ht p) l ∧ storable (update_common ht p) p) as [Hr Hst].
    { destruct (decide (elems ht = 0)) as [He|He].
      - apply update_common_first; try done; [apply Hok|by eapply no_full].
      - apply update_common_next; try done; [apply Hok|].
        destruct (count_free (λ s, negb (is_full s)) l) as [y Hy].
        { pose proof (ok_elems _ _ _ Hok) as Hel. destruct (Nat.lt_ge_cases (count (λ s, negb (is_full s)) l) (length l)); [done|].
          assert (count (λ s, negb (is_full s)) l + count is_full l = length l)%nat; [|lia].
          clear. induction l as [|s l IH]; [done|]. rewrite !count_cons. destruct (is_full s); simpl; lia. }
        destruct (at_ l y) as [| |q h] eqn:E; try done.
        by apply (hr_full _ _ (ok_rep _ _ _ Hok)) in E as (_ & _ & ?). }
    assert (bits (update_common ht p) = bits ht ∧ elems (update_common ht p) = elems ht ∧
      hmax (update_common ht p) = hmax ht ∧ max_with_deleted (update_common ht p) = max_with_deleted ht ∧
      deleted (update_common ht p) = deleted ht ∧ is_Some (table (update_common ht p)))
      as (Eb & Ee & Eh & Ew & Ed & Ht').
    { unfold update_common. destruct (_ =? 0); split_and!; try done. destruct Ht as [t Et]. cbn [table]. rewrite Et. by eexists. }
    split_and!; try done. destruct Hok. split; try done; rewrite ?Ee, ?Eh, ?Ew, ?Ed, ?Eb; try done.
    + left. apply Hst.
    + intros Hnone. rewrite Hnone in Ht'. by destruct Ht'.
Qed.

(** ** The operations *)

Lemma htable_add_ok ht l M ok rehash p h :
  table_ok ht l M → heap_ptr (Z.pos p) → M !! p = None →
  (∀ q k, M !! q = Some k → rehash (Z.pos q) = k) →
  ∃ b ht', htable_add ok rehash ht h (Z.pos p) = Ok (b, ht') ∧
    if b then ∃ l', table_ok ht' l' (<[p:=h]> M) else ok = false ∧ ht' = ht.
Proof.
  intros Hok Hp HM Hre. unfold htable_add.
  assert ((∃ ht1 l1, (if hmax ht <? elems ht + 1 then double_table ok rehash ht else Ok (true, ht)) = Ok (true, ht1) ∧
    table_ok ht1 l1 M ∧ is_Some (table ht1) ∧ elems ht1 + 1 ≤ hmax ht1) ∨
    ok = false ∧ (if hmax ht <? elems ht + 1 then double_table ok rehash ht else Ok (true, ht)) = Ok (false, ht))
    as [(ht1 & l1 & -> & Hok1 & Ht1 & Hm1)|[-> ->]]; [| |by exists false, ht].
  { destruct (Z.ltb_spec (hmax ht) (elems ht + 1)) as [Hlt|Hge].
    - destruct ok; [left|by right].
      destruct (double_ok ht l M rehash Hok Hre) as (ht1 & l1 & E & ? & ? & ?). by exists ht1, l1.
    - left. exists ht, l. split_and!; try done.
      destruct (table ht) as [t|] eqn:Et; [by eexists|]. exfalso.
      pose proof (ok_hmax _ _ _ Hok) as Hh. rewrite (ok_table _ _ _ Hok Et) in Hh.
      change (3 * 2 ^ Z.of_nat 0 / 4) with 0 in Hh. pose proof (ok_elems _ _ _ Hok). lia. }
  run. cbn [negb].
  assert (∃ ht2 l2, (if max_with_deleted ht1 <? elems ht1 + 1 + deleted ht1 then rehash_table rehash ht1 else Ok ht1) = Ok ht2 ∧
    table_ok ht2 l2 M ∧ is_Some (table ht2) ∧ elems ht2 + 1 ≤ hmax ht2 ∧
    elems ht2 + 1 + deleted ht2 ≤ max_with_deleted ht2) as (ht2 & l2 & -> & Hok2 & Ht2 & Hm2 & Hw2).
  { destruct (Z.ltb_spec (max_with_deleted ht1) (elems ht1 + 1 + deleted ht1)) as [Hlt|Hge].
    - destruct (rehash_ok ht1 l1 M rehash Hok1 Ht1 Hre) as (ht2 & l2 & E & Hok2 & Ht2 & Ee & Eh & Ew & Ed).
      exists ht2, l2. split_and!; try done; rewrite Ee, ?Eh, ?Ew, ?Ed; [done|].
      pose proof (ok_hmax _ _ _ Hok1). pose proof (ok_mwd _ _ _ Hok1). dlia.
    - exists ht1, l1. done. }
  run. destruct (update_common_ok ht2 l2 M (Z.pos p) Hok2 Ht2 Hp) as (Hok3 & Ht3 & Hst3 & Ee & Eh & Ew & Ed).
  set (ht3 := if negb _ then _ else _) in *. clearbody ht3.
  pose proof (ok_rep _ _ _ Hok3) as Hr3. pose proof (rep_len_pos _ _ Hr3) as Hpos.
  destruct (room_empty _ _ _ Hok3) as [y Hy].
  destruct (ht_add_rep ht3 l2 Hr3 Ht3 (Z.pos p) h Hst3) as (r & ht4 & Hr0 & Hf & -> & Hr4 & [Es4 Ht4]).
  { exists y. by rewrite Hy. }
  run. eexists true, _. split; [done|].
  destruct (add_slots l2 M p h r Hpos Hr0 Hf (ok_probing _ _ _ Hok3) (ok_distinct _ _ _ Hok3)
    (ok_content _ _ _ Hok3) HM) as (Hpr4 & Hd4 & Hc4 & Hn4 & Hn4' & Hl4).
  exists (upd l2 (h + Z.of_nat r) (Full (Z.pos p) h)).
  assert (elems ht4 = elems ht3 ∧ deleted ht4 = deleted ht3 ∧ hmax ht4 = hmax ht3 ∧
    max_with_deleted ht4 = max_with_deleted ht3 ∧ bits ht4 = bits ht3 ∧
    common_mask ht4 = common_mask ht3 ∧ common_bits ht4 = common_bits ht3)
    as (E1 & E2 & E3 & E4 & E5 & E6 & E7) by (rewrite Es4; done).
  pose proof (ok_elems _ _ _ Hok3). pose proof (ok_deleted _ _ _ Hok3).
  split; cbn [elems deleted hmax max_with_deleted common_mask common_bits bits table]; try done; try lia.
  - destruct Hr4 as [Ra Rb Rc Rd [Re Rf]]. by split.
  - rewrite E3, E5. apply Hok3.
  - rewrite E4, E5. apply Hok3.
  - rewrite E6, E7. apply Hok3.
  - intros Hnone. rewrite Hnone in Ht4. by destruct Ht4.
Qed.

Lemma htable_init_ok : table_ok htable_init [Empty] ∅.
Proof.
  assert (∀ x, at_ [Empty] x = Empty) as Ha by (intros x; apply (at_replicate 1)).
  split; try done.
  - split; try done.
    + intros x. rewrite Ha. change (len [Empty]) with 1. by rewrite Z.mod_1_r.
    + intros x p h. by rewrite Ha.
  - intros x p h. by rewrite Ha.
  - intros x y p h k. by rewrite Ha.
  - apply (content_empty 1).
  - by right.
Qed.

(** What a lookup delivers: the entries of [htable_vals]. *)
Lemma lookup_ok ht l M h :
  table_ok ht l M →
  ∃ r, iter ht h (htable_firstval ht h) r ∧ (length r ≤ length (cells ht))%nat ∧
    (∀ p off, (p, off) ∈ r → ∃ k x, off = x mod len l ∧ at_ l x = Full p k) ∧
    (∀ p, M !! p = Some h → ∃ off, (Z.pos p, off) ∈ r).
Proof.
  intros Hok. pose proof (ok_rep _ _ _ Hok) as Hr. pose proof (rep_len_pos _ _ Hr) as Hpos.
  destruct (room_empty _ _ _ Hok) as [y Hy].
  destruct (first_at_exists (λ s, s = Empty) l h y Hpos Hy) as (r & Hlt & Hf).
  exists (perfect_hits ht l r h). split_and!.
  - by apply firstval_iter.
  - etrans; [apply hits_length|]. rewrite (hr_length _ _ Hr). lia.
  - intros p off Hin. apply hits_sound in Hin as (x & k & -> & E). by exists k, x.
  - intros p Hp. apply (ok_content _ _ _ Hok) in Hp as [x E].
    pose proof (Z.mod_pos_bound (x - h) (len l) Hpos) as Hd. set (d := (x - h) mod len l) in *.
    assert (at_ l (h + d) = Full (Z.pos p) h) as Ed by (rewrite <- E; by apply mod_shift).
    assert (d < Z.of_nat r) as Hdr.
    { destruct (Z.lt_ge_cases d (Z.of_nat r)); [done|]. exfalso. destruct Hf as [Hr0 _].
      destruct (decide (d = Z.of_nat r)) as [Heq|]; [rewrite Heq in Ed; congruence|].
      apply (ok_probing _ _ _ Hok x _ _ E (Z.of_nat r)); [fold d; lia|done]. }
    destruct r as [|r]; [lia|]. rewrite perfect_hits_S.
    destruct (decide (d = 0)) as [Hd0|Hd0].
    + rewrite Hd0, Z.add_0_r in Ed. rewrite Ed. exists (h mod len l).
      assert (tag ht (h mod len l) h = Z.lor (get_hash_ptr_bits ht h) (perfect_bit ht)) as ->.
      { unfold tag, hash_bucket. by rewrite (in_table_mod _ _ Hr), Z.eqb_refl. }
      rewrite Z.eqb_refl. by left.
    + exists ((h + d) mod len l). apply elem_of_app. right.
      replace (h + d) with (h + 1 + Z.of_nat (Z.to_nat (d - 1))) in * by lia.
      apply (hits_complete ht l r (h + 1) _ _ (Z.pos p) h); [lia|done|].
      unfold tag, hash_bucket. rewrite (in_table_mod _ _ Hr).
      rewrite (proj2 (Z.eqb_neq _ _)); [by rewrite Z.lor_0_r|]. intros Heq.
      assert (d mod len l = 0) as Hz.
      { replace d with (h + 1 + Z.of_nat (Z.to_nat (d - 1)) - h) by lia.
        by rewrite Zminus_mod, Heq, Z.sub_diag, Zmod_0_l. }
      rewrite Z.mod_small in Hz by lia. lia.
Qed.

(** Deleting the entry at a slot. *)
Lemma htable_delval_ok ht l M x p h :
  table_ok ht l M → at_ l x = Full (Z.pos p) h →
  ∃ ht' l', htable_delval ht (x mod len l) = Ok ht' ∧ table_ok ht' l' (delete p M).
Proof.
  intros Hok E. pose proof (ok_rep _ _ _ Hok) as Hr. pose proof (rep_len_pos _ _ Hr) as Hpos.
  unfold htable_delval. rewrite (hr_cells _ _ Hr). run. rewrite (enc_valid _ _ Hr), E. cbn [is_full negb].
  assert (is_Some (table ht)) as Ht.
  { destruct (table ht) eqn:Et; [by eexists|]. exfalso.
    pose proof (ok_hmax _ _ _ Hok) as Hh. rewrite (ok_table _ _ _ Hok Et) in Hh.
    change (3 * 2 ^ Z.of_nat 0 / 4) with 0 in Hh. pose proof (ok_elems_max _ _ _ Hok).
    pose proof (ok_elems _ _ _ Hok).
    pose proof (count_upd is_full l x Empty Hpos) as Hu. rewrite E in Hu. simpl in Hu. lia. }
  set (ht1 := {| ht with elems := elems ht - 1 |}).
  assert (ht_rep ht1 l) as Hr1 by (destruct Hr as [Ra Rb Rc Rd [Re Rf]]; by split).
  destruct (set_cell_rep ht1 l Hr1 Ht x Deleted) as (ht2 & E2 & Hr2 & [Es2 Ht2]); [done|].
  cbn [enc] in E2. rewrite E2. run. eexists _, (upd l x Deleted). split; [done|].
  pose proof (count_upd is_full l x Deleted Hpos) as Hu. pose proof (count_upd is_deleted l x Deleted Hpos) as Hu'.
  rewrite E in Hu, Hu'. simpl in Hu, Hu'.
  assert (elems ht2 = elems ht - 1 ∧ deleted ht2 = deleted ht ∧ hmax ht2 = hmax ht ∧
    max_with_deleted ht2 = max_with_deleted ht ∧ bits ht2 = bits ht ∧
    common_mask ht2 = common_mask ht ∧ common_bits ht2 = common_bits ht)
    as (E1 & E3 & E4 & E5 & E6 & E7 & E8) by (rewrite Es2; done).
  destruct Hok as [_ Hpr Hd Hc He Hdel Hroom Hemax Hhm Hmwd Hmask Htab].
  split; [destruct Hr2 as [Ra Rb Rc Rd [Re Rf]]; by split|..];
    cbn [elems deleted hmax max_with_deleted common_mask common_bits bits table];
    rewrite ?E1, ?E3, ?E4, ?E5, ?E6, ?E7, ?E8; try done; try lia.
  - by apply delete_probing.
  - by apply clear_distinct.
  - by apply (clear_content l M x p h).
  - intros Hnone. rewrite Hnone in Ht2. by destruct Ht2.
Qed.

(** The relation of a table to the map of its pointers. *)
Definition represents (ht : htable) (M : gmap ptr Z) : Prop := ∃ l, table_ok ht l M.

Lemma full_pos ht l M x p k :
  table_ok ht l M → at_ l x = Full p k → ∃ q, p = Z.pos q ∧ M !! q = Some k.
Proof.
  intros Hok E. pose proof (hr_full _ _ (ok_rep _ _ _ Hok) _ _ _ E) as [Hp _]. unfold heap_ptr in Hp.
  destruct p as [|p|p]; [lia| |lia]. exists p. split; [done|]. apply (ok_content _ _ _ Hok). by exists x.
Qed.

Lemma vals_ok ht M h :
  represents ht M →
  ∃ r, htable_vals ht h = Ok r ∧ (∀ p, p ∈ r.*1 → ∃ q, p = Z.pos q ∧ is_Some (M !! q)) ∧
    (∀ p, M !! p = Some h → Z.pos p ∈ r.*1).
Proof.
  intros [l Hok]. destruct (lookup_ok ht l M h Hok) as (r & Hi & Hlen & Hs & Hc).
  exists r. split; [by apply iter_vals|]. split.
  - intros p ([q off] & -> & Hin)%list_elem_of_fmap. apply Hs in Hin as (k & x & _ & E).
    destruct (full_pos _ _ _ _ _ _ Hok E) as (q' & -> & HM). exists q'. eauto.
  - intros p [off Hin]%Hc. apply list_elem_of_fmap. by exists (Z.pos p, off).
Qed.

Lemma walk_ok ht M :
  represents ht M →
  ∃ r, htable_walk ht = Ok r ∧ NoDup r.*1 ∧ (∀ p, p ∈ r.*1 → ∃ q, p = Z.pos q) ∧
    (∀ p, Z.pos p ∈ r.*1 ↔ is_Some (M !! p)) ∧
    (∀ p off, (Z.pos p, off) ∈ r → ∃ ht', htable_delval ht off = Ok ht' ∧ represents ht' (delete p M)).
Proof.
  intros [l Hok]. pose proof (ok_rep _ _ _ Hok) as Hr. pose proof (rep_len_pos _ _ Hr) as Hpos.
  eexists. split; [by apply walk_entries|].
  assert (∀ p x, (p, x) ∈ entries l (length l) 0 ↔ 0 ≤ x < len l ∧ ∃ h, at_ l x = Full p h) as Hin.
  { intros p x. apply elem_of_entries; unfold len; lia. }
  split_and!.
  - rewrite entries_ptrs by (unfold len; lia). change (Z.to_nat 0) with 0%nat. rewrite drop_0.
    apply distinct_nodup, Hok.
  - intros p ([q x] & -> & [_ [h E]]%Hin)%list_elem_of_fmap. simpl.
    destruct (full_pos _ _ _ _ _ _ Hok E) as (q' & -> & _). by exists q'.
  - intros p. rewrite list_elem_of_fmap. split.
    + intros ([q x] & Hq & [_ [h E]]%Hin). simpl in Hq. subst q.
      destruct (full_pos _ _ _ _ _ _ Hok E) as (q' & [= <-] & HM). eauto.
    + intros [h [x E]%(ok_content _ _ _ Hok)]. exists (Z.pos p, x mod len l). split; [done|].
      apply Hin. split; [by apply Z.mod_pos_bound|]. exists h. by rewrite at_mod.
  - intros p off [Hoff [h E]]%Hin. destruct (htable_delval_ok ht l M off p h Hok E) as (ht' & l' & E' & Hok').
    rewrite Z.mod_small in E' by done. exists ht'. split; [done|by exists l'].
Qed.

(** Adding a pointer that is not in the table either fails, only when memory
    for a larger table is refused and without any change, or puts it into the
    map with its hash and keeps all others, through growing, rehashing in
    place and changes of the common bits; no access leaves the array and no
    loop runs forever. *)
Theorem htable_add_refines t M ok rehash h p :
  represents t M → heap_ptr (Z.pos p) → M !! p = None →
  (∀ q k, M !! q = Some k → rehash (Z.pos q) = k) →
  ∃ b t', Ccan.htable_add ok rehash t h (Z.pos p) = Ok (b, t') ∧
    if b then represents t' (<[p:=h]> M) else ok = false ∧ t' = t.
Proof.
  intros [l Hok] Hp HM Hre.
  destruct (htable_add_ok t l M ok rehash p h Hok Hp HM Hre) as (b & t' & E & H).
  exists b, t'. split; [done|]. destruct b; [|done]. destruct H as [l' H]. by exists l'.
Qed.

(** A lookup ends, inside the array, with a stored pointer the comparison
    accepts, or with none, and then no pointer stored with this hash is
    accepted. *)
Theorem htable_get_correct t M h cmp :
  represents t M →
  ∃ o, Ccan.htable_get t h cmp = Ok o ∧
    match o with
    | Some p => ∃ q, p = Z.pos q ∧ is_Some (M !! q) ∧ cmp p = true
    | None => ∀ q, M !! q = Some h → cmp (Z.pos q) = false
    end.
Proof.
  intros [l Hok]. destruct (lookup_ok t l M h Hok) as (r & Hi & Hlen & Hs & Hc).
  eexists. split; [by apply iter_get|].
  destruct (list_find (λ q, cmp q.1 = true) r) as [[i [p off]]|] eqn:E; cbn [mbind option_bind fst].
  - apply list_find_Some in E as (Hin & Hcmp & _). apply list_elem_of_lookup_2 in Hin.
    apply Hs in Hin as (k & x & _ & Ex). destruct (full_pos _ _ _ _ _ _ Hok Ex) as (q & -> & HM). eauto.
  - intros q [off Hin]%Hc. apply list_find_None in E. rewrite Forall_forall in E.
    specialize (E _ Hin). by apply not_true_iff_false.
Qed.

Lemma del_find t M h p :
  represents t M →
  match M !! p with
  | Some k => k = h → ∃ t', Ccan.htable_del t h (Z.pos p) = Ok (true, t') ∧ represents t' (delete p M)
  | None => Ccan.htable_del t h (Z.pos p) = Ok (false, t)
  end.
Proof.
  intros [l Hok]. destruct (lookup_ok t l M h Hok) as (r & Hi & Hlen & Hs & Hc).
  unfold Ccan.htable_del. rewrite (iter_del _ _ _ r) by done.
  destruct (list_find (λ q, q.1 = Z.pos p) r) as [[i [q off]]|] eqn:E.
  - apply list_find_Some in E as (Hin & Hq & _). apply list_elem_of_lookup_2 in Hin.
    simpl in Hq. subst q. apply Hs in Hin as (k & x & -> & Ex).
    destruct (full_pos _ _ _ _ _ _ Hok Ex) as (q & [= <-] & HM). rewrite HM. intros _.
    destruct (htable_delval_ok t l M x p k Hok Ex) as (t' & l' & -> & Hok'). run.
    exists t'. split; [done|by exists l'].
  - destruct (M !! p) as [k|] eqn:HM; [|done]. intros ->. exfalso. apply Hc in HM as [off Hin].
    apply list_find_None in E. rewrite Forall_forall in E. by destruct (E _ Hin).
Qed.

Lemma del_ok t M h p :
  represents t M → M !! p = Some h →
  ∃ t', Ccan.htable_del t h (Z.pos p) = Ok (true, t') ∧ represents t' (delete p M).
Proof. intros Hr HM. pose proof (del_find t M h p Hr) as H. rewrite HM in H. by apply H. Qed.

Lemma del_none_ok t M h p :
  represents t M → M !! p = None → Ccan.htable_del t h (Z.pos p) = Ok (false, t).
Proof. intros Hr HM. pose proof (del_find t M h p Hr) as H. by rewrite HM in H. Qed.

(** C24: Deleting by hash and pointer finds exactly the stored pointer, removes it
    and no other, and reports whether it was there. *)
Theorem htable_del_refines t M h p :
  represents t M →
  (M !! p = Some h → ∃ t', Ccan.htable_del t h (Z.pos p) = Ok (true, t') ∧ represents t' (delete p M)) ∧
  (M !! p = None → Ccan.htable_del t h (Z.pos p) = Ok (false, t)).
Proof. intros Hr. split; [by apply del_ok|by apply del_none_ok]. Qed.

(** The table may lose a pointer it reports as added: when it differs from the
    first stored pointer only in that one's highest bit, nothing of it is left
    in its cell, which for a hash of zero reads as empty or deleted. *)
Theorem htable_may_lose_pointer :
  ∃ t1 t2, Ccan.htable_add true (λ _, 0) htable_init 0 0x5000010 = Ok (true, t1) ∧
    Ccan.htable_add true (λ _, 0) t1 0 0x1000010 = Ok (true, t2) ∧ elems t2 = 2 ∧
    Ccan.htable_get t2 0 (Z.eqb 0x1000010) = Ok None ∧
    htable_walk t2 = Ok [(0x5000010, 0)].
Proof. eexists _, _. split; [vm_compute; reflexivity|]. by vm_compute. Qed.

(** ** The interface *)

#[global] Instance ccan_ops : HTable htable := {
  Htable.htable_init := Ccan.htable_init;
  Htable.htable_add ok rehash h p t :=
    match Ccan.htable_add ok (λ z, rehash (Z.to_pos z)) t h (Z.pos p) with Ok r => r | _ => (false, t) end;
  Htable.htable_probe h t := match htable_vals t h with Ok r => Z.to_pos <$> r.*1 | _ => [] end;
  Htable.htable_del h p t := match Ccan.htable_del t h (Z.pos p) with Ok r => r | _ => (false, t) end;
  Htable.htable_walk t := match Ccan.htable_walk t with Ok r => Z.to_pos <$> r.*1 | _ => [] end;
  Htable.htable_delval p t :=
    match Ccan.htable_walk t with
    | Ok r =>
      match list_find (λ q, q.1 = Z.pos p) r with
      | Some (_, (_, off)) => match Ccan.htable_delval t off with Ok t' => t' | _ => t end
      | None => t
      end
    | _ => t
    end;
  Htable.htable_elems := elems }.

Lemma elem_of_to_pos (l : list Z) p :
  (∀ z, z ∈ l → ∃ q, z = Z.pos q) → p ∈ Z.to_pos <$> l ↔ Z.pos p ∈ l.
Proof.
  intros Hl. rewrite list_elem_of_fmap. split.
  - intros (z & -> & Hz). destruct (Hl z Hz) as [q ->]. done.
  - intros Hp. by exists (Z.pos p).
Qed.

#[global] Program Instance ccan_spec : HTableSpec htable := { Rep := represents }.
Next Obligation. exists [Empty]. apply htable_init_ok. Qed.
Next Obligation.
  intros t M ok rehash h p [l Hok] Hp HM <- Hre. cbn [Htable.htable_add ccan_ops].
  destruct (htable_add_ok t l M ok (λ z, rehash (Z.to_pos z)) p (rehash p) Hok Hp HM) as (b & t' & -> & H).
  { intros q k Hq. by apply Hre. }
  destruct b; [|destruct H as [-> ->]; split; [done|by exists l]]. destruct H as [l' H]. by exists l'.
Qed.
Next Obligation.
  intros t M h p Hr. cbn [Htable.htable_probe ccan_ops]. destruct (vals_ok t M h Hr) as (r & -> & Hs & _).
  rewrite elem_of_to_pos by (intros z Hz; destruct (Hs z Hz) as (q & -> & _); by exists q).
  intros Hin. by destruct (Hs _ Hin) as (q & [= <-] & ?).
Qed.
Next Obligation.
  intros t M h p Hr HM. cbn [Htable.htable_probe ccan_ops]. destruct (vals_ok t M h Hr) as (r & -> & Hs & Hc).
  rewrite elem_of_to_pos by (intros z Hz; destruct (Hs z Hz) as (q & -> & _); by exists q). by apply Hc.
Qed.
Next Obligation.
  intros t M h p Hr HM. cbn [Htable.htable_del ccan_ops].
  by destruct (del_ok t M h p Hr HM) as (t' & -> & ?).
Qed.
Next Obligation.
  intros t M h p Hr HM. cbn [Htable.htable_del ccan_ops]. by rewrite (del_none_ok t M h p Hr HM).
Qed.
Next Obligation.
  intros t M Hr. cbn [Htable.htable_walk ccan_ops]. destruct (walk_ok t M Hr) as (r & -> & Hnd & Hp & _).
  apply NoDup_fmap_2_strong; [|done]. intros x y Hx Hy. destruct (Hp x Hx) as [a ->], (Hp y Hy) as [b ->].
  simpl. by intros ->.
Qed.
Next Obligation.
  intros t M p Hr. cbn [Htable.htable_walk ccan_ops]. destruct (walk_ok t M Hr) as (r & -> & _ & Hp & HM & _).
  by rewrite elem_of_to_pos.
Qed.
Next Obligation.
  intros t M p Hr HM. cbn [Htable.htable_delval ccan_ops].
  destruct (walk_ok t M Hr) as (r & -> & _ & _ & Hin & Hdel).
  apply Hin in HM. apply list_elem_of_fmap in HM as ([q off] & Hq & Hr'). simpl in Hq. subst q.
  destruct (list_find (λ q, q.1 = Z.pos p) r) as [[i [q off']]|] eqn:E.
  - apply list_find_Some in E as (Hi & Hq & _). apply list_elem_of_lookup_2 in Hi. simpl in Hq. subst q.
    by destruct (Hdel p off' Hi) as (t' & -> & ?).
  - apply list_find_None in E. rewrite Forall_forall in E. by destruct (E _ Hr').
Qed.
Next Obligation. intros t M [l Hok]. by apply (ok_size t l M). Qed.

(** ** Witnesses *)

Module CcanWitnesses.
(** Two addresses of the heap of a process. *)
Definition p1 : ptr := Z.to_pos 0x55555575a010.
Definition p2 : ptr := Z.to_pos 0x55555575b040.
Definition hash_of (z : Z) : Z := if z =? Z.pos p1 then 6 else 2.

Definition table1 : htable :=
  match Ccan.htable_add true hash_of htable_init 6 (Z.pos p1) with Ok (_, t) => t | _ => htable_init end.

Lemma init_represents : represents htable_init ∅.
Proof. exists [Empty]. apply htable_init_ok. Qed.

Lemma heap_p1 : heap_ptr (Z.pos p1).
Proof. by vm_compute. Qed.

Lemma table1_represents : represents table1 {[p1 := 6]}.
Proof.
  destruct init_represents as [l Hok].
  destruct (htable_add_ok htable_init l ∅ true hash_of p1 6 Hok heap_p1) as (b & t & E & H); [done..|].
  assert (b = true ∧ t = table1) as [-> ->] by (by vm_compute in E; simplify_eq; vm_compute).
  destruct H as [l' H]. exists l'. done.
Qed.

Lemma add_witness :
  ∃ b t', Ccan.htable_add true hash_of table1 2 (Z.pos p2) = Ok (b, t') ∧
    if b then represents t' (<[p2:=2]> {[p1 := 6]}) else true = false ∧ t' = table1.
Proof.
  apply (htable_add_refines table1 {[p1 := 6]} true hash_of 2 p2);
    [exact table1_represents|by vm_compute|by vm_compute|].
  intros q k [<- <-]%lookup_singleton_Some. reflexivity.
Defined.

Lemma get_witness :
  ∃ o, Ccan.htable_get table1 6 (λ z, Z.pos p1 =? z) = Ok o ∧
    match o with
    | Some p => ∃ q, p = Z.pos q ∧ is_Some (({[p1 := 6]} : gmap ptr Z) !! q) ∧ (Z.pos p1 =? p) = true
    | None => ∀ q, ({[p1 := 6]} : gmap ptr Z) !! q = Some 6 → (Z.pos p1 =? Z.pos q) = false
    end.
Proof. apply (htable_get_correct table1 {[p1 := 6]} 6 (λ z, Z.pos p1 =? z)); exact table1_represents. Defined.

Lemma del_witness :
  ∃ t', Ccan.htable_del table1 6 (Z.pos p1) = Ok (true, t') ∧ represents t' (delete p1 {[p1 := 6]}).
Proof.
  apply (htable_del_refines table1 {[p1 := 6]} 6 p1); [exact table1_represents|reflexivity].
Defined.
End CcanWitnesses.
