(* ===== verification/Store.v ===== *)
(** * Objects indexed by a hash table

    The shape the databases of ocserv share: objects on the heap, a hash
    table of pointers to them, and a key inside each object from which the
    hash is computed.  [store_ok] says that the table holds exactly the
    objects and that no two of them have the same key; under it the store is
    a finite map from keys to objects, its [view]. *)

From S2P Require Import Prelude Htable.

Record store (T E : Type) := Store { tbl : T; objs : gmap ptr E }.
Arguments Store {_ _} _ _.
Arguments tbl {_ _} _.
Arguments objs {_ _} _.

Section store.
Context {T : Type} `{HT : HTable T} {E K : Type} `{EqDecision K, Countable K}.
Context (key : E → K) (hash : K → Z).
Implicit Types (s : store T E) (p q : ptr) (e f : E) (k : K).

(** The table's [rehash] function, which reads the object. *)
Definition rehash (s : store T E) (p : ptr) : Z :=
  match objs s !! p with Some e => hash (key e) | None => 0 end.

Definition key_is (s : store T E) (k : K) (p : ptr) : bool :=
  match objs s !! p with Some e => bool_decide (key e = k) | None => false end.

(** [htable_get(db, rehash(&t), cmp, &t)] with [t] an object with key [k]. *)
Definition sget (k : K) (s : store T E) : option ptr :=
  htable_get (hash k) (key_is s k) (tbl s).

(** The object found, with its pointer. *)
Definition slookup (k : K) (s : store T E) : option (ptr * E) :=
  sget k s ≫= λ p, (p,.) <$> objs s !! p.

(** [htable_add(db, rehash(e), e)] for an object just allocated at [p],
    which is freed when the table cannot grow. *)
Definition sadd (ok : bool) (p : ptr) (e : E) (s : store T E) : bool * store T E :=
  let s' := Store (tbl s) (<[p:=e]> (objs s)) in
  let '(b, t) := htable_add ok (rehash s') (hash (key e)) p (tbl s) in
  (b, if b then Store t (objs s') else Store t (objs s)).

(** A write to the object at [p]. *)
Definition sset (p : ptr) (e : E) (s : store T E) : store T E :=
  Store (tbl s) (<[p:=e]> (objs s)).

(** [htable_del(db, rehash(e), e)] and the object is freed. *)
Definition sdel (p : ptr) (s : store T E) : store T E :=
  Store (htable_del (rehash s p) p (tbl s)).2 (delete p (objs s)).

(** The walk over the table that removes and frees what satisfies [drop]. *)
Definition sweep_step (drop : E → bool) (s : store T E) (p : ptr) : store T E :=
  match objs s !! p with
  | Some e => if drop e then Store (htable_delval p (tbl s)) (delete p (objs s)) else s
  | None => s
  end.
Definition sweep (drop : E → bool) (s : store T E) : store T E :=
  foldl (sweep_step drop) s (htable_walk (tbl s)).

Definition view (s : store T E) : gmap K E :=
  list_to_map ((λ pe, (key pe.2, pe.2)) <$> map_to_list (objs s)).

Context `{HS : !HTableSpec T}.

Record store_ok (s : store T E) : Prop := {
  st_rep : Rep (tbl s) ((hash ∘ key) <$> objs s);
  st_inj p q e f : objs s !! p = Some e → objs s !! q = Some f → key e = key f → p = q;
}.

Lemma store_init_ok : store_ok (Store htable_init ∅).
Proof. split; simpl; [rewrite fmap_empty; apply rep_init|done]. Qed.

Lemma rehash_fmap s p h :
  ((hash ∘ key) <$> objs s) !! p = Some h → rehash s p = h.
Proof. unfold rehash. rewrite lookup_fmap. destruct (objs s !! p); simpl; naive_solver. Qed.

(** ** Lookup by key *)

Lemma sget_sound s k p :
  sget k s = Some p → ∃ e, objs s !! p = Some e ∧ key e = k.
Proof.
  unfold sget, htable_get. destruct (list_find _ _) as [[i q]|] eqn:Ef; [|done].
  intros [= <-]. apply list_find_Some in Ef as (_ & Hk & _).
  unfold key_is in Hk. destruct (objs s !! q) as [e|]; [|done].
  exists e. split; [done|]. by apply bool_decide_eq_true in Hk.
Qed.

Lemma sget_complete s p e :
  store_ok s → objs s !! p = Some e → sget (key e) s = Some p.
Proof.
  intros [Hrep Hinj] Hp. unfold sget, htable_get.
  destruct (list_find _ _) as [[i q]|] eqn:Ef; simpl.
  - apply list_find_Some in Ef as (_ & Hk & _). unfold key_is in Hk.
    destruct (objs s !! q) as [f|] eqn:Hq; [|done].
    apply bool_decide_eq_true in Hk. f_equal. by eapply Hinj.
  - exfalso. apply list_find_None in Ef. rewrite Forall_forall in Ef.
    apply (Ef p); [|unfold key_is; rewrite Hp; by apply bool_decide_eq_true].
    eapply rep_probe_complete; [exact Hrep|]. by rewrite lookup_fmap, Hp.
Qed.

Lemma sget_Some s k p :
  store_ok s → sget k s = Some p ↔ ∃ e, objs s !! p = Some e ∧ key e = k.
Proof.
  intros Hok. split; [apply sget_sound|]. intros (e & Hp & <-). by apply sget_complete.
Qed.

Lemma sget_None s k :
  store_ok s → sget k s = None ↔ ∀ p e, objs s !! p = Some e → key e ≠ k.
Proof.
  intros Hok. split.
  - intros Hn p e Hp <-. by rewrite (sget_complete s p e) in Hn.
  - intros Hall. destruct (sget k s) as [p|] eqn:Hg; [|done].
    apply sget_sound in Hg as (e & Hp & Hk). by destruct (Hall p e).
Qed.

(** ** The view *)

Lemma view_keys_nodup s :
  store_ok s → NoDup (((λ pe, (key pe.2, pe.2)) <$> map_to_list (objs s)).*1).
Proof.
  intros [_ Hinj]. rewrite <- list_fmap_compose.
  apply NoDup_fmap_2_strong; [|apply NoDup_map_to_list].
  intros [p e'] [q f] Hp%elem_of_map_to_list Hq%elem_of_map_to_list Hk. simpl in Hk.
  assert (p = q) as -> by (by eapply Hinj). congruence.
Qed.

Lemma view_Some s k e :
  store_ok s → view s !! k = Some e ↔ ∃ p, objs s !! p = Some e ∧ key e = k.
Proof.
  intros Hok. unfold view. rewrite <- elem_of_list_to_map by (by apply view_keys_nodup).
  rewrite list_elem_of_fmap. split.
  - intros ([p f] & [= -> ->] & Hin%elem_of_map_to_list). eauto.
  - intros (p & Hp & <-). exists (p, e). split; [done|]. by apply elem_of_map_to_list.
Qed.

Lemma view_sget s k :
  store_ok s → view s !! k = sget k s ≫= λ p, objs s !! p.
Proof.
  intros Hok. apply option_eq. intros e. rewrite view_Some by done.
  destruct (sget k s) as [p|] eqn:Hg; simpl.
  - apply sget_Some in Hg as (f & Hp & Hk); [|done]. split.
    + intros (q & Hq & Hkq). by rewrite (st_inj _ Hok p q f e) by congruence.
    + intros He. exists p. split; [done|]. congruence.
  - split; [|done]. intros (q & Hq & Hkq). by destruct (proj1 (sget_None s k Hok) Hg q e).
Qed.

Lemma slookup_Some s k p e : slookup k s = Some (p, e) → objs s !! p = Some e ∧ key e = k.
Proof.
  unfold slookup. intros (q & Hq & Hf)%bind_Some. apply sget_sound in Hq as (f & Hq & Hk).
  rewrite Hq in Hf. naive_solver.
Qed.

Lemma slookup_None s k : slookup k s = None → sget k s = None.
Proof.
  unfold slookup. destruct (sget k s) as [p|] eqn:Hg; [|done].
  apply sget_sound in Hg as (e & He & _). cbn. by rewrite He.
Qed.

Lemma slookup_view s k : store_ok s → view s !! k = snd <$> slookup k s.
Proof.
  intros Hok. rewrite view_sget by done. unfold slookup.
  destruct (sget k s) as [p|]; simpl; [|done]. by destruct (objs s !! p).
Qed.

(** ** Updates *)

(** Adding an object, whatever the keys. *)
Lemma sadd_rep ok p e s :
  Rep (tbl s) ((hash ∘ key) <$> objs s) → ptr_ok p → objs s !! p = None →
  let '(b, s') := sadd ok p e s in
  (b = false → ok = false) ∧ objs s' = (if b then <[p:=e]> (objs s) else objs s) ∧
  Rep (tbl s') ((hash ∘ key) <$> objs s').
Proof.
  intros Hrep Hpok Hp. unfold sadd. set (s1 := Store (tbl s) (<[p:=e]> (objs s))).
  pose proof (rep_add (tbl s) ((hash ∘ key) <$> objs s) ok (rehash s1) (hash (key e)) p
    Hrep Hpok) as Hadd.
  destruct (htable_add ok (rehash s1) (hash (key e)) p (tbl s)) as [b t].
  assert (if b then Rep t (<[p:=hash (key e)]> ((hash ∘ key) <$> objs s))
          else ok = false ∧ Rep t ((hash ∘ key) <$> objs s)) as Hrep'.
  { apply Hadd; [by rewrite lookup_fmap, Hp|unfold rehash; simpl; by rewrite lookup_insert_eq|].
    intros q k Hq. apply rehash_fmap. simpl. rewrite fmap_insert, lookup_insert_ne; [done|].
    intros ->. by rewrite lookup_fmap, Hp in Hq. }
  destruct b; simpl; [by rewrite fmap_insert|]. by destruct Hrep' as [-> ?].
Qed.

Lemma sadd_spec ok p e s :
  store_ok s → ptr_ok p → objs s !! p = None → sget (key e) s = None →
  let '(b, s') := sadd ok p e s in
  store_ok s' ∧ (b = false → ok = false) ∧
  objs s' = if b then <[p:=e]> (objs s) else objs s.
Proof.
  intros Hok Hpok Hp Hk. pose proof (sadd_rep ok p e s (st_rep _ Hok) Hpok Hp) as Hadd.
  destruct (sadd ok p e s) as [b s']. destruct Hadd as (Hb & Ho & Hrep).
  split_and!; [|done|done]. split; [done|]. rewrite Ho. destruct b; [|apply (st_inj _ Hok)].
  intros q r f g. rewrite !lookup_insert_Some.
  intros [[<- <-]|[? Hf]] [[<- <-]|[? Hg]] Hkey; [done|..|by eapply (st_inj _ Hok)].
  - by destruct (proj1 (sget_None s (key e) Hok) Hk r g).
  - by destruct (proj1 (sget_None s (key e) Hok) Hk q f).
Qed.

Lemma sset_ok p e f s :
  store_ok s → objs s !! p = Some e → key f = key e → store_ok (sset p f s).
Proof.
  intros Hok Hp Hk. split; simpl.
  - rewrite fmap_insert. simpl. rewrite Hk, insert_id; [apply Hok|].
    by rewrite lookup_fmap, Hp.
  - intros q r g h. rewrite !lookup_insert_Some.
    intros [[<- <-]|[Hne Hg]] [[<- <-]|[Hne' Hh]] Hkey; [done|..|by eapply (st_inj _ Hok)].
    + destruct Hne'. eapply (st_inj _ Hok); [exact Hp|exact Hh|congruence].
    + destruct Hne. eapply (st_inj _ Hok); [exact Hp|exact Hg|congruence].
Qed.

Lemma store_delete_ok p s t :
  store_ok s → Rep t (delete p ((hash ∘ key) <$> objs s)) →
  store_ok (Store t (delete p (objs s))).
Proof.
  intros Hok Hrep. split; simpl; [by rewrite fmap_delete|].
  intros q r g h [_ Hg]%lookup_delete_Some [_ Hh]%lookup_delete_Some.
  by apply (st_inj _ Hok).
Qed.

Lemma sdel_ok p s : store_ok s → is_Some (objs s !! p) → store_ok (sdel p s).
Proof.
  intros Hok [e Hp]. apply store_delete_ok; [done|].
  pose proof (rep_del (tbl s) _ (rehash s p) p (st_rep _ Hok)) as Hdel.
  destruct (htable_del _ _ _). simpl. apply Hdel.
  rewrite lookup_fmap. unfold rehash. by rewrite Hp.
Qed.

Lemma sweep_step_ok drop s p : store_ok s → store_ok (sweep_step drop s p).
Proof.
  intros Hok. unfold sweep_step. destruct (objs s !! p) as [e|] eqn:Hp; [|done].
  destruct (drop e); [|done]. apply store_delete_ok; [done|].
  apply rep_delval; [apply Hok|]. by rewrite lookup_fmap, Hp.
Qed.

Lemma sweep_step_objs drop s p q :
  objs (sweep_step drop s p) !! q =
    if decide (p = q) then (objs s !! q ≫= λ e, if drop e then None else Some e)
    else objs s !! q.
Proof.
  unfold sweep_step. case_decide as Hd; [subst q|].
  - destruct (objs s !! p) as [e|] eqn:Hp; simpl; [|done].
    destruct (drop e); simpl; [by rewrite lookup_delete_eq|done].
  - destruct (objs s !! p) as [e|]; [|done]. destruct (drop e); simpl; [|done].
    by rewrite lookup_delete_ne.
Qed.

Lemma sweep_foldl drop ps s :
  store_ok s →
  store_ok (foldl (sweep_step drop) s ps) ∧
  ∀ q, objs (foldl (sweep_step drop) s ps) !! q =
    if decide (q ∈ ps) then (objs s !! q ≫= λ e, if drop e then None else Some e)
    else objs s !! q.
Proof.
  revert s. induction ps as [|p ps IH]; intros s Hok; simpl; [by split|].
  destruct (IH (sweep_step drop s p) (sweep_step_ok drop s p Hok)) as [Hok' Hlook].
  split; [done|]. intros q. rewrite Hlook, sweep_step_objs.
  destruct (objs s !! q) as [e|]; simpl; repeat case_decide; simpl; try done.
  all: try (destruct (drop e) eqn:Ed; simpl; rewrite ?Ed; done).
  all: set_solver.
Qed.

(** Sweeping keeps the store in order and removes exactly what [drop]
    asks for. *)
Lemma sweep_spec drop s :
  store_ok s →
  store_ok (sweep drop s) ∧
  objs (sweep drop s) = filter (λ pe, drop pe.2 = false) (objs s).
Proof.
  intros Hok. destruct (sweep_foldl drop (htable_walk (tbl s)) s Hok) as [Hok' Hlook].
  split; [done|]. apply map_eq. intros q. unfold sweep. rewrite Hlook, map_lookup_filter.
  destruct (objs s !! q) as [e|] eqn:Hq; simpl.
  - rewrite decide_True.
    + by case_guard; destruct (drop e).
    + apply (rep_walk _ _ _ (st_rep _ Hok)). by rewrite lookup_fmap, Hq.
  - by case_decide.
Qed.

(** ** Updates of the view *)

Lemma view_insert s s' p e :
  store_ok s → store_ok s' → objs s' = <[p:=e]> (objs s) →
  (∀ f, objs s !! p = Some f → key f = key e) →
  view s' = <[key e:=e]> (view s).
Proof.
  intros Hok Hok' Ho Hp. apply map_eq. intros k. apply option_eq. intros f.
  rewrite view_Some, lookup_insert_Some, (view_Some s) by done. rewrite Ho. split.
  - intros (q & [[<- <-]|[Hne Hq]]%lookup_insert_Some & <-); [by left|right].
    split; [|by eauto]. intros Hk. apply Hne.
    eapply (st_inj _ Hok' p q e f); [..|done]; rewrite Ho;
      [apply lookup_insert_eq|by rewrite lookup_insert_ne].
  - intros [[<- <-]|[Hne (q & Hq & <-)]].
    + exists p. by rewrite lookup_insert_eq.
    + exists q. split; [|done]. rewrite lookup_insert_ne; [done|]. intros <-.
      by apply Hne, eq_sym, Hp.
Qed.

Lemma view_delete s s' p e :
  store_ok s → store_ok s' → objs s' = delete p (objs s) → objs s !! p = Some e →
  view s' = delete (key e) (view s).
Proof.
  intros Hok Hok' Ho Hp. apply map_eq. intros k. apply option_eq. intros f.
  rewrite view_Some, lookup_delete_Some, (view_Some s) by done. rewrite Ho. split.
  - intros (q & [Hne Hq]%lookup_delete_Some & <-). split; [|by eauto].
    intros Hk. apply Hne. by eapply (st_inj _ Hok).
  - intros [Hne (q & Hq & <-)]. exists q. split; [|done].
    rewrite lookup_delete_ne; [done|]. intros <-. congruence.
Qed.

Lemma view_filter s s' (P : E → Prop) `{∀ e, Decision (P e)} :
  store_ok s → store_ok s' → objs s' = filter (λ pe, P pe.2) (objs s) →
  view s' = filter (λ ke, P ke.2) (view s).
Proof.
  intros Hok Hok' Ho. apply map_eq. intros k. apply option_eq. intros f.
  rewrite view_Some, map_lookup_filter_Some, (view_Some s) by done. rewrite Ho.
  setoid_rewrite map_lookup_filter_Some. naive_solver.
Qed.

(** ** Walking over the store *)

Lemma walk_pairs s :
  store_ok s →
  omap (λ p, (p,.) <$> objs s !! p) (htable_walk (tbl s)) ≡ₚ map_to_list (objs s).
Proof.
  intros [Hrep _]. apply NoDup_Permutation; [|apply NoDup_map_to_list|].
  - pose proof (rep_walk_nodup _ _ Hrep) as Hnd.
    induction Hnd as [|p ps Hp _ IH]; simpl; [constructor|].
    destruct (objs s !! p) as [e|] eqn:He; simpl; [|done]. constructor; [|done].
    intros (q & Hq & Hf)%list_elem_of_omap. apply fmap_Some in Hf as (? & _ & [= <- _]). done.
  - intros [p e]. rewrite list_elem_of_omap, elem_of_map_to_list. split.
    + intros (q & _ & Hf). apply fmap_Some in Hf as (f & Hf & [= -> ->]). done.
    + intros Hp. exists p. rewrite Hp. split; [|done].
      apply (rep_walk _ _ _ Hrep). by rewrite lookup_fmap, Hp.
Qed.

Lemma walk_length s :
  store_ok s → Z.of_nat (length (htable_walk (tbl s))) = htable_elems (tbl s).
Proof.
  intros Hok. pose proof (st_rep _ Hok) as Hrep. rewrite (rep_elems _ _ Hrep). f_equal.
  rewrite map_size_fmap, <- length_map_to_list, <- (walk_pairs s Hok).
  assert (Forall (λ p, is_Some (objs s !! p)) (htable_walk (tbl s))) as Hall.
  { apply Forall_forall. intros p Hp. apply (rep_walk _ _ _ Hrep) in Hp.
    rewrite lookup_fmap in Hp. by apply fmap_is_Some in Hp. }
  induction Hall as [|p ps [e He] _ IH]; simpl; [done|]. rewrite He. simpl. by rewrite IH.
Qed.

(** What the walk finds are the values of the view, in some order. *)
Lemma walk_view s :
  store_ok s →
  omap (λ p, objs s !! p) (htable_walk (tbl s)) ≡ₚ (map_to_list (view s)).*2.
Proof.
  intros Hok.
  assert (omap (λ p, objs s !! p) (htable_walk (tbl s)) =
          (omap (λ p, (p,.) <$> objs s !! p) (htable_walk (tbl s))).*2) as ->.
  { induction (htable_walk (tbl s)) as [|p ps IH]; simpl; [done|].
    destruct (objs s !! p); simpl; [by f_equal|done]. }
  rewrite (walk_pairs s Hok). unfold view. rewrite map_to_list_to_map.
  - by rewrite <- list_fmap_compose.
  - by apply view_keys_nodup.
Qed.
End store.
