(* ===== verification/CString.v ===== *)
(** * C strings (gl/c-ctype.h, gl/c-strcasecmp.c and strlcpy)

    A C string is a [string] without the terminating NUL.  Characters are
    read as unsigned chars, [Z] between 0 and 255. *)

From S2P Require Import Prelude.

Definition uchar (c : Ascii.ascii) : Z := Z.of_N (Ascii.N_of_ascii c).

(** The character [s[0]], NUL when the string is empty. *)
Definition char0 (s : string) : Z :=
  match s with EmptyString => 0 | String c _ => uchar c end.

Fixpoint to_bytes (s : string) : list Z :=
  match s with EmptyString => [] | String c r => uchar c :: to_bytes r end.

Fixpoint of_bytes (l : list Z) : string :=
  match l with [] => EmptyString | c :: r => String (Ascii.ascii_of_N (Z.to_N c)) (of_bytes r) end.

(** The C string at the start of a buffer: the bytes before the first NUL. *)
Fixpoint cstr (l : list Z) : list Z :=
  match l with [] => [] | c :: r => if c =? 0 then [] else c :: cstr r end.

(** A string that can be the content of a C string. *)
Definition cstring (s : string) : Prop := Forall (λ c, c ≠ 0) (to_bytes s).

Definition c_tolower (c : Z) : Z := if (65 <=? c) && (c <=? 90) then c + 32 else c.

Definition c_isspace (c : Z) : bool := (c =? 32) || ((9 <=? c) && (c <=? 13)).

Fixpoint c_strcasecmp (s1 s2 : string) : Z :=
  match s1, s2 with
  | EmptyString, _ => 0 - c_tolower (char0 s2)
  | String a r1, EmptyString => c_tolower (uchar a) - 0
  | String a r1, String b r2 =>
    let c1 := c_tolower (uchar a) in
    let c2 := c_tolower (uchar b) in
    if (c1 =? 0) || negb (c1 =? c2) then c1 - c2 else c_strcasecmp r1 r2
  end.

(** [strlcpy(dst, src, siz)] for [siz > 0]: what [dst] holds afterwards. *)
Definition strlcpy (siz : nat) (src : string) : string := String.substring 0 (siz - 1) src.

(** [if (req != NULL) strlcpy(field, req, siz)]. *)
Definition strlcpy_opt (siz : nat) (req : option string) (old : string) : string :=
  match req with Some s => strlcpy siz s | None => old end.

Lemma uchar_range c : 0 ≤ uchar c < 256.
Proof.
  unfold uchar. pose proof (Ascii.N_ascii_bounded c). lia.
Qed.

Lemma uchar_inj a b : uchar a = uchar b → a = b.
Proof.
  unfold uchar. intros H%N2Z.inj.
  by rewrite <- (Ascii.ascii_N_embedding a), <- (Ascii.ascii_N_embedding b), H.
Qed.

Lemma to_bytes_bytes s : bytes (to_bytes s).
Proof. induction s; constructor; [apply uchar_range|done]. Qed.

Lemma to_bytes_inj s t : to_bytes s = to_bytes t → s = t.
Proof.
  revert t. induction s as [|a s IH]; intros [|b t] [=]; [done|].
  f_equal; [by apply uchar_inj|by apply IH].
Qed.

Lemma of_to_bytes s : of_bytes (to_bytes s) = s.
Proof.
  induction s as [|c s IH]; simpl; [done|]. rewrite IH. f_equal.
  unfold uchar. by rewrite N2Z.id, Ascii.ascii_N_embedding.
Qed.

Lemma to_bytes_length s : length (to_bytes s) = String.length s.
Proof. induction s; simpl; auto. Qed.

Lemma c_tolower_zero c : c_tolower c = 0 ↔ c = 0.
Proof. unfold c_tolower. bool_cases; lia. Qed.

(** Two C strings compare equal exactly when they differ in the case of
    ASCII letters only. *)
Lemma c_strcasecmp_eq s t : cstring s → cstring t →
  c_strcasecmp s t = 0 ↔ c_tolower <$> to_bytes s = c_tolower <$> to_bytes t.
Proof.
  unfold cstring. revert t.
  induction s as [|a s IH]; intros [|b t] Hs Ht; simpl in *.
  - done.
  - apply Forall_cons in Ht as [Hb Ht]. split; [|done]. intros E.
    destruct Hb. apply c_tolower_zero. lia.
  - apply Forall_cons in Hs as [Ha Hs]. split; [|done]. intros E.
    destruct Ha. apply c_tolower_zero. lia.
  - apply Forall_cons in Hs as [Ha Hs]. apply Forall_cons in Ht as [Hb Ht].
    destruct (Z.eqb_spec (c_tolower (uchar a)) 0) as [E|_]; [by destruct Ha; apply c_tolower_zero|].
    destruct (Z.eqb_spec (c_tolower (uchar a)) (c_tolower (uchar b))) as [E|E]; simpl.
    + rewrite IH, E by done. split; [intros ?; by f_equal|by intros [=]].
    + split; [lia|]. intros [=]. lia.
Qed.

Lemma strlcpy_length n s : (String.length (strlcpy n s) ≤ n - 1)%nat.
Proof.
  unfold strlcpy. revert s. generalize (n - 1)%nat as m. clear n.
  induction m as [|m IH]; intros [|c s]; simpl; [lia..|]. specialize (IH s). lia.
Qed.

Lemma strlcpy_fits n s : (String.length s < n)%nat → strlcpy n s = s.
Proof.
  unfold strlcpy. intros Hl. assert (String.length s ≤ n - 1)%nat as Hm by lia. clear Hl.
  revert s Hm. generalize (n - 1)%nat as m. clear n.
  induction m as [|m IH]; intros [|c s] Hm; simpl in *; [done|lia|done|].
  rewrite IH; [done|lia].
Qed.
