(* ===== verification/CText.v ===== *)
(** * Text functions of the C library

    Characters in a string, given by what follows a pointer, and lines of a
    file. *)

From S2P Require Import Prelude CString.

(** The position of the first [c] from [p] on, before the NUL. *)
Fixpoint strchr_at (l : list Z) (c : Z) : option nat :=
  match l with
  | [] => None
  | x :: l' => if x =? 0 then None else if x =? c then Some O else S <$> strchr_at l' c
  end.

(** The position of the last one. *)
Fixpoint strrchr_at (l : list Z) (c : Z) : option nat :=
  match l with
  | [] => None
  | x :: l' =>
    if x =? 0 then None else
    match strrchr_at l' c with
    | Some k => Some (S k)
    | None => if x =? c then Some O else None
    end
  end.

(** [fgets]: at most [n] bytes, up to a newline, and the rest. *)
Fixpoint fgets (n : nat) (f : list Z) : list Z * list Z :=
  match n, f with
  | S n', c :: f' => if c =? 10 then ([c], f') else let '(l, r) := fgets n' f' in (c :: l, r)
  | _, _ => ([], f)
  end.

(** [getline]: up to and with the newline, and the rest. *)
Fixpoint getline (f : list Z) : list Z * list Z :=
  match f with
  | [] => ([], [])
  | c :: f' => if c =? 10 then ([c], f') else let '(l, r) := getline f' in (c :: l, r)
  end.

Fixpoint getlines (fuel : nat) (f : list Z) : list (list Z) :=
  match fuel, f with
  | S fuel', _ :: _ => let '(l, r) := getline f in l :: getlines fuel' r
  | _, _ => []
  end.
Definition file_lines (f : list Z) : list (list Z) := getlines (length f) f.

(** [while (c_isspace(p[len-1])) len--]; [len] is unsigned, so an index
    before [p] is far behind it. *)
Fixpoint trim_len (p : list Z) (len : nat) : cres nat :=
  match len with
  | O => UB
  | S k => c ← aread p (Z.of_nat k); if c_isspace c then trim_len p k else Ok len
  end.

Lemma strchr_group g sep rest : Forall (λ c, c ≠ 0 ∧ c ≠ sep) g →
  strchr_at (g ++ rest) sep = (λ k, length g + k)%nat <$> strchr_at rest sep.
Proof.
  intros Hg. induction Hg as [|c g [? ?] _ IH]; simpl; [by destruct (strchr_at rest sep)|].
  destruct (Z.eqb_spec c 0), (Z.eqb_spec c sep); try done. rewrite IH. by destruct (strchr_at rest sep).
Qed.

