(* ===== verification/SecModData.v ===== *)
(** * The security module: data (src/sec-mod.h, src/sec-mod-auth.h, src/vhost.h)

    The types of the security module: client entries, virtual hosts, the
    interfaces of the authentication and accounting modules, the messages and
    the state of the process.  What the module obtains from outside (time,
    random numbers, memory, the result of a send) is an argument of each
    handler, the record [ext]. *)

From S2P Require Import Prelude CString Htable Store.

(** What the security module is given by code outside it: the types of the
    contexts its authentication modules keep, and the functions it calls. *)
Class SecModEnv := {
  auth_ctx_t : Type;
  vhost_ctx_t : Type;
  (** ccan's [hash_any(data, len, 0)]; any function will do. *)
  hash_any : list Z → Z;
  (** nettle's SHA-1 digest and base64 encoding. *)
  sha1 : list Z → list Z;
  base64_encode : list Z → string;
}.

Definition SID_SIZE : Z := 32.
Definition AUTH_SLACK_TIME : Z := 15.
Definition MAX_USERNAME_SIZE : nat := 64.
Definition MAX_GROUPNAME_SIZE : nat := MAX_USERNAME_SIZE.
Definition MAX_AGENT_NAME : nat := 64.
Definition MAX_IP_STR : nat := 46.
Definition MAX_GROUPS : nat := 32.

Definition ERR_BAD_COMMAND : Z := -2.
Definition ERR_AUTH_FAIL : Z := -3.
Definition ERR_AUTH_CONTINUE : Z := -4.

Definition AUTH_TYPE_CERTIFICATE : Z := Z.shiftl 1 3.

Definition REASON_USER_DISCONNECT : Z := 2.
Definition REASON_SERVER_DISCONNECT : Z := 3.
Definition REASON_SESSION_TIMEOUT : Z := 7.

(** [PS_AUTH_*], in the order of the enumeration. *)
Inductive ps_auth :=
  PS_AUTH_INACTIVE | PS_AUTH_FAILED | PS_AUTH_INIT | PS_AUTH_CONT | PS_AUTH_COMPLETED.

#[global] Instance ps_auth_eq_dec : EqDecision ps_auth.
Proof. solve_decision. Defined.

Definition ps_num (s : ps_auth) : Z :=
  match s with
  | PS_AUTH_INACTIVE => 0 | PS_AUTH_FAILED => 1 | PS_AUTH_INIT => 2
  | PS_AUTH_CONT => 3 | PS_AUTH_COMPLETED => 4
  end.

Inductive auth_rep := AUTH_REP_OK | AUTH_REP_MSG | AUTH_REP_FAILED.

#[global] Instance auth_rep_eq_dec : EqDecision auth_rep.
Proof. solve_decision. Defined.

Record stats_st := Stats { bytes_in : Z; bytes_out : Z; uptime : Z }.

Record acct_info_st := AcctInfo {
  username : string; groupname : string; safe_id : string; remote_ip : string;
  user_agent : string; our_ip : string; ipv4 : string; ipv6 : string; acct_id : Z;
}.

Record auth_init_info := AuthInitInfo {
  ai_username : option string; ai_ip : string; ai_our_ip : option string;
  ai_user_agent : option string; ai_id : Z;
}.

Section types.
Context `{SecModEnv}.

(** [struct auth_mod_st]: each call returns its code and what it leaves in
    the context, and what it writes through its pointer arguments. *)
Record auth_mod_st := AuthMod {
  allows_retries : bool;
  auth_init : option vhost_ctx_t → auth_init_info → Z * option auth_ctx_t;
  (** the prompt and the number of the password it asks for *)
  auth_msg : option auth_ctx_t → Z * option auth_ctx_t * (option string * Z);
  auth_pass : option auth_ctx_t → string → Z * option auth_ctx_t;
  auth_group : option (option auth_ctx_t → option string → string →
                       Z * option auth_ctx_t * string);
  auth_user : option auth_ctx_t → string → option auth_ctx_t * string;
}.

(** [struct acct_mod_st]; [NULL] callbacks are [None] or [false]. *)
Record acct_mod_st := AcctMod {
  open_session : option (Z → acct_info_st → list Z → Z);
  has_close_session : bool;
  has_session_stats : bool;
}.

Record auth_struct_st := AuthStruct {
  as_enabled : bool; as_type : Z;
  as_amod : option auth_mod_st; as_ctx : option vhost_ctx_t;
}.

(** [vhost_cfg_st] with the parts of its configuration the module reads. *)
Record vhost_cfg_st := VHost {
  vhost_name : option string;
  vhost_auth : list auth_struct_st;
  vhost_acct : option acct_mod_st;
  get_sup_config : option (acct_info_st → Z);
  cookie_timeout : Z;
  persistent_cookies : bool;
  predictable_ips : bool;
  max_ban_score : Z;
  ban_points_wrong_password : Z;
  stats_reset_time : Z;
  cert_user_oid : option string;
  cert_group_oid : option string;
}.

Record client_entry_st := ClientEntry {
  sid : list Z;
  auth_ctx : option auth_ctx_t;
  session_is_open : bool;
  in_use : Z;
  tls_auth_ok : bool;
  msg_str : option string;
  passwd_counter : Z;
  saved_stats : stats_st;
  stats : stats_st;
  status : ps_auth;
  created : Z;
  exptime : Z;
  auth_type : Z;
  discon_reason : Z;
  acct_info : acct_info_st;
  req_group_name : string;
  cert_group_names : list string;
  cert_user_name : string;
  module : option auth_mod_st;
  vhost_auth_ctx : option vhost_ctx_t;
  vhost : vhost_cfg_st;
}.

Definition IS_CLIENT_ENTRY_EXPIRED (e : client_entry_st) (now : Z) : bool :=
  negb (exptime e =? -1) && (exptime e <=? now) && (in_use e =? 0).

(** A cookie as [occtl] sees it. *)
Record cookie_int_msg := CookieMsg {
  ck_safe_id : string; ck_session_is_open : bool; ck_tls_auth_ok : bool;
  ck_created : Z; ck_expires : Z; ck_username : string; ck_groupname : string;
  ck_user_agent : string; ck_remote_ip : string; ck_status : ps_auth;
  ck_in_use : Z; ck_vhost : string;
}.

(** What the module does to the outside: messages it tries to send and
    calls of the accounting and authentication modules. *)
Inductive event :=
| EvBanIp (ip : string) (score : Z) (sid : list Z)
| EvAuthReply (rep : auth_rep) (sid : list Z) (user : string) (msg : option string) (counter : Z)
| EvSessionReply (rep : auth_rep) (sid : list Z) (user group ip : string) (tls : bool)
    (vhost : option string) (seed : Z)
| EvCliStats (st : option (Z * Z * Z))
| EvCookies (l : list cookie_int_msg)
| EvSecmStats (client_entries failures avg max : Z)
| EvAcctOpen (sid : list Z)
| EvAcctClose (sid : list Z) (st : stats_st) (reason : Z)
| EvAcctStats (sid : list Z) (st : stats_st)
| EvAuthDeinit (sid : list Z).

(** The answers of the outside during one command: the i-th [time(0)], the
    i-th allocation, the i-th random SID, the random seed, the result of the
    i-th [send_msg] and whether the hash table can grow. *)
Record ext := Ext {
  now : nat → Z;
  mem : nat → option ptr;
  rnd_sid : nat → option (list Z);
  rnd_seed : option Z;
  send : nat → Z;
  calloc_ok : bool;
}.
End types.

Section state.
Context {T : Type} `{HTable T, SecModEnv}.

(** [struct sec_mod_st].  The list of virtual hosts is [vconfig] followed
    by the default one, its tail.  [log] is the sequence of what was done
    to the outside, the latest first. *)
Record sec_mod_st := SecMod {
  client_db : store T client_entry_st;
  vconfig : list vhost_cfg_st;
  default_vhost : vhost_cfg_st;
  auth_failures : Z;
  max_auth_time : Z;
  avg_auth_time : Z;
  total_authentications : Z;
  last_stats_reset : Z;
  log : list event;
}.

Definition vhost_is (name : string) (v : vhost_cfg_st) : bool :=
  match vhost_name v with Some m => c_strcasecmp m name =? 0 | None => false end.

Definition find_vhost (sec : sec_mod_st) (name : option string) : vhost_cfg_st :=
  match name with
  | None => default_vhost sec
  | Some n =>
    match List.find (vhost_is n) (vconfig sec ++ [default_vhost sec]) with
    | Some v => v
    | None => default_vhost sec
    end
  end.

Definition emit (ev : event) (sec : sec_mod_st) : sec_mod_st :=
  {| sec with log := ev :: log sec |}.
End state.
Arguments sec_mod_st : clear implicits.
Arguments sec_mod_st T {_}.
