(* ===== verification/SecModDb.v ===== *)
(** * The client database of the security module (src/sec-mod-db.c)

    Client entries are heap objects indexed by their session identifier
    (SID) in a hash table.  The operations here create, find, expire and
    remove them. *)

From S2P Require Import Prelude CString Htable Store SecModData.

Section db.
Context {T : Type} `{HT : HTable T, Env : SecModEnv}.
Implicit Types (sec : sec_mod_st T) (e : client_entry_st) (x : ext).

Definition find_client_entry sec (k : list Z) : option ptr :=
  sget sid hash_any k (client_db sec).

Definition sec_mod_client_db_elems sec : Z := wrap 32 (htable_elems (tbl (client_db sec))).

(** The entry at a pointer, the pointer found with its entry (there always
    is one), and a write to an entry. *)
Definition entry sec (p : ptr) : option client_entry_st := objs (client_db sec) !! p.
Definition lookup_entry sec (k : list Z) : option (ptr * client_entry_st) :=
  slookup sid hash_any k (client_db sec).
Definition set_entry (p : ptr) e sec : sec_mod_st T :=
  {| sec with client_db := sset p e (client_db sec) |}.

Definition calc_safe_id (data : list Z) : string := base64_encode (sha1 data).

(** The loop of [new_client_entry]: [n] is [retries + 1]. *)
Fixpoint choose_sid x sec (i n : nat) : option (list Z) :=
  match rnd_sid x i with
  | None => None
  | Some k =>
    match find_client_entry sec k with
    | None => Some k
    | Some _ => match n with O => None | S n' => choose_sid x sec (S i) n' end
    end
  end.

Definition zero_stats : stats_st := Stats 0 0 0.

(** The entry once the SID is chosen, at the call of [htable_add]. *)
Definition fresh_entry (v : vhost_cfg_st) (ip : string) (pid : Z) (k : list Z) (t : Z)
    : client_entry_st := {|
  sid := k; auth_ctx := None; session_is_open := false; in_use := 0;
  tls_auth_ok := false; msg_str := None; passwd_counter := 0;
  saved_stats := zero_stats; stats := zero_stats; status := PS_AUTH_INACTIVE;
  created := t; exptime := t + cookie_timeout v + AUTH_SLACK_TIME;
  auth_type := 0; discon_reason := 0;
  acct_info := {|
    username := ""; groupname := ""; safe_id := calc_safe_id k;
    remote_ip := strlcpy MAX_IP_STR ip; user_agent := ""; our_ip := "";
    ipv4 := ""; ipv6 := ""; acct_id := pid |};
  req_group_name := ""; cert_group_names := []; cert_user_name := "";
  module := None; vhost_auth_ctx := None; vhost := v |}.

Definition new_client_entry x sec (v : vhost_cfg_st) (ip : string) (pid : Z)
    : option ptr * sec_mod_st T :=
  match mem x 0 with
  | None => (None, sec)
  | Some p =>
    match choose_sid x sec 0 4 with
    | None => (None, sec)
    | Some k =>
      let e := fresh_entry v ip pid k (now x 0) in
      let '(b, db) := sadd sid hash_any (calloc_ok x) p e (client_db sec) in
      (if b then Some p else None, {| sec with client_db := db |})
    end
  end.

(** [sec_auth_user_deinit] of src/sec-mod-auth.c. *)
Definition sec_auth_user_deinit e sec : sec_mod_st T :=
  let closes := match vhost_acct (vhost e) with
                | Some a => has_close_session a && session_is_open e
                | None => false end in
  let sec := if closes then emit (EvAcctClose (sid e) (saved_stats e) (discon_reason e)) sec
             else sec in
  match auth_ctx e, module e with
  | Some _, Some _ => emit (EvAuthDeinit (sid e)) sec
  | _, _ => sec
  end.

Definition cleanup_step (t : Z) sec (p : ptr) : sec_mod_st T :=
  match entry sec p with
  | Some e =>
    if IS_CLIENT_ENTRY_EXPIRED e t then
      sec_auth_user_deinit e
        {| sec with client_db :=
             Store (htable_delval p (tbl (client_db sec))) (delete p (objs (client_db sec))) |}
    else sec
  | None => sec
  end.

Definition cleanup_client_entries x sec : sec_mod_st T :=
  foldl (cleanup_step (now x 0)) sec (htable_walk (tbl (client_db sec))).

Definition del_client_entry (p : ptr) sec : sec_mod_st T :=
  match entry sec p with
  | Some e =>
    sec_auth_user_deinit e {| sec with client_db := sdel sid hash_any p (client_db sec) |}
  | None => sec
  end.

(** The session is to be invalidated at once. *)
Definition invalidates e : bool :=
  negb (persistent_cookies (vhost e)) &&
  ((discon_reason e =? REASON_SERVER_DISCONNECT) ||
   (discon_reason e =? REASON_SESSION_TIMEOUT) ||
   (session_is_open e && (discon_reason e =? REASON_USER_DISCONNECT))).

(** The expiration time of an entry that is kept. *)
Definition expires_at (t : Z) e : Z :=
  if discon_reason e =? REASON_USER_DISCONNECT then
    if negb (persistent_cookies (vhost e)) || (exptime e <=? t + AUTH_SLACK_TIME)
    then t + AUTH_SLACK_TIME else exptime e
  else t + cookie_timeout (vhost e) + AUTH_SLACK_TIME.

Definition expire_client_entry x (p : ptr) sec : sec_mod_st T :=
  match entry sec p with
  | None => sec
  | Some e0 =>
    let e := if 0 <? in_use e0 then {| e0 with in_use := in_use e0 - 1 |} else e0 in
    let sec := set_entry p e sec in
    if in_use e =? 0 then
      if invalidates e then del_client_entry p sec
      else set_entry p {| e with exptime := expires_at (now x 0) e |} sec
    else sec
  end.
End db.
