(* ===== verification/SecModAuth.v ===== *)
(** * The authentication state machine (src/sec-mod-auth.c, src/sec-mod-cookies.c)

    The handlers of the commands a worker or the main process sends to the
    security module about a client.  A handler looks its entry up, works on
    the copy [e] of it and writes the entry back at its pointer where it
    returns; nothing else looks at the entry in between.  Every handler
    returns its code and the state it leaves. *)

From S2P Require Import Prelude CString Htable Store SecModData SecModDb.

(** ** Messages (src/ipc.proto), with what the handlers read of them *)

Record SecAuthInitMsg := {
  ia_vhost : option string; ia_ip : string; ia_auth_type : Z;
  ia_user_name : option string; ia_our_ip : option string; ia_user_agent : option string;
  ia_group_name : option string; ia_cert_user_name : option string;
  ia_cert_group_names : list string; ia_tls_auth_ok : bool;
}.

Record SecAuthContMsg := { ct_sid : list Z; ct_password : option string }.

Record SecmSessionOpenMsg := {
  so_sid : list Z; so_ipv4 : option string; so_ipv6 : option string }.

Record SecmSessionCloseMsg := {
  sc_sid : list Z; sc_uptime : option Z; sc_bytes_in : option Z; sc_bytes_out : option Z }.

Record BanIpReplyMsg := { br_sid : list Z; br_reply : auth_rep }.

Record CliStatsMsg := {
  cs_sid : list Z; cs_bytes_in : Z; cs_bytes_out : Z; cs_uptime : Z;
  cs_discon_reason : option Z; cs_remote_ip : option string;
  cs_ipv4 : option string; cs_ipv6 : option string }.

Section auth.
Context {T : Type} `{HT : HTable T, Env : SecModEnv}.
Implicit Types (sec : sec_mod_st T) (e : client_entry_st) (x : ext).

Definition set_status e (s : ps_auth) : client_entry_st := {| e with status := s |}.
Definition set_info e (i : acct_info_st) : client_entry_st := {| e with acct_info := i |}.

Definition set_groupname e (g : string) : client_entry_st :=
  let i := acct_info e in set_info e {| i with groupname := g |}.

Definition sec_mod_add_score_to_ip x sec e (ip : string) (points : Z) : sec_mod_st T :=
  if max_ban_score (vhost e) =? 0 then sec else
  match mem x 1 with
  | None => sec
  | Some _ => emit (EvBanIp ip points (sid e)) sec
  end.

(** [sec->*] are 32 bits wide and [secs] is a signed 64 bit [time_t]; the
    product wraps at 32 bits, the sum and the quotient are 64 bits wide. *)
Definition update_auth_time_stats sec (secs : Z) : sec_mod_st T :=
  if secs <? 0 then sec else
  let total := u32 (total_authentications sec + 1) in
  let sec := {| sec with total_authentications := total |} in
  if total =? 0 then {| sec with avg_auth_time := 0; max_auth_time := 0 |} else
  let sec := if max_auth_time sec <? secs then {| sec with max_auth_time := u32 secs |}
             else sec in
  {| sec with avg_auth_time :=
       u32 ((u32 (avg_auth_time sec * u32 (total - 1)) + secs) `quot` total) |}.

Definition send_sec_auth_reply x sec e (r : auth_rep) : Z * client_entry_st * sec_mod_st T :=
  let sec :=
    match r with
    | AUTH_REP_OK =>
      emit (EvAuthReply AUTH_REP_OK (sid e) (username (acct_info e)) (msg_str e) 0)
        (update_auth_time_stats sec (now x 1 - created e))
    | _ =>
      emit (EvAuthReply AUTH_REP_FAILED [] "" None 0)
        {| sec with auth_failures := u64 (auth_failures sec + 1) |}
    end in
  let ret := send x 1 in
  if ret <? 0 then (ret, e, sec) else (0, {| e with msg_str := None |}, sec).

Definition send_sec_auth_reply_msg x sec e : Z * client_entry_st * sec_mod_st T :=
  (send x 1, {| e with msg_str := None |},
   emit (EvAuthReply AUTH_REP_MSG (sid e) "" (msg_str e) (passwd_counter e)) sec).

Definition has_cert e : bool := negb (Z.land (auth_type e) AUTH_TYPE_CERTIFICATE =? 0).

Definition check_cert_user_group_status e : Z * client_entry_st :=
  if has_cert e then
    if negb (tls_auth_ok e) then (-1, e) else
    let i := acct_info e in
    if bool_decide (username i = ""%string) && bool_decide (is_Some (cert_user_oid (vhost e))) then
      if bool_decide (cert_user_name e = ""%string) then (-1, e) else
      let i := {| i with username := strlcpy (MAX_USERNAME_SIZE * 2) (cert_user_name e) |} in
      let i :=
        match cert_group_names e with
        | g :: _ =>
          if bool_decide (is_Some (cert_group_oid (vhost e))) && bool_decide (groupname i = ""%string)
          then {| i with groupname := strlcpy MAX_GROUPNAME_SIZE g |} else i
        | [] => i
        end in
      (0, set_info e i)
    else if bool_decide (is_Some (cert_user_oid (vhost e))) &&
            negb (bool_decide (cert_user_name e = ""%string)) &&
            negb (bool_decide (username i = cert_user_name e)) then (-1, e)
    else if bool_decide (is_Some (cert_group_oid (vhost e))) then
      if bool_decide (groupname i ∈ cert_group_names e) then (0, e) else (-1, e)
    else (0, e)
  else (0, e).

(** The group name requested, [NULL] when there is none. *)
Definition req_group e : option string :=
  if bool_decide (req_group_name e = ""%string) then None else Some (req_group_name e).

(** The part of [check_group] that asks the module. *)
Definition module_group e : bool * client_entry_st :=
  match module e ≫= auth_group with
  | Some f =>
    let '(ret, ctx, g) := f (auth_ctx e) (req_group e) (groupname (acct_info e)) in
    let g := if ret =? 0 then strlcpy MAX_GROUPNAME_SIZE g else g in
    let i := acct_info e in
    let i := {| i with groupname := g |} in
    (ret =? 0, {| e with auth_ctx := ctx; acct_info := i |})
  | None => (true, e)
  end.

(** The part that takes the group from the certificate. *)
Definition cert_group e : option client_entry_st :=
  if has_cert e then
    match req_group e with
    | Some g =>
      if bool_decide (groupname (acct_info e) = ""%string) &&
         bool_decide (is_Some (cert_group_oid (vhost e))) then
        if bool_decide (g ∈ cert_group_names e) then
          Some (set_groupname e (strlcpy MAX_GROUPNAME_SIZE g))
        else None
      else Some e
    | None => Some e
    end
  else Some e.

Definition check_group e : Z * client_entry_st :=
  let '(ok, e) := module_group e in
  if negb ok then (-1, e) else
    match cert_group e with
    | None => (-1, e)
    | Some e =>
      let '(ret, e) := check_cert_user_group_status e in
      (if ret <? 0 then -1 else 0, e)
    end.

(** The prompt of [handle_sec_auth_res]: the code it returns with when
    [auth_msg] fails, or [passwd_retries]; and the entry. *)
Definition ask_msg e (result : Z) : (Z + Z) * client_entry_st :=
  match module e with
  | Some m =>
    if (result =? ERR_AUTH_CONTINUE) || (result =? 0) then
      let '(ret, ctx, (str, counter)) := auth_msg m (auth_ctx e) in
      if ret <? 0 then (inl ret, {| e with auth_ctx := ctx; status := PS_AUTH_FAILED |})
      else
        (inr (if passwd_counter e <? counter then 0 else 1),
         {| e with auth_ctx := ctx; msg_str := str; passwd_counter := counter |})
    else (inr 1, e)
  | None => (inr 1, e)
  end.

(** The branch [result == ERR_AUTH_CONTINUE]. *)
Definition auth_res_continue x sec (p : ptr) e (passwd_retries : Z) : Z * sec_mod_st T :=
  let repeated := match module e with
                  | Some m => allows_retries m && (passwd_retries =? 1)
                  | None => false end in
  let sec :=
    if negb (bool_decide (status e = PS_AUTH_INIT)) && repeated then
      sec_mod_add_score_to_ip x sec e (remote_ip (acct_info e))
        (ban_points_wrong_password (vhost e))
    else sec in
  let '(ret, e, sec) := send_sec_auth_reply_msg x sec e in
  if ret <? 0 then (ret, set_entry p (set_status e PS_AUTH_FAILED) sec)
  else (0, set_entry p e sec).

(** The branch [result == 0 && e->status != PS_AUTH_FAILED]. *)
Definition auth_res_accept x sec (p : ptr) e : Z * sec_mod_st T :=
  let '(ret, e) := check_group e in
  if ret <? 0 then (ret, set_entry p (set_status e PS_AUTH_FAILED) sec) else
  let e := set_status e PS_AUTH_COMPLETED in
  let e :=
    match module e with
    | Some m =>
      let i := acct_info e in
      let '(ctx, u) := auth_user m (auth_ctx e) (username i) in
      {| e with auth_ctx := ctx; acct_info := {| i with username := u |} |}
    | None => e
    end in
  let '(ret, e, sec) := send_sec_auth_reply x sec e AUTH_REP_OK in
  if ret <? 0 then (ret, set_entry p (set_status e PS_AUTH_FAILED) sec)
  else (0, set_entry p e sec).

(** The last branch. *)
Definition auth_res_reject x sec (p : ptr) e (result : Z) : Z * sec_mod_st T :=
  let e := set_status e PS_AUTH_FAILED in
  let sec := sec_mod_add_score_to_ip x sec e (remote_ip (acct_info e))
               (ban_points_wrong_password (vhost e)) in
  let '(ret, e, sec) := send_sec_auth_reply x sec e AUTH_REP_FAILED in
  (if ret <? 0 then ret else if result <? 0 then result else ERR_BAD_COMMAND,
   set_entry p e sec).

Definition handle_sec_auth_res x sec (p : ptr) e (result : Z) : Z * sec_mod_st T :=
  match ask_msg e result with
  | (inl ret, e) => (ret, set_entry p e sec)
  | (inr passwd_retries, e) =>
    if result =? ERR_AUTH_CONTINUE then auth_res_continue x sec p e passwd_retries
    else if (result =? 0) && negb (bool_decide (status e = PS_AUTH_FAILED)) then
      auth_res_accept x sec p e
    else auth_res_reject x sec p e result
  end.

(** ** Sessions *)

Definition stats_add_to (a b : stats_st) : stats_st := {|
  bytes_out := u64 (bytes_out a + bytes_out b);
  bytes_in := u64 (bytes_in a + bytes_in b);
  uptime := uptime a + uptime b |}.

Definition sid_ok (k : list Z) : bool := Z.of_nat (length k) =? SID_SIZE.

Definition send_failed_session_open_reply x sec : Z * sec_mod_st T :=
  match mem x 1 with
  | None => (ERR_BAD_COMMAND, sec)
  | Some _ =>
    let ret := send x 0 in
    (if ret <? 0 then ERR_BAD_COMMAND else ret,
     emit (EvSessionReply AUTH_REP_FAILED [] "" "" "" false None 0) sec)
  end.

Definition set_addrs e (v4 v6 : option string) : client_entry_st :=
  let i := acct_info e in
  set_info e {| i with ipv4 := strlcpy_opt MAX_IP_STR v4 (ipv4 i);
                       ipv6 := strlcpy_opt MAX_IP_STR v6 (ipv6 i) |}.

(** [open_session] of the accounting module, which is called unless it was
    before; a negative code denies the session. *)
Definition acct_open e (k : list Z) : option Z :=
  match vhost_acct (vhost e) ≫= open_session with
  | Some f => if session_is_open e then None else Some (f (auth_type e) (acct_info e) k)
  | None => None
  end.

(** [handle_secm_session_open_cmd] from line 517 on: the reply with the
    session's seed. *)
Definition session_open_reply x sec (p : ptr) e (seed : Z) : Z * sec_mod_st T :=
  match mem x 2 with
  | None => (ERR_BAD_COMMAND, sec)
  | Some _ =>
    let sup := match get_sup_config (vhost e) with Some f => f (acct_info e) | None => 0 end in
    if sup <? 0 then send_failed_session_open_reply x sec else
    let sec := emit (EvSessionReply AUTH_REP_OK (sid e) (username (acct_info e))
                       (groupname (acct_info e)) (remote_ip (acct_info e)) (tls_auth_ok e)
                       (vhost_name (vhost e)) seed) sec in
    if send x 1 <? 0 then (ERR_BAD_COMMAND, sec) else
    (0, set_entry p {| e with
          exptime := now x 1 + cookie_timeout (vhost e) + AUTH_SLACK_TIME;
          in_use := u32 (in_use e + 1) |} sec)
  end.

Definition handle_secm_session_open_cmd x sec (req : SecmSessionOpenMsg) : Z * sec_mod_st T :=
  if negb (sid_ok (so_sid req)) then send_failed_session_open_reply x sec else
  match lookup_entry sec (so_sid req) with
  | None => send_failed_session_open_reply x sec
  | Some (p, e) =>
    if negb (bool_decide (status e = PS_AUTH_COMPLETED)) then
      send_failed_session_open_reply x sec else
    if IS_CLIENT_ENTRY_EXPIRED e (now x 0) then
      send_failed_session_open_reply x (set_entry p (set_status e PS_AUTH_FAILED) sec) else
    let e := set_addrs e (so_ipv4 req) (so_ipv6 req) in
    let opened := acct_open e (so_sid req) in
    let sec := if bool_decide (is_Some opened) then emit (EvAcctOpen (so_sid req)) sec
               else sec in
    if match opened with Some r => r <? 0 | None => false end then
      send_failed_session_open_reply x (set_entry p (set_status e PS_AUTH_FAILED) sec) else
    let e := {| e with session_is_open := true |} in
    let sec := set_entry p e sec in
    if predictable_ips (vhost e) then
      session_open_reply x sec p e (u32 (hash_any (to_bytes (username (acct_info e)))))
    else
      match rnd_seed x with
      | Some seed => session_open_reply x sec p e seed
      | None => (-1, sec)
      end
  end.

Definition max_opt (req : option Z) (cur : Z) : Z :=
  match req with Some v => if cur <? v then v else cur | None => cur end.

(** The statistics of the request where they exceed the known ones. *)
Definition close_stats (req : SecmSessionCloseMsg) e : client_entry_st :=
  {| e with stats := {| uptime := max_opt (sc_uptime req) (uptime (stats e));
                        bytes_in := max_opt (sc_bytes_in req) (bytes_in (stats e));
                        bytes_out := max_opt (sc_bytes_out req) (bytes_out (stats e)) |} |}.

(** The statistics of this use of the cookie are added to the total ones. *)
Definition save_stats e : client_entry_st :=
  {| e with saved_stats := stats_add_to (saved_stats e) (stats e); stats := zero_stats |}.

Definition handle_secm_session_close_cmd x sec (req : SecmSessionCloseMsg) : Z * sec_mod_st T :=
  if negb (sid_ok (sc_sid req)) then (ERR_BAD_COMMAND, sec) else
  match lookup_entry sec (sc_sid req) with
  | None => (send x 0, emit (EvCliStats None) sec)
  | Some (p, e) =>
    if ps_num (status e) <? ps_num PS_AUTH_COMPLETED then
      (send x 0, emit (EvCliStats None) sec) else
    let e := close_stats req e in
    let sec := emit (EvCliStats (Some (bytes_in (stats e), bytes_out (stats e),
                                       discon_reason e))) sec in
    if send x 0 <? 0 then (ERR_BAD_COMMAND, set_entry p e sec) else
    (0, expire_client_entry x p (set_entry p (save_stats e) sec))
  end.

Definition handle_sec_auth_ban_ip_reply sec (msg : BanIpReplyMsg) : sec_mod_st T :=
  if negb (sid_ok (br_sid msg)) then sec else
  match lookup_entry sec (br_sid msg) with
  | None => sec
  | Some (p, e) =>
    if bool_decide (br_reply msg = AUTH_REP_OK) then sec
    else set_entry p (set_status e PS_AUTH_FAILED) sec
  end.

Definition handle_sec_auth_stats_cmd sec (req : CliStatsMsg) (pid : Z) : Z * sec_mod_st T :=
  if negb (sid_ok (cs_sid req)) then (-1, sec) else
  match lookup_entry sec (cs_sid req) with
  | None => (-1, sec)
  | Some (p, e) =>
    if negb (bool_decide (status e = PS_AUTH_COMPLETED)) then (-1, sec) else
    let st := stats e in
    let st := {| bytes_in := max_opt (Some (cs_bytes_in req)) (bytes_in st);
                         bytes_out := max_opt (Some (cs_bytes_out req)) (bytes_out st);
                         uptime := max_opt (Some (cs_uptime req)) (uptime st) |} in
    let reason := match cs_discon_reason req with
                  | Some r => if r =? 0 then discon_reason e else r
                  | None => discon_reason e end in
    let i := acct_info e in
    let i := {| i with acct_id := pid |} in
    let e := {| e with stats := st; discon_reason := reason; acct_info := i |} in
    if match vhost_acct (vhost e) with Some a => has_session_stats a | None => false end then
      let i := {| i with remote_ip := strlcpy_opt MAX_IP_STR (cs_remote_ip req) (remote_ip i);
                         ipv4 := strlcpy_opt MAX_IP_STR (cs_ipv4 req) (ipv4 i);
                         ipv6 := strlcpy_opt MAX_IP_STR (cs_ipv6 req) (ipv6 i) |} in
      (0, emit (EvAcctStats (sid e) (stats_add_to (stats e) (saved_stats e)))
            (set_entry p (set_info e i) sec))
    else (0, set_entry p e sec)
  end.

(** ** Authentication *)

Definition handle_sec_auth_cont x sec (req : SecAuthContMsg) : Z * sec_mod_st T :=
  if negb (sid_ok (ct_sid req)) then (-1, sec) else
  match lookup_entry sec (ct_sid req) with
  | None => (-1, sec)
  | Some (p, e) =>
    if negb (bool_decide (status e = PS_AUTH_INIT)) &&
       negb (bool_decide (status e = PS_AUTH_CONT)) then
      handle_sec_auth_res x sec p e (-1) else
    match ct_password req, module e with
    | None, _ => handle_sec_auth_res x sec p e (-1)
    | Some _, None => handle_sec_auth_res x sec p e (-1)
    | Some pass, Some m =>
      let e := set_status e PS_AUTH_CONT in
      let '(ret, ctx) := auth_pass m (auth_ctx e) pass in
      handle_sec_auth_res x sec p {| e with auth_ctx := ctx |} ret
    end
  end.

Definition method_is (at_ : Z) (a : auth_struct_st) : bool :=
  as_enabled a && (Z.land (as_type a) at_ =? at_).

Definition set_module (v : vhost_cfg_st) e (at_ : Z) : Z * client_entry_st :=
  if at_ =? 0 then (-1, e) else
  match List.find (method_is at_) (vhost_auth v) with
  | Some a =>
    (0, {| e with module := as_amod a; auth_type := as_type a; vhost_auth_ctx := as_ctx a |})
  | None => (-1, e)
  end.

(** What the request fills in the entry, to the state [PS_AUTH_INIT].  The
    copies of the group names are made one by one until one fails. *)
Definition init_fields x e (req : SecAuthInitMsg) : client_entry_st :=
  let i := acct_info e in
  let groups := take MAX_GROUPS (ia_cert_group_names req) in
  {| e with
     tls_auth_ok := ia_tls_auth_ok req;
     acct_info := {| i with
       user_agent := strlcpy_opt MAX_AGENT_NAME (ia_user_agent req) (user_agent i);
       username := strlcpy_opt (MAX_USERNAME_SIZE * 2) (ia_user_name req) (username i);
       our_ip := strlcpy_opt MAX_IP_STR (ia_our_ip req) (our_ip i) |};
     req_group_name := strlcpy_opt MAX_GROUPNAME_SIZE (ia_group_name req) (req_group_name e);
     cert_user_name := strlcpy_opt MAX_USERNAME_SIZE (ia_cert_user_name req) (cert_user_name e);
     cert_group_names :=
       if forallb (λ k, bool_decide (is_Some (mem x (2 + k)))) (seq 0 (length groups))
       then groups else [];
     status := PS_AUTH_INIT |}.

Definition handle_sec_auth_init x sec (req : SecAuthInitMsg) (pid : Z) : Z * sec_mod_st T :=
  let v := find_vhost sec (ia_vhost req) in
  match new_client_entry x sec v (ia_ip req) pid with
  | (None, sec) => (-1, sec)
  | (Some p, sec) =>
    match entry sec p with
    | None => (-1, sec)
    | Some e =>
      let '(ret, e) := set_module v e (ia_auth_type req) in
      if ret <? 0 then handle_sec_auth_res x sec p e ret else
      match module e with
      | Some m =>
        let '(ret, ctx) := auth_init m (vhost_auth_ctx e)
                             {| ai_username := ia_user_name req; ai_ip := ia_ip req;
                                ai_our_ip := ia_our_ip req;
                                ai_user_agent := ia_user_agent req; ai_id := pid |} in
        let e := {| e with auth_ctx := ctx |} in
        if ret =? ERR_AUTH_CONTINUE then
          handle_sec_auth_res x sec p (init_fields x e req) ERR_AUTH_CONTINUE
        else if ret <? 0 then handle_sec_auth_res x sec p e ret
        else handle_sec_auth_res x sec p (init_fields x e req) 0
      | None => handle_sec_auth_res x sec p (init_fields x e req) 0
      end
    end
  end.

(** ** The list of cookies (src/sec-mod-cookies.c) *)

Definition VHOSTNAME (v : vhost_cfg_st) : string := default "default"%string (vhost_name v).

Definition cookie_of e : cookie_int_msg := {|
  ck_safe_id := safe_id (acct_info e);
  ck_session_is_open := session_is_open e;
  ck_tls_auth_ok := tls_auth_ok e;
  ck_created := if 0 <? created e then created e else 0;
  ck_expires := if (0 <? exptime e) && (in_use e =? 0) then exptime e else 0;
  ck_username := username (acct_info e);
  ck_groupname := groupname (acct_info e);
  ck_user_agent := user_agent (acct_info e);
  ck_remote_ip := remote_ip (acct_info e);
  ck_status := status e;
  ck_in_use := in_use e;
  ck_vhost := VHOSTNAME (vhost e) |}.

(** The walk over the table; [n] is [msg.n_cookies]. *)
Fixpoint cookies_loop sec (t n : Z) (ps : list ptr) : list cookie_int_msg :=
  match ps with
  | [] => []
  | p :: ps =>
    match entry sec p with
    | None => cookies_loop sec t n ps
    | Some e =>
      if IS_CLIENT_ENTRY_EXPIRED e t then cookies_loop sec t n ps else
      if htable_elems (tbl (client_db sec)) <=? n then []
      else cookie_of e :: cookies_loop sec t (n + 1) ps
    end
  end.

Definition handle_secm_list_cookies_reply x sec : sec_mod_st T :=
  match mem x 0, mem x 1 with
  | Some _, Some _ =>
    emit (EvCookies (cookies_loop sec (now x 0) 0 (htable_walk (tbl (client_db sec))))) sec
  | _, _ => emit (EvCookies []) sec
  end.
End auth.
