(* ===== verification/SecModDbSpec.v ===== *)
(** * The client database as a finite map (src/sec-mod-db.c)

    [db sec] is the map from SIDs to entries that the database stands for;
    under [db_ok] every operation of SecModDb is the corresponding operation
    on that map. *)

From S2P Require Import Prelude CString Htable Store SecModData SecModDb.

Section db_spec.
Context {T : Type} `{HT : HTable T, HS : !HTableSpec T, Env : SecModEnv}.
Implicit Types (sec : sec_mod_st T) (e : client_entry_st) (x : ext) (k : list Z).

Definition db sec : gmap (list Z) client_entry_st := view sid (client_db sec).
Definition db_ok sec : Prop := store_ok sid hash_any (client_db sec).

(** What the system promises about the answers: fresh memory is not in use
    and its address is one the table can hold, a random SID has its size. *)
Record ext_ok x sec : Prop := {
  ext_fresh p : mem x 0 = Some p → ptr_ok p ∧ entry sec p = None;
  ext_sid i k : rnd_sid x i = Some k → Z.of_nat (length k) = SID_SIZE;
}.

(** Only the client database of two states is compared. *)
Lemma db_ok_ext sec sec' : client_db sec' = client_db sec → db_ok sec → db_ok sec'.
Proof. unfold db_ok. by intros ->. Qed.

Lemma deinit_client_db e sec : client_db (sec_auth_user_deinit e sec) = client_db sec.
Proof. unfold sec_auth_user_deinit. by repeat case_match. Qed.

Lemma lookup_entry_sound sec k p e :
  lookup_entry sec k = Some (p, e) → entry sec p = Some e ∧ sid e = k.
Proof. apply slookup_Some. Qed.

Lemma lookup_entry_db sec k : db_ok sec → db sec !! k = snd <$> lookup_entry sec k.
Proof. apply slookup_view. Qed.

Lemma find_client_entry_None sec k : db_ok sec → find_client_entry sec k = None ↔ db sec !! k = None.
Proof.
  intros Hok. unfold db, find_client_entry. rewrite (view_sget _ hash_any) by done.
  destruct (sget _ _ _ _) as [p|] eqn:Hg; simpl; [|done].
  apply sget_sound in Hg as (e & -> & _). done.
Qed.

Lemma entry_db sec p e : db_ok sec → entry sec p = Some e → db sec !! sid e = Some e.
Proof. intros Hok Hp. apply (view_Some _ hash_any); [done|]. eauto. Qed.

(** ** Updates *)

Lemma set_entry_ok p e e' sec :
  db_ok sec → entry sec p = Some e → sid e' = sid e →
  db_ok (set_entry p e' sec) ∧ db (set_entry p e' sec) = <[sid e:=e']> (db sec).
Proof.
  intros Hok Hp Hs. assert (db_ok (set_entry p e' sec)) as Hok' by (by eapply sset_ok).
  split; [done|]. rewrite <- Hs. eapply (view_insert _ hash_any); [done..|].
  intros f Hf. unfold entry in Hp. congruence.
Qed.

Lemma set_entry_entry p e sec : entry (set_entry p e sec) p = Some e.
Proof. unfold entry. simpl. by rewrite lookup_insert_eq. Qed.

Lemma del_client_entry_ok p e sec :
  db_ok sec → entry sec p = Some e →
  db_ok (del_client_entry p sec) ∧ db (del_client_entry p sec) = delete (sid e) (db sec).
Proof.
  intros Hok Hp. unfold del_client_entry. rewrite Hp.
  assert (store_ok sid hash_any (sdel sid hash_any p (client_db sec))) as Hok'
    by (by apply sdel_ok; [|eexists]).
  unfold db_ok, db. rewrite deinit_client_db. split; [done|].
  eapply (view_delete _ hash_any); [done..|exact Hp].
Qed.

Lemma cleanup_step_db t sec p :
  client_db (cleanup_step t sec p) = sweep_step (λ e, IS_CLIENT_ENTRY_EXPIRED e t) (client_db sec) p.
Proof.
  unfold cleanup_step, sweep_step, entry. destruct (objs (client_db sec) !! p) as [e|]; [|done].
  case_match; [|done]. by rewrite deinit_client_db.
Qed.

Lemma cleanup_client_db x sec :
  client_db (cleanup_client_entries x sec) =
  sweep (λ e, IS_CLIENT_ENTRY_EXPIRED e (now x 0)) (client_db sec).
Proof.
  unfold cleanup_client_entries, sweep. generalize (htable_walk (tbl (client_db sec))) as ps.
  intros ps. revert sec. induction ps as [|p ps IH]; intros sec; simpl; [done|].
  by rewrite IH, cleanup_step_db.
Qed.

Lemma cleanup_ok x sec :
  db_ok sec →
  db_ok (cleanup_client_entries x sec) ∧
  db (cleanup_client_entries x sec) =
    filter (λ ke, IS_CLIENT_ENTRY_EXPIRED ke.2 (now x 0) = false) (db sec).
Proof.
  intros Hok. destruct (sweep_spec _ hash_any (λ e, IS_CLIENT_ENTRY_EXPIRED e (now x 0)) _ Hok)
    as [Hok' Ho]. unfold db_ok, db. rewrite cleanup_client_db. split; [done|].
  exact (view_filter _ hash_any _ _ (λ e, IS_CLIENT_ENTRY_EXPIRED e (now x 0) = false) Hok Hok' Ho).
Qed.

(** ** New entries *)

Lemma choose_sid_spec x sec i n k :
  choose_sid x sec i n = Some k →
  find_client_entry sec k = None ∧ ∃ j, rnd_sid x j = Some k.
Proof.
  revert i. induction n as [|n IH]; intros i; simpl;
    (destruct (rnd_sid x i) as [k'|] eqn:Hr; [|done]);
    destruct (find_client_entry sec k') eqn:Hf; try done; eauto; naive_solver.
Qed.

Lemma new_client_entry_spec x sec v ip pid :
  db_ok sec → ext_ok x sec →
  let '(o, sec') := new_client_entry x sec v ip pid in
  db_ok sec' ∧ log sec' = log sec ∧
  match o with
  | Some p => ∃ k, Z.of_nat (length k) = SID_SIZE ∧ db sec !! k = None ∧
      entry sec' p = Some (fresh_entry v ip pid k (now x 0)) ∧
      db sec' = <[k := fresh_entry v ip pid k (now x 0)]> (db sec)
  | None => db sec' = db sec
  end.
Proof.
  intros Hok Hx. unfold new_client_entry.
  destruct (mem x 0) as [p|] eqn:Hm; [|done].
  destruct (choose_sid x sec 0 4) as [k|] eqn:Hc; [|done].
  apply choose_sid_spec in Hc as [Hnone [j Hj]].
  destruct (ext_fresh _ _ Hx p Hm) as [Hp Hfresh].
  set (e := fresh_entry v ip pid k (now x 0)).
  pose proof (sadd_spec sid hash_any (calloc_ok x) p e (client_db sec) Hok Hp Hfresh Hnone) as Ha.
  destruct (sadd _ _ _ _ _ _) as [b d]. destruct Ha as (Hok' & _ & Ho).
  destruct b; (split; [exact Hok'|]); (split; [done|]).
  - exists k. split; [by eapply ext_sid|]. split; [by apply find_client_entry_None|].
    split; [unfold entry; simpl; rewrite Ho; by rewrite lookup_insert_eq|].
    eapply (view_insert sid hash_any _ _ p e); [done..|].
    intros f Hf. unfold entry in Hfresh. congruence.
  - unfold db, view. simpl. by rewrite Ho.
Qed.

(** With distinct random SIDs five attempts suffice unless five stored SIDs
    are hit: a failure to choose is a failure of the generator or five hits. *)
Lemma choose_sid_None x sec i n :
  choose_sid x sec i n = None →
  (∃ j, (i ≤ j ≤ i + n)%nat ∧ rnd_sid x j = None) ∨
  (∀ j, (i ≤ j ≤ i + n)%nat → ∃ k, rnd_sid x j = Some k ∧ is_Some (find_client_entry sec k)).
Proof.
  revert i. induction n as [|n IH]; intros i; simpl;
    (destruct (rnd_sid x i) as [k'|] eqn:Hr; [|intros _; left; exists i; split; [lia|done]]);
    destruct (find_client_entry sec k') eqn:Hf; try done.
  - intros _. right. intros j Hj. assert (j = i) as -> by lia. exists k'. by rewrite Hf.
  - intros [(j & ? & ?)|Hall]%IH; [left; exists j; split; [lia|done]|right].
    intros j Hj. destruct (decide (j = i)) as [->|]; [exists k'; by rewrite Hf|].
    apply Hall. lia.
Qed.
End db_spec.
