(* ===== verification/SecModMachine.v ===== *)
(** * The security module as a state machine (src/sec-mod.c)

    The commands of the module, the step each of them makes, and what the
    steps mean for one session: [sess_step] is the life of a session as the
    other processes may rely on it, and [sec_step_refines] shows that every
    step of the module is such a step for each of its sessions. *)

From S2P Require Import Prelude CString Htable Store SecModData SecModDb SecModAuth.
From S2P Require Import SecModDbSpec.

(** The requests of workers and of the main process once unpacked, and the
    periodic work after an alarm. *)
Inductive cmd :=
| CMD_SEC_CLI_STATS (req : CliStatsMsg) (pid : Z)
| CMD_SEC_AUTH_INIT (req : SecAuthInitMsg) (pid : Z)
| CMD_SEC_AUTH_CONT (req : SecAuthContMsg)
| CMD_SECM_LIST_COOKIES
| CMD_SECM_BAN_IP_REPLY (msg : BanIpReplyMsg)
| CMD_SECM_SESSION_OPEN (msg : SecmSessionOpenMsg)
| CMD_SECM_SESSION_CLOSE (msg : SecmSessionCloseMsg)
| MAINTENANCE.

Section machine.
Context {T : Type} `{HT : HTable T, Env : SecModEnv}.
Implicit Types (sec : sec_mod_st T) (e : client_entry_st) (x : ext) (k : list Z).

Definition send_stats_to_main x sec : sec_mod_st T :=
  let t := now x 1 in
  let reset := stats_reset_time (default_vhost sec) in
  let sec :=
    if negb (reset =? 0) && (reset <? t - last_stats_reset sec) then
      {| sec with auth_failures := 0; avg_auth_time := 0; max_auth_time := 0;
                  last_stats_reset := t |}
    else sec in
  emit (EvSecmStats (sec_mod_client_db_elems sec) (auth_failures sec) (avg_auth_time sec)
          (max_auth_time sec)) {| sec with auth_failures := 0 |}.

(** [process_worker_packet]. *)
Definition process_worker_packet x sec (c : cmd) : option (Z * sec_mod_st T) :=
  match c with
  | CMD_SEC_CLI_STATS req pid => Some (handle_sec_auth_stats_cmd sec req pid)
  | CMD_SEC_AUTH_INIT req pid => Some (handle_sec_auth_init x sec req pid)
  | CMD_SEC_AUTH_CONT req => Some (handle_sec_auth_cont x sec req)
  | _ => None
  end.

(** [process_packet_from_main]. *)
Definition process_packet_from_main x sec (c : cmd) : option (Z * sec_mod_st T) :=
  match c with
  | CMD_SECM_LIST_COOKIES => Some (0, handle_secm_list_cookies_reply x sec)
  | CMD_SECM_BAN_IP_REPLY msg => Some (0, handle_sec_auth_ban_ip_reply sec msg)
  | CMD_SECM_SESSION_OPEN msg => Some (handle_secm_session_open_cmd x sec msg)
  | CMD_SECM_SESSION_CLOSE msg => Some (handle_secm_session_close_cmd x sec msg)
  | _ => None
  end.

(** The maintenance part of [check_other_work]. *)
Definition maintenance x sec : sec_mod_st T :=
  send_stats_to_main x (cleanup_client_entries x sec).

Definition sec_step x sec (c : cmd) : Z * sec_mod_st T :=
  match process_worker_packet x sec c, process_packet_from_main x sec c with
  | Some r, _ => r
  | _, Some r => r
  | None, None => (0, maintenance x sec)
  end.

(** The state at the start of [sec_mod_server]. *)
Definition sec_mod_init (vs : list vhost_cfg_st) (d : vhost_cfg_st) : sec_mod_st T := {|
  client_db := Store htable_init ∅; vconfig := vs; default_vhost := d;
  auth_failures := 0; max_auth_time := 0; avg_auth_time := 0;
  total_authentications := 0; last_stats_reset := 0; log := [] |}.
End machine.

(** ** The life of a session *)

Section session.
Context `{Env : SecModEnv}.
Implicit Types (e : client_entry_st) (x : ext) (k : list Z).

(** What authentication never changes. *)
Definition same_session e e' : Prop :=
  sid e' = sid e ∧ vhost e' = vhost e ∧ created e' = created e ∧ exptime e' = exptime e ∧
  in_use e' = in_use e ∧ session_is_open e' = session_is_open e ∧
  stats e' = stats e ∧ saved_stats e' = saved_stats e ∧ discon_reason e' = discon_reason e.

(** A certificate was presented when the method asks for one. *)
Definition cert_ok e : Prop := has_cert e = true → tls_auth_ok e = true.

(** The module (if the method has one) accepted the user at [auth_init]. *)
Definition init_accepts (v : vhost_cfg_st) (req : SecAuthInitMsg) (pid : Z) : Prop :=
  ∃ a, List.find (method_is (ia_auth_type req)) (vhost_auth v) = Some a ∧
    ia_auth_type req ≠ 0 ∧
    match as_amod a with
    | None => True
    | Some m =>
      let r := (auth_init m (as_ctx a) {| ai_username := ia_user_name req; ai_ip := ia_ip req;
                  ai_our_ip := ia_our_ip req; ai_user_agent := ia_user_agent req;
                  ai_id := pid |}).1 in 0 ≤ r
    end.

(** The password was accepted by the module of the session. *)
Definition cont_accepts e (req : SecAuthContMsg) : Prop :=
  ∃ m pass, module e = Some m ∧ ct_password req = Some pass ∧
    (auth_pass m (auth_ctx e) pass).1 = 0.

(** The module asks for a password and leaves the context [ctx]: [auth_msg]
    is called next. *)
Definition asks (m : auth_mod_st) (ctx : option auth_ctx_t) (user : string) e' : Prop :=
  module e' = Some m ∧ auth_ctx e' = (auth_msg m ctx).1.2 ∧ username (acct_info e') = user.

Definition init_asks (v : vhost_cfg_st) (req : SecAuthInitMsg) (pid : Z) e : Prop :=
  ∃ a m ctx, List.find (method_is (ia_auth_type req)) (vhost_auth v) = Some a ∧ as_amod a = Some m ∧
    auth_init m (as_ctx a) {| ai_username := ia_user_name req; ai_ip := ia_ip req;
      ai_our_ip := ia_our_ip req; ai_user_agent := ia_user_agent req; ai_id := pid |} =
      (ERR_AUTH_CONTINUE, ctx) ∧
    asks m ctx (strlcpy_opt (MAX_USERNAME_SIZE * 2) (ia_user_name req) "") e.

Definition cont_asks e (req : SecAuthContMsg) e' : Prop :=
  ∃ m pass ctx, module e = Some m ∧ ct_password req = Some pass ∧
    auth_pass m (auth_ctx e) pass = (ERR_AUTH_CONTINUE, ctx) ∧
    asks m ctx (username (acct_info e)) e'.

(** One user of the session less; [None] when the session ends with it. *)
Definition release (t : Z) e : option client_entry_st :=
  let e := if 0 <? in_use e then {| e with in_use := in_use e - 1 |} else e in
  if in_use e =? 0 then
    if invalidates e then None else Some {| e with exptime := expires_at t e |}
  else Some e.

(** [sess_step x find c k o o']: while the command [c] runs, the session
    [k] goes from [o] to [o'], [None] where there is no such session. *)
Inductive sess_step x (find : option string → vhost_cfg_st) (k : list Z)
    : cmd → option client_entry_st → option client_entry_st → Prop :=
| ss_same c o : sess_step x find k c o o
| ss_create req pid e :
    sid e = k → Z.of_nat (length k) = SID_SIZE → vhost e = find (ia_vhost req) →
    in_use e = 0 → session_is_open e = false → stats e = zero_stats → saved_stats e = zero_stats →
    created e = now x 0 → exptime e = now x 0 + cookie_timeout (vhost e) + AUTH_SLACK_TIME →
    (status e = PS_AUTH_FAILED ∨ status e = PS_AUTH_INIT ∧ init_asks (vhost e) req pid e ∨
     status e = PS_AUTH_COMPLETED ∧ init_accepts (vhost e) req pid ∧ cert_ok e) →
    sess_step x find k (CMD_SEC_AUTH_INIT req pid) None (Some e)
| ss_auth req e e' :
    ct_sid req = k → same_session e e' →
    (status e' = PS_AUTH_FAILED ∨
     (status e = PS_AUTH_INIT ∨ status e = PS_AUTH_CONT) ∧
     (status e' = PS_AUTH_CONT ∧ cont_asks e req e' ∨
      status e' = PS_AUTH_COMPLETED ∧ cont_accepts e req ∧ cert_ok e')) →
    sess_step x find k (CMD_SEC_AUTH_CONT req) (Some e) (Some e')
| ss_ban msg e :
    br_sid msg = k → br_reply msg ≠ AUTH_REP_OK →
    sess_step x find k (CMD_SECM_BAN_IP_REPLY msg) (Some e) (Some (set_status e PS_AUTH_FAILED))
| ss_deny req e e' :
    so_sid req = k → status e = PS_AUTH_COMPLETED → status e' = PS_AUTH_FAILED →
    same_session e e' →
    sess_step x find k (CMD_SECM_SESSION_OPEN req) (Some e) (Some e')
| ss_open req e e' :
    so_sid req = k → status e = PS_AUTH_COMPLETED → IS_CLIENT_ENTRY_EXPIRED e (now x 0) = false →
    status e' = PS_AUTH_COMPLETED → session_is_open e' = true →
    (in_use e' = in_use e ∧ exptime e' = exptime e ∨
     in_use e' = u32 (in_use e + 1) ∧
     exptime e' = now x 1 + cookie_timeout (vhost e) + AUTH_SLACK_TIME) →
    sid e' = sid e → vhost e' = vhost e → created e' = created e →
    stats e' = stats e → saved_stats e' = saved_stats e → discon_reason e' = discon_reason e →
    (cert_ok e → cert_ok e') →
    sess_step x find k (CMD_SECM_SESSION_OPEN req) (Some e) (Some e')
| ss_stats req pid e e' :
    cs_sid req = k → status e = PS_AUTH_COMPLETED → status e' = PS_AUTH_COMPLETED →
    sid e' = sid e → vhost e' = vhost e → created e' = created e → exptime e' = exptime e →
    in_use e' = in_use e → session_is_open e' = session_is_open e →
    bytes_in (stats e') = Z.max (bytes_in (stats e)) (cs_bytes_in req) →
    bytes_out (stats e') = Z.max (bytes_out (stats e)) (cs_bytes_out req) →
    uptime (stats e') = Z.max (uptime (stats e)) (cs_uptime req) →
    saved_stats e' = saved_stats e → (cert_ok e → cert_ok e') →
    sess_step x find k (CMD_SEC_CLI_STATS req pid) (Some e) (Some e')
| ss_close_fails req e :
    sc_sid req = k → status e = PS_AUTH_COMPLETED → send x 0 < 0 →
    sess_step x find k (CMD_SECM_SESSION_CLOSE req) (Some e) (Some (close_stats req e))
| ss_close req e :
    sc_sid req = k → status e = PS_AUTH_COMPLETED → 0 ≤ send x 0 →
    sess_step x find k (CMD_SECM_SESSION_CLOSE req) (Some e)
      (release (now x 0) (save_stats (close_stats req e)))
| ss_expire e :
    IS_CLIENT_ENTRY_EXPIRED e (now x 0) = true →
    sess_step x find k MAINTENANCE (Some e) None.
End session.
