(* ===== verification/SecModRefine.v ===== *)
(** * Every step of the security module is a step of its sessions

    The proof that SecModMachine.sec_step refines SecModMachine.sess_step. *)

From S2P Require Import Prelude CString Htable Store SecModData SecModDb SecModAuth.
From S2P Require Import SecModDbSpec SecModMachine.

Section auth_res.
Context {T : Type} `{HT : HTable T, Env : SecModEnv}.
Implicit Types (sec : sec_mod_st T) (e : client_entry_st) (x : ext) (k : list Z).

(** The parts of an entry on which [cert_ok] depends. *)
Definition same_cert e e' : Prop := auth_type e' = auth_type e ∧ tls_auth_ok e' = tls_auth_ok e.

Lemma same_session_refl e : same_session e e.
Proof. by repeat split. Qed.

Lemma same_session_trans e f g : same_session e f → same_session f g → same_session e g.
Proof. unfold same_session. intuition congruence. Qed.

Lemma cert_ok_same e e' : same_cert e e' → cert_ok e → cert_ok e'.
Proof. unfold cert_ok, has_cert. by intros [-> ->]. Qed.

Lemma score_client_db x sec e ip n :
  client_db (sec_mod_add_score_to_ip x sec e ip n) = client_db sec.
Proof. unfold sec_mod_add_score_to_ip. by repeat case_match. Qed.

Lemma auth_time_client_db sec t : client_db (update_auth_time_stats sec t) = client_db sec.
Proof. unfold update_auth_time_stats. by repeat case_match. Qed.

Lemma send_reply_spec x sec e r ret e' sec' :
  send_sec_auth_reply x sec e r = (ret, e', sec') →
  client_db sec' = client_db sec ∧ same_session e e' ∧ same_cert e e' ∧ status e' = status e.
Proof.
  unfold send_sec_auth_reply. intros H.
  assert (∀ ev s, client_db (emit (T:=T) ev s) = client_db s) as He by done.
  assert (client_db sec' = client_db sec) as ->.
  { destruct r, (send x 1 <? 0); simplify_eq/=; by rewrite ?auth_time_client_db. }
  destruct (send x 1 <? 0); simplify_eq; by repeat split.
Qed.

Lemma check_cert_spec e ret e' :
  check_cert_user_group_status e = (ret, e') →
  same_session e e' ∧ same_cert e e' ∧ status e' = status e ∧ module e' = module e ∧
  (0 ≤ ret → cert_ok e').
Proof.
  unfold check_cert_user_group_status, cert_ok.
  destruct (has_cert e) eqn:Hc; [|intros [= <- <-]; repeat split; congruence].
  destruct (tls_auth_ok e) eqn:Ht; simpl; [|intros [= <- <-]; repeat split; by intros ?].
  intros H. repeat (case_match; simplify_eq/=; [|]); simplify_eq/=; repeat split; done.
Qed.

Lemma module_group_spec e b e' :
  module_group e = (b, e') →
  same_session e e' ∧ same_cert e e' ∧ status e' = status e ∧ module e' = module e.
Proof.
  unfold module_group. destruct (module e ≫= auth_group) as [f|];
    [|intros [= <- <-]; by repeat split].
  destruct (f _ _ _) as [[ret ctx] g]. intros [= <- <-]. by repeat split.
Qed.

Lemma cert_group_spec e e' :
  cert_group e = Some e' →
  same_session e e' ∧ same_cert e e' ∧ status e' = status e ∧ module e' = module e.
Proof.
  unfold cert_group. intros H.
  repeat (case_match; simplify_eq; [|]); try case_match; simplify_eq; by repeat split.
Qed.

Lemma check_group_spec e ret e' :
  check_group e = (ret, e') →
  same_session e e' ∧ status e' = status e ∧ module e' = module e ∧ (0 ≤ ret → cert_ok e').
Proof.
  unfold check_group. destruct (module_group e) as [b e1] eqn:Hm.
  apply module_group_spec in Hm as (Hs1 & Hc1 & Hst1 & Hmo1).
  destruct b; simpl; [|by intros [= <- <-]].
  destruct (cert_group e1) as [e2|] eqn:Hg; [|by intros [= <- <-]].
  apply cert_group_spec in Hg as (Hs2 & Hc2 & Hst2 & Hmo2).
  destruct (check_cert_user_group_status e2) as [r e3] eqn:Hk.
  apply check_cert_spec in Hk as (Hs3 & Hc3 & Hst3 & Hmo3 & Hok).
  intros [= <- <-]. split_and!; [by eapply same_session_trans, same_session_trans|congruence..|].
  case_match eqn:Hr; [lia|]. intros _. apply Hok. apply Z.ltb_ge in Hr. lia.
Qed.

Lemma ask_msg_spec e result r e' :
  ask_msg e result = (r, e') →
  same_session e e' ∧ same_cert e e' ∧
  match r with inl _ => status e' = PS_AUTH_FAILED | inr _ => status e' = status e end.
Proof.
  unfold ask_msg. destruct (module e) as [m|]; [|intros [= <- <-]; by repeat split].
  case_match; [|intros [= <- <-]; by repeat split].
  destruct (auth_msg m (auth_ctx e)) as [[ret ctx] [str c]].
  case_match; intros [= <- <-]; by repeat split.
Qed.

(** What asking for a password leaves. *)
Definition asked e e' : Prop :=
  module e' = module e ∧ username (acct_info e') = username (acct_info e) ∧
  (∀ m, module e = Some m → auth_ctx e' = (auth_msg m (auth_ctx e)).1.2).

Lemma ask_msg_asked e r e' : ask_msg e ERR_AUTH_CONTINUE = (inr r, e') → asked e e'.
Proof.
  unfold ask_msg, asked. destruct (module e) as [m|] eqn:Hm; [|intros [= <- <-]; by rewrite Hm].
  simpl. destruct (auth_msg m (auth_ctx e)) as [[ret ctx] [str c]] eqn:E.
  case_match; intros [= <- <-]. simpl. split_and!; [done..|]. intros ? [= <-]. by rewrite E.
Qed.

(** The outcomes of [handle_sec_auth_res]. *)
Definition auth_outcome e (result : Z) e' : Prop :=
  same_session e e' ∧
  (status e' = PS_AUTH_FAILED ∨
   result = ERR_AUTH_CONTINUE ∧ status e' = status e ∧ asked e e' ∨
   result = 0 ∧ status e ≠ PS_AUTH_FAILED ∧ status e' = PS_AUTH_COMPLETED ∧ cert_ok e').

Lemma auth_res_accept_spec x sec p e :
  ∃ e', client_db (auth_res_accept x sec p e).2 = sset p e' (client_db sec) ∧ same_session e e' ∧
    (status e' = PS_AUTH_FAILED ∨ status e' = PS_AUTH_COMPLETED ∧ cert_ok e').
Proof.
  unfold auth_res_accept. destruct (check_group e) as [ret e1] eqn:Hg.
  apply check_group_spec in Hg as (Hs & _ & _ & Hok).
  case_match eqn:Hr; [eexists; split; [done|]; by split; [|left]|].
  apply Z.ltb_ge in Hr. specialize (Hok Hr).
  set (e2 := match module (set_status e1 PS_AUTH_COMPLETED) with Some _ => _ | None => _ end).
  assert (same_session e e2 ∧ status e2 = PS_AUTH_COMPLETED ∧ cert_ok e2) as (Hs2 & Hst & Hc).
  { unfold e2. destruct (module _) as [m|]; [|done].
    destruct (auth_user m _ _) as [ctx u]. done. }
  clearbody e2. destruct (send_sec_auth_reply x sec e2 AUTH_REP_OK) as [[ret' e3] sec'] eqn:Hsend.
  apply send_reply_spec in Hsend as (Hdb & Hs3 & Hce & Hst3).
  destruct (ret' <? 0); simpl; rewrite Hdb; eexists; (split; [done|]).
  - split; [exact (same_session_trans _ _ _ Hs2 Hs3)|by left].
  - split; [by eapply same_session_trans|right]. split; [congruence|by eapply cert_ok_same].
Qed.

Lemma auth_res_spec x sec p e result :
  ∃ e', client_db (handle_sec_auth_res x sec p e result).2 = sset p e' (client_db sec) ∧
    auth_outcome e result e'.
Proof.
  unfold handle_sec_auth_res, auth_outcome. destruct (ask_msg e result) as [[ret|retries] e1] eqn:Hm;
    pose proof Hm as (Hs & Hc & Hst)%ask_msg_spec.
  { eexists. split; [done|]. by split; [|left]. }
  destruct (Z.eqb_spec result ERR_AUTH_CONTINUE) as [->|Hne].
  - apply ask_msg_asked in Hm. unfold auth_res_continue, send_sec_auth_reply_msg. case_match; simpl;
      (eexists; split; [by case_match; rewrite ?score_client_db|]); (split; [done|]);
      [by left|by right; left].
  - destruct ((result =? 0) && _) eqn:Hb.
    + apply andb_true_iff in Hb as [->%Z.eqb_eq Hb%negb_true_iff%bool_decide_eq_false].
      destruct (auth_res_accept_spec x sec p e1) as (e' & Hdb & Hs' & Hout).
      exists e'. split; [done|]. split; [by eapply same_session_trans|].
      destruct Hout as [?|[? ?]]; [by left|]. right; right. by rewrite <- Hst.
    + unfold auth_res_reject.
      destruct (send_sec_auth_reply _ _ _ _) as [[ret' e3] sec'] eqn:Hsend.
      apply send_reply_spec in Hsend as (Hdb & Hs3 & Hce & Hst3).
      exists e3. split; [simpl; by rewrite Hdb, score_client_db|].
      split; [by eapply same_session_trans|by left].
Qed.
End auth_res.

Section refine.
Context {T : Type} `{HT : HTable T, HS : !HTableSpec T, Env : SecModEnv}.
Implicit Types (sec : sec_mod_st T) (e : client_entry_st) (x : ext) (k : list Z).

(** [sec'] has [o] at [k] and is [sec] elsewhere. *)
Definition changes sec sec' k (o : option client_entry_st) : Prop :=
  db_ok sec' ∧ db sec' = partial_alter (λ _, o) k (db sec).

(** [sec'] is a step of every session of [sec]. *)
Definition refines x sec (c : cmd) sec' : Prop :=
  db_ok sec' ∧ ∀ k, sess_step x (find_vhost sec) k c (db sec !! k) (db sec' !! k).

Lemma refines_at x sec c sec' k o :
  changes sec sec' k o → sess_step x (find_vhost sec) k c (db sec !! k) o → refines x sec c sec'.
Proof.
  intros [Hok Hdb] Hs. split; [done|]. intros k'. rewrite Hdb.
  destruct (decide (k' = k)) as [->|]; [by rewrite lookup_partial_alter_eq|].
  rewrite lookup_partial_alter_ne by done. constructor.
Qed.

Lemma refines_same x sec c sec' : db_ok sec → client_db sec' = client_db sec → refines x sec c sec'.
Proof.
  intros Hok Hdb. split; [by eapply db_ok_ext|]. intros k. unfold db. rewrite Hdb. constructor.
Qed.

Lemma changes_set sec sec' p e e' :
  db_ok sec → entry sec p = Some e → sid e' = sid e →
  client_db sec' = sset p e' (client_db sec) → changes sec sec' (sid e) (Some e').
Proof.
  intros Hok Hp Hs Hdb. destruct (set_entry_ok p e e' sec Hok Hp Hs) as [Hok' Hv].
  split; [by apply (db_ok_ext (set_entry p e' sec))|]. unfold db in *. rewrite Hdb. exact Hv.
Qed.

Lemma refines_set x sec c sec' p e e' :
  db_ok sec → entry sec p = Some e → sid e' = sid e →
  client_db sec' = sset p e' (client_db sec) →
  sess_step x (find_vhost sec) (sid e) c (Some e) (Some e') → refines x sec c sec'.
Proof.
  intros Hok Hp Hs Hdb Hst. eapply refines_at; [by eapply changes_set|].
  by rewrite (entry_db sec p e).
Qed.

Lemma failed_reply_client_db x sec :
  client_db (send_failed_session_open_reply x sec).2 = client_db sec.
Proof. unfold send_failed_session_open_reply. by case_match. Qed.

Lemma expire_client_entry_spec x p e sec :
  db_ok sec → entry sec p = Some e →
  changes sec (expire_client_entry x p sec) (sid e) (release (now x 0) e).
Proof.
  intros Hok Hp. unfold expire_client_entry, release. rewrite Hp. cbv zeta.
  set (e1 := if 0 <? in_use e then _ else e).
  assert (sid e1 = sid e) as Hs by (unfold e1; by case_match).
  destruct (set_entry_ok p e e1 sec Hok Hp Hs) as [Hok1 Hdb1].
  pose proof (set_entry_entry p e1 sec) as Hp1.
  destruct (in_use e1 =? 0).
  - destruct (invalidates e1).
    + destruct (del_client_entry_ok p e1 _ Hok1 Hp1) as [Hok2 Hdb2].
      split; [done|]. rewrite Hdb2, Hdb1, Hs. by rewrite delete_insert_eq.
    + destruct (set_entry_ok p e1 {| e1 with exptime := expires_at (now x 0) e1 |} _ Hok1 Hp1)
        as [Hok2 Hdb2]; [done|]. split; [done|]. rewrite Hdb2, Hdb1, Hs. by rewrite insert_insert_eq.
  - by split.
Qed.

Lemma auth_cont_refines x sec req :
  db_ok sec → refines x sec (CMD_SEC_AUTH_CONT req) (handle_sec_auth_cont x sec req).2.
Proof.
  intros Hok. unfold handle_sec_auth_cont. case_match; [by apply refines_same|].
  destruct (lookup_entry sec (ct_sid req)) as [[p e]|] eqn:Hl; [|by apply refines_same].
  apply lookup_entry_sound in Hl as [Hp Hk].
  assert (∀ e1 result,
    same_session e e1 →
    (result = -1 ∨
     (status e = PS_AUTH_INIT ∨ status e = PS_AUTH_CONT) ∧ status e1 = PS_AUTH_CONT ∧
     (result = 0 → cont_accepts e req) ∧
     (result = ERR_AUTH_CONTINUE → ∀ e', asked e1 e' → cont_asks e req e')) →
    refines x sec (CMD_SEC_AUTH_CONT req) (handle_sec_auth_res x sec p e1 result).2) as Hres.
  { intros e1 result Hs1 Hcase. destruct (auth_res_spec x sec p e1 result) as (e' & Hdb & Hs & Hout).
    pose proof (same_session_trans _ _ _ Hs1 Hs) as Hse.
    eapply (refines_set _ _ _ _ p e e'); [done..|apply Hse|done|].
    constructor; [done..|]. unfold ERR_AUTH_CONTINUE in *.
    destruct Hcase as [->|(Hst & Hst1 & Hacc & Hask)]; [left; naive_solver|].
    destruct Hout as [?|[(-> & He & Hask')|(-> & _ & ? & ?)]]; [by left|right..].
    - split; [done|]. left. split; [congruence|by apply Hask].
    - split; [done|]. right. auto. }
  case_match eqn:Hstat; [apply Hres; [by repeat split|by left]|].
  destruct (ct_password req) as [pass|] eqn:Hpw; [|apply Hres; [by repeat split|by left]].
  destruct (module e) as [m|] eqn:Hm; [|apply Hres; [by repeat split|by left]].
  destruct (auth_pass m _ pass) as [ret ctx] eqn:Hpass. apply Hres; [by repeat split|right].
  split_and!; [|done| |].
  3: { intros -> e' (Hm' & Hu & Hctx). exists m, pass, ctx. split_and!; [done..|]. simpl in Hm', Hctx.
       rewrite Hm in Hm'. split_and!; [done|by apply Hctx|done]. }
  - apply andb_false_iff in Hstat as [?|?]; [left|right]; case_bool_decide; done.
  - intros ->. exists m, pass. change (auth_ctx e) with (auth_ctx (set_status e PS_AUTH_CONT)). by rewrite Hpass.
Qed.

Lemma auth_init_refines x sec req pid :
  db_ok sec → ext_ok x sec →
  refines x sec (CMD_SEC_AUTH_INIT req pid) (handle_sec_auth_init x sec req pid).2.
Proof.
  intros Hok Hx. unfold handle_sec_auth_init. set (v := find_vhost sec (ia_vhost req)).
  pose proof (new_client_entry_spec x sec v (ia_ip req) pid Hok Hx) as Hnew.
  destruct (new_client_entry _ _ _ _ _) as [[p|] sec1]; destruct Hnew as (Hok1 & _ & Hnew).
  2: { simpl. split; [done|]. intros k. rewrite Hnew. constructor. }
  destruct Hnew as (k & Hlen & Hnone & Hp & Hdb1). rewrite Hp.
  set (e0 := fresh_entry v (ia_ip req) pid k (now x 0)) in *.
  assert (∀ e1 result,
    same_session e0 e1 →
    (result < 0 ∧ (result = ERR_AUTH_CONTINUE → status e1 = PS_AUTH_INIT ∧
                     ∀ e', asked e1 e' → init_asks v req pid e') ∨
     result = 0 ∧ init_accepts v req pid) →
    refines x sec (CMD_SEC_AUTH_INIT req pid) (handle_sec_auth_res x sec1 p e1 result).2) as Hres.
  { intros e1 result Hs1 Hcase.
    destruct (auth_res_spec x sec1 p e1 result) as (e' & Hdb & Hs & Hout).
    pose proof (same_session_trans _ _ _ Hs1 Hs) as (Hsid & Hv & Hcr & Hex & Hiu & Hop & Hst & Hsv & _).
    destruct (changes_set sec1 (handle_sec_auth_res x sec1 p e1 result).2 p e0 e' Hok1 Hp Hsid Hdb)
      as [Hok2 Hdb2].
    eapply (refines_at _ _ _ _ k (Some e')).
    - split; [done|]. rewrite Hdb2, Hdb1. exact (insert_insert_eq (db sec) k e' e0).
    - rewrite Hnone. apply ss_create; try (by rewrite ?Hv).
      destruct Hcase as [[Hneg Hinit]|[-> Hacc]].
      + destruct Hout as [?|[(He & He' & Hask)|(-> & _)]]; [by left| |lia].
        destruct (Hinit He) as [Hi Ha]. right; left. rewrite He', Hv. split; [done|by apply Ha].
      + destruct Hout as [?|[[? _]|(_ & _ & ? & ?)]]; [by left|done|]. right; right.
        by rewrite Hv. }
  unfold set_module. destruct (Z.eqb_spec (ia_auth_type req) 0).
  { simpl. apply Hres; [by repeat split|left; by split]. }
  destruct (List.find _ _) as [a|] eqn:Ha; simpl.
  2: { apply Hres; [by repeat split|left; by split]. }
  destruct (as_amod a) as [m|] eqn:Hm; simpl.
  - destruct (auth_init m _ _) as [ret ctx] eqn:Hi.
    destruct (Z.eqb_spec ret ERR_AUTH_CONTINUE); [|destruct (Z.ltb_spec ret 0)];
      (apply Hres; [by repeat split|]); [left; split; [by subst|]|left; by split|right].
    { intros _. split; [done|]. intros e' (Hm' & Hu & Hctx). exists a, m, ctx. subst ret.
      split_and!; [done..|]. split_and!; [done|by apply Hctx|by rewrite Hu]. }
    split; [done|]. exists a. rewrite Hm, Hi. by split_and!.
  - apply Hres; [by repeat split|right]. split; [done|]. exists a. by rewrite Hm.
Qed.

Lemma max_opt_max o n : max_opt o n = match o with Some v => Z.max n v | None => n end.
Proof. unfold max_opt. destruct o; [|done]. bool_cases; lia. Qed.

Lemma stats_refines x sec req pid :
  db_ok sec → refines x sec (CMD_SEC_CLI_STATS req pid) (handle_sec_auth_stats_cmd sec req pid).2.
Proof.
  intros Hok. unfold handle_sec_auth_stats_cmd. case_match; [by apply refines_same|].
  destruct (lookup_entry sec (cs_sid req)) as [[p e]|] eqn:Hl; [|by apply refines_same].
  apply lookup_entry_sound in Hl as [Hp Hk].
  case_match eqn:Hst; [by apply refines_same|].
  apply negb_false_iff, bool_decide_eq_true in Hst. cbv zeta.
  case_match; simpl; (eapply refines_set; [done|exact Hp|..|done|]; [done|]);
    apply ss_stats; try done; apply (max_opt_max (Some _)).
Qed.

Lemma ban_reply_refines x sec msg :
  db_ok sec → refines x sec (CMD_SECM_BAN_IP_REPLY msg) (handle_sec_auth_ban_ip_reply sec msg).
Proof.
  intros Hok. unfold handle_sec_auth_ban_ip_reply. case_match; [by apply refines_same|].
  destruct (lookup_entry sec (br_sid msg)) as [[p e]|] eqn:Hl; [|by apply refines_same].
  apply lookup_entry_sound in Hl as [Hp Hk].
  case_bool_decide; [by apply refines_same|].
  eapply refines_set; [done|exact Hp|..|done|]; [done|]. by apply ss_ban.
Qed.

Lemma session_open_reply_spec x sec p e seed :
  ∃ e', (client_db (session_open_reply x sec p e seed).2 = client_db sec ∧ e' = e ∨
         client_db (session_open_reply x sec p e seed).2 = sset p e' (client_db sec) ∧
         e' = {| e with exptime := now x 1 + cookie_timeout (vhost e) + AUTH_SLACK_TIME;
                        in_use := u32 (in_use e + 1) |}).
Proof.
  unfold session_open_reply. destruct (mem x 2); [|exists e; by left].
  cbv zeta. destruct (_ <? 0); [exists e; left; by rewrite failed_reply_client_db|].
  destruct (_ <? 0); [exists e; by left|]. eexists. by right.
Qed.

Lemma session_open_refines x sec req :
  db_ok sec → refines x sec (CMD_SECM_SESSION_OPEN req) (handle_secm_session_open_cmd x sec req).2.
Proof.
  intros Hok. unfold handle_secm_session_open_cmd.
  case_match; [by apply refines_same; rewrite ?failed_reply_client_db|].
  destruct (lookup_entry sec (so_sid req)) as [[p e]|] eqn:Hl;
    [|by apply refines_same; rewrite ?failed_reply_client_db].
  apply lookup_entry_sound in Hl as [Hp Hk].
  case_match eqn:Hst; [by apply refines_same; rewrite ?failed_reply_client_db|].
  apply negb_false_iff, bool_decide_eq_true in Hst.
  case_match eqn:Hexp.
  { eapply refines_set; [done|exact Hp|..|rewrite failed_reply_client_db; done|]; [done|].
    by apply ss_deny; [..|by repeat split]. }
  cbv zeta. set (e1 := set_addrs e (so_ipv4 req) (so_ipv6 req)).
  set (sec1 := if bool_decide _ then _ else sec).
  assert (client_db sec1 = client_db sec) as Hdb1 by (unfold sec1; by case_match).
  assert (same_session e e1 ∧ status e1 = status e ∧ same_cert e e1) as (Hs1 & Hst1 & Hc1)
    by (by repeat split). clearbody e1 sec1.
  case_match.
  { eapply refines_set; [done|exact Hp|..|rewrite failed_reply_client_db; simpl; by rewrite Hdb1|];
      [apply Hs1|]. by apply ss_deny. }
  set (e2 := {| e1 with session_is_open := true |}).
  assert (∀ e' sec', client_db sec' = sset p e' (client_db sec) →
    e' = e2 ∨ e' = {| e2 with exptime := now x 1 + cookie_timeout (vhost e2) + AUTH_SLACK_TIME;
                              in_use := u32 (in_use e2 + 1) |} →
    refines x sec (CMD_SECM_SESSION_OPEN req) sec') as Hres.
  { intros e' sec' Hdb He'. destruct Hs1 as (Hsid & Hv & Hcr & Hex & Hiu & _ & Hsta & Hsv & Hdr).
    eapply refines_set; [done|exact Hp|..|exact Hdb|]; [by destruct He' as [->| ->]|].
    apply ss_open; try done; try (destruct He' as [->| ->]; simpl; congruence).
    - destruct He' as [->| ->]; simpl; [by left|right]. by rewrite Hiu, Hv.
    - destruct He' as [->| ->]; by apply cert_ok_same. }
  assert (∀ seed, refines x sec (CMD_SECM_SESSION_OPEN req)
    (session_open_reply x (set_entry p e2 sec1) p e2 seed).2) as Hrep.
  { intros seed. destruct (session_open_reply_spec x (set_entry p e2 sec1) p e2 seed)
      as (e' & [[Hd He']|[Hd He']]); apply (Hres e'); [|by left| |by right]; rewrite Hd.
    - simpl. by rewrite Hdb1, He'.
    - simpl. rewrite Hdb1. unfold sset. simpl. by rewrite insert_insert_eq. }
  destruct (predictable_ips (vhost e2)); [done|]. destruct (rnd_seed x); [done|].
  apply (Hres e2); [simpl; by rewrite Hdb1|by left].
Qed.

Lemma close_entry_changes x sec ev req p e :
  db_ok sec → entry sec p = Some e →
  changes sec (expire_client_entry x p
      (set_entry p (save_stats (close_stats req e)) (emit ev sec))) (sid e)
    (release (now x 0) (save_stats (close_stats req e))).
Proof.
  intros Hok Hp. set (sec1 := set_entry p (save_stats (close_stats req e)) _).
  destruct (changes_set sec sec1 p e (save_stats (close_stats req e)) Hok Hp) as [Hok1 Hdb1];
    [done..|].
  destruct (expire_client_entry_spec x p (save_stats (close_stats req e)) sec1 Hok1) as [Hok2 Hdb2];
    [apply set_entry_entry|].
  split; [done|]. rewrite Hdb2, Hdb1. apply map_eq. intros k.
  destruct (decide (k = sid e)) as [->|]; [by rewrite !lookup_partial_alter_eq|].
  by rewrite !lookup_partial_alter_ne.
Qed.

Lemma session_close_refines x sec req :
  db_ok sec → refines x sec (CMD_SECM_SESSION_CLOSE req) (handle_secm_session_close_cmd x sec req).2.
Proof.
  intros Hok. unfold handle_secm_session_close_cmd. case_match; [by apply refines_same|].
  destruct (lookup_entry sec (sc_sid req)) as [[p e]|] eqn:Hl; [|by apply refines_same].
  apply lookup_entry_sound in Hl as [Hp Hk].
  case_match eqn:Hst; [by apply refines_same|].
  assert (status e = PS_AUTH_COMPLETED) as Hcomp by (by destruct (status e)). cbv zeta.
  case_match eqn:Hsend.
  { eapply refines_set; [done|exact Hp|..|done|]; [done|]. apply ss_close_fails; [done..|].
    by apply Z.ltb_lt. }
  eapply (refines_at _ _ _ _ (sid e)); [by apply close_entry_changes|].
  rewrite (entry_db sec p e) by done. apply ss_close; [done..|]. by apply Z.ltb_ge.
Qed.

(** A close that succeeds releases the session. *)
Lemma close_changes x sec req e k :
  db_ok sec → db sec !! k = Some e → status e = PS_AUTH_COMPLETED → sc_sid req = k →
  Z.of_nat (length k) = SID_SIZE → 0 ≤ send x 0 →
  changes sec (handle_secm_session_close_cmd x sec req).2 k
    (release (now x 0) (save_stats (close_stats req e))).
Proof.
  intros Hok Hk Hst <- Hlen Hsend. unfold handle_secm_session_close_cmd, sid_ok.
  rewrite lookup_entry_db in Hk by done. rewrite (proj2 (Z.eqb_eq _ _) Hlen). simpl.
  destruct (lookup_entry sec (sc_sid req)) as [[p f]|] eqn:Hl; simplify_eq/=.
  apply lookup_entry_sound in Hl as [Hp <-]. rewrite Hst. simpl.
  rewrite (proj2 (Z.ltb_ge _ _) Hsend). simpl. by apply close_entry_changes.
Qed.

Lemma maintenance_refines x sec : db_ok sec → refines x sec MAINTENANCE (maintenance x sec).
Proof.
  intros Hok. destruct (cleanup_ok x sec Hok) as [Hok1 Hdb1].
  assert (client_db (maintenance x sec) = client_db (cleanup_client_entries x sec)) as Hm.
  { unfold maintenance, send_stats_to_main. by case_match. }
  split; [by eapply db_ok_ext|]. intros k. unfold db at 2. rewrite Hm. fold (db (cleanup_client_entries x sec)).
  rewrite Hdb1, map_lookup_filter. destruct (db sec !! k) as [e|]; simpl; [|constructor].
  case_guard as Hg; [constructor|]. apply ss_expire. by destruct (IS_CLIENT_ENTRY_EXPIRED e (now x 0)).
Qed.

(** Every step of the module keeps its database in order and is a step of
    each of its sessions. *)
Lemma step_refines x sec c :
  db_ok sec → ext_ok x sec → refines x sec c (sec_step x sec c).2.
Proof.
  intros Hok Hx. destruct c; simpl; [by apply stats_refines|by apply auth_init_refines|
    by apply auth_cont_refines| |by apply ban_reply_refines|by apply session_open_refines|
    by apply session_close_refines|by apply maintenance_refines].
  unfold handle_secm_list_cookies_reply. apply refines_same; [done|]. by repeat case_match.
Qed.
End refine.
