(* ===== verification/SecModSafety.v ===== *)
(** * What the security module guarantees

    The states the module can reach from its start, the invariant of its
    entries, and the guarantees about authentication and sessions the rest of
    the server relies on. *)

From S2P Require Import Prelude CString Htable Store SecModData SecModDb SecModAuth.
From S2P Require Import SecModDbSpec SecModMachine SecModRefine.

Section safety.
Context {T : Type} `{HT : HTable T, HS : !HTableSpec T, Env : SecModEnv}.
Implicit Types (sec : sec_mod_st T) (e : client_entry_st) (x : ext) (k : list Z).

Definition step sec sec' : Prop := ∃ x c, ext_ok x sec ∧ sec' = (sec_step x sec c).2.

Inductive reachable (vs : list vhost_cfg_st) (d : vhost_cfg_st) : sec_mod_st T → Prop :=
| reach_init : reachable vs d (sec_mod_init vs d)
| reach_step sec sec' : reachable vs d sec → step sec sec' → reachable vs d sec'.

Definition nonneg_stats (s : stats_st) : Prop := 0 ≤ bytes_in s ∧ 0 ≤ bytes_out s.

(** The invariant of an entry stored under [k]. *)
Record entry_inv k e : Prop := {
  ei_sid : sid e = k;
  ei_len : Z.of_nat (length k) = SID_SIZE;
  ei_in_use : 0 ≤ in_use e < 2 ^ 32;
  ei_used_open : 0 < in_use e → session_is_open e = true;
  ei_open : session_is_open e = true → status e = PS_AUTH_COMPLETED ∨ status e = PS_AUTH_FAILED;
  ei_status : status e ≠ PS_AUTH_INACTIVE;
  ei_cert : status e = PS_AUTH_COMPLETED → cert_ok e;
  ei_stats : nonneg_stats (stats e);
  ei_saved : nonneg_stats (saved_stats e);
}.

Lemma release_inv t k e e' :
  entry_inv k e → release t e = Some e' → entry_inv k e' ∧ status e' = status e.
Proof.
  intros [Hsid Hlen Hu Huo Ho Hs Hc Ht Hv]. unfold release. cbv zeta.
  destruct (Z.ltb_spec 0 (in_use e)); simpl; repeat case_match; intros [= <-];
    (split; [|done]); split; simpl; auto; lia.
Qed.

Lemma release_last t e :
  in_use e = 1 → persistent_cookies (vhost e) = false → session_is_open e = true →
  discon_reason e ∈ [REASON_SERVER_DISCONNECT; REASON_SESSION_TIMEOUT; REASON_USER_DISCONNECT] →
  release t e = None.
Proof.
  intros Hu Hp Ho Hd. unfold release. rewrite Hu. simpl. unfold invalidates. simpl.
  rewrite Hp, Ho. apply list_elem_of_In in Hd. simpl in Hd.
  by destruct Hd as [<-|[<-|[<-|[]]]].
Qed.

Lemma entry_inv_same k e e' :
  entry_inv k e → same_session e e' → status e' ≠ PS_AUTH_INACTIVE →
  (session_is_open e = true → status e' = PS_AUTH_COMPLETED ∨ status e' = PS_AUTH_FAILED) →
  (status e' = PS_AUTH_COMPLETED → cert_ok e') → entry_inv k e'.
Proof.
  intros [Hsid Hlen Hu Huo Ho Hs Hc] (E1 & _ & _ & _ & E2 & E3 & E4 & E5 & _) Hst Hop Hce.
  split; [congruence|done|by rewrite E2|by rewrite E2, E3|by rewrite E3|done|done|
    by rewrite E4|by rewrite E5].
Qed.

Lemma close_stats_inv k req e : entry_inv k e → entry_inv k (close_stats req e).
Proof.
  intros []. split; simpl; auto. unfold nonneg_stats in *. simpl. rewrite !max_opt_max.
  split; case_match; lia.
Qed.

Lemma save_stats_inv k e : entry_inv k e → entry_inv k (save_stats e).
Proof.
  intros []. split; simpl; auto; [done|]. split; simpl; by apply wrap_range.
Qed.

Lemma sess_step_inv x find k c o o' :
  sess_step x find k c o o' → (∀ e, o = Some e → entry_inv k e) →
  ∀ e', o' = Some e' → entry_inv k e'.
Proof.
  intros Hs Hinv. destruct Hs as
    [c o|req pid e Hk Hlen Hv Hu Ho Hst Hsv Hcr Hex Hstat|req e e' Hk Hs Hst|msg e Hk Hr|
     req e e' Hk Hst Hst' Hs|req e e' Hk Hst Hexp Hst' Ho Hu Hs _ _ Hsta Hsv|
     req pid e e' Hk Hst Hst' Hsid Hv Hcr Hex Hu Ho Hbi Hbo _ Hsv| req e Hk Hst Hse|req e Hk Hst Hse|e Hexp];
    intros f Hf; try done; [by apply Hinv|simplify_eq; try pose proof (Hinv _ eq_refl) as He..].
  - split; [done..|lia|lia|congruence| | |by rewrite Hst|by rewrite Hsv];
      destruct Hstat as [Hx|[[Hx _]|(Hx & _ & ?)]]; rewrite Hx; done.
  - apply (entry_inv_same _ _ _ He Hs).
    + destruct Hst as [Hx|[_ [[Hx _]|[Hx _]]]]; by rewrite Hx.
    + intros Hop%(ei_open _ _ He). destruct Hst as [Hx|[Hpre _]]; [by right|].
      destruct Hpre, Hop; congruence.
    + destruct Hst as [Hx|[_ [[Hx _]|(Hx & _ & ?)]]]; rewrite Hx; done.
  - apply (entry_inv_same _ _ _ He); [by repeat split|done|by right|done].
  - apply (entry_inv_same _ _ _ He Hs); try congruence. by right.
  - split; [rewrite Hs; apply He|apply He| |done|by left|congruence| |
      rewrite Hsta; apply He|rewrite Hsv; apply He].
    + destruct Hu as [[-> _]|[-> _]]; [apply He|by apply wrap_range].
    + intros _. match goal with H : cert_ok _ → _ |- _ => apply H end. by apply (ei_cert _ _ He).
  - split; [rewrite Hsid; apply He|apply He|rewrite Hu; apply He|rewrite Hu, Ho; apply He|
      by left|congruence| | |rewrite Hsv; apply He].
    + intros _. match goal with H : cert_ok _ → _ |- _ => apply H end. by apply (ei_cert _ _ He).
    + destruct (ei_stats _ _ He). split; lia.
  - by apply close_stats_inv.
  - eapply release_inv; [|done]. by apply save_stats_inv, close_stats_inv.
Qed.

Definition sec_inv sec : Prop :=
  db_ok sec ∧ ∀ k e, db sec !! k = Some e → entry_inv k e.

Lemma step_inv sec sec' : sec_inv sec → step sec sec' → sec_inv sec'.
Proof.
  intros [Hok Hinv] (x & c & Hx & ->). destruct (step_refines x sec c Hok Hx) as [Hok' Hs].
  split; [done|]. intros k e He. eapply sess_step_inv; [apply (Hs k)|intros; by eapply Hinv|done].
Qed.

Lemma reachable_inv vs d sec : reachable vs d sec → sec_inv sec.
Proof.
  induction 1 as [|sec sec' _ IH Hstep]; [|by eapply step_inv].
  split; [apply store_init_ok|]. intros k e. unfold db, view. simpl.
  rewrite map_to_list_empty. simpl. by rewrite lookup_empty.
Qed.

Lemma reachable_step vs d sec x c :
  reachable vs d sec → ext_ok x sec →
  ∀ k, sess_step x (find_vhost sec) k c (db sec !! k) (db (sec_step x sec c).2 !! k).
Proof. intros Hr Hx. by apply step_refines; [eapply reachable_inv|]. Qed.

(** ** A failed session *)

Lemma sess_step_failed x find k c e o' :
  sess_step x find k c (Some e) o' → status e = PS_AUTH_FAILED →
  o' = None ∧ c = MAINTENANCE ∧ IS_CLIENT_ENTRY_EXPIRED e (now x 0) = true ∨
  ∃ e', o' = Some e' ∧ status e' = PS_AUTH_FAILED ∧ in_use e' = in_use e.
Proof.
  inversion 1 as [| |req f f' Hk Hs Hst| | | | | | |]; subst; intros Hf; try congruence; try by eauto.
  right. exists f'. split; [done|]. destruct Hs as (_ & _ & _ & _ & ? & _).
  destruct Hst as [?|[[?|?] _]]; [done|congruence..].
Qed.

(** ** Session replies in the log *)

Definition session_ok_reply (k : list Z) (ev : event) : bool :=
  match ev with
  | EvSessionReply AUTH_REP_OK k' _ _ _ _ _ _ => bool_decide (k' = k)
  | _ => false
  end.

(** How many times the session [k] was granted. *)
Definition grants k sec : nat := length (filter (λ ev, session_ok_reply k ev = true) (log sec)).

Lemma grants_log k sec sec' : log sec' = log sec → grants k sec' = grants k sec.
Proof. unfold grants. by intros ->. Qed.

Lemma grants_emit k ev sec :
  grants k (emit ev sec) = ((if session_ok_reply k ev then 1 else 0) + grants k sec)%nat.
Proof.
  unfold grants. simpl. destruct (session_ok_reply k ev) eqn:E.
  - by rewrite filter_cons_True.
  - rewrite filter_cons_False; [done|]. by rewrite E.
Qed.

Lemma grants_set k p e sec : grants k (set_entry p e sec) = grants k sec.
Proof. done. Qed.

Lemma grants_deinit k e sec : grants k (sec_auth_user_deinit e sec) = grants k sec.
Proof. unfold sec_auth_user_deinit. by repeat case_match; rewrite ?grants_emit. Qed.

Lemma grants_expire k x p sec : grants k (expire_client_entry x p sec) = grants k sec.
Proof.
  unfold expire_client_entry, del_client_entry. by repeat (case_match; cbv zeta); rewrite ?grants_deinit.
Qed.

Lemma grants_score k x sec e ip n :
  grants k (sec_mod_add_score_to_ip x sec e ip n) = grants k sec.
Proof. unfold sec_mod_add_score_to_ip. by repeat case_match; rewrite ?grants_emit. Qed.

Lemma grants_if k (b : bool) sec sec' :
  grants k sec = grants k sec' → grants k (if b then sec else sec') = grants k sec'.
Proof. by destruct b. Qed.

Lemma grants_auth_time k sec t : grants k (update_auth_time_stats sec t) = grants k sec.
Proof. unfold update_auth_time_stats. by repeat case_match. Qed.

Lemma grants_reply k x sec e r : grants k (send_sec_auth_reply x sec e r).2 = grants k sec.
Proof.
  unfold send_sec_auth_reply. destruct r, (send x 1 <? 0); simpl;
    by rewrite grants_emit, ?grants_auth_time.
Qed.

Lemma grants_res k x sec p e result : grants k (handle_sec_auth_res x sec p e result).2 = grants k sec.
Proof.
  unfold handle_sec_auth_res. destruct (ask_msg e result) as [[ret|r] e1]; [done|].
  case_match; [|case_match].
  - unfold auth_res_continue, send_sec_auth_reply_msg. cbv zeta.
    destruct (send x 1 <? 0); simpl; rewrite grants_set, grants_emit, grants_if;
      by rewrite ?grants_score.
  - unfold auth_res_accept. destruct (check_group e1) as [c e2].
    destruct (c <? 0); [done|]. cbv zeta.
    destruct (send_sec_auth_reply _ _ _ _) as [[ret e3] s] eqn:Hs.
    assert (grants k s = grants k sec) as Hg
      by (change s with (ret, e3, s).2; rewrite <- Hs; apply grants_reply).
    by destruct (ret <? 0).
  - unfold auth_res_reject. cbv zeta.
    destruct (send_sec_auth_reply _ _ _ _) as [[ret e3] s] eqn:Hs.
    change (grants k (ret, e3, s).2 = grants k sec). by rewrite <- Hs, grants_reply, grants_score.
Qed.

Lemma grants_failed k x sec : grants k (send_failed_session_open_reply x sec).2 = grants k sec.
Proof. unfold send_failed_session_open_reply. case_match; simpl; by rewrite ?grants_emit. Qed.

Lemma grants_new x sec v ip pid k : grants k (new_client_entry x sec v ip pid).2 = grants k sec.
Proof.
  unfold new_client_entry. destruct (mem x 0); [|done]. destruct (choose_sid _ _ _ _); [|done].
  by destruct (sadd _ _ _ _ _ _).
Qed.

Lemma grants_init k x sec req pid : grants k (handle_sec_auth_init x sec req pid).2 = grants k sec.
Proof.
  unfold handle_sec_auth_init. rewrite <- (grants_new x sec (find_vhost sec (ia_vhost req)) (ia_ip req) pid k).
  destruct (new_client_entry _ _ _ _ _) as [[p|] s]; simpl; [|done].
  destruct (entry s p) as [e|]; [|done]. destruct (set_module _ _ _) as [ret e1].
  destruct (ret <? 0); [apply grants_res|]. destruct (module e1) as [m|]; [|apply grants_res].
  destruct (auth_init m _ _) as [ret' ctx]. repeat (destruct (_ <? _) || destruct (_ =? _));
    apply grants_res.
Qed.

Lemma grants_cont k x sec req : grants k (handle_sec_auth_cont x sec req).2 = grants k sec.
Proof.
  unfold handle_sec_auth_cont. destruct (negb _); [done|].
  destruct (lookup_entry _ _) as [[p e]|]; [|done].
  destruct (negb _ && _); [apply grants_res|].
  destruct (ct_password req), (module e) as [m|]; try apply grants_res.
  destruct (auth_pass m _ _). apply grants_res.
Qed.

Lemma grants_maintenance k x sec : grants k (maintenance x sec) = grants k sec.
Proof.
  unfold maintenance, send_stats_to_main. cbv zeta.
  assert (grants k (cleanup_client_entries x sec) = grants k sec) as <-; [|by case_match].
  unfold cleanup_client_entries. generalize (htable_walk (tbl (client_db sec))) as ps. intros ps.
  revert sec. induction ps as [|p ps IH]; intros sec; simpl; [done|]. rewrite IH.
  unfold cleanup_step. destruct (entry sec p); [|done]. case_match; [|done].
  by rewrite grants_deinit.
Qed.

Lemma grants_open_reply k x sec p e seed :
  grants k (session_open_reply x sec p e seed).2 ≠ grants k sec → sid e = k.
Proof.
  unfold session_open_reply. destruct (mem x 2); [|done]. cbv zeta.
  destruct (_ <? 0); [by rewrite grants_failed|].
  destruct (send x 1 <? 0); simpl; rewrite ?grants_set, grants_emit; simpl;
    case_bool_decide; done.
Qed.

(** A session is granted by a session open command for it, to an
    authenticated client whose cookie has not expired. *)
Lemma grants_open k x sec req :
  grants k (handle_secm_session_open_cmd x sec req).2 ≠ grants k sec →
  so_sid req = k ∧ ∃ p e, lookup_entry sec k = Some (p, e) ∧
    status e = PS_AUTH_COMPLETED ∧ IS_CLIENT_ENTRY_EXPIRED e (now x 0) = false.
Proof.
  unfold handle_secm_session_open_cmd. destruct (negb (sid_ok _)); [by rewrite grants_failed|].
  destruct (lookup_entry sec (so_sid req)) as [[p e]|] eqn:Hl; [|by rewrite grants_failed].
  destruct (bool_decide _) eqn:Hst; cbn [negb]; [|by rewrite grants_failed]. cbv zeta.
  apply bool_decide_eq_true in Hst.
  destruct (IS_CLIENT_ENTRY_EXPIRED e (now x 0)) eqn:Hexp; [by rewrite grants_failed|].
  set (e1 := set_addrs _ _ _). set (sec1 := if bool_decide _ then _ else _).
  assert (grants k sec1 = grants k sec) as Hg.
  { unfold sec1. apply grants_if. by rewrite grants_emit. }
  assert (sid e1 = so_sid req) as Hsid.
  { by apply lookup_entry_sound in Hl as [_ <-]. } clearbody e1 sec1.
  intros Hne. assert (so_sid req = k) as <-; [|split; [done|]; by exists p, e].
  rewrite <- Hsid. revert Hne. rewrite <- Hg.
  destruct (match acct_open _ _ with Some _ => _ | None => _ end); [by rewrite grants_failed|].
  set (e2 := {| e1 with session_is_open := true |}).
  rewrite <- (grants_set k p e2 sec1). change (sid e1) with (sid e2).
  destruct (predictable_ips (vhost e2)); [apply grants_open_reply|].
  destruct (rnd_seed x); [apply grants_open_reply|done].
Qed.

Lemma grants_step k x sec c :
  grants k (sec_step x sec c).2 ≠ grants k sec →
  ∃ req p e, c = CMD_SECM_SESSION_OPEN req ∧ so_sid req = k ∧ lookup_entry sec k = Some (p, e) ∧
    status e = PS_AUTH_COMPLETED ∧ IS_CLIENT_ENTRY_EXPIRED e (now x 0) = false.
Proof.
  unfold sec_step. destruct c as [req pid|req pid|req| |msg|req|req|];
    cbn [process_worker_packet process_packet_from_main fst snd].
  - unfold handle_sec_auth_stats_cmd. destruct (negb _); [done|].
    destruct (lookup_entry _ _) as [[p e]|]; [|done]. destruct (negb _); [done|]. cbv zeta.
    case_match; simpl; by rewrite ?grants_emit.
  - by rewrite grants_init.
  - by rewrite grants_cont.
  - unfold handle_secm_list_cookies_reply. repeat case_match; by rewrite grants_emit.
  - unfold handle_sec_auth_ban_ip_reply. by repeat case_match.
  - intros [Hk (p & e & H)]%grants_open. exists req, p, e. naive_solver.
  - unfold handle_secm_session_close_cmd. destruct (negb _); [done|].
    destruct (lookup_entry _ _) as [[p e]|]; [|simpl; by rewrite grants_emit].
    destruct (_ <? _); [simpl; by rewrite grants_emit|]. cbv zeta.
    destruct (_ <? _); simpl; by rewrite ?grants_expire, grants_set, grants_emit.
  - by rewrite grants_maintenance.
Qed.

(** ** The list of cookies *)

(** The array of cookies never fills up before the walk ends. *)
Lemma cookies_loop_spec sec t n ps :
  n + Z.of_nat (length ps) ≤ htable_elems (tbl (client_db sec)) →
  cookies_loop sec t n ps =
    cookie_of <$> filter (λ e, IS_CLIENT_ENTRY_EXPIRED e t = false) (omap (entry sec) ps).
Proof.
  revert n. induction ps as [|p ps IH]; intros n Hn; [done|]. cbn [cookies_loop length] in *.
  change (omap (entry sec) (p :: ps)) with
    (match entry sec p with Some y => y :: omap (entry sec) ps | None => omap (entry sec) ps end).
  destruct (entry sec p) as [e|]; [|apply IH; lia].
  destruct (IS_CLIENT_ENTRY_EXPIRED e t) eqn:Hexp.
  - rewrite filter_cons_False by (by rewrite Hexp). apply IH. lia.
  - rewrite filter_cons_True by done. destruct (Z.leb_spec (htable_elems (tbl (client_db sec))) n); [lia|].
    cbn [fmap list_fmap]. f_equal. apply IH. lia.
Qed.

(** ** Traffic *)

Definition total_in e : Z := bytes_in (saved_stats e) + bytes_in (stats e).
Definition total_out e : Z := bytes_out (saved_stats e) + bytes_out (stats e).

Lemma release_stats t e e' :
  release t e = Some e' → stats e' = stats e ∧ saved_stats e' = saved_stats e.
Proof.
  unfold release. cbv zeta. destruct (0 <? in_use e); simpl; repeat case_match; by intros [= <-].
Qed.

Lemma close_totals k req e :
  entry_inv k e →
  total_in e ≤ total_in (close_stats req e) ∧ total_out e ≤ total_out (close_stats req e).
Proof.
  intros He. unfold total_in, total_out. simpl. rewrite !max_opt_max. split; case_match; lia.
Qed.

Lemma save_totals k e :
  entry_inv k e → total_in e < 2 ^ 64 → total_out e < 2 ^ 64 →
  total_in (save_stats e) = total_in e ∧ total_out (save_stats e) = total_out e.
Proof.
  intros He. destruct (ei_stats _ _ He), (ei_saved _ _ He). unfold total_in, total_out. simpl.
  intros. rewrite !wrap_small by lia. lia.
Qed.

(** ** Times of authentication *)

Lemma avg_le_max sec t :
  0 ≤ avg_auth_time sec ≤ max_auth_time sec → max_auth_time sec < 2 ^ 32 → t < 2 ^ 32 →
  let sec' := update_auth_time_stats sec t in
  0 ≤ avg_auth_time sec' ≤ max_auth_time sec' ∧ max_auth_time sec' < 2 ^ 32.
Proof.
  intros Ha Hm Ht. unfold update_auth_time_stats. cbv zeta. destruct (Z.ltb_spec t 0); [done|].
  set (n := u32 (total_authentications sec + 1)).
  assert (0 ≤ n < 2 ^ 32) as Hn by (by apply wrap_range).
  destruct (Z.eqb_spec n 0); [simpl; lia|].
  set (mx := Z.max (max_auth_time sec) t).
  assert (0 ≤ mx < 2 ^ 32) as Hmx by lia.
  set (prod := u32 (avg_auth_time sec * u32 (n - 1))).
  assert (0 ≤ prod ≤ mx * (n - 1)) as Hprod.
  { unfold prod. rewrite (wrap_small 32 (n - 1)) by lia. unfold wrap. split; [apply Z.mod_pos_bound; lia|].
    etransitivity; [apply Z.mod_le; nia|]. apply Z.mul_le_mono_nonneg_r; lia. }
  assert (0 ≤ (prod + t) `quot` n ≤ mx) as Hq.
  { rewrite Z.quot_div_nonneg by lia. split; [apply Z.div_pos; lia|].
    apply Z.div_le_upper_bound; [lia|]. nia. }
  assert (u32 ((prod + t) `quot` n) = (prod + t) `quot` n) as Hw by (apply wrap_small; lia).
  assert (u32 t = t) as Hwt by (apply wrap_small; lia).
  cbn [avg_auth_time max_auth_time total_authentications].
  destruct (Z.ltb_spec (max_auth_time sec) t); cbn [avg_auth_time max_auth_time total_authentications];
    change (u32 (avg_auth_time sec * u32 (n - 1))) with prod; rewrite Hw, ?Hwt; lia.
Qed.
End safety.
