(* ===== verification/SecModTheorems.v ===== *)
(** * The theorems about the security module

    A concrete server to run the model on, and the properties of the
    authentication and session handling with a witness each. *)

From stdpp Require Import relations.
From S2P Require Import Prelude CString Htable Store SecModData SecModDb SecModAuth.
From S2P Require Import SecModDbSpec SecModMachine SecModRefine SecModSafety.

(** ** A concrete server

    One virtual host with a password method, whose module accepts one
    password, and a certificate method without a module. *)
Module Demo.
#[global] Instance env : SecModEnv := {|
  auth_ctx_t := unit; vhost_ctx_t := unit;
  hash_any l := foldr Z.add 0 l; sha1 l := l; base64_encode _ := "id"%string |}.

Definition password_mod : auth_mod_st := {|
  allows_retries := true;
  auth_init _ _ := (ERR_AUTH_CONTINUE, Some ());
  auth_msg ctx := (0, ctx, (Some "Password:"%string, 0));
  auth_pass ctx p :=
    (if bool_decide (p = "secret"%string) then 0 else
     if bool_decide (p = "typo"%string) then ERR_AUTH_CONTINUE else ERR_AUTH_FAIL, ctx);
  auth_group := None;
  auth_user ctx u := (ctx, u) |}.

Definition host : vhost_cfg_st := {|
  vhost_name := None;
  vhost_auth := [ {| as_enabled := true; as_type := 2; as_amod := Some password_mod;
                     as_ctx := None |};
                  {| as_enabled := true; as_type := AUTH_TYPE_CERTIFICATE; as_amod := None;
                     as_ctx := None |} ];
  vhost_acct := None; get_sup_config := None; cookie_timeout := 300;
  persistent_cookies := false; predictable_ips := true; max_ban_score := 50;
  ban_points_wrong_password := 10; stats_reset_time := 0;
  cert_user_oid := None; cert_group_oid := None |}.

Definition cookie : list Z := repeat 7 32.

Definition answers (p : ptr) (t : Z) : ext := {|
  now _ := t; mem _ := Some p; rnd_sid _ := Some cookie; rnd_seed := Some 5;
  send _ := 0; calloc_ok := true |}.

Definition init_req (method : Z) (cert : bool) : SecAuthInitMsg := {|
  ia_vhost := None; ia_ip := "10.0.0.1"; ia_auth_type := method;
  ia_user_name := Some "alice"%string; ia_our_ip := None; ia_user_agent := None;
  ia_group_name := None; ia_cert_user_name := None; ia_cert_group_names := [];
  ia_tls_auth_ok := cert |}.

Definition cont_req (p : string) : SecAuthContMsg := {| ct_sid := cookie; ct_password := Some p |}.
Definition open_req : SecmSessionOpenMsg := {| so_sid := cookie; so_ipv4 := None; so_ipv6 := None |}.
Definition stats_req (n reason : Z) : CliStatsMsg := {|
  cs_sid := cookie; cs_bytes_in := n; cs_bytes_out := n; cs_uptime := 1;
  cs_discon_reason := Some reason; cs_remote_ip := None; cs_ipv4 := None; cs_ipv6 := None |}.
Definition close_req (n : Z) : SecmSessionCloseMsg := {|
  sc_sid := cookie; sc_uptime := None; sc_bytes_in := Some n; sc_bytes_out := Some n |}.

(** A run: the user logs in, opens the session, sends traffic. *)
Definition s0 : sec_mod_st rtable := sec_mod_init [] host.
Definition s1 := (sec_step (answers (heap 2) 1000) s0 (CMD_SEC_AUTH_INIT (init_req 2 false) 77)).2.
Definition s2 := (sec_step (answers (heap 3) 1005) s1 (CMD_SEC_AUTH_CONT (cont_req "secret"))).2.
Definition s3 := (sec_step (answers (heap 4) 1010) s2 (CMD_SECM_SESSION_OPEN open_req)).2.
Definition s4 := (sec_step (answers (heap 4) 1020) s3 (CMD_SEC_CLI_STATS (stats_req 100 3) 77)).2.
(** A second password for the session in use. *)
Definition s5 := (sec_step (answers (heap 4) 1020) s3 (CMD_SEC_AUTH_CONT (cont_req "secret"))).2.

Lemma answers_ok p t (sec : sec_mod_st rtable) :
  ptr_ok p → entry sec p = None → ext_ok (answers p t) sec.
Proof. intros Hp Hn. split; [by intros ? [= <-]|by intros i k [= <-]]. Qed.

Lemma reach_s1 : reachable [] host s1.
Proof.
  eapply reach_step; [apply reach_init|]. eexists _, _. split; [|reflexivity].
  apply answers_ok; [done|reflexivity].
Qed.

Lemma reach_s2 : reachable [] host s2.
Proof.
  eapply reach_step; [apply reach_s1|]. eexists _, _. split; [|reflexivity].
  apply answers_ok; [done|by vm_compute].
Qed.

Lemma reach_s3 : reachable [] host s3.
Proof.
  eapply reach_step; [apply reach_s2|]. eexists _, _. split; [|reflexivity].
  apply answers_ok; [done|by vm_compute].
Qed.

Lemma reach_s4 : reachable [] host s4.
Proof.
  eapply reach_step; [apply reach_s3|]. eexists _, _. split; [|reflexivity].
  apply answers_ok; [done|by vm_compute].
Qed.

Lemma reach_s5 : reachable [] host s5.
Proof.
  eapply reach_step; [apply reach_s3|]. eexists _, _. split; [|reflexivity].
  apply answers_ok; [done|by vm_compute].
Qed.
End Demo.

Section theorems.
Context {T : Type} `{HT : HTable T, HS : !HTableSpec T, Env : SecModEnv}.
Implicit Types (sec : sec_mod_st T) (e : client_entry_st) (x : ext) (k : list Z).

(** C2: Every command the security module handles in a reachable state, and
    its periodic maintenance, leaves the client database in order and is,
    for each session identifier, one of the steps [sess_step] allows: the
    pointer and hash table level implements the abstract life of a
    session. *)
Theorem sec_mod_refines vs d sec x c :
  reachable vs d sec → ext_ok x sec →
  let sec' := (sec_step x sec c).2 in
  db_ok sec' ∧ ∀ k, sess_step x (find_vhost sec) k c (db sec !! k) (db sec' !! k).
Proof. intros Hr Hx. by apply step_refines; [eapply reachable_inv|]. Qed.

(** C18: In every reachable state the entry stored under an identifier has
    that identifier, of 32 bytes; its use counter is a 32 bit number and is
    positive only for an opened session; a session is open only if it was
    authenticated; and an authenticated session whose method asks for a
    certificate had one. *)
Theorem sec_mod_invariant vs d sec k e :
  reachable vs d sec → db sec !! k = Some e → entry_inv k e.
Proof. intros Hr. by apply (reachable_inv _ _ _ Hr). Qed.

(** C6: A session becomes authenticated in one way only: the module of its
    method accepted the user at its first message or accepted the password
    of a later one (a method without a module is the certificate alone), and
    a certificate was presented if the method asks for one. *)
Theorem completed_only_by_authentication vs d sec x c k e' :
  reachable vs d sec → ext_ok x sec →
  db (sec_step x sec c).2 !! k = Some e' → status e' = PS_AUTH_COMPLETED →
  (∃ e, db sec !! k = Some e ∧ status e = PS_AUTH_COMPLETED) ∨
  cert_ok e' ∧
  ((∃ req pid, c = CMD_SEC_AUTH_INIT req pid ∧ db sec !! k = None ∧
      init_accepts (find_vhost sec (ia_vhost req)) req pid) ∨
   (∃ req e, c = CMD_SEC_AUTH_CONT req ∧ ct_sid req = k ∧ db sec !! k = Some e ∧
      (status e = PS_AUTH_INIT ∨ status e = PS_AUTH_CONT) ∧ cont_accepts e req)).
Proof.
  intros Hr Hx. pose proof (reachable_step _ _ _ _ c Hr Hx k) as Hs. intros He' Hst.
  rewrite He' in Hs. destruct (db sec !! k) as [e|]; inversion Hs; subst; try by eauto.
  - match goal with H : status e' = PS_AUTH_FAILED ∨ _ |- _ =>
      destruct H as [?|[? [[? _]|(_ & ? & ?)]]]; [congruence..|] end.
    right. split; [done|]. right. eauto 10.
  - match goal with H : _ ∨ _ |- _ => destruct H as [?|[[? _]|(_ & ? & ?)]]; [congruence..|] end.
    right. split; [done|]. left. eexists _, _. split_and!; [done..|]. congruence.
Qed.

(** C17: A session that failed authentication, or was banned, stays failed
    until maintenance removes it once it has expired: no message of a worker
    or of the main process authenticates it again. *)
Theorem failed_is_final vs d sec x c k e :
  reachable vs d sec → ext_ok x sec → db sec !! k = Some e → status e = PS_AUTH_FAILED →
  (db (sec_step x sec c).2 !! k = None ∧ c = MAINTENANCE ∧
     IS_CLIENT_ENTRY_EXPIRED e (now x 0) = true) ∨
  ∃ e', db (sec_step x sec c).2 !! k = Some e' ∧ status e' = PS_AUTH_FAILED.
Proof.
  intros Hr Hx Hk Hf. pose proof (reachable_step _ _ _ _ c Hr Hx k) as Hs. rewrite Hk in Hs.
  destruct (sess_step_failed _ _ _ _ _ _ Hs Hf) as [?|(e' & ? & ? & _)]; eauto.
Qed.

(** C7: The reply that grants a session is sent only in answer to a session
    open command for it, for a session that is authenticated and whose
    cookie has not expired at that time. *)
Theorem session_granted_only_if_authenticated vs d sec x c k :
  reachable vs d sec → grants k (sec_step x sec c).2 ≠ grants k sec →
  ∃ req e, c = CMD_SECM_SESSION_OPEN req ∧ so_sid req = k ∧ db sec !! k = Some e ∧
    status e = PS_AUTH_COMPLETED ∧ IS_CLIENT_ENTRY_EXPIRED e (now x 0) = false ∧ cert_ok e.
Proof.
  intros Hr Hg. destruct (reachable_inv _ _ _ Hr) as [Hok Hinv].
  apply grants_step in Hg as (req & p & e & -> & Hk & Hl & Hst & Hexp).
  assert (db sec !! k = Some e) as He by (by rewrite lookup_entry_db, Hl).
  exists req, e. split_and!; try done. by apply (ei_cert _ _ (Hinv _ _ He)).
Qed.

(** A session that fails while it is in use (a password sent for an
    open session, or a ban) is never removed: after any number of commands
    and maintenance runs its entry is still there, failed, with the same use
    counter. *)
Theorem failed_session_in_use_leaks vs d sec sec' k e :
  reachable vs d sec → db sec !! k = Some e → status e = PS_AUTH_FAILED → 0 < in_use e →
  rtc step sec sec' →
  ∃ e', db sec' !! k = Some e' ∧ status e' = PS_AUTH_FAILED ∧ in_use e' = in_use e.
Proof.
  intros Hr Hk Hf Hu Hrun. revert e Hr Hk Hf Hu.
  induction Hrun as [|s1 s2 s3 Hstep _ IH]; intros e Hr Hk Hf Hu; [by eauto|].
  pose proof (reach_step _ _ _ _ Hr Hstep) as Hr2. destruct Hstep as (x & c & Hx & ->).
  pose proof (reachable_step _ _ _ _ c Hr Hx k) as Hs. rewrite Hk in Hs.
  destruct (sess_step_failed _ _ _ _ _ _ Hs Hf) as [(_ & _ & Hexp)|(e' & He' & Hf' & Hu')].
  - unfold IS_CLIENT_ENTRY_EXPIRED in Hexp. apply andb_true_iff in Hexp as [_ ?%Z.eqb_eq]. lia.
  - destruct (IH e' Hr2 He' Hf') as (e'' & ? & ? & ?); [lia|]. exists e''. by rewrite <- Hu'.
Qed.

(** Maintenance removes exactly the entries that have expired; an entry
    in use is never one of them. *)
Theorem maintenance_removes_expired vs d sec x :
  reachable vs d sec →
  db (sec_step x sec MAINTENANCE).2 =
    filter (λ ke, IS_CLIENT_ENTRY_EXPIRED ke.2 (now x 0) = false) (db sec) ∧
  ∀ k e, db sec !! k = Some e → 0 < in_use e →
    db (sec_step x sec MAINTENANCE).2 !! k = Some e.
Proof.
  intros [Hok _]%reachable_inv. destruct (cleanup_ok x sec Hok) as [_ Hdb].
  assert (db (sec_step x sec MAINTENANCE).2 = db (cleanup_client_entries x sec)) as ->.
  { unfold db. simpl. unfold maintenance, send_stats_to_main. by case_match. }
  split; [done|]. intros k e Hk Hu. rewrite Hdb. apply map_lookup_filter_Some. split; [done|].
  simpl. unfold IS_CLIENT_ENTRY_EXPIRED. apply andb_false_iff. right. apply Z.eqb_neq. lia.
Qed.

(** When the last user of an open session is disconnected by the server,
    by the session timeout or by the user, and cookies are not persistent,
    the cookie is worth nothing from then on: the entry is gone, and a
    session open with it is answered with a failure and changes nothing. *)
Theorem closed_cookie_is_rejected vs d sec x x' k e creq oreq :
  reachable vs d sec → db sec !! k = Some e → status e = PS_AUTH_COMPLETED → in_use e = 1 →
  persistent_cookies (vhost e) = false →
  discon_reason e ∈ [REASON_SERVER_DISCONNECT; REASON_SESSION_TIMEOUT; REASON_USER_DISCONNECT] →
  sc_sid creq = k → so_sid oreq = k → ext_ok x sec → 0 ≤ send x 0 → is_Some (mem x' 1) →
  let sec1 := (sec_step x sec (CMD_SECM_SESSION_CLOSE creq)).2 in
  let sec2 := (sec_step x' sec1 (CMD_SECM_SESSION_OPEN oreq)).2 in
  db sec1 = delete k (db sec) ∧ db sec2 = db sec1 ∧
  log sec2 = EvSessionReply AUTH_REP_FAILED [] "" "" "" false None 0 :: log sec1.
Proof.
  intros Hr Hk Hst Hu Hp Hd Hck Hok Hx Hsend [q Hq]. cbv zeta.
  destruct (reachable_inv _ _ _ Hr) as [Hdb Hinv]. pose proof (Hinv _ _ Hk) as He.
  pose proof (reachable_inv _ _ _ (reach_step _ _ _ _ Hr (ex_intro _ x (ex_intro _
    (CMD_SECM_SESSION_CLOSE creq) (conj Hx eq_refl))))) as [Hdb1 _].
  set (sec1 := (sec_step x sec (CMD_SECM_SESSION_CLOSE creq)).2) in *.
  assert (db sec1 = delete k (db sec)) as Hdel.
  { assert (changes sec sec1 k (release (now x 0) (save_stats (close_stats creq e)))) as [_ ->].
    { apply close_changes; try done. by apply (ei_len _ _ He). }
    rewrite release_last; [done|done|done|simpl; by apply (ei_used_open _ _ He); lia|done]. }
  split; [done|]. assert (lookup_entry sec1 k = None) as Hnone.
  { pose proof (lookup_entry_db sec1 k Hdb1) as Hl. rewrite Hdel, lookup_delete_eq in Hl.
    by destruct (lookup_entry sec1 k). }
  unfold sec_step. cbn [process_worker_packet process_packet_from_main].
  unfold handle_secm_session_open_cmd. rewrite Hok, Hnone.
  unfold send_failed_session_open_reply. rewrite Hq. by destruct (negb _).
Qed.

(** The list of cookies sent to the main process shows exactly the
    sessions that have not expired, each once; the array allocated for it is
    always large enough. *)
Theorem cookie_list_exact vs d sec x :
  reachable vs d sec → is_Some (mem x 0) → is_Some (mem x 1) →
  ∃ l, log (sec_step x sec CMD_SECM_LIST_COOKIES).2 = EvCookies l :: log sec ∧
    l ≡ₚ cookie_of <$> filter (λ e, IS_CLIENT_ENTRY_EXPIRED e (now x 0) = false)
                         (map_to_list (db sec)).*2.
Proof.
  intros [Hok _]%reachable_inv [p Hp] [q Hq].
  eexists. split.
  - unfold sec_step, process_worker_packet, process_packet_from_main.
    unfold handle_secm_list_cookies_reply. rewrite Hp, Hq. reflexivity.
  - rewrite cookies_loop_spec by (rewrite (walk_length sid hash_any) by done; lia).
    by rewrite (walk_view sid hash_any (client_db sec) Hok).
Qed.

(** The traffic accounted to a session, from its earlier uses and from
    the current one, never decreases, whatever the order of statistics
    messages and closes, as long as the sum fits in 64 bits. *)
Theorem traffic_never_decreases vs d sec x c k e e' :
  reachable vs d sec → ext_ok x sec →
  db sec !! k = Some e → db (sec_step x sec c).2 !! k = Some e' →
  (∀ req, c = CMD_SECM_SESSION_CLOSE req →
     total_in (close_stats req e) < 2 ^ 64 ∧ total_out (close_stats req e) < 2 ^ 64) →
  total_in e ≤ total_in e' ∧ total_out e ≤ total_out e'.
Proof.
  intros Hr Hx Hk Hk' Hfit. pose proof (reachable_step _ _ _ _ c Hr Hx k) as Hs.
  destruct (reachable_inv _ _ _ Hr) as [_ Hinv]. pose proof (Hinv _ _ Hk) as He.
  rewrite Hk, Hk' in Hs. inversion Hs as
    [c' o E1 E2 E3| |req f f' Hs1 Hsame| |req f f' Hs1 Hst Hst' Hsame| | |req f Hs1|
     req f Hs1 Hst Hsend E1 E2 Hrel|]; subst; unfold total_in, total_out; try (simpl; lia).
  - destruct Hsame as (_ & _ & _ & _ & _ & _ & -> & -> & _). lia.
  - destruct Hsame as (_ & _ & _ & _ & _ & _ & -> & -> & _). lia.
  - match goal with H : stats e' = _, H' : saved_stats e' = _ |- _ => rewrite H, H' end. lia.
  - match goal with H : saved_stats e' = _ |- _ => rewrite H end. lia.
  - by apply (close_totals (sc_sid req)).
  - apply release_stats in Hrel as [-> ->].
    destruct (Hfit req eq_refl), (close_totals _ req _ He).
    destruct (save_totals _ _ (close_stats_inv _ req _ He)); [done..|].
    unfold total_in, total_out in *. lia.
Qed.

(** The average time of authentication reported to the main process is
    at most the maximal one, and neither wraps, as long as no single
    authentication takes 2^32 seconds: an overflow of the product inside the
    average does not break this. *)
Theorem auth_time_avg_le_max sec t :
  0 ≤ avg_auth_time sec ≤ max_auth_time sec → max_auth_time sec < 2 ^ 32 → t < 2 ^ 32 →
  let sec' := update_auth_time_stats sec t in
  0 ≤ avg_auth_time sec' ≤ max_auth_time sec' ∧ max_auth_time sec' < 2 ^ 32.
Proof. apply avg_le_max. Qed.

(** After the periodic reset of the statistics the average is not the
    average of the authentications since: the number of authentications is
    not reset, so the first one after the reset, of [t] seconds, is reported
    as [t / (n + 1)] seconds where [n] is the number of all before it. *)
Theorem auth_time_avg_wrong_after_reset sec x t :
  stats_reset_time (default_vhost sec) ≠ 0 →
  stats_reset_time (default_vhost sec) < now x 1 - last_stats_reset sec →
  0 ≤ total_authentications sec < 2 ^ 32 - 1 → 0 ≤ t < 2 ^ 32 →
  avg_auth_time (update_auth_time_stats (send_stats_to_main x sec) t) =
    t / (total_authentications sec + 1).
Proof.
  intros Hz Hl Hn Ht. unfold send_stats_to_main. cbv zeta.
  rewrite (proj2 (Z.eqb_neq _ _) Hz), (proj2 (Z.ltb_lt _ _) Hl). simpl.
  unfold update_auth_time_stats. cbv zeta. simpl.
  rewrite (wrap_small 32 (total_authentications sec + 1)) by lia.
  destruct (Z.ltb_spec t 0); [lia|]. destruct (Z.eqb_spec (total_authentications sec + 1) 0); [lia|].
  assert (∀ s : sec_mod_st T, avg_auth_time {| s with avg_auth_time :=
    u32 ((u32 (0 * u32 (total_authentications sec + 1 - 1)) + t) `quot` (total_authentications sec + 1)) |}
    = t / (total_authentications sec + 1)) as E.
  { intros s. cbn [avg_auth_time]. rewrite Z.mul_0_l. change (u32 0) with 0.
    rewrite Z.add_0_l, Z.quot_div_nonneg by lia. apply wrap_small.
    split; [apply Z.div_pos; lia|]. apply Z.div_lt_upper_bound; nia. }
  destruct (Z.ltb_spec 0 t); simpl; apply (E sec).
Qed.
End theorems.

(** ** Witnesses *)
Module Witnesses.
Import Demo.

Definition entry_of (sec : sec_mod_st rtable) : client_entry_st :=
  default (fresh_entry host "" 0 [] 0) (db sec !! cookie).

Lemma sec_mod_refines_witness :
  db_ok s4 ∧ sess_step (answers (heap 4) 1020) (find_vhost s3) cookie
    (CMD_SEC_CLI_STATS (stats_req 100 3) 77) (db s3 !! cookie) (db s4 !! cookie).
Proof.
  destruct (sec_mod_refines [] host s3 (answers (heap 4) 1020) (CMD_SEC_CLI_STATS (stats_req 100 3) 77)
    reach_s3 (answers_ok (heap 4) 1020 s3 ltac:(done) ltac:(by vm_compute))) as [Hok Hs].
  split; [exact Hok|exact (Hs cookie)].
Defined.

Lemma sec_mod_invariant_witness : entry_inv cookie (entry_of s4).
Proof. apply (sec_mod_invariant [] host s4); [apply reach_s4|by vm_compute]. Defined.

Lemma completed_witness :
  (∃ e, db s1 !! cookie = Some e ∧ status e = PS_AUTH_COMPLETED) ∨
  cert_ok (entry_of s2) ∧
  ((∃ req pid, CMD_SEC_AUTH_CONT (cont_req "secret") = CMD_SEC_AUTH_INIT req pid ∧
      db s1 !! cookie = None ∧ init_accepts (find_vhost s1 (ia_vhost req)) req pid) ∨
   (∃ req e, CMD_SEC_AUTH_CONT (cont_req "secret") = CMD_SEC_AUTH_CONT req ∧ ct_sid req = cookie ∧
      db s1 !! cookie = Some e ∧
      (status e = PS_AUTH_INIT ∨ status e = PS_AUTH_CONT) ∧ cont_accepts e req)).
Proof.
  apply (completed_only_by_authentication [] host s1 (answers (heap 3) 1005));
    [apply reach_s1|apply answers_ok; [done|by vm_compute]|by vm_compute|by vm_compute].
Defined.

Lemma failed_is_final_witness :
  (db (sec_step (answers (heap 5) 9000) s5 MAINTENANCE).2 !! cookie = None ∧ MAINTENANCE = MAINTENANCE ∧
     IS_CLIENT_ENTRY_EXPIRED (entry_of s5) 9000 = true) ∨
  ∃ e', db (sec_step (answers (heap 5) 9000) s5 MAINTENANCE).2 !! cookie = Some e' ∧
    status e' = PS_AUTH_FAILED.
Proof.
  apply (failed_is_final [] host s5 (answers (heap 5) 9000));
    [apply reach_s5|apply answers_ok; [done|by vm_compute]|by vm_compute|by vm_compute].
Defined.

Lemma session_granted_witness :
  ∃ req e, CMD_SECM_SESSION_OPEN open_req = CMD_SECM_SESSION_OPEN req ∧ so_sid req = cookie ∧
    db s2 !! cookie = Some e ∧ status e = PS_AUTH_COMPLETED ∧
    IS_CLIENT_ENTRY_EXPIRED e 1010 = false ∧ cert_ok e.
Proof.
  apply (session_granted_only_if_authenticated [] host s2 (answers (heap 4) 1010));
    [apply reach_s2|by vm_compute].
Defined.

Lemma failed_leaks_witness :
  ∃ e', db (sec_step (answers (heap 5) 9000) s5 MAINTENANCE).2 !! cookie = Some e' ∧
    status e' = PS_AUTH_FAILED ∧ in_use e' = 1.
Proof.
  apply (failed_session_in_use_leaks [] host s5 _ cookie (entry_of s5));
    [apply reach_s5|by vm_compute|by vm_compute|by vm_compute|].
  apply rtc_once. exists (answers (heap 5) 9000), MAINTENANCE. split; [|reflexivity].
  apply answers_ok; [done|by vm_compute].
Defined.

Lemma maintenance_witness :
  db (sec_step (answers (heap 5) 9000) s4 MAINTENANCE).2 =
    filter (λ ke, IS_CLIENT_ENTRY_EXPIRED ke.2 9000 = false) (db s4) ∧
  ∀ k e, db s4 !! k = Some e → 0 < in_use e →
    db (sec_step (answers (heap 5) 9000) s4 MAINTENANCE).2 !! k = Some e.
Proof. apply (maintenance_removes_expired [] host s4 (answers (heap 5) 9000)), reach_s4. Defined.

Lemma closed_cookie_witness :
  let sec1 := (sec_step (answers (heap 4) 1030) s4 (CMD_SECM_SESSION_CLOSE (close_req 200))).2 in
  let sec2 := (sec_step (answers (heap 4) 1031) sec1 (CMD_SECM_SESSION_OPEN open_req)).2 in
  db sec1 = delete cookie (db s4) ∧ db sec2 = db sec1 ∧
  log sec2 = EvSessionReply AUTH_REP_FAILED [] "" "" "" false None 0 :: log sec1.
Proof.
  apply (closed_cookie_is_rejected [] host s4 (answers (heap 4) 1030) (answers (heap 4) 1031) cookie (entry_of s4));
    try (by vm_compute); [apply reach_s4| |apply answers_ok; [done|by vm_compute]|by eexists].
  vm_compute. left.
Defined.

Lemma cookie_list_witness :
  ∃ l, log (sec_step (answers (heap 5) 1040) s4 CMD_SECM_LIST_COOKIES).2 = EvCookies l :: log s4 ∧
    l ≡ₚ cookie_of <$> filter (λ e, IS_CLIENT_ENTRY_EXPIRED e 1040 = false)
                         (map_to_list (db s4)).*2.
Proof.
  apply (cookie_list_exact [] host s4 (answers (heap 5) 1040)); [apply reach_s4|by eexists..].
Defined.

Lemma traffic_witness :
  total_in (entry_of s3) ≤ total_in (entry_of s4) ∧ total_out (entry_of s3) ≤ total_out (entry_of s4).
Proof.
  apply (traffic_never_decreases [] host s3 (answers (heap 4) 1020) (CMD_SEC_CLI_STATS (stats_req 100 3) 77)
    cookie); [apply reach_s3|apply answers_ok; [done|by vm_compute]|by vm_compute|by vm_compute|done].
Defined.

Lemma auth_time_witness :
  let sec' := update_auth_time_stats s2 11 in
  0 ≤ avg_auth_time sec' ≤ max_auth_time sec' ∧ max_auth_time sec' < 2 ^ 32.
Proof. apply (auth_time_avg_le_max s2 11); vm_compute; intuition congruence. Defined.

(** A server whose statistics are reset every 100 seconds. *)
Definition busy : sec_mod_st rtable :=
  let sec := s2 in let v := host in
  {| sec with default_vhost := {| v with stats_reset_time := 100 |};
              total_authentications := 9 |}.

Lemma auth_time_reset_witness :
  avg_auth_time (update_auth_time_stats (send_stats_to_main (answers (heap 5) 5000) busy) 30) = 30 / 10.
Proof.
  apply (auth_time_avg_wrong_after_reset busy (answers (heap 5) 5000) 30); vm_compute; intuition congruence.
Defined.
End Witnesses.
