(* ===== verification/PlainAuth.v ===== *)
(** * Authentication with a password file (src/auth/plain.c)

    The file has lines [user:group,...:crypt]; after the password, or instead
    of it, a one-time password may be asked for.  The file, [crypt] and
    liboath's [oath_authenticate_usersfile] are arguments. *)

From S2P Require Import Prelude CString CText Htable Store SecModData.

Definition MAX_CPASS_SIZE : nat := 128.
Definition MAX_PASSWORD_TRIES : Z := 3.

Record plain_cfg_st := { passwd : option string; otp_file : option string }.

(** Character arrays and strings are the bytes before the NUL. *)
Record plain_ctx_st := {
  p_username : list Z;
  cpass : list Z;
  groupnames : list (list Z);
  pass_msg : option string;
  retries : Z;
  failed : bool }.

Definition pass_msg_failed : string := "Login failed.
Please enter your password.".
Definition pass_msg_otp : string := "Please enter your OTP password.".

(** ** The groups of a user *)

(** [while (c_isspace( *p2)) { *p2 = 0; p2--; }] where [p2] is at [k - 1]. *)
Fixpoint trim_back (b : list Z) (k : nat) : cres (list Z) :=
  match k with
  | O => UB
  | S k' =>
    c ← aread b (Z.of_nat k');
    if c_isspace c then trim_back (<[k' := 0]> b) k' else Ok b
  end.

(** The number of white space characters at the start. *)
Fixpoint count_spaces (l : list Z) : nat :=
  match l with c :: l' => if c_isspace c then S (count_spaces l') else O | [] => O end.

(** The block the list is copied to, and the positions of its elements. *)
Fixpoint break_loop (fuel : nat) (b : list Z) (p : nat) (els : list nat) : cres (list Z * list nat) :=
  match fuel with
  | O => Fuel
  | S fuel' =>
    match strchr_at (drop p b) 44 with
    | Some n =>
      let c := (p + n)%nat in
      b ← awrite b (Z.of_nat c) 0;
      b ← trim_back b c;
      let p' := (S c + count_spaces (drop (S c) b))%nat in
      let els := if (n =? 1)%nat then els else els ++ [p] in
      if (length els <? MAX_GROUPS)%nat then break_loop fuel' b p' els else Ok (b, els)
    | None =>
      b ← match strrchr_at (drop p b) 32 with
          | Some k => trim_back b (S (p + k))
          | None => Ok b
          end;
      Ok (b, if (length (cstr (drop p b)) =? 1)%nat then els else els ++ [p])
    end
  end.

Definition break_group_list (text : list Z) : cres (list (list Z)) :=
  '(b, els) ← break_loop (S (length text)) (text ++ [0]) 0 ([] : list nat);
  Ok (map (λ p, cstr (drop p b)) els).

(** ** The password file *)

Definition chomp (c : Z) (l : list Z) : list Z :=
  match last l with Some x => if x =? c then take (length l - 1) l else l | None => l end.

(** [strsep(&sp, sep)]: the token, and what [sp] is afterwards. *)
Definition strsep (sep : Z) (sp : option (list Z)) : option (list Z) * option (list Z) :=
  match sp with
  | None => (None, None)
  | Some s => match strchr_at s sep with
              | Some k => (Some (take k s), Some (drop (S k) s))
              | None => (Some s, None)
              end
  end.

(** The line without its end; [None] if it is too short. *)
Definition line_text (chunk : list Z) : option (list Z) :=
  let l := cstr chunk in
  if (length l <=? 4)%nat then None else Some (chomp 13 (chomp 10 l)).

(** The lines, in the order they are read. *)
Fixpoint read_lines (fuel : nat) (f : list Z) : list (list Z) :=
  match fuel, f with
  | S fuel', _ :: _ => let '(l, r) := fgets 510 f in l :: read_lines fuel' r
  | _, _ => []
  end.
Definition lines (f : list Z) : list (list Z) := read_lines (length f) f.

(** One line: whether the search ends with it. *)
Definition check_line (x : plain_ctx_st) (chunk : list Z) : cres (bool * plain_ctx_st) :=
  match line_text chunk with
  | None => Ok (false, x)
  | Some l =>
    let '(u, sp) := strsep 58 (Some l) in
    if bool_decide (u = Some (p_username x)) then
      let '(g, sp) := strsep 58 sp in
      match g with
      | None => Ok (false, x)
      | Some g =>
        gs ← break_group_list g;
        let x := {| x with groupnames := gs |} in
        let '(c, _) := strsep 58 sp in
        match c with
        | None => Ok (false, x)
        | Some c => Ok (true, {| x with cpass := take (MAX_CPASS_SIZE - 1) c; failed := false |})
        end
      end
    else Ok (false, x)
  end.

Fixpoint check_lines (x : plain_ctx_st) (ls : list (list Z)) : cres plain_ctx_st :=
  match ls with
  | [] => Ok x
  | l :: ls' => '(found, x) ← check_line x l; if (found : bool) then Ok x else check_lines x ls'
  end.

Section plain.
Context (fopen : string → option (list Z)).                   (* the bytes of a file *)
Context (crypt : list Z → list Z → option (list Z)).          (* crypt(key, salt) *)

Definition read_auth_pass (cfg : plain_cfg_st) (x : plain_ctx_st) : cres (Z * plain_ctx_st) :=
  match passwd cfg with
  | None => Ok (0, x)
  | Some path =>
    let x := {| x with failed := true |} in
    match fopen path with
    | None => Ok (-1, x)
    | Some f => x ← check_lines x (lines f); Ok (0, x)
    end
  end.

(** The context is NULL where the result is [ERR_AUTH_FAIL]. *)
Definition plain_auth_init (cfg : plain_cfg_st) (name : option (list Z)) : cres (Z * option plain_ctx_st) :=
  match name with
  | None | Some [] => Ok (ERR_AUTH_FAIL, None)
  | Some u =>
    '(ret, x) ← read_auth_pass cfg
       {| p_username := take (MAX_USERNAME_SIZE - 1) u; cpass := []; groupnames := []; pass_msg := None;
          retries := 0; failed := false |};
    if ret <? 0 then Ok (ERR_AUTH_FAIL, None) else
    if bool_decide (cpass x = []) && negb (failed x) then
      match otp_file cfg with
      | None => Ok (0, Some x)
      | Some _ => Ok (ERR_AUTH_CONTINUE, Some {| x with pass_msg := Some pass_msg_otp |})
      end
    else Ok (ERR_AUTH_CONTINUE, Some x)
  end.

Definition plain_auth_group (x : plain_ctx_st) (suggested : option (list Z)) (size : nat) : Z * list Z :=
  let first := match groupnames x with g :: _ => take (size - 1) g | [] => [] end in
  match suggested with
  | Some s =>
    if bool_decide (s ∈ groupnames x) then
      (0, if bool_decide (take (size - 1) s = []) then first else take (size - 1) s)
    else (-1, [])
  | None => (0, first)
  end.

(** [otp] is the answer of [oath_authenticate_usersfile] to this password. *)
Definition plain_auth_pass (cfg : plain_cfg_st) (x : plain_ctx_st) (pass : list Z) (otp : bool)
    : Z * plain_ctx_st :=
  let x := if bool_decide (cpass x = []) then x else
           match crypt pass (cpass x) with
           | None => {| x with failed := true |}
           | Some p => if bool_decide (p = cpass x) then x else {| x with failed := true |}
           end in
  if failed x then
    let again := retries x <? MAX_PASSWORD_TRIES - 1 in
    let x := {| x with retries := u32 (retries x + 1) |} in
    if again then (ERR_AUTH_CONTINUE, {| x with pass_msg := Some pass_msg_failed |})
    else (ERR_AUTH_FAIL, x)
  else
  match otp_file cfg with
  | None => if bool_decide (cpass x = []) then (ERR_AUTH_FAIL, x) else (0, x)
  | Some _ =>
    if bool_decide (cpass x = []) then (if otp then 0 else ERR_AUTH_FAIL, x)
    else (ERR_AUTH_CONTINUE, {| x with cpass := []; pass_msg := Some pass_msg_otp |})
  end.

Definition plain_auth_msg (x : plain_ctx_st) : option string * Z := (pass_msg x, 0).

End plain.

Example groups1 : break_group_list (to_bytes "staff, admin ,x,*") = Ok (to_bytes <$> ["staff"; "admin"]).
Proof. reflexivity. Qed.
Example groups_lose_tail : break_group_list (to_bytes "staff,remote users") = Ok (to_bytes <$> ["staff"; "remote"]).
Proof. reflexivity. Qed.
Example groups_under : break_group_list (to_bytes ",staff") = UB.
Proof. reflexivity. Qed.
