(* ===== verification/PlainSpec.v ===== *)
(** * Authentication with a password file: what it accepts *)

From S2P Require Import Prelude CString CText Htable Store SecModData PlainAuth.

(** ** The file *)

(** The pieces between separators. *)
Fixpoint fields (sep : Z) (l : list Z) : list (list Z) :=
  match l with
  | [] => [[]]
  | c :: l' =>
    match fields sep l' with
    | f :: fs => if c =? sep then [] :: f :: fs else (c :: f) :: fs
    | [] => [[c]]
    end
  end.

(** The user and the password of a line with at least three fields. *)
Definition line_entry (chunk : list Z) : option (list Z * list Z) :=
  l ← line_text chunk;
  match fields 58 l with u :: _ :: c :: _ => Some (u, c) | _ => None end.

(** The password field of the first line of a user. *)
Fixpoint password_in (ls : list (list Z)) (user : list Z) : option (list Z) :=
  match ls with
  | [] => None
  | l :: ls' =>
    match line_entry l with
    | Some (u, c) => if bool_decide (u = user) then Some c else password_in ls' user
    | None => password_in ls' user
    end
  end.
Definition password_of (f user : list Z) : option (list Z) := password_in (lines f) user.

Lemma fields_cons sep l : ∃ f fs, fields sep l = f :: fs.
Proof. destruct l as [|c l]; simpl; [by eexists _, _|]. destruct (fields sep l); [by eexists _, _|].
  destruct (c =? sep); by eexists _, _. Qed.

Lemma strsep_fields sep s : 0 ∉ s → sep ≠ 0 →
  ∃ f, (strsep sep (Some s)).1 = Some f ∧
    match (strsep sep (Some s)).2 with
    | Some r => fields sep s = f :: fields sep r ∧ 0 ∉ r
    | None => fields sep s = [f]
    end.
Proof.
  intros Hs Hsep. unfold strsep. induction s as [|c s IH]; [by eexists|].
  apply not_elem_of_cons in Hs as [Hc Hs]. destruct (IH Hs) as (f & E1 & E2). clear IH.
  simpl. destruct (Z.eqb_spec c 0); [done|]. destruct (Z.eqb_spec c sep) as [->|Hcs]; simpl.
  - exists []. split; [done|]. rewrite drop_0. split; [|done]. by destruct (fields_cons sep s) as (? & ? & ->).
  - destruct (strchr_at s sep) as [k|]; simpl in *; simplify_eq/=.
    + exists (c :: take k s). split; [done|]. destruct E2 as [-> ?]. done.
    + exists (c :: f). split; [done|]. by rewrite E2.
Qed.

Lemma cstr_no_nul l : 0 ∉ cstr l.
Proof.
  induction l as [|c l IH]; simpl; [apply not_elem_of_nil|]. destruct (Z.eqb_spec c 0); [apply not_elem_of_nil|].
  by apply not_elem_of_cons.
Qed.

Lemma chomp_no_nul c l : 0 ∉ l → 0 ∉ chomp c l.
Proof.
  unfold chomp. destruct (last l); [|done]. destruct (_ =? _); [|done].
  intros Hl Hin. apply Hl. rewrite <- (take_drop (length l - 1) l). apply elem_of_app. by left.
Qed.

Lemma line_text_no_nul chunk l : line_text chunk = Some l → 0 ∉ l.
Proof.
  unfold line_text. destruct (_ <=? _)%nat; [done|]. intros [= <-]. by apply chomp_no_nul, chomp_no_nul, cstr_no_nul.
Qed.

#[local] Arguments strsep : simpl never.

(** One line, against the definition above. *)
Lemma check_line_spec x chunk found x' : check_line x chunk = Ok (found, x') →
  (p_username x' = p_username x ∧ retries x' = retries x) ∧
  match line_entry chunk with
  | Some (u, c) =>
    if decide (u = p_username x) then
      found = true ∧ cpass x' = take (MAX_CPASS_SIZE - 1) c ∧ failed x' = false
    else found = false ∧ cpass x' = cpass x ∧ failed x' = failed x
  | None => found = false ∧ cpass x' = cpass x ∧ failed x' = failed x
  end.
Proof.
  unfold check_line, line_entry. destruct (line_text chunk) as [l|] eqn:El; simpl; [|by intros [= <- <-]].
  apply line_text_no_nul in El. destruct (strsep_fields 58 l El) as (u & Eu & Er); [done|].
  destruct (strsep 58 (Some l)) as [u' sp]. simpl in Eu, Er. subst u'.
  destruct sp as [r|].
  2: { rewrite Er. case_bool_decide; simpl; by intros [= <- <-]. }
  destruct Er as [-> Hr]. destruct (strsep_fields 58 r Hr) as (g & Eg & Er2); [done|].
  destruct (strsep 58 (Some r)) as [g' sp2]. simpl in Eg, Er2. subst g'. case_bool_decide as Hu.
  - simplify_eq. destruct (break_group_list g) as [gs| | |]; try done. simpl.
    destruct sp2 as [r2|].
    + destruct Er2 as [-> Hr2]. destruct (strsep_fields 58 r2 Hr2) as (c & Ec & Er3); [done|].
      destruct (strsep 58 (Some r2)) as [c' sp3]. simpl in Ec, Er3. subst c'. simpl. intros [= <- <-]. simpl.
      split; [done|]. destruct sp3 as [r3|]; [destruct Er3 as [-> _]|rewrite Er3]; by rewrite decide_True.
    + rewrite Er2. simpl. by intros [= <- <-].
  - intros [= <- <-]. split; [done|]. destruct sp2 as [r2|]; [destruct Er2 as [-> _]|by rewrite Er2].
    destruct (fields_cons 58 r2) as (c & fs & ->). rewrite decide_False; [done|]. by intros ->.
Qed.

Lemma check_lines_spec x ls x' : check_lines x ls = Ok x' →
  (p_username x' = p_username x ∧ retries x' = retries x) ∧
  match password_in ls (p_username x) with
  | Some c => cpass x' = take (MAX_CPASS_SIZE - 1) c ∧ failed x' = false
  | None => cpass x' = cpass x ∧ failed x' = failed x
  end.
Proof.
  revert x. induction ls as [|l ls IH]; intros x; simpl; [by intros [= <-]|].
  destruct (check_line x l) as [[found x1]| | |] eqn:E; try done. simpl.
  apply check_line_spec in E as [[Eu Et] E]. destruct (line_entry l) as [[u c]|].
  - case_bool_decide as Hu; [rewrite decide_True in E by done|rewrite decide_False in E by done].
    + destruct E as (-> & ? & ?). by intros [= <-].
    + destruct E as (-> & Ec & Ef). intros H%IH. by rewrite Eu, Et, Ec, Ef in H.
  - destruct E as (-> & Ec & Ef). intros H%IH. by rewrite Eu, Et, Ec, Ef in H.
Qed.

(** ** Attempts *)

Section attempts.
Context (fopen : string → option (list Z)) (crypt : list Z → list Z → option (list Z)).
Context (cfg : plain_cfg_st).

Abbreviation auth_init := (plain_auth_init fopen cfg).
Abbreviation auth_pass := (plain_auth_pass crypt cfg).

(** Passwords one after the other, as long as another one is asked for; with
    each the answer of the one-time password library. *)
Fixpoint attempts (x : plain_ctx_st) (ps : list (list Z * bool)) : Z * plain_ctx_st :=
  match ps with
  | [] => (ERR_AUTH_CONTINUE, x)
  | (p, o) :: ps' =>
    let '(r, x) := auth_pass x p o in
    if r =? ERR_AUTH_CONTINUE then attempts x ps' else (r, x)
  end.

(** A failed context stays failed. *)
Lemma failed_pass x p o : failed x = true →
  failed (auth_pass x p o).2 = true ∧ (auth_pass x p o).1 ≠ 0.
Proof.
  intros Hf. unfold plain_auth_pass. repeat case_match; simplify_eq/=; try done; try congruence;
    (split; [congruence|done]).
Qed.

Lemma failed_attempts x ps : failed x = true → (attempts x ps).1 ≠ 0.
Proof.
  revert x. induction ps as [|[p o] ps IH]; intros x Hf; simpl; [done|].
  destruct (failed_pass x p o Hf) as [Hf' Hr]. destruct (auth_pass x p o) as [r x']. simpl in *.
  destruct (r =? ERR_AUTH_CONTINUE); [by apply IH|done].
Qed.

(** Without one-time passwords only the password of the file is accepted. *)
Lemma pass_accepts x p o x' : otp_file cfg = None → auth_pass x p o = (0, x') →
  failed x = false ∧ cpass x ≠ [] ∧ crypt p (cpass x) = Some (cpass x).
Proof.
  intros Ho. unfold plain_auth_pass. rewrite Ho. case_bool_decide as Hc; [rewrite Hc|].
  - destruct (failed x); [by destruct (retries x <? _)|done].
  - destruct (crypt p (cpass x)) as [q|]; [case_bool_decide as Hq; [subst q|]|];
      simpl; try (by destruct (retries x <? _)).
    destruct (failed x); [by destruct (retries x <? _)|]. done.
Qed.

(** What the first step leaves. *)
Lemma init_ctx u r x : auth_init (Some u) = Ok (r, Some x) →
  retries x = 0 ∧
  (r = 0 → cpass x = [] ∧ failed x = false ∧ otp_file cfg = None) ∧
  match passwd cfg with
  | None => cpass x = [] ∧ failed x = false
  | Some path => ∃ f, fopen path = Some f ∧
      match password_of f (take (MAX_USERNAME_SIZE - 1) u) with
      | Some c => cpass x = take (MAX_CPASS_SIZE - 1) c ∧ failed x = false
      | None => failed x = true
      end
  end.
Proof.
  unfold plain_auth_init. destruct u as [|c0 u0]; [done|]. set (u := c0 :: u0). unfold read_auth_pass.
  set (x0 := {| p_username := _ |}). destruct (passwd cfg) as [path|]; simpl.
  - destruct (fopen path) as [f|]; [|done].
    destruct (check_lines _ (lines f)) as [x1| | |] eqn:E; try done. simpl.
    apply check_lines_spec in E as [[Eu Et] E]. simpl in Eu, Et, E.
    assert (retries x1 = 0 ∧ ∃ f0, Some f = Some f0 ∧
      match password_of f0 (take (MAX_USERNAME_SIZE - 1) u) with
      | Some c => cpass x1 = take (MAX_CPASS_SIZE - 1) c ∧ failed x1 = false
      | None => failed x1 = true end) as [Ht Hx].
    { split; [done|]. exists f. split; [done|]. unfold password_of. simpl take.
      destruct (password_in (lines f) _) as [c|]; [done|by destruct E]. }
    case_bool_decide as Hc; simpl; [case_eq (failed x1); intros Hf; simpl; [|destruct (otp_file cfg)]|];
      intros [= <- <-]; simpl; split_and!; try done; (rewrite Hf in Hx; exact Hx).
  - destruct (otp_file cfg); intros [= <- <-]; simpl; done.
Qed.

(** Another password is asked for after a wrong one, three times at most. *)
Lemma pass_continue x p o x' : otp_file cfg = None → auth_pass x p o = (ERR_AUTH_CONTINUE, x') →
  failed x' = true ∧ retries x < MAX_PASSWORD_TRIES - 1 ∧ retries x' = u32 (retries x + 1).
Proof.
  intros Ho. unfold plain_auth_pass. rewrite Ho. set (y := if bool_decide _ then x else _).
  assert (retries y = retries x) as Ey by (unfold y; repeat case_match; done). clearbody y.
  destruct (failed y) eqn:Ef; [|by destruct (bool_decide _)].
  destruct (Z.ltb_spec (retries y) (MAX_PASSWORD_TRIES - 1)) as [Hlt|]; [|done]. intros [= <-]. simpl.
  by rewrite <-Ey.
Qed.

(** The passwords that are given: one that is accepted is the one of the file. *)
Lemma attempts_accepts x ps : otp_file cfg = None → (attempts x ps).1 = 0 →
  ∃ p o, (p, o) ∈ ps ∧ crypt p (cpass x) = Some (cpass x).
Proof.
  intros Ho. destruct ps as [|[p o] ps]; [done|]. cbn [attempts].
  destruct (auth_pass x p o) as [r x1] eqn:E. destruct (Z.eqb_spec r ERR_AUTH_CONTINUE) as [->|Hr]; simpl.
  - intros Hz. exfalso. revert Hz. by apply failed_attempts, (pass_continue x p o x1).
  - intros ->. apply pass_accepts in E as (Hf & Hne & Hc); [|done]. exists p, o. split; [left|done].
Qed.

Lemma attempts_bounded x ps : otp_file cfg = None → 0 ≤ retries x → ps ≠ [] →
  MAX_PASSWORD_TRIES ≤ retries x + Z.of_nat (length ps) → (attempts x ps).1 ≠ ERR_AUTH_CONTINUE.
Proof.
  intros Ho. revert x. induction ps as [|[p o] ps IH]; intros x Hr Hne Hl; [done|]. cbn [attempts].
  destruct (auth_pass x p o) as [r x1] eqn:E. destruct (Z.eqb_spec r ERR_AUTH_CONTINUE) as [->|]; [|done].
  apply pass_continue in E as (_ & H1 & H2); [|done]. unfold MAX_PASSWORD_TRIES in *. simpl in Hl.
  rewrite wrap_small in H2 by lia. apply IH; [lia| |lia]. intros ->. simpl in Hl. lia.
Qed.

(** Whether a password is asked for. *)
Lemma init_answer u r x : otp_file cfg = None → auth_init (Some u) = Ok (r, Some x) →
  r = if bool_decide (cpass x = []) && negb (failed x) then 0 else ERR_AUTH_CONTINUE.
Proof.
  intros Ho. unfold plain_auth_init. destruct u as [|c0 u0]; [done|].
  destruct (read_auth_pass _ _ _) as [[ret y]| | |]; run; try done. destruct (ret <? 0); [done|]. rewrite Ho.
  destruct (bool_decide (cpass y = []) && negb (failed y)) eqn:E; intros [= <- <-]; by rewrite E.
Qed.

(** C29: Without one-time passwords, whatever passwords are given one after the
    other: a user who is not in the file is never let in; a user with a
    password is not let in without one, is let in only if one of the given
    passwords is the one of the file, and is if the first one is; a user with
    an empty password is let in without being asked.  After three passwords no
    other one is asked for. *)
Theorem plain_login_sound path f u r x ps :
  passwd cfg = Some path → fopen path = Some f → otp_file cfg = None →
  auth_init (Some u) = Ok (r, Some x) →
  (3 ≤ length ps → (attempts x ps).1 ≠ ERR_AUTH_CONTINUE)%nat ∧
  match password_of f (take (MAX_USERNAME_SIZE - 1) u) with
  | None => r ≠ 0 ∧ (attempts x ps).1 ≠ 0
  | Some c =>
    let c := take (MAX_CPASS_SIZE - 1) c in
    if bool_decide (c = []) then r = 0 else
    r ≠ 0 ∧
    ((attempts x ps).1 = 0 → ∃ p o, (p, o) ∈ ps ∧ crypt p c = Some c) ∧
    (∀ p o ps', ps = (p, o) :: ps' → crypt p c = Some c → (attempts x ps).1 = 0)
  end.
Proof.
  intros Hp Hf Ho Hi. pose proof (init_answer u r x Ho Hi) as Hr.
  apply init_ctx in Hi as (Ht & _ & Hx). rewrite Hp in Hx. destruct Hx as (f' & Ef & Hx). rewrite Hf in Ef. injection Ef as <-. split.
  { intros Hl. apply attempts_bounded; [done|lia|by intros ->; simpl in Hl; lia|unfold MAX_PASSWORD_TRIES; lia]. }
  destruct (password_of f _) as [c|].
  2: { split; [|by apply failed_attempts]. rewrite Hr, Hx, andb_false_r. done. }
  cbv zeta. set (c' := take _ c) in *. destruct Hx as [Ec Ef']. rewrite Ec, Ef', andb_true_r in Hr.
  case_bool_decide as Hne; [done|]. split_and!; [by rewrite Hr| |].
  - intros (p & o & Hin & Hc)%attempts_accepts; [|done]. rewrite Ec in Hc. eauto.
  - intros p o ps' -> Hc. cbn [attempts]. unfold plain_auth_pass at 1.
    rewrite Ec, (bool_decide_false _ Hne), Ho, Hc, bool_decide_true by done.
    by rewrite Ef', Ec, (bool_decide_false _ Hne).
Qed.

(** A wrong password asks for another one, which is refused whatever it is. *)
Lemma retry_refused path f u r x c p o q o' ps :
  passwd cfg = Some path → fopen path = Some f →
  auth_init (Some u) = Ok (r, Some x) →
  password_of f (take (MAX_USERNAME_SIZE - 1) u) = Some c → take (MAX_CPASS_SIZE - 1) c ≠ [] →
  crypt p (take (MAX_CPASS_SIZE - 1) c) ≠ Some (take (MAX_CPASS_SIZE - 1) c) →
  (auth_pass x p o).1 = ERR_AUTH_CONTINUE ∧ (attempts x ((p, o) :: (q, o') :: ps)).1 ≠ 0.
Proof.
  intros Hp Hf Hi Hc Hne Hw. apply init_ctx in Hi as (Ht & _ & Hx). rewrite Hp in Hx.
  destruct Hx as (f' & Ef & Hx). simplify_eq. rewrite Hc in Hx. destruct Hx as [Ec Ef'].
  assert (auth_pass x p o = (ERR_AUTH_CONTINUE, {| x with retries := 1; failed := true;
    pass_msg := Some pass_msg_failed |})) as E.
  { unfold plain_auth_pass. rewrite Ec, (bool_decide_false _ Hne).
    destruct (crypt p _) as [z|]; [rewrite bool_decide_false by congruence|]; simpl; by rewrite Ht. }
  rewrite E. split; [done|]. cbn [attempts]. rewrite E. simpl Z.eqb. cbv iota.
  by apply (failed_attempts _ ((q, o') :: ps)).
Qed.

End attempts.

(** ** Files that can be read

    A list of groups that starts with a comma makes [break_group_list] look
    before the start of its copy. *)

Definition group_field_ok (chunk : list Z) : bool :=
  match line_text chunk with
  | None => true
  | Some l =>
    match (strsep 58 (strsep 58 (Some l)).2).1 with
    | None => true
    | Some g => match break_group_list g with Ok _ => true | _ => false end
    end
  end.

Definition groups_readable (f : list Z) : bool := forallb group_field_ok (lines f).

Lemma check_line_defined x chunk : group_field_ok chunk = true → ∃ r, check_line x chunk = Ok r.
Proof.
  unfold group_field_ok, check_line. destruct (line_text chunk) as [l|]; [|by eexists].
  destruct (strsep 58 (Some l)) as [u sp]. simpl. case_bool_decide; [|by eexists].
  destruct (strsep 58 sp) as [[g|] sp']; [|by eexists]. simpl. destruct (break_group_list g); try done.
  intros _. run. destruct (strsep 58 sp') as [[]]; by eexists.
Qed.

Lemma check_lines_defined x ls : forallb group_field_ok ls = true → ∃ y, check_lines x ls = Ok y.
Proof.
  revert x. induction ls as [|l ls IH]; intros x; simpl; [by eexists|]. intros [Hl Hls]%andb_true_iff.
  destruct (check_line_defined x l Hl) as [[found y] ->]. run. destruct found; [by eexists|by apply IH].
Qed.

(** The first step of a login is defined for every user. *)
Lemma plain_init_defined fopen cfg path f name :
  passwd cfg = Some path → fopen path = Some f → groups_readable f = true →
  ∃ r, plain_auth_init fopen cfg name = Ok r.
Proof.
  intros Hp Hf Hg. unfold plain_auth_init, read_auth_pass. rewrite Hp. destruct name as [[|c u]|]; [by eexists| |by eexists].
  rewrite Hf. match goal with |- context [check_lines ?x (lines f)] => destruct (check_lines_defined x _ Hg) as [y ->] end.
  run. simpl. repeat case_match; by eexists.
Qed.

(** ** Groups *)

(** A name in a list of groups: at least two characters, none of them a comma,
    white space or NUL. *)
Definition group_ok (g : list Z) : Prop :=
  (2 ≤ length g)%nat ∧ Forall (λ c, c ≠ 0 ∧ c ≠ 44 ∧ c_isspace c = false) g.

Fixpoint join_groups (gs : list (list Z)) : list Z :=
  match gs with
  | [] => []
  | [g] => g
  | g :: gs' => g ++ 44 :: join_groups gs'
  end.

(** The block afterwards and the positions of the names. *)
Definition ended (gs : list (list Z)) : list Z := concat ((λ g, g ++ [0]) <$> gs).
Fixpoint starts (p : nat) (gs : list (list Z)) : list nat :=
  match gs with [] => [] | g :: gs' => p :: starts (p + length g + 1) gs' end.

Lemma strrchr_group g rest : Forall (λ c, c_isspace c = false) g → strrchr_at (g ++ 0 :: rest) 32 = None.
Proof.
  intros Hg. induction Hg as [|c g Hc _ IH]; simpl; [done|]. rewrite IH.
  destruct (c =? 0); [done|]. destruct (Z.eqb_spec c 32) as [->|]; [done|done].
Qed.

(** No white space before the end of a name. *)
Lemma trim_back_group pre g rest : group_ok g → trim_back (pre ++ g ++ rest) (length pre + length g) = Ok (pre ++ g ++ rest).
Proof.
  intros [Hl Hg]. destruct (exists_last (l:=g)) as (g' & c & ->); [intros ->; simpl in Hl; lia|].
  rewrite length_app. simpl. rewrite Nat.add_assoc, Nat.add_1_r. simpl.
  rewrite (aread_Ok _ _ c); [|lia|].
  - simpl. apply Forall_app in Hg as [_ Hg]. apply Forall_cons in Hg as [(_ & _ & ->) _]. done.
  - rewrite Nat2Z.id, lookup_app_r by lia.
    replace (length pre + length g' - length pre)%nat with (length g') by lia.
    rewrite <- (assoc_L (++)), lookup_app_r by lia. by rewrite Nat.sub_diag.
Qed.

Lemma cstr_group g rest : group_ok g → cstr (g ++ 0 :: rest) = g.
Proof.
  intros [_ Hg]. induction Hg as [|c g [? _] _ IH]; simpl; [done|].
  destruct (Z.eqb_spec c 0); [done|]. by rewrite IH.
Qed.

Lemma join_head g gs : group_ok g → Forall group_ok gs → count_spaces (join_groups (g :: gs) ++ [0]) = O.
Proof.
  intros [Hl Hg] _. destruct g as [|c g]; [simpl in Hl; lia|]. apply Forall_cons in Hg as [(_ & _ & Hc) _].
  destruct gs; simpl; by rewrite Hc.
Qed.

Lemma break_loop_groups fuel pre g gs els :
  group_ok g → Forall group_ok gs → (length gs < fuel)%nat → (length els + length gs < MAX_GROUPS)%nat →
  break_loop fuel (pre ++ join_groups (g :: gs) ++ [0]) (length pre) els =
    Ok (pre ++ ended (g :: gs), els ++ starts (length pre) (g :: gs)).
Proof.
  revert fuel pre g els. induction gs as [|g2 gs IH]; intros [|fuel] pre g els Hg Hgs Hf Hn;
    try (simpl in Hf; lia).
  - cbn [break_loop join_groups]. rewrite drop_app_length.
    assert (Forall (λ c, c ≠ 0 ∧ c ≠ 44) g) as Hg1 by (eapply Forall_impl; [apply Hg|]; naive_solver).
    assert (Forall (λ c, c_isspace c = false) g) as Hg2 by (eapply Forall_impl; [apply Hg|]; naive_solver).
    rewrite (strchr_group _ _ _ Hg1). simpl. rewrite (strrchr_group _ _ Hg2). run.
    rewrite drop_app_length, cstr_group by done. destruct Hg as [Hl _].
    destruct (Nat.eqb_spec (length g) 1); [lia|]. unfold ended. simpl. by rewrite app_nil_r.
  - cbn [break_loop join_groups]. rewrite drop_app_length.
    assert (Forall (λ c, c ≠ 0 ∧ c ≠ 44) g) as Hg1 by (eapply Forall_impl; [apply Hg|]; naive_solver).
    set (rest := join_groups (g2 :: gs)). rewrite <- (assoc_L (++)), (strchr_group _ _ _ Hg1). simpl.
    rewrite Nat.add_0_r. unfold awrite.
    rewrite (proj2 (Z.leb_le _ _)) by lia. rewrite (proj2 (Z.ltb_lt _ _)) by (rewrite !length_app; simpl; lia).
    run. rewrite Nat2Z.id.
    replace (<[(length pre + length g)%nat := 0]> (pre ++ g ++ 44 :: rest ++ [0]))
      with (pre ++ g ++ 0 :: rest ++ [0]).
    2: { rewrite insert_app_r, insert_app_r_alt by lia. by rewrite Nat.sub_diag. }
    cbn [andb]. run. rewrite trim_back_group by done. run.
    assert (drop (S (length pre + length g)) (pre ++ g ++ 0 :: rest ++ [0]) = rest ++ [0]) as Ed.
    { rewrite (assoc_L (++)), drop_app_ge by (rewrite length_app; lia).
      rewrite length_app. by replace (S (length pre + length g) - (length pre + length g))%nat with 1%nat by lia. }
    apply Forall_cons in Hgs as [Hg2 Hgs]. rewrite Ed. unfold rest. rewrite join_head by done.
    destruct Hg as [Hl Hg]. destruct (Nat.eqb_spec (length g) 1); [lia|].
    rewrite length_app. simpl. destruct (Nat.ltb_spec (length els + 1) MAX_GROUPS); [|simpl in Hn; lia].
    specialize (IH fuel (pre ++ g ++ [0]) g2 (els ++ [length pre]) Hg2 Hgs ltac:(simpl in Hf; lia)).
    rewrite !length_app in IH. simpl in IH. rewrite <- !(assoc_L (++)) in IH. simpl in IH.
    rewrite Nat.add_0_r. replace (S (length pre + length g)) with (length pre + (length g + 1))%nat by lia.
    rewrite IH by (simpl in Hn; lia). unfold ended. simpl. rewrite <- !(assoc_L (++)). simpl.
    by rewrite Nat.add_assoc.
Qed.

Lemma names_at pre gs : Forall group_ok gs →
  map (λ p, cstr (drop p (pre ++ ended gs))) (starts (length pre) gs) = gs.
Proof.
  intros Hgs. revert pre. induction Hgs as [|g gs Hg _ IH]; intros pre; simpl; [done|].
  unfold ended. simpl. rewrite drop_app_length, <- (assoc_L (++)). simpl. rewrite cstr_group by done. f_equal.
  specialize (IH (pre ++ g ++ [0])). rewrite !length_app in IH. simpl in IH.
  rewrite <- !(assoc_L (++)) in IH. simpl in IH. rewrite <- Nat.add_assoc. exact IH.
Qed.

(** Names separated by commas are read back. *)
Theorem groups_roundtrip gs : gs ≠ [] → Forall group_ok gs → (length gs ≤ MAX_GROUPS)%nat →
  break_group_list (join_groups gs) = Ok gs.
Proof.
  intros Hne Hgs Hl. destruct gs as [|g gs]; [done|]. pose proof Hgs as [Hg Hgs']%Forall_cons.
  unfold break_group_list. rewrite (break_loop_groups _ [] g gs []); [| done | done | |simpl in *; lia].
  - run. f_equal. by apply (names_at []).
  - clear -Hg Hgs'. revert g Hg. induction Hgs' as [|g2 gs Hg2 _ IH]; intros g [Hl _]; simpl; [lia|].
    rewrite length_app. specialize (IH g2 Hg2). simpl in *. lia.
Qed.

(** ** Witnesses *)
Module PlainSpecWitnesses.

Definition file : list Z := to_bytes "jo:staff:terces
al:*:zyx
"%string.
Definition cfg : plain_cfg_st := {| passwd := Some "pw"%string; otp_file := None |}.
Definition turn (p _ : list Z) : option (list Z) := Some (rev p).
Definition jo : plain_ctx_st := {| p_username := to_bytes "jo"; cpass := to_bytes "terces";
  groupnames := [to_bytes "staff"]; pass_msg := None; retries := 0; failed := false |}.

Lemma plain_login_sound_witness :
  let ps := [(to_bytes "secret", false)] in
  (3 ≤ length ps → (attempts turn cfg jo ps).1 ≠ ERR_AUTH_CONTINUE)%nat ∧
  ERR_AUTH_CONTINUE ≠ 0 ∧
  ((attempts turn cfg jo ps).1 = 0 → ∃ p o, (p, o) ∈ ps ∧ turn p (to_bytes "terces") = Some (to_bytes "terces")) ∧
  (∀ p o ps', ps = (p, o) :: ps' → turn p (to_bytes "terces") = Some (to_bytes "terces") →
    (attempts turn cfg jo ps).1 = 0).
Proof.
  by apply (plain_login_sound (λ _, Some file) turn cfg "pw" file (to_bytes "jo") ERR_AUTH_CONTINUE jo
    [(to_bytes "secret", false)] eq_refl eq_refl eq_refl eq_refl).
Defined.

Example right_password_accepted : (attempts turn cfg jo [(to_bytes "secret", false)]).1 = 0.
Proof. vm_compute. reflexivity. Qed.
End PlainSpecWitnesses.
