(* ===== verification/PlainMod.v ===== *)
(** * The security module with the password file

    [plain_auth_funcs] as an authentication module of the security module, and
    what follows for its sessions. *)

From S2P Require Import Prelude CString CText Htable Store SecModData SecModDb SecModAuth SecModDbSpec.
From S2P Require Import SecModMachine SecModRefine SecModSafety PlainAuth PlainSpec.

(** ** The security module never changes its virtual hosts *)

Section conf.
Context {T : Type} `{HT : HTable T, Env : SecModEnv}.
Implicit Types (sec : sec_mod_st T) (e : client_entry_st) (x : ext) (k : list Z).

Definition hosts sec : list vhost_cfg_st * vhost_cfg_st := (vconfig sec, default_vhost sec).

Lemma hosts_deinit e sec : hosts (sec_auth_user_deinit e sec) = hosts sec.
Proof. unfold sec_auth_user_deinit. by repeat case_match. Qed.

Lemma hosts_del p sec : hosts (del_client_entry p sec) = hosts sec.
Proof. unfold del_client_entry. case_match; [|done]. by rewrite hosts_deinit. Qed.

Lemma hosts_expire x p sec : hosts (expire_client_entry x p sec) = hosts sec.
Proof. unfold expire_client_entry. repeat case_match; rewrite ?hosts_del; done. Qed.

Lemma hosts_cleanup x sec : hosts (cleanup_client_entries x sec) = hosts sec.
Proof.
  unfold cleanup_client_entries. generalize (htable_walk (tbl (client_db sec))). intros ps.
  revert sec. induction ps as [|p ps IH]; intros sec; simpl; [done|]. rewrite IH.
  unfold cleanup_step. repeat case_match; rewrite ?hosts_deinit; done.
Qed.

Lemma hosts_score x sec e ip n : hosts (sec_mod_add_score_to_ip x sec e ip n) = hosts sec.
Proof. unfold sec_mod_add_score_to_ip. by repeat case_match. Qed.

Lemma hosts_reply x sec e r : hosts (send_sec_auth_reply x sec e r).2 = hosts sec.
Proof.
  assert (∀ t, hosts (update_auth_time_stats sec t) = hosts sec) as Hu.
  { intros t. unfold update_auth_time_stats. by repeat case_match. }
  unfold send_sec_auth_reply. destruct r; destruct (send x 1 <? 0); simpl; try done; apply Hu.
Qed.

Lemma hosts_auth_res x sec p e r : hosts (handle_sec_auth_res x sec p e r).2 = hosts sec.
Proof.
  unfold handle_sec_auth_res. destruct (ask_msg e r) as [[c|n] e1]; [done|].
  destruct (r =? ERR_AUTH_CONTINUE).
  { unfold auth_res_continue, send_sec_auth_reply_msg. destruct (_ && _); destruct (send x 1 <? 0); simpl; try done;
      apply hosts_score. }
  destruct (_ && _).
  - unfold auth_res_accept. destruct (check_group e1) as [c e2]. destruct (c <? 0); [done|].
    match goal with |- context [send_sec_auth_reply x sec ?a ?b] =>
      pose proof (hosts_reply x sec a b) as Hr; destruct (send_sec_auth_reply x sec a b) as [[ret e3] sec'] end.
    simpl in Hr. by destruct (ret <? 0).
  - unfold auth_res_reject.
    match goal with |- context [send_sec_auth_reply x ?s ?a ?b] =>
      pose proof (hosts_reply x s a b) as Hr; destruct (send_sec_auth_reply x s a b) as [[ret e3] sec'] end.
    simpl in *. by rewrite hosts_score in Hr.
Qed.

Lemma hosts_failed x sec : hosts (send_failed_session_open_reply x sec).2 = hosts sec.
Proof. unfold send_failed_session_open_reply. by case_match. Qed.

Lemma hosts_open_reply x sec p e s : hosts (session_open_reply x sec p e s).2 = hosts sec.
Proof. unfold session_open_reply. repeat case_match; rewrite ?hosts_failed; done. Qed.

Lemma hosts_step x sec c : hosts (sec_step x sec c).2 = hosts sec.
Proof.
  unfold sec_step. destruct c; simpl.
  - unfold handle_sec_auth_stats_cmd. by repeat case_match.
  - unfold handle_sec_auth_init, new_client_entry.
    destruct (mem x 0); [|done]. destruct (choose_sid x sec 0 4); [|done].
    destruct (sadd _ _ _ _ _ _) as [[] db]; [|done].
    repeat case_match; rewrite ?hosts_auth_res; done.
  - unfold handle_sec_auth_cont. repeat case_match; rewrite ?hosts_auth_res; done.
  - unfold handle_secm_list_cookies_reply. by repeat case_match.
  - unfold handle_sec_auth_ban_ip_reply. by repeat case_match.
  - unfold handle_secm_session_open_cmd.
    repeat case_match; rewrite ?hosts_open_reply, ?hosts_failed; done.
  - unfold handle_secm_session_close_cmd. repeat case_match; simpl; rewrite ?hosts_expire; done.
  - unfold maintenance, send_stats_to_main. cbv zeta.
    rewrite <- (hosts_cleanup x sec). by destruct (_ && _).
Qed.

Lemma hosts_reachable vs d sec : reachable vs d sec → hosts sec = (vs, d).
Proof. induction 1 as [|sec sec' _ IH (x & c & _ & ->)]; [done|]. by rewrite hosts_step. Qed.

(** A request is for one of the virtual hosts. *)
Lemma find_vhost_reachable vs d sec n (P : vhost_cfg_st → Prop) :
  reachable vs d sec → Forall P vs → P d → P (find_vhost sec n).
Proof.
  intros Hr Hvs Hd. apply hosts_reachable in Hr. injection Hr as Ev Ed. unfold find_vhost.
  destruct n as [n|]; [|by rewrite Ed]. destruct (List.find _ _) as [v|] eqn:E; [|by rewrite Ed].
  apply List.find_some in E as [Hin _]. rewrite Ev, Ed in Hin.
  apply List.in_app_or in Hin as [Hin|[<-|[]]]; [|done].
  rewrite List.Forall_forall in Hvs || rewrite Forall_forall in Hvs. apply Hvs. by apply elem_of_list_In || done.
Qed.

End conf.

(** ** The module for password files *)

#[local] Arguments plain_auth_init : simpl never.
#[local] Arguments plain_auth_pass : simpl never.

Section plain_module.
Context (hash_any : list Z → Z) (sha1 : list Z → list Z) (base64 : list Z → string).
Context (fopen : string → option (list Z)) (crypt : list Z → list Z → option (list Z)).
Context (oath : list Z → list Z → bool).

(** The context of a session holds its configuration. *)
#[local] Instance plain_env : SecModEnv := {|
  auth_ctx_t := plain_cfg_st * plain_ctx_st;
  vhost_ctx_t := plain_cfg_st;
  SecModData.hash_any := hash_any;
  SecModData.sha1 := sha1;
  SecModData.base64_encode := base64 |}.

(** [plain_auth_funcs].  Its first step is undefined for a file with a list of
    groups that starts with a comma; such files are excluded below
    ([groups_readable]), and for all others the last case is not reached
    ([plain_init_defined]). *)
Definition plain_auth_funcs : auth_mod_st := {|
  allows_retries := true;
  auth_init v info :=
    match v with
    | None => (ERR_AUTH_FAIL, None)
    | Some cfg =>
      match plain_auth_init fopen cfg (to_bytes <$> ai_username info) with
      | Ok (r, x) => (r, (λ x, (cfg, x)) <$> x)
      | _ => (ERR_AUTH_FAIL, None)
      end
    end;
  auth_msg c := (0, c, match c with Some (_, x) => plain_auth_msg x | None => (None, 0) end);
  auth_pass c pass :=
    match c with
    | None => (ERR_AUTH_FAIL, None)
    | Some (cfg, x) =>
      let '(r, x') := plain_auth_pass crypt cfg x (to_bytes pass) (oath (p_username x) (to_bytes pass)) in
      (r, Some (cfg, x'))
    end;
  auth_group := Some (λ c suggested g,
    match c with
    | None => (-1, None, g)
    | Some (cfg, x) =>
      let '(r, g') := plain_auth_group x (to_bytes <$> suggested) MAX_GROUPNAME_SIZE in
      (r, c, of_bytes g')
    end);
  auth_user c u := (c, u) |}.

Context {T : Type} `{HT : HTable T, HS : !HTableSpec T}.
Context (vs : list vhost_cfg_st) (d : vhost_cfg_st).
Implicit Types (sec : sec_mod_st T) (e : client_entry_st) (x : ext) (k : list Z).

(** Every method of every virtual host is this one, without one-time
    passwords and with a file that can be read and has no list of groups that
    starts with a comma. *)
Definition plain_method (a : auth_struct_st) : Prop :=
  as_amod a = Some plain_auth_funcs ∧
  ∃ cfg path f, as_ctx a = Some cfg ∧ passwd cfg = Some path ∧ otp_file cfg = None ∧ fopen path = Some f ∧
    groups_readable f = true.
Definition plain_vhost (v : vhost_cfg_st) : Prop := Forall plain_method (vhost_auth v).

(** The file of the session names the user with this password. *)
Definition knows (cfg : plain_cfg_st) (user : string) (c : list Z) : Prop :=
  ∃ path f, passwd cfg = Some path ∧ fopen path = Some f ∧
    password_of f (take (MAX_USERNAME_SIZE - 1) (to_bytes user)) = Some c.

(** A method of a virtual host. *)
Definition uses (v : vhost_cfg_st) (cfg : plain_cfg_st) : Prop :=
  ∃ a, List.In a (vhost_auth v) ∧ as_ctx a = Some cfg.

(** The context of a session that is not decided. *)
Definition ctx_ok e : Prop :=
  module e = Some plain_auth_funcs ∧
  ∃ cfg y, auth_ctx e = Some (cfg, y) ∧ uses (vhost e) cfg ∧ otp_file cfg = None ∧
    (failed y = true ∨ ∃ c, knows cfg (username (acct_info e)) c ∧ cpass y = take (MAX_CPASS_SIZE - 1) c).

Definition undecided e : Prop := status e = PS_AUTH_INIT ∨ status e = PS_AUTH_CONT.

Lemma take_strlcpy u : take (MAX_USERNAME_SIZE - 1) (to_bytes (strlcpy (MAX_USERNAME_SIZE * 2) u)) =
  take (MAX_USERNAME_SIZE - 1) (to_bytes u).
Proof.
  unfold strlcpy. assert (∀ n m s, (n ≤ m)%nat → take n (to_bytes (String.substring 0 m s)) = take n (to_bytes s)) as H.
  { induction n as [|n IH]; intros m s Hm; [done|]. destruct m as [|m]; [lia|].
    destruct s as [|c s]; [done|]. simpl. f_equal. apply IH. lia. }
  apply H. unfold MAX_USERNAME_SIZE. lia.
Qed.

Lemma plain_method_in v a : plain_vhost v → List.In a (vhost_auth v) → plain_method a.
Proof.
  unfold plain_vhost. generalize (vhost_auth v). intros l Hl.
  induction Hl as [|b l Hb _ IH]; [done|]. by intros [<-|?]; auto.
Qed.

(** A new session. *)
Lemma init_ctx_ok req pid e : plain_vhost (vhost e) → init_asks (vhost e) req pid e → ctx_ok e.
Proof.
  intros Hv (a & m & ctx & Hfind & Hm & Hi & Hmod & Hctx & Hu).
  apply List.find_some in Hfind as [Hin _].
  destruct (plain_method_in _ _ Hv Hin) as [Hm' (cfg & path & f & Hc & Hp & Ho & Hf & _)].
  assert (m = plain_auth_funcs) as -> by congruence. rewrite Hc in Hi. simpl in Hi, Hctx.
  split; [done|]. destruct (ia_user_name req) as [u|] eqn:Eu; [|apply (f_equal fst) in Hi; discriminate Hi]. simpl in Hi.
  destruct (plain_auth_init fopen cfg (Some (to_bytes u))) as [[r y]| | |] eqn:E; try (apply (f_equal fst) in Hi; discriminate Hi).
  injection Hi as Er <-. destruct y as [y|]; [|].
  2: { exfalso. revert E. subst r. unfold plain_auth_init. destruct (to_bytes u); [done|].
       destruct (read_auth_pass _ _ _) as [[]| | |]; try done. simpl. repeat case_match; done. }
  exists cfg, y. split; [done|]. split; [by exists a|]. split; [done|].
  apply init_ctx in E as (_ & _ & Hx). rewrite Hp in Hx. destruct Hx as (f' & Hf' & Hx).
  rewrite Hf in Hf'. injection Hf' as <-. rewrite Hu. simpl.
  destruct (password_of f _) as [c|] eqn:Epw; [|by left].
  right. exists c. split; [|by destruct Hx]. exists path, f. split; [done|]. split; [done|].
  by rewrite take_strlcpy.
Qed.

(** A wrong password. *)
Lemma cont_ctx_ok e req e' : ctx_ok e → vhost e' = vhost e → cont_asks e req e' → ctx_ok e'.
Proof.
  intros [Hm (cfg & y & Hc & Hin & Ho & Hy)] Hv (m & pass & ctx & Hm' & _ & Hp & Hmod & Hctx & Hu).
  assert (m = plain_auth_funcs) as -> by congruence. split; [done|]. rewrite Hc in Hp. simpl in Hp.
  destruct (plain_auth_pass _ _ _ _ _) as [r y'] eqn:E. injection Hp as -> <-. simpl in Hctx.
  exists cfg, y'. split; [done|]. split; [by rewrite Hv|]. split; [done|]. left. revert E. unfold plain_auth_pass. rewrite Ho.
  repeat case_match; intros [= <-]; simpl; done || congruence.
Qed.

Lemma release_status t e e' : release t e = Some e' → status e' = status e.
Proof. unfold release. repeat case_match; intros [= <-]; done. Qed.

(** A step keeps the contexts of the sessions that are not decided. *)
Lemma step_ctx x find k c o o' : (∀ n, plain_vhost (find n)) → sess_step x find k c o o' →
  (∀ e, o = Some e → undecided e → ctx_ok e) → ∀ e', o' = Some e' → undecided e' → ctx_ok e'.
Proof.
  intros Hf Hs Ho e' Ee Hu. unfold undecided in Hu. inversion Hs; subst; simplify_eq.
  - by apply Ho.
  - match goal with H : _ ∨ _ ∨ _ |- _ => destruct H as [?|[[_ Ha]|[? _]]] end;
      [destruct Hu; congruence| |destruct Hu; congruence].
    eapply init_ctx_ok; [|exact Ha]. match goal with H : vhost e' = _ |- _ => rewrite H end. apply Hf.
  - match goal with H : status e' = _ ∨ _ |- _ => destruct H as [?|[Hun [[_ Ha]|[? _]]]] end;
      [destruct Hu; congruence| |destruct Hu; congruence].
    eapply cont_ctx_ok; [| |exact Ha]; [by apply Ho|]. match goal with H : same_session _ _ |- _ => apply H end.
  - simpl in Hu. by destruct Hu.
  - destruct Hu; congruence.
  - destruct Hu; congruence.
  - destruct Hu; congruence.
  - simpl in Hu. destruct Hu; congruence.
  - match goal with H : release _ _ = _ |- _ => apply release_status in H; simpl in H end.
    destruct Hu; congruence.
Qed.

Lemma reachable_ctx sec : Forall plain_vhost vs → plain_vhost d → reachable vs d sec →
  ∀ k e, db sec !! k = Some e → undecided e → ctx_ok e.
Proof.
  intros Hvs Hd. induction 1 as [|sec sec' Hr IH (x & c & Hx & ->)]; intros k e He Hu.
  - revert He. unfold db, view. simpl. rewrite map_to_list_empty. simpl. by rewrite lookup_empty.
  - eapply step_ctx; [|apply (reachable_step _ _ _ _ c Hr Hx k)|by apply IH|exact He|done].
    intros n. by apply (find_vhost_reachable vs d).
Qed.

(** A user with an empty password is accepted by the first message. *)
Lemma init_accepts_empty v req pid : plain_vhost v → init_accepts v req pid →
  ∃ u cfg pw, ia_user_name req = Some u ∧ uses v cfg ∧ knows cfg u pw ∧ take (MAX_CPASS_SIZE - 1) pw = [].
Proof.
  intros Hv (a & Hfind & _ & Ha). apply List.find_some in Hfind as [Hin _].
  destruct (plain_method_in _ _ Hv Hin) as [Hm (cfg & path & f & Hc & Hp & Ho & Hf & _)]. rewrite Hm, Hc in Ha. simpl in Ha.
  destruct (ia_user_name req) as [u|]; [|done]. simpl in Ha.
  destruct (plain_auth_init fopen cfg (Some (to_bytes u))) as [[r y]| | |] eqn:E; try done. simpl in Ha.
  destruct y as [y|].
  2: { exfalso. revert E Ha. unfold plain_auth_init. destruct (to_bytes u); [by intros [= <-]|].
       destruct (read_auth_pass _ _ _) as [[]| | |]; try done. simpl. repeat case_match; intros [= <-]; done. }
  pose proof (init_answer fopen cfg _ _ _ Ho E) as Hr. apply init_ctx in E as (_ & _ & Hx). rewrite Hp in Hx.
  destruct Hx as (f' & Hf' & Hx). rewrite Hf in Hf'. injection Hf' as <-.
  destruct (bool_decide (cpass y = []) && negb (failed y)) eqn:Eb; [|by rewrite Hr in Ha].
  apply andb_true_iff in Eb as [Hnil%bool_decide_eq_true_1 Hfl%negb_true_iff].
  destruct (password_of f _) as [pw|] eqn:Epw; [|congruence]. destruct Hx as [Hx _].
  exists u, cfg, pw. split_and!; [done|by exists a|by exists path, f|congruence].
Qed.

(** C30: In a security module whose methods are the password file, without
    one-time passwords and for files that can be read (and have no list of
    groups that starts with a comma, for which the parser is undefined), a
    message completes the login of a session in two ways only: a first message for a user whose
    password in the file of a method of the virtual host is empty, or a later
    message with the password that such a file has for the user of the
    session. *)
Theorem password_completes_login sec x c k e' :
  Forall plain_vhost vs → plain_vhost d → reachable vs d sec → ext_ok x sec →
  (∀ e, db sec !! k = Some e → status e ≠ PS_AUTH_COMPLETED) →
  db (sec_step x sec c).2 !! k = Some e' → status e' = PS_AUTH_COMPLETED →
  ∃ cfg pw, uses (vhost e') cfg ∧
  ((∃ req pid u, c = CMD_SEC_AUTH_INIT req pid ∧ db sec !! k = None ∧ ia_user_name req = Some u ∧
      knows cfg u pw ∧ take (MAX_CPASS_SIZE - 1) pw = []) ∨
   (∃ req e pass, c = CMD_SEC_AUTH_CONT req ∧ ct_sid req = k ∧ db sec !! k = Some e ∧ ct_password req = Some pass ∧
      knows cfg (username (acct_info e)) pw ∧ take (MAX_CPASS_SIZE - 1) pw ≠ [] ∧
      crypt (to_bytes pass) (take (MAX_CPASS_SIZE - 1) pw) = Some (take (MAX_CPASS_SIZE - 1) pw))).
Proof.
  intros Hvs Hd Hr Hx Hn He' Hc. pose proof (reachable_step _ _ _ _ c Hr Hx k) as Hs.
  rewrite He' in Hs. destruct (db sec !! k) as [e|] eqn:He; [specialize (Hn e eq_refl)|];
    inversion Hs; subst; try congruence.
  - match goal with H : status e' = _ ∨ _ |- _ => destruct H as [?|[Hun [[? _]|(_ & Ha & _)]]] end;
      [congruence..|].
    destruct (reachable_ctx sec Hvs Hd Hr _ _ He Hun) as [Hm (cfg & y & Hctx & Hin & Ho & Hy)].
    destruct Ha as (m & pass & Hm' & Hpw & Hp). assert (m = plain_auth_funcs) as -> by congruence.
    rewrite Hctx in Hp. simpl in Hp. destruct (plain_auth_pass _ _ _ _ _) as [r y'] eqn:E. simpl in Hp. subst r.
    destruct (pass_accepts crypt cfg y (to_bytes pass) _ y' Ho E) as (Hf & Hne & Hcr).
    destruct Hy as [?|(pw & Hk & Epw)]; [congruence|]. rewrite Epw in Hne, Hcr.
    exists cfg, pw. split; [match goal with H : same_session _ _ |- _ => by destruct H as (_ & -> & _) end|].
    right. by exists req, e, pass.
  - simpl in Hc. congruence.
  - match goal with H : _ ∨ _ ∨ _ |- _ => destruct H as [?|[[? _]|(_ & Ha & _)]] end; [congruence..|].
    apply init_accepts_empty in Ha as (u & cfg & pw & Hu & Hin & Hk & Hpw).
    + exists cfg, pw. split; [done|]. left. by exists req, pid, u.
    + match goal with H : vhost e' = _ |- _ => rewrite H end. by apply (find_vhost_reachable vs d).
Qed.

End plain_module.

(** ** Witnesses *)
Module PlainWitnesses.

(** A file with two users, and a [crypt] that turns the password around. *)
Definition file : list Z := to_bytes "jo:staff:terces
al:*:zyx
"%string.
Definition opens (path : string) : option (list Z) := if bool_decide (path = "/etc/pw"%string) then Some file else None.
Definition turn (p _ : list Z) : option (list Z) := Some (rev p).
Definition no_otp (_ _ : list Z) : bool := false.
Definition cfg : plain_cfg_st := {| passwd := Some "/etc/pw"%string; otp_file := None |}.

#[local] Instance env : SecModEnv := plain_env (foldr Z.add 0) (λ l, l) (λ _, "id"%string).
Definition funcs := plain_auth_funcs (foldr Z.add 0) (λ l, l) (λ _, "id"%string) opens turn no_otp.

Definition host : vhost_cfg_st := {|
  vhost_name := None;
  vhost_auth := [ {| as_enabled := true; as_type := 2; as_amod := Some funcs; as_ctx := Some cfg |} ];
  vhost_acct := None; get_sup_config := None; cookie_timeout := 300;
  persistent_cookies := false; predictable_ips := true; max_ban_score := 50;
  ban_points_wrong_password := 10; stats_reset_time := 0;
  cert_user_oid := None; cert_group_oid := None |}.

Definition cookie : list Z := repeat 7 32.
Definition answers (p : ptr) (t : Z) : ext := {|
  now _ := t; mem _ := Some p; rnd_sid _ := Some cookie; rnd_seed := Some 5;
  send _ := 0; calloc_ok := true |}.
Definition init_req : SecAuthInitMsg := {|
  ia_vhost := None; ia_ip := "10.0.0.1"; ia_auth_type := 2;
  ia_user_name := Some "jo"%string; ia_our_ip := None; ia_user_agent := None;
  ia_group_name := None; ia_cert_user_name := None; ia_cert_group_names := [];
  ia_tls_auth_ok := false |}.
Definition cont_req (p : string) : SecAuthContMsg := {| ct_sid := cookie; ct_password := Some p |}.

Definition s0 : sec_mod_st rtable := sec_mod_init [] host.
Definition s1 := (sec_step (answers (heap 2) 1000) s0 (CMD_SEC_AUTH_INIT init_req 77)).2.
Definition s2 := (sec_step (answers (heap 3) 1005) s1 (CMD_SEC_AUTH_CONT (cont_req "secret"))).2.
Definition entry_of (sec : sec_mod_st rtable) : client_entry_st :=
  default (fresh_entry host "" 0 [] 0) (db sec !! cookie).

Lemma plain_answers_ok p t (sec : sec_mod_st rtable) : ptr_ok p → entry sec p = None → ext_ok (answers p t) sec.
Proof. intros Hp Hn. split; [by intros ? [= <-]|by intros i k [= <-]]. Qed.

Lemma entry_of_eq sec : bool_decide (is_Some (db sec !! cookie)) = true → db sec !! cookie = Some (entry_of sec).
Proof. intros [e He]%bool_decide_eq_true_1. unfold entry_of. by rewrite He. Qed.

Lemma plain_reach_s1 : reachable [] host s1.
Proof.
  eapply reach_step; [apply reach_init|]. eexists _, _. split; [|reflexivity].
  apply plain_answers_ok; [done|reflexivity].
Qed.

Lemma plain_host : plain_vhost (foldr Z.add 0) (λ l, l) (λ _, "id"%string) opens turn no_otp host.
Proof. apply Forall_cons. split; [|by apply Forall_nil]. split; [done|]. by eexists _, _, _. Qed.

Lemma s1_undecided e : db s1 !! cookie = Some e → status e ≠ PS_AUTH_COMPLETED.
Proof.
  assert (Some (status (entry_of s1)) = Some PS_AUTH_INIT) as Hs by by vm_compute.
  rewrite (entry_of_eq s1) by by vm_compute. generalize (entry_of s1), Hs. intros e1 Hs1 [= <-]. congruence.
Qed.

Lemma password_completes_login_witness :
  ∃ cfg pw, uses (foldr Z.add 0) (λ l, l) (λ _, "id"%string) (vhost (entry_of s2)) cfg ∧
  ((∃ req pid u, CMD_SEC_AUTH_CONT (cont_req "secret") = CMD_SEC_AUTH_INIT req pid ∧ db s1 !! cookie = None ∧
      ia_user_name req = Some u ∧ knows opens cfg u pw ∧ take (MAX_CPASS_SIZE - 1) pw = []) ∨
   (∃ req e pass, CMD_SEC_AUTH_CONT (cont_req "secret") = CMD_SEC_AUTH_CONT req ∧ ct_sid req = cookie ∧
      db s1 !! cookie = Some e ∧ ct_password req = Some pass ∧
      knows opens cfg (username (acct_info e)) pw ∧ take (MAX_CPASS_SIZE - 1) pw ≠ [] ∧
      turn (to_bytes pass) (take (MAX_CPASS_SIZE - 1) pw) = Some (take (MAX_CPASS_SIZE - 1) pw))).
Proof.
  apply (password_completes_login (foldr Z.add 0) (λ l, l) (λ _, "id"%string) opens turn no_otp [] host
    s1 (answers (heap 3) 1005) _ cookie (entry_of s2)).
  - by apply Forall_nil.
  - apply plain_host.
  - apply plain_reach_s1.
  - apply plain_answers_ok; [done|by vm_compute].
  - exact s1_undecided.
  - apply entry_of_eq. by vm_compute.
  - by vm_compute.
Defined.

(** A user with an empty password, as "empty" of the tests, is logged in by
    the first message. *)
Example empty_password_logs_in :
  let opens _ := Some (to_bytes "jo:staff:
"%string) in
  plain_auth_init opens cfg (Some (to_bytes "jo")) =
    Ok (0, Some {| p_username := to_bytes "jo"; cpass := []; groupnames := [to_bytes "staff"];
                   pass_msg := None; retries := 0; failed := false |}).
Proof. vm_compute. reflexivity. Qed.
End PlainWitnesses.
