(* ===== verification/Ocpasswd.v ===== *)
(** * The password utility (src/ocpasswd/ocpasswd.c)

    It writes the file that the authentication with passwords reads.  The
    files are a map from paths to bytes.  [crypt] and the answers of the
    system are arguments. *)

From stdpp Require Import gmap strings.
From S2P Require Import Prelude CString CText Htable Store SecModData PlainAuth.

Abbreviation files := (gmap string (list Z)).

(** What the system answers to one run: the memory for the name of the
    temporary file, whether the password file may be read, the nonce, whether
    the temporary file can be created and renamed, and how many bytes the disk
    still takes. *)
Record pw_ext := {
  malloc_ok : bool;
  reads : bool;
  nonce : option (list Z);
  creates : bool;
  renames : bool;
  room : nat }.

(** [main] returns 0; every error is an [exit(1)]. *)
Definition run := cres (Z * files).
Definition exit1 (fs : files) : run := Ok (1, fs).

Definition DEFAULT_OCPASSWD : string := "/etc/ocserv/ocpasswd".
Definition tmp_name (fpasswd : string) : string := fpasswd +:+ ".tmp".

(** ** One line *)

(** [Some l]: the line is one of the user, with its first colon at [l]. *)
Definition user_line (username line : list Z) : option nat :=
  match strchr_at line 58 with
  | Some l => if bool_decide (take l line = username) then Some l else None
  | None => None
  end.
Definition has_colon (line : list Z) : bool := bool_decide (is_Some (strchr_at line 58)).

(** What is written for a line that is read. *)
Definition delete_line (username line : list Z) : list Z :=
  if negb (has_colon line) then [] else
  match user_line username line with Some _ => [] | None => line end.

(** The position after the second colon, given the first. *)
Definition second_colon (line : list Z) (l : nat) : option nat :=
  (λ m, S l + S m)%nat <$> strchr_at (drop (S l) line) 58.

Definition lock_line (username line : list Z) : list Z :=
  if negb (has_colon line) then [] else
  match user_line username line with
  | None => line
  | Some l =>
    match second_colon line l with
    | None => []
    | Some p => if bool_decide (line !! p = Some 33) then line
                else take p line ++ 33 :: drop p line
    end
  end.

Definition unlock_line (username line : list Z) : list Z :=
  if negb (has_colon line) then [] else
  match user_line username line with
  | None => line
  | Some l =>
    match second_colon line l with
    | None => []
    | Some p => take p line ++ (if bool_decide (line !! p = Some 33) then drop (S p) line else drop p line)
    end
  end.

(** ** The file *)

(** What the temporary file holds afterwards: the results of [fwrite],
    [fprintf] and [fclose] are not looked at. *)
Definition written (x : pw_ext) (out : list Z) : list Z := take (room x) out.

Definition finish (x : pw_ext) (fs : files) (fpasswd : string) (out : list Z) : run :=
  let fs := <[tmp_name fpasswd := written x out]> fs in
  if renames x then Ok (0, <[fpasswd := written x out]> (delete (tmp_name fpasswd) fs))
  else exit1 fs.

(** [fopen] for reading fails for a file that is missing and for one that may
    not be read. *)
Definition opened (x : pw_ext) (fs : files) (path : string) : option (list Z) :=
  if reads x then fs !! path else None.

(** The body of [delete_user], [lock_user] and [unlock_user]; [snprintf] is
    called with what [malloc] returned. *)
Definition edit (f : list Z → list Z) (x : pw_ext) (fs : files) (fpasswd : string) : run :=
  if negb (malloc_ok x) then UB else
  if bool_decide (is_Some (fs !! tmp_name fpasswd)) then exit1 fs else
  match opened x fs fpasswd with
  | None => exit1 fs
  | Some old =>
    if negb (creates x) then exit1 fs else
    finish x fs fpasswd (concat (map f (file_lines old)))
  end.

Definition delete_user (x : pw_ext) (fs : files) (fpasswd : string) (username : list Z) : run :=
  edit (delete_line username) x fs fpasswd.
Definition lock_user (x : pw_ext) (fs : files) (fpasswd : string) (username : list Z) : run :=
  edit (lock_line username) x fs fpasswd.
Definition unlock_user (x : pw_ext) (fs : files) (fpasswd : string) (username : list Z) : run :=
  edit (unlock_line username) x fs fpasswd.

(** ** A new password *)

Definition alphabet : list Z :=
  to_bytes "0123456789abcdefghijklmnopqrstuvwxyzABCDEFGHIJKLMNOPQRSTUVWXYZ./".

(** The salt, with the number of the method. *)
Definition salt_of (method : Z) (nonce : list Z) : list Z :=
  [36; method; 36] ++ map (λ b, nth (Z.to_nat (b mod 64)) alphabet 0) nonce ++ [36].

Definition entry (username groupname cr : list Z) : list Z :=
  username ++ 58 :: groupname ++ 58 :: cr ++ [10].

(** The loop over the lines: what is written, and [found]. *)
Fixpoint set_lines (username new : list Z) (ls : list (list Z)) : list Z * bool :=
  match ls with
  | [] => ([], false)
  | line :: ls' =>
    let '(out, found) := set_lines username new ls' in
    if negb (has_colon line) then (out, found) else
    match user_line username line with
    | Some _ => (new ++ out, true)
    | None => (line ++ out, found)
    end
  end.

Section ocpasswd.
Context (crypt : list Z → list Z → option (list Z)).
Context (sha2 : bool).    (* TRY_SHA2_CRYPT: the library is glibc *)

(** [cr_passwd]; MD5 is tried last. *)
Definition cr_passwd (passwd nonce : list Z) : option (list Z) :=
  match crypt passwd (salt_of (if sha2 then 53 else 49) nonce) with
  | Some c => Some c
  | None => crypt passwd (salt_of 49 nonce)
  end.

Definition crypt_int (x : pw_ext) (fs : files) (fpasswd : string) (username groupname passwd : list Z) : run :=
  match nonce x with
  | None => exit1 fs
  | Some n =>
    match cr_passwd passwd n with
    | None => exit1 fs
    | Some cr =>
      if negb (malloc_ok x) then exit1 fs else
      if bool_decide (is_Some (fs !! tmp_name fpasswd)) then exit1 fs else
      if negb (creates x) then exit1 fs else
      let new := entry username groupname cr in
      match opened x fs fpasswd with
      | None => finish x fs fpasswd new
      | Some old =>
        let '(out, found) := set_lines username new (file_lines old) in
        finish x fs fpasswd (if found then out else out ++ new)
      end
    end
  end.

(** ** The command line *)

(** The results of [getopt_long]. *)
Inductive opt := opt_c (file : string) | opt_g (group : string) | opt_d | opt_u | opt_l | opt_h | opt_v | opt_other.

Record options := {
  o_fpasswd : option string;
  o_groupname : option string;
  o_flags : Z }.

Definition FLAG_DELETE : Z := 1.
Definition FLAG_LOCK : Z := 2.
Definition FLAG_UNLOCK : Z := 4.

(** [inl n]: the program exits with [n]. *)
Fixpoint parse_opts (o : options) (l : list opt) : Z + options :=
  match l with
  | [] => inr o
  | a :: l' =>
    let flag f := if o_flags o =? 0 then parse_opts {| o with o_flags := f |} l' else inl 1 in
    match a with
    | opt_c s => match o_fpasswd o with Some _ => inl 1 | None => parse_opts {| o with o_fpasswd := Some s |} l' end
    | opt_g s => match o_groupname o with Some _ => inl 1 | None => parse_opts {| o with o_groupname := Some s |} l' end
    | opt_d => flag FLAG_DELETE
    | opt_u => flag FLAG_UNLOCK
    | opt_l => flag FLAG_LOCK
    | opt_h | opt_v => inl 0
    | opt_other => parse_opts o l'
    end
  end.

(** Where the password comes from: two answers on a terminal, or the bytes
    of the standard input. *)
Inductive input := terminal (first second : option (list Z)) | stdin (bytes : list Z).

(** [inl n]: the program exits with [n].  At the end of the input [getline]
    returns -1, which as a [size_t] is larger than 1. *)
Definition read_passwd (i : input) : cres (Z + list Z) :=
  match i with
  | terminal (Some p1) (Some p2) => Ok (if bool_decide (p1 = p2) then inr p2 else inl 1)
  | terminal _ _ => Ok (inl 1)
  | stdin [] => UB
  | stdin b =>
    let l := (getline b).1 in
    if (length l <=? 1)%nat then Ok (inl 1) else
    Ok (inr (cstr (if bool_decide (last l = Some 10) then take (length l - 1) l else l)))
  end.

Definition main (x : pw_ext) (fs : files) (opts : list opt) (args : list string) (i : input) : run :=
  match parse_opts {| o_fpasswd := None; o_groupname := None; o_flags := 0 |} opts with
  | inl n => Ok (n, fs)
  | inr o =>
    match args with
    | [username] =>
      let username := to_bytes username in
      let groupname := to_bytes (default "*"%string (o_groupname o)) in
      let fpasswd := default DEFAULT_OCPASSWD (o_fpasswd o) in
      if negb (Z.land (o_flags o) FLAG_LOCK =? 0) then lock_user x fs fpasswd username
      else if negb (Z.land (o_flags o) FLAG_UNLOCK =? 0) then unlock_user x fs fpasswd username
      else if negb (Z.land (o_flags o) FLAG_DELETE =? 0) then delete_user x fs fpasswd username
      else
        p ← read_passwd i;
        match p with
        | inl n => Ok (n, fs)
        | inr passwd => crypt_int x fs fpasswd username groupname passwd
        end
    | _ => exit1 fs
    end
  end.
End ocpasswd.
