(* ===== verification/OcpasswdSpec.v ===== *)
(** * The password utility and the authentication together

    The file as a list of accounts, what the utility does to it, and that
    the authentication then accepts what was set. *)

From stdpp Require Import gmap strings.
From S2P Require Import Prelude CString CText Htable Store SecModData PlainAuth PlainSpec Ocpasswd.

#[local] Arguments strsep : simpl never.

(** ** Accounts *)

Record account := { a_user : list Z; a_group : list Z; a_pass : list Z }.

(** A field of a line: no colon, no end of line or string. *)
Definition field_ok (l : list Z) : Prop := Forall (λ c, c ≠ 58 ∧ c ≠ 10 ∧ c ≠ 13 ∧ c ≠ 0) l.
Definition account_ok (a : account) : Prop :=
  a_user a ≠ [] ∧ field_ok (a_user a) ∧ field_ok (a_group a) ∧ field_ok (a_pass a).

Definition line_of (a : account) : list Z := entry (a_user a) (a_group a) (a_pass a).
Definition render (es : list account) : list Z := concat (map line_of es).

(** The lines [fgets] of the server reads whole and does not skip. *)
Definition readable (a : account) : Prop := (4 < length (line_of a) ≤ 510)%nat.

(** The account that counts. *)
Fixpoint account_of (es : list account) (u : list Z) : option account :=
  match es with
  | [] => None
  | a :: es' => if bool_decide (a_user a = u) then Some a else account_of es' u
  end.

(** The operations. *)
Definition lock (c : list Z) : list Z := if bool_decide (c !! 0%nat = Some 33) then c else 33 :: c.
Definition unlock (c : list Z) : list Z := if bool_decide (c !! 0%nat = Some 33) then drop 1 c else c.

Definition on_user (u : list Z) (f : list Z → list Z) (a : account) : account :=
  if bool_decide (a_user a = u) then {| a with a_pass := f (a_pass a) |} else a.
Definition without (u : list Z) (es : list account) : list account := filter (λ a, a_user a ≠ u) es.
Definition replace_all (n : account) (es : list account) : list account :=
  map (λ a, if bool_decide (a_user a = a_user n) then n else a) es.
Definition set_account (n : account) (es : list account) : list account :=
  if existsb (λ a, bool_decide (a_user a = a_user n)) es then replace_all n es
  else replace_all n es ++ [n].

(** ** Lines *)

Lemma field_no_colon l : field_ok l → Forall (λ c, c ≠ 0 ∧ c ≠ 58) l.
Proof. intros H. eapply Forall_impl; [exact H|]. naive_solver. Qed.

Lemma getline_line a rest : account_ok a → getline (line_of a ++ rest) = (line_of a, rest).
Proof.
  intros (_ & Hu & Hg & Hp). unfold line_of, entry.
  assert (∀ l r k, Forall (λ c, c ≠ 10) l → getline k = (r, rest) → getline (l ++ k) = (l ++ r, rest)) as H.
  { induction l as [|c l IH]; intros r k Hl Hk; simpl; [done|]. apply Forall_cons in Hl as [Hc Hl].
    destruct (Z.eqb_spec c 10); [done|]. by rewrite (IH r k). }
  assert (∀ l, field_ok l → Forall (λ c, c ≠ 10) l) as Hf.
  { intros l Hl. eapply Forall_impl; [exact Hl|]. naive_solver. }
  replace ((a_user a ++ 58 :: a_group a ++ 58 :: a_pass a ++ [10]) ++ rest)
    with (a_user a ++ 58 :: a_group a ++ 58 :: a_pass a ++ 10 :: rest).
  2: { by rewrite <- (assoc_L (++)); simpl; rewrite <- (assoc_L (++)); simpl; rewrite <- (assoc_L (++)). }
  apply H; [by apply Hf|]. simpl. rewrite (H (a_group a) (58 :: a_pass a ++ [10])); [done|by apply Hf|].
  simpl. rewrite (H (a_pass a) [10]); [done|by apply Hf|done].
Qed.

Lemma line_of_cons a : ∃ c l, line_of a = c :: l.
Proof. unfold line_of, entry. destruct (a_user a); simpl; by eexists _, _. Qed.

Lemma getlines_render fuel es : Forall account_ok es → (length (render es) ≤ fuel)%nat →
  getlines fuel (render es) = map line_of es.
Proof.
  intros Hes. revert fuel. induction Hes as [|a es Ha _ IH]; intros fuel Hf; [by destruct fuel|].
  unfold render in *. simpl in *. destruct (line_of_cons a) as (c & l & E).
  rewrite length_app in Hf. destruct fuel as [|fuel]; [rewrite E in Hf; simpl in Hf; lia|].
  cbn [getlines]. rewrite getline_line by done. rewrite E at 1. simpl. f_equal. apply IH.
  rewrite E in Hf. simpl in Hf. lia.
Qed.

Lemma file_lines_render es : Forall account_ok es → file_lines (render es) = map line_of es.
Proof. intros. by apply getlines_render. Qed.

(** The colons of a line. *)
Lemma first_colon a : account_ok a → strchr_at (line_of a) 58 = Some (length (a_user a)).
Proof.
  intros (_ & Hu & _). unfold line_of, entry. rewrite strchr_group by by apply field_no_colon.
  simpl. by rewrite Nat.add_0_r.
Qed.

Lemma user_line_of u a : account_ok a →
  user_line u (line_of a) = if bool_decide (a_user a = u) then Some (length (a_user a)) else None.
Proof.
  intros Ha. unfold user_line. rewrite first_colon by done. unfold line_of, entry. by rewrite take_app_length.
Qed.

Lemma has_colon_of a : account_ok a → has_colon (line_of a) = true.
Proof. intros Ha. unfold has_colon. rewrite first_colon by done. by apply bool_decide_eq_true_2. Qed.

Lemma drop_first a : drop (S (length (a_user a))) (line_of a) = a_group a ++ 58 :: a_pass a ++ [10].
Proof.
  unfold line_of, entry. rewrite drop_app_ge by lia.
  by replace (S (length (a_user a)) - length (a_user a))%nat with 1%nat by lia.
Qed.

Lemma second_colon_of a : account_ok a →
  second_colon (line_of a) (length (a_user a)) = Some (length (a_user a) + length (a_group a) + 2)%nat.
Proof.
  intros (_ & _ & Hg & _). unfold second_colon. rewrite drop_first, strchr_group by by apply field_no_colon.
  simpl. f_equal. lia.
Qed.

Lemma split_line a : line_of a = (a_user a ++ 58 :: a_group a ++ [58]) ++ a_pass a ++ [10].
Proof. unfold line_of, entry. by rewrite <- (assoc_L (++)), <- app_comm_cons, <- (assoc_L (++)). Qed.

Lemma split_length a :
  (length (a_user a) + length (a_group a) + 2)%nat = length (a_user a ++ 58 :: a_group a ++ [58]).
Proof. rewrite length_app. simpl. rewrite length_app. simpl. lia. Qed.

(** The first character of the password, which may be the end of the line. *)
Lemma at_password a : field_ok (a_pass a) →
  bool_decide (line_of a !! (length (a_user a) + length (a_group a) + 2)%nat = Some 33) =
  bool_decide (a_pass a !! 0%nat = Some 33).
Proof.
  intros _. rewrite split_line, split_length. rewrite lookup_app_r, Nat.sub_diag by done.
  apply bool_decide_ext. by destruct (a_pass a).
Qed.

Lemma delete_line_of u a : account_ok a →
  delete_line u (line_of a) = if bool_decide (a_user a = u) then [] else line_of a.
Proof. intros Ha. unfold delete_line. rewrite has_colon_of, user_line_of by done. by case_bool_decide. Qed.

Lemma lock_line_of u a : account_ok a → lock_line u (line_of a) = line_of (on_user u lock a).
Proof.
  intros Ha. unfold lock_line. rewrite has_colon_of, user_line_of by done. cbn [negb]. unfold on_user.
  case_bool_decide as Hu; [|done]. rewrite second_colon_of, at_password by (done || apply Ha).
  unfold lock. case_bool_decide; [by destruct a|]. rewrite !split_line, split_length.
  by rewrite take_app_length, drop_app_length.
Qed.

Lemma unlock_line_of u a : account_ok a → unlock_line u (line_of a) = line_of (on_user u unlock a).
Proof.
  intros Ha. unfold unlock_line. rewrite has_colon_of, user_line_of by done. cbn [negb]. unfold on_user.
  case_bool_decide as Hu; [|done]. rewrite second_colon_of, at_password by (done || apply Ha).
  unfold unlock. case_bool_decide as Hl; rewrite !split_line, split_length, take_app_length; [|by rewrite drop_app_length].
  f_equal. simpl. rewrite drop_app_ge by lia.
  replace (S _ - _)%nat with 1%nat by lia. by destruct (a_pass a).
Qed.

(** ** The file *)

Lemma render_app es es' : render (es ++ es') = render es ++ render es'.
Proof. unfold render. by rewrite map_app, concat_app. Qed.

Lemma delete_lines u es : Forall account_ok es →
  concat (map (delete_line u) (map line_of es)) = render (without u es).
Proof.
  induction 1 as [|a es Ha _ IH]; [done|]. simpl. rewrite delete_line_of, IH by done. unfold without.
  rewrite filter_cons. case_bool_decide; [by rewrite decide_False by auto|by rewrite decide_True].
Qed.

Lemma edit_lines t f es : (∀ a, account_ok a → t (line_of a) = line_of (f a)) → Forall account_ok es →
  concat (map t (map line_of es)) = render (map f es).
Proof. intros Ht. induction 1 as [|a es Ha _ IH]; [done|]. simpl. by rewrite Ht, IH. Qed.

Lemma set_lines_of n es : Forall account_ok es →
  set_lines (a_user n) (line_of n) (map line_of es) =
    (render (replace_all n es), existsb (λ a, bool_decide (a_user a = a_user n)) es).
Proof.
  induction 1 as [|a es Ha _ IH]; [done|]. simpl. rewrite IH, has_colon_of, user_line_of by done. simpl.
  by case_bool_decide.
Qed.

(** ** The utility against the list of accounts *)

(** crypt(3): a hash is a setting that gives the same hash for the same
    password, and has no colons, exclamation marks or white space. *)
Class CryptSpec (crypt : list Z → list Z → option (list Z)) := {
  crypt_verifies p s c : crypt p s = Some c → crypt p c = Some c;
  crypt_chars p s c : crypt p s = Some c → c ≠ [] ∧ Forall (λ b, 33 < b < 127 ∧ b ≠ 58) c }.

Inductive pw_op := OpSet (group passwd : list Z) | OpDelete | OpLock | OpUnlock.

Section accounts.
Context (crypt : list Z → list Z → option (list Z)) `{HC : !CryptSpec crypt} (sha2 : bool).

Lemma crypt_field p s c : crypt p s = Some c → field_ok c.
Proof.
  intros H. destruct (crypt_chars _ _ _ H) as [_ Hc]. eapply Forall_impl; [exact Hc|]. simpl. intros b Hb. lia.
Qed.

Lemma cr_passwd_hash p n c : cr_passwd crypt sha2 p n = Some c → ∃ s, crypt p s = Some c.
Proof. unfold cr_passwd. case_match; [intros [= <-]|]; eauto. Qed.

Definition run_op (x : pw_ext) (fs : files) (path : string) (u : list Z) (op : pw_op) : run :=
  match op with
  | OpSet g pw => crypt_int crypt sha2 x fs path u g pw
  | OpDelete => delete_user x fs path u
  | OpLock => lock_user x fs path u
  | OpUnlock => unlock_user x fs path u
  end.

(** What it should do to the accounts; [n] is the nonce. *)
Definition spec_op (n : list Z) (u : list Z) (op : pw_op) (es : list account) : option (list account) :=
  match op with
  | OpSet g pw =>
    c ← cr_passwd crypt sha2 pw n;
    Some (set_account {| a_user := u; a_group := g; a_pass := c |} es)
  | OpDelete => Some (without u es)
  | OpLock => Some (map (on_user u lock) es)
  | OpUnlock => Some (map (on_user u unlock) es)
  end.

(** The user and the group that are given. *)
Definition args_ok (u : list Z) (op : pw_op) : Prop :=
  u ≠ [] ∧ field_ok u ∧ match op with OpSet g _ => field_ok g | _ => True end.

(** The system gives what is asked for, and nobody else edits the file. *)
Definition grants (x : pw_ext) (fs : files) (path : string) (n : list Z) : Prop :=
  malloc_ok x = true ∧ reads x = true ∧ nonce x = Some n ∧ creates x = true ∧ renames x = true ∧ fs !! tmp_name path = None.

Lemma lock_field c : field_ok c → field_ok (lock c).
Proof. unfold lock. case_bool_decide; [done|]. intros. by apply Forall_cons. Qed.

Lemma unlock_field c : field_ok c → field_ok (unlock c).
Proof. unfold unlock. case_bool_decide; [|done]. by apply Forall_drop. Qed.

Lemma on_user_ok u f a : (∀ c, field_ok c → field_ok (f c)) → account_ok a → account_ok (on_user u f a).
Proof.
  intros Hf (? & ? & ? & ?). unfold on_user. case_bool_decide; [|done]. unfold account_ok. simpl. auto.
Qed.

Lemma set_account_ok n es : account_ok n → Forall account_ok es → Forall account_ok (set_account n es).
Proof.
  intros Hn Hes. assert (Forall account_ok (replace_all n es)).
  { apply Forall_map. eapply Forall_impl; [exact Hes|]. intros a Ha. simpl. by case_bool_decide. }
  unfold set_account. case_match; [done|]. by apply Forall_app_2, Forall_singleton.
Qed.

Lemma spec_op_ok n u op es es' : args_ok u op → Forall account_ok es →
  spec_op n u op es = Some es' → Forall account_ok es'.
Proof.
  intros (Hu & Hfu & Hg) Hes. destruct op as [g pw| | |]; simpl.
  - destruct (cr_passwd crypt sha2 pw n) as [c|] eqn:E; [|done]. simpl. intros [= <-].
    apply set_account_ok; [|done]. destruct (cr_passwd_hash _ _ _ E) as [s Hs].
    split_and!; simpl; try done. by eapply crypt_field.
  - intros [= <-]. apply Forall_forall. intros a [_ Ha]%list_elem_of_filter. by eapply Forall_forall.
  - intros [= <-]. apply Forall_map. eapply Forall_impl; [exact Hes|]. intros a. apply on_user_ok, lock_field.
  - intros [= <-]. apply Forall_map. eapply Forall_impl; [exact Hes|]. intros a. apply on_user_ok, unlock_field.
Qed.

Lemma finish_grants x fs path n out : grants x fs path n → (length out ≤ room x)%nat →
  finish x fs path out = Ok (0, <[path := out]> fs).
Proof.
  intros (_ & _ & _ & _ & Hr & Ht) Hl. unfold finish, written. rewrite Hr, take_ge by lia.
  by rewrite delete_insert_id.
Qed.

(** The operations on the file of a list of accounts. *)
Lemma run_op_render x fs path u op es n es' :
  grants x fs path n → fs !! path = Some (render es) → Forall account_ok es →
  spec_op n u op es = Some es' → (length (render es') ≤ room x)%nat →
  run_op x fs path u op = Ok (0, <[path := render es']> fs).
Proof.
  intros Hx Hf Hes Hs Hl. pose proof Hx as (Hm & Hrd & Hn & Hc & Hr & Ht).
  assert (bool_decide (is_Some (fs !! tmp_name path)) = false) as Htmp.
  { rewrite Ht. by apply bool_decide_eq_false_2, is_Some_None. }
  destruct op as [g pw| | |]; simpl in *;
    unfold crypt_int, delete_user, lock_user, unlock_user, edit, opened; rewrite Hm, Htmp, Hrd, Hf, Hc, ?Hn; simpl.
  - destruct (cr_passwd crypt sha2 pw n) as [c|]; [|done]. simpl in Hs. injection Hs as <-.
    rewrite file_lines_render by done. set (a := {| a_user := u; a_group := g; a_pass := c |}) in *.
    change (entry u g c) with (line_of a). change u with (a_user a). rewrite set_lines_of by done.
    rewrite <- (finish_grants x fs path n) by done. unfold set_account. case_match; [done|].
    rewrite render_app. by rewrite (app_nil_r (line_of a) : render [a] = line_of a).
  - injection Hs as <-. rewrite file_lines_render, delete_lines by done. by eapply finish_grants.
  - injection Hs as <-. rewrite file_lines_render by done.
    rewrite (edit_lines _ _ _ (lock_line_of u)) by done. by eapply finish_grants.
  - injection Hs as <-. rewrite file_lines_render by done.
    rewrite (edit_lines _ _ _ (unlock_line_of u)) by done. by eapply finish_grants.
Qed.

(** C31: When the system grants what is asked for, each operation of the
    utility turns the file of a list of accounts into the file of the list
    with exactly the accounts of the user changed: a new password replaces
    them or adds one, deleting removes them, locking and unlocking change
    their passwords; no other file changes. *)
Theorem ocpasswd_refines x fs path u op es n es' :
  grants x fs path n → fs !! path = Some (render es) → Forall account_ok es → args_ok u op →
  spec_op n u op es = Some es' → (length (render es') ≤ room x)%nat →
  run_op x fs path u op = Ok (0, <[path := render es']> fs) ∧ Forall account_ok es'.
Proof.
  intros. split; [by eapply run_op_render|by eapply spec_op_ok].
Qed.

Lemma tmp_ne path : path ≠ tmp_name path.
Proof. induction path as [|c path IH]; [done|]. intros [= E]. by apply IH. Qed.

(** An error leaves the password file as it was. *)
Theorem ocpasswd_error_keeps x fs path u op r fs' :
  run_op x fs path u op = Ok (r, fs') → r ≠ 0 → fs' !! path = fs !! path.
Proof.
  assert (∀ out, finish x fs path out = Ok (r, fs') → r ≠ 0 → fs' !! path = fs !! path) as H.
  { intros out. unfold finish, exit1. destruct (renames x); intros [= <- <-] ?; [done|].
    apply lookup_insert_ne, not_eq_sym, tmp_ne. }
  assert (∀ f, edit f x fs path = Ok (r, fs') → r ≠ 0 → fs' !! path = fs !! path) as He.
  { intros f. unfold edit, exit1. repeat case_match; try done; try (by intros [= <- <-]). apply H. }
  destruct op; simpl; unfold delete_user, lock_user, unlock_user; try apply He.
  unfold crypt_int, exit1. repeat case_match; try (by intros [= <- <-]); apply H.
Qed.

(** ** What the server reads *)

Lemma fgets_getline n f l r : getline f = (l, r) → (length l ≤ n)%nat → last l = Some 10 → fgets n f = (l, r).
Proof.
  revert n l r. induction f as [|c f IH]; intros n l r; simpl; [by intros [= <- <-]|].
  destruct (Z.eqb_spec c 10) as [->|Hc].
  - intros [= <- <-] Hl _. destruct n; [simpl in Hl; lia|done].
  - destruct (getline f) as [l0 r0]. intros [= <- <-] Hl Hlast. destruct n as [|n]; simpl in Hl; [lia|]. simpl.
    destruct (Z.eqb_spec c 10); [done|]. rewrite (IH n l0 r0); [done|done|lia|].
    by destruct l0; [injection Hlast as ->|].
Qed.

Lemma last_line a : last (line_of a) = Some 10.
Proof. unfold line_of, entry. by rewrite last_app; simpl; rewrite !last_cons, last_app; simpl; rewrite last_cons, last_app. Qed.

Lemma read_lines_render fuel es : Forall account_ok es → Forall readable es → (length (render es) ≤ fuel)%nat →
  read_lines fuel (render es) = map line_of es.
Proof.
  intros Hes. revert fuel. induction Hes as [|a es Ha _ IH]; intros fuel Hrd Hf; [by destruct fuel|].
  apply Forall_cons in Hrd as [[_ Hr] Hrd].
  unfold render in *. simpl in *. destruct (line_of_cons a) as (c & l & E).
  rewrite length_app in Hf. destruct fuel as [|fuel]; [rewrite E in Hf; simpl in Hf; lia|].
  cbn [read_lines]. rewrite (fgets_getline 510 _ (line_of a) (concat (map line_of es)));
    [|by apply getline_line|lia|apply last_line].
  rewrite E at 1. simpl. f_equal. apply IH; [done|]. rewrite E in Hf. simpl in Hf. lia.
Qed.

Lemma lines_render es : Forall account_ok es → Forall readable es → lines (render es) = map line_of es.
Proof. intros. by apply read_lines_render. Qed.

Lemma cstr_id l : Forall (λ c, c ≠ 0) l → cstr l = l.
Proof. induction 1 as [|c l Hc _ IH]; simpl; [done|]. destruct (Z.eqb_spec c 0); [done|]. by rewrite IH. Qed.

Lemma line_text_of a : account_ok a → readable a →
  line_text (line_of a) = Some (a_user a ++ 58 :: a_group a ++ 58 :: a_pass a).
Proof.
  intros (Hne & Hu & Hg & Hp) [Hr _]. unfold line_text.
  assert (∀ l, field_ok l → Forall (λ c, c ≠ 0) l) as Hf.
  { intros l Hl. eapply Forall_impl; [exact Hl|]. naive_solver. }
  set (b := a_user a ++ 58 :: a_group a ++ 58 :: a_pass a).
  assert (line_of a = b ++ [10]) as E.
  { unfold line_of, entry, b. by rewrite <- (assoc_L (++)); simpl; rewrite <- (assoc_L (++)). }
  rewrite cstr_id.
  2: { unfold line_of, entry. apply Forall_app_2; [by apply Hf|]. apply Forall_cons. split; [done|].
       apply Forall_app_2; [by apply Hf|]. apply Forall_cons. split; [done|].
       apply Forall_app_2; [by apply Hf|]. by apply Forall_singleton. }
  rewrite (proj2 (Nat.leb_gt _ _)) by lia. f_equal. rewrite E. unfold chomp at 2.
  rewrite last_snoc, Z.eqb_refl, length_app. simpl. rewrite Nat.add_sub, take_app_length. unfold chomp.
  destruct (last b) as [c|] eqn:El; [|done]. destruct (Z.eqb_spec c 13) as [->|]; [|done]. exfalso.
  revert El. unfold b. rewrite last_app, last_cons, last_app, last_cons. destruct (last (a_pass a)) as [c|] eqn:Ec.
  - intros [= ->]. apply last_Some in Ec as [k Ek]. unfold field_ok in Hp. rewrite Ek in Hp.
    apply Forall_app in Hp as [_ Hp]. apply Forall_cons in Hp as [(_ & _ & ? & _) _]. done.
  - done.
Qed.

Lemma strsep_field l rest : field_ok l → strsep 58 (Some (l ++ 58 :: rest)) = (Some l, Some rest).
Proof.
  intros Hl. unfold strsep. rewrite strchr_group by by apply field_no_colon. simpl. rewrite Nat.add_0_r.
  rewrite take_app_length, drop_app_ge by lia. by replace (S (length l) - length l)%nat with 1%nat by lia.
Qed.

Lemma strsep_end l : field_ok l → strsep 58 (Some l) = (Some l, None).
Proof.
  intros Hl%field_no_colon. unfold strsep. pose proof (strchr_group l 58 [] Hl) as E. rewrite app_nil_r in E. by rewrite E.
Qed.

Lemma check_line_of x a : account_ok a → readable a →
  check_line x (line_of a) =
    if bool_decide (a_user a = p_username x) then
      gs ← break_group_list (a_group a);
      Ok (true, {| x with groupnames := gs; cpass := take (MAX_CPASS_SIZE - 1) (a_pass a); failed := false |})
    else Ok (false, x).
Proof.
  intros Ha Hr. unfold check_line. rewrite line_text_of by done. destruct Ha as (_ & Hu & Hg & Hp).
  rewrite strsep_field by done. rewrite (bool_decide_ext (Some (a_user a) = Some (p_username x)) (a_user a = p_username x)) by (split; congruence).
  case_bool_decide; [|done]. rewrite strsep_field by done. destruct (break_group_list _); try done. simpl.
  by rewrite strsep_end.
Qed.

(** The server finds the account that counts. *)
Lemma check_lines_render x es : Forall account_ok es → Forall readable es →
  check_lines x (map line_of es) =
    match account_of es (p_username x) with
    | Some a =>
      gs ← break_group_list (a_group a);
      Ok {| x with groupnames := gs; cpass := take (MAX_CPASS_SIZE - 1) (a_pass a); failed := false |}
    | None => Ok x
    end.
Proof.
  induction 1 as [|a es Ha _ IH]; intros Hrd; [done|]. apply Forall_cons in Hrd as [Hr Hrd].
  cbn [map check_lines account_of]. rewrite check_line_of by done.
  case_bool_decide; [|by apply IH]. by destruct (break_group_list _).
Qed.

(** ** The account that counts after an operation *)

Lemma account_of_replace n es v :
  account_of (replace_all n es) v =
    if bool_decide (v = a_user n) then (λ _, n) <$> account_of es v else account_of es v.
Proof.
  induction es as [|a es IH]; simpl; [by case_bool_decide|]. rewrite IH.
  repeat case_bool_decide; simplify_eq/=; done || congruence.
Qed.

Lemma account_of_app es es' v :
  account_of (es ++ es') v = match account_of es v with Some a => Some a | None => account_of es' v end.
Proof. induction es as [|a es IH]; simpl; [done|]. by case_bool_decide. Qed.

Lemma account_of_exists es u : existsb (λ a, bool_decide (a_user a = u)) es = true ↔ is_Some (account_of es u).
Proof.
  induction es as [|a es IH]; simpl; [by split; [|intros []]|]. case_bool_decide; simpl; [|done].
  by split; eauto.
Qed.

Lemma account_of_set n es v :
  account_of (set_account n es) v = if bool_decide (v = a_user n) then Some n else account_of es v.
Proof.
  pose proof (account_of_exists es (a_user n)) as He. unfold set_account. case_match.
  - rewrite account_of_replace. case_bool_decide; [subst v|done]. by destruct (proj1 He eq_refl) as [? ->].
  - rewrite account_of_app, account_of_replace. case_bool_decide as Hv; simpl.
    + subst v. rewrite bool_decide_true by done. by destruct (account_of es _).
    + rewrite bool_decide_false by congruence. by destruct (account_of es v).
Qed.

Lemma account_of_map u f es v : account_of (map (on_user u f) es) v = on_user u f <$> account_of es v.
Proof.
  assert (∀ a, a_user (on_user u f a) = a_user a) as Hu by (intros a; unfold on_user; by case_bool_decide).
  induction es as [|a es IH]; simpl; [done|]. rewrite Hu, IH. by case_bool_decide.
Qed.

Lemma account_of_without u es : account_of (without u es) u = None.
Proof.
  induction es as [|a es IH]; [done|]. unfold without in *. rewrite filter_cons.
  case_decide; simpl; [|done]. by rewrite bool_decide_false.
Qed.

Lemma account_of_user es u a : account_of es u = Some a → a_user a = u.
Proof. induction es as [|b es IH]; simpl; [done|]. case_bool_decide; [by intros [= <-]|done]. Qed.

(** Locking and unlocking gives the accounts back. *)
Lemma unlock_lock u es : Forall (λ a, a_pass a !! 0%nat ≠ Some 33) es →
  map (on_user u unlock) (map (on_user u lock) es) = es.
Proof.
  induction 1 as [|a es Ha _ IH]; simpl; [done|]. f_equal; [|done]. unfold on_user.
  destruct (decide (a_user a = u)) as [Hu|Hu]; [|by rewrite !(bool_decide_false _ Hu)].
  rewrite (bool_decide_true _ Hu). cbn [a_user]. rewrite (bool_decide_true _ Hu).
  unfold lock, unlock. cbn [a_pass]. rewrite (bool_decide_false _ Ha). by destruct a.
Qed.

(** ** Logging in afterwards *)
Section login.
Context (cfg : plain_cfg_st) (path : string).
Hypothesis Hcfg : passwd cfg = Some path.
Implicit Types (fs : files) (es : list account) (u pw : list Z).

Abbreviation reads fs := (λ p : string, fs !! p).

Lemma init_render fs es u a gs :
  fs !! path = Some (render es) → Forall account_ok es → Forall readable es →
  u ≠ [] → (length u < MAX_USERNAME_SIZE)%nat → account_of es u = Some a →
  break_group_list (a_group a) = Ok gs → a_pass a ≠ [] → (length (a_pass a) < MAX_CPASS_SIZE)%nat →
  plain_auth_init (reads fs) cfg (Some u) = Ok (ERR_AUTH_CONTINUE, Some {| p_username := u; cpass := a_pass a;
    groupnames := gs; pass_msg := None; retries := 0; failed := false |}).
Proof.
  intros Hf Hes Hrd Hu Hl Ha Hg Hp Hpl. unfold plain_auth_init. destruct u as [|c u]; [done|].
  set (v := c :: u) in *. rewrite take_ge by (unfold MAX_USERNAME_SIZE in *; lia).
  unfold read_auth_pass. rewrite Hcfg, Hf, lines_render, check_lines_render by done. cbn [p_username].
  rewrite Ha, Hg. run. rewrite take_ge by (unfold MAX_CPASS_SIZE in *; lia). by rewrite bool_decide_false.
Qed.

(** C32: A password that is set with the utility lets its user in, with the
    groups that were set, and no other password does that does not give the
    same hash. *)
Theorem new_password_logs_in x fs es n u g pw c gs :
  grants x fs path n → fs !! path = Some (render es) → Forall account_ok es → otp_file cfg = None →
  args_ok u (OpSet g pw) → (length u < MAX_USERNAME_SIZE)%nat → break_group_list g = Ok gs →
  cr_passwd crypt sha2 pw n = Some c → (length c < MAX_CPASS_SIZE)%nat →
  let es' := set_account {| a_user := u; a_group := g; a_pass := c |} es in
  Forall readable es' → (length (render es') ≤ room x)%nat →
  ∃ fs' y, crypt_int crypt sha2 x fs path u g pw = Ok (0, fs') ∧
    plain_auth_init (reads fs') cfg (Some u) = Ok (ERR_AUTH_CONTINUE, Some y) ∧ groupnames y = gs ∧
    (plain_auth_pass crypt cfg y pw false).1 = 0 ∧
    ∀ p o ps, (attempts crypt cfg y ((p, o) :: ps)).1 = 0 ↔ crypt p c = Some c.
Proof.
  intros Hx Hf Hes Ho Ha Hu Hg Hc Hcl es' Hrd Hl. set (a := {| a_user := u; a_group := g; a_pass := c |}) in *.
  assert (spec_op n u (OpSet g pw) es = Some es') as Hs by (simpl; by rewrite Hc).
  assert (Forall account_ok es') as Hes' by by eapply spec_op_ok.
  destruct (cr_passwd_hash _ _ _ Hc) as [s Hcs]. destruct (crypt_chars _ _ _ Hcs) as [Hne _].
  exists (<[path := render es']> fs). eexists. split; [|split].
  - by eapply (run_op_render x fs path u (OpSet g pw)).
  - apply (init_render _ es' u a gs); try done; [by rewrite lookup_insert_eq|apply Ha|].
    unfold es'. rewrite account_of_set. by rewrite bool_decide_true.
  - split; [done|]. cbn [a_pass a].
    assert (∀ p o ps, (attempts crypt cfg {| p_username := u; cpass := c; groupnames := gs; pass_msg := None;
      retries := 0; failed := false |} ((p, o) :: ps)).1 = 0 ↔ crypt p c = Some c) as H.
    { intros p o ps. cbn [attempts]. unfold plain_auth_pass at 1. cbn [cpass]. rewrite (bool_decide_false _ Hne), Ho.
      destruct (crypt p c) as [q|]; [case_bool_decide as Hq|]; simpl.
      - subst q. by rewrite (bool_decide_false _ Hne).
      - split; [|congruence]. intros Hz. exfalso. revert Hz. by apply failed_attempts.
      - split; [|done]. intros Hz. exfalso. revert Hz. by apply failed_attempts. }
    split; [|done]. unfold plain_auth_pass. cbn [cpass]. rewrite (bool_decide_false _ Hne), Ho.
    rewrite (crypt_verifies _ _ _ Hcs), bool_decide_true by done. simpl. by rewrite (bool_decide_false _ Hne).
Qed.

(** A context no password is accepted for. *)
Lemma refused_attempts y ps : (failed y = true ∨ ∃ c, cpass y = 33 :: c) → (attempts crypt cfg y ps).1 ≠ 0.
Proof.
  intros [?|[c Hc]]; [by apply failed_attempts|]. destruct ps as [|[p o] ps]; [done|]. cbn [attempts].
  unfold plain_auth_pass at 1. rewrite Hc. rewrite bool_decide_false by done.
  assert (crypt p (33 :: c) ≠ Some (33 :: c)) as Hn.
  { intros H. apply crypt_chars in H as [_ H]. apply Forall_cons in H as [? _]. lia. }
  destruct (crypt p (33 :: c)) as [q|]; [rewrite bool_decide_false by congruence|]; simpl;
    (destruct (retries y <? _); simpl; [by apply failed_attempts|done]).
Qed.

(** C33: A user who was deleted or locked with the utility is refused, whatever
    passwords are tried. *)
Theorem removed_user_refused x fs es n u op es' :
  grants x fs path n → fs !! path = Some (render es) → Forall account_ok es → args_ok u op →
  (length u < MAX_USERNAME_SIZE)%nat → op = OpDelete ∨ op = OpLock →
  spec_op n u op es = Some es' → Forall readable es' → (length (render es') ≤ room x)%nat →
  ∃ fs', run_op x fs path u op = Ok (0, fs') ∧
    ∀ r y ps, plain_auth_init (reads fs') cfg (Some u) = Ok (r, Some y) →
      r ≠ 0 ∧ (attempts crypt cfg y ps).1 ≠ 0.
Proof.
  intros Hx Hf Hes Ha Hu Hop Hs Hrd Hl. exists (<[path := render es']> fs).
  assert (Forall account_ok es') as Hes' by by eapply spec_op_ok.
  split. { by eapply run_op_render. }
  intros r y ps. unfold plain_auth_init. destruct u as [|c0 u0]; [by destruct Ha|]. set (u := c0 :: u0) in *.
  rewrite take_ge by (unfold MAX_USERNAME_SIZE in *; lia).
  unfold read_auth_pass. rewrite Hcfg, lookup_insert_eq, lines_render, check_lines_render by done. cbn [p_username].
  destruct Hop as [->| ->]; injection Hs as <-.
  - rewrite account_of_without. simpl. intros [= <- <-]. split; [done|].
    apply refused_attempts. by left.
  - rewrite account_of_map. destruct (account_of es u) as [a|] eqn:Ea; simpl.
    + unfold on_user. rewrite (bool_decide_true (a_user a = u)) by by eapply account_of_user. cbn [a_group a_pass].
      destruct (break_group_list _); try done. simpl.
      assert (∃ c, lock (a_pass a) = 33 :: c) as [c ->].
      { unfold lock. case_bool_decide as H; [|by eexists]. destruct (a_pass a); simplify_eq/=. by eexists. }
      simpl. intros [= <- <-]. split; [done|]. apply refused_attempts. right. by eexists.
    + intros [= <- <-]. split; [done|]. apply refused_attempts. by left.
Qed.
End login.
End accounts.

(** ** Witnesses *)
Module OcpasswdWitnesses.

Definition hash_char (b : Z) : bool := (33 <? b) && (b <? 127) && negb (b =? 58).
(** Every method hashes a password to itself without the characters a hash
    does not have, after an x. *)
Definition simple (p _ : list Z) : option (list Z) := Some (120 :: List.filter hash_char p).

#[export] Instance simple_spec : CryptSpec simple.
Proof.
  split; [by intros p s c [= <-]|]. intros p s c [= <-]. split; [done|]. apply Forall_cons. split; [lia|].
  apply List.Forall_forall. intros b [_ Hb]%List.filter_In. unfold hash_char in Hb. lia.
Qed.

Definition jo : account := {| a_user := to_bytes "jo"; a_group := to_bytes "staff"; a_pass := to_bytes "xsecret" |}.
Definition al : account := {| a_user := to_bytes "al"; a_group := to_bytes "*"; a_pass := to_bytes "xold" |}.
Definition granted : pw_ext := {| malloc_ok := true; reads := true; nonce := Some (replicate 16 7); creates := true; renames := true; room := 1000 |}.
Definition disk : files := {[ "pw"%string := render [jo; al] ]}.
Definition cfg : plain_cfg_st := {| passwd := Some "pw"%string; otp_file := None |}.

Lemma ok_accounts : Forall account_ok [jo; al].
Proof.
  repeat (apply Forall_cons; split); [..|by apply Forall_nil];
    (split; [done|]; split_and!; repeat (apply Forall_cons; split); done || by apply Forall_nil).
Qed.

Lemma grants_all : grants granted disk "pw" (replicate 16 7).
Proof. done. Qed.

Lemma field_ok_staff : args_ok (to_bytes "al") (OpSet (to_bytes "staff,admin") (to_bytes "new")).
Proof. split; [done|]. split; repeat (apply Forall_cons; split); done || by apply Forall_nil. Qed.

Lemma ocpasswd_refines_witness :
  run_op simple true granted disk "pw" (to_bytes "al") OpLock =
    Ok (0, <["pw"%string := to_bytes "jo:staff:xsecret
al:*:!xold
"]> disk) ∧
  Forall account_ok [jo; {| a_user := to_bytes "al"; a_group := to_bytes "*"; a_pass := to_bytes "!xold" |}].
Proof.
  apply (ocpasswd_refines simple true granted disk "pw" (to_bytes "al") OpLock [jo; al] (replicate 16 7)
    [jo; {| a_user := to_bytes "al"; a_group := to_bytes "*"; a_pass := to_bytes "!xold" |}]).
  - apply grants_all.
  - done.
  - apply ok_accounts.
  - destruct field_ok_staff as (? & ? & _). done.
  - done.
  - vm_compute. lia.
Defined.

Lemma new_password_logs_in_witness :
  ∃ fs' y, crypt_int simple true granted disk "pw" (to_bytes "al") (to_bytes "staff,admin") (to_bytes "new") = Ok (0, fs') ∧
    plain_auth_init (λ p, fs' !! p) cfg (Some (to_bytes "al")) = Ok (ERR_AUTH_CONTINUE, Some y) ∧
    groupnames y = [to_bytes "staff"; to_bytes "admin"] ∧
    (plain_auth_pass simple cfg y (to_bytes "new") false).1 = 0 ∧
    ∀ p o ps, (attempts simple cfg y ((p, o) :: ps)).1 = 0 ↔ simple p (to_bytes "xnew") = Some (to_bytes "xnew").
Proof.
  apply (new_password_logs_in simple true cfg "pw" eq_refl granted disk [jo; al] (replicate 16 7)).
  - apply grants_all.
  - done.
  - apply ok_accounts.
  - done.
  - apply field_ok_staff.
  - vm_compute. lia.
  - done.
  - done.
  - vm_compute. lia.
  - repeat (apply Forall_cons; split); [vm_compute; lia..|by apply Forall_nil].
  - vm_compute. lia.
Defined.

Lemma removed_user_refused_witness :
  ∃ fs', run_op simple true granted disk "pw" (to_bytes "jo") OpDelete = Ok (0, fs') ∧
    ∀ r y ps, plain_auth_init (λ p, fs' !! p) cfg (Some (to_bytes "jo")) = Ok (r, Some y) →
      r ≠ 0 ∧ (attempts simple cfg y ps).1 ≠ 0.
Proof.
  apply (removed_user_refused simple true cfg "pw" eq_refl granted disk [jo; al] (replicate 16 7) (to_bytes "jo") OpDelete [al]).
  - apply grants_all.
  - done.
  - apply ok_accounts.
  - split; [done|]. split; [|done]. repeat (apply Forall_cons; split); done || by apply Forall_nil.
  - vm_compute. lia.
  - by left.
  - done.
  - repeat (apply Forall_cons; split); [vm_compute; lia|by apply Forall_nil].
  - vm_compute. lia.
Defined.

(** ** What is not handled *)

(** A last line without a newline swallows the account that is added. *)
Example unterminated_line :
  crypt_int simple true granted {[ "pw"%string := to_bytes "jo:staff:xsecret" ]} "pw" (to_bytes "al") (to_bytes "*") (to_bytes "new") =
    Ok (0, {[ "pw"%string := to_bytes "jo:staff:xsecretal:*:xnew
" ]}).
Proof. vm_compute. reflexivity. Qed.

(** A full disk replaces the file by what fitted, and reports success. *)
Example full_disk :
  delete_user {| malloc_ok := true; reads := true; nonce := None; creates := true; renames := true; room := 8 |} disk "pw" (to_bytes "al") =
    Ok (0, {[ "pw"%string := to_bytes "jo:staff" ]}).
Proof. vm_compute. reflexivity. Qed.

(** A name with a colon is not refused: it sets the password of another user. *)
Example name_with_colon :
  let fs := crypt_int simple true granted ∅ "pw" (to_bytes "root:x:") (to_bytes "*") (to_bytes "new") in
  fs = Ok (0, {[ "pw"%string := to_bytes "root:x::*:xnew
" ]}) ∧
  plain_auth_init (λ _, Some (to_bytes "root:x::*:xnew
")) cfg (Some (to_bytes "root")) = Ok (0, Some {| p_username := to_bytes "root"; cpass := [];
    groupnames := []; pass_msg := None; retries := 0; failed := false |}).
Proof. vm_compute. done. Qed.

(** The end of the input is taken for a password. *)
(** A file that may not be read is taken as a missing one: setting a password
    replaces it, and every other account is lost. *)
Example unreadable_file_lost :
  crypt_int simple true {| granted with reads := false |} disk "pw" (to_bytes "al") (to_bytes "*") (to_bytes "new") =
  Ok (0, {[ "pw"%string := entry (to_bytes "al") (to_bytes "*") (default [] (cr_passwd simple true (to_bytes "new") (replicate 16 7))) ]}).
Proof. vm_compute. reflexivity. Qed.

Example no_password : main simple true granted disk [opt_c "pw"] ["al"%string] (stdin []) = UB.
Proof. reflexivity. Qed.
End OcpasswdWitnesses.
