(* ===== verification/IpUtil.v ===== *)
(** * IP addresses, masks and routes (src/ip-util.c)

    Comparison of socket addresses, conversion between prefix lengths and
    network masks, and the conversion of routes between the notations with a
    mask and with a prefix length. *)

From Stdlib Require Import Ascii.
From stdpp Require Import pretty.
From S2P Require Import Prelude CString.

Definition AF_INET : Z := 2.
Definition AF_INET6 : Z := 10.

(** The bytes of an object from [off] on, [n] of them; undefined where the
    object is shorter. *)
Definition mem_at (l : list Z) (off n : nat) : cres (list Z) :=
  if (off + n <=? length l)%nat then Ok (take n (drop off l)) else UB.

(** The family of a [struct sockaddr], its first two bytes; the machine is
    little endian. *)
Definition sa_family (sa : list Z) : cres Z :=
  b ← mem_at sa 0 2;
  match b with [lo; hi] => Ok (lo + 256 * hi) | _ => UB end.

(** [SA_IN_P] and [SA_IN6_P] as the bytes they point to. *)
Definition SA_IN_P (sa : list Z) : cres (list Z) := mem_at sa 4 4.
Definition SA_IN6_P (sa : list Z) : cres (list Z) := mem_at sa 8 16.

(** [memcmp]: the difference of the first bytes that differ. *)
Fixpoint memcmp (a b : list Z) : Z :=
  match a, b with
  | x :: a, y :: b => if x =? y then memcmp a b else x - y
  | _, _ => 0
  end.

Definition ip_cmp (s1 s2 : list Z) : cres Z :=
  f ← sa_family s1;
  if f =? AF_INET then
    a ← SA_IN_P s1; b ← SA_IN_P s2; Ok (memcmp a b)
  else
    a ← SA_IN6_P s1; b ← SA_IN6_P s2; Ok (memcmp a b).

(** ** Masks *)

(** The mask of [ipv4_prefix_to_strmask] in host byte order. *)
Definition ipv4_prefix_mask (prefix : Z) : option Z :=
  if (prefix =? 0) || (32 <? prefix) then None
  else Some (u32 (Z.shiftl 0xFFFFFFFF (32 - prefix))).

(** The [inet_ntop] of an IPv4 address given in host byte order. *)
Definition octet (a i : Z) : Z := Z.land (Z.shiftr a (8 * (3 - i))) 255.
Definition dec (n : Z) : string := pretty (Z.to_N n).
Definition inet_ntop4 (a : Z) : string :=
  (dec (octet a 0) +:+ "." +:+ dec (octet a 1) +:+ "." +:+
   dec (octet a 2) +:+ "." +:+ dec (octet a 3))%string.

Definition ipv4_prefix_to_strmask (prefix : Z) : option string :=
  inet_ntop4 <$> ipv4_prefix_mask prefix.

(** The loop of [ipv6_prefix_to_mask] over the bytes of the address. *)
Fixpoint mask_bytes (n : nat) (i : Z) : list Z :=
  match n with
  | O => []
  | S n =>
    (if i <=? 0 then 0 else if 8 <=? i then 0xff else u8 (Z.shiftl 0xff (8 - i)))
      :: mask_bytes n (i - 8)
  end.

Definition ipv6_prefix_to_mask (prefix : Z) : option (list Z) :=
  if (prefix =? 0) || (128 <? prefix) then None else Some (mask_bytes 16 prefix).

(** [while (i > 0)], at most 32 times. *)
Fixpoint bit_count_loop (fuel : nat) (i : Z) (seen_one : bool) (c : Z) : Z :=
  match fuel with
  | O => c
  | S fuel =>
    if i <=? 0 then c else
    if Z.testbit i 0 then bit_count_loop fuel (Z.shiftr i 1) true (c + 1)
    else if seen_one then -1 else bit_count_loop fuel (Z.shiftr i 1) seen_one c
  end.

Definition bit_count (i : Z) : Z := bit_count_loop 32 i false 0.

Definition mask2prefix (mask : Z) : Z := bit_count mask.

(** ** Parsing *)

(** [strchr]: the string from the first [c] on. *)
Fixpoint strchr (s : string) (c : Ascii.ascii) : option string :=
  match s with
  | EmptyString => None
  | String a r => if Ascii.eqb a c then Some s else strchr r c
  end.

Definition tail (s : string) : string := match s with EmptyString => EmptyString | String _ r => r end.

Definition is_digit (c : Z) : bool := (48 <=? c) && (c <=? 57).

(** One octet of [inet_pton]: no leading zero, at most 255. *)
Fixpoint pton_octet (s : string) (saw_digit : bool) (v : Z) : option (Z * string) :=
  match s with
  | String c r =>
    if is_digit (uchar c) then
      if saw_digit && (v =? 0) then None else
      let v := v * 10 + (uchar c - 48) in
      if 255 <? v then None else pton_octet r true v
    else if saw_digit then Some (v, s) else None
  | EmptyString => if saw_digit then Some (v, s) else None
  end.

Definition pton_dot (s : string) : option string :=
  match s with String c r => if uchar c =? 46 then Some r else None | EmptyString => None end.

(** [inet_pton(AF_INET, ...)]: the address in host byte order. *)
Definition inet_pton4 (s : string) : option Z :=
  '(a, s) ← pton_octet s false 0; s ← pton_dot s;
  '(b, s) ← pton_octet s false 0; s ← pton_dot s;
  '(c, s) ← pton_octet s false 0; s ← pton_dot s;
  '(d, s) ← pton_octet s false 0;
  if bool_decide (s = ""%string) then Some (((a * 256 + b) * 256 + c) * 256 + d) else None.

Definition ipv4_mask_to_int (prefix : string) : Z :=
  match inet_pton4 prefix with None => -1 | Some m => mask2prefix m end.

(** [atoi] as [strtol] with its saturation, cut to 32 bits. *)
Definition is_space (c : Z) : bool := (c =? 32) || ((9 <=? c) && (c <=? 13)).

Fixpoint skip_space (s : string) : string :=
  match s with
  | String c r => if is_space (uchar c) then skip_space r else s
  | EmptyString => s
  end.

Fixpoint digits (s : string) (v : Z) : Z :=
  match s with
  | String c r => if is_digit (uchar c) then digits r (v * 10 + (uchar c - 48)) else v
  | EmptyString => v
  end.

Definition atoi (s : string) : Z :=
  let s := skip_space s in
  let v :=
    match s with
    | String c r =>
      if uchar c =? 45 then Z.max (- 2 ^ 63) (- digits r 0)
      else Z.min (2 ^ 63 - 1) (digits (if uchar c =? 43 then r else s) 0)
    | EmptyString => 0
    end in
  (v + 2 ^ 31) mod 2 ^ 32 - 2 ^ 31.

(** ** Routes *)

(** [ip_route_sanity_check]: [None] for the negative code, else the route it
    leaves behind; [ok] says whether the allocations succeed. *)
Definition ip_route_sanity_check (ok : bool) (route : string) : option string :=
  match strchr route "."%char with
  | None => Some route
  | Some p =>
    match strchr p "/"%char with
    | None => None
    | Some slash_ptr =>
      let p := tail slash_ptr in
      if bool_decide (is_Some (strchr p "."%char)) then Some route else
      match ipv4_prefix_to_strmask (u32 (atoi p)) with
      | None => None
      | Some pstr =>
        if ok then
          let len := (String.length route - String.length slash_ptr)%nat in
          Some (String.substring 0 len route +:+ "/" +:+ pstr)%string
        else None
      end
    end
  end.

(** [ipv4_route_to_cidr]; the allocations succeed. *)
Definition ipv4_route_to_cidr (route : string) : option string :=
  match strchr route "."%char with
  | None => Some route
  | Some p =>
    match strchr p "/"%char with
    | None => None
    | Some slash_ptr =>
      let len := (String.length route - String.length slash_ptr)%nat in
      let p := tail slash_ptr in
      if bool_decide (is_Some (strchr p "."%char)) then
        let prefix := ipv4_mask_to_int p in
        if (prefix <=? 0) || (32 <? prefix) then None
        else Some (String.substring 0 len route +:+ "/" +:+ dec prefix)%string
      else Some route
    end
  end.

(** ** Facts about comparison *)

Lemma memcmp_eq a b : length a = length b → memcmp a b = 0 ↔ a = b.
Proof.
  revert b. induction a as [|x a IH]; intros [|y b] Hl; simpl in *; try done.
  destruct (Z.eqb_spec x y) as [->|Hne].
  - rewrite IH by lia. split; [by intros ->|by intros [=]].
  - split; [lia|]. by intros [=].
Qed.

Lemma mem_at_Ok l off n : (off + n ≤ length l)%nat → mem_at l off n = Ok (take n (drop off l)).
Proof. intros H. unfold mem_at. by rewrite (proj2 (Nat.leb_le _ _) H). Qed.

(** ** Masks *)

(** A property of finitely many integers is checked by evaluating it. *)
Lemma forall_range (P : Z → Prop) `{∀ z, Decision (P z)} (lo n : Z) :
  bool_decide (Forall P (seqZ lo n)) = true → ∀ z, lo ≤ z < lo + n → P z.
Proof.
  intros Hall z Hz. apply bool_decide_eq_true in Hall. rewrite Forall_forall in Hall.
  apply Hall, elem_of_seqZ. lia.
Qed.

Lemma bit_count_zeros fuel i z :
  0 < i → (z ≤ fuel)%nat →
  bit_count_loop fuel (i * 2 ^ Z.of_nat z) false 0 = bit_count_loop (fuel - z) i false 0.
Proof.
  intros Hi. revert fuel. induction z as [|z IH]; intros fuel Hz.
  - by rewrite Z.mul_1_r, Nat.sub_0_r.
  - destruct fuel as [|fuel]; [lia|]. cbn [bit_count_loop Nat.sub].
    assert (i * 2 ^ Z.of_nat (S z) = 2 * (i * 2 ^ Z.of_nat z)) as ->
      by (rewrite Nat2Z.inj_succ, Z.pow_succ_r by lia; lia).
    assert (0 < i * 2 ^ Z.of_nat z) by (apply Z.mul_pos_pos; lia).
    destruct (Z.leb_spec (2 * (i * 2 ^ Z.of_nat z)) 0); [lia|].
    rewrite Z.testbit_even_0, Z.shiftr_div_pow2, Z.pow_1_r, Z.mul_comm, Z.div_mul by lia.
    apply IH. lia.
Qed.

Lemma bit_count_ones fuel n c :
  (n ≤ fuel)%nat → bit_count_loop fuel (2 ^ Z.of_nat n - 1) true c = c + Z.of_nat n.
Proof.
  revert fuel c. induction n as [|n IH]; intros fuel c Hn.
  - destruct fuel; simpl; lia.
  - destruct fuel as [|fuel]; [lia|]. cbn [bit_count_loop].
    assert (2 ^ Z.of_nat (S n) - 1 = 2 * (2 ^ Z.of_nat n - 1) + 1) as ->
      by (rewrite Nat2Z.inj_succ, Z.pow_succ_r by lia; lia).
    destruct (Z.leb_spec (2 * (2 ^ Z.of_nat n - 1) + 1) 0); [lia|].
    rewrite Z.testbit_odd_0, Z.shiftr_div_pow2, Z.pow_1_r by lia.
    assert ((2 * (2 ^ Z.of_nat n - 1) + 1) / 2 = 2 ^ Z.of_nat n - 1) as -> by dlia.
    rewrite IH by lia. lia.
Qed.

(** A mask of [n] ones followed by [z] zeros, and leading zeros before it,
    counts as a prefix of [n] bits. *)
Lemma bit_count_shifted n z :
  (0 < n)%nat → (n + z ≤ 32)%nat → bit_count ((2 ^ Z.of_nat n - 1) * 2 ^ Z.of_nat z) = Z.of_nat n.
Proof.
  intros Hn Hz. unfold bit_count.
  assert (0 < 2 ^ Z.of_nat n - 1).
  { assert (2 ^ 1 ≤ 2 ^ Z.of_nat n) by (apply Z.pow_le_mono_r; lia). lia. }
  rewrite bit_count_zeros by lia. destruct n as [|n]; [lia|].
  destruct (32 - z)%nat as [|fuel] eqn:Hf; [lia|]. cbn [bit_count_loop].
  assert (2 ^ Z.of_nat (S n) - 1 = 2 * (2 ^ Z.of_nat n - 1) + 1) as ->
    by (rewrite Nat2Z.inj_succ, Z.pow_succ_r by lia; lia).
  destruct (Z.leb_spec (2 * (2 ^ Z.of_nat n - 1) + 1) 0); [lia|].
  rewrite Z.testbit_odd_0, Z.shiftr_div_pow2, Z.pow_1_r by lia.
  assert ((2 * (2 ^ Z.of_nat n - 1) + 1) / 2 = 2 ^ Z.of_nat n - 1) as -> by dlia.
  rewrite bit_count_ones by lia. lia.
Qed.

Lemma mask_bytes_length n i : length (mask_bytes n i) = n.
Proof. revert i. induction n; intros i; simpl; auto. Qed.

Lemma mask_bytes_lookup n i j :
  (j < n)%nat →
  mask_bytes n i !! j =
    Some (let r := i - 8 * Z.of_nat j in
          if r <=? 0 then 0 else if 8 <=? r then 0xff else u8 (Z.shiftl 0xff (8 - r))).
Proof.
  revert i j. induction n as [|n IH]; intros i j Hj; [lia|]. destruct j as [|j]; simpl.
  - by rewrite Z.sub_0_r.
  - rewrite IH by lia. do 2 f_equal; [..|]; replace (i - 8 - 8 * Z.of_nat j) with (i - 8 * Z.of_nat (S j)) by lia; done.
Qed.

Lemma mask_byte_bit r b :
  0 ≤ b < 8 →
  Z.testbit (if r <=? 0 then 0 else if 8 <=? r then 0xff else u8 (Z.shiftl 0xff (8 - r))) (7 - b)
    = (b <? r).
Proof.
  intros Hb. destruct (Z.leb_spec r 0).
  - rewrite Z.testbit_0_l. symmetry. apply Z.ltb_ge. lia.
  - destruct (Z.leb_spec 8 r).
    + rewrite (proj2 (Z.ltb_lt b r)) by lia. change 0xff with (Z.ones 8).
      apply Z.ones_spec_low. lia.
    + rewrite wrap_testbit by lia. rewrite (proj2 (Z.ltb_lt (7 - b) 8)) by lia. simpl.
      rewrite Z.shiftl_spec by lia. change 0xff with (Z.ones 8).
      destruct (Z.ltb_spec b r); [apply Z.ones_spec_low; lia|].
      apply Z.testbit_neg_r. lia.
Qed.

(** ** Routes *)

Lemma strchr_app s t c :
  strchr (s +:+ t) c = match strchr s c with Some r => Some (r +:+ t)%string | None => strchr t c end.
Proof.
  induction s as [|a s IH]; simpl; [done|]. destruct (Ascii.eqb a c); [done|]. apply IH.
Qed.

Lemma strchr_suffix s c r d : strchr s c = Some r → strchr s d = None → strchr r d = None.
Proof.
  induction s as [|a s IH]; simpl; [done|]. destruct (Ascii.eqb a c).
  - intros [= <-]. simpl. done.
  - destruct (Ascii.eqb a d); [done|]. apply IH.
Qed.

Lemma length_app_string s t : String.length (s +:+ t) = (String.length s + String.length t)%nat.
Proof. induction s; simpl; auto. Qed.

Lemma substring_app s t : String.substring 0 (String.length s) (s +:+ t) = s.
Proof. induction s as [|a s IH]; simpl; [by destruct t|]. by rewrite IH. Qed.

(** The part of a route before its slash. *)
Definition route_host (h : string) : Prop :=
  is_Some (strchr h "."%char) ∧ strchr h "/"%char = None.

Lemma route_split h t :
  route_host h →
  ∃ r, strchr (h +:+ "/" +:+ t) "."%char = Some r ∧ strchr r "/"%char = Some ("/" +:+ t)%string ∧
    String.substring 0 (String.length (h +:+ "/" +:+ t) - String.length ("/" +:+ t)) (h +:+ "/" +:+ t) = h.
Proof.
  intros [[r Hr] Hs]. exists (r +:+ "/" +:+ t)%string. rewrite strchr_app, Hr. split; [done|].
  rewrite strchr_app, (strchr_suffix _ _ _ _ Hr Hs). split; [done|].
  rewrite length_app_string. rewrite Nat.add_sub. apply substring_app.
Qed.

(** The notation with a prefix length holds no dot and is read back, and so
    is its mask. *)
Definition prefix_ok (p : Z) : bool :=
  bool_decide (strchr (dec p) "."%char = None) && (u32 (atoi (dec p)) =? p) &&
  match ipv4_prefix_to_strmask p with
  | Some m => bool_decide (is_Some (strchr m "."%char)) && (ipv4_mask_to_int m =? p)
  | None => false
  end.

Lemma prefix_notation p :
  1 ≤ p < 1 + 32 →
  strchr (dec p) "."%char = None ∧ u32 (atoi (dec p)) = p ∧
  ∃ m, ipv4_prefix_to_strmask p = Some m ∧ is_Some (strchr m "."%char) ∧ ipv4_mask_to_int m = p.
Proof.
  intros Hp. assert (prefix_ok p = true) as Hok.
  { revert p Hp. apply (forall_range (λ p, prefix_ok p = true)). by vm_compute. }
  unfold prefix_ok in Hok. destruct (ipv4_prefix_to_strmask p) as [m|]; [|by rewrite andb_false_r in Hok].
  apply andb_true_iff in Hok as [[H1 H2]%andb_true_iff [H3 H4]%andb_true_iff].
  apply bool_decide_eq_true in H1, H3. apply Z.eqb_eq in H2, H4. split_and!; [done..|]. by exists m.
Qed.

(** A route with a prefix length from 1 to 32 is converted to the notation
    with a network mask the clients expect, and converting that back gives the
    route again, for every address part. *)
Theorem route_roundtrip (h : string) (p : Z) :
  route_host h → 1 ≤ p ≤ 32 →
  ∃ m, ip_route_sanity_check true (h +:+ "/" +:+ dec p) = Some (h +:+ "/" +:+ m)%string ∧
    ipv4_route_to_cidr (h +:+ "/" +:+ m) = Some (h +:+ "/" +:+ dec p)%string.
Proof.
  intros Hh Hp. destruct (prefix_notation p) as (Hdot & Hatoi & m & Em & Hmd & Hmp); [lia|].
  exists m. split.
  - destruct (route_split h (dec p) Hh) as (r & E1 & E2 & E3).
    unfold ip_route_sanity_check. rewrite E1, E2. cbn [tail].
    assert (tail ("/" +:+ dec p) = dec p) as -> by done.
    rewrite bool_decide_eq_false_2 by (rewrite Hdot; by intros []).
    by rewrite Hatoi, Em, E3.
  - destruct (route_split h m Hh) as (r & E1 & E2 & E3).
    unfold ipv4_route_to_cidr. rewrite E1, E2.
    assert (tail ("/" +:+ m) = m) as -> by done.
    rewrite bool_decide_eq_true_2 by done. rewrite Hmp, E3.
    destruct (Z.leb_spec p 0), (Z.ltb_spec 32 p); (done || lia).
Qed.

(** The mask for an IPv6 prefix has exactly its first [prefix] bits set;
    only the lengths 1 to 128 have one. *)
Theorem ipv6_prefix_mask_bits (prefix : Z) :
  0 ≤ prefix →
  match ipv6_prefix_to_mask prefix with
  | Some m => 1 ≤ prefix ≤ 128 ∧ length m = 16%nat ∧
      ∀ j b, (j < 16)%nat → 0 ≤ b < 8 →
        ∃ v, m !! j = Some v ∧ Z.testbit v (7 - b) = (8 * Z.of_nat j + b <? prefix)
  | None => prefix = 0 ∨ 128 < prefix
  end.
Proof.
  intros Hp. unfold ipv6_prefix_to_mask.
  destruct (Z.eqb_spec prefix 0), (Z.ltb_spec 128 prefix); cbn [orb]; [lia..|].
  split_and!; [lia|lia|apply mask_bytes_length|]. intros j b Hj Hb.
  eexists. split; [by apply (mask_bytes_lookup 16)|]. cbv zeta. rewrite mask_byte_bit by done.
  destruct (Z.ltb_spec b (prefix - 8 * Z.of_nat j)), (Z.ltb_spec (8 * Z.of_nat j + b) prefix);
    (done || lia).
Qed.

(** A network mask whose ones do not start at the first bit is accepted: a
    mask of [n] ones with any number of zeros before and after it counts as
    the prefix length [n], so that 0.0.255.0 becomes /8. *)
Theorem mask_with_leading_zeros_accepted (n z : nat) :
  (0 < n)%nat → (n + z ≤ 32)%nat →
  mask2prefix ((2 ^ Z.of_nat n - 1) * 2 ^ Z.of_nat z) = Z.of_nat n ∧
  ipv4_route_to_cidr "10.0.0.0/0.0.255.0" = Some "10.0.0.0/8"%string.
Proof. intros Hn Hz. split; [by apply bit_count_shifted|by vm_compute]. Qed.

Lemma route_roundtrip_witness :
  ∃ m, ip_route_sanity_check true ("192.168.5.0" +:+ "/" +:+ dec 24) = Some ("192.168.5.0" +:+ "/" +:+ m)%string ∧
    ipv4_route_to_cidr ("192.168.5.0" +:+ "/" +:+ m) = Some ("192.168.5.0" +:+ "/" +:+ dec 24)%string.
Proof. apply (route_roundtrip "192.168.5.0" 24); [split; [by eexists|done]|lia]. Defined.

Lemma ipv6_prefix_mask_bits_witness :
  match ipv6_prefix_to_mask 61 with
  | Some m => 1 ≤ 61 ≤ 128 ∧ length m = 16%nat ∧
      ∀ j b, (j < 16)%nat → 0 ≤ b < 8 →
        ∃ v, m !! j = Some v ∧ Z.testbit v (7 - b) = (8 * Z.of_nat j + b <? 61)
  | None => 61 = 0 ∨ 128 < 61
  end.
Proof. apply (ipv6_prefix_mask_bits 61). lia. Defined.

Lemma mask_with_leading_zeros_accepted_witness :
  mask2prefix ((2 ^ Z.of_nat 8 - 1) * 2 ^ Z.of_nat 8) = Z.of_nat 8 ∧
  ipv4_route_to_cidr "10.0.0.0/0.0.255.0" = Some "10.0.0.0/8"%string.
Proof. apply (mask_with_leading_zeros_accepted 8 8); lia. Defined.
