(* ===== verification/TlsResume.v ===== *)
(** * The TLS session cache (src/sec-mod-resume.c)

    TLS session data are kept in the security module, indexed by the session
    identifier in a hash table; a session is resumed only from the address it
    was established from.  Unlike in the client database two entries may have
    the same identifier. *)

From S2P Require Import Prelude CString Htable Store SecModData IpUtil.

Definition GNUTLS_MAX_SESSION_ID : Z := 32.
Definition MAX_SESSION_DATA_SIZE : Z := 4 * 1024.
Definition DEFAULT_MAX_CACHED_TLS_SESSIONS : Z := 64.
Definition SOCKADDR_STORAGE_SIZE : Z := 128.

(** [struct tls_cache_st]; each array with the part of it that is in use. *)
Record tls_cache_st := TlsCache {
  session_id : list Z; session_data : list Z; remote_addr : list Z; vhostname : option string }.

Record SessionResumeFetchMsg := {
  rf_session_id : list Z; rf_cli_addr : list Z; rf_vhost : option string }.

Record SessionResumeStoreReqMsg := {
  rs_session_id : list Z; rs_session_data : list Z; rs_cli_addr : list Z; rs_vhost : option string }.

Inductive resume_rep := RESUME_REP_OK | RESUME_REP_FAILED.

Record SessionResumeReplyMsg := { rr_reply : resume_rep; rr_session_data : option (list Z) }.

Section resume.
Context {T : Type} `{HT : HTable T, Env : SecModEnv}.

(** [tls_sess_db_st]. *)
Record tls_sess_db_st := TlsDb { ht : store T tls_cache_st; entries : Z }.

Definition tls_hash (id : list Z) : Z := hash_any id.

(** The first cache under the hash of an identifier that has it. *)
Definition same_id (db : tls_sess_db_st) (id : list Z) (p : ptr) : bool :=
  match objs (ht db) !! p with Some c => bool_decide (session_id c = id) | None => false end.

Definition drop_cache (p : ptr) (db : tls_sess_db_st) : tls_sess_db_st :=
  TlsDb (Store (htable_delval p (tbl (ht db))) (delete p (objs (ht db)))) (u32 (entries db - 1)).

Definition handle_resume_delete_req (db : tls_sess_db_st) (req : SessionResumeFetchMsg)
    : Z * tls_sess_db_st :=
  match htable_get (tls_hash (rf_session_id req)) (same_id db (rf_session_id req)) (tbl (ht db)) with
  | Some p => (0, drop_cache p db)
  | None => (0, db)
  end.

(** The test of the virtual hosts.  [req->vhost != cache->vhostname] compares
    pointers: the name in the request is part of the message and the one in
    the cache is a copy of its own, so they are equal only if both are NULL. *)
Definition vhost_differs (req : SessionResumeFetchMsg) (c : tls_cache_st) : bool :=
  let named_differently :=
    match rf_vhost req, vhostname c with
    | Some r, Some v => negb (c_strcasecmp r v =? 0)
    | _, _ => false
    end in
  let pointers_differ :=
    match rf_vhost req, vhostname c with None, None => false | _, _ => true end in
  named_differently || pointers_differ.

(** The loop over the caches under the hash: the session data to send. *)
Fixpoint fetch_loop (db : tls_sess_db_st) (req : SessionResumeFetchMsg) (ps : list ptr)
    : cres (option (list Z)) :=
  match ps with
  | [] => Ok None
  | p :: ps =>
    match objs (ht db) !! p with
    | None => fetch_loop db req ps
    | Some c =>
      if bool_decide (session_id c = rf_session_id req) then
        if vhost_differs req c then Ok None else
        if bool_decide (length (rf_cli_addr req) = length (remote_addr c)) then
          r ← ip_cmp (rf_cli_addr req) (remote_addr c);
          if r =? 0 then Ok (Some (session_data c)) else fetch_loop db req ps
        else fetch_loop db req ps
      else fetch_loop db req ps
    end
  end.

Definition handle_resume_fetch_req (db : tls_sess_db_st) (req : SessionResumeFetchMsg)
    : cres (Z * SessionResumeReplyMsg) :=
  d ← fetch_loop db req (htable_probe (tls_hash (rf_session_id req)) (tbl (ht db)));
  Ok (0, {| rr_reply := match d with Some _ => RESUME_REP_OK | None => RESUME_REP_FAILED end;
            rr_session_data := d |}).

(** The case [RESUME_FETCH_REQ] of [process_worker_packet]: the message that
    is sent to the worker. *)
Definition resume_fetch (db : tls_sess_db_st) (req : SessionResumeFetchMsg)
    : cres SessionResumeReplyMsg :=
  '(ret, msg) ← handle_resume_fetch_req db req;
  Ok {| rr_reply := if ret <? 0 then RESUME_REP_FAILED else RESUME_REP_OK;
        rr_session_data := rr_session_data msg |}.

(** [mem], [strdup_ok] and [calloc_ok] say which allocations succeed. *)
Definition handle_resume_store_req (mem : option ptr) (strdup_ok calloc_ok : bool)
    (max_clients : Z) (db : tls_sess_db_st) (req : SessionResumeStoreReqMsg)
    : cres (Z * tls_sess_db_st) :=
  if GNUTLS_MAX_SESSION_ID <? Z.of_nat (length (rs_session_id req)) then Ok (-1, db) else
  if MAX_SESSION_DATA_SIZE <? Z.of_nat (length (rs_session_data req)) then Ok (-1, db) else
  let max := Z.max (u32 (2 * max_clients)) DEFAULT_MAX_CACHED_TLS_SESSIONS in
  if max <=? entries db then Ok (-1, db) else
  if bool_decide (rs_cli_addr req = []) then Ok (-1, db) else
  match mem with
  | None => Ok (-1, db)
  | Some p =>
    if SOCKADDR_STORAGE_SIZE <? Z.of_nat (length (rs_cli_addr req)) then UB else
    let c := {| session_id := rs_session_id req; session_data := rs_session_data req;
                remote_addr := rs_cli_addr req;
                vhostname := if strdup_ok then rs_vhost req else None |} in
    let '(_, s) := sadd session_id tls_hash calloc_ok p c (ht db) in
    Ok (0, TlsDb s (u32 (entries db + 1)))
  end.

(** [entry_time] is [gnutls_db_check_entry_time]. *)
Definition expire_tls_step (entry_time : list Z → Z) (now timeout : Z) (db : tls_sess_db_st)
    (p : ptr) : tls_sess_db_st :=
  match objs (ht db) !! p with
  | Some c => if timeout <? now - entry_time (session_data c) then drop_cache p db else db
  | None => db
  end.

Definition expire_tls_sessions (entry_time : list Z → Z) (now timeout : Z)
    (db : tls_sess_db_st) : tls_sess_db_st :=
  foldl (expire_tls_step entry_time now timeout) db (htable_walk (tbl (ht db))).

Definition tls_cache_init : tls_sess_db_st := TlsDb (Store htable_init ∅) 0.
End resume.
Arguments tls_sess_db_st : clear implicits.

(** ** Facts *)

(** The address of an IPv4 or IPv6 peer. *)
Definition sockaddr_ok (a : list Z) : Prop :=
  length a = 16%nat ∧ sa_family a = Ok AF_INET ∨ length a = 28%nat ∧ sa_family a = Ok AF_INET6.

Lemma ip_cmp_refl a : sockaddr_ok a → ip_cmp a a = Ok 0.
Proof.
  intros Ha. unfold ip_cmp. destruct Ha as [[Hl ->]|[Hl ->]]; run; simpl.
  - unfold SA_IN_P. rewrite mem_at_Ok by lia. run. f_equal. by apply memcmp_eq.
  - unfold SA_IN6_P. rewrite mem_at_Ok by lia. run. f_equal. by apply memcmp_eq.
Qed.

(** Comparing a peer's address with another address of the same size. *)
Lemma ip_cmp_defined a b : sockaddr_ok a → length b = length a → ∃ r, ip_cmp a b = Ok r.
Proof.
  intros Ha Hb. unfold ip_cmp. destruct Ha as [[Hl ->]|[Hl ->]]; run; simpl.
  - unfold SA_IN_P. rewrite !mem_at_Ok by lia. by eexists.
  - unfold SA_IN6_P. rewrite !mem_at_Ok by lia. by eexists.
Qed.

Section resume_spec.
Context {T : Type} `{HT : HTable T, HS : !HTableSpec T, Env : SecModEnv}.
Implicit Types (db : tls_sess_db_st T) (req : SessionResumeFetchMsg).

Definition cache_of db (p : ptr) : option tls_cache_st := objs (ht db) !! p.

(** The table holds the caches under the hashes of their identifiers. *)
Definition tls_rep db : Prop :=
  Rep (tbl (ht db)) ((tls_hash ∘ session_id) <$> objs (ht db)).

(** A cache that may be sent in answer to a request. *)
Definition matches req (c : tls_cache_st) : Prop :=
  session_id c = rf_session_id req ∧ vhostname c = None ∧ rf_vhost req = None ∧
  length (rf_cli_addr req) = length (remote_addr c) ∧
  ip_cmp (rf_cli_addr req) (remote_addr c) = Ok 0.

Lemma fetch_loop_sound db req ps d :
  fetch_loop db req ps = Ok (Some d) →
  ∃ p c, cache_of db p = Some c ∧ matches req c ∧ session_data c = d.
Proof.
  induction ps as [|p ps IH]; cbn [fetch_loop]; [done|].
  destruct (objs (ht db) !! p) as [c|] eqn:Hp; [|done].
  case_bool_decide as Hid; [|done]. destruct (vhost_differs req c) eqn:Hv; [done|].
  case_bool_decide as Hl; [|done].
  destruct (ip_cmp (rf_cli_addr req) (remote_addr c)) as [r| | |] eqn:Hc; run; try done.
  destruct (Z.eqb_spec r 0) as [->|]; [|done]. intros [= <-]. exists p, c. split; [done|].
  split; [|done]. unfold vhost_differs in Hv.
  destruct (rf_vhost req) eqn:Hr, (vhostname c) eqn:Hvc; rewrite ?orb_true_r in Hv; try done.
Qed.

(** The only cache with the identifier of the request decides. *)
Lemma fetch_loop_unique db req ps p c :
  cache_of db p = Some c → session_id c = rf_session_id req →
  (∀ q f, cache_of db q = Some f → session_id f = rf_session_id req → q = p) →
  sockaddr_ok (rf_cli_addr req) → length (remote_addr c) = length (rf_cli_addr req) →
  fetch_loop db req ps =
    if decide (p ∈ ps) then
      if vhost_differs req c then Ok None else
      r ← ip_cmp (rf_cli_addr req) (remote_addr c);
      Ok (if r =? 0 then Some (session_data c) else None)
    else Ok None.
Proof.
  intros Hp Hid Hun Ha Hl. destruct (ip_cmp_defined (rf_cli_addr req) (remote_addr c)) as [r Hr]; [done..|].
  rewrite Hr. run. induction ps as [|q ps IH]; cbn [fetch_loop].
  - by rewrite decide_False by (by intros ?%elem_of_nil).
  - destruct (decide (q = p)) as [->|Hne].
    + rewrite decide_True by (by left). unfold cache_of in Hp. rewrite Hp.
      rewrite !bool_decide_eq_true_2 by done. destruct (vhost_differs req c); [done|].
      rewrite Hr. run. destruct (r =? 0); [done|]. rewrite IH. by case_decide.
    + rewrite (decide_ext (p ∈ q :: ps) (p ∈ ps)) by (rewrite elem_of_cons; naive_solver).
      destruct (objs (ht db) !! q) as [f|] eqn:Hf; [|done].
      rewrite bool_decide_eq_false_2; [done|]. intros Hs. by destruct Hne; apply (Hun q f).
Qed.

(** ** The number of entries *)

Lemma drop_cache_rep db p c :
  tls_rep db → cache_of db p = Some c → tls_rep (drop_cache p db).
Proof.
  intros Hrep Hp. unfold tls_rep. simpl. rewrite fmap_delete. apply rep_delval; [done|].
  unfold cache_of in Hp. by rewrite lookup_fmap, Hp.
Qed.

(** What keeps the count: [m] is the largest number of entries. *)
Record tls_inv (m : Z) db : Prop := {
  ti_rep : tls_rep db;
  ti_count : entries db = Z.of_nat (size (objs (ht db)));
  ti_max : entries db ≤ m;
}.

Lemma drop_cache_inv m db p c :
  m < 2 ^ 32 → tls_inv m db → cache_of db p = Some c → tls_inv m (drop_cache p db).
Proof.
  intros Hm [Hrep Hc Hmax] Hp. unfold cache_of in Hp.
  assert (size (objs (ht db)) ≠ 0%nat) as Hs.
  { intros E. by rewrite (map_size_empty_inv _ E) in Hp. }
  assert (size (delete p (objs (ht db))) = (size (objs (ht db)) - 1)%nat) as Hd.
  { rewrite map_size_delete. rewrite Hp. simpl. lia. }
  split; [by eapply drop_cache_rep| |]; simpl; rewrite wrap_small; lia.
Qed.

Lemma store_inv mem sd max_clients db (req : SessionResumeStoreReqMsg) ret db' :
  let m := Z.max (u32 (2 * max_clients)) DEFAULT_MAX_CACHED_TLS_SESSIONS in
  tls_inv m db → (∀ p, mem = Some p → ptr_ok p ∧ cache_of db p = None) →
  handle_resume_store_req mem sd true max_clients db req = Ok (ret, db') → tls_inv m db'.
Proof.
  intros m Hinv Hmem. unfold handle_resume_store_req.
  assert (m < 2 ^ 32) as Hm by (unfold m; pose proof (wrap_range 32 (2 * max_clients)) as ?;
    unfold DEFAULT_MAX_CACHED_TLS_SESSIONS; lia).
  destruct (_ <? _); [by intros [= <- <-]|]. destruct (_ <? _); [by intros [= <- <-]|]. cbv zeta.
  fold m. destruct (Z.leb_spec m (entries db)); [by intros [= <- <-]|].
  case_bool_decide; [by intros [= <- <-]|]. destruct mem as [p|]; [|by intros [= <- <-]].
  destruct (_ <? _); [done|]. destruct (Hmem p eq_refl) as [Hp Hfresh].
  set (c := TlsCache _ _ _ _). destruct Hinv as [Hrep Hcount Hmax]. unfold cache_of in Hfresh.
  pose proof (sadd_rep session_id tls_hash true p c (ht db) Hrep Hp Hfresh) as Hadd.
  destruct (sadd _ _ _ _ _ _) as [b s]. destruct Hadd as (Hb & Ho & Hrep').
  destruct b; [|by specialize (Hb eq_refl)]. intros [= <- <-]. split; simpl; [done|..].
  - rewrite Ho, map_size_insert_None by done. rewrite wrap_small; lia.
  - rewrite wrap_small; lia.
Qed.

Lemma delete_inv m db req : m < 2 ^ 32 → tls_inv m db → tls_inv m (handle_resume_delete_req db req).2.
Proof.
  intros Hm Hinv. unfold handle_resume_delete_req, htable_get.
  destruct (list_find _ _) as [[i p]|] eqn:Hf; simpl; [|done].
  apply list_find_Some in Hf as (_ & Hs & _). unfold same_id in Hs.
  destruct (objs (ht db) !! p) as [c|] eqn:Hp; [|done]. by eapply drop_cache_inv.
Qed.

Lemma expire_inv m f now timeout db :
  m < 2 ^ 32 → tls_inv m db → tls_inv m (expire_tls_sessions f now timeout db).
Proof.
  intros Hm Hinv. unfold expire_tls_sessions. generalize (htable_walk (tbl (ht db))). intros ps.
  revert db Hinv. induction ps as [|p ps IH]; intros db Hinv; simpl; [done|]. apply IH.
  unfold expire_tls_step. destruct (objs (ht db) !! p) as [c|] eqn:Hp; [|done].
  case_match; [by eapply drop_cache_inv|done].
Qed.

(** Expiry keeps exactly the caches that are not too old. *)
Lemma expire_foldl f now timeout ps db p :
  cache_of (foldl (expire_tls_step f now timeout) db ps) p =
    if decide (p ∈ ps) then
      c ← cache_of db p; if timeout <? now - f (session_data c) then None else Some c
    else cache_of db p.
Proof.
  revert db. induction ps as [|q ps IH]; intros db; cbn [foldl].
  - by rewrite decide_False by (by intros ?%elem_of_nil).
  - rewrite IH. assert (cache_of (expire_tls_step f now timeout db q) p =
      if decide (p = q) then c ← cache_of db p; if timeout <? now - f (session_data c) then None else Some c
      else cache_of db p) as ->.
    { unfold expire_tls_step, cache_of. destruct (decide (p = q)) as [->|Hne].
      - destruct (objs (ht db) !! q) as [c|] eqn:Hq; simpl; [|by rewrite Hq].
        destruct (timeout <? _); [by apply lookup_delete_eq|done].
      - destruct (objs (ht db) !! q) as [c|]; [|done].
        destruct (timeout <? _); [by apply lookup_delete_ne|done]. }
    destruct (cache_of db p) as [c|]; simpl; repeat case_decide; simpl; try done;
      try (destruct (timeout <? now - f (session_data c)) eqn:E; simpl; rewrite ?E; done); set_solver.
Qed.
End resume_spec.

Section resume_theorems.
Context {T : Type} `{HT : HTable T, HS : !HTableSpec T, Env : SecModEnv}.
Implicit Types (db : tls_sess_db_st T).

(** The caches a server with [max_clients] reaches while the table can grow. *)
Inductive tls_reachable (max_clients : Z) : tls_sess_db_st T → Prop :=
| tr_init : tls_reachable max_clients tls_cache_init
| tr_store db mem sd req ret db' :
    tls_reachable max_clients db → (∀ p, mem = Some p → ptr_ok p ∧ cache_of db p = None) →
    handle_resume_store_req mem sd true max_clients db req = Ok (ret, db') →
    tls_reachable max_clients db'
| tr_delete db req :
    tls_reachable max_clients db → tls_reachable max_clients (handle_resume_delete_req db req).2
| tr_expire db f now timeout :
    tls_reachable max_clients db →
    tls_reachable max_clients (expire_tls_sessions f now timeout db).

Lemma tls_reachable_inv mc db :
  tls_reachable mc db →
  tls_inv (Z.max (u32 (2 * mc)) DEFAULT_MAX_CACHED_TLS_SESSIONS) db.
Proof.
  assert (Z.max (u32 (2 * mc)) DEFAULT_MAX_CACHED_TLS_SESSIONS < 2 ^ 32) as Hm.
  { pose proof (wrap_range 32 (2 * mc)). unfold DEFAULT_MAX_CACHED_TLS_SESSIONS. lia. }
  induction 1; [|by eapply store_inv|by apply delete_inv|by apply expire_inv].
  split; [|done|unfold DEFAULT_MAX_CACHED_TLS_SESSIONS; simpl; lia].
  unfold tls_rep. simpl. rewrite fmap_empty. apply rep_init.
Qed.

(** The only caches with an identifier after it was stored. *)
Lemma store_result mem p max_clients db req :
  tls_rep db → mem = Some p → ptr_ok p → cache_of db p = None →
  Z.of_nat (length (rs_session_id req)) ≤ GNUTLS_MAX_SESSION_ID →
  Z.of_nat (length (rs_session_data req)) ≤ MAX_SESSION_DATA_SIZE →
  entries db < Z.max (u32 (2 * max_clients)) DEFAULT_MAX_CACHED_TLS_SESSIONS →
  sockaddr_ok (rs_cli_addr req) →
  ∃ db', handle_resume_store_req mem true true max_clients db req = Ok (0, db') ∧ tls_rep db' ∧
    objs (ht db') = <[p:=TlsCache (rs_session_id req) (rs_session_data req) (rs_cli_addr req)
                          (rs_vhost req)]> (objs (ht db)).
Proof.
  intros Hrep -> Hp Hfresh H1 H2 H3 H4. unfold handle_resume_store_req, cache_of in *.
  rewrite (proj2 (Z.ltb_ge _ _) H1), (proj2 (Z.ltb_ge _ _) H2). cbv zeta.
  rewrite (proj2 (Z.leb_gt _ _) H3).
  assert (rs_cli_addr req ≠ []) as Hne by (intros E; rewrite E in H4; destruct H4 as [[? _]|[? _]]; done).
  rewrite bool_decide_eq_false_2 by done.
  rewrite (proj2 (Z.ltb_ge SOCKADDR_STORAGE_SIZE _))
    by (unfold SOCKADDR_STORAGE_SIZE; destruct H4 as [[-> _]|[-> _]]; lia).
  set (c := TlsCache _ _ _ _).
  pose proof (sadd_rep session_id tls_hash true p c (ht db) Hrep Hp Hfresh) as Hadd.
  destruct (sadd _ _ _ _ _ _) as [b s]. destruct Hadd as (Hb & Ho & Hrep').
  destruct b; [|by specialize (Hb eq_refl)]. by exists (TlsDb s (u32 (entries db + 1))).
Qed.

(** What a request for an identifier stored once is answered with. *)
Lemma fetch_after_store db db' p c req :
  tls_rep db' → objs (ht db') = <[p:=c]> (objs (ht db)) →
  (∀ q f, cache_of db q = Some f → session_id f ≠ session_id c) →
  rf_session_id req = session_id c → sockaddr_ok (rf_cli_addr req) →
  length (remote_addr c) = length (rf_cli_addr req) →
  resume_fetch db' req =
    (d ← (if vhost_differs req c then Ok None else
          r ← ip_cmp (rf_cli_addr req) (remote_addr c);
          Ok (if r =? 0 then Some (session_data c) else None));
     Ok {| rr_reply := RESUME_REP_OK; rr_session_data := d |}).
Proof.
  intros Hrep Ho Hun Hid Ha Hl. unfold resume_fetch, handle_resume_fetch_req, cache_of in *.
  rewrite (fetch_loop_unique db' req _ p c); unfold cache_of.
  - rewrite decide_True.
    + destruct (vhost_differs req c); [done|].
      by destruct (ip_cmp_defined (rf_cli_addr req) (remote_addr c)) as [r ->].
    + eapply rep_probe_complete; [exact Hrep|]. by rewrite Ho, fmap_insert, Hid, lookup_insert_eq.
  - by rewrite Ho, lookup_insert_eq.
  - done.
  - intros q f Hq Hf. rewrite Ho in Hq. apply lookup_insert_Some in Hq as [[<- _]|[_ Hq]]; [done|].
    destruct (Hun q f Hq). congruence.
  - done.
  - done.
Qed.

(** A cache and the requests that were stored in it, each with whether there
    was memory for a copy of the name of its virtual host. *)
Inductive tls_stored : list (bool * SessionResumeStoreReqMsg) → tls_sess_db_st T → Prop :=
| ts_init : tls_stored [] tls_cache_init
| ts_store l db mem sd ok max_clients req ret db' :
    tls_stored l db → handle_resume_store_req mem sd ok max_clients db req = Ok (ret, db') →
    tls_stored ((sd, req) :: l) db'
| ts_delete l db req : tls_stored l db → tls_stored l (handle_resume_delete_req db req).2
| ts_expire l db f now timeout : tls_stored l db → tls_stored l (expire_tls_sessions f now timeout db).

(** What is kept for a request. *)
Definition kept (e : bool * SessionResumeStoreReqMsg) : tls_cache_st :=
  TlsCache (rs_session_id e.2) (rs_session_data e.2) (rs_cli_addr e.2) (if e.1 then rs_vhost e.2 else None).

Lemma store_cache mem sd ok mc db req ret db' p c :
  handle_resume_store_req mem sd ok mc db req = Ok (ret, db') → cache_of db' p = Some c →
  c = kept (sd, req) ∨ cache_of db p = Some c.
Proof.
  unfold handle_resume_store_req. destruct (_ <? _); [by intros [= <- <-]; right|].
  destruct (_ <? _); [by intros [= <- <-]; right|]. cbv zeta.
  destruct (_ <=? _); [by intros [= <- <-]; right|]. case_bool_decide; [by intros [= <- <-]; right|].
  destruct mem as [q|]; [|by intros [= <- <-]; right]. destruct (_ <? _); [done|].
  unfold sadd. destruct (htable_add _ _ _ _ _) as [b t]. intros [= <- <-]. unfold cache_of. simpl.
  destruct b; simpl; [|by right]. intros [[<- <-]|[_ ?]]%lookup_insert_Some; [by left|by right].
Qed.

Lemma tls_stored_from l db : tls_stored l db → ∀ p c, cache_of db p = Some c → ∃ e, e ∈ l ∧ c = kept e.
Proof.
  induction 1 as [|l db mem sd ok mc req ret db' _ IH Hst|l db req _ IH|l db f now timeout _ IH]; intros p c Hc.
  - unfold cache_of in Hc. simpl in Hc. by rewrite lookup_empty in Hc.
  - destruct (store_cache _ _ _ _ _ _ _ _ p c Hst Hc) as [->|Hc']; [exists (sd, req); split; [left|done]|].
    destruct (IH p c Hc') as (e & He & ->). exists e. split; [by right|done].
  - apply (IH p). unfold handle_resume_delete_req in Hc. destruct (htable_get _ _ _) as [q|]; [|done].
    unfold cache_of in *. simpl in Hc. by apply lookup_delete_Some in Hc as [_ Hc].
  - apply (IH p). unfold expire_tls_sessions in Hc. rewrite expire_foldl in Hc. case_decide; [|done].
    destruct (cache_of db p) as [d|]; [|done]. simpl in Hc. by case_match.
Qed.

(** The same IPv4 or IPv6 address. *)
Definition same_host (a b : list Z) : Prop :=
  sa_family a = Ok AF_INET ∧ take 4 (drop 4 a) = take 4 (drop 4 b) ∨
  sa_family a ≠ Ok AF_INET ∧ take 16 (drop 8 a) = take 16 (drop 8 b).

Lemma mem_at_inv l off n m : mem_at l off n = Ok m → m = take n (drop off l) ∧ length m = n.
Proof.
  unfold mem_at. destruct (Nat.leb_spec (off + n) (length l)); [|done]. intros [= <-].
  split; [done|]. rewrite length_take, length_drop. lia.
Qed.

Lemma ip_cmp_same_host a b : ip_cmp a b = Ok 0 → same_host a b.
Proof.
  unfold ip_cmp, same_host. intros H. apply bind_Ok in H as (f & Hf & H). rewrite Hf.
  destruct (Z.eqb_spec f AF_INET) as [->|Hne]; [left|right];
    apply bind_Ok in H as (x & [-> Hx]%mem_at_inv & H); apply bind_Ok in H as (y & [-> Hy]%mem_at_inv & H).
  - split; [done|]. injection H as H. apply memcmp_eq in H; [done|congruence].
  - split; [by intros [= ->]|]. injection H as H. apply memcmp_eq in H; [done|congruence].
Qed.

(** C22: TLS session data are sent only to a worker that asks for the session
    identifier they were stored for, on behalf of the same peer address (the
    same IPv4 address, or the same IPv6 address), and only on the default
    virtual host: neither the request nor the one that stored them names a
    virtual host, unless there was no memory to copy the name when they were
    stored.  Whatever was stored, deleted and expired before. *)
Theorem resumption_only_for_same_peer l db req msg d :
  tls_stored l db → resume_fetch db req = Ok msg → rr_session_data msg = Some d →
  ∃ copied st, (copied, st) ∈ l ∧ rs_session_data st = d ∧ rs_session_id st = rf_session_id req ∧
    length (rf_cli_addr req) = length (rs_cli_addr st) ∧ same_host (rf_cli_addr req) (rs_cli_addr st) ∧
    rf_vhost req = None ∧ (copied = true → rs_vhost st = None).
Proof.
  intros Hl. unfold resume_fetch, handle_resume_fetch_req.
  destruct (fetch_loop _ _ _) as [o| | |] eqn:Hf; run; [|done..]. intros [= <-]. simpl. intros ->.
  apply fetch_loop_sound in Hf as (p & c & Hp & (Hid & Hv & Hr & Hlen & Hcmp) & Hd).
  destruct (tls_stored_from l db Hl p c Hp) as ([copied st] & He & ->). exists copied, st.
  apply ip_cmp_same_host in Hcmp. split_and!; try done. by intros ->.
Qed.

(** Session data stored for a peer are delivered again to the same peer,
    and are not to a peer with another address, on a server without virtual
    hosts. *)
Theorem store_then_fetch mem p max_clients db req addr :
  tls_rep db → mem = Some p → ptr_ok p → cache_of db p = None →
  (∀ q f, cache_of db q = Some f → session_id f ≠ rs_session_id req) →
  Z.of_nat (length (rs_session_id req)) ≤ GNUTLS_MAX_SESSION_ID →
  Z.of_nat (length (rs_session_data req)) ≤ MAX_SESSION_DATA_SIZE →
  entries db < Z.max (u32 (2 * max_clients)) DEFAULT_MAX_CACHED_TLS_SESSIONS →
  sockaddr_ok (rs_cli_addr req) → rs_vhost req = None →
  sockaddr_ok addr → length addr = length (rs_cli_addr req) →
  ∃ db', handle_resume_store_req mem true true max_clients db req = Ok (0, db') ∧
    resume_fetch db' {| rf_session_id := rs_session_id req; rf_cli_addr := addr; rf_vhost := None |} =
      Ok {| rr_reply := RESUME_REP_OK;
            rr_session_data := if bool_decide (ip_cmp addr (rs_cli_addr req) = Ok 0)
                               then Some (rs_session_data req) else None |}.
Proof.
  intros Hrep Hm Hp Hfresh Hun H1 H2 H3 H4 Hv Ha Hl.
  destruct (store_result mem p max_clients db req) as (db' & Hst & Hrep' & Ho); [done..|].
  exists db'. split; [done|]. rewrite (fetch_after_store db db' p _ _ Hrep' Ho); simpl; [|done..].
  unfold vhost_differs. simpl. rewrite Hv. simpl.
  destruct (ip_cmp_defined addr (rs_cli_addr req)) as [r Hr]; [done..|]. rewrite Hr. run.
  destruct (Z.eqb_spec r 0) as [->|Hne]; [by rewrite bool_decide_eq_true_2|].
  rewrite bool_decide_eq_false_2; [done|]. by intros [= ->].
Qed.

(** Session data stored on a named virtual host are never delivered, not
    even to the same peer asking for the same host: the test of the names
    compares pointers.  The worker is told that the request succeeded. *)
Theorem named_vhost_never_resumes mem p max_clients db req v :
  tls_rep db → mem = Some p → ptr_ok p → cache_of db p = None →
  (∀ q f, cache_of db q = Some f → session_id f ≠ rs_session_id req) →
  Z.of_nat (length (rs_session_id req)) ≤ GNUTLS_MAX_SESSION_ID →
  Z.of_nat (length (rs_session_data req)) ≤ MAX_SESSION_DATA_SIZE →
  entries db < Z.max (u32 (2 * max_clients)) DEFAULT_MAX_CACHED_TLS_SESSIONS →
  sockaddr_ok (rs_cli_addr req) → rs_vhost req = Some v →
  ∃ db', handle_resume_store_req mem true true max_clients db req = Ok (0, db') ∧
    resume_fetch db' {| rf_session_id := rs_session_id req; rf_cli_addr := rs_cli_addr req;
                        rf_vhost := Some v |} =
      Ok {| rr_reply := RESUME_REP_OK; rr_session_data := None |}.
Proof.
  intros Hrep Hm Hp Hfresh Hun H1 H2 H3 H4 Hv.
  destruct (store_result mem p max_clients db req) as (db' & Hst & Hrep' & Ho); [done..|].
  exists db'. split; [done|]. rewrite (fetch_after_store db db' p _ _ Hrep' Ho); simpl; [|done..].
  unfold vhost_differs. simpl. rewrite Hv. by rewrite orb_true_r.
Qed.

(** While the hash table can grow, the counter of the TLS session cache is
    the number of its entries and never exceeds twice the number of clients or
    64, whatever is stored, deleted or expired in between. *)
Theorem tls_cache_bounded mc db :
  tls_reachable mc db →
  entries db = Z.of_nat (size (objs (ht db))) ∧
  entries db ≤ Z.max (u32 (2 * mc)) DEFAULT_MAX_CACHED_TLS_SESSIONS.
Proof. intros [_ ? ?]%tls_reachable_inv. done. Qed.

(** Expiry removes exactly the sessions older than the cookie lifetime and
    leaves every other one as it is. *)
Theorem tls_expiry_exact mc db f now timeout p :
  tls_reachable mc db →
  cache_of (expire_tls_sessions f now timeout db) p =
    (c ← cache_of db p; if timeout <? now - f (session_data c) then None else Some c).
Proof.
  intros [Hrep _ _]%tls_reachable_inv. unfold expire_tls_sessions. rewrite expire_foldl.
  case_decide as Hin; [done|]. destruct (cache_of db p) as [c|] eqn:Hp; [|done].
  destruct Hin. apply (rep_walk _ _ _ Hrep). unfold cache_of in Hp. by rewrite lookup_fmap, Hp.
Qed.
End resume_theorems.

(** ** Witnesses *)
Module TlsWitnesses.
#[local] Instance toy_env : SecModEnv := {|
  auth_ctx_t := unit; vhost_ctx_t := unit;
  hash_any l := foldr Z.add 0 l; sha1 l := l; base64_encode _ := "id"%string |}.

(** 10.0.0.n as a [struct sockaddr_in]. *)
Definition peer (n : Z) : list Z := [2; 0; 0; 80; 10; 0; 0; n; 0; 0; 0; 0; 0; 0; 0; 0].

Definition store_req (v : option string) : SessionResumeStoreReqMsg := {|
  rs_session_id := [1; 2; 3]; rs_session_data := [42; 43]; rs_cli_addr := peer 7; rs_vhost := v |}.

Definition empty : tls_sess_db_st rtable := tls_cache_init.

Definition one_session : tls_sess_db_st rtable :=
  match handle_resume_store_req (Some (heap 2)) true true 100 empty (store_req None) with
  | Ok (_, db) => db | _ => empty end.

Lemma one_session_reachable : tls_reachable 100 one_session.
Proof.
  apply (tr_store 100 empty (Some (heap 2)) true (store_req None) 0); [constructor| |done].
  intros p [= <-]. by split.
Qed.

Definition fetch_req : SessionResumeFetchMsg :=
  {| rf_session_id := [1; 2; 3]; rf_cli_addr := peer 7; rf_vhost := None |}.

Lemma resumption_witness :
  ∃ copied st, (copied, st) ∈ [(true, store_req None)] ∧ rs_session_data st = [42; 43] ∧
    rs_session_id st = rf_session_id fetch_req ∧
    length (rf_cli_addr fetch_req) = length (rs_cli_addr st) ∧
    same_host (rf_cli_addr fetch_req) (rs_cli_addr st) ∧
    rf_vhost fetch_req = None ∧ (copied = true → rs_vhost st = None).
Proof.
  apply (resumption_only_for_same_peer [(true, store_req None)] one_session fetch_req
    {| rr_reply := RESUME_REP_OK; rr_session_data := Some [42; 43] |}); [|by vm_compute..].
  apply (ts_store [] empty (Some (heap 2)) true true 100 (store_req None) 0); [constructor|done].
Defined.

(** Without memory for the name, a session of a named host is resumed on the
    default host. *)
Example name_not_copied :
  match handle_resume_store_req (Some (heap 2)) false true 100 empty (store_req (Some "a"%string)) with
  | Ok (_, db) => resume_fetch db fetch_req
  | _ => UB
  end = Ok {| rr_reply := RESUME_REP_OK; rr_session_data := Some [42; 43] |}.
Proof. vm_compute. reflexivity. Qed.

Lemma store_then_fetch_witness :
  ∃ db', handle_resume_store_req (Some (heap 2)) true true 100 empty (store_req None) = Ok (0, db') ∧
    resume_fetch db' {| rf_session_id := [1; 2; 3]; rf_cli_addr := peer 8; rf_vhost := None |} =
      Ok {| rr_reply := RESUME_REP_OK;
            rr_session_data := if bool_decide (ip_cmp (peer 8) (peer 7) = Ok 0)
                               then Some [42; 43] else None |}.
Proof.
  apply (store_then_fetch (Some (heap 2)) (heap 2) 100 empty (store_req None) (peer 8));
    try done; [apply (tls_reachable_inv 100), tr_init|by left..].
Defined.

Lemma named_vhost_witness :
  ∃ db', handle_resume_store_req (Some (heap 2)) true true 100 empty (store_req (Some "a"%string)) = Ok (0, db') ∧
    resume_fetch db' {| rf_session_id := [1; 2; 3]; rf_cli_addr := peer 7; rf_vhost := Some "a"%string |} =
      Ok {| rr_reply := RESUME_REP_OK; rr_session_data := None |}.
Proof.
  apply (named_vhost_never_resumes (Some (heap 2)) (heap 2) 100 empty (store_req (Some "a"%string)) "a");
    try done; [apply (tls_reachable_inv 100), tr_init|by left].
Defined.

Lemma tls_cache_bounded_witness :
  entries one_session = Z.of_nat (size (objs (ht one_session))) ∧
  entries one_session ≤ Z.max (u32 (2 * 100)) DEFAULT_MAX_CACHED_TLS_SESSIONS.
Proof. apply (tls_cache_bounded 100 one_session), one_session_reachable. Defined.

Lemma tls_expiry_witness :
  cache_of (expire_tls_sessions (λ _, 5) 1000 300 one_session) (heap 2) =
    (c ← cache_of one_session (heap 2); if 300 <? 1000 - 5 then None else Some c).
Proof. apply (tls_expiry_exact 100 one_session (λ _, 5)), one_session_reachable. Defined.
End TlsWitnesses.
