(* ===== verification/Ban.v ===== *)
(** * The list of banned addresses (src/main-ban.c)

    The main process keeps a score for every address: points are added when a
    client connects or gives a wrong password, and an address whose score
    reaches the configured maximum is rejected for a time.  IPv6 addresses
    count by their first 64 bits. *)

From S2P Require Import Prelude CString Htable Store SecModData IpUtil.

(** [struct ban_entry_st]; [ip] has 4 or 16 bytes. *)
Record ban_entry_st := BanEntry { ip : list Z; score : Z; last_reset : Z; expires : Z }.

(** The part of the configuration the list depends on. *)
Record ban_config := BanConfig {
  cfg_max_ban_score : Z; min_reauth_time : Z; ban_reset_time : Z; ban_points_connect : Z }.

Definition massage_ipv6_address (a : list Z) : list Z :=
  if (length a =? 16)%nat then take 8 a ++ replicate 8 0 else a.

(** [SA_IN_SIZE] and [SA_IN_P_GENERIC] on a [struct sockaddr] of that size. *)
Definition SA_IN_SIZE (addr : list Z) : Z :=
  if (length addr =? 16)%nat then 4 else 16.
Definition SA_IN_P_GENERIC (addr : list Z) : cres (list Z) :=
  if (length addr =? 16)%nat then SA_IN_P addr else SA_IN6_P addr.

Definition octets (a : Z) : list Z := [octet a 0; octet a 1; octet a 2; octet a 3].

Section ban.
Context {T : Type} `{HT : HTable T, Env : SecModEnv}.
Implicit Types (s : store T ban_entry_st) (cfg : ban_config) (e : ban_entry_st).

Definition main_ban_db_init : store T ban_entry_st := Store htable_init ∅.
Definition main_ban_db_elems s : Z := u32 (htable_elems (tbl s)).

(** The points are added to an entry, lines 153 to 161. *)
Definition add_points cfg (now points : Z) e : ban_entry_st :=
  let expiration := now + min_reauth_time cfg in
  {| ip := ip e; last_reset := last_reset e;
     expires := if score e <? u32 (cfg_max_ban_score cfg) then expiration else expires e;
     score := u32 (score e + points) |}.

Definition reset_score cfg (now : Z) e : ban_entry_st :=
  if last_reset e + ban_reset_time cfg <? now then
    {| e with score := 0; last_reset := now |}
  else e.

(** Whether the score is one that is banned. *)
Definition over_limit cfg e : bool :=
  (0 <? cfg_max_ban_score cfg) && (u32 (cfg_max_ban_score cfg) <=? score e).

(** [mem] is the address of a new entry, [ok] says whether the table can
    grow. *)
Definition add_ip_to_ban_list (mem : option ptr) (ok : bool) cfg (now : Z) s
    (a : list Z) (points : Z) : Z * store T ban_entry_st :=
  if (cfg_max_ban_score cfg =? 0) || negb ((length a =? 4) || (length a =? 16))%nat then (0, s) else
  let k := massage_ipv6_address a in
  match slookup ip hash_any k s with
  | None =>
    match mem with
    | None => (0, s)
    | Some p =>
      let e := {| ip := k; score := 0; last_reset := now; expires := 0 |} in
      let '(b, s) := sadd ip hash_any ok p e s in
      if b then
        let e := add_points cfg now points e in
        (if over_limit cfg e then -1 else 0, sset p e s)
      else (0, s)
    end
  | Some (p, e) =>
    let e := add_points cfg now points (reset_score cfg now e) in
    (if over_limit cfg e then -1 else 0, sset p e s)
  end.

(** [pton6] is [inet_pton(AF_INET6, ...)]. *)
Definition add_str_ip_to_ban_list (pton6 : string → option (list Z)) (mem : option ptr) (ok : bool)
    cfg (now : Z) s (a : string) (points : Z) : Z * store T ban_entry_st :=
  if (cfg_max_ban_score cfg =? 0) || bool_decide (a = ""%string) then (0, s) else
  match (if bool_decide (is_Some (strchr a (Ascii.ascii_of_nat 58))) then pton6 a
         else octets <$> inet_pton4 a) with
  | None => (0, s)
  | Some b => add_ip_to_ban_list mem ok cfg now s b points
  end.

Definition remove_ip_from_ban_list s (a : list Z) : Z * store T ban_entry_st :=
  if ((length a =? 4) || (length a =? 16))%nat then
    match slookup ip hash_any (massage_ipv6_address a) s with
    | Some (p, e) => (1, sset p {| e with score := 0; expires := 0 |} s)
    | None => (0, s)
    end
  else (0, s).

(** [now] is the time of the check, [now'] the time when the connection points
    were added just before. *)
Definition check_if_banned (mem : option ptr) (ok : bool) cfg (now' now : Z) s (addr : list Z)
    : cres (Z * store T ban_entry_st) :=
  if cfg_max_ban_score cfg =? 0 then Ok (0, s) else
  if negb ((SA_IN_SIZE addr =? 4) || (SA_IN_SIZE addr =? 16)) then Ok (0, s) else
  a ← SA_IN_P_GENERIC addr;
  let k := massage_ipv6_address a in
  let s := (add_ip_to_ban_list mem ok cfg now' s k (ban_points_connect cfg)).2 in
  match slookup ip hash_any k s with
  | None => Ok (0, s)
  | Some (_, e) =>
    if expires e <? now then Ok (0, s) else
    if u32 (cfg_max_ban_score cfg) <=? score e then Ok (1, s) else Ok (0, s)
  end.

Definition cleanup_banned_entries cfg (now : Z) s : store T ban_entry_st :=
  sweep (λ e, (expires e <=? now) && (last_reset e + ban_reset_time cfg <? now)) s.
End ban.

(** ** The list as a map from addresses to entries *)

Section ban_spec.
Context {T : Type} `{HT : HTable T, HS : !HTableSpec T, Env : SecModEnv}.
Implicit Types (s : store T ban_entry_st) (cfg : ban_config) (e : ban_entry_st) (k : list Z).

Definition bans s : gmap (list Z) ban_entry_st := view ip s.
Definition ban_ok s : Prop := store_ok ip hash_any s.

(** Memory for a new entry is not in use. *)
Definition fresh (mem : option ptr) s : Prop :=
  ∀ p, mem = Some p → ptr_ok p ∧ objs s !! p = None.

(** The entry of [k] after points were added. *)
Definition bump cfg (now points : Z) k (o : option ban_entry_st) : ban_entry_st :=
  add_points cfg now points
    match o with
    | Some e => reset_score cfg now e
    | None => {| ip := k; score := 0; last_reset := now; expires := 0 |}
    end.

Definition ip_ok (a : list Z) : Prop := length a = 4%nat ∨ length a = 16%nat.

Lemma bump_ip cfg now points k o : (∀ e, o = Some e → ip e = k) → ip (bump cfg now points k o) = k.
Proof.
  intros Ho. destruct o as [e|]; [|done]. simpl. unfold reset_score. case_match; exact (Ho e eq_refl).
Qed.

Lemma massage_length a : ip_ok a → ip_ok (massage_ipv6_address a).
Proof.
  unfold massage_ipv6_address. intros Ha. destruct (Nat.eqb_spec (length a) 16); [|done].
  right. rewrite length_app, length_take, length_replicate. lia.
Qed.

Lemma massage_idemp a : massage_ipv6_address (massage_ipv6_address a) = massage_ipv6_address a.
Proof.
  unfold massage_ipv6_address. destruct (Nat.eqb_spec (length a) 16) as [E|E]; [|by rewrite (proj2 (Nat.eqb_neq _ _) E)].
  assert (length (take 8 a) = 8%nat) as H8 by (rewrite length_take; lia).
  assert (length (take 8 a ++ replicate 8 0) = 16%nat) as -> by (rewrite length_app, length_replicate; lia).
  simpl (16 =? 16)%nat. cbv iota. f_equal. by rewrite take_app_length' by done.
Qed.

(** Adding points updates the entry of the address and nothing else; only
    when memory runs out a new address is not recorded. *)
Lemma add_spec mem ok cfg now s a points :
  ban_ok s → fresh mem s → ip_ok a → cfg_max_ban_score cfg ≠ 0 →
  let k := massage_ipv6_address a in
  let e := bump cfg now points k (bans s !! k) in
  let '(r, s') := add_ip_to_ban_list mem ok cfg now s a points in
  ban_ok s' ∧
  (bans s' = <[k:=e]> (bans s) ∧ r = (if over_limit cfg e then -1 else 0) ∨
   bans s' = bans s ∧ bans s !! k = None ∧ r = 0 ∧ (mem = None ∨ ok = false)).
Proof.
  intros Hok Hf Ha Hm. cbv zeta. unfold add_ip_to_ban_list.
  rewrite (proj2 (Z.eqb_neq _ _) Hm).
  assert (((length a =? 4) || (length a =? 16))%nat = true) as -> by (by destruct Ha as [-> | ->]).
  cbn [negb orb]. set (k := massage_ipv6_address a).
  unfold bans. rewrite (slookup_view ip hash_any s k Hok).
  destruct (slookup ip hash_any k s) as [[p e]|] eqn:Hl; cbn [fmap option_fmap option_map snd].
  - apply slookup_Some in Hl as [Hp Hk].
    assert (ip (bump cfg now points k (Some e)) = ip e) as Hip by (rewrite bump_ip; naive_solver).
    assert (ban_ok (sset p (bump cfg now points k (Some e)) s)) as Hok' by (by eapply sset_ok).
    split; [done|]. left. split; [|done]. rewrite <- Hk, <- Hip at 1.
    eapply (view_insert ip hash_any); [done..|]. intros f Hfp. congruence.
  - apply slookup_None in Hl. destruct mem as [p|]; [|split; [done|right]; by auto].
    destruct (Hf p eq_refl) as [Hp Hfresh].
    set (e0 := BanEntry k 0 now 0).
    pose proof (sadd_spec ip hash_any ok p e0 s Hok Hp Hfresh Hl) as Hadd.
    destruct (sadd _ _ _ _ _ _) as [b s1]. destruct Hadd as (Hok1 & Hb & Ho).
    destruct b.
    + assert (objs s1 !! p = Some e0) as Hp1 by (by rewrite Ho, lookup_insert_eq).
      assert (ban_ok (sset p (add_points cfg now points e0) s1)) as Hok' by (by eapply sset_ok).
      split; [done|]. left. split; [|done].
      rewrite (view_insert ip hash_any s1 _ p (add_points cfg now points e0) Hok1 Hok' eq_refl)
        by (intros f Hfp; rewrite Hp1 in Hfp; by simplify_eq).
      rewrite (view_insert ip hash_any s s1 p e0 Hok Hok1 Ho) by (intros f Hfp; congruence).
      apply (insert_insert_eq (view ip s) k).
    + split; [done|]. right. split_and!; [|done|done|by auto]. unfold view. by rewrite Ho.
Qed.

(** ** A ban in force *)

(** The entry of an address that is banned until [E], its score counted
    since [L]. *)
Definition banned cfg (E L : Z) e : Prop :=
  u32 (cfg_max_ban_score cfg) ≤ score e < 2 ^ 32 ∧ expires e = E ∧ last_reset e = L.

Lemma banned_bump cfg E L now points k e :
  banned cfg E L e → now ≤ L + ban_reset_time cfg → 0 ≤ points → score e + points < 2 ^ 32 →
  banned cfg E L (bump cfg now points k (Some e)) ∧
  score (bump cfg now points k (Some e)) = score e + points.
Proof.
  intros (Hs & HE & HL) Hn Hp Hb. unfold bump, reset_score.
  destruct (Z.ltb_spec (last_reset e + ban_reset_time cfg) now); [lia|].
  pose proof (wrap_range 32 (cfg_max_ban_score cfg)).
  unfold banned, add_points. simpl. destruct (Z.ltb_spec (score e) (u32 (cfg_max_ban_score cfg))); [lia|].
  rewrite (wrap_small 32 (score e + points)) by lia. lia.
Qed.

(** What happens to the list up to the time [lim], but for the removal of
    addresses: points are added, connections are checked, old entries are
    removed. The number counts the points. *)
Inductive ban_run cfg (lim : Z) : Z → store T ban_entry_st → store T ban_entry_st → Prop :=
| run_nil s : ban_run cfg lim 0 s s
| run_add n s s' mem ok now a points :
    ban_run cfg lim n s s' → fresh mem s' → now ≤ lim → ip_ok a → 0 ≤ points →
    ban_run cfg lim (n + points) s (add_ip_to_ban_list mem ok cfg now s' a points).2
| run_check n s s' mem ok now' now addr r s'' :
    ban_run cfg lim n s s' → fresh mem s' → now' ≤ lim → 0 ≤ ban_points_connect cfg →
    check_if_banned mem ok cfg now' now s' addr = Ok (r, s'') →
    ban_run cfg lim (n + ban_points_connect cfg) s s''
| run_cleanup n s s' now :
    ban_run cfg lim n s s' → now ≤ lim → ban_run cfg lim n s (cleanup_banned_entries cfg now s').

Lemma ban_run_points cfg lim n s s' : ban_run cfg lim n s s' → 0 ≤ n.
Proof. induction 1; lia. Qed.

Lemma check_state mem ok cfg now' now s addr r s' :
  check_if_banned mem ok cfg now' now s addr = Ok (r, s') →
  s' = s ∨ ∃ a, ip_ok a ∧ s' = (add_ip_to_ban_list mem ok cfg now' s a (ban_points_connect cfg)).2.
Proof.
  unfold check_if_banned. destruct (_ =? 0); [intros [= _ <-]; by left|].
  destruct (negb _); [intros [= _ <-]; by left|].
  destruct (SA_IN_P_GENERIC addr) as [a| | |] eqn:Ha; run; [|done..]. cbv zeta.
  assert (ip_ok a) as Hip.
  { unfold SA_IN_P_GENERIC, SA_IN_P, SA_IN6_P, mem_at in Ha.
    repeat case_match; simplify_eq; rewrite ?Nat.leb_le in *; [left|right];
      rewrite length_take, length_drop; lia. }
  intros H. right. exists (massage_ipv6_address a). split; [by apply massage_length|].
  repeat case_match; by simplify_eq.
Qed.

Lemma add_keeps_ban mem ok cfg now s a points k e E L :
  cfg_max_ban_score cfg ≠ 0 → ban_ok s → fresh mem s → ip_ok a →
  bans s !! k = Some e → banned cfg E L e → now ≤ L + ban_reset_time cfg → 0 ≤ points →
  score e + points < 2 ^ 32 →
  ban_ok (add_ip_to_ban_list mem ok cfg now s a points).2 ∧
  ∃ e', bans (add_ip_to_ban_list mem ok cfg now s a points).2 !! k = Some e' ∧
    banned cfg E L e' ∧ score e' ≤ score e + points.
Proof.
  intros Hm Hok Hf Ha Hk Hb Hn Hp Hs.
  pose proof (add_spec mem ok cfg now s a points Hok Hf Ha Hm) as Hadd.
  destruct (add_ip_to_ban_list _ _ _ _ _ _ _) as [r s']. destruct Hadd as [Hok' Hadd].
  split; [done|]. simpl. destruct Hadd as [[-> _]|(-> & _)]; [|exists e; split_and!; [done..|lia]].
  destruct (decide (massage_ipv6_address a = k)) as [->|Hne].
  - rewrite lookup_insert_eq, Hk. destruct (banned_bump cfg E L now points k e) as [? Hsc]; [done..|].
    eexists. split; [done|]. split; [done|]. lia.
  - rewrite lookup_insert_ne by done. exists e. split_and!; [done..|lia].
Qed.

(** Nothing but a removal lifts a ban before its score is reset. *)
Lemma run_keeps_ban cfg lim n s s' k e E L :
  cfg_max_ban_score cfg ≠ 0 → ban_run cfg lim n s s' → lim ≤ L + ban_reset_time cfg →
  ban_ok s → bans s !! k = Some e → banned cfg E L e → score e + n < 2 ^ 32 →
  ban_ok s' ∧ ∃ e', bans s' !! k = Some e' ∧ banned cfg E L e' ∧ score e' ≤ score e + n.
Proof.
  intros Hm Hrun Hlim Hok Hk Hb.
  induction Hrun as [s|n s s' mem ok now a points Hrun IH Hf Hn Ha Hp|
    n s s' mem ok now' now addr r s'' Hrun IH Hf Hn Hp Hc|n s s' now Hrun IH Hn]; intros Hs.
  - split; [done|]. exists e. split_and!; [done..|lia].
  - pose proof (ban_run_points _ _ _ _ _ Hrun).
    destruct IH as (Hok' & e' & Hk' & Hb' & Hs'); [done..|lia|].
    destruct (add_keeps_ban mem ok cfg now s' a points k e' E L) as (? & e'' & ? & ? & ?); try done; [lia..|].
    split; [done|]. exists e''. split_and!; [done..|lia].
  - pose proof (ban_run_points _ _ _ _ _ Hrun).
    destruct IH as (Hok' & e' & Hk' & Hb' & Hs'); [done..|lia|].
    apply check_state in Hc as [->|(a & Ha & ->)]; [split; [done|]; exists e'; split_and!; [done..|lia]|].
    destruct (add_keeps_ban mem ok cfg now' s' a (ban_points_connect cfg) k e' E L) as (? & e'' & ? & ? & ?);
      try done; [lia..|].
    split; [done|]. exists e''. split_and!; [done..|lia].
  - destruct IH as (Hok' & e' & Hk' & Hb' & Hs'); [done..|].
    destruct (sweep_spec ip hash_any (λ e, (expires e <=? now) && (last_reset e + ban_reset_time cfg <? now))
      s' Hok') as [Hok'' Ho].
    split; [done|]. exists e'. split; [|done].
    unfold bans, cleanup_banned_entries.
    rewrite (view_filter ip hash_any s' _ (λ e, (expires e <=? now) && (last_reset e + ban_reset_time cfg <? now) = false)
      Hok' Hok'' Ho).
    apply map_lookup_filter_Some. split; [done|]. simpl. apply andb_false_iff. right.
    apply Z.ltb_ge. destruct Hb' as (_ & _ & ->). lia.
Qed.

(** ** Checking a connection *)

(** The key of the peer with the socket address [addr]. *)
Definition peer_key (addr : list Z) k : Prop :=
  ∃ a, SA_IN_P_GENERIC addr = Ok a ∧ massage_ipv6_address a = k.

Definition verdict cfg (now : Z) (o : option ban_entry_st) : Z :=
  match o with
  | Some e => if expires e <? now then 0 else if u32 (cfg_max_ban_score cfg) <=? score e then 1 else 0
  | None => 0
  end.

Lemma SA_IN_P_GENERIC_ok addr a : SA_IN_P_GENERIC addr = Ok a → ip_ok a.
Proof.
  unfold SA_IN_P_GENERIC, SA_IN_P, SA_IN6_P, mem_at. intros H.
  repeat case_match; simplify_eq; rewrite ?Nat.leb_le in *; [left|right];
    rewrite length_take, length_drop; lia.
Qed.

(** A check adds the connection points and then looks at the entry. *)
Lemma check_spec mem ok cfg now' now s addr k :
  ban_ok s → fresh mem s → cfg_max_ban_score cfg ≠ 0 → peer_key addr k →
  ∃ s', check_if_banned mem ok cfg now' now s addr = Ok (verdict cfg now (bans s' !! k), s') ∧
    ban_ok s' ∧
    (bans s' = <[k:=bump cfg now' (ban_points_connect cfg) k (bans s !! k)]> (bans s) ∨
     bans s' = bans s ∧ bans s !! k = None ∧ (mem = None ∨ ok = false)).
Proof.
  intros Hok Hf Hm (a & Ha & Hk). unfold check_if_banned. rewrite (proj2 (Z.eqb_neq _ _) Hm).
  assert ((SA_IN_SIZE addr =? 4) || (SA_IN_SIZE addr =? 16) = true) as ->
    by (unfold SA_IN_SIZE; by case_match).
  cbn [negb]. rewrite Ha. run. cbv zeta. rewrite Hk.
  assert (ip_ok k) as Hip by (rewrite <- Hk; by eapply massage_length, SA_IN_P_GENERIC_ok).
  assert (massage_ipv6_address k = k) as Hkk by (rewrite <- Hk; apply massage_idemp).
  pose proof (add_spec mem ok cfg now' s k (ban_points_connect cfg) Hok Hf Hip Hm) as Hadd.
  destruct (add_ip_to_ban_list _ _ _ _ _ _ _) as [r s']. simpl. cbv zeta in Hadd. rewrite Hkk in Hadd.
  destruct Hadd as [Hok' Hadd]. exists s'. split; [|split; [done|naive_solver]].
  unfold bans. rewrite (slookup_view ip hash_any s' k Hok').
  destruct (slookup _ _ _ _) as [[p e]|]; simpl; [|done]. by repeat case_match.
Qed.

(** While a score is over the limit the verdict depends on the time only. *)
Lemma run_then_check cfg lim n s s' k e mem ok now' now addr :
  cfg_max_ban_score cfg ≠ 0 → ban_ok s → bans s !! k = Some e →
  u32 (cfg_max_ban_score cfg) ≤ score e →
  ban_run cfg lim n s s' → lim ≤ last_reset e + ban_reset_time cfg →
  0 ≤ ban_points_connect cfg → score e + n + ban_points_connect cfg < 2 ^ 32 →
  fresh mem s' → peer_key addr k → now' ≤ lim →
  ∃ s'', check_if_banned mem ok cfg now' now s' addr = Ok (if expires e <? now then 0 else 1, s'').
Proof.
  intros Hm Hok Hk Hs Hrun Hlim Hc Hsum Hf Hpk Hn'.
  pose proof (ban_run_points _ _ _ _ _ Hrun).
  destruct (run_keeps_ban cfg lim n s s' k e (expires e) (last_reset e)) as (Hok' & e' & Hk' & Hb' & Hs');
    try done; [by repeat split; try lia|lia|].
  destruct (check_spec mem ok cfg now' now s' addr k) as (s'' & -> & _ & Hdb); [done..|].
  exists s''. do 2 f_equal.
  destruct Hdb as [->|(_ & Hnone & _)]; [|congruence]. rewrite lookup_insert_eq, Hk'. unfold verdict.
  destruct (banned_bump cfg (expires e) (last_reset e) now' (ban_points_connect cfg) k e')
    as [(Hsc & -> & _) _]; [done|lia..|].
  destruct (expires e <? now); [done|]. by rewrite (proj2 (Z.leb_le _ _)) by lia.
Qed.

(** The points of an address that were collected before [now]. *)
Definition points_of cfg (now : Z) (o : option ban_entry_st) : Z :=
  match o with Some e => score (reset_score cfg now e) | None => 0 end.

Lemma bump_score cfg now points k o :
  score (bump cfg now points k o) = u32 (points_of cfg now o + points).
Proof. by destruct o. Qed.

(** ** Theorems *)

(** Adding points to an address changes the entry of that address (of its
    first 64 bits for IPv6) as [bump] says and no other one, and reports a ban
    exactly when the new score reaches the limit; only if memory runs out a
    new address is not recorded. *)
Theorem ban_add_refines mem ok cfg now s a points :
  ban_ok s → fresh mem s → ip_ok a → cfg_max_ban_score cfg ≠ 0 →
  let k := massage_ipv6_address a in
  let e := bump cfg now points k (bans s !! k) in
  let '(r, s') := add_ip_to_ban_list mem ok cfg now s a points in
  ban_ok s' ∧
  (bans s' = <[k:=e]> (bans s) ∧ r = (if over_limit cfg e then -1 else 0) ∨
   bans s' = bans s ∧ bans s !! k = None ∧ r = 0 ∧ (mem = None ∨ ok = false)).
Proof. apply add_spec. Qed.

(** C21: A banned address is rejected at every connection until its ban
    expires or its score is reset, [ban_reset_time] after the last reset,
    whichever comes first: adding points, checking other and the same addresses
    and cleaning up cannot lift the ban before, as long as the address is not
    removed from the list and the score does not overflow 32 bits. *)
Theorem ban_is_enforced cfg lim n s s' k e mem ok now' now addr :
  cfg_max_ban_score cfg ≠ 0 → ban_ok s → bans s !! k = Some e →
  u32 (cfg_max_ban_score cfg) ≤ score e →
  ban_run cfg lim n s s' → lim ≤ last_reset e + ban_reset_time cfg →
  0 ≤ ban_points_connect cfg → score e + n + ban_points_connect cfg < 2 ^ 32 →
  fresh mem s' → peer_key addr k → now' ≤ lim → now ≤ expires e →
  ∃ s'', check_if_banned mem ok cfg now' now s' addr = Ok (1, s'').
Proof.
  intros. destruct (run_then_check cfg lim n s s' k e mem ok now' now addr) as [s'' ->]; [done..|].
  exists s''. by rewrite (proj2 (Z.ltb_ge _ _)) by done.
Qed.

(** Once the ban of an address has expired, the address is not banned
    again before its score is reset, whatever points it collects meanwhile:
    its score is already over the limit, and then the expiration time is never
    set again. *)
Theorem expired_ban_not_renewed cfg lim n s s' k e mem ok now' now addr :
  cfg_max_ban_score cfg ≠ 0 → ban_ok s → bans s !! k = Some e →
  u32 (cfg_max_ban_score cfg) ≤ score e →
  ban_run cfg lim n s s' → lim ≤ last_reset e + ban_reset_time cfg →
  0 ≤ ban_points_connect cfg → score e + n + ban_points_connect cfg < 2 ^ 32 →
  fresh mem s' → peer_key addr k → now' ≤ lim → expires e < now →
  ∃ s'', check_if_banned mem ok cfg now' now s' addr = Ok (0, s'').
Proof.
  intros. destruct (run_then_check cfg lim n s s' k e mem ok now' now addr) as [s'' ->]; [done..|].
  exists s''. by rewrite (proj2 (Z.ltb_lt _ _)) by done.
Qed.

(** A connection is rejected only if the points of the address, with those
    of this connection, reach the limit: a client with fewer points gets in. *)
Theorem below_limit_not_rejected mem ok cfg now' now s addr k :
  ban_ok s → fresh mem s → cfg_max_ban_score cfg ≠ 0 → peer_key addr k →
  0 ≤ points_of cfg now' (bans s !! k) → 0 ≤ ban_points_connect cfg →
  points_of cfg now' (bans s !! k) + ban_points_connect cfg < u32 (cfg_max_ban_score cfg) →
  ∃ s', check_if_banned mem ok cfg now' now s addr = Ok (0, s').
Proof.
  intros Hok Hf Hm Hpk H0 Hc Hlt. pose proof (wrap_range 32 (cfg_max_ban_score cfg)).
  destruct (check_spec mem ok cfg now' now s addr k) as (s' & -> & _ & Hdb); [done..|].
  exists s'. do 2 f_equal. destruct Hdb as [->|(-> & -> & _)]; [|done].
  rewrite lookup_insert_eq. unfold verdict. rewrite bump_score, (wrap_small 32 (_ + ban_points_connect cfg)) by lia.
  case_match; [done|]. by destruct (Z.leb_spec (u32 (cfg_max_ban_score cfg))
    (points_of cfg now' (bans s !! k) + ban_points_connect cfg)); [lia|].
Qed.

(** Removing an address from the list succeeds exactly when the list knows
    it, and the next connection from it (from its /64 for IPv6) is accepted
    unless its points alone reach the limit. *)
Theorem unban_takes_effect mem ok cfg now' now s a addr k :
  ban_ok s → ip_ok a → massage_ipv6_address a = k → peer_key addr k →
  cfg_max_ban_score cfg ≠ 0 → 0 ≤ ban_points_connect cfg < u32 (cfg_max_ban_score cfg) →
  let '(r, s1) := remove_ip_from_ban_list s a in
  r = (if bool_decide (is_Some (bans s !! k)) then 1 else 0) ∧
  (r = 1 → fresh mem s1 → ∃ s2, check_if_banned mem ok cfg now' now s1 addr = Ok (0, s2)).
Proof.
  intros Hok Ha Hk Hpk Hm Hc. pose proof (wrap_range 32 (cfg_max_ban_score cfg)).
  unfold remove_ip_from_ban_list. rewrite Hk.
  assert (((length a =? 4) || (length a =? 16))%nat = true) as -> by (by destruct Ha as [-> | ->]).
  unfold bans. rewrite (slookup_view ip hash_any s k Hok).
  destruct (slookup ip hash_any k s) as [[p e]|] eqn:Hl; simpl; [|done].
  apply slookup_Some in Hl as [Hp Hke]. split; [done|]. intros _ Hf.
  set (e' := BanEntry (ip e) 0 (last_reset e) 0) in *. set (s1 := sset p e' s) in *.
  assert (ban_ok s1) as Hok1 by (by eapply sset_ok).
  assert (bans s1 !! k = Some e') as Hk1.
  { unfold bans. rewrite (view_insert ip hash_any s s1 p e' Hok Hok1 eq_refl) by (intros f Hfp; simpl; congruence).
    simpl. by rewrite Hke, lookup_insert_eq. }
  destruct (check_spec mem ok cfg now' now s1 addr k) as (s2 & -> & _ & Hdb); [done..|].
  exists s2. do 2 f_equal. destruct Hdb as [->|(_ & Hnone & _)]; [|congruence].
  rewrite lookup_insert_eq, Hk1. unfold verdict. rewrite bump_score.
  assert (points_of cfg now' (Some e') = 0) as -> by (simpl; unfold reset_score; by case_match).
  case_match; [done|]. rewrite (wrap_small 32 (_ + ban_points_connect cfg)) by lia.
  by destruct (Z.leb_spec (u32 (cfg_max_ban_score cfg)) (0 + ban_points_connect cfg)); [lia|].
Qed.

(** Cleaning up removes exactly the addresses whose ban has expired and
    whose score is due for a reset. *)
Theorem cleanup_removes_stale cfg now s :
  ban_ok s →
  ban_ok (cleanup_banned_entries cfg now s) ∧
  bans (cleanup_banned_entries cfg now s) =
    filter (λ ke, (expires ke.2 <=? now) && (last_reset ke.2 + ban_reset_time cfg <? now) = false) (bans s).
Proof.
  intros Hok. destruct (sweep_spec ip hash_any
    (λ e, (expires e <=? now) && (last_reset e + ban_reset_time cfg <? now)) s Hok) as [Hok' Ho].
  split; [done|]. exact (view_filter ip hash_any s _
    (λ e, (expires e <=? now) && (last_reset e + ban_reset_time cfg <? now) = false) Hok Hok' Ho).
Qed.
End ban_spec.

(** ** Witnesses *)
Module BanWitnesses.
#[local] Instance toy_env : SecModEnv := {|
  auth_ctx_t := unit; vhost_ctx_t := unit;
  hash_any l := foldr Z.add 0 l; sha1 l := l; base64_encode _ := "id"%string |}.

Definition config : ban_config := BanConfig 80 300 1200 1.
Definition peer (n : Z) : list Z := [2; 0; 0; 80; 10; 0; 0; n; 0; 0; 0; 0; 0; 0; 0; 0].
Definition none : store rtable ban_entry_st := main_ban_db_init.

(** 10.0.0.7 gets 100 points at the time 1000: it is banned until 1300. *)
Definition one : store rtable ban_entry_st :=
  (add_ip_to_ban_list (Some (heap 2)) true config 1000 none [10; 0; 0; 7] 100).2.
Definition the_entry : ban_entry_st := BanEntry [10; 0; 0; 7] 100 1000 1300.

Lemma none_ok : ban_ok none.
Proof. apply store_init_ok. Qed.

Lemma fresh_3 : fresh (Some (heap 3)) one.
Proof. by intros p [= <-]. Qed.

Lemma one_ok : ban_ok one.
Proof.
  pose proof (add_spec (Some (heap 2)) true config 1000 none [10; 0; 0; 7] 100 none_ok) as H.
  apply H; [by intros p [= <-]|by left|done].
Qed.

Lemma peer_key_7 : peer_key (peer 7) [10; 0; 0; 7].
Proof. by exists [10; 0; 0; 7]. Qed.

Lemma ban_add_refines_witness :
  let k := massage_ipv6_address [10; 0; 0; 7] in
  let e := bump config 1000 100 k (bans none !! k) in
  let '(r, s') := add_ip_to_ban_list (Some (heap 2)) true config 1000 none [10; 0; 0; 7] 100 in
  ban_ok s' ∧
  (bans s' = <[k:=e]> (bans none) ∧ r = (if over_limit config e then -1 else 0) ∨
   bans s' = bans none ∧ bans none !! k = None ∧ r = 0 ∧ (Some (heap 2) = None ∨ true = false)).
Proof.
  apply (ban_add_refines (Some (heap 2)) true config 1000 none [10; 0; 0; 7] 100);
    [apply none_ok|by intros p [= <-]|by left|done].
Defined.

(** A run between: the same peer is given more points. *)
Definition two : store rtable ban_entry_st :=
  (add_ip_to_ban_list (Some (heap 3)) true config 1100 one [10; 0; 0; 7] 10).2.

Lemma run_two : ban_run config 2000 (0 + 10) one two.
Proof. apply run_add; [constructor|apply fresh_3|lia|by left|lia]. Qed.

Lemma ban_is_enforced_witness :
  ∃ s'', check_if_banned (Some (heap 4)) true config 1200 1200 two (peer 7) = Ok (1, s'').
Proof.
  apply (ban_is_enforced config 2000 (0 + 10) one two [10; 0; 0; 7] the_entry);
    [done|apply one_ok|by vm_compute|by vm_compute|apply run_two|by vm_compute|by vm_compute|by vm_compute|
     by intros p [= <-]|apply peer_key_7|lia|by vm_compute].
Defined.

(** The reset of the score ends a ban before it expires: the first points at
    1000, the limit reached at 2190, the ban until 2490, and the address is
    accepted at 2205. *)
Example reset_lifts_ban :
  let a := [10; 0; 0; 7] in
  let s := (add_ip_to_ban_list (Some (heap 2)) true config 1000 none a 10).2 in
  let s := (add_ip_to_ban_list None true config 2190 s a 100).2 in
  (expires <$> bans s !! a, over_limit config <$> bans s !! a) = (Some 2490, Some true) ∧
  match check_if_banned None true config 2205 2205 s (peer 7) with Ok (r, _) => r = 0 | _ => False end.
Proof. split; vm_compute; reflexivity. Qed.

Lemma expired_ban_witness :
  ∃ s'', check_if_banned (Some (heap 4)) true config 1400 1400 two (peer 7) = Ok (0, s'').
Proof.
  apply (expired_ban_not_renewed config 2000 (0 + 10) one two [10; 0; 0; 7] the_entry);
    [done|apply one_ok|by vm_compute|by vm_compute|apply run_two|by vm_compute|by vm_compute|by vm_compute|
     by intros p [= <-]|apply peer_key_7|lia|by vm_compute].
Defined.

Lemma below_limit_witness :
  ∃ s', check_if_banned (Some (heap 3)) true config 1100 1100 one (peer 8) = Ok (0, s').
Proof.
  apply (below_limit_not_rejected (Some (heap 3)) true config 1100 1100 one (peer 8) [10; 0; 0; 8]);
    [apply one_ok|apply fresh_3|done|by exists [10; 0; 0; 8]|by vm_compute|by vm_compute|by vm_compute].
Defined.

Lemma unban_witness :
  let '(r, s1) := remove_ip_from_ban_list one [10; 0; 0; 7] in
  r = (if bool_decide (is_Some (bans one !! [10; 0; 0; 7])) then 1 else 0) ∧
  (r = 1 → fresh (Some (heap 3)) s1 →
   ∃ s2, check_if_banned (Some (heap 3)) true config 1100 1100 s1 (peer 7) = Ok (0, s2)).
Proof.
  apply (unban_takes_effect (Some (heap 3)) true config 1100 1100 one [10; 0; 0; 7] (peer 7) [10; 0; 0; 7]);
    [apply one_ok|by left|done|apply peer_key_7|done|by vm_compute].
Defined.

Lemma cleanup_witness :
  ban_ok (cleanup_banned_entries config 3000 one) ∧
  bans (cleanup_banned_entries config 3000 one) =
    filter (λ ke, (expires ke.2 <=? 3000) && (last_reset ke.2 + ban_reset_time config <? 3000) = false) (bans one).
Proof. apply (cleanup_removes_stale config 3000 one), one_ok. Defined.
End BanWitnesses.
