(* ===== verification/IpLease.v ===== *)
(** * Leases of IP addresses (src/ip-lease.c)

    The main process gives each client an IPv4 address and an IPv6 subnet of
    the configured networks and records them in a hash table.  Addresses are
    their 4 or 16 bytes; the family and the port of the socket addresses they
    are part of are constant. *)

From S2P Require Import Prelude CString Htable Store SecModData IpUtil Ban.

Definition ERR_MEM : Z := -6.
Definition ERR_NO_IP : Z := -8.
Definition MAX_IP_TRIES : nat := 16.
Definition FIXED_IPS : nat := 5.

(** [struct ip_lease_st]: [sig] identifies the lease; [lease_db] says whether
    [db] is set. *)
Record ip_lease_st := Lease {
  sig : list Z; rip : list Z; lip : list Z; prefix : Z; lease_db : bool }.

(** ** Bytewise operations *)
Definition band (a b : list Z) : list Z := zip_with Z.land a b.
Definition bor (a b : list Z) : list Z := zip_with Z.lor a b.
Definition bnot (a : list Z) : list Z := (λ x, u8 (Z.lnot x)) <$> a.

(** The address with the lowest bit of its last byte set. *)
Definition set_last_bit (a : list Z) : list Z :=
  match last a with
  | Some x => take (length a - 1) a ++ [Z.lor x 1]
  | None => a
  end.

(** The configuration of a client and what the main process knows of it. *)
Record lease_config := LeaseConfig {
  ipv4_net : option string; ipv4_netmask : option string; explicit_ipv4 : option string;
  ipv6_net : option string; ipv6_prefix : Z; ipv6_subnet_prefix : Z; explicit_ipv6 : option string;
  ipv4_seed : list Z }.

(** The answers of the system: memory for a lease, random bytes per attempt,
    whether the ping of an address finds it free, and the digest. *)
Record lease_ext := LeaseExt {
  lmem : option ptr; lmem6 : option ptr; lcalloc_ok : bool;
  lrnd : nat → list Z; free4 : list Z → bool; free6 : list Z → bool;
  lsha1 : list Z → list Z; lpton6 : string → option (list Z) }.

Definition ip_from_seed (x : lease_ext) (seed : list Z) (n : nat) : list Z := take n (lsha1 x seed).

Section lease.
Context {T : Type} `{HT : HTable T, Env : SecModEnv}.
Implicit Types (db : store T ip_lease_st) (x : lease_ext) (c : lease_config).

Definition ip_lease_exists db (a : list Z) : bool := bool_decide (is_Some (sget sig hash_any a db)).

(** ** IPv4 *)

Definition is_ipv4_ok db (a net mask : list Z) : bool :=
  let broadcast := bor net (bnot mask) in
  negb (ip_lease_exists db a || (memcmp a net =? 0) || (memcmp a broadcast =? 0)).

(** The bytes the [n]-th attempt starts from, counted down from
    [MAX_IP_TRIES]; [rnd] is what the attempt before left. *)
Definition seed4 x c (n : nat) (rnd : list Z) : list Z :=
  if (n =? MAX_IP_TRIES)%nat then ipv4_seed c
  else if (n <? MAX_IP_TRIES - FIXED_IPS)%nat then take 4 (lrnd x n)
  else ip_from_seed x rnd 4.

(** The loop of [get_ipv4_lease]; [n] is [max_loops]. *)
Fixpoint try_ipv4 x c db (net mask : list Z) (n : nat) (rnd : list Z) : option ip_lease_st :=
  match n with
  | O => None
  | S n' =>
    let rnd := bor (band (seed4 x c n rnd) (bnot mask)) net in
    if negb (is_ipv4_ok db rnd net mask) then try_ipv4 x c db net mask n' rnd else
    let lip := set_last_bit net in
    if memcmp lip rnd =? 0 then try_ipv4 x c db net mask n' rnd else
    if free4 x rnd then
      Some {| sig := rnd; rip := rnd; lip := lip; prefix := 0; lease_db := true |}
    else try_ipv4 x c db net mask n' rnd
  end.

Definition pton4 (s : string) : option (list Z) := octets <$> inet_pton4 s.

(** The code and the lease [proc->ipv4] points to. *)
Definition get_ipv4_lease x c db : Z * option ip_lease_st :=
  match ipv4_net c, ipv4_netmask c with
  | Some c_network, Some c_netmask =>
    match pton4 c_network, pton4 c_netmask with
    | Some network, Some mask =>
      let network := band network mask in
      match explicit_ipv4 c with
      | Some e =>
        match pton4 e with
        | None => (-1, None)
        | Some tmp =>
          match lmem x with
          | None => (ERR_MEM, None)
          | Some _ =>
            if negb (is_ipv4_ok db tmp network mask) then (ERR_NO_IP, None) else
            let lip := set_last_bit network in
            if memcmp lip tmp =? 0 then (ERR_NO_IP, None)
            else (0, Some {| sig := tmp; rip := tmp; lip := lip; prefix := 0; lease_db := false |})
          end
        end
      | None =>
        match lmem x with
        | None => (ERR_MEM, None)
        | Some _ =>
          match try_ipv4 x c db network mask MAX_IP_TRIES [0; 0; 0; 0] with
          | Some l => (0, Some l)
          | None => (ERR_NO_IP, None)
          end
        end
      end
    | _, _ => (-1, None)
    end
  | _, _ => (0, None)
  end.

(** ** IPv6 *)

Definition is_ipv6_ok db (net subnet : list Z) : bool :=
  negb ((memcmp subnet net =? 0) || ip_lease_exists db subnet).

(** The bytes of [rnd] after [memset] and one of the three ways to fill it:
    the random bytes are written from the place of an IPv4 address on, four
    bytes before the IPv6 address. *)
Definition seed6 x c (n : nat) : list Z :=
  if (n =? MAX_IP_TRIES)%nat then ip_from_seed x (ipv4_seed c) 16
  else if (n <? MAX_IP_TRIES - FIXED_IPS)%nat then drop 4 (take 16 (lrnd x n)) ++ [0; 0; 0; 0]
  else ip_from_seed x (replicate 16 0) 16.

(** The loop of [get_ipv6_lease]; [prefix] is the field of the lease, which is
    zero until the loop is left. *)
Fixpoint try_ipv6 x c db (net mask subnet_mask : list Z) (n : nat) : option (list Z * list Z) :=
  match n with
  | O => None
  | S n' =>
    let rnd := bor (band (seed6 x c n) (bnot mask)) net in
    let sig := band rnd subnet_mask in
    if negb (is_ipv6_ok db net sig) then try_ipv6 x c db net mask subnet_mask n' else
    let prefix := 0 in
    if negb (prefix =? 128) || free6 x rnd then Some (sig, rnd)
    else try_ipv6 x c db net mask subnet_mask n'
  end.

Definition get_ipv6_lease x c db : Z * option ip_lease_st :=
  match ipv6_net c with
  | None => (0, None)
  | Some c_network =>
    if (ipv6_prefix c =? 0) || (ipv6_subnet_prefix c =? 0) then (0, None) else
    match ipv6_prefix_to_mask (ipv6_prefix c), ipv6_prefix_to_mask (ipv6_subnet_prefix c),
          lpton6 x c_network with
    | Some mask, Some subnet_mask, Some network =>
      let network := band network mask in
      let finish (found : list Z * list Z) (in_db : bool) :=
        {| sig := found.1; rip := found.2; lip := set_last_bit network;
           prefix := ipv6_subnet_prefix c; lease_db := in_db |} in
      match explicit_ipv6 c with
      | Some e =>
        match lpton6 x e with
        | None => (-1, None)
        | Some tmp =>
          match lmem6 x with
          | None => (ERR_MEM, None)
          | Some _ =>
            let sig := band tmp subnet_mask in
            if negb (is_ipv6_ok db network sig) then (ERR_NO_IP, None)
            else (0, Some (finish (sig, tmp) false))
          end
        end
      | None =>
        match lmem6 x with
        | None => (ERR_MEM, None)
        | Some _ =>
          match try_ipv6 x c db network mask subnet_mask MAX_IP_TRIES with
          | Some found => (0, Some (finish found true))
          | None => (ERR_NO_IP, None)
          end
        end
      end
    | _, _, _ => (-1, None)
    end
  end.

(** ** The leases of a client *)

(** A lease a client holds: with the pointer to it in the table when it is
    recorded there. *)
Record held := Held { recorded : option ptr; lease : ip_lease_st }.

(** The [ipv4] and [ipv6] of [struct proc_st]. *)
Record proc_leases := ProcLeases { ipv4 : option held; ipv6 : option held }.

(** A lease just obtained is recorded if its [db] is set; [None] if the table
    cannot grow. *)
Definition record_lease x (p : option ptr) (l : ip_lease_st) db
    : option held * store T ip_lease_st :=
  match p with
  | Some p =>
    if lease_db l then
      let '(b, db) := sadd sig hash_any (lcalloc_ok x) p l db in
      (if b then Some (Held (Some p) l) else None, db)
    else (Some (Held None l), db)
  | None => (Some (Held None l), db)
  end.

(** The IPv4 or the IPv6 lease of a client. *)
Definition slot (v4 : bool) (proc : proc_leases) : option held :=
  if v4 then ipv4 proc else ipv6 proc.
Definition set_slot (v4 : bool) (o : option held) (proc : proc_leases) : proc_leases :=
  if v4 then ProcLeases o (ipv6 proc) else ProcLeases (ipv4 proc) o.

(** The two parts of [get_ip_leases], which differ in the family only. *)
Definition obtain x c (v4 : bool) db (proc : proc_leases)
    : Z * store T ip_lease_st * proc_leases :=
  match slot v4 proc with
  | Some _ => (0, db, proc)
  | None =>
    let '(ret, o) := if v4 then get_ipv4_lease x c db else get_ipv6_lease x c db in
    if ret <? 0 then (ret, db, proc) else
    match o with
    | None => (0, db, proc)
    | Some l =>
      let '(h, db) := record_lease x (if v4 then lmem x else lmem6 x) l db in
      (if bool_decide (is_Some h) then 0 else -1, db,
       set_slot v4 (Some (default (Held None l) h)) proc)
    end
  end.

Definition get_ip_leases x c db (proc : proc_leases)
    : Z * store T ip_lease_st * proc_leases :=
  let '(ret, db, proc) := obtain x c true db proc in
  if ret <? 0 then (ret, db, proc) else
  let '(ret, db, proc) := obtain x c false db proc in
  if ret <? 0 then (ret, db, proc) else
  match ipv4 proc, ipv6 proc with
  | None, None => (-1, db, proc)
  | _, _ => (0, db, proc)
  end.

(** Freeing a lease runs [unref_ip_lease] if it is recorded. *)
Definition unref_ip_lease (h : held) db : store T ip_lease_st :=
  match recorded h with
  | Some p => sdel sig hash_any p db
  | None => db
  end.

Definition remove_ip_leases db (proc : proc_leases) : store T ip_lease_st * proc_leases :=
  let db := match ipv4 proc with Some h => unref_ip_lease h db | None => db end in
  let db := match ipv6 proc with Some h => unref_ip_lease h db | None => db end in
  (db, ProcLeases None None).

(** [talloc_move] of both leases. *)
Definition steal_ip_leases (proc thief : proc_leases) : proc_leases * proc_leases :=
  (ProcLeases None None, proc).
End lease.

(** ** Bytes *)

Lemma byte_bits (a b : Z) :
  0 ≤ a < 256 → 0 ≤ b < 256 → (∀ i, 0 ≤ i < 8 → Z.testbit a i = Z.testbit b i) → a = b.
Proof.
  intros Ha Hb Hi. apply Z.bits_inj'. intros i Hi0. destruct (Z.lt_ge_cases i 8); [by apply Hi|].
  by rewrite !testbit_byte.
Qed.

Lemma land_byte a b : 0 ≤ a < 256 → 0 ≤ Z.land a b < 256.
Proof.
  intros Ha. assert (Z.land a b = wrap 8 (Z.land a b)) as ->.
  { apply Z.bits_inj'. intros i Hi. rewrite wrap_testbit, Z.land_spec by lia.
    destruct (Z.ltb_spec i 8); [done|]. by rewrite (testbit_byte a). }
  by apply wrap_range.
Qed.

Lemma lor_byte a b : 0 ≤ a < 256 → 0 ≤ b < 256 → 0 ≤ Z.lor a b < 256.
Proof.
  intros Ha Hb. assert (Z.lor a b = wrap 8 (Z.lor a b)) as ->.
  { apply Z.bits_inj'. intros i Hi. rewrite wrap_testbit, Z.lor_spec by lia.
    destruct (Z.ltb_spec i 8); [done|]. by rewrite !testbit_byte by lia. }
  by apply wrap_range.
Qed.

(** A byte taken from outside a mask and put into a network stays in it. *)
Lemma mask_byte_net s n m :
  0 ≤ s < 256 → 0 ≤ n < 256 → 0 ≤ m < 256 → Z.land n m = n →
  Z.land (Z.lor (Z.land s (u8 (Z.lnot m))) n) m = n.
Proof.
  intros Hs Hn Hm Hnm. apply byte_bits.
  - rewrite Z.land_comm. by apply land_byte.
  - done.
  - intros i Hi. rewrite <- Hnm at 2. rewrite !Z.land_spec, Z.lor_spec, Z.land_spec, wrap_testbit by lia.
    rewrite (proj2 (Z.ltb_lt i 8)) by lia. rewrite Z.lnot_spec by lia.
    by destruct (Z.testbit s i), (Z.testbit n i), (Z.testbit m i).
Qed.

Lemma bnot_length a : length (bnot a) = length a.
Proof. apply length_fmap. Qed.

Lemma band_length a b : length a = length b → length (band a b) = length a.
Proof. intros. unfold band. rewrite length_zip_with. lia. Qed.

Lemma bor_length a b : length a = length b → length (bor a b) = length a.
Proof. intros. unfold bor. rewrite length_zip_with. lia. Qed.

Lemma band_net s n m :
  length s = length m → length n = length m → bytes s → bytes n → bytes m → band n m = n →
  band (bor (band s (bnot m)) n) m = n.
Proof.
  revert s n. induction m as [|y m IH]; intros [|a s] [|b n] Hls Hln Hs Hn Hm Hnm;
    simpl in *; try done.
  apply bytes_cons in Hs as [? ?], Hn as [? ?], Hm as [? ?]. injection Hnm as Hb Hnm.
  unfold band, bor, bnot in *. simpl. f_equal; [by apply mask_byte_net|]. apply IH; try done; lia.
Qed.

Lemma band_idemp n m : length n = length m → band (band n m) m = band n m.
Proof.
  revert n. induction m as [|y m IH]; intros [|b n] Hl; simpl in *; try done.
  unfold band in *. simpl. f_equal; [|apply IH; lia].
  by rewrite <- Z.land_assoc, Z.land_diag.
Qed.

Lemma band_bytes a b : bytes a → bytes (band a b).
Proof.
  revert b. induction a as [|x a IH]; intros [|y b] Ha; try constructor.
  - apply bytes_cons in Ha as [? ?]. by apply land_byte.
  - apply bytes_cons in Ha as [? ?]. by apply IH.
Qed.

Lemma octets_bytes a : bytes (octets a) ∧ length (octets a) = 4%nat.
Proof.
  split; [|done]. repeat constructor; unfold octet; rewrite Z.land_comm; apply land_byte; lia.
Qed.

Section lease_spec.
Context {T : Type} `{HT : HTable T, HS : !HTableSpec T, Env : SecModEnv}.
Implicit Types (db : store T ip_lease_st) (x : lease_ext) (c : lease_config).

(** What the code outside promises: 16 random bytes, a digest of 20 bytes, an
    IPv6 address of 16 bytes; the seed of a client has 4 bytes. *)
Record lease_ext_ok x c : Prop := {
  lx_rnd n : length (lrnd x n) = 16%nat ∧ bytes (lrnd x n);
  lx_sha1 l : length (lsha1 x l) = 20%nat ∧ bytes (lsha1 x l);
  lx_pton6 t a : lpton6 x t = Some a → length a = 16%nat ∧ bytes a;
  lx_seed : length (ipv4_seed c) = 4%nat ∧ bytes (ipv4_seed c);
}.

Lemma bytes_take n l : bytes l → bytes (take n l).
Proof. apply Forall_take. Qed.

Lemma seed4_ok x c n rnd :
  lease_ext_ok x c → length (seed4 x c n rnd) = 4%nat ∧ bytes (seed4 x c n rnd).
Proof.
  intros Hx. unfold seed4, ip_from_seed. case_match; [by apply (lx_seed _ _ Hx)|].
  case_match; rewrite length_take.
  - destruct (lx_rnd _ _ Hx n) as [-> ?]. split; [done|]. by apply bytes_take.
  - destruct (lx_sha1 _ _ Hx rnd) as [-> ?]. split; [done|]. by apply bytes_take.
Qed.

Lemma seed6_ok x c n : lease_ext_ok x c → length (seed6 x c n) = 16%nat ∧ bytes (seed6 x c n).
Proof.
  intros Hx. unfold seed6, ip_from_seed. case_match; [|case_match].
  - rewrite length_take. destruct (lx_sha1 _ _ Hx (ipv4_seed c)) as [-> ?].
    split; [done|]. by apply bytes_take.
  - destruct (lx_rnd _ _ Hx n) as [Hl Hb]. rewrite length_app, length_drop, length_take, Hl.
    split; [done|]. apply bytes_app. split; [|repeat constructor; lia].
    apply Forall_drop. by apply bytes_take.
  - rewrite length_take. destruct (lx_sha1 _ _ Hx (replicate 16 0)) as [-> ?].
    split; [done|]. by apply bytes_take.
Qed.

Lemma ip_lease_exists_false db a : ip_lease_exists db a = false ↔ sget sig hash_any a db = None.
Proof.
  unfold ip_lease_exists. rewrite bool_decide_eq_false. destruct (sget _ _ _ _).
  - split; [|done]. intros []. by eexists.
  - split; [done|]. by intros _ [].
Qed.

Lemma is_ipv4_ok_true db a net mask :
  length a = 4%nat → length net = 4%nat → length mask = 4%nat →
  is_ipv4_ok db a net mask = true ↔
    sget sig hash_any a db = None ∧ a ≠ net ∧ a ≠ bor net (bnot mask).
Proof.
  intros Ha Hn Hm. unfold is_ipv4_ok. cbv zeta. rewrite negb_true_iff, !orb_false_iff.
  rewrite ip_lease_exists_false, !Z.eqb_neq, !memcmp_eq; [tauto| |lia].
  rewrite bor_length; rewrite ?bnot_length; lia.
Qed.

(** A lease the random search for an IPv4 address ends with. *)
Record lease4_ok x db (net mask : list Z) (l : ip_lease_st) : Prop := {
  l4_len : length (rip l) = 4%nat;
  l4_sig : sig l = rip l;
  l4_net : band (rip l) mask = net;
  l4_not_net : rip l ≠ net;
  l4_not_bcast : rip l ≠ bor net (bnot mask);
  l4_not_lip : rip l ≠ lip l;
  l4_new : sget sig hash_any (sig l) db = None;
  l4_free : free4 x (rip l) = true;
  l4_db : lease_db l = true;
}.

Lemma set_last_bit_length a : length (set_last_bit a) = length a.
Proof.
  unfold set_last_bit. destruct (last a) as [z|] eqn:Hl; [|done].
  assert (length a ≠ 0%nat) by (by destruct a). rewrite length_app, length_take. simpl. lia.
Qed.

Lemma try_ipv4_ok x c db net mask n rnd l :
  lease_ext_ok x c → length net = 4%nat → length mask = 4%nat → bytes net → bytes mask →
  band net mask = net → try_ipv4 x c db net mask n rnd = Some l → lease4_ok x db net mask l.
Proof.
  intros Hx Hln Hlm Hn Hm Hnm. revert rnd. induction n as [|n IH]; intros rnd; [done|].
  cbn [try_ipv4]. cbv zeta. destruct (seed4_ok x c (S n) rnd Hx) as [Hls Hbs].
  set (r := bor (band (seed4 x c (S n) rnd) (bnot mask)) net).
  assert (length r = 4%nat) as Hlr.
  { unfold r. rewrite bor_length; rewrite band_length; rewrite ?bnot_length; lia. }
  destruct (is_ipv4_ok db r net mask) eqn:Hok; cbn [negb]; [|apply IH].
  apply is_ipv4_ok_true in Hok as (Hnew & Hne & Hnb); [|done..].
  destruct (Z.eqb_spec (memcmp (set_last_bit net) r) 0) as [|Hlip]; [apply IH|].
  destruct (free4 x r) eqn:Hf; [|apply IH]. intros [= <-]. split; simpl; try done.
  - apply band_net; rewrite ?Hls; (done || lia).
  - intros E. apply Hlip, memcmp_eq; [rewrite set_last_bit_length; lia|done].
Qed.

Lemma pton4_ok t a : pton4 t = Some a → length a = 4%nat ∧ bytes a.
Proof.
  unfold pton4. intros (z & _ & ->)%fmap_Some. destruct (octets_bytes z). done.
Qed.

(** ** IPv6 *)

Lemma mask_bytes_bytes n i : bytes (mask_bytes n i).
Proof.
  revert i. induction n as [|n IH]; intros i; [constructor|]. constructor; [|apply IH].
  repeat case_match; [lia|lia|]. by apply wrap_range.
Qed.

Lemma ipv6_mask_ok p m : ipv6_prefix_to_mask p = Some m → length m = 16%nat ∧ bytes m.
Proof.
  unfold ipv6_prefix_to_mask. destruct (_ || _); [done|]. intros H. apply (inj Some) in H as <-.
  split; [apply mask_bytes_length|apply mask_bytes_bytes].
Qed.

(** A subnet the search for an IPv6 address ends with. *)
Record found6_ok db (net mask subnet_mask s r : list Z) : Prop := {
  f6_len : length r = 16%nat;
  f6_sig : s = band r subnet_mask;
  f6_net : band r mask = net;
  f6_not_net : s ≠ net;
  f6_new : sget sig hash_any s db = None;
}.

Lemma is_ipv6_ok_true db net s :
  length s = length net → is_ipv6_ok db net s = true ↔ s ≠ net ∧ sget sig hash_any s db = None.
Proof.
  intros Hl. unfold is_ipv6_ok. rewrite negb_true_iff, orb_false_iff, ip_lease_exists_false.
  by rewrite Z.eqb_neq, memcmp_eq.
Qed.

Lemma try_ipv6_ok x c db net mask subnet_mask n s r :
  lease_ext_ok x c → length net = 16%nat → length mask = 16%nat → length subnet_mask = 16%nat →
  bytes net → bytes mask → band net mask = net →
  try_ipv6 x c db net mask subnet_mask n = Some (s, r) → found6_ok db net mask subnet_mask s r.
Proof.
  intros Hx Hln Hlm Hls Hn Hm Hnm. induction n as [|n IH]; [done|].
  cbn [try_ipv6]. cbv zeta. destruct (seed6_ok x c (S n) Hx) as [Hlr Hbr].
  set (r0 := bor (band (seed6 x c (S n)) (bnot mask)) net).
  assert (length r0 = 16%nat) as Hl0.
  { unfold r0. rewrite bor_length; rewrite band_length; rewrite ?bnot_length; lia. }
  destruct (is_ipv6_ok db net (band r0 subnet_mask)) eqn:Hok; cbn [negb]; [|apply IH].
  apply is_ipv6_ok_true in Hok as [Hne Hnew]; [|rewrite band_length; lia].
  case_match; [|apply IH]. intros [= <- <-]. split; try done. apply band_net; (done || lia).
Qed.
End lease_spec.

Section get_spec.
Context {T : Type} `{HT : HTable T, HS : !HTableSpec T, Env : SecModEnv}.
Implicit Types (db : store T ip_lease_st) (x : lease_ext) (c : lease_config).

(** A lease is new, and has the size of its family. *)
Definition addr_len (v4 : bool) : nat := if v4 then 4 else 16.

Lemma get_ipv4_lease_new x c db ret l :
  lease_ext_ok x c → get_ipv4_lease x c db = (ret, Some l) →
  sget sig hash_any (sig l) db = None ∧ length (sig l) = 4%nat.
Proof.
  intros Hx. unfold get_ipv4_lease.
  destruct (ipv4_net c) as [tn|]; [|done]. destruct (ipv4_netmask c) as [tm|]; [|done].
  destruct (pton4 tn) as [n|] eqn:Hn; [|done]. destruct (pton4 tm) as [m|] eqn:Hm; [|done].
  apply pton4_ok in Hn as [Hln Hbn], Hm as [Hlm Hbm]. cbv zeta.
  destruct (explicit_ipv4 c) as [te|]; [destruct (pton4 te) as [a|] eqn:Ha; [|done]|];
    (destruct (lmem x); [|done]).
  - apply pton4_ok in Ha as [Hla _]. destruct (negb _) eqn:Hok; [done|].
    destruct (memcmp _ _ =? 0); [done|]. intros [= <- <-]. simpl.
    apply negb_false_iff, is_ipv4_ok_true in Hok as [? _]; [done|done|rewrite band_length; lia|done].
  - destruct (try_ipv4 _ _ _ _ _ _ _) as [l'|] eqn:Ht; [|done]. intros [= <- <-].
    apply try_ipv4_ok in Ht; [by destruct Ht as [? -> ? ? ? ? ?]|done|rewrite band_length; lia|done|
      by apply band_bytes|done|apply band_idemp; lia].
Qed.

Lemma get_ipv6_lease_new x c db ret l :
  lease_ext_ok x c → get_ipv6_lease x c db = (ret, Some l) →
  sget sig hash_any (sig l) db = None ∧ length (sig l) = 16%nat.
Proof.
  intros Hx. unfold get_ipv6_lease. destruct (ipv6_net c) as [tn|]; [|done].
  destruct (_ || _); [done|].
  destruct (ipv6_prefix_to_mask (ipv6_prefix c)) as [m|] eqn:Hm; [|done].
  destruct (ipv6_prefix_to_mask (ipv6_subnet_prefix c)) as [sm|] eqn:Hsm; [|done].
  destruct (lpton6 x tn) as [n|] eqn:Hn; [|done].
  apply ipv6_mask_ok in Hm as [Hlm Hbm], Hsm as [Hls Hbs].
  apply (lx_pton6 _ _ Hx) in Hn as [Hln Hbn]. cbv zeta.
  destruct (explicit_ipv6 c) as [te|]; [destruct (lpton6 x te) as [a|] eqn:Ha; [|done]|];
    (destruct (lmem6 x); [|done]).
  - apply (lx_pton6 _ _ Hx) in Ha as [Hla _]. destruct (negb _) eqn:Hok; [done|].
    intros [= <- <-]. cbn [sig fst].
    apply negb_false_iff, is_ipv6_ok_true in Hok as [_ ?]; [|rewrite !band_length; lia].
    split; [done|]. rewrite band_length; lia.
  - destruct (try_ipv6 _ _ _ _ _ _ _) as [[s r]|] eqn:Ht; [|done]. intros [= <- <-]. cbn [sig fst].
    apply try_ipv6_ok in Ht as [? -> ? ? ?]; [|done|rewrite band_length; lia|done|done|
      by apply band_bytes|done|apply band_idemp; lia].
    split; [done|]. rewrite band_length; lia.
Qed.
End get_spec.

(** ** All clients together *)

Section world.
Context {T : Type} `{HT : HTable T, HS : !HTableSpec T, Env : SecModEnv}.
Implicit Types (db : store T ip_lease_st) (x : lease_ext) (c : lease_config) (h : held).
Implicit Types (procs : gmap ptr proc_leases) (proc : proc_leases).

(** Client [i] holds the lease [l], recorded at [p]. *)
Definition holds procs (i : ptr) (v4 : bool) (p : ptr) (l : ip_lease_st) : Prop :=
  ∃ proc h, procs !! i = Some proc ∧ slot v4 proc = Some h ∧ recorded h = Some p ∧ lease h = l.

Record lease_inv db procs : Prop := {
  li_ok : store_ok sig hash_any db;
  li_rec i v4 p l : holds procs i v4 p l → objs db !! p = Some l ∧ length (sig l) = addr_len v4;
  li_owner i j v4 v4' p l l' :
    holds procs i v4 p l → holds procs j v4' p l' → i = j ∧ v4 = v4';
}.

Lemma holds_set procs i v4 o proc j v4' p l :
  procs !! i = Some proc →
  holds (<[i:=set_slot v4 o proc]> procs) j v4' p l ↔
    if decide (i = j ∧ v4 = v4') then ∃ h, o = Some h ∧ recorded h = Some p ∧ lease h = l
    else holds procs j v4' p l.
Proof.
  intros Hi. unfold holds. destruct (decide (i = j)) as [<-|Hne].
  - setoid_rewrite lookup_insert_eq. destruct (decide (v4 = v4')) as [<-|Hv].
    + rewrite decide_True by done. split.
      * intros (q & h & [= <-] & Hs & ?). exists h. by destruct v4.
      * intros (h & -> & ?). exists (set_slot v4 (Some h) proc), h. by destruct v4.
    + rewrite decide_False by tauto. split.
      * intros (q & h & [= <-] & Hs & ?). exists proc, h. by destruct v4, v4'.
      * intros (q & h & Hq & Hs & ?). assert (q = proc) as -> by congruence. exists (set_slot v4 o proc), h. by destruct v4, v4'.
  - rewrite decide_False by tauto. by setoid_rewrite lookup_insert_ne.
Qed.

(** A client without a lease is given a new one. *)
Lemma record_inv x p l db procs i proc v4 :
  lease_inv db procs → procs !! i = Some proc → slot v4 proc = None →
  (∀ q, p = Some q → ptr_ok q ∧ objs db !! q = None) →
  sget sig hash_any (sig l) db = None → length (sig l) = addr_len v4 →
  let '(o, db') := record_lease x p l db in
  lease_inv db' (<[i:=set_slot v4 (Some (default (Held None l) o)) proc]> procs).
Proof.
  intros Hinv Hi Hslot Hfresh Hnew Hlen. unfold record_lease.
  assert (∀ h, recorded h = None →
    lease_inv db (<[i:=set_slot v4 (Some h) proc]> procs)) as Hsame.
  { intros h Hh. assert (∀ j v4' q l', holds (<[i:=set_slot v4 (Some h) proc]> procs) j v4' q l' →
      holds procs j v4' q l') as Hweak.
    { intros j v4' q l' Hj%(holds_set procs i v4); [|done]. case_decide; [|done].
      destruct Hj as (h' & [= <-] & ? & _). congruence. }
    split; [apply Hinv|intros; eapply (li_rec _ _ Hinv); eauto|intros; eapply (li_owner _ _ Hinv); eauto]. }
  destruct p as [p|]; [|by apply Hsame]. destruct (lease_db l); [|by apply Hsame].
  destruct (Hfresh p eq_refl) as [Hp Hpn].
  pose proof (sadd_spec sig hash_any (lcalloc_ok x) p l db (li_ok _ _ Hinv) Hp Hpn Hnew) as Hadd.
  destruct (sadd _ _ _ _ _ _) as [b db']. destruct Hadd as (Hok & _ & Ho). destruct b; simpl.
  - assert (∀ j v4' q l', holds (<[i:=set_slot v4 (Some (Held (Some p) l)) proc]> procs) j v4' q l' →
      (i = j ∧ v4 = v4' ∧ q = p ∧ l' = l) ∨ (holds procs j v4' q l' ∧ q ≠ p)) as Hcase.
    { intros j v4' q l' Hj%(holds_set procs i v4); [|done]. case_decide as Hd.
      - left. destruct Hj as (h' & [= <-] & [= <-] & <-). naive_solver.
      - right. split; [done|]. intros ->. apply (li_rec _ _ Hinv) in Hj as [? _]. congruence. }
    split; [done| |].
    + intros j v4' q l' [(-> & <- & -> & ->)|[Hj Hne]]%Hcase; rewrite Ho.
      * by rewrite lookup_insert_eq.
      * rewrite lookup_insert_ne by done. by apply (li_rec _ _ Hinv) in Hj.
    + intros j j' v v' q l1 l2 H1%Hcase H2%Hcase.
      destruct H1 as [(-> & <- & -> & ->)|[H1 Hn1]], H2 as [(-> & <- & ? & ->)|[H2 Hn2]]; try done.
      by eapply (li_owner _ _ Hinv).
  - assert (objs db' = objs db) as Ho' by done. specialize (Hsame (Held None l) eq_refl).
    split; [done| |apply Hsame]. intros j v4' q l' Hj. rewrite Ho'. by apply (li_rec _ _ Hsame) in Hj.
Qed.

(** A lease is freed. *)
Lemma unref_inv db procs i proc v4 h :
  lease_inv db procs → procs !! i = Some proc → slot v4 proc = Some h →
  lease_inv (unref_ip_lease h db) (<[i:=set_slot v4 None proc]> procs).
Proof.
  intros Hinv Hi Hs.
  assert (∀ j v4' q l', holds (<[i:=set_slot v4 None proc]> procs) j v4' q l' →
    holds procs j v4' q l' ∧ ¬ (i = j ∧ v4 = v4')) as Hweak.
  { intros j v4' q l' Hj%(holds_set procs i v4); [|done]. case_decide; [|done].
    by destruct Hj as (h' & [=] & _). }
  unfold unref_ip_lease. destruct (recorded h) as [p|] eqn:Hr.
  - assert (holds procs i v4 p (lease h)) as Hh by (by exists proc, h).
    destruct (li_rec _ _ Hinv _ _ _ _ Hh) as [Hp _].
    split; [apply sdel_ok; [apply Hinv|by eexists]| |].
    + intros j v4' q l' [Hj Hne]%Hweak. simpl.
      rewrite lookup_delete_ne; [by apply (li_rec _ _ Hinv) in Hj|].
      intros <-. apply Hne. by eapply (li_owner _ _ Hinv).
    + intros j j' v v' q l1 l2 [H1 _]%Hweak [H2 _]%Hweak. by eapply (li_owner _ _ Hinv).
  - split; [apply Hinv| |].
    + intros j v4' q l' [Hj _]%Hweak. by apply (li_rec _ _ Hinv) in Hj.
    + intros j j' v v' q l1 l2 [H1 _]%Hweak [H2 _]%Hweak. by eapply (li_owner _ _ Hinv).
Qed.

Lemma lease_inv_sub db procs procs' :
  lease_inv db procs → (∀ i v4 p l, holds procs' i v4 p l → holds procs i v4 p l) →
  lease_inv db procs'.
Proof.
  intros Hinv Hsub. split; [apply Hinv|intros; eapply (li_rec _ _ Hinv); eauto|
    intros; eapply (li_owner _ _ Hinv); eauto].
Qed.

(** The leases of a client move to another one that has none. *)
Lemma steal_inv db procs i j proc thief :
  lease_inv db procs → i ≠ j → procs !! i = Some proc → procs !! j = Some thief →
  ipv4 thief = None → ipv6 thief = None →
  let '(proc', thief') := steal_ip_leases proc thief in
  lease_inv db (<[i:=proc']> (<[j:=thief']> procs)).
Proof.
  intros Hinv Hne Hi Hj H4 H6. simpl.
  set (procs' := <[i:=ProcLeases None None]> (<[j:=proc]> procs)).
  (* a lease held afterwards was held before by [i] where it is now held by [j] *)
  assert (∀ k v4 p l, holds procs' k v4 p l →
    k ≠ i ∧ holds procs (if decide (k = j) then i else k) v4 p l) as Hback.
  { intros k v4 p l (q & h & Hk & Hs & Hr). unfold procs' in Hk.
    destruct (decide (k = i)) as [->|Hki].
    - rewrite lookup_insert_eq in Hk. simplify_eq. by destruct v4.
    - rewrite lookup_insert_ne in Hk by done. split; [done|]. case_decide as Hkj; [subst k|].
      + rewrite lookup_insert_eq in Hk. simplify_eq. by exists q, h.
      + rewrite lookup_insert_ne in Hk by done. by exists q, h. }
  split; [apply Hinv| |].
  - intros k v4 p l [_ Hk]%Hback. by apply (li_rec _ _ Hinv) in Hk.
  - intros k k' v v' p l l' [Hki H1]%Hback [Hki' H2]%Hback.
    destruct (li_owner _ _ Hinv _ _ _ _ _ _ _ H1 H2) as [Hkk <-]. split; [|done].
    repeat case_decide; congruence.
Qed.

(** ** Steps *)

(** Memory for leases is new. *)
Definition lease_fresh x db : Prop :=
  (∀ q, lmem x = Some q → ptr_ok q ∧ objs db !! q = None) ∧
  (∀ q, lmem6 x = Some q → ptr_ok q ∧ objs db !! q = None) ∧
  (∀ q, lmem x = Some q → lmem6 x ≠ Some q).

Lemma record_objs x p l db q :
  ptr_ok p → objs db !! p = None → store_ok sig hash_any db → sget sig hash_any (sig l) db = None →
  q ≠ p → objs (record_lease x (Some p) l db).2 !! q = objs db !! q.
Proof.
  intros Hp Hpn Hok Hnew Hne. unfold record_lease. destruct (lease_db l); [|done].
  pose proof (sadd_spec sig hash_any (lcalloc_ok x) p l db Hok Hp Hpn Hnew) as Hadd.
  destruct (sadd _ _ _ _ _ _) as [b db']. destruct Hadd as (_ & _ & Ho). simpl. rewrite Ho.
  destruct b; [by rewrite lookup_insert_ne|done].
Qed.

Lemma obtain_inv x c (v4 : bool) db procs i proc :
  lease_inv db procs → procs !! i = Some proc → lease_ext_ok x c →
  (∀ q, (if v4 then lmem x else lmem6 x) = Some q → ptr_ok q ∧ objs db !! q = None) →
  let '(ret, db', proc') := obtain x c v4 db proc in
  lease_inv db' (<[i:=proc']> procs) ∧
  (∀ q, (if v4 then lmem x else lmem6 x) ≠ Some q → objs db' !! q = objs db !! q).
Proof.
  intros Hinv Hi Hx Hf. unfold obtain.
  assert (lease_inv db (<[i:=proc]> procs)) as Hid by (by rewrite insert_id).
  destruct (slot v4 proc) as [h|] eqn:Hs; [by split|].
  destruct (if v4 then get_ipv4_lease x c db else get_ipv6_lease x c db) as [ret o] eqn:Hg.
  destruct (ret <? 0); [by split|]. destruct o as [l|]; [|by split].
  assert (sget sig hash_any (sig l) db = None ∧ length (sig l) = addr_len v4) as [Hnew Hlen].
  { destruct v4; [by eapply get_ipv4_lease_new|by eapply get_ipv6_lease_new]. }
  pose proof (record_inv x (if v4 then lmem x else lmem6 x) l db procs i proc v4 Hinv Hi Hs Hf Hnew Hlen)
    as Hrec.
  assert (∀ q, (if v4 then lmem x else lmem6 x) ≠ Some q →
    objs (record_lease x (if v4 then lmem x else lmem6 x) l db).2 !! q = objs db !! q) as Hobj.
  { intros q Hq. destruct (if v4 then lmem x else lmem6 x) as [p|]; [|done].
    destruct (Hf p eq_refl). apply record_objs; [done..|apply Hinv|done|congruence]. }
  destruct (record_lease _ _ _ _) as [h db']. by split.
Qed.

Lemma get_ip_leases_inv x c db procs i proc :
  lease_inv db procs → procs !! i = Some proc → lease_ext_ok x c → lease_fresh x db →
  let '(ret, db', proc') := get_ip_leases x c db proc in lease_inv db' (<[i:=proc']> procs).
Proof.
  intros Hinv Hi Hx (Hf4 & Hf6 & Hf). unfold get_ip_leases.
  pose proof (obtain_inv x c true db procs i proc Hinv Hi Hx Hf4) as H1.
  destruct (obtain x c true db proc) as [[r1 db1] proc1]. destruct H1 as [Hinv1 Hobj].
  destruct (r1 <? 0); [done|].
  pose proof (obtain_inv x c false db1 (<[i:=proc1]> procs) i proc1 Hinv1) as H2.
  destruct (obtain x c false db1 proc1) as [[r2 db2] proc2].
  rewrite insert_insert_eq in H2. destruct H2 as [Hinv2 _]; [apply lookup_insert_eq|done| |].
  - intros q Hq. destruct (Hf6 q Hq). split; [done|]. rewrite Hobj; [done|].
    intros Hq'. by apply (Hf q Hq').
  - destruct (r2 <? 0); [done|]. by destruct (ipv4 proc2), (ipv6 proc2).
Qed.

Lemma remove_ip_leases_inv db procs i proc :
  lease_inv db procs → procs !! i = Some proc →
  let '(db', proc') := remove_ip_leases db proc in lease_inv db' (<[i:=proc']> procs).
Proof.
  intros Hinv Hi. unfold remove_ip_leases. destruct proc as [o4 o6]. cbn [ipv4 ipv6].
  assert (∃ db1, match o4 with Some h => unref_ip_lease h db | None => db end = db1 ∧
    lease_inv db1 (<[i:=ProcLeases None o6]> procs)) as (db1 & -> & Hinv1).
  { destruct o4 as [h|]; eexists; (split; [done|]).
    - exact (unref_inv db procs i _ true h Hinv Hi eq_refl).
    - by rewrite insert_id. }
  destruct o6 as [h|]; [|done].
  pose proof (unref_inv db1 _ i (ProcLeases None (Some h)) false h Hinv1) as H2.
  rewrite insert_insert_eq in H2. apply H2; [apply lookup_insert_eq|done].
Qed.

(** What the main process does with leases: a client appears, obtains its
    leases, gives them back, or takes over those of its earlier connection. *)
Inductive lease_reachable : store T ip_lease_st → gmap ptr proc_leases → Prop :=
| lr_init : lease_reachable (Store htable_init ∅) ∅
| lr_client db procs i :
    lease_reachable db procs → procs !! i = None →
    lease_reachable db (<[i:=ProcLeases None None]> procs)
| lr_get db procs i proc x c ret db' proc' :
    lease_reachable db procs → procs !! i = Some proc → lease_ext_ok x c → lease_fresh x db →
    get_ip_leases x c db proc = (ret, db', proc') → lease_reachable db' (<[i:=proc']> procs)
| lr_remove db procs i proc db' proc' :
    lease_reachable db procs → procs !! i = Some proc →
    remove_ip_leases db proc = (db', proc') → lease_reachable db' (<[i:=proc']> procs)
| lr_steal db procs i j proc thief proc' thief' :
    lease_reachable db procs → i ≠ j → procs !! i = Some proc → procs !! j = Some thief →
    ipv4 thief = None → ipv6 thief = None → steal_ip_leases proc thief = (proc', thief') →
    lease_reachable db (<[i:=proc']> (<[j:=thief']> procs)).

Lemma lease_reachable_inv db procs : lease_reachable db procs → lease_inv db procs.
Proof.
  induction 1 as [|db procs i _ IH Hi|db procs i proc x c ret db' proc' _ IH Hi Hx Hf Hg|
    db procs i proc db' proc' _ IH Hi Hr|db procs i j proc thief proc' thief' _ IH Hne Hi Hj H4 H6 Hs].
  - split; [apply store_init_ok|..].
    + intros i v4 p l (proc & h & Hi & _). by rewrite lookup_empty in Hi.
    + intros i j v v' p l l' (proc & h & Hi & _). by rewrite lookup_empty in Hi.
  - apply (lease_inv_sub db procs _ IH). intros j v4 p l (proc & h & Hj & Hs & Hr).
    destruct (decide (i = j)) as [<-|]; [rewrite lookup_insert_eq in Hj; simplify_eq; by destruct v4|].
    rewrite lookup_insert_ne in Hj by done. by exists proc, h.
  - pose proof (get_ip_leases_inv x c db procs i proc IH Hi Hx Hf) as H. by rewrite Hg in H.
  - pose proof (remove_ip_leases_inv db procs i proc IH Hi) as H. by rewrite Hr in H.
  - pose proof (steal_inv db procs i j proc thief IH Hne Hi Hj H4 H6) as H. by rewrite Hs in H.
Qed.
End world.

(** ** Random IPv6 addresses in small networks *)

Lemma band_comm a b : band a b = band b a.
Proof.
  unfold band. revert b. induction a as [|x a IH]; intros [|y b]; try done. simpl. by rewrite Z.land_comm, IH.
Qed.

Lemma bnot_ff : u8 (Z.lnot 0xff) = 0.
Proof. done. Qed.

(** Nothing is left of bytes that are zero wherever the mask is not full. *)
Lemma band_bnot_zero s m :
  length s = length m →
  (∀ j a b, s !! j = Some a → m !! j = Some b → a = 0 ∨ b = 0xff) →
  band s (bnot m) = replicate (length m) 0.
Proof.
  revert s. induction m as [|y m IH]; intros [|a s] Hl Hz; try done. simpl.
  unfold band, bnot in *. simpl. f_equal.
  - destruct (Hz 0%nat a y eq_refl eq_refl) as [->| ->]; [done|].
    by rewrite bnot_ff, Z.land_0_r.
  - apply IH; [simpl in Hl; lia|]. intros j. apply (Hz (S j)).
Qed.

Lemma bor_zero n : bor (replicate (length n) 0) n = n.
Proof. unfold bor. induction n as [|a n IH]; [done|]. simpl. by rewrite Z.lor_0_l, IH. Qed.

Lemma random_part_empty x c p m n :
  lease_ext_ok x c → ipv6_prefix_to_mask p = Some m → 96 ≤ p →
  (n < MAX_IP_TRIES - FIXED_IPS)%nat → band (seed6 x c n) (bnot m) = replicate 16 0.
Proof.
  intros Hx Hm Hp Hn. pose proof (ipv6_mask_ok p m Hm) as [Hlm _].
  destruct (seed6_ok x c n Hx) as [Hls _].
  rewrite band_bnot_zero; [by rewrite Hlm|lia|]. intros j a b Ha Hb.
  destruct (decide (j < 12)%nat) as [Hj|Hj].
  - right. unfold ipv6_prefix_to_mask in Hm. destruct (_ || _); [done|]. apply (inj Some) in Hm as <-.
    rewrite mask_bytes_lookup in Hb by lia. injection Hb as <-.
    destruct (Z.leb_spec (p - 8 * Z.of_nat j) 0); [lia|].
    by destruct (Z.leb_spec 8 (p - 8 * Z.of_nat j)); [|lia].
  - left. unfold seed6 in Ha, Hls. unfold MAX_IP_TRIES, FIXED_IPS in *.
    rewrite (proj2 (Nat.eqb_neq n 16)) in Ha by lia. rewrite (proj2 (Nat.ltb_lt n (16 - 5))) in Ha by lia.
    destruct (lx_rnd _ _ Hx n) as [Hr _].
    rewrite lookup_app_r in Ha by (rewrite length_drop, length_take; lia).
    rewrite length_drop, length_take, Hr in Ha.
    apply list_elem_of_lookup_2 in Ha. set_solver.
Qed.

(** The network address of a smaller subnet of a network. *)
Lemma band_subnet net p q m sm :
  ipv6_prefix_to_mask p = Some m → ipv6_prefix_to_mask q = Some sm → p ≤ q →
  length net = 16%nat → bytes net → band net m = net → band net sm = net.
Proof.
  intros Hm Hsm Hpq Hl Hb Hnet. pose proof (ipv6_mask_ok p m Hm) as [Hlm Hbm].
  pose proof (ipv6_mask_ok q sm Hsm) as [Hls Hbs].
  unfold ipv6_prefix_to_mask in Hm, Hsm. destruct (_ || _); [done|]. destruct (_ || _); [done|].
  apply (inj Some) in Hm, Hsm. apply list_eq. intros j. unfold band in *. rewrite lookup_zip_with.
  destruct (net !! j) as [a|] eqn:Ha; simpl; [|done].
  pose proof (lookup_lt_Some _ _ _ Ha) as Hj. rewrite <- Hsm, mask_bytes_lookup by lia. simpl. f_equal.
  assert (Z.land a (if p - 8 * Z.of_nat j <=? 0 then 0 else if 8 <=? p - 8 * Z.of_nat j then 0xff
    else u8 (Z.shiftl 0xff (8 - (p - 8 * Z.of_nat j)))) = a) as Hja.
  { rewrite <- Hm in Hnet. apply (f_equal (lookup j)) in Hnet.
    rewrite lookup_zip_with, Ha, mask_bytes_lookup in Hnet by lia. simpl in Hnet. by simplify_eq. }
  apply (bytes_lookup net j a Hb) in Ha as Hab.
  apply byte_bits; [by apply land_byte|done|]. intros i Hi.
  rewrite <- Hja at 2. rewrite !Z.land_spec. destruct (Z.testbit a i) eqn:Hai; [|done]. simpl.
  assert (Z.testbit (Z.land a (if p - 8 * Z.of_nat j <=? 0 then 0 else if 8 <=? p - 8 * Z.of_nat j then 0xff
    else u8 (Z.shiftl 0xff (8 - (p - 8 * Z.of_nat j))))) i = true) as Hpi by (by rewrite Hja).
  rewrite Z.land_spec, Hai in Hpi. simpl in Hpi.
  replace i with (7 - (7 - i)) in Hpi |- * by lia. rewrite mask_byte_bit in Hpi |- * by lia.
  rewrite mask_byte_bit by lia. rewrite Hpi. apply Z.ltb_lt in Hpi. apply Z.ltb_lt. lia.
Qed.

Section lease_theorems.
Context {T : Type} `{HT : HTable T, HS : !HTableSpec T, Env : SecModEnv}.
Implicit Types (db : store T ip_lease_st) (x : lease_ext) (c : lease_config).

(** No random attempt succeeds in a network with a prefix of 96 bits or more. *)
Lemma random_attempts_fail x c db net m sm n :
  lease_ext_ok x c → ipv6_prefix_to_mask (ipv6_prefix c) = Some m →
  ipv6_prefix_to_mask (ipv6_subnet_prefix c) = Some sm →
  96 ≤ ipv6_prefix c ≤ ipv6_subnet_prefix c → length net = 16%nat → bytes net →
  band net m = net → (n < MAX_IP_TRIES - FIXED_IPS)%nat →
  try_ipv6 x c db net m sm n = None.
Proof.
  intros Hx Hm Hsm Hp Hl Hb Hnet. induction n as [|n IH]; intros Hn; [done|].
  cbn [try_ipv6]. cbv zeta. rewrite (random_part_empty x c (ipv6_prefix c) m (S n)) by (done || lia).
  rewrite <- Hl, bor_zero. rewrite (band_subnet net (ipv6_prefix c) (ipv6_subnet_prefix c) m sm) by (done || lia).
  unfold is_ipv6_ok. rewrite (proj2 (memcmp_eq net net eq_refl) eq_refl). simpl. apply IH. lia.
Qed.

(** No two clients hold the same address: whatever the order in which
    clients appear, obtain leases, give them back and take over those of an
    earlier connection, two recorded leases differ in their IPv4 address or in
    their IPv6 subnet. *)
Theorem leases_are_distinct db procs i j v4 v4' p q l l' :
  lease_reachable db procs → holds procs i v4 p l → holds procs j v4' q l' →
  (i, v4) ≠ (j, v4') → sig l ≠ sig l'.
Proof.
  intros Hinv%lease_reachable_inv Hi Hj Hne Hs.
  destruct (li_rec _ _ Hinv _ _ _ _ Hi) as [Hp _], (li_rec _ _ Hinv _ _ _ _ Hj) as [Hq _].
  assert (p = q) as <- by (by eapply (st_inj _ _ _ (li_ok _ _ Hinv))).
  destruct (li_owner _ _ Hinv _ _ _ _ _ _ _ Hi Hj) as [-> ->]. done.
Qed.

(** An IPv4 address chosen by the server lies in the configured network,
    is neither the network, the broadcast nor the server's own address, is not
    leased to another client and did not answer a ping. *)
Theorem ipv4_lease_is_usable x c db ret l tn tm n m :
  lease_ext_ok x c → ipv4_net c = Some tn → ipv4_netmask c = Some tm →
  pton4 tn = Some n → pton4 tm = Some m → explicit_ipv4 c = None →
  get_ipv4_lease x c db = (ret, Some l) → lease4_ok x db (band n m) m l.
Proof.
  intros Hx H1 H2 Hn Hm He. unfold get_ipv4_lease. rewrite H1, H2, Hn, Hm, He. cbv zeta.
  apply pton4_ok in Hn as [Hln Hbn], Hm as [Hlm Hbm].
  destruct (lmem x); [|done]. destruct (try_ipv4 _ _ _ _ _ _ _) as [l'|] eqn:Ht; [|done].
  intros [= <- <-]. eapply try_ipv4_ok; [done|rewrite band_length; lia|done|by apply band_bytes|done|
    apply band_idemp; lia|exact Ht].
Qed.

(** An IPv6 subnet chosen by the server lies in the configured network, is
    not the subnet of the network address and is not leased to another
    client. *)
Theorem ipv6_lease_is_usable x c db ret l tn n m sm :
  lease_ext_ok x c → ipv6_net c = Some tn → lpton6 x tn = Some n →
  ipv6_prefix_to_mask (ipv6_prefix c) = Some m →
  ipv6_prefix_to_mask (ipv6_subnet_prefix c) = Some sm → explicit_ipv6 c = None →
  get_ipv6_lease x c db = (ret, Some l) →
  found6_ok db (band n m) m sm (sig l) (rip l) ∧ prefix l = ipv6_subnet_prefix c.
Proof.
  intros Hx H1 Hn Hm Hsm He. unfold get_ipv6_lease. rewrite H1, Hm, Hsm, Hn, He. cbv zeta.
  apply ipv6_mask_ok in Hm as [Hlm Hbm], Hsm as [Hls Hbs].
  apply (lx_pton6 _ _ Hx) in Hn as [Hln Hbn]. destruct (_ || _); [done|].
  destruct (lmem6 x); [|done]. destruct (try_ipv6 _ _ _ _ _ _ _) as [[s r]|] eqn:Ht; [|done].
  intros [= <- <-]. split; [|done]. eapply try_ipv6_ok; [done|rewrite band_length; lia|done..|
    by apply band_bytes|done|apply band_idemp; lia|exact Ht].
Qed.

(** In an IPv6 network with a prefix of 96 bits or more the server finds
    at most two addresses for a client: the one made from its seed and one
    that is the same for all clients.  The random attempts never succeed
    because the random bytes miss the end of the address, and the repeated
    attempts from the digest all give the same address. *)
Theorem ipv6_small_network_candidates x c db net m sm s r :
  lease_ext_ok x c → ipv6_prefix_to_mask (ipv6_prefix c) = Some m →
  ipv6_prefix_to_mask (ipv6_subnet_prefix c) = Some sm →
  96 ≤ ipv6_prefix c ≤ ipv6_subnet_prefix c → length net = 16%nat → bytes net →
  band net m = net → try_ipv6 x c db net m sm MAX_IP_TRIES = Some (s, r) →
  r = bor (band (ip_from_seed x (ipv4_seed c) 16) (bnot m)) net ∨
  r = bor (band (ip_from_seed x (replicate 16 0) 16) (bnot m)) net.
Proof.
  intros Hx Hm Hsm Hp Hl Hb Hnet. unfold MAX_IP_TRIES.
  assert (∀ n, (11 ≤ n < 16)%nat → seed6 x c n = ip_from_seed x (replicate 16 0) 16) as Hfix.
  { intros n Hn. unfold seed6, MAX_IP_TRIES, FIXED_IPS.
    rewrite (proj2 (Nat.eqb_neq n 16)) by lia. by rewrite (proj2 (Nat.ltb_ge n (16 - 5))) by lia. }
  assert (∀ n, (n < 16)%nat → try_ipv6 x c db net m sm n = Some (s, r) →
    r = bor (band (ip_from_seed x (replicate 16 0) 16) (bnot m)) net) as Hlow.
  { intros n Hn. induction n as [|n IH]; [done|]. destruct (decide (11 ≤ S n)%nat) as [Hge|Hlt].
    - cbn [try_ipv6]. cbv zeta. rewrite Hfix by lia. intros Ht. revert Ht.
      destruct (negb (is_ipv6_ok _ _ _)); [apply IH; lia|].
      destruct (negb _ || _); [by intros [= _ <-]|apply IH; lia].
    - rewrite (random_attempts_fail x c db net m sm (S n)); try done. unfold MAX_IP_TRIES, FIXED_IPS. lia. }
  assert (∃ k, k = 15%nat) as [k Hk] by eauto.
  assert (seed6 x c (S k) = ip_from_seed x (ipv4_seed c) 16) as Hseed by (by rewrite Hk).
  replace 16%nat with (S k) at 1 by lia. cbn [try_ipv6]. cbv zeta. rewrite Hseed.
  destruct (negb (is_ipv6_ok _ _ _)); [intros Ht; right; apply (Hlow k); [lia|done]|].
  destruct (negb _ || _); [by intros [= _ <-]; left|intros Ht; right; apply (Hlow k); [lia|done]].
Qed.

(** A lease of an address configured for a user is not recorded: the
    table of leases is the same afterwards, so that the address may be given
    to another client as well. *)
Theorem explicit_lease_not_recorded x c db l e :
  explicit_ipv4 c = Some e → ipv6_net c = None → get_ipv4_lease x c db = (0, Some l) →
  get_ip_leases x c db (ProcLeases None None) = (0, db, ProcLeases (Some (Held None l)) None).
Proof.
  intros He H6 Hg. unfold get_ip_leases, obtain. simpl. rewrite Hg. simpl.
  assert (lease_db l = false ∧ is_Some (lmem x)) as [Hdb [p Hp]].
  { revert Hg. unfold get_ipv4_lease. rewrite He. repeat case_match; intros [=]; by simplify_eq. }
  unfold record_lease. rewrite Hp, Hdb. simpl. unfold get_ipv6_lease. by rewrite H6.
Qed.
End lease_theorems.

(** ** Witnesses *)
Module LeaseWitnesses.
#[local] Instance toy_env : SecModEnv := {|
  auth_ctx_t := unit; vhost_ctx_t := unit;
  hash_any l := foldr Z.add 0 l; sha1 l := l; base64_encode _ := "id"%string |}.

Definition net6 : list Z := [32; 1; 13; 184] ++ replicate 12 0.

Definition answers (p q : ptr) : lease_ext := {|
  lmem := Some p; lmem6 := Some q; lcalloc_ok := true;
  lrnd n := replicate 16 (Z.of_nat n mod 256); free4 _ := true; free6 _ := true;
  lsha1 _ := Z.of_nat <$> seq 1 20; lpton6 _ := Some net6 |}.

(** A client in 192.168.1.0/24 and 2001:db8::/112. *)
Definition client (seed : Z) (explicit : option string) (v6 : bool) : lease_config := {|
  ipv4_net := Some "192.168.1.0"%string; ipv4_netmask := Some "255.255.255.0"%string;
  explicit_ipv4 := explicit;
  ipv6_net := if v6 then Some "2001:db8::"%string else None; ipv6_prefix := 112;
  ipv6_subnet_prefix := 128; explicit_ipv6 := None; ipv4_seed := [1; 2; 3; seed mod 256] |}.

Lemma lease_answers_ok p q seed e v6 : lease_ext_ok (answers p q) (client seed e v6).
Proof.
  split; simpl.
  - intros n. split; [done|]. pose proof (Z.mod_pos_bound (Z.of_nat n) 256). repeat constructor; lia.
  - intros l. split; [done|]. repeat constructor; simpl; lia.
  - intros t a [= <-]. split; [done|]. repeat constructor; lia.
  - split; [done|]. pose proof (Z.mod_pos_bound seed 256). repeat constructor; lia.
Qed.

Definition db0 : store rtable ip_lease_st := Store htable_init ∅.
Definition nothing : proc_leases := ProcLeases None None.
Definition got1 := get_ip_leases (answers (heap 2) (heap 3)) (client 4 None true) db0 nothing.
Definition db1 := got1.1.2.
Definition got2 := get_ip_leases (answers (heap 4) (heap 5)) (client 9 None false) db1 nothing.
Definition db2 := got2.1.2.
Definition clients : gmap ptr proc_leases :=
  <[2%positive:=got2.2]> (<[2%positive:=nothing]> (<[1%positive:=got1.2]> (<[1%positive:=nothing]> ∅))).

Lemma clients_reachable : lease_reachable db2 clients.
Proof.
  apply (lr_get db1 _ 2%positive nothing (answers (heap 4) (heap 5)) (client 9 None false) got2.1.1);
    [|by vm_compute|apply lease_answers_ok| |fold got2; unfold db2; by destruct got2 as [[? ?] ?]].
  - apply lr_client; [|by vm_compute].
    apply (lr_get db0 _ 1%positive nothing (answers (heap 2) (heap 3)) (client 4 None true) got1.1.1);
      [|by vm_compute|apply lease_answers_ok| |fold got1; unfold db1; by destruct got1 as [[? ?] ?]].
    + apply lr_client; [constructor|done].
    + split_and!; by intros q [= <-].
  - split_and!; intros q [= <-]; (split; [done|by vm_compute]) || done.
Qed.

Definition lease_of (o : option held) : ip_lease_st :=
  match o with Some h => lease h | None => Lease [] [] [] 0 false end.

Lemma leases_are_distinct_witness :
  sig (lease_of (ipv4 got1.2)) ≠ sig (lease_of (ipv4 got2.2)).
Proof.
  apply (leases_are_distinct db2 clients 1%positive 2%positive true true (heap 2) (heap 4)); [apply clients_reachable|..|done];
    by eexists _, _; vm_compute.
Defined.

Lemma ipv4_lease_witness :
  lease4_ok (answers (heap 2) (heap 3)) db0 (band [192; 168; 1; 0] [255; 255; 255; 0]) [255; 255; 255; 0]
    (lease_of (ipv4 got1.2)).
Proof.
  apply (ipv4_lease_is_usable (answers (heap 2) (heap 3)) (client 4 None true) db0 0 _ "192.168.1.0" "255.255.255.0");
    [apply lease_answers_ok|by vm_compute..].
Defined.

Lemma ipv6_lease_witness :
  found6_ok db0 (band net6 (mask_bytes 16 112)) (mask_bytes 16 112) (mask_bytes 16 128)
    (sig (lease_of (ipv6 got1.2))) (rip (lease_of (ipv6 got1.2))) ∧
  prefix (lease_of (ipv6 got1.2)) = 128.
Proof.
  apply (ipv6_lease_is_usable (answers (heap 2) (heap 3)) (client 4 None true) db0 0 _ "2001:db8::" net6);
    [apply lease_answers_ok|by vm_compute..].
Defined.

Lemma ipv6_candidates_witness :
  rip (lease_of (ipv6 got1.2)) =
    bor (band (ip_from_seed (answers (heap 2) (heap 3)) [1; 2; 3; 4] 16) (bnot (mask_bytes 16 112))) net6 ∨
  rip (lease_of (ipv6 got1.2)) =
    bor (band (ip_from_seed (answers (heap 2) (heap 3)) (replicate 16 0) 16) (bnot (mask_bytes 16 112))) net6.
Proof.
  apply (ipv6_small_network_candidates (answers (heap 2) (heap 3)) (client 4 None true) db0 net6 (mask_bytes 16 112)
    (mask_bytes 16 128) (sig (lease_of (ipv6 got1.2))));
    [apply lease_answers_ok|by vm_compute|by vm_compute|simpl; lia|done|repeat constructor; lia|
     by vm_compute|by vm_compute].
Defined.

Definition explicit1 := client 4 (Some "192.168.1.77"%string) false.

Lemma explicit_lease_witness :
  get_ip_leases (answers (heap 2) (heap 3)) explicit1 db0 (ProcLeases None None) =
    (0, db0, ProcLeases (Some (Held None (lease_of (ipv4
       (get_ip_leases (answers (heap 2) (heap 3)) explicit1 db0 nothing).2)))) None).
Proof.
  apply (explicit_lease_not_recorded (answers (heap 2) (heap 3)) explicit1 db0 _ "192.168.1.77"); by vm_compute.
Defined.
End LeaseWitnesses.
