(* ===== verification/Sock.v ===== *)
(** * Reading from sockets (src/common/common.c)

    What the peer and the kernel do is a list of events; the end of the list
    is the peer closing the connection.  [force_read], [force_read_timeout]
    and a [recv] of one byte consume it. *)

From S2P Require Import Prelude.

Inductive sock_event :=
| Arrive (bs : list Z)   (* bytes can be read *)
| Intr                   (* the waiting call returns EINTR *)
| Again                  (* readable, but [read] returns EAGAIN *)
| Silence                (* nothing for longer than any time-out *)
| PollFail               (* [poll] fails with another error *)
| ReadFail.              (* [read] fails with another error *)

(** [None] is the negative result; the bytes read before it are not looked
    at by any caller. *)
Fixpoint force_read_timeout (sec : Z) (s : list sock_event) (left : nat)
    : option (list Z) * list sock_event :=
  match left with
  | O => (Some [], s)
  | _ =>
    match s with
    | [] => (None, [])
    | Intr :: s | Again :: s => force_read_timeout sec s left
    | Silence :: s | PollFail :: s =>
      if 0 <? sec then (None, s) else force_read_timeout sec s left
    | ReadFail :: s => (None, s)
    | Arrive bs :: s =>
      if (left <? length bs)%nat then (Some (take left bs), Arrive (drop left bs) :: s)
      else let '(r, s) := force_read_timeout sec s (left - length bs) in
           ((λ q, bs ++ q) <$> r, s)
    end
  end.

(** [force_read] reads without waiting for a time-out. *)
Definition force_read (s : list sock_event) (left : nat) : option (list Z) * list sock_event :=
  force_read_timeout 0 s left.

(** [recv(fd, &c, 1, 0)]: [Some c] for the result 1. *)
Fixpoint recv1 (s : list sock_event) : option Z * list sock_event :=
  match s with
  | [] => (None, [])
  | Arrive [] :: s | Silence :: s | PollFail :: s => recv1 s
  | Arrive (b :: bs) :: s => (Some b, Arrive bs :: s)
  | Intr :: s | Again :: s | ReadFail :: s => (None, s)
  end.

(** ** What arrives *)

Fixpoint arriving (s : list sock_event) : list Z :=
  match s with
  | [] => []
  | Arrive bs :: s => bs ++ arriving s
  | _ :: s => arriving s
  end.

(** The peer sends, and calls are at most interrupted. *)
Definition live (e : sock_event) : bool :=
  match e with Arrive _ | Intr | Again => true | _ => false end.

Definition delivers (e : sock_event) : bool := match e with Arrive _ => true | _ => false end.

Lemma force_read_live sec s n :
  Forall live s → (n ≤ length (arriving s))%nat →
  ∃ s', force_read_timeout sec s n = (Some (take n (arriving s)), s') ∧
    arriving s' = drop n (arriving s) ∧ Forall live s'.
Proof.
  revert n. induction s as [|e s IH]; intros [|n] Hs Hn; simpl in *.
  1,3: by eexists.
  - lia.
  - apply Forall_cons in Hs as [He Hs].
    destruct e as [bs| | | | |]; try done; [|by apply IH..].
    destruct (Nat.ltb_spec (S n) (length bs)).
    + eexists. split; [by rewrite take_app_le by lia|]. simpl.
      rewrite drop_app_le by lia. split; [done|by constructor].
    + rewrite length_app in Hn.
      destruct (IH (S n - length bs)%nat Hs) as (s' & -> & Ha & Hl); [lia|].
      exists s'. simpl. split_and!; [|by rewrite Ha, drop_app_ge by lia|done].
      by rewrite take_app_ge by lia.
Qed.

Lemma force_read_live_app sec s u v :
  Forall live s → arriving s = u ++ v →
  ∃ s', force_read_timeout sec s (length u) = (Some u, s') ∧ arriving s' = v ∧ Forall live s'.
Proof.
  intros Hs Ha. destruct (force_read_live sec s (length u) Hs) as (s' & -> & Ha' & Hl).
  { rewrite Ha, length_app. lia. }
  exists s'. rewrite Ha', Ha, take_app_length, drop_app_length. done.
Qed.

Lemma force_read_Some sec s n bs s' :
  force_read_timeout sec s n = (Some bs, s') → length bs = n ∧ arriving s = bs ++ arriving s'.
Proof.
  revert n bs s'. induction s as [|e s IH]; intros [|n] bs s' H; simpl in *.
  1-3: by simplify_eq.
  destruct e as [cs| | | | |]; [|by apply IH in H|by apply IH in H| | |done].
  - destruct (Nat.ltb_spec (S n) (length cs)).
    + injection H as <- <-. simpl. rewrite length_take, app_assoc, take_drop. split; [lia|done].
    + destruct (force_read_timeout sec s (S n - length cs)) as [[q|] s1] eqn:E; [|done].
      simpl in H. simplify_eq. apply IH in E as [Hl Ha].
      rewrite length_app, Hl, Ha, app_assoc. split; [lia|done].
  - destruct (0 <? sec); [done|]. by apply IH in H.
  - destruct (0 <? sec); [done|]. by apply IH in H.
Qed.

(** What is left to happen is a part of what was to happen. *)
Lemma force_read_rest (P : sock_event → Prop) sec s n :
  (∀ bs, P (Arrive bs)) → Forall P s → Forall P (force_read_timeout sec s n).2.
Proof.
  intros HP. revert n. induction s as [|e s IH]; intros [|n] Hs; simpl; [done..|].
  apply Forall_cons in Hs as [He Hs].
  destruct e as [cs| | | | |]; try done; try by apply IH.
  2,3: destruct (0 <? sec); [done|by apply IH].
  destruct (_ <? _)%nat; simpl; [by constructor|].
  specialize (IH (S n - length cs)%nat Hs). by destruct (force_read_timeout sec s _).
Qed.

Lemma recv1_Some s b s' : recv1 s = (Some b, s') → arriving s = b :: arriving s'.
Proof.
  revert b s'. induction s as [|e s IH]; intros b s' H; simpl in *; [done|].
  destruct e as [[|c cs]| | | | |]; try done; try by apply IH in H.
  by simplify_eq.
Qed.

Lemma recv1_delivers s b v :
  Forall delivers s → arriving s = b :: v →
  ∃ s', recv1 s = (Some b, s') ∧ arriving s' = v ∧ Forall delivers s'.
Proof.
  induction s as [|e s IH]; simpl; [done|]. intros [He Hs]%Forall_cons Ha.
  destruct e as [[|c cs]| | | | |]; try done; simpl in *; [by apply IH|].
  simplify_eq. eexists. split; [done|]. split; [done|by constructor].
Qed.

Lemma delivers_live s : Forall delivers s → Forall live s.
Proof. intros H. eapply Forall_impl; [exact H|]. by intros []. Qed.

Lemma arriving_bytes_app s s' bs : bytes (arriving s) → arriving s = bs ++ arriving s' →
  bytes bs ∧ bytes (arriving s').
Proof. intros H E. rewrite E in H. by apply bytes_app in H. Qed.

#[export] Hint Resolve delivers_live : ocserv.
