(* ===== verification/NetText.v ===== *)
(** * Numbers and addresses as text

    The decimal notation of numbers and the dotted notation of IPv4 addresses
    are read back by [atoi] and [inet_pton], which ip-util.c and the parser
    of the proxy protocol use. *)

From Stdlib Require Import Ascii.
From stdpp Require Import pretty.
From S2P Require Import Prelude CString IpUtil.

(** The text does not go on with a digit. *)
Definition no_digit (t : string) : Prop :=
  match t with String c _ => is_digit (uchar c) = false | EmptyString => True end.

Definition digit_string (s : string) : Prop := Forall (λ c, is_digit c = true) (to_bytes s).

Lemma to_bytes_app s t : to_bytes (s +:+ t) = to_bytes s ++ to_bytes t.
Proof. induction s as [|c s IH]; simpl; [done|]. by rewrite IH. Qed.

(** The digit for [d]. *)
Lemma pretty_char_digit d : (d < 10)%N →
  is_digit (uchar (pretty_N_char d)) = true ∧ uchar (pretty_N_char d) - 48 = Z.of_N d.
Proof.
  intros Hd. assert (0 ≤ Z.of_N d < 0 + 10) as Hr by lia.
  rewrite <- (N2Z.id d). revert Hr. generalize (Z.of_N d).
  apply (forall_range (λ z, is_digit (uchar (pretty_N_char (Z.to_N z))) = true ∧
    uchar (pretty_N_char (Z.to_N z)) - 48 = Z.of_N (Z.to_N z))). by vm_compute.
Qed.

(** [pretty_N_go] writes the digits of a number before a text. *)
Lemma go_digits x s : digits (pretty_N_go x s) 0 = digits s (Z.of_N x).
Proof.
  revert s. induction (N.lt_wf_0 x) as [x _ IH]; intros s.
  assert (x = 0 ∨ 0 < x)%N as [->|Hx] by lia; [done|].
  rewrite pretty_N_go_step, IH by (try apply N.div_lt; lia).
  destruct (pretty_char_digit (x `mod` 10)) as [Hd Hv]; [by apply N.mod_lt|].
  cbn [digits]. rewrite Hd, Hv. f_equal. rewrite N2Z.inj_div, N2Z.inj_mod.
  pose proof (Z.div_mod (Z.of_N x) (Z.of_N 10)). lia.
Qed.

Lemma go_app x s t : (pretty_N_go x s +:+ t = pretty_N_go x (s +:+ t))%string.
Proof.
  revert s. induction (N.lt_wf_0 x) as [x _ IH]; intros s.
  assert (x = 0 ∨ 0 < x)%N as [->|Hx] by lia; [done|].
  rewrite !(pretty_N_go_step x), IH by (try apply N.div_lt; lia). done.
Qed.

Lemma go_digit_string x s : digit_string s → digit_string (pretty_N_go x s).
Proof.
  revert s. induction (N.lt_wf_0 x) as [x _ IH]; intros s Hs.
  assert (x = 0 ∨ 0 < x)%N as [->|Hx] by lia; [done|].
  rewrite pretty_N_go_step by done. apply IH; [by apply N.div_lt|].
  constructor; [|done]. apply pretty_char_digit. by apply N.mod_lt.
Qed.

Lemma dec_digit_string n : digit_string (dec n).
Proof.
  unfold dec, pretty, pretty_N. destruct (decide (Z.to_N n = 0%N)); [by repeat constructor|].
  apply go_digit_string. constructor.
Qed.

Lemma digits_end t v : no_digit t → digits t v = v.
Proof. destruct t as [|c t]; simpl; [done|]. by intros ->. Qed.

Lemma digits_dec n t : 0 ≤ n → no_digit t → digits (dec n +:+ t) 0 = n.
Proof.
  intros Hn Ht. unfold dec, pretty, pretty_N. destruct (decide (Z.to_N n = 0%N)).
  - assert (n = 0) as -> by lia. by apply (digits_end t 0).
  - rewrite go_app, go_digits. simpl. rewrite digits_end by done. lia.
Qed.

Lemma go_length x s : (String.length s ≤ String.length (pretty_N_go x s))%nat.
Proof.
  revert s. induction (N.lt_wf_0 x) as [x _ IH]; intros s.
  assert (x = 0 ∨ 0 < x)%N as [->|Hx] by lia; [done|].
  rewrite pretty_N_go_step by done. etrans; [|apply IH, N.div_lt; lia]. simpl. lia.
Qed.

Lemma go_length_le k x s : (x < 10 ^ N.of_nat k)%N →
  (String.length (pretty_N_go x s) ≤ k + String.length s)%nat.
Proof.
  revert x s. induction k as [|k IH]; intros x s Hx.
  - assert (x = 0%N) as -> by (simpl in Hx; lia). done.
  - assert (x = 0 ∨ 0 < x)%N as [->|Hx0] by lia; [rewrite pretty_N_go_0; lia|].
    rewrite pretty_N_go_step by done. etrans; [apply IH|simpl; lia].
    apply N.Div0.div_lt_upper_bound. rewrite Nat2N.inj_succ, N.pow_succ_r' in Hx. done.
Qed.

Lemma dec_length_le k n : (0 < k)%nat → n < 10 ^ Z.of_nat k → (String.length (dec n) ≤ k)%nat.
Proof.
  intros Hk Hn. unfold dec, pretty, pretty_N. destruct (decide (Z.to_N n = 0%N)); [simpl; lia|].
  etrans; [apply (go_length_le k)|simpl; lia].
  apply N2Z.inj_lt. rewrite N2Z.inj_pow, nat_N_Z. change (Z.of_N 10) with 10. lia.
Qed.

Lemma dec_head n : ∃ c r, dec n = String c r ∧ is_digit (uchar c) = true.
Proof.
  pose proof (dec_digit_string n) as H. destruct (dec n) as [|c r] eqn:E.
  - exfalso. unfold dec, pretty, pretty_N in E.
    destruct (decide (Z.to_N n = 0%N)) as [|Hn]; [done|].
    rewrite pretty_N_go_step in E by lia.
    pose proof (go_length (Z.to_N n `div` 10) (String (pretty_N_char (Z.to_N n `mod` 10)) "")) as Hl.
    rewrite E in Hl. simpl in Hl. lia.
  - apply Forall_cons in H as [Hc _]. by exists c, r.
Qed.

(** [atoi] reads the decimal notation back. *)
Lemma atoi_dec n t : 0 ≤ n < 2 ^ 31 → no_digit t → atoi (dec n +:+ t) = n.
Proof.
  intros Hn Ht. destruct (dec_head n) as (c & r & E & Hc).
  pose proof (digits_dec n t ltac:(lia) Ht) as Hd. rewrite E in Hd |- *. unfold atoi.
  assert (48 ≤ uchar c ≤ 57) as Hr.
  { unfold is_digit in Hc. apply andb_true_iff in Hc. lia. }
  change (String c r +:+ t)%string with (String c (r +:+ t)) in *. cbn [skip_space].
  assert (is_space (uchar c) = false) as ->.
  { unfold is_space. destruct (Z.eqb_spec (uchar c) 32); [lia|].
    destruct (Z.leb_spec 9 (uchar c)), (Z.leb_spec (uchar c) 13); simpl; (done || lia). }
  destruct (Z.eqb_spec (uchar c) 45); [lia|]. destruct (Z.eqb_spec (uchar c) 43); [lia|].
  rewrite Hd, Z.min_r, Z.mod_small by lia. lia.
Qed.

(** ** Addresses *)

Lemma pton_octet_app s t b v n :
  no_digit t → pton_octet s b v = Some (n, ""%string) → pton_octet (s +:+ t) b v = Some (n, t).
Proof.
  intros Ht. revert b v. induction s as [|c s IH]; intros b v; simpl.
  - destruct b; [|done]. intros [= <-]. destruct t as [|d t]; [done|]. simpl in Ht |- *. by rewrite Ht.
  - destruct (is_digit (uchar c)); [|by destruct b].
    destruct (b && (v =? 0)); [done|]. destruct (255 <? _); [done|]. apply IH.
Qed.

Lemma pton_octet_dec n t : 0 ≤ n < 0 + 256 → no_digit t → pton_octet (dec n +:+ t) false 0 = Some (n, t).
Proof.
  intros Hn Ht. apply pton_octet_app; [done|]. revert n Hn.
  apply (forall_range (λ n, pton_octet (dec n) false 0 = Some (n, ""%string))). by vm_compute.
Qed.

Lemma octet_range a i : 0 ≤ octet a i < 0 + 256.
Proof.
  unfold octet. change 255 with (Z.ones 8). rewrite Z.land_ones by lia.
  pose proof (Z.mod_pos_bound (Z.shiftr a (8 * (3 - i))) (2 ^ 8)). lia.
Qed.

Lemma octets a : 0 ≤ a < 2 ^ 32 →
  ((octet a 0 * 256 + octet a 1) * 256 + octet a 2) * 256 + octet a 3 = a.
Proof.
  intros Ha. unfold octet. change 255 with (Z.ones 8).
  rewrite !Z.land_ones, !Z.shiftr_div_pow2 by lia.
  change (2 ^ (8 * (3 - 0))) with 16777216. change (2 ^ (8 * (3 - 1))) with 65536.
  change (2 ^ (8 * (3 - 2))) with 256. change (2 ^ (8 * (3 - 3))) with 1. change (2 ^ 8) with 256.
  dlia.
Qed.

(** [inet_pton] reads back what [inet_ntop] writes. *)
Lemma inet_pton_ntop a : 0 ≤ a < 2 ^ 32 → inet_pton4 (inet_ntop4 a) = Some a.
Proof.
  intros Ha. unfold inet_pton4, inet_ntop4. pose proof (octet_range a) as Ho.
  assert (∀ t : string, pton_dot ("." +:+ t) = Some t) as Hdot by done.
  do 3 (rewrite pton_octet_dec by done; cbn [mbind option_bind]; rewrite Hdot; cbn [mbind option_bind]).
  pose proof (pton_octet_dec (octet a 3) "" (Ho 3) I) as H3.
  assert (∀ s : string, (s +:+ "")%string = s) as Hnil.
  { induction s as [|c s IH]; [done|]. exact (f_equal (String c) IH). }
  rewrite Hnil in H3. rewrite H3. cbn [mbind option_bind].
  rewrite bool_decide_eq_true_2 by done. f_equal. by apply octets.
Qed.

(** The characters of the dotted notation. *)
Lemma inet_ntop4_chars a : Forall (λ c, is_digit c = true ∨ c = 46) (to_bytes (inet_ntop4 a)).
Proof.
  unfold inet_ntop4. rewrite !to_bytes_app, !Forall_app.
  assert (∀ n, Forall (λ c, is_digit c = true ∨ c = 46) (to_bytes (dec n))) as Hd.
  { intros n. eapply Forall_impl; [apply dec_digit_string|]. auto. }
  split_and!; try apply Hd; by repeat constructor; right.
Qed.

Lemma inet_ntop4_length a : (3 ≤ length (to_bytes (inet_ntop4 a)) ≤ 15)%nat.
Proof.
  unfold inet_ntop4. rewrite !to_bytes_app, !length_app, !to_bytes_length.
  assert (∀ i, String.length (dec (octet a i)) ≤ 3)%nat as Hd.
  { intros i. apply dec_length_le; [lia|]. pose proof (octet_range a i). lia. }
  pose proof (Hd 0). pose proof (Hd 1). pose proof (Hd 2). pose proof (Hd 3).
  change (String.length ".") with 1%nat. lia.
Qed.

(** ** Socket addresses as text (src/ip-util.c) *)

(** An integer from its bytes in network order. *)
Definition be (l : list Z) : Z := foldl (λ v b, 256 * v + b) 0 l.

(** What is written after the address when [full] is set and there is a port;
    [rest] is the room from the end of the address on.  The terminator of the
    address is overwritten, so without room for a new one the buffer is not a
    string any more. *)
Definition put_port (v6 : bool) (port rest : Z) (text : string) : cres (option string) :=
  if port =? 0 then Ok (Some text) else
  let text := if v6 then ("[" +:+ text +:+ "]")%string else text in
  let rest := if v6 then rest - 1 else rest in
  if rest <=? 1 then UB else
  Ok (Some (text +:+ ":" +:+
            String.substring 0 (Z.to_nat (rest - 2)) (dec port))%string).

(** [ntop6] is [inet_ntop(AF_INET6, ...)]; the result is what the buffer holds
    when it is returned. *)
Definition human_addr2 (ntop6 : list Z → string) (sa : list Z) (salen buflen : Z) (full : bool)
    : cres (option string) :=
  if buflen =? 0 then Ok None else
  f ← sa_family sa;
  if negb (f =? AF_INET) && negb (f =? AF_INET6) then Ok None else
  port ← be <$> mem_at sa 2 2;
  let v6 := salen =? 28 in
  let buflen := if v6 && full && negb (port =? 0) then buflen - 1 else buflen in
  text ← (if v6 then ntop6 <$> SA_IN6_P sa else (λ a, inet_ntop4 (be a)) <$> SA_IN_P sa);
  let l := Z.of_nat (String.length text) in
  if buflen <=? l then Ok None else
  if negb full then Ok (Some text) else put_port v6 port (buflen - l) text.

Lemma sa_family_Ok sa : (2 ≤ length sa)%nat → ∃ f, sa_family sa = Ok f.
Proof.
  intros Hl. destruct sa as [|a [|b sa]]; simpl in Hl; [lia..|]. eexists. done.
Qed.

(** Without a port nothing but the address is read. *)
Lemma human_addr2_defined ntop6 sa (salen buflen : Z) :
  (if (salen =? 28)%Z then 24 ≤ length sa else 8 ≤ length sa)%nat →
  ∃ r, human_addr2 ntop6 sa salen buflen false = Ok r.
Proof.
  intros Hl. unfold human_addr2. destruct (buflen =? 0); [eauto|].
  destruct (sa_family_Ok sa) as [f ->]; [destruct (salen =? 28); lia|]. run.
  destruct (negb _ && _); [eauto|]. unfold SA_IN_P, SA_IN6_P.
  rewrite (mem_at_Ok sa 2 2) by (destruct (salen =? 28); lia). run.
  rewrite andb_false_r. cbn [andb negb].
  destruct (salen =? 28); rewrite mem_at_Ok by lia;
    unfold fmap, cres_fmap; run; case_match; eauto.
Qed.

(** An IPv4 address is written in full. *)
Lemma human_addr2_v4 ntop6 sa salen buflen :
  salen ≠ 28 → 16 ≤ buflen → sa_family sa = Ok AF_INET → (8 ≤ length sa)%nat →
  human_addr2 ntop6 sa salen buflen false = Ok (Some (inet_ntop4 (be (take 4 (drop 4 sa))))).
Proof.
  intros Hs Hb Hf Hl. unfold human_addr2.
  rewrite (proj2 (Z.eqb_neq buflen 0)), Hf, (proj2 (Z.eqb_neq salen 28)) by lia. run.
  cbn [negb andb Z.eqb AF_INET Pos.eqb]. unfold SA_IN_P.
  rewrite !mem_at_Ok by lia. unfold fmap, cres_fmap. run. rewrite (proj2 (Z.leb_gt _ _)); [done|].
  pose proof (inet_ntop4_length (be (take 4 (drop 4 sa)))) as [_ Hlen].
  rewrite to_bytes_length in Hlen. lia.
Qed.

Lemma be4_range l : length l = 4%nat → bytes l → 0 ≤ be l < 2 ^ 32.
Proof.
  intros Hl Hb. destruct l as [|a [|b [|c [|d [|]]]]]; try done.
  rewrite !bytes_cons in Hb. unfold be. simpl. lia.
Qed.

Lemma be4_inj l k :
  length l = 4%nat → length k = 4%nat → bytes l → bytes k → be l = be k → l = k.
Proof.
  intros Hl Hk Hb Hb'. destruct l as [|a [|b [|c [|d [|]]]]]; try done.
  destruct k as [|a' [|b' [|c' [|d' [|]]]]]; try done.
  rewrite !bytes_cons in Hb, Hb'. unfold be. simpl. intros. repeat f_equal; lia.
Qed.

(** Two IPv4 addresses have the same text only if they are the same. *)
Lemma inet_ntop4_inj l k :
  length l = 4%nat → length k = 4%nat → bytes l → bytes k →
  inet_ntop4 (be l) = inet_ntop4 (be k) → l = k.
Proof.
  intros Hl Hk Hb Hb' He. apply be4_inj; [done..|].
  pose proof (inet_pton_ntop (be l) (be4_range l Hl Hb)) as H1.
  pose proof (inet_pton_ntop (be k) (be4_range k Hk Hb')) as H2. rewrite He in H1. congruence.
Qed.
