(* ===== verification/ProxyProto.v ===== *)
(** * The proxy protocol (src/worker-proxyproto.c)

    The header a proxy in front of the server sends on a new connection, in
    the text form (v1) and the binary form (v2) with the TLVs that carry the
    client's certificate.  The header is a C object on the stack: the cells
    of [data] are uninitialised before bytes are read into them, and looking
    at such a cell, or outside of an object, is [UB]. *)

From Stdlib Require Import Ascii.
From stdpp Require Import pretty.
From S2P Require Import Prelude CString Sock IpUtil NetText.

Definition MAX_USERNAME_SIZE : nat := 64.
Definition DEFAULT_SOCKET_TIMEOUT : Z := 10.

(** ** Memory *)

(** Cells of an object that may be uninitialised. *)
Abbreviation mem := (list (option Z)).

Definition cell (m : mem) (i : nat) : cres Z :=
  match m !! i with Some (Some b) => Ok b | _ => UB end.

Definition cells (m : mem) (off n : nat) : cres (list Z) :=
  if (off + n <=? length m)%nat then
    match mapM id (take n (drop off m)) with Some l => Ok l | None => UB end
  else UB.

(** The C string a pointer points to; [m] is the memory from there on. *)
Fixpoint cstr (m : mem) : cres (list Z) :=
  match m with
  | Some b :: m => if b =? 0 then Ok [] else r ← cstr m; Ok (b :: r)
  | _ => UB
  end.

(** [strchr(m + off, c)] as an index. *)
Fixpoint strchr_go (m : mem) (c : Z) (off : nat) : cres (option nat) :=
  match m with
  | Some b :: m =>
    if b =? c then Ok (Some off) else if b =? 0 then Ok None else strchr_go m c (S off)
  | _ => UB
  end.
Definition strchr_at (m : mem) (off : nat) (c : Z) : cres (option nat) :=
  strchr_go (drop off m) c off.

(** [strncmp(m, lit, length lit) == 0] for a literal. *)
Fixpoint strncmp_eq (m : mem) (lit : list Z) : cres bool :=
  match lit, m with
  | [], _ => Ok true
  | x :: lit, Some b :: m => if b =? x then strncmp_eq m lit else Ok false
  | _, _ => UB
  end.

Fixpoint of_bytes (l : list Z) : string :=
  match l with [] => EmptyString | b :: l => String (ascii_of_N (Z.to_N b)) (of_bytes l) end.

Definition be16 (x : Z) : list Z := [Z.shiftr (u16 x) 8; Z.land (u16 x) 255].
Definition be32 (x : Z) : list Z := [octet x 0; octet x 1; octet x 2; octet x 3].

(** ** The worker *)

Definition SOCKADDR_STORAGE : nat := 128.
Definition SOCKADDR_IN : Z := 16.
Definition SOCKADDR_IN6 : Z := 28.

Record worker := {
  conn_unix : bool;           (* conn_type == SOCK_TYPE_UNIX *)
  remote_addr : list Z;       (* struct sockaddr_storage *)
  remote_addr_len : Z;
  our_addr : list Z;
  our_addr_len : Z;
  cert_auth_ok : bool;
  cert_username : list Z }.

Definition zero_addr : list Z := replicate SOCKADDR_STORAGE 0.

(** The fields of [struct sockaddr_in] and [struct sockaddr_in6]. *)
Definition put_family (sa : list Z) (f : Z) : cres (list Z) := poke sa 0 [Z.land f 255; Z.shiftr f 8].
Definition put_port (sa : list Z) (port : list Z) : cres (list Z) := poke sa 2 port.
Definition put_sin_addr (sa : list Z) (a : list Z) : cres (list Z) := poke sa 4 a.
Definition put_sin6_addr (sa : list Z) (a : list Z) : cres (list Z) := poke sa 8 a.

(** ** TLVs *)

Definition PP2_TYPE_SSL : Z := 0x20.
Definition PP2_TYPE_SSL_CN : Z := 0x22.
Definition PP2_CLIENT_SSL : Z := 0x01.
Definition PP2_CLIENT_CERT_SESS : Z := 0x04.
Definition pp2_tlv : nat := 3.
Definition pp2_tlv_ssl : nat := 5.

Definition htons (lo hi : Z) : Z := 256 * lo + hi.

Definition cert_verified (tssl : list Z) : bool :=
  match tssl with
  | client :: verify =>
    negb (Z.land client PP2_CLIENT_SSL =? 0) && negb (Z.land client PP2_CLIENT_CERT_SESS =? 0) &&
    forallb (Z.eqb 0) verify
  | [] => false
  end.

(** [while (data_size > 0)]; [data] is the memory from the pointer on. *)
Fixpoint parse_ssl_tlvs (fuel : nat) (ws : worker) (data : mem) (data_size : Z) : cres worker :=
  match fuel with
  | O => Fuel
  | S fuel =>
    if data_size <=? 0 then Ok ws else
    if data_size <? Z.of_nat pp2_tlv then Ok ws else
    let data_size := data_size - Z.of_nat pp2_tlv in
    tlv ← cells data 0 pp2_tlv;
    match tlv with
    | [type; l0; l1] =>
      let length := htons l0 l1 in
      let data := drop pp2_tlv data in
      if type =? PP2_TYPE_SSL then
        if length <? Z.of_nat pp2_tlv_ssl then parse_ssl_tlvs fuel ws data data_size else
        if data_size <? Z.of_nat pp2_tlv_ssl then Ok ws else
        tssl ← cells data 0 pp2_tlv_ssl;
        parse_ssl_tlvs fuel
          (if cert_verified tssl then {| ws with cert_auth_ok := true |} else ws)
          (drop pp2_tlv_ssl data) (data_size - Z.of_nat pp2_tlv_ssl)
      else if (type =? PP2_TYPE_SSL_CN) && cert_auth_ok ws then
        if Z.of_nat MAX_USERNAME_SIZE - 1 <? length then parse_ssl_tlvs fuel ws data data_size else
        if data_size <? length then Ok ws else
        name ← cells data 0 (Z.to_nat length);
        user ← poke (cert_username ws) 0 name;
        user ← poke user (Z.to_nat length) [0];
        parse_ssl_tlvs fuel {| ws with cert_username := user |}
          (drop (Z.to_nat length) data) (data_size - length)
      else
        if data_size <? length then Ok ws else
        parse_ssl_tlvs fuel ws (drop (Z.to_nat length) data) (data_size - length)
    | _ => UB
    end
  end.

(** ** The text form *)

Definition SPACE : Z := 32.
Definition TCP4 : list Z := [84; 67; 80; 52; 32].
Definition TCP6 : list Z := [84; 67; 80; 54; 32].

Section v1.
(** [inet_pton(AF_INET6, ...)]. *)
Context (pton6 : string → option (list Z)).

Definition v1_tcp4 (ws : worker) (m : mem) (line : nat) : cres (Z * worker) :=
  let ws := {| ws with our_addr_len := SOCKADDR_IN; remote_addr_len := SOCKADDR_IN |} in
  sa ← put_family (remote_addr ws) AF_INET;
  let ws := {| ws with remote_addr := sa |} in
  let line := (line + 5)%nat in
  next ← strchr_at m line SPACE;
  match next with None => Ok (-1, ws) | Some next =>
  m ← poke m next [Some 0];
  host ← cstr (drop line m);
  match inet_pton4 (of_bytes host) with None => Ok (-1, ws) | Some a =>
  sa ← put_sin_addr (remote_addr ws) (be32 a);
  let ws := {| ws with remote_addr := sa |} in
  sa ← put_family (our_addr ws) AF_INET;
  let ws := {| ws with our_addr := sa |} in
  let line := (next + 1)%nat in
  next ← strchr_at m line SPACE;
  match next with None => Ok (-1, ws) | Some next =>
  m ← poke m next [Some 0];
  host ← cstr (drop line m);
  match inet_pton4 (of_bytes host) with None => Ok (-1, ws) | Some a =>
  sa ← put_sin_addr (our_addr ws) (be32 a);
  let ws := {| ws with our_addr := sa |} in
  let line := (next + 1)%nat in
  port ← cstr (drop line m);
  sa ← put_port (remote_addr ws) (be16 (atoi (of_bytes port)));
  let ws := {| ws with remote_addr := sa |} in
  next ← strchr_at m line SPACE;
  match next with None => Ok (-1, ws) | Some next =>
  let line := (next + 1)%nat in
  port ← cstr (drop line m);
  sa ← put_port (our_addr ws) (be16 (atoi (of_bytes port)));
  Ok (0, {| ws with our_addr := sa |})
  end end end end end.

Definition v1_tcp6 (ws : worker) (m : mem) (line : nat) : cres (Z * worker) :=
  let ws := {| ws with our_addr_len := SOCKADDR_IN6; remote_addr_len := SOCKADDR_IN6 |} in
  sa ← put_family (remote_addr ws) AF_INET6;
  let ws := {| ws with remote_addr := sa |} in
  let line := (line + 5)%nat in
  next ← strchr_at m line SPACE;
  match next with None => Ok (-1, ws) | Some next =>
  m ← poke m next [Some 0];
  host ← cstr (drop line m);
  match pton6 (of_bytes host) with None => Ok (-1, ws) | Some a =>
  sa ← put_sin6_addr (remote_addr ws) a;
  let ws := {| ws with remote_addr := sa |} in
  let line := (next + 1)%nat in
  next ← strchr_at m line SPACE;
  match next with None => Ok (-1, ws) | Some next =>
  m ← poke m next [Some 0];
  sa ← put_family (our_addr ws) AF_INET6;
  let ws := {| ws with our_addr := sa |} in
  host ← cstr (drop line m);
  match pton6 (of_bytes host) with None => Ok (-1, ws) | Some a =>
  sa ← put_sin6_addr (our_addr ws) a;
  let ws := {| ws with our_addr := sa |} in
  let line := (next + 1)%nat in
  port ← cstr (drop line m);
  sa ← put_port (remote_addr ws) (be16 (atoi (of_bytes port)));
  let ws := {| ws with remote_addr := sa |} in
  next ← strchr_at m line SPACE;
  match next with None => Ok (-1, ws) | Some next =>
  let line := (next + 1)%nat in
  port ← cstr (drop line m);
  sa ← put_port (our_addr ws) (be16 (atoi (of_bytes port)));
  Ok (0, {| ws with our_addr := sa |})
  end end end end end.

Definition parse_proxy_proto_header_v1 (ws : worker) (m : mem) (line : nat) : cres (Z * worker) :=
  let ws := {| ws with remote_addr := zero_addr; our_addr := zero_addr |} in
  is4 ← strncmp_eq (drop line m) TCP4;
  if (is4 : bool) then v1_tcp4 ws m line else
  is6 ← strncmp_eq (drop line m) TCP6;
  if (is6 : bool) then v1_tcp6 ws m line else Ok (-1, ws).

(** ** The header *)

Definition PROXY_HEADER_V1 : list Z := [80; 82; 79; 88; 89; 32].
Definition PROXY_HEADER_V2 : list Z :=
  [0x0D; 0x0A; 0x0D; 0x0A; 0x00; 0x0D; 0x0A; 0x51; 0x55; 0x49; 0x54; 0x0A].
Definition MAX_PROXY_PROTO_V1_SIZE : nat := 108.
Definition hdr_data_size : nat := 520.

Definition CR : Z := 13.
Definition LF : Z := 10.

(** The loop that receives the line byte by byte, [n] rounds from [i] on. *)
Fixpoint recv_line (n i : nat) (ws : worker) (data : mem) (s : list sock_event) : cres (Z * worker) :=
  match n with
  | O => Ok (-1, ws)
  | S n =>
    match recv1 s with
    | (None, _) => Ok (-1, ws)
    | (Some b, s) =>
      data ← poke data (16 + i) [Some b];
      if b =? CR then
        data ← poke data (16 + i) [Some 0];
        recv_line n (S i) ws data s
      else if b =? LF then
        c ← cell data (16 + i - 1);
        if c =? 0
        then parse_proxy_proto_header_v1 ws data (length PROXY_HEADER_V1)
        else Ok (-1, ws)
      else recv_line n (S i) ws data s
    end
  end.

Definition v2_inet (ws : worker) (data : mem) : cres worker :=
  port ← cells data 8 2; addr ← cells data 0 4;
  sa ← put_family zero_addr AF_INET; sa ← put_port sa port; remote ← put_sin_addr sa addr;
  addr ← cells data 4 4; port ← cells data 10 2;
  sa ← put_family zero_addr AF_INET; sa ← put_sin_addr sa addr; our ← put_port sa port;
  Ok {| ws with remote_addr := remote; remote_addr_len := SOCKADDR_IN;
        our_addr := our; our_addr_len := SOCKADDR_IN |}.

(** The second assignment of the family still goes to [remote_addr], and the
    length of [our_addr] is the one of an IPv4 address. *)
Definition v2_inet6 (ws : worker) (data : mem) : cres worker :=
  addr ← cells data 0 16; port ← cells data 32 2;
  sa ← put_family zero_addr AF_INET6; sa ← put_port sa [0; 0];
  sa ← put_sin6_addr sa addr; remote ← put_port sa port;
  remote ← put_family remote AF_INET6;
  addr ← cells data 16 16; port ← cells data 34 2;
  sa ← put_sin6_addr zero_addr addr; our ← put_port sa port;
  Ok {| ws with remote_addr := remote; remote_addr_len := SOCKADDR_IN6;
        our_addr := our; our_addr_len := SOCKADDR_IN |}.

(** From the command on: the addresses and the TLVs. *)
Definition v2_body (ws : worker) (ver_cmd fam : Z) (data : mem) (data_size : Z) : cres (Z * worker) :=
  let cmd := Z.land ver_cmd 0x0f in
  let ver := Z.shiftr (Z.land ver_cmd 0xf0) 4 in
  if negb (ver =? 2) then Ok (0, ws) else
  if negb (cmd =? 1) && negb (cmd =? 0) then Ok (-1, ws) else
  let family := Z.shiftr (Z.land fam 0xf0) 4 in
  let proto := Z.land fam 0x0f in
  if negb (family =? 1) && negb (family =? 2) then Ok (0, ws) else
  if negb (proto =? 1) && negb (proto =? 0) then Ok (0, ws) else
  let size := if family =? 1 then 12 else 36 in
  if data_size <? size then Ok (0, ws) else
  ws ← (if family =? 1 then v2_inet ws data else v2_inet6 ws data);
  let data_size := data_size - size in
  if conn_unix ws && (0 <? data_size) then
    ws ← parse_ssl_tlvs (S (Z.to_nat data_size)) ws (drop (Z.to_nat size) data) data_size;
    Ok (0, ws)
  else Ok (0, ws).

Definition parse_proxy_proto_header (ws : worker) (s : list sock_event) : cres (Z * worker) :=
  let data : mem := replicate hdr_data_size None in
  match force_read_timeout DEFAULT_SOCKET_TIMEOUT s 16 with
  | (None, _) => Ok (-1, ws)
  | (Some hdr, s) =>
    sig1 ← mem_at hdr 0 (length PROXY_HEADER_V1);
    if memcmp sig1 PROXY_HEADER_V1 =? 0 then
      data ← poke data 0 (Some <$> hdr);
      recv_line (MAX_PROXY_PROTO_V1_SIZE - 16) 0 ws data s
    else
    sig2 ← mem_at hdr 0 (length PROXY_HEADER_V2);
    if negb (memcmp sig2 PROXY_HEADER_V2 =? 0) then Ok (-1, ws) else
    rest ← mem_at hdr 12 4;
    match rest with
    | [ver_cmd; fam; l0; l1] =>
      let data_size := htons l0 l1 in
      if Z.of_nat hdr_data_size <? data_size then Ok (-1, ws) else
      match force_read_timeout DEFAULT_SOCKET_TIMEOUT s (Z.to_nat data_size) with
      | (None, _) => Ok (-1, ws)
      | (Some bs, _) =>
        data ← poke data 0 (Some <$> bs);
        v2_body ws ver_cmd fam data data_size
      end
    | _ => UB
    end
  end.
End v1.
