(* ===== verification/ProxySafety.v ===== *)
(** * Correctness of the proxy protocol parser

    For any bytes from the peer, in any pieces, the parser of ProxyProto.v
    performs no undefined operation and ends; headers written by a proxy are
    read back; the certificate status only changes for a TLV on the UNIX
    socket. *)

From Stdlib Require Import Ascii.
From stdpp Require Import pretty.
From S2P Require Import Prelude CString Sock IpUtil NetText ProxyProto.

(** ** Memory *)

Lemma poke_eq {A} (m : list A) off bs :
  (off + length bs ≤ length m)%nat →
  poke m off bs = Ok (take off m ++ bs ++ drop (off + length bs) m).
Proof. intros H. unfold poke. by rewrite (proj2 (Nat.leb_le _ _) H). Qed.

Lemma poke_length {A} (m m' : list A) off bs : poke m off bs = Ok m' → length m' = length m.
Proof.
  unfold poke. destruct (Nat.leb_spec (off + length bs) (length m)); [|done]. intros [= <-].
  rewrite !length_app, length_take, length_drop. lia.
Qed.

Lemma poke_app {A} (x y y' z : list A) :
  length y' = length y → poke (x ++ y ++ z) (length x) y' = Ok (x ++ y' ++ z).
Proof.
  intros Hl. rewrite poke_eq by (rewrite !length_app; lia).
  rewrite take_app_length, Hl, <- drop_drop, !drop_app_length. done.
Qed.

Lemma mapM_id_Some (l : list Z) : mapM id (Some <$> l) = Some l.
Proof. by apply mapM_fmap_Some. Qed.

Lemma cells_app (l : list Z) m n : n = length l → cells ((Some <$> l) ++ m) 0 n = Ok l.
Proof.
  intros ->. unfold cells. rewrite (proj2 (Nat.leb_le _ _)) by (rewrite length_app, length_fmap; lia).
  rewrite drop_0, <- (length_fmap (@Some Z) l), take_app_length, mapM_id_Some. done.
Qed.

(** The cells of initialised memory. *)
Lemma cells_init (l : list Z) m off n :
  (off + n ≤ length l)%nat → cells ((Some <$> l) ++ m) off n = Ok (take n (drop off l)).
Proof.
  intros H. unfold cells. rewrite (proj2 (Nat.leb_le _ _)) by (rewrite length_app, length_fmap; lia).
  rewrite drop_app_le, take_app_le, <- fmap_drop, <- fmap_take, mapM_id_Some
    by (rewrite ?length_drop, ?length_fmap; lia). done.
Qed.

Lemma drop_init (l : list Z) (m : mem) n :
  (n ≤ length l)%nat → drop n ((Some <$> l) ++ m) = (Some <$> drop n l) ++ m.
Proof. intros H. by rewrite drop_app_le, fmap_drop by (rewrite length_fmap; lia). Qed.

(** [holds m off s]: the C string [s] is at [off]. *)
Definition holds (m : mem) (off : nat) (s : list Z) : Prop :=
  ∃ rest, drop off m = (Some <$> s) ++ Some 0 :: rest ∧ Forall (λ b, 0 < b < 256) s.

Lemma cstr_holds m off s : holds m off s → cstr (drop off m) = Ok s.
Proof.
  intros (rest & -> & Hs). induction Hs as [|b s Hb Hs IH]; [done|].
  rewrite fmap_cons, <- app_comm_cons. cbn [cstr].
  destruct (Z.eqb_spec b 0); [lia|]. by rewrite IH.
Qed.

Fixpoint split_space (s : list Z) : option (list Z * list Z) :=
  match s with
  | [] => None
  | b :: s => if b =? SPACE then Some ([], s) else '(u, v) ← split_space s; Some (b :: u, v)
  end.

Lemma split_space_Some s u v : split_space s = Some (u, v) → s = u ++ SPACE :: v.
Proof.
  revert u v. induction s as [|b s IH]; intros u v; simpl; [done|].
  destruct (Z.eqb_spec b SPACE) as [->|]; [by intros [= <- <-]|].
  destruct (split_space s) as [[u' v']|]; simpl; [|done].
  intros [= <- <-]. simpl. f_equal. by apply IH.
Qed.

Lemma strchr_go_split s rest off :
  Forall (λ b, 0 < b < 256) s →
  strchr_go ((Some <$> s) ++ Some 0 :: rest) SPACE off =
    Ok (match split_space s with Some (u, _) => Some (off + length u)%nat | None => None end).
Proof.
  intros Hs. revert off. induction Hs as [|b s Hb Hs IH]; intros off; [done|].
  rewrite fmap_cons, <- app_comm_cons. cbn [strchr_go split_space].
  destruct (Z.eqb_spec b SPACE); [by rewrite Nat.add_0_r|].
  destruct (Z.eqb_spec b 0); [lia|]. rewrite IH.
  destruct (split_space s) as [[u v]|]; simpl; [|done]. do 2 f_equal. lia.
Qed.

(** [strchr] for a space finds the end of the first word; writing a NUL there
    leaves two strings. *)
Lemma strchr_holds m off s :
  holds m off s →
  strchr_at m off SPACE =
    Ok (match split_space s with Some (u, _) => Some (off + length u)%nat | None => None end).
Proof. intros (rest & E & Hs). unfold strchr_at. rewrite E. by apply strchr_go_split. Qed.

Lemma holds_tail m off s u v :
  holds m off s → split_space s = Some (u, v) → holds m (off + length u + 1) v.
Proof.
  intros (rest & E & Hs) ->%split_space_Some. exists rest.
  apply Forall_app in Hs as [_ [_ Hv]%Forall_cons]. split; [|done].
  rewrite <- !drop_drop, E, fmap_app, <- app_assoc, <- (length_fmap (@Some Z) u), drop_app_length.
  done.
Qed.

Lemma cut_holds m off s u v :
  holds m off s → split_space s = Some (u, v) →
  ∃ m', poke m (off + length u) [Some 0] = Ok m' ∧ holds m' off u ∧ holds m' (off + length u + 1) v.
Proof.
  intros (rest & E & Hs) ->%split_space_Some.
  apply Forall_app in Hs as [Hu [_ Hv]%Forall_cons].
  assert (off ≤ length m)%nat as Hoff.
  { destruct (Nat.le_gt_cases off (length m)); [done|].
    rewrite drop_ge in E by lia. by destruct u. }
  rewrite fmap_app, <- app_assoc in E. simpl in E.
  assert (m = (take off m ++ (Some <$> u)) ++ [Some SPACE] ++ ((Some <$> v) ++ Some 0 :: rest)) as Em.
  { rewrite <- (take_drop off m) at 1. by rewrite E, <- app_assoc. }
  assert (length (take off m ++ (Some <$> u)) = off + length u)%nat as Hl
    by (rewrite length_app, length_take, length_fmap; lia).
  eexists. rewrite Em at 1. rewrite <- Hl at 1. split; [by apply poke_app|]. split.
  - eexists. split; [|done]. rewrite <- app_assoc.
    rewrite <- (length_take_le m off) at 1 by lia. by rewrite drop_app_length.
  - eexists. split; [|done]. rewrite <- drop_drop, <- Hl, drop_app_length. done.
Qed.

Lemma strncmp_holds m off s lit :
  holds m off s → Forall (λ b, b ≠ 0) lit →
  strncmp_eq (drop off m) lit = Ok (bool_decide (lit `prefix_of` s)).
Proof.
  intros (rest & -> & Hs) Hlit. revert s Hs. induction Hlit as [|x lit Hx Hlit IH]; intros s Hs.
  - rewrite bool_decide_eq_true_2 by apply prefix_nil. by destruct s.
  - destruct s as [|b s]; [|rewrite fmap_cons, <- app_comm_cons]; cbn [strncmp_eq app fmap list_fmap].
    + destruct (Z.eqb_spec 0 x); [lia|]. rewrite bool_decide_eq_false_2; [done|].
      apply prefix_nil_not.
    + apply Forall_cons in Hs as [_ Hs]. destruct (Z.eqb_spec b x) as [->|].
      * rewrite IH by done. f_equal. apply bool_decide_ext. split; [apply prefix_cons|apply prefix_cons_inv_2].
      * rewrite bool_decide_eq_false_2; [done|]. by intros ?%prefix_cons_inv_1.
Qed.

Lemma holds_drop m off s n : holds m off s → (n ≤ length s)%nat → holds m (off + n) (drop n s).
Proof.
  intros (rest & E & Hs) Hn. exists rest. split; [|by apply Forall_drop].
  rewrite <- drop_drop, E. by apply drop_init.
Qed.

(** ** The text form *)

Definition sockaddr_in (port a : list Z) : list Z := [AF_INET; 0] ++ port ++ a ++ replicate 120 0.
Definition sockaddr_in6 (port a : list Z) : list Z :=
  [AF_INET6; 0] ++ port ++ [0; 0; 0; 0] ++ a ++ replicate 104 0.

#[global] Arguments zero_addr : simpl never.
#[global] Arguments sockaddr_in : simpl never.
#[global] Arguments sockaddr_in6 : simpl never.

Lemma sockaddr_in_length p a :
  length p = 2%nat → length a = 4%nat → length (sockaddr_in p a) = SOCKADDR_STORAGE.
Proof. intros Hp Ha. unfold sockaddr_in. by rewrite !length_app, Hp, Ha, length_replicate. Qed.

Lemma sockaddr_in6_length p a :
  length p = 2%nat → length a = 16%nat → length (sockaddr_in6 p a) = SOCKADDR_STORAGE.
Proof. intros Hp Ha. unfold sockaddr_in6. by rewrite !length_app, Hp, Ha, length_replicate. Qed.

Lemma zero_addr_length : length zero_addr = SOCKADDR_STORAGE.
Proof. apply length_replicate. Qed.

Lemma in_family : put_family zero_addr AF_INET = Ok (sockaddr_in [0; 0] [0; 0; 0; 0]).
Proof. reflexivity. Qed.

Lemma in6_family : put_family zero_addr AF_INET6 = Ok (sockaddr_in6 [0; 0] (replicate 16 0)).
Proof. reflexivity. Qed.

Lemma in_port p a q : length p = 2%nat → length q = 2%nat →
  put_port (sockaddr_in p a) q = Ok (sockaddr_in q a).
Proof. intros Hp Hq. apply (poke_app [AF_INET; 0] p q). lia. Qed.

Lemma in6_port p a q : length p = 2%nat → length q = 2%nat →
  put_port (sockaddr_in6 p a) q = Ok (sockaddr_in6 q a).
Proof. intros Hp Hq. apply (poke_app [AF_INET6; 0] p q). lia. Qed.

Lemma in_addr p a b : length p = 2%nat → length a = length b →
  put_sin_addr (sockaddr_in p a) b = Ok (sockaddr_in p b).
Proof.
  intros Hp Hb. destruct p as [|p0 [|p1 [|]]]; try done.
  by apply (poke_app [AF_INET; 0; p0; p1] a b).
Qed.

Lemma in6_addr p a b : length p = 2%nat → length a = length b →
  put_sin6_addr (sockaddr_in6 p a) b = Ok (sockaddr_in6 p b).
Proof.
  intros Hp Hb. destruct p as [|p0 [|p1 [|]]]; try done.
  by apply (poke_app [AF_INET6; 0; p0; p1; 0; 0; 0; 0] a b).
Qed.

(** A worker whose buffers have the sizes of their C types; the user name is
    a C string. *)
Record worker_ok (ws : worker) : Prop := {
  wo_remote : length (remote_addr ws) = SOCKADDR_STORAGE;
  wo_our : length (our_addr ws) = SOCKADDR_STORAGE;
  wo_user : length (cert_username ws) = MAX_USERNAME_SIZE;
  wo_nul : 0 ∈ cert_username ws }.

Ltac wcbn :=
  cbn [remote_addr our_addr remote_addr_len our_addr_len conn_unix cert_auth_ok cert_username].

Section v1_spec.
Context (pton6 : string → option (list Z)).
Context (Hpton6 : ∀ t a, pton6 t = Some a → length a = 16%nat).

(** The four words of a line: the addresses, the rest from the first port
    on, and the rest from the second port on. *)
Definition v1_words (s : list Z) : option (list Z * list Z * list Z * list Z) :=
  '(a, s) ← split_space s; '(b, p) ← split_space s; '(_, q) ← split_space p; Some (a, b, p, q).

Definition port_of (s : list Z) : list Z := be16 (atoi (of_bytes s)).

Definition v1_spec (s : list Z) : option (list Z * list Z * Z) :=
  if bool_decide (TCP4 `prefix_of` s) then
    '(a, b, p, q) ← v1_words (drop 5 s);
    x ← inet_pton4 (of_bytes a); y ← inet_pton4 (of_bytes b);
    Some (sockaddr_in (port_of p) (be32 x), sockaddr_in (port_of q) (be32 y), SOCKADDR_IN)
  else if bool_decide (TCP6 `prefix_of` s) then
    '(a, b, p, q) ← v1_words (drop 5 s);
    x ← pton6 (of_bytes a); y ← pton6 (of_bytes b);
    Some (sockaddr_in6 (port_of p) x, sockaddr_in6 (port_of q) y, SOCKADDR_IN6)
  else None.

(** The outcome of a header: [Some] the addresses it gives, or a failure
    that leaves the certificate alone. *)
Definition v1_outcome (ws : worker) (o : option (list Z * list Z * Z)) (r : cres (Z * worker)) : Prop :=
  match o with
  | Some (remote, our, len) =>
    r = Ok (0, {| ws with remote_addr := remote; remote_addr_len := len;
                          our_addr := our; our_addr_len := len |})
  | None => ∃ ws', r = Ok (-1, ws') ∧ length (remote_addr ws') = SOCKADDR_STORAGE ∧
      length (our_addr ws') = SOCKADDR_STORAGE ∧ conn_unix ws' = conn_unix ws ∧
      cert_auth_ok ws' = cert_auth_ok ws ∧ cert_username ws' = cert_username ws
  end.

Ltac v1_pton :=
  cbn [mbind option_bind];
  repeat match goal with H : _ (of_bytes _) = _ |- _ => rewrite H; clear H; cbn [mbind option_bind] end.
Ltac v1_fail :=
  v1_pton; cbn [v1_outcome];
  eexists; split; [reflexivity|];
  wcbn; split_and!; first [reflexivity | apply zero_addr_length | by apply sockaddr_in_length
                    | apply sockaddr_in6_length; auto].

Lemma v1_tcp4_spec ws m line s :
  remote_addr ws = zero_addr → our_addr ws = zero_addr → holds m (line + 5) s →
  v1_outcome ws ('(a, b, p, q) ← v1_words s;
    x ← inet_pton4 (of_bytes a); y ← inet_pton4 (of_bytes b);
    Some (sockaddr_in (port_of p) (be32 x), sockaddr_in (port_of q) (be32 y), SOCKADDR_IN))
    (v1_tcp4 ws m line).
Proof.
  intros Hr Ho Hm. destruct ws as [cu ra rl oa ol ca un]. cbn in Hr, Ho. subst ra oa.
  unfold v1_tcp4, v1_words. wcbn. rewrite in_family. run.
  rewrite (strchr_holds _ _ _ Hm).
  destruct (split_space s) as [[a s1]|] eqn:E1; [|v1_fail].
  destruct (cut_holds _ _ _ _ _ Hm E1) as (m1 & Em1 & Ha & Hm1). run. rewrite Em1. run.
  rewrite (cstr_holds _ _ _ Ha). run. cbn [mbind option_bind].
  destruct (inet_pton4 (of_bytes a)) as [x|] eqn:Hx;
    [|destruct (split_space s1) as [[b s2]|]; cbn [mbind option_bind];
      [destruct (split_space s2) as [[]|]|]; v1_fail].
  wcbn. rewrite in_addr by done. run. wcbn. 

  rewrite (strchr_holds _ _ _ Hm1).
  destruct (split_space s1) as [[b s2]|] eqn:E2; [|v1_fail].
  destruct (cut_holds _ _ _ _ _ Hm1 E2) as (m2 & Em2 & Hb & Hm2). run. rewrite Em2. run.
  rewrite (cstr_holds _ _ _ Hb). run. cbn [mbind option_bind].
  destruct (inet_pton4 (of_bytes b)) as [y|] eqn:Hy; [|destruct (split_space s2) as [[]|]; v1_fail].
  wcbn. rewrite in_addr by done. run.
  rewrite (cstr_holds _ _ _ Hm2). run. wcbn. rewrite in_port by done. run.
  rewrite (strchr_holds _ _ _ Hm2).
  destruct (split_space s2) as [[p s3]|] eqn:E3; [|v1_fail].
  run. rewrite (cstr_holds _ _ _ (holds_tail _ _ _ _ _ Hm2 E3)). run.
  wcbn. v1_pton. by rewrite in_port.
Qed.

Lemma v1_tcp6_spec ws m line s :
  remote_addr ws = zero_addr → our_addr ws = zero_addr → holds m (line + 5) s →
  v1_outcome ws ('(a, b, p, q) ← v1_words s;
    x ← pton6 (of_bytes a); y ← pton6 (of_bytes b);
    Some (sockaddr_in6 (port_of p) x, sockaddr_in6 (port_of q) y, SOCKADDR_IN6))
    (v1_tcp6 pton6 ws m line).
Proof.
  intros Hr Ho Hm. destruct ws as [cu ra rl oa ol ca un]. cbn in Hr, Ho. subst ra oa.
  unfold v1_tcp6, v1_words. wcbn. rewrite in6_family. run.
  rewrite (strchr_holds _ _ _ Hm).
  destruct (split_space s) as [[a s1]|] eqn:E1; [|v1_fail].
  destruct (cut_holds _ _ _ _ _ Hm E1) as (m1 & Em1 & Ha & Hm1). run. rewrite Em1. run.
  rewrite (cstr_holds _ _ _ Ha). run. cbn [mbind option_bind].
  destruct (pton6 (of_bytes a)) as [x|] eqn:Hx;
    [|destruct (split_space s1) as [[b s2]|]; cbn [mbind option_bind];
      [destruct (split_space s2) as [[]|]|]; v1_fail].
  pose proof (Hpton6 _ _ Hx).
  wcbn. rewrite in6_addr by done. run.
  rewrite (strchr_holds _ _ _ Hm1).
  destruct (split_space s1) as [[b s2]|] eqn:E2; [|v1_fail].
  destruct (cut_holds _ _ _ _ _ Hm1 E2) as (m2 & Em2 & Hb & Hm2). run. rewrite Em2. run.
  wcbn.
  rewrite (cstr_holds _ _ _ Hb). run. cbn [mbind option_bind].
  destruct (pton6 (of_bytes b)) as [y|] eqn:Hy; [|destruct (split_space s2) as [[]|]; v1_fail].
  pose proof (Hpton6 _ _ Hy).
  wcbn. rewrite in6_addr by done. run.
  rewrite (cstr_holds _ _ _ Hm2). run. wcbn. rewrite in6_port by done. run.
  rewrite (strchr_holds _ _ _ Hm2).
  destruct (split_space s2) as [[p s3]|] eqn:E3; [|v1_fail].
  run. rewrite (cstr_holds _ _ _ (holds_tail _ _ _ _ _ Hm2 E3)). run.
  wcbn. v1_pton. by rewrite in6_port.
Qed.

(** The in-place parser of a line computes the addresses of its words. *)
Lemma v1_refines ws m line s :
  holds m line s → v1_outcome ws (v1_spec s) (parse_proxy_proto_header_v1 pton6 ws m line).
Proof.
  intros Hm. unfold parse_proxy_proto_header_v1, v1_spec.
  rewrite (strncmp_holds _ _ _ TCP4 Hm), (strncmp_holds _ _ _ TCP6 Hm) by (by repeat constructor).
  set (ws0 := {| ws with remote_addr := zero_addr; our_addr := zero_addr |}).
  assert (∀ o r, v1_outcome ws0 o r → v1_outcome ws o r) as Hws.
  { intros [[[? ?] ?]|] r; [by intros ->|done]. }
  apply Hws. clear Hws. run. destruct (bool_decide_reflect (TCP4 `prefix_of` s)) as [Hp|_].
  { apply v1_tcp4_spec; [done..|]. apply holds_drop; [done|]. by apply prefix_length in Hp. }
  destruct (bool_decide_reflect (TCP6 `prefix_of` s)) as [Hp|_].
  { apply v1_tcp6_spec; [done..|]. apply holds_drop; [done|]. by apply prefix_length in Hp. }
  eexists. split; [done|]. subst ws0. wcbn. by split_and!; [apply zero_addr_length..|done|done|done].
Qed.

Lemma v1_spec_lengths s remote our len :
  v1_spec s = Some (remote, our, len) →
  length remote = SOCKADDR_STORAGE ∧ length our = SOCKADDR_STORAGE.
Proof.
  unfold v1_spec. intros H. destruct (bool_decide (TCP4 `prefix_of` s));
    [|destruct (bool_decide (TCP6 `prefix_of` s)); [|done]];
    destruct (v1_words _) as [[[[a b] p] q]|]; try done; simpl in H.
  - destruct (inet_pton4 (of_bytes a)) as [x|]; [|done]; simpl in H.
    destruct (inet_pton4 (of_bytes b)) as [y|]; [|done]; simpl in H.
    simplify_eq. by split; apply sockaddr_in_length.
  - destruct (pton6 (of_bytes a)) as [x|] eqn:Hx; [|done]; simpl in H.
    destruct (pton6 (of_bytes b)) as [y|] eqn:Hy; [|done]; simpl in H.
    simplify_eq. split; apply sockaddr_in6_length; eauto.
Qed.

(** Some NUL ends a C string of initialised bytes. *)
Lemma split_nul (l : list Z) :
  bytes l → 0 ∈ l → ∃ s r, l = s ++ 0 :: r ∧ Forall (λ b, 0 < b < 256) s.
Proof.
  induction l as [|b l IH]; [by intros _ ?%elem_of_nil|].
  intros [Hb Hl]%bytes_cons Hin. destruct (decide (b = 0)) as [->|].
  - by exists [], l.
  - apply elem_of_cons in Hin as [|Hin]; [done|].
    destruct (IH Hl Hin) as (s & r & -> & Hs). exists (b :: s), r. split; [done|].
    constructor; [lia|done].
Qed.

Lemma init_holds (l : list Z) (m : mem) off :
  bytes l → 0 ∈ drop off l → ∃ s, holds ((Some <$> l) ++ m) off s.
Proof.
  intros Hl Hin. assert (off ≤ length l)%nat.
  { destruct (Nat.le_gt_cases off (length l)); [done|].
    rewrite drop_ge in Hin by lia. by apply elem_of_nil in Hin. }
  destruct (split_nul (drop off l)) as (s & r & E & Hs); [by apply Forall_drop|done|].
  exists s. eexists. split; [|done]. rewrite drop_init, E, fmap_app, <- app_assoc by done. done.
Qed.

Lemma poke_init (l : list Z) k b :
  (0 < k)%nat →
  poke ((Some <$> l) ++ replicate k None) (length l) [Some b] =
    Ok ((Some <$> (l ++ [b])) ++ replicate (k - 1) None).
Proof.
  intros Hk. destruct k as [|k]; [lia|]. rewrite <- (length_fmap (@Some Z) l).
  replace (S k - 1)%nat with k by lia.
  rewrite (poke_app (Some <$> l) [None] [Some b] (replicate k None)) by done.
  by rewrite fmap_app, <- app_assoc.
Qed.

Lemma poke_last (l : list Z) (m : mem) b b' :
  poke ((Some <$> (l ++ [b])) ++ m) (length l) [Some b'] = Ok ((Some <$> (l ++ [b'])) ++ m).
Proof.
  rewrite !fmap_app, <- !app_assoc, <- (length_fmap (@Some Z) l) at 1.
  apply (poke_app (Some <$> l) [Some b] [Some b'] m). done.
Qed.

(** One round of the loop that receives a line. *)
Lemma recv_line_step n i ws l k s b s' :
  length l = (16 + i)%nat → (0 < k)%nat → recv1 s = (Some b, s') →
  recv_line pton6 (S n) i ws ((Some <$> l) ++ replicate k None) s =
    if b =? LF then
      c ← cell ((Some <$> (l ++ [b])) ++ replicate (k - 1) None) (16 + i - 1);
      if c =? 0 then
        parse_proxy_proto_header_v1 pton6 ws ((Some <$> (l ++ [b])) ++ replicate (k - 1) None)
          (length PROXY_HEADER_V1)
      else Ok (-1, ws)
    else recv_line pton6 n (S i) ws
      ((Some <$> (l ++ [if b =? CR then 0 else b])) ++ replicate (k - 1) None) s'.
Proof.
  intros Hl Hk Hb. cbn [recv_line]. rewrite Hb, <- Hl, poke_init by done. run.
  destruct (Z.eqb_spec b CR) as [->|]; [|done]. rewrite poke_last. done.
Qed.

Lemma cell_init (l : list Z) (m : mem) i b : l !! i = Some b → cell ((Some <$> l) ++ m) i = Ok b.
Proof.
  intros H. unfold cell.
  rewrite lookup_app_l by (rewrite length_fmap; by eapply lookup_lt_Some).
  by rewrite list_lookup_fmap, H.
Qed.

(** Any bytes received as a line are handled without an undefined operation,
    and the certificate is left alone. *)
Lemma recv_line_safe n : ∀ i ws l s,
  length l = (16 + i)%nat → (n + i = MAX_PROXY_PROTO_V1_SIZE - 16)%nat →
  bytes l → bytes (arriving s) → worker_ok ws →
  ∃ r ws', recv_line pton6 n i ws ((Some <$> l) ++ replicate (hdr_data_size - length l) None) s
      = Ok (r, ws') ∧ (r = 0 ∨ r = -1) ∧ worker_ok ws' ∧
    cert_auth_ok ws' = cert_auth_ok ws ∧ cert_username ws' = cert_username ws.
Proof.
  induction n as [|n IH]; intros i ws l s Hl Hn Hbl Hbs Hws.
  { exists (-1), ws. by auto. }
  destruct (recv1 s) as [[b|] s'] eqn:Hr; cycle 1.
  { exists (-1), ws. cbn [recv_line]. rewrite Hr. by auto. }
  assert (hdr_data_size = 520%nat ∧ MAX_PROXY_PROTO_V1_SIZE = 108%nat) as [Hds Hmx] by done.
  rewrite (recv_line_step _ _ _ _ _ _ b s') by (done || lia).
  apply recv1_Some in Hr. rewrite Hr in Hbs. apply bytes_cons in Hbs as [Hb Hbs].
  replace (hdr_data_size - length l - 1)%nat with (hdr_data_size - (length l + 1))%nat by lia.
  destruct (b =? LF).
  - destruct (lookup_lt_is_Some_2 l (16 + i - 1)) as [c Hc]; [lia|].
    rewrite (cell_init _ _ _ c) by (by apply lookup_app_l_Some). run.
    destruct (Z.eqb_spec c 0) as [->|]; [|exists (-1), ws; by auto].
    destruct (init_holds (l ++ [b]) (replicate (hdr_data_size - (length l + 1)) None)
      (length PROXY_HEADER_V1)) as (str & Hstr).
    { apply bytes_app. split; [done|]. apply bytes_cons. split; [lia|constructor]. }
    { rewrite drop_app_le by (simpl; lia). apply elem_of_app. left.
      apply (list_elem_of_lookup_2 _ (16 + i - 1 - 6)).
      rewrite lookup_drop, <- Hc. f_equal. }
    pose proof (v1_refines ws _ _ _ Hstr) as Ho. destruct (v1_spec str) as [[[ra oa] al]|] eqn:Esp.
    + rewrite Ho. eexists 0, _. split; [done|]. split; [by left|]. split; [|done].
      destruct Hws. constructor; wcbn; [..|done|done].
      all: by apply (v1_spec_lengths _ _ _ _ Esp).
    + destruct Ho as (ws' & -> & H1 & H2 & H3 & H4 & H5). eexists (-1), ws'. destruct Hws.
      split; [done|]. split; [by right|]. split; [|done]. constructor; congruence.
  - destruct (IH (S i) ws (l ++ [if b =? CR then 0 else b]) s') as (r & ws' & H & H');
      [rewrite length_app; simpl; lia|lia| |done..|].
    { apply bytes_app. split; [done|]. apply bytes_cons. split; [destruct (b =? CR); lia|constructor]. }
    rewrite length_app in H. exists r, ws'. done.
Qed.
End v1_spec.

(** ** TLVs *)

(** The bytes hold a TLV that says that the client presented a certificate
    the proxy verified. *)
Definition has_verified_tlv (l : list Z) : Prop :=
  ∃ pre l0 l1 tssl post, l = pre ++ [PP2_TYPE_SSL; l0; l1] ++ tssl ++ post ∧
    cert_verified tssl = true ∧ length tssl = pp2_tlv_ssl.

(** The bytes hold a TLV with the user name [name]. *)
Definition has_name_tlv (l name : list Z) : Prop :=
  ∃ pre l0 l1 post, l = pre ++ [PP2_TYPE_SSL_CN; l0; l1] ++ name ++ post ∧
    Z.of_nat (length name) = htons l0 l1 ∧ (length name < MAX_USERNAME_SIZE)%nat.

Lemma has_verified_tlv_app k l : has_verified_tlv l → has_verified_tlv (k ++ l).
Proof. intros (pre & l0 & l1 & t & post & -> & H). exists (k ++ pre), l0, l1, t, post. by rewrite <- app_assoc. Qed.

Lemma has_name_tlv_app k l name : has_name_tlv l name → has_name_tlv (k ++ l) name.
Proof. intros (pre & l0 & l1 & post & -> & H). exists (k ++ pre), l0, l1, post. by rewrite <- app_assoc. Qed.

(** What may have happened to the certificate while the bytes were parsed. *)
Definition cert_from (l : list Z) (ws ws' : worker) : Prop :=
  (cert_auth_ok ws' = cert_auth_ok ws ∨ cert_auth_ok ws' = true ∧ has_verified_tlv l) ∧
  (cert_username ws' = cert_username ws ∨
   ∃ name, has_name_tlv l name ∧ cert_auth_ok ws' = true ∧ name ++ [0] `prefix_of` cert_username ws').

Definition same_addrs (ws ws' : worker) : Prop :=
  remote_addr ws' = remote_addr ws ∧ remote_addr_len ws' = remote_addr_len ws ∧
  our_addr ws' = our_addr ws ∧ our_addr_len ws' = our_addr_len ws ∧ conn_unix ws' = conn_unix ws.

Lemma same_addrs_refl ws : same_addrs ws ws.
Proof. by repeat split. Qed.

Lemma cert_from_refl l ws : cert_from l ws ws.
Proof. split; by left. Qed.

Lemma cert_from_app k l ws ws' : cert_from l ws ws' → cert_from (k ++ l) ws ws'.
Proof.
  intros [H1 H2]. split.
  - destruct H1 as [|[]]; [by left|right]. split; [done|by apply has_verified_tlv_app].
  - destruct H2 as [|(n & ? & ?)]; [by left|right]. exists n. split; [by apply has_name_tlv_app|done].
Qed.

Lemma cert_from_app_r k l ws ws' : cert_from l ws ws' → cert_from (l ++ k) ws ws'.
Proof.
  intros [H1 H2]. split.
  - destruct H1 as [|[? (pre & l0 & l1 & t & post & -> & ?)]]; [by left|right]. split; [done|].
    exists pre, l0, l1, t, (post ++ k). by rewrite <- !app_assoc.
  - destruct H2 as [|(n & (pre & l0 & l1 & post & -> & ?) & ?)]; [by left|right]. exists n.
    split; [|done]. exists pre, l0, l1, (post ++ k). by rewrite <- !app_assoc.
Qed.

Lemma cert_from_trans l ws1 ws2 ws3 : cert_from l ws1 ws2 → cert_from l ws2 ws3 → cert_from l ws1 ws3.
Proof.
  intros [H1 H2] [H3 H4]. split.
  - destruct H3 as [->|]; [done|by right].
  - destruct H4 as [->|]; [|by right]. destruct H2 as [|(n & ? & Hok & ?)]; [by left|right].
    exists n. split_and!; [done| |done]. by destruct H3 as [->|[]].
Qed.

(** The user name after a name was written to it. *)
Definition new_name (user name : list Z) : list Z := name ++ [0] ++ drop (length name + 1) user.

Lemma poke_name (user name : list Z) :
  length user = MAX_USERNAME_SIZE → (length name < MAX_USERNAME_SIZE)%nat →
  (user ← poke user 0 name; poke user (length name) [0]) = Ok (new_name user name).
Proof.
  intros Hu Hn. rewrite poke_eq by (simpl; lia). run. rewrite take_0, app_nil_l, Nat.add_0_l.
  destruct (lookup_lt_is_Some_2 user (length name)) as [c Hc]; [lia|].
  rewrite (drop_S _ _ _ Hc). unfold new_name. rewrite Nat.add_1_r.
  apply (poke_app name [c] [0]). done.
Qed.

Lemma new_name_length user name :
  length user = MAX_USERNAME_SIZE → (length name < MAX_USERNAME_SIZE)%nat →
  length (new_name user name) = MAX_USERNAME_SIZE.
Proof. intros Hu Hn. unfold new_name. rewrite !length_app, length_drop. simpl. lia. Qed.

Section tlvs.
Context (m : mem).

(** The loop at a pointer to the initialised bytes [l]. *)
Definition tlvs_at (fuel : nat) (ws : worker) (l : list Z) : cres worker :=
  parse_ssl_tlvs fuel ws ((Some <$> l) ++ m) (Z.of_nat (length l)).

Lemma tlvs_short fuel ws l : (length l < pp2_tlv)%nat → tlvs_at (S fuel) ws l = Ok ws.
Proof.
  intros Hl. unfold tlvs_at. cbn [parse_ssl_tlvs]. unfold pp2_tlv in *.
  destruct (Z.leb_spec (Z.of_nat (length l)) 0); [done|].
  destruct (Z.ltb_spec (Z.of_nat (length l)) (Z.of_nat 3)); [done|lia].
Qed.

Lemma tlvs_cons fuel ws type l0 l1 l :
  let len := htons l0 l1 in
  0 ≤ len → length (cert_username ws) = MAX_USERNAME_SIZE →
  tlvs_at (S fuel) ws (type :: l0 :: l1 :: l) =
    if type =? PP2_TYPE_SSL then
      if len <? 5 then tlvs_at fuel ws l else
      if (length l <? pp2_tlv_ssl)%nat then Ok ws else
      tlvs_at fuel (if cert_verified (take pp2_tlv_ssl l) then {| ws with cert_auth_ok := true |} else ws)
        (drop pp2_tlv_ssl l)
    else if (type =? PP2_TYPE_SSL_CN) && cert_auth_ok ws then
      if 63 <? len then tlvs_at fuel ws l else
      if (length l <? Z.to_nat len)%nat then Ok ws else
      tlvs_at fuel {| ws with cert_username := new_name (cert_username ws) (take (Z.to_nat len) l) |}
        (drop (Z.to_nat len) l)
    else
      if (length l <? Z.to_nat len)%nat then Ok ws else tlvs_at fuel ws (drop (Z.to_nat len) l).
Proof.
  intros len Hlen Hu. unfold tlvs_at. cbn [parse_ssl_tlvs].
  set (d := (Some <$> l) ++ m).
  assert ((Some <$> type :: l0 :: l1 :: l) ++ m = (Some <$> [type; l0; l1]) ++ d) as -> by done.
  rewrite cells_app by done. run. fold len.
  assert (drop pp2_tlv ((Some <$> [type; l0; l1]) ++ d) = d) as -> by done.
  assert (Z.of_nat (length (type :: l0 :: l1 :: l)) = Z.of_nat (length l) + 3) as -> by (simpl; lia).
  destruct (Z.leb_spec (Z.of_nat (length l) + 3) 0); [lia|].
  destruct (Z.ltb_spec (Z.of_nat (length l) + 3) (Z.of_nat pp2_tlv)); [unfold pp2_tlv in *; lia|].
  assert (Z.of_nat (length l) + 3 - Z.of_nat pp2_tlv = Z.of_nat (length l)) as ->
    by (unfold pp2_tlv; lia).
  assert (∀ n, (n ≤ length l)%nat →
    drop n d = (Some <$> drop n l) ++ m ∧ cells d 0 n = Ok (take n l)) as Hd.
  { intros n Hn. split; [by apply drop_init|]. by apply (cells_init l m 0 n). }
  destruct (type =? PP2_TYPE_SSL).
  - change (Z.of_nat pp2_tlv_ssl) with 5. destruct (len <? 5); [done|].
    destruct (Z.ltb_spec (Z.of_nat (length l)) 5), (Nat.ltb_spec (length l) pp2_tlv_ssl);
      unfold pp2_tlv_ssl in *; try lia; [done|].
    destruct (Hd 5%nat) as [-> ->]; [done|]. run. f_equal. rewrite length_drop. lia.
  - destruct (_ && _).
    + change (Z.of_nat MAX_USERNAME_SIZE - 1) with 63. destruct (Z.ltb_spec 63 len); [done|].
      destruct (Z.ltb_spec (Z.of_nat (length l)) len), (Nat.ltb_spec (length l) (Z.to_nat len));
        try lia; [done|].
      destruct (Hd (Z.to_nat len)) as [-> ->]; [done|]. run.
      pose proof (poke_name (cert_username ws) (take (Z.to_nat len) l) Hu) as Hp.
      rewrite length_take_le in Hp by done.
      assert (Z.to_nat len < MAX_USERNAME_SIZE)%nat as Hlt by (unfold MAX_USERNAME_SIZE; lia).
      specialize (Hp Hlt). apply bind_Ok in Hp as (u1 & -> & Hp). run. rewrite Hp. run.
      f_equal. rewrite length_drop. lia.
    + destruct (Z.ltb_spec (Z.of_nat (length l)) len), (Nat.ltb_spec (length l) (Z.to_nat len));
        try lia; [done|].
      destruct (Hd (Z.to_nat len)) as [-> _]; [done|]. f_equal. rewrite length_drop. lia.
Qed.
End tlvs.

Lemma worker_ok_cert ws user :
  worker_ok ws → length user = MAX_USERNAME_SIZE → 0 ∈ user →
  worker_ok {| ws with cert_username := user |}.
Proof. intros []. by constructor. Qed.

Lemma verified_step ws l0 l1 l :
  (pp2_tlv_ssl ≤ length l)%nat →
  let ws1 := if cert_verified (take pp2_tlv_ssl l) then {| ws with cert_auth_ok := true |} else ws in
  cert_from (PP2_TYPE_SSL :: l0 :: l1 :: l) ws ws1 ∧ same_addrs ws ws1.
Proof.
  intros Hl ws1. subst ws1. destruct (cert_verified (take pp2_tlv_ssl l)) eqn:Hc;
    [|split; [apply cert_from_refl|apply same_addrs_refl]].
  split; [|by repeat split]. split; [|by left]. right. split; [done|].
  exists [], l0, l1, (take pp2_tlv_ssl l), (drop pp2_tlv_ssl l).
  rewrite take_drop, length_take_le by done. done.
Qed.

Lemma name_step ws l0 l1 l :
  let len := Z.to_nat (htons l0 l1) in
  worker_ok ws → 0 ≤ htons l0 l1 ≤ 63 → (len ≤ length l)%nat → cert_auth_ok ws = true →
  let ws1 := {| ws with cert_username := new_name (cert_username ws) (take len l) |} in
  cert_from (PP2_TYPE_SSL_CN :: l0 :: l1 :: l) ws ws1 ∧ worker_ok ws1.
Proof.
  intros len Hws Hr Hl Hok. assert (length (take len l) = len) as Htl by (by apply length_take_le).
  assert (len < MAX_USERNAME_SIZE)%nat by (unfold MAX_USERNAME_SIZE; lia). split.
  - split; [by left|right]. exists (take len l). split_and!; [|done|].
    + exists [], l0, l1, (drop len l). rewrite take_drop, Htl. split_and!; [done|lia|done].
    + wcbn. unfold new_name. rewrite app_assoc. by apply prefix_app_r.
  - apply worker_ok_cert; [done|..].
    + apply new_name_length; [apply Hws|lia].
    + unfold new_name. set_solver.
Qed.

Lemma tlvs_safe m fuel : ∀ ws l,
  (length l < fuel)%nat → bytes l → worker_ok ws →
  ∃ ws', tlvs_at m fuel ws l = Ok ws' ∧ worker_ok ws' ∧ cert_from l ws ws' ∧ same_addrs ws ws'.
Proof.
  induction fuel as [|fuel IH]; intros ws l Hl Hb Hws; [lia|].
  assert (∃ ws', Ok ws = Ok ws' ∧ worker_ok ws' ∧ cert_from l ws ws' ∧ same_addrs ws ws') as Hret.
  { exists ws. by split_and!; [..|apply cert_from_refl|apply same_addrs_refl]. }
  destruct l as [|ty [|l0 [|l1 l]]]; [by rewrite tlvs_short by (unfold pp2_tlv; simpl; lia)..|].
  apply bytes_cons in Hb as [_ [H0 [H1 Hb]%bytes_cons]%bytes_cons]. simpl in Hl.
  assert (0 ≤ htons l0 l1) as Hlen by (unfold htons; lia).
  assert (∀ ws1 n, worker_ok ws1 → cert_from (ty :: l0 :: l1 :: l) ws ws1 → same_addrs ws ws1 →
    ∃ ws', tlvs_at m fuel ws1 (drop n l) = Ok ws' ∧ worker_ok ws' ∧
      cert_from (ty :: l0 :: l1 :: l) ws ws' ∧ same_addrs ws ws') as Hgo.
  { intros ws1 n Hws1 Hc (Ha1 & Ha2 & Ha3 & Ha4 & Ha5).
    destruct (IH ws1 (drop n l)) as (ws' & E & Hws' & Hc' & (Hb1 & Hb2 & Hb3 & Hb4 & Hb5));
      [rewrite length_drop; lia|by apply Forall_drop|done|].
    exists ws'. split_and!; [done|done| |repeat split; congruence].
    eapply cert_from_trans; [done|]. rewrite <- (take_drop n l).
    apply (cert_from_app [ty; l0; l1]), (cert_from_app (take n l)). done. }
  rewrite tlvs_cons by (done || apply Hws).
  destruct (Z.eqb_spec ty PP2_TYPE_SSL) as [->|].
  - destruct (_ <? 5); [apply (Hgo ws 0%nat); [done|apply cert_from_refl|apply same_addrs_refl]|].
    destruct (Nat.ltb_spec (length l) pp2_tlv_ssl); [done|].
    destruct (verified_step ws l0 l1 l) as [Hc Ha]; [done|]. apply Hgo; [|done..].
    destruct (cert_verified _); [|done]. destruct Hws. by constructor.
  - destruct (Z.eqb_spec ty PP2_TYPE_SSL_CN) as [->|]; simpl.
    + destruct (cert_auth_ok ws) eqn:Hok.
      * destruct (Z.ltb_spec 63 (htons l0 l1)); [apply (Hgo ws 0%nat); [done|apply cert_from_refl|apply same_addrs_refl]|].
        destruct (Nat.ltb_spec (length l) (Z.to_nat (htons l0 l1))); [done|].
        destruct (name_step ws l0 l1 l) as [Hc Hw]; [done|lia|done..|].
        rewrite Hok in Hc, Hw. apply Hgo; [done..|by repeat split].
      * destruct (_ <? _)%nat; [done|]. apply Hgo; [done|apply cert_from_refl|apply same_addrs_refl].
    + destruct (_ <? _)%nat; [done|]. apply Hgo; [done|apply cert_from_refl|apply same_addrs_refl].
Qed.

(** ** The binary form *)

(** What the code makes of an IPv6 destination address. *)
Definition our_inet6 (port a : list Z) : list Z :=
  [0; 0] ++ port ++ [0; 0; 0; 0] ++ a ++ replicate 104 0.
#[global] Arguments our_inet6 : simpl never.

Lemma our_inet6_length p a :
  length p = 2%nat → length a = 16%nat → length (our_inet6 p a) = SOCKADDR_STORAGE.
Proof. intros Hp Ha. unfold our_inet6. by rewrite !length_app, Hp, Ha, length_replicate. Qed.

Lemma in6_family_again p a : put_family (sockaddr_in6 p a) AF_INET6 = Ok (sockaddr_in6 p a).
Proof. apply (poke_app [] [AF_INET6; 0] [AF_INET6; 0]). done. Qed.

Lemma our6_addr a : length a = 16%nat → put_sin6_addr zero_addr a = Ok (our_inet6 [0; 0] a).
Proof. intros Ha. apply (poke_app (replicate 8 0) (replicate 16 0) a (replicate 104 0)). done. Qed.

Lemma our6_port p q a : length q = length p → put_port (our_inet6 p a) q = Ok (our_inet6 q a).
Proof. intros Hp. apply (poke_app [0; 0] p q). done. Qed.

Lemma v2_inet_init ws l m :
  (12 ≤ length l)%nat →
  v2_inet ws ((Some <$> l) ++ m) =
    Ok {| ws with remote_addr := sockaddr_in (take 2 (drop 8 l)) (take 4 l); remote_addr_len := SOCKADDR_IN;
                  our_addr := sockaddr_in (take 2 (drop 10 l)) (take 4 (drop 4 l)); our_addr_len := SOCKADDR_IN |}.
Proof.
  intros Hl. unfold v2_inet. rewrite !cells_init by lia. run. rewrite in_family. run.
  rewrite in_port by (done || rewrite length_take_le; rewrite ?length_drop; lia). run.
  rewrite in_addr by (done || rewrite length_take_le; simpl; rewrite ?length_drop; lia). run.
  rewrite in_addr by (done || rewrite length_take_le; simpl; rewrite ?length_drop; lia). run.
  rewrite in_port by (done || rewrite length_take_le; rewrite ?length_drop; lia). done.
Qed.

Lemma v2_inet6_init ws l m :
  (36 ≤ length l)%nat →
  v2_inet6 ws ((Some <$> l) ++ m) =
    Ok {| ws with remote_addr := sockaddr_in6 (take 2 (drop 32 l)) (take 16 l); remote_addr_len := SOCKADDR_IN6;
                  our_addr := our_inet6 (take 2 (drop 34 l)) (take 16 (drop 16 l)); our_addr_len := SOCKADDR_IN |}.
Proof.
  intros Hl. unfold v2_inet6. rewrite !cells_init by lia. run. rewrite in6_family. run.
  rewrite in6_port by done. run.
  rewrite in6_addr by (done || rewrite length_take_le; simpl; rewrite ?length_drop; lia). run.
  rewrite in6_port by (done || rewrite length_take_le; rewrite ?length_drop; lia). run.
  rewrite in6_family_again. run.
  rewrite our6_addr by (rewrite length_take_le; rewrite ?length_drop; lia). run.
  rewrite our6_port by (rewrite length_take_le; simpl; rewrite ?length_drop; lia). done.
Qed.

(** What holds of every run: it ends with 0 or -1 and a worker whose buffers
    are intact, and the certificate is only touched for the bytes [l] of a
    connection from a UNIX socket. *)
Definition header_post (ws : worker) (l : list Z) (r : cres (Z * worker)) : Prop :=
  ∃ code ws', r = Ok (code, ws') ∧ (code = 0 ∨ code = -1) ∧ worker_ok ws' ∧
    (cert_auth_ok ws' = cert_auth_ok ws ∧ cert_username ws' = cert_username ws ∨
     conn_unix ws = true ∧ cert_from l ws ws').

Lemma header_post_ret ws l code :
  code = 0 ∨ code = -1 → worker_ok ws → header_post ws l (Ok (code, ws)).
Proof. intros. exists code, ws. split_and!; auto. Qed.

Lemma header_post_app ws k l r : header_post ws l r → header_post ws (k ++ l) r.
Proof.
  intros (c & ws' & E & Hc & Hw & H). exists c, ws'. split_and!; [done..|].
  destruct H as [|[]]; [by left|right]. split; [done|by apply cert_from_app].
Qed.

Lemma header_post_app_r ws k l r : header_post ws l r → header_post ws (l ++ k) r.
Proof.
  intros (c & ws' & E & Hc & Hw & H). exists c, ws'. split_and!; [done..|].
  destruct H as [|[]]; [by left|right]. split; [done|by apply cert_from_app_r].
Qed.

(** The addresses of a header of the given family. *)
Lemma v2_addrs ws l m (v4 : bool) :
  worker_ok ws → ((if v4 then 12 else 36) ≤ length l)%nat →
  ∃ ws', (if v4 then v2_inet ws ((Some <$> l) ++ m) else v2_inet6 ws ((Some <$> l) ++ m)) = Ok ws' ∧
    worker_ok ws' ∧ conn_unix ws' = conn_unix ws ∧ cert_auth_ok ws' = cert_auth_ok ws ∧
    cert_username ws' = cert_username ws.
Proof.
  intros [] Hl. destruct v4.
  - rewrite v2_inet_init by done. eexists. split; [done|]. split; [|done].
    constructor; wcbn; [..|done|done]; apply sockaddr_in_length; rewrite length_take_le; rewrite ?length_drop; lia.
  - rewrite v2_inet6_init by done. eexists. split; [done|]. split; [|done].
    constructor; wcbn; [apply sockaddr_in6_length|apply our_inet6_length|done|done];
      rewrite length_take_le; rewrite ?length_drop; lia.
Qed.

Lemma v2_body_safe ws vc fam l m :
  bytes l → worker_ok ws →
  header_post ws l (v2_body ws vc fam ((Some <$> l) ++ m) (Z.of_nat (length l))).
Proof.
  intros Hb Hws. assert (header_post ws l (Ok (0, ws)) ∧ header_post ws l (Ok (-1, ws))) as [H0 H1].
  { split; apply header_post_ret; auto. }
  unfold v2_body. destruct (negb _); [done|]. destruct (_ && _); [done|].
  destruct (_ && _); [done|]. destruct (_ && _); [done|].
  set (v4 := Z.shiftr (Z.land fam 240) 4 =? 1).
  destruct (Z.ltb_spec (Z.of_nat (length l)) (if v4 then 12 else 36)) as [|Hl]; [done|].
  destruct (v2_addrs ws l m v4) as (ws1 & -> & Hws1 & Hcu & Hca & Hun); [done|destruct v4; lia|]. run.
  destruct (conn_unix ws1) eqn:Hu; cycle 1; cbn [andb].
  { exists 0, ws1. split_and!; auto. }
  destruct (0 <? _); cycle 1.
  { exists 0, ws1. split_and!; auto. }
  set (n := Z.to_nat (if v4 then 12 else 36)).
  assert (n ≤ length l)%nat as Hn by (subst n; destruct v4; lia).
  rewrite drop_init by done.
  assert (Z.of_nat (length l) - (if v4 then 12 else 36) = Z.of_nat (length (drop n l))) as ->
    by (rewrite length_drop; subst n; destruct v4; lia).
  destruct (tlvs_safe m (S (Z.to_nat (Z.of_nat (length (drop n l))))) ws1 (drop n l))
    as (ws2 & E & Hws2 & Hc & _); [lia|by apply Forall_drop|done|].
  unfold tlvs_at in E. rewrite E. run. exists 0, ws2. split_and!; [done|by left|done|right].
  split; [congruence|]. rewrite <- (take_drop n l). apply cert_from_app.
  unfold cert_from in *. by rewrite <- Hca, <- Hun.
Qed.

Section header.
Context (pton6 : string → option (list Z)).
Context (Hpton6 : ∀ t a, pton6 t = Some a → length a = 16%nat).

Lemma replicate_init (l : list Z) :
  (length l ≤ hdr_data_size)%nat →
  poke (replicate hdr_data_size None) 0 (Some <$> l) =
    Ok ((Some <$> l) ++ replicate (hdr_data_size - length l) None).
Proof.
  intros Hl. rewrite poke_eq by (rewrite length_fmap, length_replicate; lia).
  by rewrite take_0, length_fmap, drop_replicate.
Qed.

Lemma header_safe ws s :
  bytes (arriving s) → worker_ok ws →
  header_post ws (arriving s) (parse_proxy_proto_header pton6 ws s).
Proof.
  intros Hb Hws. assert (header_post ws (arriving s) (Ok (-1, ws))) as Hret.
  { apply header_post_ret; auto. }
  unfold parse_proxy_proto_header.
  destruct (force_read_timeout DEFAULT_SOCKET_TIMEOUT s 16) as [[hdr|] s1] eqn:E1; [|done].
  apply force_read_Some in E1 as [Hl1 Ha1]. rewrite Ha1 in Hb |- *. apply bytes_app in Hb as [Hbh Hb1].
  rewrite !mem_at_Ok by (rewrite Hl1; simpl; lia). run.
  destruct (memcmp _ PROXY_HEADER_V1 =? 0).
  - rewrite replicate_init by (rewrite Hl1; unfold hdr_data_size; lia). run.
    destruct (recv_line_safe pton6 Hpton6 (MAX_PROXY_PROTO_V1_SIZE - 16) 0 ws hdr s1)
      as (r & ws' & -> & Hr & Hw & Hc1 & Hc2); [done|lia|done..|].
    exists r, ws'. split_and!; auto.
  - destruct (negb _); [by rewrite <- Ha1|].
    destruct (take 4 (drop 12 hdr)) as [|vc [|fam [|l0 [|l1 [|]]]]] eqn:Eh;
      apply (f_equal length) in Eh as Hl4; rewrite length_take_le in Hl4 by (rewrite length_drop; lia); try done.
    assert (0 ≤ htons l0 l1) as Hlen.
    { assert (bytes [vc; fam; l0; l1]) as Hb4 by (rewrite <- Eh; by apply Forall_take, Forall_drop).
      apply bytes_cons in Hb4 as [_ [_ [? [? _]%bytes_cons]%bytes_cons]%bytes_cons]. unfold htons. lia. }
    destruct (Z.ltb_spec (Z.of_nat hdr_data_size) (htons l0 l1)); [by rewrite <- Ha1|].
    destruct (force_read_timeout DEFAULT_SOCKET_TIMEOUT s1 _) as [[bs|] s2] eqn:E2; [|by rewrite <- Ha1].
    apply force_read_Some in E2 as [Hl2 Ha2]. rewrite Ha2 in Hb1 |- *. apply bytes_app in Hb1 as [Hbb _].
    rewrite replicate_init by lia. run. apply header_post_app.
    replace (htons l0 l1) with (Z.of_nat (length bs)) by lia.
    apply header_post_app_r. by apply v2_body_safe.
Qed.
End header.

(** ** What headers mean *)

Lemma htons_be16 x : 0 ≤ x < 65536 → ∃ l0 l1, be16 x = [l0; l1] ∧ htons l0 l1 = x.
Proof.
  intros Hx. unfold be16. eexists _, _. split; [done|]. unfold htons. rewrite wrap_small by lia.
  change 255 with (Z.ones 8). rewrite Z.land_ones, Z.shiftr_div_pow2 by lia. dlia.
Qed.

(** A header in the binary form that was read as a whole. *)
Lemma parse_v2 pton6 ws s vc fam l rest :
  Forall live s → (length l ≤ hdr_data_size)%nat →
  arriving s = PROXY_HEADER_V2 ++ [vc; fam] ++ be16 (Z.of_nat (length l)) ++ l ++ rest →
  parse_proxy_proto_header pton6 ws s =
    v2_body ws vc fam ((Some <$> l) ++ replicate (hdr_data_size - length l) None) (Z.of_nat (length l)).
Proof.
  intros Hs Hl Ha. unfold hdr_data_size in Hl.
  destruct (htons_be16 (Z.of_nat (length l))) as (l0 & l1 & Eb & En); [lia|]. rewrite Eb in Ha.
  unfold parse_proxy_proto_header.
  destruct (force_read_live_app DEFAULT_SOCKET_TIMEOUT s (PROXY_HEADER_V2 ++ [vc; fam; l0; l1]) (l ++ rest))
    as (s1 & E1 & Ha1 & Hs1); [done|by rewrite Ha|].
  change (length (PROXY_HEADER_V2 ++ [vc; fam; l0; l1])) with 16%nat in E1. rewrite E1.
  rewrite !mem_at_Ok by (simpl; lia).
  cbn [mbind cres_bind take drop app PROXY_HEADER_V2 PROXY_HEADER_V1 length memcmp Z.eqb Pos.eqb negb Z.sub].
  change (13 - 80 =? 0) with false. cbn [take drop]. rewrite En.
  destruct (Z.ltb_spec (Z.of_nat hdr_data_size) (Z.of_nat (length l))); [unfold hdr_data_size in *; lia|].
  rewrite Nat2Z.id.
  destruct (force_read_live_app DEFAULT_SOCKET_TIMEOUT s1 l rest) as (s2 & -> & _); [done..|].
  rewrite replicate_init by done. done.
Qed.

(** A TLV with a certificate the proxy verified, and the client's name, as
    the proxy sends them (send-proxy-v2-ssl-cn). *)
Definition ssl_cn_tlvs (client : Z) (name : list Z) : list Z :=
  [PP2_TYPE_SSL] ++ be16 (8 + Z.of_nat (length name)) ++ [client; 0; 0; 0; 0] ++
  [PP2_TYPE_SSL_CN] ++ be16 (Z.of_nat (length name)) ++ name.

Lemma ssl_cn_parsed m fuel ws client name :
  length (cert_username ws) = MAX_USERNAME_SIZE → (length name < MAX_USERNAME_SIZE)%nat →
  Z.testbit client 0 = true → Z.testbit client 2 = true →
  tlvs_at m (S (S (S fuel))) ws (ssl_cn_tlvs client name) =
    Ok {| ws with cert_auth_ok := true; cert_username := new_name (cert_username ws) name |}.
Proof.
  intros Hu Hn H0 H2. unfold MAX_USERNAME_SIZE in Hn. unfold ssl_cn_tlvs.
  destruct (htons_be16 (8 + Z.of_nat (length name))) as (a0 & a1 & -> & Ea); [lia|].
  destruct (htons_be16 (Z.of_nat (length name))) as (b0 & b1 & -> & Eb); [lia|]. cbn [app].
  rewrite tlvs_cons by (done || lia). rewrite Z.eqb_refl, Ea.
  destruct (Z.ltb_spec (8 + Z.of_nat (length name)) 5); [lia|]. unfold pp2_tlv_ssl.
  cbn [length Nat.ltb Nat.leb take drop].
  assert (cert_verified [client; 0; 0; 0; 0] = true) as ->.
  { simpl. unfold PP2_CLIENT_SSL, PP2_CLIENT_CERT_SESS.
    destruct (Z.eqb_spec (Z.land client 1) 0) as [E|_].
    { apply (f_equal (λ z, Z.testbit z 0)) in E. rewrite Z.land_spec, H0 in E. done. }
    destruct (Z.eqb_spec (Z.land client 4) 0) as [E|_]; [|done].
    apply (f_equal (λ z, Z.testbit z 2)) in E. rewrite Z.land_spec, H2 in E. done. }
  rewrite tlvs_cons by (done || lia). cbn [andb]. wcbn. cbn [andb].
  change (PP2_TYPE_SSL_CN =? PP2_TYPE_SSL) with false. rewrite Z.eqb_refl, Eb, Nat2Z.id. cbn [andb].
  destruct (Z.ltb_spec 63 (Z.of_nat (length name))); [lia|]. rewrite Nat.ltb_irrefl, firstn_all, drop_all.
  by rewrite tlvs_short by (unfold pp2_tlv; simpl; lia).
Qed.

(** A binary header of a proxy on the UNIX socket, however the network cuts
    it into pieces, sets the peer's and the server's IPv4 address and port,
    marks the certificate as verified and sets the user name it names. *)
Theorem proxy_v2_ssl_cn pton6 ws s src dst sp dp client name rest :
  worker_ok ws → conn_unix ws = true → Forall live s →
  length src = 4%nat → length dst = 4%nat → length sp = 2%nat → length dp = 2%nat →
  Z.testbit client 0 = true → Z.testbit client 2 = true → (length name < MAX_USERNAME_SIZE)%nat →
  arriving s = PROXY_HEADER_V2 ++ [0x21; 0x11] ++ be16 (12 + 11 + Z.of_nat (length name)) ++
    src ++ dst ++ sp ++ dp ++ ssl_cn_tlvs client name ++ rest →
  parse_proxy_proto_header pton6 ws s =
    Ok (0, {| conn_unix := true;
              remote_addr := sockaddr_in sp src; remote_addr_len := SOCKADDR_IN;
              our_addr := sockaddr_in dp dst; our_addr_len := SOCKADDR_IN;
              cert_auth_ok := true; cert_username := name ++ [0] ++ drop (length name + 1) (cert_username ws) |}).
Proof.
  intros Hws Hu Hs Hsrc Hdst Hsp Hdp H0 H2 Hn Ha.
  set (tlvs := ssl_cn_tlvs client name) in *.
  assert (length tlvs = 11 + length name)%nat as Hlt
    by (unfold tlvs, ssl_cn_tlvs; rewrite !length_app; simpl; lia).
  destruct src as [|s0 [|s1 [|s2 [|s3 [|]]]]], dst as [|d0 [|d1 [|d2 [|d3 [|]]]]]; try done.
  destruct sp as [|p0 [|p1 [|]]], dp as [|q0 [|q1 [|]]]; try done.
  set (l := [s0; s1; s2; s3; d0; d1; d2; d3; p0; p1; q0; q1] ++ tlvs).
  assert (length l = 12 + length tlvs)%nat as Hll by done.
  unfold MAX_USERNAME_SIZE in Hn.
  replace (12 + 11 + Z.of_nat (length name)) with (Z.of_nat (length l)) in Ha by lia.
  rewrite (parse_v2 pton6 ws s 0x21 0x11 l rest); [|done|unfold hdr_data_size; lia|].
  2: { exact Ha. }
  unfold v2_body.
  change (Z.shiftr (Z.land 33 240) 4) with 2. change (Z.land 33 15) with 1.
  change (Z.shiftr (Z.land 17 240) 4) with 1. change (Z.land 17 15) with 1. cbn [Z.eqb Pos.eqb negb andb].
  destruct (Z.ltb_spec (Z.of_nat (length l)) 12); [lia|].
  rewrite v2_inet_init by lia. run. wcbn. rewrite Hu. cbn [andb].
  destruct (Z.ltb_spec 0 (Z.of_nat (length l) - 12)); [|lia].
  replace (Z.of_nat (length l) - 12) with (Z.of_nat (length tlvs)) by lia.
  rewrite drop_init by lia. change (drop (Z.to_nat 12) l) with tlvs.
  replace (S (Z.to_nat (Z.of_nat (length tlvs)))) with (S (S (S (9 + length name)))) by lia.
  match goal with |- (parse_ssl_tlvs _ ?w (_ ++ ?m) _ ≫= _) = _ =>
    pose proof (ssl_cn_parsed m (9 + length name) w client name) as Hp end.
  unfold tlvs_at in Hp. fold tlvs in Hp. rewrite Hp by (done || apply Hws). done.
Qed.

(** When the name in a TLV does not fit the worker's buffer, the code skips
    the TLV's head but not its value: the bytes of the client's name are read
    as further TLVs, so that the rest of a long name can set another user. *)
Theorem long_name_injects_tlvs m fuel ws l0 l1 name rest :
  length (cert_username ws) = MAX_USERNAME_SIZE → cert_auth_ok ws = true →
  Z.of_nat (length name) = htons l0 l1 → (MAX_USERNAME_SIZE ≤ length name)%nat →
  parse_ssl_tlvs (S fuel) ws ((Some <$> [PP2_TYPE_SSL_CN; l0; l1] ++ name ++ rest) ++ m)
      (Z.of_nat (3 + length name + length rest)) =
    parse_ssl_tlvs fuel ws ((Some <$> name ++ rest) ++ m) (Z.of_nat (length name + length rest)).
Proof.
  intros Hu Hok Hl Hn. unfold MAX_USERNAME_SIZE in Hn.
  pose proof (tlvs_cons m fuel ws PP2_TYPE_SSL_CN l0 l1 (name ++ rest)) as H. cbv zeta in H.
  rewrite <- Hl, Hok in H. specialize (H ltac:(lia) Hu).
  change (PP2_TYPE_SSL_CN =? PP2_TYPE_SSL) with false in H. rewrite Z.eqb_refl in H. cbn [andb] in H.
  destruct (Z.ltb_spec 63 (Z.of_nat (length name))); [|lia].
  unfold tlvs_at in H. cbn [length] in H. rewrite length_app in H. exact H.
Qed.

(** C23: Whatever a peer sends, in whatever pieces and with whatever failures,
    the proxy header is handled without reading or writing outside an object
    or using uninitialised bytes, in finitely many steps, with the result 0 or
    -1, and the worker's buffers stay well formed. *)
Theorem proxy_header_safe pton6 ws s :
  (∀ t a, pton6 t = Some a → length a = 16%nat) → bytes (arriving s) → worker_ok ws →
  ∃ r ws', parse_proxy_proto_header pton6 ws s = Ok (r, ws') ∧ (r = 0 ∨ r = -1) ∧ worker_ok ws'.
Proof.
  intros Hp Hb Hws. destruct (header_safe pton6 Hp ws s Hb Hws) as (r & ws' & E & Hr & Hw & _).
  by exists r, ws'.
Qed.

(** A proxy header makes a client count as authenticated by its certificate,
    or names its user, only on the UNIX socket, and only if the bytes received
    hold an SSL TLV whose flags say that a certificate was presented in this
    session and verified, and for the name one with that name. *)
Theorem proxy_cert_only_from_tlv pton6 ws s r ws' :
  (∀ t a, pton6 t = Some a → length a = 16%nat) → bytes (arriving s) → worker_ok ws →
  parse_proxy_proto_header pton6 ws s = Ok (r, ws') →
  (cert_auth_ok ws = false → cert_auth_ok ws' = true →
     conn_unix ws = true ∧ has_verified_tlv (arriving s)) ∧
  (cert_username ws' ≠ cert_username ws →
     conn_unix ws = true ∧ cert_auth_ok ws' = true ∧
     ∃ name, has_name_tlv (arriving s) name ∧ name ++ [0] `prefix_of` cert_username ws').
Proof.
  intros Hp Hb Hws E. destruct (header_safe pton6 Hp ws s Hb Hws) as (r' & w & E' & _ & _ & H).
  rewrite E in E'. simplify_eq. destruct H as [[H1 H2]|(Hu & H1 & H2)].
  - split; [congruence|done].
  - split; [intros; split; [done|]; destruct H1 as [|[]]; congruence|].
    intros Hne. destruct H2 as [|(n & ? & ? & ?)]; [done|]. eauto 10.
Qed.

(** ** The text form from the socket on *)

Lemma of_bytes_to_bytes t : of_bytes (to_bytes t) = t.
Proof.
  induction t as [|c t IH]; simpl; [done|]. rewrite IH. unfold uchar.
  by rewrite N2Z.id, ascii_N_embedding.
Qed.

Lemma split_space_app u v : SPACE ∉ u → split_space (u ++ SPACE :: v) = Some (u, v).
Proof.
  induction u as [|b u IH]; simpl; [done|]. intros [Hb Hu]%not_elem_of_cons.
  destruct (Z.eqb_spec b SPACE); [done|]. by rewrite IH.
Qed.

(** The bytes of a line up to its end are stored and the line is parsed. *)
Lemma recv_line_reads pton6 u : ∀ n i ws l s rest,
  length l = (16 + i)%nat → (n + i = MAX_PROXY_PROTO_V1_SIZE - 16)%nat → (length u + 2 ≤ n)%nat →
  CR ∉ u → LF ∉ u → Forall delivers s → arriving s = u ++ CR :: LF :: rest →
  recv_line pton6 n i ws ((Some <$> l) ++ replicate (hdr_data_size - length l) None) s =
    parse_proxy_proto_header_v1 pton6 ws
      ((Some <$> l ++ u ++ [0; LF]) ++ replicate (hdr_data_size - length l - length u - 2) None)
      (length PROXY_HEADER_V1).
Proof.
  assert (hdr_data_size = 520%nat ∧ MAX_PROXY_PROTO_V1_SIZE = 108%nat) as [Hds Hmx] by done.
  induction u as [|b u IH]; intros n i ws l s rest Hl Hn Hu Hcr Hlf Hs Ha; simpl in Hu, Ha.
  - destruct n as [|[|n]]; [lia..|].
    destruct (recv1_delivers s CR (LF :: rest)) as (s1 & E1 & Ha1 & Hs1); [done..|].
    rewrite (recv_line_step _ _ _ _ _ _ _ CR s1) by (done || lia).
    change (CR =? LF) with false. cbn iota. rewrite Z.eqb_refl.
    destruct (recv1_delivers s1 LF rest) as (s2 & E2 & Ha2 & Hs2); [done..|].
    rewrite (recv_line_step _ _ _ _ _ _ _ LF s2) by (rewrite ?length_app; simpl; (done || lia)).
    rewrite Z.eqb_refl, <- app_assoc. cbn [app].
    rewrite (cell_init _ _ _ 0); [run; rewrite Z.eqb_refl; do 3 f_equal; simpl; lia|].
    rewrite lookup_app_r by lia. by replace (16 + S i - 1 - length l)%nat with 0%nat by lia.
  - destruct n as [|n]; [lia|]. apply not_elem_of_cons in Hcr as [Hbc Hcr], Hlf as [Hbl Hlf].
    destruct (recv1_delivers s b (u ++ CR :: LF :: rest)) as (s1 & E1 & Ha1 & Hs1); [done..|].
    rewrite (recv_line_step _ _ _ _ _ _ _ b s1) by (done || lia).
    destruct (Z.eqb_spec b LF); [done|]. destruct (Z.eqb_spec b CR); [done|].
    pose proof (IH n (S i) ws (l ++ [b]) s1 rest) as H. rewrite length_app in H. simpl in H.
    replace (hdr_data_size - (length l + 1))%nat with (hdr_data_size - length l - 1)%nat in H by lia.
    rewrite H by (done || lia). rewrite <- app_assoc. do 3 f_equal. simpl. lia.
Qed.

(** A line as the proxy writes it. *)
Definition v1_line (a b p q : Z) : list Z :=
  to_bytes ("PROXY TCP4 " +:+ inet_ntop4 a +:+ " " +:+ inet_ntop4 b +:+ " " +:+ dec p +:+ " " +:+ dec q).

Definition plain (c : Z) : Prop := is_digit c = true ∨ c = 46.

Lemma plain_not c d : plain c → is_digit d = false → d ≠ 46 → c ≠ d.
Proof. intros [H|H] Hd Hn E; congruence. Qed.

Lemma plain_not_in l d : Forall plain l → is_digit d = false → d ≠ 46 → d ∉ l.
Proof. rewrite Forall_forall. intros Hl Hd Hn Hin. by apply (plain_not d d (Hl d Hin)). Qed.

Lemma dec_plain n : Forall plain (to_bytes (dec n)).
Proof. eapply Forall_impl; [apply dec_digit_string|]. by left. Qed.

Lemma port_of_dec p t : 0 ≤ p < 65536 → no_digit t → port_of (to_bytes (dec p +:+ t)) = be16 p.
Proof. intros Hp Ht. unfold port_of. rewrite of_bytes_to_bytes, atoi_dec by (done || lia). done. Qed.

Lemma v1_spec_line pton6 a b p q :
  0 ≤ a < 2 ^ 32 → 0 ≤ b < 2 ^ 32 → 0 ≤ p < 65536 → 0 ≤ q < 65536 →
  v1_spec pton6 (drop 6 (v1_line a b p q)) =
    Some (sockaddr_in (be16 p) (be32 a), sockaddr_in (be16 q) (be32 b), SOCKADDR_IN).
Proof.
  intros Ha Hb Hp Hq.
  set (pq := to_bytes (dec p +:+ " " +:+ dec q)).
  assert (drop 6 (v1_line a b p q) =
    TCP4 ++ to_bytes (inet_ntop4 a) ++ SPACE :: to_bytes (inet_ntop4 b) ++ SPACE :: pq) as ->.
  { unfold v1_line, pq. by rewrite !to_bytes_app. }
  unfold v1_spec. rewrite bool_decide_eq_true_2 by (by apply prefix_app_r).
  change (drop 5 (TCP4 ++ ?l)) with l. unfold v1_words.
  assert (∀ x, SPACE ∉ to_bytes (inet_ntop4 x)) as Hsp.
  { intros x. apply plain_not_in; [apply inet_ntop4_chars|done..]. }
  rewrite split_space_app by apply Hsp. cbn [mbind option_bind].
  rewrite split_space_app by apply Hsp. cbn [mbind option_bind].
  assert (split_space pq = Some (to_bytes (dec p), to_bytes (dec q))) as ->.
  { unfold pq. rewrite !to_bytes_app. apply split_space_app, plain_not_in; [apply dec_plain|done..]. }
  cbn [mbind option_bind]. rewrite !of_bytes_to_bytes, !inet_pton_ntop by done. cbn [mbind option_bind].
  do 4 f_equal; [by apply port_of_dec|]. pose proof (port_of_dec q "" Hq I) as H.
  by rewrite to_bytes_app, app_nil_r in H.
Qed.

(** No byte of a line is a NUL or ends it. *)
Definition line_byte (d : Z) : Prop := 0 < d < 256 ∧ d ≠ CR ∧ d ≠ LF.

Lemma v1_line_bytes a b p q : Forall line_byte (v1_line a b p q).
Proof.
  assert (∀ l, Forall plain l → Forall line_byte l) as Hpl.
  { intros l Hl. eapply Forall_impl; [exact Hl|]. intros d Hd. unfold line_byte, CR, LF.
    destruct Hd as [Hd| ->]; [|lia]. unfold is_digit in Hd. apply andb_true_iff in Hd. lia. }
  assert (Forall line_byte (to_bytes " ") ∧ Forall line_byte (to_bytes "PROXY TCP4 ")) as [].
  { split; vm_compute; repeat constructor; done. }
  unfold v1_line. rewrite !to_bytes_app, !Forall_app.
  split_and!; try done; apply Hpl; apply inet_ntop4_chars || apply dec_plain.
Qed.

Lemma v1_line_length a b p q :
  0 ≤ p < 65536 → 0 ≤ q < 65536 → (18 ≤ length (v1_line a b p q) ≤ 54)%nat.
Proof.
  intros Hp Hq. unfold v1_line. rewrite !to_bytes_app, !length_app.
  pose proof (inet_ntop4_length a). pose proof (inet_ntop4_length b).
  pose proof (dec_length_le 5 p ltac:(lia) ltac:(lia)).
  pose proof (dec_length_le 5 q ltac:(lia) ltac:(lia)). rewrite !to_bytes_length in *.
  change (String.length "PROXY TCP4 ") with 11%nat. change (String.length " ") with 1%nat. lia.
Qed.

(** A header in the text form with the proxy's notation of two IPv4 addresses
    and ports, however it is cut into pieces, is accepted, sets the peer's and
    the server's address to exactly these, and leaves the rest alone. *)
Theorem proxy_v1_roundtrip pton6 ws s a b p q rest :
  (∀ t x, pton6 t = Some x → length x = 16%nat) →
  0 ≤ a < 2 ^ 32 → 0 ≤ b < 2 ^ 32 → 0 ≤ p < 65536 → 0 ≤ q < 65536 → Forall delivers s →
  arriving s = v1_line a b p q ++ [CR; LF] ++ rest →
  parse_proxy_proto_header pton6 ws s =
    Ok (0, {| ws with remote_addr := sockaddr_in (be16 p) (be32 a); remote_addr_len := SOCKADDR_IN;
                      our_addr := sockaddr_in (be16 q) (be32 b); our_addr_len := SOCKADDR_IN |}).
Proof.
  intros Hp6 Ha Hb Hp Hq Hs Har.
  pose proof (v1_line_length a b p q Hp Hq) as Hlen.
  assert (take 6 (v1_line a b p q) = PROXY_HEADER_V1) as Hsig by done.
  pose proof (v1_line_bytes a b p q) as Hch.
  pose proof (v1_spec_line pton6 a b p q Ha Hb Hp Hq) as Hsp.
  set (line := v1_line a b p q) in *. clearbody line.
  destruct (force_read_live_app DEFAULT_SOCKET_TIMEOUT s (take 16 line) (drop 16 line ++ [CR; LF] ++ rest))
    as (s1 & E1 & Ha1 & _); [by apply delivers_live|by rewrite app_assoc, take_drop|].
  pose proof (force_read_rest delivers DEFAULT_SOCKET_TIMEOUT s (length (take 16 line)) (λ _, I) Hs) as Hs1.
  rewrite E1 in Hs1. simpl in Hs1. rewrite length_take_le in E1 by lia.
  assert (mem_at (take 16 line) 0 (length PROXY_HEADER_V1) = Ok PROXY_HEADER_V1) as Hmem.
  { rewrite mem_at_Ok by (rewrite length_take_le; simpl; lia). rewrite drop_0, take_take.
    change (length PROXY_HEADER_V1 `min` 16)%nat with 6%nat. by rewrite Hsig. }
  unfold parse_proxy_proto_header. rewrite E1, Hmem. run.
  change (memcmp PROXY_HEADER_V1 PROXY_HEADER_V1 =? 0) with true. cbn iota.
  rewrite replicate_init by (rewrite length_take_le by lia; unfold hdr_data_size; lia). run.
  rewrite (recv_line_reads pton6 (drop 16 line) _ _ ws (take 16 line) s1 rest);
    [|rewrite length_take_le; lia|unfold MAX_PROXY_PROTO_V1_SIZE; lia
     |rewrite length_drop; unfold MAX_PROXY_PROTO_V1_SIZE; lia| | |done..].
  2,3: intros Hin; by destruct (proj1 (Forall_forall _ _) (Forall_drop _ 16 _ Hch) _ Hin) as (_ & ? & ?).
  rewrite (app_assoc (take 16 line)), take_drop.
  match goal with |- parse_proxy_proto_header_v1 _ _ ?m ?o = _ =>
    assert (holds m o (drop 6 line)) as Hh end.
  { eexists. split; [|apply Forall_drop; eapply Forall_impl; [exact Hch|by intros ? []]].
    rewrite drop_init, drop_app_le, fmap_app, <- app_assoc by (rewrite ?length_app; simpl; lia). done. }
  pose proof (v1_refines pton6 Hp6 ws _ _ _ Hh) as Ho. rewrite Hsp in Ho. exact Ho.
Qed.

Module ProxyWitnesses.
Definition no6 (t : string) : option (list Z) := None.

Lemma no6_ok t a : no6 t = Some a → length a = 16%nat.
Proof. done. Qed.

Definition ws0 : worker := {|
  conn_unix := true; remote_addr := zero_addr; remote_addr_len := 0;
  our_addr := zero_addr; our_addr_len := 0; cert_auth_ok := false;
  cert_username := replicate MAX_USERNAME_SIZE 0 |}.

Lemma ws0_ok : worker_ok ws0.
Proof. split; try done. apply list_elem_of_here. Qed.

Definition alice : list Z := to_bytes "alice".
Definition header2 : list Z :=
  PROXY_HEADER_V2 ++ [0x21; 0x11] ++ be16 (12 + 11 + 5) ++
    [10; 0; 0; 1] ++ [10; 0; 0; 2] ++ [4; 210] ++ [1; 187] ++ ssl_cn_tlvs 5 alice ++ [].
Definition pieces : list sock_event :=
  [Intr; Arrive (take 7 header2); Again; Arrive (drop 7 header2)].

Lemma proxy_v2_witness :
  parse_proxy_proto_header no6 ws0 pieces =
    Ok (0, {| conn_unix := true;
              remote_addr := sockaddr_in [4; 210] [10; 0; 0; 1]; remote_addr_len := SOCKADDR_IN;
              our_addr := sockaddr_in [1; 187] [10; 0; 0; 2]; our_addr_len := SOCKADDR_IN;
              cert_auth_ok := true;
              cert_username := alice ++ [0] ++ drop (length alice + 1) (cert_username ws0) |}).
Proof.
  apply (proxy_v2_ssl_cn no6 ws0 pieces [10; 0; 0; 1] [10; 0; 0; 2] [4; 210] [1; 187] 5 alice []);
    [apply ws0_ok|reflexivity|by repeat constructor|reflexivity..|vm_compute; lia|vm_compute; reflexivity].
Defined.

Lemma proxy_safe_witness :
  ∃ r ws', parse_proxy_proto_header no6 ws0 pieces = Ok (r, ws') ∧ (r = 0 ∨ r = -1) ∧ worker_ok ws'.
Proof.
  apply (proxy_header_safe no6 ws0 pieces); [apply no6_ok| |apply ws0_ok].
  vm_compute. repeat (constructor; [split; [discriminate|reflexivity]|]). constructor.
Defined.

Lemma proxy_cert_witness :
  ∃ r ws', parse_proxy_proto_header no6 ws0 pieces = Ok (r, ws') ∧ cert_auth_ok ws' = true ∧
    conn_unix ws0 = true ∧ has_verified_tlv (arriving pieces).
Proof.
  eexists _, _. split; [vm_compute; reflexivity|]. split; [reflexivity|].
  refine (proj1 (proxy_cert_only_from_tlv no6 ws0 pieces 0 _ no6_ok _ ws0_ok _) _ _);
    [|vm_compute; reflexivity|reflexivity|reflexivity].
  vm_compute. repeat (constructor; [split; [discriminate|reflexivity]|]). constructor.
Defined.

(** A name of 69 bytes whose first bytes are a TLV for the user root. *)
Definition evil : list Z := [PP2_TYPE_SSL_CN; 0; 4] ++ to_bytes "root" ++ [0; 0; 59] ++ replicate 59 97.
Definition ws1 : worker := {| ws0 with cert_auth_ok := true |}.

Lemma long_name_witness :
  parse_ssl_tlvs 100 ws1 ((Some <$> [PP2_TYPE_SSL_CN; 0; 69] ++ evil ++ []) ++ [])
      (Z.of_nat (3 + length evil + length (@nil Z))) =
    parse_ssl_tlvs 99 ws1 ((Some <$> evil ++ []) ++ []) (Z.of_nat (length evil + length (@nil Z))) ∧
  (cert_username <$> parse_ssl_tlvs 100 ws1 ((Some <$> [PP2_TYPE_SSL_CN; 0; 69] ++ evil ++ []) ++ []) 72)
    = Ok (to_bytes "root" ++ replicate 60 0).
Proof.
  split; [|vm_compute; reflexivity].
  apply (long_name_injects_tlvs [] 99 ws1 0 69 evil []); [reflexivity..|vm_compute; lia].
Defined.

Definition text_pieces : list sock_event :=
  let l := v1_line 0x0a000001 0x0a000002 1234 443 ++ [CR; LF] ++ [] in
  [Arrive (take 20 l); Arrive (drop 20 l)].

Lemma proxy_v1_witness :
  parse_proxy_proto_header no6 ws0 text_pieces =
    Ok (0, {| ws0 with remote_addr := sockaddr_in (be16 1234) (be32 0x0a000001); remote_addr_len := SOCKADDR_IN;
                       our_addr := sockaddr_in (be16 443) (be32 0x0a000002); our_addr_len := SOCKADDR_IN |}).
Proof.
  apply (proxy_v1_roundtrip no6 ws0 text_pieces 0x0a000001 0x0a000002 1234 443 []);
    [apply no6_ok|lia..|by repeat constructor|vm_compute; reflexivity].
Defined.

(** The IPv6 form leaves the family of the server's address unset. *)
Lemma v2_ipv6_our_family :
  (λ r : Z * worker, (take 2 (remote_addr r.2), take 2 (our_addr r.2), our_addr_len r.2)) <$>
    parse_proxy_proto_header no6 ws0
      [Arrive (PROXY_HEADER_V2 ++ [0x21; 0x21] ++ be16 36 ++ replicate 36 1)]
  = Ok ([AF_INET6; 0], [0; 0], SOCKADDR_IN).
Proof. vm_compute. reflexivity. Qed.
End ProxyWitnesses.
