(* ===== verification/ProcTable.v ===== *)
(** * The table of client processes (src/proc-search.c, src/main.h)

    The main process keeps a [proc_st] for each worker and finds it by the
    address of its client, by the address of the client's DTLS channel, by the
    DTLS session ID and by the session's SID, through four hash tables of
    pointers to the same objects.  [proc_inv] says that the tables are exact
    indices of the live processes; every operation preserves it. *)

From S2P Require Import Prelude CString Htable Store SecModData IpUtil NetText Ban IpLease.

Definition SOCKADDR_STORAGE_SIZE : Z := 128.
Definition GNUTLS_MAX_SESSION_ID : Z := 32.

(** The part of [GroupCfgSt] the main process itself looks at; [lease_cfg]
    is what the addresses of the client are chosen from. *)
Record group_cfg_st := GroupCfg {
  max_same_clients : Z; deny_roaming : bool; lease_cfg : lease_config }.

(** The defaults of a virtual host for them, and when its statistics are
    reset. *)
Record main_vhost_st := MainVhost {
  stats_reset_time : Z; def_max_same_clients : Z; def_deny_roaming : bool;
  def_ipv4_net : option string; def_ipv4_netmask : option string;
  def_ipv6_net : option string; def_ipv6_prefix : Z; def_ipv6_subnet_prefix : Z }.

(** [struct proc_st].  A [struct sockaddr_storage] is its 128 bytes. *)
Record proc_st := Proc {
  pid : Z; pid_killed : bool; udp_fd_receive_time : Z; conn_time : Z;
  leases : proc_leases;
  remote_addr : list Z; remote_addr_len : Z;
  dtls_remote_addr : list Z; dtls_remote_addr_len : Z;
  sid : list Z; active_sid : bool;
  dtls_session_id : list Z; dtls_session_id_size : Z;
  username : string; groupname : string;
  status : ps_auth;
  tun_name : string; tun_fd : Z; mtu : Z;
  bytes_in : Z; bytes_out : Z; discon_reason : Z;
  config : option group_cfg_st;
  vhost : option main_vhost_st;
}.

(** The [SA_IN_SIZE(size)] bytes at [SA_IN_P_GENERIC(&a, size)] of a
    [struct sockaddr_storage], which has room for both places. *)
Definition storage_ip (a : list Z) (size : Z) : list Z :=
  if size =? 16 then take 4 (drop 4 a) else take 16 (drop 8 a).

(** [memcpy(&dst, src, n)] into a [struct sockaddr_storage]. *)
Definition memcpy_storage (dst src : list Z) (n : Z) : cres (list Z) :=
  if (0 <=? n) && (n <=? SOCKADDR_STORAGE_SIZE) && (n <=? Z.of_nat (length src))
  then Ok (take (Z.to_nat n) src ++ drop (Z.to_nat n) dst) else UB.

(** [memcmp(a, b, n) == 0]. *)
Definition memeq (a b : list Z) : bool := memcmp a b =? 0.

(** [htable_get] with a comparison that keeps a state of its own. *)
Fixpoint get_with {St : Type} (cmp : ptr → St → bool * St) (l : list ptr) (st : St)
    : option ptr * St :=
  match l with
  | [] => (None, st)
  | p :: l => let '(b, st) := cmp p st in if b then (Some p, st) else get_with cmp l st
  end.

(** [struct proc_hash_db_st]. *)
Record proc_hash_db_st (T : Type) := ProcDb {
  db_ip : T; db_dtls_ip : T; db_dtls_id : T; db_sid : T; total : Z }.
Arguments ProcDb {_} _ _ _ _ _.
Arguments db_ip {_} _.
Arguments db_dtls_ip {_} _.
Arguments db_dtls_id {_} _.
Arguments db_sid {_} _.
Arguments total {_} _.

Section proc_search.
Context {T : Type} `{HT : HTable T, Env : SecModEnv}.

(** The processes by their address, and the tables. *)
Record procs_st := Procs { procs : gmap ptr proc_st; proc_table : proc_hash_db_st T }.
Implicit Types (s : procs_st) (c : proc_st) (p : ptr).

Definition rehash_ip c : Z := hash_any (storage_ip (remote_addr c) (remote_addr_len c)).
Definition rehash_dtls_ip c : Z :=
  hash_any (storage_ip (dtls_remote_addr c) (dtls_remote_addr_len c)).
Definition rehash_dtls_id c : Z :=
  hash_any (take (Z.to_nat (dtls_session_id_size c)) (dtls_session_id c)).
Definition rehash_sid c : Z := hash_any (sid c).

(** A rehash function applied to the object a pointer points to. *)
Definition rehash_at (f : proc_st → Z) (m : gmap ptr proc_st) p : Z :=
  match m !! p with Some c => f c | None => 0 end.

Definition proc_table_init : procs_st :=
  Procs ∅ (ProcDb htable_init htable_init htable_init htable_init 0).

Definition set_proc p c s : procs_st := Procs (<[p:=c]> (procs s)) (proc_table s).

(** [ok i] says whether the [i]-th [htable_add] gets the memory it needs. *)
Definition proc_table_add (ok : nat → bool) s p c : Z * procs_st :=
  let add n f t := htable_add (ok n) (rehash_at f (procs s)) (f c) p t in
  let d := proc_table s in
  let '(b, t) := add 0%nat rehash_ip (db_ip d) in
  let d := {| d with db_ip := t |} in
  if negb b then (-1, Procs (procs s) d) else
  let '(b, t) := add 1%nat rehash_dtls_id (db_dtls_id d) in
  let d := {| d with db_dtls_id := t |} in
  if negb b then
    (-1, Procs (procs s) {| d with db_ip := (htable_del (rehash_ip c) p (db_ip d)).2 |})
  else
  let '(b, t) := add 2%nat rehash_sid (db_sid d) in
  let d := {| d with db_sid := t |} in
  if negb b then
    (-1, Procs (procs s) {| d with
       db_ip := (htable_del (rehash_ip c) p (db_ip d)).2;
       db_dtls_id := (htable_del (rehash_dtls_id c) p (db_dtls_id d)).2 |})
  else (0, Procs (procs s) {| d with total := u32 (total d + 1) |}).

(** The DTLS address leaves its table when it is the new address. *)
Definition drop_dtls_ip p c (d : proc_hash_db_st T) : proc_st * proc_hash_db_st T :=
  let '(b, t) := htable_del (rehash_dtls_ip c) p (db_dtls_ip d) in
  (if b then {| c with dtls_remote_addr_len := 0 |} else c, {| d with db_dtls_ip := t |}).

(** [addr] is the memory the pointer of that name points to. *)
Definition proc_table_update_ip (ntop6 : list Z → string) (ok : bool) s p c (addr : list Z) (addr_size : Z)
    : cres (Z * procs_st) :=
  whole ← (if addr_size =? remote_addr_len c then
             a ← mem_at addr 0 (Z.to_nat addr_size); Ok (memeq a (remote_addr c))
           else Ok false);
  if (whole : bool) then Ok (0, s) else
  _ ← human_addr2 ntop6 addr addr_size (Z.of_nat MAX_IP_STR) false;
  let d := proc_table s in
  let '(removed, t) := htable_del (rehash_ip c) p (db_ip d) in
  let d := {| d with db_ip := t |} in
  a ← memcpy_storage (remote_addr c) addr addr_size;
  let c := {| c with remote_addr := a; remote_addr_len := addr_size |} in
  dup ← (if dtls_remote_addr_len c =? addr_size then
           a ← (if addr_size =? 16 then SA_IN_P addr else SA_IN6_P addr);
           Ok (memeq a (storage_ip (dtls_remote_addr c) addr_size))
         else Ok false);
  let '(c, d) := if (dup : bool) then drop_dtls_ip p c d else (c, d) in
  let m := <[p:=c]> (procs s) in
  if removed then
    let '(b, t) := htable_add ok (rehash_at rehash_ip m) (rehash_ip c) p (db_ip d) in
    Ok (if b then 0 else -1, Procs m {| d with db_ip := t |})
  else Ok (0, Procs m d).

(** Here [addr] points to a [struct sockaddr_storage]. *)
Definition proc_table_update_dtls_ip (ok : bool) s p c (addr : list Z) (addr_size : Z)
    : cres (Z * procs_st) :=
  let d := proc_table s in
  if negb (dtls_remote_addr_len c =? 0) && (dtls_remote_addr_len c =? addr_size) &&
     memeq (storage_ip (dtls_remote_addr c) addr_size) (storage_ip addr addr_size)
  then Ok (-1, s) else
  let d := if negb (dtls_remote_addr_len c =? 0) then
             {| d with db_dtls_ip := (htable_del (rehash_dtls_ip c) p (db_dtls_ip d)).2 |}
           else d in
  let c := {| c with dtls_remote_addr_len := 0 |} in
  let s := Procs (<[p:=c]> (procs s)) d in
  if addr_size =? 0 then Ok (0, s) else
  if (remote_addr_len c =? addr_size) &&
     memeq (storage_ip (remote_addr c) addr_size) (storage_ip addr addr_size)
  then Ok (-1, s) else
  a ← memcpy_storage (dtls_remote_addr c) addr addr_size;
  let c := {| c with dtls_remote_addr_len := addr_size; dtls_remote_addr := a |} in
  let m := <[p:=c]> (procs s) in
  let '(b, t) := htable_add ok (rehash_at rehash_dtls_ip m) (rehash_dtls_ip c) p (db_dtls_ip d) in
  Ok (if b then 0 else -1, Procs m {| d with db_dtls_ip := t |}).

Definition proc_table_del s p c : procs_st :=
  let d := proc_table s in
  Procs (procs s) {| d with
    db_dtls_ip := if 0 <? dtls_remote_addr_len c
                  then (htable_del (rehash_dtls_ip c) p (db_dtls_ip d)).2 else db_dtls_ip d;
    db_ip := (htable_del (rehash_ip c) p (db_ip d)).2;
    db_dtls_id := (htable_del (rehash_dtls_id c) p (db_dtls_id d)).2;
    db_sid := (htable_del (rehash_sid c) p (db_sid d)).2 |}.

(** ** Searching *)

(** Whether one of the addresses of the client is this one. *)
Definition dtls_ip_is c (addr : list Z) (size : Z) : bool :=
  (dtls_remote_addr_len c =? size) &&
  memeq (storage_ip (dtls_remote_addr c) (dtls_remote_addr_len c)) (storage_ip addr size).
Definition cstp_ip_is c (addr : list Z) (size : Z) : bool :=
  (remote_addr_len c =? size) &&
  memeq (storage_ip (remote_addr c) (remote_addr_len c)) (storage_ip addr size).

(** The state is [found_ips]. *)
Definition local_ip_cmp (m : gmap ptr proc_st) (addr : list Z) (size : Z) p (found_ips : Z)
    : bool * Z :=
  match m !! p with
  | None => (false, found_ips)
  | Some c =>
    if size =? 0 then (false, found_ips) else
    if dtls_ip_is c addr size then (true, u32 (found_ips + 1)) else
    if cstp_ip_is c addr size then (true, u32 (found_ips + 1)) else (false, found_ips)
  end.

Definition proc_search_single_ip s (addr : list Z) (size : Z) : option ptr :=
  let h := hash_any (storage_ip addr size) in
  let get t := get_with (local_ip_cmp (procs s) addr size) (htable_probe h t) 0 in
  match get (db_dtls_ip (proc_table s)) with
  | (Some p, 1) => Some p
  | _ =>
    match get (db_ip (proc_table s)) with
    | (Some p, 1) => Some p
    | _ => None
    end
  end.

(** [id] is the memory at that pointer, of which [id_size] bytes count. *)
Definition dtls_id_cmp (m : gmap ptr proc_st) (id : list Z) (id_size : Z) p : bool :=
  match m !! p with
  | Some c =>
    (dtls_session_id_size c =? id_size) &&
    memeq (take (Z.to_nat id_size) (dtls_session_id c)) (take (Z.to_nat id_size) id)
  | None => false
  end.

Definition proc_search_dtls_id s (id : list Z) (id_size : Z) : option ptr :=
  htable_get (hash_any (take (Z.to_nat id_size) id)) (dtls_id_cmp (procs s) id id_size)
    (db_dtls_id (proc_table s)).

Definition sid_cmp (m : gmap ptr proc_st) (id : list Z) p : bool :=
  match m !! p with Some c => memeq (sid c) id | None => false end.

Definition proc_search_sid s (id : list Z) : option ptr :=
  htable_get (hash_any id) (sid_cmp (procs s) id) (db_sid (proc_table s)).
End proc_search.
Arguments procs_st _ : clear implicits.

(** ** The tables as indices *)

(** What every process in memory looks like. *)
Record proc_ok (c : proc_st) : Prop := {
  ok_remote : Z.of_nat (length (remote_addr c)) = SOCKADDR_STORAGE_SIZE;
  ok_len : 0 ≤ dtls_remote_addr_len c;
  ok_dtls : Z.of_nat (length (dtls_remote_addr c)) = SOCKADDR_STORAGE_SIZE;
  ok_sid : Z.of_nat (length (sid c)) = SID_SIZE;
  ok_id : Z.of_nat (length (dtls_session_id c)) = GNUTLS_MAX_SESSION_ID;
  ok_id_size : 0 ≤ dtls_session_id_size c ≤ GNUTLS_MAX_SESSION_ID;
}.

(** The fields the tables are indexed by. *)
Definition same_keys (c c' : proc_st) : Prop :=
  remote_addr c' = remote_addr c ∧ remote_addr_len c' = remote_addr_len c ∧
  dtls_remote_addr c' = dtls_remote_addr c ∧ dtls_remote_addr_len c' = dtls_remote_addr_len c ∧
  sid c' = sid c ∧ dtls_session_id c' = dtls_session_id c ∧
  dtls_session_id_size c' = dtls_session_id_size c.

Section proc_spec.
Context {T : Type} `{HT : HTable T, HS : !HTableSpec T, Env : SecModEnv}.
Implicit Types (s : procs_st T) (c : proc_st) (p q : ptr) (m : gmap ptr proc_st)
  (t : T) (M : gmap ptr Z) (f : proc_st → Z) (R : gset ptr).

(** The table [t] holds the pointers of [M], all of them to live processes
    and stored under the hash of the process as it is now. *)
Record tab f m t M : Prop := {
  tab_rep : Rep t M;
  tab_key p h : M !! p = Some h → ∃ c, m !! p = Some c ∧ f c = h;
}.

Lemma tab_init f m : tab f m htable_init ∅.
Proof. split; [apply rep_init|]. intros p h. by rewrite lookup_empty. Qed.

Lemma tab_add f m t M ok p c :
  tab f m t M → ptr_ok p → m !! p = Some c → M !! p = None →
  let '(b, t') := htable_add ok (rehash_at f m) (f c) p t in
  tab f m t' (if b then <[p:=f c]> M else M) ∧ (b = false → ok = false).
Proof.
  intros [Hr Hk] Hp Hm HM.
  assert (rehash_at f m p = f c) as Hf by (unfold rehash_at; by rewrite Hm).
  pose proof (rep_add t M ok (rehash_at f m) (f c) p Hr Hp HM Hf) as H.
  destruct (htable_add _ _ _ _ _) as [b t'].
  assert (∀ q k, M !! q = Some k → rehash_at f m q = k) as Hall.
  { intros q k (d & Hd & Hh)%Hk. unfold rehash_at. by rewrite Hd. }
  specialize (H Hall). destruct b; (split; [|naive_solver]); (split; [tauto|]); [|done].
  intros q h. rewrite lookup_insert_Some. intros [[<- <-]|[_ Hq]]; [eauto|by apply Hk].
Qed.

Lemma tab_del f m t M p c :
  tab f m t M → m !! p = Some c →
  let '(b, t') := htable_del (f c) p t in
  tab f m t' (delete p M) ∧ b = bool_decide (is_Some (M !! p)).
Proof.
  intros [Hr Hk] Hm. destruct (M !! p) as [h|] eqn:HM.
  - destruct (Hk p h HM) as (c' & Hc' & Hh). rewrite Hm in Hc'. injection Hc' as <-. subst h.
    pose proof (rep_del t M (f c) p Hr HM) as H. destruct (htable_del _ _ _) as [b t'].
    destruct H as [-> H]. split; [|by rewrite bool_decide_true by eauto]. split; [done|].
    intros q h [_ Hq]%lookup_delete_Some. by apply Hk.
  - pose proof (rep_del_none t M (f c) p Hr HM) as H. destruct (htable_del _ _ _) as [b t'].
    destruct H as [-> H]. rewrite delete_id by done.
    split; [by split|]. rewrite bool_decide_false; [done|]. by intros [].
Qed.

Lemma tab_del2 f m t M p c :
  tab f m t M → m !! p = Some c → tab f m (htable_del (f c) p t).2 (delete p M).
Proof. intros Ht Hm. pose proof (tab_del f m t M p c Ht Hm). destruct (htable_del _ _ _). tauto. Qed.

Lemma tab_set f m t M p c c' :
  tab f m t M → m !! p = Some c → M !! p = None ∨ f c' = f c → tab f (<[p:=c']> m) t M.
Proof.
  intros [Hr Hk] Hm Hor. split; [done|]. intros q h Hq. destruct (decide (q = p)) as [->|Hne].
  - rewrite lookup_insert_eq. destruct Hor as [HM|Hf]; [congruence|].
    destruct (Hk p h Hq) as (d & Hd & Hh). exists c'. split; [done|]. congruence.
  - rewrite lookup_insert_ne by done. by apply Hk.
Qed.

Lemma tab_new f m t M p c : tab f m t M → m !! p = None → tab f (<[p:=c]> m) t M.
Proof.
  intros [Hr Hk] Hm. split; [done|]. intros q h (d & Hd & Hh)%Hk. exists d.
  rewrite lookup_insert_ne by congruence. done.
Qed.

Lemma tab_free f m t M p : tab f m t M → M !! p = None → tab f (delete p m) t M.
Proof.
  intros [Hr Hk] HM. split; [done|]. intros q h Hq. destruct (Hk q h Hq) as (d & Hd & Hh).
  exists d. rewrite lookup_delete_ne by congruence. done.
Qed.

Lemma htable_get_sound t M h cmp p :
  Rep t M → htable_get h cmp t = Some p → cmp p = true ∧ is_Some (M !! p).
Proof.
  intros Hr. unfold htable_get. destruct (list_find _ _) as [[i q]|] eqn:E; [|done].
  intros [= ->]. apply list_find_Some in E as (Hi & Hc & _). split; [done|].
  apply (rep_probe_sound t M h); [done|]. by eapply list_elem_of_lookup_2.
Qed.

Lemma htable_get_none t M h cmp p :
  Rep t M → htable_get h cmp t = None → M !! p = Some h → cmp p = false.
Proof.
  intros Hr Hg HM. unfold htable_get in Hg. destruct (list_find _ _) as [[i q]|] eqn:E; [done|].
  apply list_find_None in E. rewrite Forall_forall in E.
  apply not_true_is_false, E, (rep_probe_complete t M h p Hr HM).
Qed.

(** The search that counts is the plain one. *)
Lemma get_with_found m (addr : list Z) (size : Z) l :
  get_with (local_ip_cmp m addr size) l 0 =
    match list_find (λ p, (local_ip_cmp m addr size p 0).1 = true) l with
    | Some (_, p) => (Some p, 1)
    | None => (None, 0)
    end.
Proof.
  induction l as [|p l IH]; [done|].
  change (get_with (local_ip_cmp m addr size) (p :: l) 0) with
    (let '(b, st) := local_ip_cmp m addr size p 0 in
     if b then (Some p, st) else get_with (local_ip_cmp m addr size) l st).
  cbn [list_find].
  assert (local_ip_cmp m addr size p 0 = (true, 1) ∨ local_ip_cmp m addr size p 0 = (false, 0))
    as [->| ->].
  { unfold local_ip_cmp. repeat case_match; by (left + right). }
  - rewrite decide_True by done. done.
  - rewrite decide_False by done. rewrite IH. by destruct (list_find _ _) as [[? ?]|].
Qed.

Lemma single_ip_eq s (addr : list Z) (size : Z) :
  proc_search_single_ip s addr size =
    (let get := htable_get (hash_any (storage_ip addr size))
                  (λ p, (local_ip_cmp (procs s) addr size p 0).1) in
     match get (db_dtls_ip (proc_table s)) with
     | Some p => Some p
     | None => get (db_ip (proc_table s))
     end).
Proof.
  unfold proc_search_single_ip. rewrite !get_with_found. unfold htable_get.
  by destruct (list_find _ _) as [[? ?]|], (list_find _ _) as [[? ?]|].
Qed.

(** [R] are the processes whose session was opened: all of them are found by
    SID and by DTLS session ID, and no others are in any table. *)
Record proc_inv s R : Prop := {
  pi_procs p c : procs s !! p = Some c → ptr_ok p ∧ proc_ok c;
  pi_sid : ∃ M, tab rehash_sid (procs s) (db_sid (proc_table s)) M ∧ dom M = R;
  pi_id : ∃ M, tab rehash_dtls_id (procs s) (db_dtls_id (proc_table s)) M ∧ dom M = R;
  pi_ip : ∃ M, tab rehash_ip (procs s) (db_ip (proc_table s)) M ∧ dom M ⊆ R;
  pi_dtls : ∃ M, tab rehash_dtls_ip (procs s) (db_dtls_ip (proc_table s)) M ∧ dom M ⊆ R ∧
    ∀ p c, procs s !! p = Some c → dtls_remote_addr_len c = 0 → M !! p = None;
}.

Lemma proc_inv_init : proc_inv proc_table_init ∅.
Proof.
  split; simpl; [intros p c; by rewrite lookup_empty|..]; exists (∅ : gmap ptr Z);
    rewrite ?dom_empty_L; (split; [apply tab_init|]); try done.
Qed.

Lemma proc_inv_live s R p : proc_inv s R → p ∈ R → ∃ c, procs s !! p = Some c.
Proof.
  intros Hi Hp. destruct (pi_sid _ _ Hi) as (M & Ht & HM). rewrite <- HM in Hp.
  apply elem_of_dom in Hp as [h Hh]. destruct (tab_key _ _ _ _ Ht p h Hh) as (c & Hc & _). eauto.
Qed.

(** A change of other fields, or of a process that is in no table. *)
Lemma proc_inv_set s R p c c' :
  proc_inv s R → procs s !! p = Some c → proc_ok c' → p ∉ R ∨ same_keys c c' →
  proc_inv (set_proc p c' s) R.
Proof.
  intros [Hp (Ms & Hs & HMs) (Mx & Hx & HMx) (Mi & Hi & HMi) (Md & Hd & HMd & Hlen)] Hc Hok Hor.
  assert (∀ M, dom M ⊆ R → p ∉ R → M !! p = None) as Hout.
  { intros M HM Hn. apply not_elem_of_dom. set_solver. }
  split; simpl.
  - intros q d. rewrite lookup_insert_Some. intros [[<- <-]|[_ Hq]]; [|by apply Hp].
    split; [|done]. by destruct (Hp p c Hc).
  - exists Ms. split; [|done]. apply (tab_set _ _ _ _ _ c); [done..|].
    destruct Hor as [Hn|Hk]; [left; apply Hout; set_solver|right]. unfold rehash_sid.
    by destruct Hk as (_ & _ & _ & _ & -> & _).
  - exists Mx. split; [|done]. apply (tab_set _ _ _ _ _ c); [done..|].
    destruct Hor as [Hn|Hk]; [left; apply Hout; set_solver|right]. unfold rehash_dtls_id.
    by destruct Hk as (_ & _ & _ & _ & _ & -> & ->).
  - exists Mi. split; [|done]. apply (tab_set _ _ _ _ _ c); [done..|].
    destruct Hor as [Hn|Hk]; [left; apply Hout; set_solver|right]. unfold rehash_ip.
    by destruct Hk as (-> & -> & _).
  - exists Md. split; [|split; [done|]].
    + apply (tab_set _ _ _ _ _ c); [done..|].
      destruct Hor as [Hn|Hk]; [left; apply Hout; set_solver|right]. unfold rehash_dtls_ip.
      by destruct Hk as (_ & _ & -> & -> & _).
    + intros q d. rewrite lookup_insert_Some. intros [[<- <-]|[_ Hq]]; [|by apply Hlen].
      intros H0. destruct Hor as [Hn|Hk]; [apply Hout; set_solver|].
      apply (Hlen p c Hc). destruct Hk as (_ & _ & _ & Hk & _). congruence.
Qed.

Lemma proc_inv_new s R p c :
  proc_inv s R → procs s !! p = None → ptr_ok p → proc_ok c → proc_inv (set_proc p c s) R.
Proof.
  intros Hinv Hc Hp Hok. assert (p ∉ R) as HpR.
  { intros [d Hd]%(proc_inv_live s R p Hinv). congruence. }
  destruct Hinv as [Hps (Ms & Hs & HMs) (Mx & Hx & HMx) (Mi & Hi & HMi) (Md & Hd & HMd & Hlen)].
  split; simpl.
  - intros q d. rewrite lookup_insert_Some. intros [[<- <-]|[_ Hq]]; [done|by apply Hps].
  - exists Ms. split; [by apply tab_new|done].
  - exists Mx. split; [by apply tab_new|done].
  - exists Mi. split; [by apply tab_new|done].
  - exists Md. split; [by apply tab_new|split; [done|]].
    intros q d. rewrite lookup_insert_Some. intros [[<- <-]|[_ Hq]]; [|by apply Hlen].
    intros _. apply not_elem_of_dom. set_solver.
Qed.

Lemma proc_table_add_spec ok s R p c :
  proc_inv s R → procs s !! p = Some c → p ∉ R →
  let '(ret, s') := proc_table_add ok s p c in
  procs s' = procs s ∧
  (ret = 0 ∧ proc_inv s' ({[p]} ∪ R) ∨
   ret = -1 ∧ proc_inv s' R ∧ ∃ n, ok n = false).
Proof.
  intros Hinv Hc HpR. destruct (pi_procs _ _ Hinv p c Hc) as [Hp Hok].
  destruct Hinv as [Hps (Ms & Hs & HMs) (Mx & Hx & HMx) (Mi & Hi & HMi) (Md & Hd & HMd & Hlen)].
  assert (∀ M, dom M ⊆ R → M !! p = None) as Hout.
  { intros M HM. apply not_elem_of_dom. set_solver. }
  unfold proc_table_add. cbv zeta.
  pose proof (tab_add _ _ _ _ (ok 0%nat) p c Hi Hp Hc (Hout _ HMi)) as Ai.
  destruct (htable_add (ok 0%nat) _ _ _ _) as [b ti]. destruct Ai as [Ai Fi].
  destruct b; cbn [negb].
  2:{ split; [done|]. right. split_and!; [done| |eauto]. split; simpl; eauto. }
  cbn [db_dtls_id].
  pose proof (tab_add _ _ _ _ (ok 1%nat) p c Hx Hp Hc (Hout Mx ltac:(set_solver))) as Ax.
  destruct (htable_add (ok 1%nat) _ _ _ _) as [b tx]. destruct Ax as [Ax Fx].
  pose proof (tab_del2 _ _ _ _ _ _ Ai Hc) as Di. rewrite delete_insert_id in Di by auto.
  destruct b; cbn [negb].
  2:{ split; [done|]. right. split_and!; [done| |eauto]. split; simpl; eauto. }
  cbn [db_sid].
  pose proof (tab_add _ _ _ _ (ok 2%nat) p c Hs Hp Hc (Hout Ms ltac:(set_solver))) as As.
  destruct (htable_add (ok 2%nat) _ _ _ _) as [b ts]. destruct As as [As Fs].
  pose proof (tab_del2 _ _ _ _ _ _ Ax Hc) as Dx.
  rewrite delete_insert_id in Dx by (apply Hout; set_solver).
  destruct b; cbn [negb].
  2:{ split; [done|]. right. split_and!; [done| |eauto]. split; simpl; eauto. }
  split; [done|]. left. split; [done|]. split; simpl; [done|eexists; split; [done|]..|].
  1-3: rewrite dom_insert_L; set_solver.
  exists Md. split_and!; [done|set_solver|done].
Qed.

(** [proc_table_update_ip] and [proc_table_update_dtls_ip] change these fields
    only. *)
Definition set_addrs c (a : list Z) (n : Z) (da : list Z) (dn : Z) : proc_st :=
  {| c with remote_addr := a; remote_addr_len := n; dtls_remote_addr := da;
            dtls_remote_addr_len := dn |}.

(** The invariant after the tables of addresses, and the addresses, changed. *)
Lemma proc_inv_addrs s R p c a n da dn ti td tot Mi Md :
  proc_inv s R → procs s !! p = Some c →
  let c' := set_addrs c a n da dn in
  let m := <[p:=c']> (procs s) in
  Z.of_nat (length a) = SOCKADDR_STORAGE_SIZE → Z.of_nat (length da) = SOCKADDR_STORAGE_SIZE →
  0 ≤ dn →
  tab rehash_ip m ti Mi → dom Mi ⊆ R →
  tab rehash_dtls_ip m td Md → dom Md ⊆ R → (dn = 0 → Md !! p = None) →
  (∀ q d, q ≠ p → procs s !! q = Some d → dtls_remote_addr_len d = 0 → Md !! q = None) →
  proc_inv (Procs m (ProcDb ti td (db_dtls_id (proc_table s)) (db_sid (proc_table s)) tot)) R.
Proof.
  intros Hinv Hc c' m Ha Hda Hdn Hti HMi Htd HMd H0 Hlen.
  destruct (pi_procs _ _ Hinv p c Hc) as [Hp Hok].
  destruct Hinv as [Hps (Ms & Hs & HMs) (Mx & Hx & HMx) _ _].
  split; simpl.
  - intros q d. unfold m. rewrite lookup_insert_Some. intros [[<- <-]|[_ Hq]]; [|by apply Hps].
    split; [done|]. destruct Hok. by split.
  - exists Ms. split; [|done]. apply (tab_set _ _ _ _ _ c); auto.
  - exists Mx. split; [|done]. apply (tab_set _ _ _ _ _ c); auto.
  - by exists Mi.
  - exists Md. split_and!; [done..|]. intros q d. unfold m. rewrite lookup_insert_Some.
    intros [[<- <-]|[Hne Hq]]; [done|]. by apply Hlen.
Qed.

Lemma memcpy_storage_spec dst src n :
  Z.of_nat (length dst) = SOCKADDR_STORAGE_SIZE → 0 ≤ n ≤ SOCKADDR_STORAGE_SIZE →
  n ≤ Z.of_nat (length src) →
  ∃ a, memcpy_storage dst src n = Ok a ∧ Z.of_nat (length a) = SOCKADDR_STORAGE_SIZE ∧
    take (Z.to_nat n) a = take (Z.to_nat n) src.
Proof.
  intros Hd Hn Hs. unfold memcpy_storage. eexists. split.
  - rewrite !(proj2 (Z.leb_le _ _)) by lia. done.
  - rewrite length_app, length_take, length_drop. split; [lia|].
    rewrite take_app_le by (rewrite length_take; lia). rewrite take_take. f_equal. lia.
Qed.

Lemma memeq_true a b :
  (length a ≤ length b)%nat → memeq a b = true → take (length a) b = a.
Proof.
  unfold memeq. revert b. induction a as [|x a IH]; intros b Hl Hm; [done|].
  destruct b as [|y b]; [simpl in Hl; lia|]. cbn [memcmp] in Hm. simpl in Hl.
  destruct (Z.eqb_spec x y) as [->|Hne].
  - simpl. f_equal. apply IH; [lia|done].
  - apply Z.eqb_eq in Hm. lia.
Qed.

Lemma memeq_eq a b : length a = length b → memeq a b = true ↔ a = b.
Proof. intros Hl. unfold memeq. by rewrite Z.eqb_eq, memcmp_eq. Qed.

(** An IPv4 or IPv6 socket address. *)
Definition sockaddr_len (n : Z) : Prop := n = 16 ∨ n = 28.

Lemma drop_dtls_ip_spec (dup : bool) m d Md p c c1 :
  tab rehash_dtls_ip m (db_dtls_ip d) Md → m !! p = Some c →
  dtls_remote_addr c1 = dtls_remote_addr c → dtls_remote_addr_len c1 = dtls_remote_addr_len c →
  (dtls_remote_addr_len c = 0 → Md !! p = None) →
  ∃ dn td Md', (if dup then drop_dtls_ip p c1 d else (c1, d)) =
      ({| c1 with dtls_remote_addr_len := dn |}, {| d with db_dtls_ip := td |}) ∧
    tab rehash_dtls_ip (<[p:={| c1 with dtls_remote_addr_len := dn |}]> m) td Md' ∧
    dom Md' ⊆ dom Md ∧ (dn = 0 → Md' !! p = None) ∧ (dn = 0 ∨ dn = dtls_remote_addr_len c).
Proof.
  intros Hd Hc Ha Hl H0. assert (rehash_dtls_ip c1 = rehash_dtls_ip c) as Hr.
  { unfold rehash_dtls_ip. by rewrite Ha, Hl. }
  destruct dup.
  - unfold drop_dtls_ip. rewrite Hr.
    pose proof (tab_del _ _ _ _ _ _ Hd Hc) as Dd. destruct (htable_del _ _ _) as [b td].
    destruct Dd as [Dd Hb]. exists (if b then 0 else dtls_remote_addr_len c), td, (delete p Md).
    split_and!; [by destruct b, c1; simpl in *; subst| |set_solver|by rewrite lookup_delete_eq|
                 by destruct b; auto].
    apply (tab_set _ _ _ _ _ c); [done..|]. left. by rewrite lookup_delete_eq.
  - exists (dtls_remote_addr_len c), (db_dtls_ip d), Md.
    split_and!; [by destruct d, c1; simpl in *; subst| |done|done|by right].
    apply (tab_set _ _ _ _ _ c); [done..|]. right. unfold rehash_dtls_ip. cbn. by rewrite Ha.
Qed.

(** The comparison with the address that is recorded. *)
Lemma whole_addr_spec c addr n :
  n = Z.of_nat (length addr) → sockaddr_len n → proc_ok c →
  ∃ whole, (if n =? remote_addr_len c then
             a ← mem_at addr 0 (Z.to_nat n); Ok (memeq a (remote_addr c))
           else Ok false) = Ok whole ∧
    (whole = true → remote_addr_len c = n ∧ take (length addr) (remote_addr c) = addr).
Proof.
  intros -> Hn Hok.
  destruct (Z.eqb_spec (Z.of_nat (length addr)) (remote_addr_len c)); [|eexists; split; [done|done]].
  rewrite mem_at_Ok by lia. run. eexists. split; [done|].
  rewrite Nat2Z.id, drop_0, firstn_all. intros Hm. split; [done|].
  apply memeq_true; [|done]. pose proof (ok_remote _ Hok). unfold SOCKADDR_STORAGE_SIZE in *.
  destruct Hn; lia.
Qed.

Lemma proc_table_update_ip_spec ntop6 ok s R p c addr :
  let n := Z.of_nat (length addr) in
  proc_inv s R → procs s !! p = Some c → sockaddr_len n →
  ∃ ret s' a dn, proc_table_update_ip ntop6 ok s p c addr n = Ok (ret, s') ∧ proc_inv s' R ∧
    procs s' = <[p:=set_addrs c a n (dtls_remote_addr c) dn]> (procs s) ∧
    take (length addr) a = addr ∧ (dn = 0 ∨ dn = dtls_remote_addr_len c).
Proof.
  intros n Hinv Hc Hn. destruct (pi_procs _ _ Hinv p c Hc) as [Hp Hok].
  unfold proc_table_update_ip.
  destruct (whole_addr_spec c addr n eq_refl Hn Hok) as (whole & -> & Hw).
  run. destruct whole.
  { destruct (Hw eq_refl) as [Hl Ht]. exists 0, s, (remote_addr c), (dtls_remote_addr_len c).
    split_and!; [done..| |done|by right].
    rewrite insert_id; [done|]. rewrite Hc. destruct c. simpl in *. by subst. }
  destruct (human_addr2_defined ntop6 addr n (Z.of_nat MAX_IP_STR)) as [str ->];
    [case_match; destruct Hn; lia|]. run.
  destruct (pi_ip _ _ Hinv) as (Mi & Hi & HMi). destruct (pi_dtls _ _ Hinv) as (Md & Hd & HMd & Hlen).
  pose proof (tab_del _ _ _ _ _ _ Hi Hc) as Di. destruct (htable_del _ _ _) as [removed ti].
  destruct Di as [Di Hrem].
  destruct (memcpy_storage_spec (remote_addr c) addr n) as (a & -> & Hal & Hat);
    [apply Hok|unfold SOCKADDR_STORAGE_SIZE; destruct Hn; lia|lia|].
  run. set (c1 := {| c with remote_addr := a; remote_addr_len := n |}).
  assert (∃ dup, (if dtls_remote_addr_len c1 =? n then
           a0 ← (if n =? 16 then SA_IN_P addr else SA_IN6_P addr);
           Ok (memeq a0 (storage_ip (dtls_remote_addr c1) n))
         else Ok false) = Ok dup) as (dup & ->).
  { case_match; [|eauto]. unfold SA_IN_P, SA_IN6_P.
    destruct (Z.eqb_spec n 16); rewrite mem_at_Ok by (destruct Hn; lia); run; eauto. }
  run.
  destruct (drop_dtls_ip_spec dup (procs s) (ProcDb ti (db_dtls_ip (proc_table s))
    (db_dtls_id (proc_table s)) (db_sid (proc_table s)) (total (proc_table s))) Md p c c1)
    as (dn & td & Md' & -> & Htd & HMd' & H0 & Hdn); [done..|by apply Hlen|].
  set (c2 := set_addrs c a n (dtls_remote_addr c) dn) in *.
  assert (tab rehash_ip (<[p:=c2]> (procs s)) ti (delete p Mi)) as Hi2.
  { apply (tab_set _ _ _ _ _ c); [done..|]. left. by rewrite lookup_delete_eq. }
  assert (∀ q d, q ≠ p → procs s !! q = Some d → dtls_remote_addr_len d = 0 → Md' !! q = None) as Hq.
  { intros q d _ Hq Hq0. pose proof (Hlen q d Hq Hq0) as H. apply not_elem_of_dom in H.
    apply not_elem_of_dom. set_solver. }
  assert (∀ ti' Mi', tab rehash_ip (<[p:=c2]> (procs s)) ti' Mi' → dom Mi' ⊆ R →
    proc_inv (Procs (<[p:=c2]> (procs s))
      (ProcDb ti' td (db_dtls_id (proc_table s)) (db_sid (proc_table s)) (total (proc_table s)))) R)
    as Hfin.
  { intros ti' Mi' Hti' HMi'. unfold c2.
    apply (proc_inv_addrs s R p c a n _ dn ti' td _ Mi' Md'); try done; [apply Hok| |set_solver].
    destruct Hdn as [->| ->]; [done|apply Hok]. }
  unfold n in Hat. rewrite Nat2Z.id, firstn_all in Hat.
  destruct removed; cbn [db_ip].
  - pose proof (tab_add _ _ _ _ ok p c2 Hi2 Hp (lookup_insert_eq _ _ _) (lookup_delete_eq _ _)) as Ai.
    destruct (htable_add _ _ _ _ _) as [b ti2]. destruct Ai as [Ai _].
    eexists _, _, a, dn. split_and!; [done| |done..].
    apply (Hfin _ _ Ai). symmetry in Hrem. apply bool_decide_eq_true, elem_of_dom in Hrem.
    destruct b; rewrite ?dom_insert_L, dom_delete_L; set_solver.
  - eexists _, _, a, dn. split_and!; [done| |done..]. apply (Hfin _ _ Hi2). set_solver.
Qed.

Lemma proc_table_update_dtls_ip_spec ok s R p c addr n :
  proc_inv s R → procs s !! p = Some c → p ∈ R →
  Z.of_nat (length addr) = SOCKADDR_STORAGE_SIZE → 0 ≤ n ≤ SOCKADDR_STORAGE_SIZE →
  ∃ ret s' da dn, proc_table_update_dtls_ip ok s p c addr n = Ok (ret, s') ∧ proc_inv s' R ∧
    procs s' = <[p:=set_addrs c (remote_addr c) (remote_addr_len c) da dn]> (procs s) ∧
    (dn = 0 ∨ dn = n).
Proof.
  intros Hinv Hc HpR Hl Hn. destruct (pi_procs _ _ Hinv p c Hc) as [Hp Hok].
  destruct (pi_ip _ _ Hinv) as (Mi & Hi & HMi). destruct (pi_dtls _ _ Hinv) as (Md & Hd & HMd & Hlen).
  unfold proc_table_update_dtls_ip.
  destruct (negb _ && _ && _) eqn:Hsame.
  { apply andb_prop in Hsame as [[_ He%Z.eqb_eq]%andb_prop _].
    exists (-1), s, (dtls_remote_addr c), (dtls_remote_addr_len c). split_and!; [done..| |by right].
    rewrite insert_id; [done|]. rewrite Hc. by destruct c. }
  (* the table once the old address is removed *)
  assert (∃ td, (let d := proc_table s in if negb (dtls_remote_addr_len c =? 0)
      then {| d with db_dtls_ip := (htable_del (rehash_dtls_ip c) p (db_dtls_ip d)).2 |} else d) =
      ProcDb (db_ip (proc_table s)) td (db_dtls_id (proc_table s)) (db_sid (proc_table s))
        (total (proc_table s)) ∧ tab rehash_dtls_ip (procs s) td (delete p Md)) as (td & Htd & Ht).
  { cbv zeta. destruct (Z.eqb_spec (dtls_remote_addr_len c) 0) as [H0|H0]; simpl.
    - exists (db_dtls_ip (proc_table s)). split; [by destruct (proc_table s)|].
      rewrite delete_id by by apply (Hlen p c). done.
    - eexists. split; [done|]. by apply tab_del2. }
  cbv zeta in Htd |- *. rewrite Htd. clear Htd.
  assert (∀ da dn td' Md', Z.of_nat (length da) = SOCKADDR_STORAGE_SIZE → 0 ≤ dn →
    let m := <[p:=set_addrs c (remote_addr c) (remote_addr_len c) da dn]> (procs s) in
    tab rehash_dtls_ip m td' Md' → dom Md' ⊆ {[p]} ∪ dom Md → (dn = 0 → Md' !! p = None) →
    proc_inv (Procs m (ProcDb (db_ip (proc_table s)) td' (db_dtls_id (proc_table s))
      (db_sid (proc_table s)) (total (proc_table s)))) R) as Hfin.
  { intros da dn td' Md' Hda Hdn m Htd' HMd' H0. subst m.
    eapply (proc_inv_addrs s R p c _ _ _ _ _ _ _ Mi Md'); try done; [apply Hok| |set_solver|].
    - apply (tab_set _ _ _ _ _ c); auto.
    - intros q d Hne Hq Hq0. pose proof (Hlen q d Hq Hq0) as H. apply not_elem_of_dom in H.
      apply not_elem_of_dom. set_solver. }
  assert (tab rehash_dtls_ip (<[p:=set_addrs c (remote_addr c) (remote_addr_len c)
      (dtls_remote_addr c) 0]> (procs s)) td (delete p Md)) as Ht0.
  { apply (tab_set _ _ _ _ _ c); [done..|]. left. by rewrite lookup_delete_eq. }
  assert (proc_inv (Procs (<[p:=set_addrs c (remote_addr c) (remote_addr_len c)
      (dtls_remote_addr c) 0]> (procs s)) (ProcDb (db_ip (proc_table s)) td
      (db_dtls_id (proc_table s)) (db_sid (proc_table s)) (total (proc_table s)))) R) as Hinv0.
  { eapply Hfin; [apply Hok|lia|done|set_solver|by rewrite lookup_delete_eq]. }
  destruct (Z.eqb_spec n 0) as [->|H0].
  { eexists _, _, _, 0. split_and!; [reflexivity|exact Hinv0|reflexivity|by left]. }
  case_match; [eexists _, _, _, 0; split_and!; [reflexivity|exact Hinv0|reflexivity|by left]|].
  destruct (memcpy_storage_spec (dtls_remote_addr c) addr n) as (da & Hcp & Hdal & _);
    [apply Hok|lia|lia|].
  cbn [dtls_remote_addr]. rewrite Hcp. run. cbn [db_dtls_ip procs]. rewrite insert_insert_eq.
  set (c2 := set_addrs c (remote_addr c) (remote_addr_len c) da n).
  assert (tab rehash_dtls_ip (<[p:=c2]> (procs s)) td (delete p Md)) as Ht2.
  { apply (tab_set _ _ _ _ _ c); [done..|]. left. by rewrite lookup_delete_eq. }
  pose proof (tab_add _ _ _ _ ok p c2 Ht2 Hp (lookup_insert_eq _ _ _) (lookup_delete_eq _ _)) as Ad.
  match goal with |- context [htable_add ok ?f ?h p td] =>
    change (htable_add ok f h p td) with
      (htable_add ok (rehash_at rehash_dtls_ip (<[p:=c2]> (procs s))) (rehash_dtls_ip c2) p td) end.
  destruct (htable_add _ _ _ p td) as [b td2].
  eexists _, _, da, n. split_and!; [done|eapply (Hfin da n td2); [done|lia|apply Ad|..]|done|by right].
  - destruct b; rewrite ?dom_insert_L, dom_delete_L; set_solver.
  - lia.
Qed.

(** A process is removed from the tables and freed. *)
Lemma proc_table_del_spec s R p c :
  proc_inv s R → procs s !! p = Some c →
  proc_inv (Procs (delete p (procs s)) (proc_table (proc_table_del s p c))) (R ∖ {[p]}).
Proof.
  intros Hinv Hc. pose proof (ok_len _ (proj2 (pi_procs _ _ Hinv p c Hc))) as Hlen0.
  destruct Hinv as [Hps (Ms & Hs & HMs) (Mx & Hx & HMx) (Mi & Hi & HMi) (Md & Hd & HMd & Hlen)].
  assert (∀ f t M, tab f (procs s) t M →
    tab f (delete p (procs s)) (htable_del (f c) p t).2 (delete p M)) as Hdel.
  { intros f t M Ht. apply tab_free; [by apply tab_del2|by rewrite lookup_delete_eq]. }
  split; simpl.
  - intros q d [_ Hq]%lookup_delete_Some. by apply Hps.
  - exists (delete p Ms). split; [by apply Hdel|]. rewrite dom_delete_L. set_solver.
  - exists (delete p Mx). split; [by apply Hdel|]. rewrite dom_delete_L. set_solver.
  - exists (delete p Mi). split; [by apply Hdel|]. rewrite dom_delete_L. set_solver.
  - exists (delete p Md). split_and!.
    + destruct (Z.ltb_spec 0 (dtls_remote_addr_len c)); [by apply (Hdel rehash_dtls_ip)|].
      assert (Md !! p = None) as HM by (apply (Hlen p c); [done|lia]).
      rewrite (delete_id Md) by done. by apply tab_free.
    + rewrite dom_delete_L. set_solver.
    + intros q d [Hne Hq]%lookup_delete_Some H0. rewrite lookup_delete_ne by done. by apply (Hlen q d).
Qed.

(** ** Searching *)

(** What a search in one of the tables returns. *)
Lemma tab_get_spec f m t M h cmp :
  tab f m t M →
  match htable_get h cmp t with
  | Some p => ∃ c, m !! p = Some c ∧ cmp p = true ∧ p ∈ dom M
  | None => ∀ p c, p ∈ dom M → m !! p = Some c → f c = h → cmp p = false
  end.
Proof.
  intros [Hr Hk]. destruct (htable_get h cmp t) as [p|] eqn:E.
  - destruct (htable_get_sound t M h cmp p Hr E) as [Hc [k HM]].
    destruct (Hk p k HM) as (c & Hm & _). exists c. split_and!; [done..|]. apply elem_of_dom. eauto.
  - intros p c [k HM]%elem_of_dom Hm Hf. destruct (Hk p k HM) as (c' & Hm' & Hk').
    apply (htable_get_none t M h cmp p Hr E). congruence.
Qed.

Lemma search_sid_spec s R id :
  proc_inv s R → Z.of_nat (length id) = SID_SIZE →
  match proc_search_sid s id with
  | Some p => ∃ c, procs s !! p = Some c ∧ p ∈ R ∧ sid c = id
  | None => ∀ p c, p ∈ R → procs s !! p = Some c → sid c ≠ id
  end.
Proof.
  intros Hinv Hid. destruct (pi_sid _ _ Hinv) as (M & Ht & <-). unfold proc_search_sid.
  assert (∀ p c, procs s !! p = Some c → sid_cmp (procs s) id p = true ↔ sid c = id) as Hcmp.
  { intros p c Hc. unfold sid_cmp. rewrite Hc. apply memeq_eq.
    pose proof (ok_sid _ (proj2 (pi_procs _ _ Hinv p c Hc))). lia. }
  pose proof (tab_get_spec _ _ _ _ (hash_any id) (sid_cmp (procs s) id) Ht) as H.
  destruct (htable_get _ _ _) as [p|].
  - destruct H as (c & Hc & Hcm & HM). exists c. split_and!; [done..|]. by apply (Hcmp p c Hc).
  - intros p c HM Hc Hs. specialize (H p c HM Hc). unfold rehash_sid in H. rewrite Hs in H.
    apply (Hcmp p c Hc) in Hs. rewrite (H eq_refl) in Hs. done.
Qed.

(** The DTLS session ID of a process. *)
Definition the_id c : list Z := take (Z.to_nat (dtls_session_id_size c)) (dtls_session_id c).

Lemma search_dtls_id_spec s R id (n : Z) :
  proc_inv s R → 0 ≤ n ≤ Z.of_nat (length id) →
  match proc_search_dtls_id s id n with
  | Some p => ∃ c, procs s !! p = Some c ∧ p ∈ R ∧ the_id c = take (Z.to_nat n) id
  | None => ∀ p c, p ∈ R → procs s !! p = Some c → the_id c ≠ take (Z.to_nat n) id
  end.
Proof.
  intros Hinv Hn. destruct (pi_id _ _ Hinv) as (M & Ht & <-). unfold proc_search_dtls_id.
  assert (∀ p c, procs s !! p = Some c →
    dtls_id_cmp (procs s) id n p = true ↔ the_id c = take (Z.to_nat n) id) as Hcmp.
  { intros p c Hc. unfold dtls_id_cmp, the_id. rewrite Hc.
    destruct (pi_procs _ _ Hinv p c Hc) as [_ Hok].
    pose proof (ok_id _ Hok). pose proof (ok_id_size _ Hok).
    rewrite andb_true_iff, Z.eqb_eq. split.
    - intros [<- Hm]. apply memeq_eq; [|done]. rewrite !length_take. lia.
    - intros He. assert (dtls_session_id_size c = n) as Hs.
      { apply (f_equal length) in He. rewrite !length_take in He. lia. }
      split; [done|]. rewrite Hs in He. apply memeq_eq; [|done]. rewrite !length_take. lia. }
  pose proof (tab_get_spec _ _ _ _ (hash_any (take (Z.to_nat n) id)) (dtls_id_cmp (procs s) id n) Ht) as H.
  destruct (htable_get _ _ _) as [p|].
  - destruct H as (c & Hc & Hcm & HM). exists c. split_and!; [done..|]. by apply (Hcmp p c Hc).
  - intros p c HM Hc Hs. specialize (H p c HM Hc).
    change (rehash_dtls_id c) with (hash_any (the_id c)) in H. rewrite Hs in H.
    apply (Hcmp p c Hc) in Hs. rewrite (H eq_refl) in Hs. done.
Qed.

(** One of the addresses of a process, without the port. *)
Definition has_ip c (addr : list Z) (n : Z) : Prop :=
  (dtls_remote_addr_len c = n ∧ storage_ip (dtls_remote_addr c) n = storage_ip addr n) ∨
  (remote_addr_len c = n ∧ storage_ip (remote_addr c) n = storage_ip addr n).

Lemma storage_ip_length a n :
  Z.of_nat (length a) = SOCKADDR_STORAGE_SIZE →
  length (storage_ip a n) = if n =? 16 then 4%nat else 16%nat.
Proof.
  intros Ha. unfold SOCKADDR_STORAGE_SIZE in Ha. unfold storage_ip.
  case_match; rewrite length_take, length_drop; lia.
Qed.

Lemma local_ip_cmp_spec s R addr n p c k :
  proc_inv s R → procs s !! p = Some c → Z.of_nat (length addr) = SOCKADDR_STORAGE_SIZE → n ≠ 0 →
  (local_ip_cmp (procs s) addr n p k).1 = true ↔ has_ip c addr n.
Proof.
  intros Hinv Hc Ha Hn. destruct (pi_procs _ _ Hinv p c Hc) as [_ Hok].
  assert (∀ a l, Z.of_nat (length a) = SOCKADDR_STORAGE_SIZE →
    (l =? n) && memeq (storage_ip a l) (storage_ip addr n) = true ↔
    l = n ∧ storage_ip a n = storage_ip addr n) as Hb.
  { intros a l Hal. rewrite andb_true_iff, Z.eqb_eq. split.
    - intros [-> Hm]. split; [done|]. apply memeq_eq; [|done]. by rewrite !storage_ip_length.
    - intros [-> Hm]. split; [done|]. apply memeq_eq; [|done]. by rewrite !storage_ip_length. }
  unfold local_ip_cmp. rewrite Hc, (proj2 (Z.eqb_neq n 0) Hn). unfold has_ip, dtls_ip_is, cstp_ip_is.
  rewrite <- !Hb by apply Hok. destruct (_ && _); [simpl; tauto|].
  destruct (_ && _); simpl; naive_solver.
Qed.

Lemma search_single_ip_sound s R addr n p :
  proc_inv s R → Z.of_nat (length addr) = SOCKADDR_STORAGE_SIZE → n ≠ 0 →
  proc_search_single_ip s addr n = Some p →
  ∃ c, procs s !! p = Some c ∧ p ∈ R ∧ has_ip c addr n.
Proof.
  intros Hinv Ha Hn. rewrite single_ip_eq. cbv zeta.
  destruct (pi_ip _ _ Hinv) as (Mi & Hi & HMi). destruct (pi_dtls _ _ Hinv) as (Md & Hd & HMd & _).
  set (h := hash_any _). set (cmp := λ q, _).
  pose proof (tab_get_spec _ _ _ _ h cmp Hd) as H1. pose proof (tab_get_spec _ _ _ _ h cmp Hi) as H2.
  assert (∀ q c, procs s !! q = Some c → cmp q = true → has_ip c addr n) as Hcmp.
  { intros q c Hc Hq. by apply (local_ip_cmp_spec s R addr n q c 0). }
  destruct (htable_get h cmp (db_dtls_ip _)) as [q|].
  - intros [= <-]. destruct H1 as (c & Hc & Hcm & HM). exists c. split_and!; [done|set_solver|eauto].
  - intros Hq. rewrite Hq in H2. destruct H2 as (c & Hc & Hcm & HM). exists c.
    split_and!; [done|set_solver|eauto].
Qed.
End proc_spec.
