(* ===== verification/MainUdp.v ===== *)
(** * UDP packets in the main process (src/main.c)

    A datagram that arrives at the listening UDP socket is given to the worker
    it belongs to: [get_session_id] finds the ID in a DTLS client hello, and
    [forward_udp_to_owner] looks the worker up and passes a connected socket
    on.  The packet lies in the buffer of the main process; what follows it
    there is left over from earlier packets. *)

From S2P Require Import Prelude CString Htable Store SecModData IpUtil Ban IpLease ProcTable.

Definition MAX_MSG_SIZE : Z := 16384.
Definition TLS_EXT_APP_ID : Z := 48018.
Definition RECORD_PAYLOAD_POS : Z := 13.
Definition HANDSHAKE_SESSION_ID_POS : Z := 46.
Definition UDP_FD_RESEND_TIME : Z := 3.

(** [(buffer[pos] << 8) | buffer[pos+1]]. *)
Definition read16 (buffer : list Z) (pos : Z) : cres Z :=
  a ← aread buffer pos; b ← aread buffer (pos + 1); Ok (Z.lor (Z.shiftl a 8) b).

(** The new position, or [None] for [goto fallback]. *)
Definition SKIP8 (buffer : list Z) (pos total : Z) : cres (option Z) :=
  if total <? pos + 1 then Ok None else
  s ← aread buffer pos;
  Ok (if total <? pos + 1 + s then None else Some (pos + 1 + s)).

Definition SKIP16 (buffer : list Z) (pos total : Z) : cres (option Z) :=
  if total <? pos + 2 then Ok None else
  s ← read16 buffer pos;
  Ok (if total <? pos + 2 + s then None else Some (pos + 2 + s)).

(** How the search for the extension ends: with the place and the size of the
    ID, with [return 0], or with [goto fallback]. *)
Inductive ext_result := Found (id id_size : Z) | Invalid | Fallback.

Definition app_id (buffer : list Z) (pos total : Z) : cres ext_result :=
  if total <? pos + 2 then Ok Invalid else
  s ← read16 buffer pos;
  if total <? pos + 2 + s then Ok Invalid else
  let pos := pos + 2 in
  s ← aread buffer pos;
  if total <? pos + 1 + s then Ok Invalid else Ok (Found (pos + 1) s).

Fixpoint extensions (fuel : nat) (buffer : list Z) (pos total : Z) : cres ext_result :=
  match fuel with
  | O => Fuel
  | S fuel =>
    if total <=? pos then Ok Fallback else
    if total <? pos + 4 then Ok Fallback else
    type ← read16 buffer pos;
    let pos := pos + 2 in
    if type =? TLS_EXT_APP_ID then app_id buffer pos total else
    r ← SKIP16 buffer pos total;
    match r with None => Ok Fallback | Some pos => extensions fuel buffer pos total end
  end.

(** The fields of the hello before its extensions. *)
Definition skip_hello (buffer : list Z) (total : Z) : cres (option Z) :=
  r ← SKIP8 buffer (RECORD_PAYLOAD_POS + HANDSHAKE_SESSION_ID_POS) total;
  match r with None => Ok None | Some pos =>
    r ← SKIP8 buffer pos total;
    match r with None => Ok None | Some pos =>
      r ← SKIP16 buffer pos total;
      match r with None => Ok None | Some pos =>
        r ← SKIP8 buffer pos total;
        match r with None => Ok None | Some pos =>
          Ok (if total <? pos + 2 then None else Some (pos + 2))
        end
      end
    end
  end.

(** The place and the size of the ID in the buffer. *)
Definition get_session_id (dtls_psk : bool) (buffer : list Z) (buffer_size : Z)
    : cres (option (Z * Z)) :=
  if buffer_size <? RECORD_PAYLOAD_POS + HANDSHAKE_SESSION_ID_POS + GNUTLS_MAX_SESSION_ID + 2
  then Ok None else
  let fallback :=
    n ← aread buffer (RECORD_PAYLOAD_POS + HANDSHAKE_SESSION_ID_POS);
    Ok (Some (RECORD_PAYLOAD_POS + HANDSHAKE_SESSION_ID_POS + 1, n)) in
  if negb dtls_psk then fallback else
  r ← skip_hello buffer buffer_size;
  match r with
  | None => fallback
  | Some pos =>
    e ← extensions (Z.to_nat buffer_size) buffer pos buffer_size;
    match e with
    | Found id id_size => Ok (Some (id, id_size))
    | Invalid => Ok None
    | Fallback => fallback
    end
  end.

(** What arrives and what the system answers: the buffer after
    [oc_recvfrom_at] with its result, the address of the client, the time,
    whether a socket can be made and connected, whether it can be passed on,
    and whether the table can grow. *)
Record udp_ext := UdpExt {
  u_ret : Z; u_buffer : list Z; u_addr : list Z; u_addr_size : Z;
  u_now : Z; u_socket : bool; u_connect : bool; u_send : Z; u_ok : bool }.

(** The configuration used here. *)
Record udp_config := UdpConfig { dtls_psk : bool; unix_conn_file : bool }.

Section udp.
Context {T : Type} `{HT : HTable T, Env : SecModEnv}.
Implicit Types (s : procs_st T) (c : proc_st) (p : ptr) (x : udp_ext).

Definition bad_version (b1 b2 b13 b14 : Z) : bool :=
  negb (b1 =? 254) && (negb (b1 =? 1) && negb (b2 =? 0)) &&
  negb (b13 =? 254) && (negb (b13 =? 0) && negb (b14 =? 0)).

(** From line 821 on, when the owner [p] was found.  The result says whether
    the socket was passed to it. *)
Definition pass_udp x (match_ip_only : bool) s p c : cres (option ptr * procs_st T) :=
  if u_now x - udp_fd_receive_time c <=? UDP_FD_RESEND_TIME then Ok (None, s) else
  if negb (u_socket x) || negb (u_connect x) then Ok (None, s) else
  s ← (if match_ip_only then Ok s
       else '(_, s) ← proc_table_update_dtls_ip (u_ok x) s p c (u_addr x) (u_addr_size x); Ok s);
  if u_send x <? 0 then Ok (None, s) else
  match procs s !! p with
  | Some c => Ok (Some p, set_proc p {| c with udp_fd_receive_time := u_now x |} s)
  | None => UB
  end.

Definition give_to x (match_ip_only : bool) s (o : option ptr) : cres (option ptr * procs_st T) :=
  match o with
  | None => Ok (None, s)
  | Some p =>
    match procs s !! p with
    | Some c => pass_udp x match_ip_only s p c
    | None => UB
    end
  end.

Definition forward_udp_to_owner x (cfg : udp_config) s : cres (option ptr * procs_st T) :=
  if u_ret x <? 0 then Ok (None, s) else
  let buffer_size := u_ret x in
  if buffer_size <? RECORD_PAYLOAD_POS then Ok (None, s) else
  b0 ← aread (u_buffer x) 0; b1 ← aread (u_buffer x) 1; b2 ← aread (u_buffer x) 2;
  b13 ← aread (u_buffer x) RECORD_PAYLOAD_POS; b14 ← aread (u_buffer x) (RECORD_PAYLOAD_POS + 1);
  if bad_version b1 b2 b13 b14 then Ok (None, s) else
  if negb (b0 =? 22) then
    if unix_conn_file cfg then Ok (None, s) else
    give_to x true s (proc_search_single_ip s (u_addr x) (u_addr_size x))
  else
    r ← get_session_id (dtls_psk cfg) (u_buffer x) buffer_size;
    match r with
    | None => Ok (None, s)
    | Some (id, id_size) =>
      give_to x false s (proc_search_dtls_id s (drop (Z.to_nat id) (u_buffer x)) id_size)
    end.
End udp.

(** ** The ID of a packet *)

Lemma read16_spec buffer pos :
  bytes buffer → 0 ≤ pos → pos + 2 ≤ Z.of_nat (length buffer) →
  ∃ v, read16 buffer pos = Ok v ∧ 0 ≤ v < 65536.
Proof.
  intros Hb Hp Hl. unfold read16.
  destruct (aread_lt buffer pos) as (a & -> & Ha); [lia|]. run.
  destruct (aread_lt buffer (pos + 1)) as (b & -> & Hb'); [lia|]. run.
  pose proof (bytes_lookup _ _ _ Hb Ha). pose proof (bytes_lookup _ _ _ Hb Hb').
  eexists. split; [done|]. rewrite Z.shiftl_mul_pow2 by lia.
  pose proof (Z.add_lor_land (a * 2 ^ 8) b) as Hor.
  assert (Z.land (a * 2 ^ 8) b = 0) as Hz; [|lia].
  apply Z.bits_inj'. intros i Hi. rewrite Z.land_spec, Z.bits_0.
  destruct (Z.lt_ge_cases i 8).
  - by rewrite Z.mul_pow2_bits_low.
  - by rewrite (testbit_byte b i), andb_false_r.
Qed.

Section session_id.
Context (buffer : list Z) (Hb : bytes buffer) (total : Z)
  (Ht : total < Z.of_nat (length buffer)).

Lemma byte_at pos : 0 ≤ pos ≤ total → ∃ v, aread buffer pos = Ok v ∧ 0 ≤ v < 256.
Proof.
  intros Hp. destruct (aread_lt buffer pos) as (v & -> & Hv); [lia|].
  exists v. split; [done|]. by eapply bytes_lookup.
Qed.

Lemma SKIP8_spec pos : 0 ≤ pos →
  ∃ o, SKIP8 buffer pos total = Ok o ∧ ∀ q, o = Some q → pos < q ≤ total.
Proof.
  intros Hp. unfold SKIP8. destruct (Z.ltb_spec total (pos + 1)); [by eexists|].
  destruct (byte_at pos) as (v & -> & Hv); [lia|]. run. eexists. split; [done|].
  intros q. case_match eqn:E; [done|]. intros [= <-]. apply Z.ltb_ge in E. lia.
Qed.

Lemma SKIP16_spec pos : 0 ≤ pos →
  ∃ o, SKIP16 buffer pos total = Ok o ∧ ∀ q, o = Some q → pos < q ≤ total.
Proof.
  intros Hp. unfold SKIP16. destruct (Z.ltb_spec total (pos + 2)); [by eexists|].
  destruct (read16_spec buffer pos) as (v & -> & Hv); [done|lia..|]. run. eexists. split; [done|].
  intros q. case_match eqn:E; [done|]. intros [= <-]. apply Z.ltb_ge in E. lia.
Qed.

(** An ID that was found lies inside the packet. *)
Definition result_ok (r : ext_result) : Prop :=
  match r with Found id n => 0 ≤ n < 256 ∧ 0 ≤ id ∧ id + n ≤ total | _ => True end.

Lemma app_id_spec pos : 0 ≤ pos → ∃ r, app_id buffer pos total = Ok r ∧ result_ok r.
Proof.
  intros Hp. unfold app_id. destruct (Z.ltb_spec total (pos + 2)); [by eexists|].
  destruct (read16_spec buffer pos) as (v & -> & Hv); [done|lia..|]. run.
  destruct (Z.ltb_spec total (pos + 2 + v)); [by eexists|].
  destruct (byte_at (pos + 2)) as (n & -> & Hn); [lia|]. run.
  destruct (Z.ltb_spec total (pos + 2 + 1 + n)); [by eexists|].
  eexists. split; [done|]. simpl. lia.
Qed.

(** The loop ends: each turn moves on by four bytes at least. *)
Lemma extensions_spec fuel pos :
  0 ≤ pos ≤ total → total - pos < Z.of_nat fuel →
  ∃ r, extensions fuel buffer pos total = Ok r ∧ result_ok r.
Proof.
  revert pos. induction fuel as [|fuel IH]; intros pos Hp Hf.
  { lia. }
  cbn [extensions]. destruct (Z.leb_spec total pos); [by eexists|].
  destruct (Z.ltb_spec total (pos + 4)); [by eexists|].
  destruct (read16_spec buffer pos) as (v & -> & Hv); [done|lia..|]. run.
  destruct (v =? TLS_EXT_APP_ID); [apply app_id_spec; lia|].
  destruct (SKIP16_spec (pos + 2)) as (o & -> & Ho); [lia|]. run.
  destruct o as [q|]; [|by eexists]. specialize (Ho q eq_refl). apply IH; lia.
Qed.

Lemma skip_hello_spec :
  ∃ o, skip_hello buffer total = Ok o ∧ ∀ q, o = Some q → 0 < q ≤ total.
Proof.
  unfold skip_hello, RECORD_PAYLOAD_POS, HANDSHAKE_SESSION_ID_POS.
  destruct (SKIP8_spec (13 + 46)) as (o & -> & Ho); [lia|]. run.
  destruct o as [q|]; [specialize (Ho q eq_refl)|by eexists].
  destruct (SKIP8_spec q) as (o & -> & Ho'); [lia|]. run.
  destruct o as [q'|]; [specialize (Ho' q' eq_refl)|by eexists].
  destruct (SKIP16_spec q') as (o & -> & Ho2); [lia|]. run.
  destruct o as [q2|]; [specialize (Ho2 q2 eq_refl)|by eexists].
  destruct (SKIP8_spec q2) as (o & -> & Ho3); [lia|]. run.
  destruct o as [q3|]; [specialize (Ho3 q3 eq_refl)|by eexists].
  eexists. split; [done|]. intros q4. case_match eqn:E; [done|]. intros [= <-].
  apply Z.ltb_ge in E. lia.
Qed.
End session_id.

Lemma get_session_id_spec psk buffer n :
  bytes buffer → Z.of_nat (length buffer) = MAX_MSG_SIZE → 0 ≤ n < MAX_MSG_SIZE →
  ∃ r, get_session_id psk buffer n = Ok r ∧
    ∀ id id_size, r = Some (id, id_size) →
      0 ≤ id_size < 256 ∧ 0 ≤ id ∧ id + id_size ≤ Z.of_nat (length buffer).
Proof.
  intros Hb Hl Hn. unfold get_session_id, MAX_MSG_SIZE in *.
  unfold RECORD_PAYLOAD_POS, HANDSHAKE_SESSION_ID_POS, GNUTLS_MAX_SESSION_ID.
  destruct (Z.ltb_spec n (13 + 46 + 32 + 2)); [by eexists|].
  destruct (byte_at buffer Hb n ltac:(lia) (13 + 46)) as (v & -> & Hv); [lia|]. run.
  assert (∃ r : option (Z * Z), Ok (Some (13 + 46 + 1, v)) = Ok r ∧
    ∀ id id_size, r = Some (id, id_size) →
      0 ≤ id_size < 256 ∧ 0 ≤ id ∧ id + id_size ≤ Z.of_nat (length buffer)) as Hfall.
  { eexists. split; [done|]. intros id id_size [= <- <-]. lia. }
  destruct psk; [|done]. cbn [negb].
  destruct (skip_hello_spec buffer Hb n ltac:(lia)) as (o & -> & Ho). run.
  destruct o as [pos|]; [|done]. specialize (Ho pos eq_refl).
  destruct (extensions_spec buffer Hb n ltac:(lia) (Z.to_nat n) pos) as (r & -> & Hr); [lia..|]. run.
  destruct r as [id k| |]; [|by eexists|done]. eexists. split; [done|].
  intros id' k' [= <- <-]. simpl in Hr. lia.
Qed.

(** ** The owner of a packet *)

(** Only the addresses and the time of the last packet differ. *)
Definition same_but_addrs (c c' : proc_st) : Prop :=
  ∃ a n da dn t,
    c' = (let d := set_addrs c a n da dn in {| d with udp_fd_receive_time := t |}).

Section udp_spec.
Context {T : Type} `{HT : HTable T, HS : !HTableSpec T, Env : SecModEnv}.
Implicit Types (s : procs_st T) (c : proc_st) (p : ptr) (x : udp_ext) (R : gset ptr).

(** What the kernel delivers: a packet shorter than the buffer, from an
    address that fits. *)
Record udp_ext_ok x : Prop := {
  ux_bytes : bytes (u_buffer x);
  ux_buffer : Z.of_nat (length (u_buffer x)) = MAX_MSG_SIZE;
  ux_ret : u_ret x < MAX_MSG_SIZE;
  ux_addr : Z.of_nat (length (u_addr x)) = SOCKADDR_STORAGE_SIZE;
  ux_size : 0 < u_addr_size x ≤ SOCKADDR_STORAGE_SIZE;
}.

(** At most the process [p] changed. *)
Definition touches s s' R (o : option ptr) : Prop :=
  procs s' = procs s ∨
  ∃ p c c', procs s !! p = Some c ∧ p ∈ R ∧ same_but_addrs c c' ∧
    procs s' = <[p:=c']> (procs s) ∧ (o = None ∨ o = Some p).

(** The process was not given a socket just before. *)
Definition not_too_soon x s (o : option ptr) : Prop :=
  ∀ p, o = Some p → ∃ c, procs s !! p = Some c ∧
    UDP_FD_RESEND_TIME < u_now x - udp_fd_receive_time c.

Lemma pass_udp_spec x (ip_only : bool) s R p c :
  proc_inv s R → udp_ext_ok x → procs s !! p = Some c → p ∈ R →
  ∃ o s', pass_udp x ip_only s p c = Ok (o, s') ∧ proc_inv s' R ∧ touches s s' R o ∧
    not_too_soon x s o ∧ (o = None ∨ o = Some p).
Proof.
  intros Hinv Hx Hc HpR. unfold pass_udp, not_too_soon.
  destruct (Z.leb_spec (u_now x - udp_fd_receive_time c) UDP_FD_RESEND_TIME) as [|Hsoon].
  { exists None, s. split_and!; [done..|by left|done|by left]. }
  case_match. { exists None, s. split_and!; [done..|by left|done|by left]. }
  assert (∃ s1 a n da dn, (if ip_only then Ok s else
      '(_, s) ← proc_table_update_dtls_ip (u_ok x) s p c (u_addr x) (u_addr_size x); Ok s) = Ok s1 ∧
    proc_inv s1 R ∧ procs s1 = <[p:=set_addrs c a n da dn]> (procs s)) as
    (s1 & a & n & da & dn & -> & Hinv1 & Hs1).
  { destruct ip_only.
    - exists s, (remote_addr c), (remote_addr_len c), (dtls_remote_addr c), (dtls_remote_addr_len c).
      split_and!; [done..|]. rewrite insert_id; [done|]. rewrite Hc. by destruct c.
    - destruct (proc_table_update_dtls_ip_spec (u_ok x) s R p c (u_addr x) (u_addr_size x))
        as (ret & s1 & da & dn & -> & Hinv1 & Hs1 & _); [done..|apply Hx| |].
      { pose proof (ux_size _ Hx). lia. }
      run. by eexists s1, _, _, _, _. }
  run. destruct (u_send x <? 0).
  { exists None, s1. split_and!; [done..| |done|by left]. right.
    exists p, c, (set_addrs c a n da dn). split_and!; [done..| |done|by left].
    exists a, n, da, dn, (udp_fd_receive_time c). by destruct c. }
  rewrite Hs1, lookup_insert_eq. eexists (Some p), _. split_and!; [done| | |naive_solver|by right].
  - apply (proc_inv_set s1 R p (set_addrs c a n da dn)); [done|by rewrite Hs1, lookup_insert_eq| |by right].
    destruct (pi_procs _ _ Hinv1 p (set_addrs c a n da dn)) as [_ [? ? ? ? ? ?]];
      [by rewrite Hs1, lookup_insert_eq|by split].
  - right. exists p, c, (let d := set_addrs c a n da dn in {| d with udp_fd_receive_time := u_now x |}).
    split_and!; [done..| | |by right].
    + by exists a, n, da, dn, (u_now x).
    + unfold set_proc. simpl. by rewrite Hs1, insert_insert_eq.
Qed.

(** Why a packet is given to a process: its client hello carries the
    process's ID, or it comes from one of the process's addresses. *)
Definition owner x (c : proc_st) : Prop :=
  (u_buffer x !! 0%nat = Some 22 ∧
   ∃ id n, (n < 256)%nat ∧ (id + n ≤ length (u_buffer x))%nat ∧
     the_id c = take n (drop id (u_buffer x))) ∨
  (u_buffer x !! 0%nat ≠ Some 22 ∧ has_ip c (u_addr x) (u_addr_size x)).

Lemma give_to_spec x ip_only s R o :
  proc_inv s R → udp_ext_ok x →
  (∀ p, o = Some p → ∃ c, procs s !! p = Some c ∧ p ∈ R ∧ owner x c) →
  ∃ o' s', give_to x ip_only s o = Ok (o', s') ∧ proc_inv s' R ∧ touches s s' R o' ∧
    not_too_soon x s o' ∧ (∀ p, o' = Some p → ∃ c, procs s !! p = Some c ∧ p ∈ R ∧ owner x c).
Proof.
  intros Hinv Hx Ho. destruct o as [p|]; simpl.
  - destruct (Ho p eq_refl) as (c & Hc & HpR & Hown). rewrite Hc.
    destruct (pass_udp_spec x ip_only s R p c) as (o' & s' & -> & Hinv' & Ht & Hn & Ho'); [done..|].
    exists o', s'. split_and!; [done..|]. intros q ->. destruct Ho' as [|[= ->]]; [done|]. eauto.
  - exists None, s. split_and!; [done..|by left|done|done].
Qed.

Lemma forward_udp_spec x cfg s R :
  proc_inv s R → udp_ext_ok x →
  ∃ o s', forward_udp_to_owner x cfg s = Ok (o, s') ∧ proc_inv s' R ∧ touches s s' R o ∧
    not_too_soon x s o ∧ (∀ p, o = Some p → ∃ c, procs s !! p = Some c ∧ p ∈ R ∧ owner x c).
Proof.
  intros Hinv Hx. unfold forward_udp_to_owner.
  assert (∃ o' s', Ok (None, s) = Ok (o', s') ∧ proc_inv s' R ∧ touches s s' R o' ∧
    not_too_soon x s o' ∧ (∀ p, o' = Some p → ∃ c, procs s !! p = Some c ∧ p ∈ R ∧ owner x c)) as Hno.
  { exists None, s. split_and!; [done..|by left|done|done]. }
  destruct (Z.ltb_spec (u_ret x) 0); [done|].
  destruct (Z.ltb_spec (u_ret x) RECORD_PAYLOAD_POS); [done|].
  pose proof (ux_buffer _ Hx) as Hl. unfold MAX_MSG_SIZE in Hl. unfold RECORD_PAYLOAD_POS.
  destruct (aread_lt (u_buffer x) 0) as (b0 & -> & Hb0); [lia|]. run.
  destruct (aread_lt (u_buffer x) 1) as (b1 & -> & _); [lia|]. run.
  destruct (aread_lt (u_buffer x) 2) as (b2 & -> & _); [lia|]. run.
  destruct (aread_lt (u_buffer x) 13) as (b13 & -> & _); [lia|]. run.
  destruct (aread_lt (u_buffer x) (13 + 1)) as (b14 & -> & _); [lia|]. run.
  destruct (bad_version _ _ _ _); [done|].
  destruct (Z.eqb_spec b0 22) as [->|Hb]; cbn [negb].
  - destruct (get_session_id_spec (dtls_psk cfg) (u_buffer x) (u_ret x)) as (r & -> & Hr);
      [apply Hx|apply Hx|split; [lia|apply Hx]|]. run.
    destruct r as [[id n]|]; [|done]. destruct (Hr id n eq_refl) as (Hn & Hid & Hin).
    apply give_to_spec; [done..|]. intros p Hp.
    pose proof (search_dtls_id_spec s R (drop (Z.to_nat id) (u_buffer x)) n Hinv) as Hs.
    rewrite Hp in Hs. destruct Hs as (c & Hc & HpR & Hids); [rewrite length_drop; lia|].
    exists c. split_and!; [done..|]. left. split; [done|].
    exists (Z.to_nat id), (Z.to_nat n). split_and!; [lia|lia|done].
  - destruct (unix_conn_file cfg); [done|]. apply give_to_spec; [done..|]. intros p Hp.
    destruct (search_single_ip_sound s R (u_addr x) (u_addr_size x) p) as (c & Hc & HpR & Hip);
      [done|apply Hx|pose proof (ux_size _ Hx); lia|done|].
    exists c. split_and!; [done..|]. right. split; [|done].
    change (Z.to_nat 0) with 0%nat in Hb0. rewrite Hb0. congruence.
Qed.
End udp_spec.
