(* ===== verification/MainProc.v ===== *)
(** * The main process (src/main-auth.c, src/main-proc.c, src/main-worker-cmd.c)

    The main process accepts connections, forks a worker for each and serves
    the requests of the workers: a client that presents the cookie of an open
    session is given its addresses and its tunnel device, and takes over what
    an earlier connection of the same session held.  This file is the model of
    the handlers; MainProcSpec.v has the invariant of the process and what it
    guarantees. *)

From S2P Require Import Prelude CString Htable Store SecModData IpUtil NetText Ban IpLease.
From S2P Require Import ProcTable MainUdp.

Definition ERR_WAIT_FOR_SCRIPT : Z := -5.
Definition ERR_WORKER_TERMINATED : Z := -11.

Definition REASON_IDLE_TIMEOUT : Z := 4.
Definition REASON_ERROR : Z := 6.

(** ** Statistics *)

Record main_stats_st := MainStats {
  session_timeouts : Z; session_idle_timeouts : Z; session_errors : Z; sessions_closed : Z;
  kbytes_in : Z; kbytes_out : Z; min_mtu : Z; max_mtu : Z; active_clients : Z;
  last_reset : Z; max_auth_time : Z; avg_session_mins : Z; max_session_mins : Z;
  auth_failures : Z; total_auth_failures : Z; total_sessions_closed : Z }.

Definition update_auth_failures (s : main_stats_st) (n : Z) : main_stats_st :=
  if u64 (auth_failures s + n) <? auth_failures s then {| s with auth_failures := 0 |} else
  {| s with auth_failures := u64 (auth_failures s + n);
            total_auth_failures := u64 (total_auth_failures s + n) |}.

Definition reset_stats (s : main_stats_st) (now : Z) : main_stats_st :=
  {| s with session_idle_timeouts := 0; session_timeouts := 0; session_errors := 0;
            sessions_closed := 0; auth_failures := 0; last_reset := now; kbytes_in := 0;
            kbytes_out := 0; max_session_mins := 0; max_auth_time := 0 |}.

(** The reason is counted, lines 584 to 589. *)
Definition count_reason (s : main_stats_st) (reason : Z) : main_stats_st :=
  if reason =? REASON_IDLE_TIMEOUT then
    {| s with session_idle_timeouts := u64 (session_idle_timeouts s + 1) |}
  else if reason =? REASON_SESSION_TIMEOUT then
    {| s with session_timeouts := u64 (session_timeouts s + 1) |}
  else if reason =? REASON_ERROR then {| s with session_errors := u64 (session_errors s + 1) |}
  else s.

(** The statistics block ends, lines 578 to 582. *)
Definition maybe_reset (now : Z) (v : main_vhost_st) (s : main_stats_st) : main_stats_st :=
  if negb (stats_reset_time v =? 0) && (stats_reset_time v <? now - last_reset s)
  then reset_stats s now else s.

Definition count_closed (s : main_stats_st) : main_stats_st :=
  {| s with sessions_closed := u64 (sessions_closed s + 1);
            total_sessions_closed := u64 (total_sessions_closed s + 1) |}.

Definition count_mtu (m : Z) (s : main_stats_st) : main_stats_st :=
  let s := if (min_mtu s =? 0) || (m <? min_mtu s) then {| s with min_mtu := m |} else s in
  if (max_mtu s =? 0) || (min_mtu s <? m) then {| s with max_mtu := m |} else s.

(** [stime] in minutes is [time_t]; the average is computed with 64 bits and
    stored in 32. *)
Definition count_minutes (stime : Z) (s : main_stats_st) : main_stats_st :=
  if 0 <? stime then
    {| s with
       avg_session_mins :=
         u32 (u64 (u64 ((sessions_closed s - 1) * avg_session_mins s) + stime) / sessions_closed s);
       max_session_mins := if max_session_mins s <? stime then u32 stime else max_session_mins s |}
  else s.

Definition update_main_stats (now : Z) (v : main_vhost_st) (c : proc_st) (s : main_stats_st)
    : main_stats_st :=
  let s := count_closed (count_reason (maybe_reset now v s) (discon_reason c)) in
  if sessions_closed s =? 0 then reset_stats s now else
  let kb_in := bytes_in c / 1000 in
  let kb_out := bytes_out c / 1000 in
  if u64 (kbytes_in s + kb_in) <? kbytes_in s then reset_stats s now else
  if u64 (kbytes_out s + kb_out) <? kbytes_out s then reset_stats s now else
  let s := {| s with kbytes_in := u64 (kbytes_in s + kb_in);
                     kbytes_out := u64 (kbytes_out s + kb_out) |} in
  count_minutes (Z.quot (now - conn_time c) 60) (count_mtu (mtu c) s).

(** ** Messages *)

(** The group configuration in the reply of the security module. *)
Record group_cfg_msg := GroupCfgMsg {
  g_max_same_clients : option Z; g_deny_roaming : option bool;
  g_ipv4_net : option string; g_ipv4_netmask : option string; g_explicit_ipv4 : option string;
  g_ipv6_net : option string; g_ipv6_prefix : option Z; g_ipv6_subnet_prefix : option Z;
  g_explicit_ipv6 : option string }.

Definition or_default {A} (o d : option A) : option A := match o with Some _ => o | None => d end.

(** [apply_default_config] for these fields. *)
Definition apply_default_config (v : main_vhost_st) (seed : list Z) (g : group_cfg_msg)
    : group_cfg_st :=
  {| max_same_clients := default (def_max_same_clients v) (g_max_same_clients g);
     deny_roaming := default (def_deny_roaming v) (g_deny_roaming g);
     lease_cfg := {|
       ipv4_net := or_default (g_ipv4_net g) (def_ipv4_net v);
       ipv4_netmask := or_default (g_ipv4_netmask g) (def_ipv4_netmask v);
       explicit_ipv4 := g_explicit_ipv4 g;
       ipv6_net := or_default (g_ipv6_net g) (def_ipv6_net v);
       ipv6_prefix := default (def_ipv6_prefix v) (g_ipv6_prefix g);
       ipv6_subnet_prefix := default (def_ipv6_subnet_prefix v) (g_ipv6_subnet_prefix g);
       explicit_ipv6 := g_explicit_ipv6 g;
       ipv4_seed := seed |} |}.

Record SecmSessionReplyMsg := SessionReply {
  sr_reply : auth_rep; sr_username : option string; sr_groupname : option string;
  sr_config : option group_cfg_msg; sr_ipv4_seed : list Z; sr_ip : option string;
  sr_vhost : option string }.

Record CliStatsReply := CliStatsRep { cs_bytes_in : Z; cs_bytes_out : Z; cs_discon_reason : option Z }.

(** What a worker asks for; [WNothing] is a message that cannot be received,
    with the code, or unpacked. *)
Inductive worker_cmd :=
| WNothing (ret : Z)
| WBanIp (ip : string) (score : Z)
| WTunMtu (mtu : Z)
| WSessionInfo (remote_addr : option (list Z))
| WAuthCookie (cookie : option (list Z))
| WUnknown.

(** The result of [call_script]. *)
Inductive script_run := NoScript | ForkFailed | Started (pid : Z).

(** What the main process does to the outside. *)
Inductive main_event :=
| EvKill (pid : Z)
| EvSessionOpen (sid : list Z)
| EvSessionClose (sid : list Z)
| EvCookieReply (p : ptr) (rep : auth_rep)
| EvBanReply (p : ptr) (rep : auth_rep)
| EvConnected (p : ptr)
| EvDisconnected (p : ptr)
| EvUdp (p : ptr).

(** The answers of the outside during one step. *)
Record main_ext := MainExt {
  x_now : Z;
  x_rnd : option (list Z);                    (* gnutls_rnd for a DTLS session ID *)
  x_reply : option SecmSessionReplyMsg;       (* the security module, session open *)
  x_close : option CliStatsReply;             (* the security module, session close *)
  x_find_vhost : option string → main_vhost_st;
  x_ok : nat → bool;                          (* whether a hash table can grow *)
  x_lease : lease_ext;
  x_tun : Z * string;                         (* os_open_tun: the fd and the name *)
  x_network : Z;                              (* set_network_info *)
  x_script : script_run;
  x_script_mem : bool;                        (* memory for the script list *)
  x_script_exit : Z;                          (* status of a script waited for *)
  x_send : Z;                                 (* the reply to the worker *)
  x_iroutes : Z;
  x_set_mtu : Z;                              (* ioctl SIOCSIFMTU *)
  x_ntop6 : list Z → string;
  x_pton6 : string → option (list Z);
  x_ban_mem : option ptr; x_ban_ok : bool;
}.

(** The configuration of the main process. *)
Record main_config := MainConfig {
  max_clients : Z; listen_proxy_proto : bool; ban_cfg : ban_config; udp_cfg : udp_config }.

Section main.
Context {T : Type} `{HT : HTable T, Env : SecModEnv}.

(** [struct main_server_st].  [proc_list] and [script_list] are the lists of
    these names, [elog] is what was done to the outside, the latest first. *)
Record main_server_st := Main {
  ps : procs_st T;
  proc_list : list ptr;
  script_list : list (ptr * Z);
  ip_leases : store T ip_lease_st;
  ban_db : store T ban_entry_st;
  stats : main_stats_st;
  elog : list main_event;
}.
Implicit Types (s : main_server_st) (c : proc_st) (p : ptr) (x : main_ext) (cfg : main_config).

Definition emit (e : main_event) s : main_server_st := {| s with elog := e :: elog s |}.
Definition proc_at s p : option proc_st := procs (ps s) !! p.
Definition set_at s p c : main_server_st := {| s with ps := set_proc p c (ps s) |}.

(** What [check_if_banned] can see of a [struct sockaddr_storage] with an
    address of [n] bytes. *)
Definition sockaddr_of (a : list Z) (n : Z) : list Z := if n =? 16 then take 16 a else a.

(** ** Sessions *)

Definition session_open x s p c (cookie : list Z) : cres (Z * main_server_st) :=
  if negb (Z.of_nat (length cookie) =? SID_SIZE) then Ok (-1, s) else
  let s := emit (EvSessionOpen cookie) s in
  match x_reply x with
  | None => Ok (-1, s)
  | Some msg =>
    if negb (bool_decide (sr_reply msg = AUTH_REP_OK)) then
      Ok (-1, {| s with stats := update_auth_failures (stats s) 1 |}) else
    match sr_username msg with
    | None => Ok (-1, s)
    | Some user =>
      let c := {| c with username := strlcpy MAX_USERNAME_SIZE user;
                         groupname := strlcpy_opt MAX_GROUPNAME_SIZE (sr_groupname msg) (groupname c) |} in
      match sr_config msg with
      | None => Ok (-1, set_at s p c)
      | Some g =>
        let v := x_find_vhost x (sr_vhost msg) in
        let gc := apply_default_config v (sr_ipv4_seed msg) g in
        let c := {| c with config := Some gc; vhost := Some v |} in
        let s := set_at s p c in
        if negb (deny_roaming gc) then Ok (0, s) else
        match sr_ip msg with
        | None => Ok (-1, s)
        | Some ip =>
          str ← human_addr2 (x_ntop6 x) (remote_addr c) (remote_addr_len c) (Z.of_nat MAX_IP_STR) false;
          match str with
          | None => Ok (-1, s)
          | Some str => Ok (if bool_decide (str = ip) then 0 else -1, s)
          end
        end
      end
    end
  end.

(** [None] where the process exits. *)
Definition session_close x s p c : cres (proc_st * main_server_st) :=
  let s := emit (EvSessionClose (sid c)) s in
  match x_close x with
  | None => Err 1
  | Some msg =>
    let c := {| c with bytes_in := cs_bytes_in msg; bytes_out := cs_bytes_out msg;
                       discon_reason := default (discon_reason c) (cs_discon_reason msg) |} in
    match vhost c with
    | None => UB
    | Some v => Ok (c, {| s with stats := update_main_stats (x_now x) v c (stats s) |})
    end
  end.

(** The earlier connection of the session, lines 196 to 211. *)
Definition take_over s p q : cres (Z * main_server_st) :=
  match proc_at s p, proc_at s q with
  | Some c, Some old =>
    if negb (bool_decide (username c = username old)) then Ok (-1, s) else
    let '(l, l') := steal_ip_leases (leases old) (leases c) in
    let s := set_at (set_at s q {| old with leases := l |}) p {| c with leases := l' |} in
    if 0 <? pid old then
      match proc_at s q with
      | Some old => Ok (0, emit (EvKill (pid old)) (set_at s q {| old with pid_killed := true |}))
      | None => UB
      end
    else Ok (0, s)
  | _, _ => UB
  end.

Definition handle_auth_cookie_req x s p c (cookie : option (list Z)) : cres (Z * main_server_st) :=
  match cookie with
  | None => Ok (-1, s)
  | Some cookie =>
    if negb (Z.of_nat (length cookie) =? SID_SIZE) then Ok (-1, s) else
    match x_rnd x with
    | None => Ok (-1, s)
    | Some id =>
      let c := {| c with dtls_session_id := id; dtls_session_id_size := GNUTLS_MAX_SESSION_ID |} in
      let s := set_at s p c in
      '(ret, s) ← session_open x s p c cookie;
      if ret <? 0 then Ok (-1, s) else
      '(ret, s) ← (match proc_search_sid (ps s) cookie with
                   | Some q => take_over s p q
                   | None => Ok (0, s)
                   end);
      if ret <? 0 then Ok (-1, s) else
      match proc_at s p with
      | None => UB
      | Some c =>
        let c := {| c with sid := cookie; active_sid := true |} in
        let s := set_at s p c in
        let '(ret, t) := proc_table_add (x_ok x) (ps s) p c in
        let s := {| s with ps := t |} in
        if ret <? 0 then Ok (-1, s) else Ok (0, s)
      end
    end
  end.

(** The loop over the list of processes; [entries] counts those of the user. *)
Fixpoint count_same s p (user : string) (max entries : Z) (l : list ptr) : cres Z :=
  match l with
  | [] => Ok 0
  | q :: l =>
    match proc_at s q with
    | None => UB
    | Some c =>
      if negb (bool_decide (q = p)) && negb (pid c =? -1) && negb (pid_killed c) &&
         bool_decide (user = username c)
      then let entries := entries + 1 in
           if max <? entries then Ok (-1) else count_same s p user max entries l
      else count_same s p user max entries l
    end
  end.

Definition check_multiple_users s p c : cres Z :=
  match config c with
  | None => UB
  | Some gc =>
    if max_same_clients gc =? 0 then Ok 0
    else count_same s p (username c) (max_same_clients gc) 1 (proc_list s)
  end.

(** ** The tunnel and the scripts *)

Definition open_tun x s p c : cres (Z * main_server_st) :=
  match config c with
  | None => UB
  | Some gc =>
    let '(ret, db, l) := get_ip_leases (x_lease x) (lease_cfg gc) (ip_leases s) (leases c) in
    let c := {| c with leases := l |} in
    let s := {| s with ip_leases := db |} in
    if ret <? 0 then Ok (ret, set_at s p c) else
    let '(fd, name) := x_tun x in
    let c := {| c with tun_name := name |} in
    if (fd <? 0) || bool_decide (name = ""%string) || (x_network x <? 0) then Ok (-1, set_at s p c)
    else Ok (0, set_at s p {| c with tun_fd := fd |})
  end.

Definition user_connected x s p : Z * main_server_st :=
  let s := emit (EvConnected p) s in
  match x_script x with
  | NoScript => (0, s)
  | ForkFailed => (-1, s)
  | Started pid =>
    (ERR_WAIT_FOR_SCRIPT,
     if x_script_mem x then {| s with script_list := (p, pid) :: script_list s |} else s)
  end.

Definition accept_user x s p c : cres (Z * main_server_st) :=
  ret ← check_multiple_users s p c;
  if ret <? 0 then Ok (ret, s) else
  '(ret, s) ← open_tun x s p c;
  if ret <? 0 then Ok (-1, s) else Ok (user_connected x s p).

Definition send_cookie_auth_reply x s p c (r : auth_rep) : Z * main_server_st :=
  let rep := if bool_decide (r = AUTH_REP_OK) && negb (bool_decide (tun_name c = ""%string))
             then AUTH_REP_OK else AUTH_REP_FAILED in
  (if x_send x <? 0 then x_send x else 0, emit (EvCookieReply p rep) s).

Definition handle_script_exit x s p c (code : Z) : Z * main_server_st :=
  let fail ret s c := (ret, set_at s p {| c with tun_fd := -1 |}) in
  if code =? 0 then
    let '(ret, s) := send_cookie_auth_reply x s p c AUTH_REP_OK in
    if ret <? 0 then fail ERR_BAD_COMMAND s c else
    if x_iroutes x <? 0 then fail ERR_BAD_COMMAND s c else
    fail 0 s {| c with status := PS_AUTH_COMPLETED |}
  else
    let '(ret, s) := send_cookie_auth_reply x s p c AUTH_REP_FAILED in
    if ret <? 0 then fail ERR_BAD_COMMAND s c else fail 0 s c.

Definition set_proc_status s p (st : ps_auth) : main_server_st :=
  match proc_at s p with Some c => set_at s p {| c with status := st |} | None => s end.

Definition handle_cookie_auth_res x s p (result : Z) : cres (Z * main_server_st) :=
  '(ret, s) ←
    (if result =? 0 then
       match proc_at s p with
       | None => UB
       | Some c =>
         '(ret, s) ← accept_user x s p c;
         Ok (ret, set_proc_status s p (if ret <? 0 then PS_AUTH_FAILED else PS_AUTH_COMPLETED))
       end
     else if result <? 0 then Ok (result, set_proc_status s p PS_AUTH_FAILED)
     else Ok (ERR_BAD_COMMAND, set_proc_status s p PS_AUTH_FAILED));
  if ret =? ERR_WAIT_FOR_SCRIPT then Ok (0, s) else
  match proc_at s p with
  | None => UB
  | Some c =>
    let '(ret, s) := handle_script_exit x s p c ret in
    Ok (ret, if ret <? 0 then set_proc_status s p PS_AUTH_FAILED else s)
  end.

(** ** Commands of a worker *)

Definition set_tun_mtu x s p c (m : Z) : main_server_st :=
  if bool_decide (tun_name c = ""%string) then s else
  if x_set_mtu x =? 0 then set_at s p {| c with mtu := m |} else s.

(** The part of [CMD_SESSION_INFO] that concerns the client's address. *)
Definition handle_session_info x cfg s p c (addr : option (list Z)) : cres main_server_st :=
  if negb (listen_proxy_proto cfg) then Ok s else
  match addr with
  | None => Ok s
  | Some addr =>
    let n := Z.of_nat (length addr) in
    if SOCKADDR_STORAGE_SIZE <? n then Ok s else
    '(_, t) ← proc_table_update_ip (x_ntop6 x) (x_ok x 0%nat) (ps s) p c addr n;
    let s := {| s with ps := t |} in
    match proc_at s p with
    | None => UB
    | Some c =>
      '(banned, db) ← check_if_banned (x_ban_mem x) (x_ban_ok x) (ban_cfg cfg) (x_now x) (x_now x)
                        (ban_db s) (sockaddr_of (remote_addr c) (remote_addr_len c));
      let s := {| s with ban_db := db |} in
      Ok (if negb (banned =? 0) && negb (pid c =? -1) && negb (pid c =? 0)
          then emit (EvKill (pid c)) (set_at s p {| c with pid_killed := true |}) else s)
    end
  end.

Definition handle_worker_commands x cfg s p (cmd : worker_cmd) : cres (Z * main_server_st) :=
  match proc_at s p with
  | None => UB
  | Some c =>
    match cmd with
    | WNothing ret => Ok (if ret <? 0 then ret else ERR_BAD_COMMAND, s)
    | WBanIp ip score =>
      let '(ret, db) := add_str_ip_to_ban_list (x_pton6 x) (x_ban_mem x) (x_ban_ok x) (ban_cfg cfg)
                          (x_now x) (ban_db s) ip score in
      let s := {| s with ban_db := db |} in
      let s := emit (EvBanReply p (if ret <? 0 then AUTH_REP_FAILED else AUTH_REP_OK)) s in
      Ok (if x_send x <? 0 then ERR_BAD_COMMAND else 0, s)
    | WTunMtu m =>
      if bool_decide (status c = PS_AUTH_COMPLETED) then Ok (0, set_tun_mtu x s p c m)
      else Ok (ERR_BAD_COMMAND, s)
    | WSessionInfo addr => s ← handle_session_info x cfg s p c addr; Ok (0, s)
    | WAuthCookie cookie =>
      if bool_decide (status c = PS_AUTH_INACTIVE) then
        '(ret, s) ← handle_auth_cookie_req x s p c cookie;
        '(ret, s) ← handle_cookie_auth_res x s p ret;
        Ok (if ret <? 0 then ret else 0, s)
      else Ok (ERR_BAD_COMMAND, s)
    | WUnknown => Ok (ERR_BAD_COMMAND, s)
    end
  end.

(** ** Processes come and go *)

Definition zero_proc : proc_st := {|
  pid := 0; pid_killed := false; udp_fd_receive_time := 0; conn_time := 0;
  leases := ProcLeases None None;
  remote_addr := replicate 128 0; remote_addr_len := 0;
  dtls_remote_addr := replicate 128 0; dtls_remote_addr_len := 0;
  sid := replicate 32 0; active_sid := false;
  dtls_session_id := replicate 32 0; dtls_session_id_size := 0;
  username := ""; groupname := ""; status := PS_AUTH_INACTIVE;
  tun_name := ""; tun_fd := -1; mtu := 0; bytes_in := 0; bytes_out := 0; discon_reason := 0;
  config := None; vhost := None |}.

(** [mem] is the memory of the new process; [addr] is a [struct
    sockaddr_storage]. *)
Definition new_proc x s (mem : option ptr) (pid : Z) (addr : list Z) (n : Z)
    : cres (option ptr * main_server_st) :=
  match mem with
  | None => Ok (None, s)
  | Some p =>
    let c := zero_proc in
    a ← memcpy_storage (remote_addr c) addr n;
    let c := {| c with pid := pid; conn_time := x_now x; remote_addr := a; remote_addr_len := n |} in
    let s := set_at s p c in
    let st := stats s in
    Ok (Some p, {| s with proc_list := p :: proc_list s;
                          stats := {| st with active_clients := u32 (active_clients st + 1) |} |})
  end.

(** The first entry of [p] in the list of scripts, with the list without it. *)
Fixpoint remove_from_script_list p (l : list (ptr * Z)) : option Z * list (ptr * Z) :=
  match l with
  | [] => (None, [])
  | (q, pid) :: l =>
    if bool_decide (q = p) then (if 0 <? pid then Some pid else None, l)
    else let '(o, l) := remove_from_script_list p l in (o, (q, pid) :: l)
  end.

(** The connect script, if it still runs, is ended and waited for, and the
    user is disconnected, lines 123 to 139. *)
Definition end_scripts x s p c : main_server_st :=
  match remove_from_script_list p (script_list s) with
  | (Some pid, l) =>
    let s := emit (EvKill pid) {| s with script_list := l |} in
    if x_script_exit x =? 0 then emit (EvDisconnected p) s else s
  | (None, l) =>
    let s := {| s with script_list := l |} in
    if bool_decide (status c = PS_AUTH_COMPLETED) then emit (EvDisconnected p) s else s
  end.

Definition remove_proc x s p (kill quit : bool) : cres main_server_st :=
  match proc_at s p with
  | None => UB
  | Some c =>
    let st := stats s in
    let s := {| s with proc_list := filter (λ q, q ≠ p) (proc_list s);
                       stats := {| st with active_clients := u32 (active_clients st - 1) |} |} in
    let s := if kill && negb (pid c =? -1) && negb (pid c =? 0) then emit (EvKill (pid c)) s else s in
    '(c, s) ← (if active_sid c && negb quit then session_close x s p c else Ok (c, s));
    let s := end_scripts x s p c in
    let '(db, _) := remove_ip_leases (ip_leases s) (leases c) in
    Ok {| s with ip_leases := db;
                 ps := Procs (delete p (procs (ps s))) (proc_table (proc_table_del (ps s) p c)) |}
  end.

(** [cmd_watcher_cb]. *)
Definition cmd_watcher_cb x cfg s p (cmd : worker_cmd) : cres main_server_st :=
  '(ret, s) ← handle_worker_commands x cfg s p cmd;
  if ret <? 0 then remove_proc x s p (negb (ret =? ERR_WORKER_TERMINATED)) false else Ok s.

(** [script_child_watcher_cb] for the script of the first list entry of [p]. *)
Definition script_child_watcher_cb x s p (estatus : Z) : cres main_server_st :=
  match proc_at s p with
  | None => UB
  | Some c =>
    let s := {| s with script_list := (remove_from_script_list p (script_list s)).2 |} in
    let '(ret, s) := handle_script_exit x s p c estatus in
    if ret <? 0 then remove_proc x s p true false else Ok s
  end.

(** What decides over a new connection: the memory for its process, the
    worker's pid (-1 if it cannot be forked), its address in a [struct
    sockaddr_storage], whether [conn_type] of the main process's [worker_st]
    is a UNIX socket, and whether TCP wrappers and [socketpair] let it pass. *)
Record connection := Connection {
  cn_mem : option ptr; cn_pid : Z; cn_addr : list Z; cn_len : Z;
  cn_unix : bool; cn_wrapper : bool; cn_pair : bool }.

(** The TCP part of [listen_watcher_cb]. *)
Definition accept_client x cfg s (cn : connection) : cres main_server_st :=
  if (0 <? max_clients cfg) && (max_clients cfg <=? active_clients (stats s)) then Ok s else
  if negb (cn_wrapper cn) then Ok s else
  '(banned, db) ← (if negb (cn_unix cn) && negb (listen_proxy_proto cfg)
                   then check_if_banned (x_ban_mem x) (x_ban_ok x) (ban_cfg cfg) (x_now x) (x_now x)
                          (ban_db s) (sockaddr_of (cn_addr cn) (cn_len cn))
                   else Ok (0, ban_db s));
  let s := {| s with ban_db := db |} in
  if negb (banned =? 0) || negb (cn_pair cn) || (cn_pid cn =? -1) then Ok s else
  '(o, s) ← new_proc x s (cn_mem cn) (cn_pid cn) (cn_addr cn) (cn_len cn);
  Ok match o with Some _ => s | None => emit (EvKill (cn_pid cn)) s end.

(** ** The process as a machine *)

Inductive main_input :=
| InConnect (cn : connection)
| InWorker (p : ptr) (cmd : worker_cmd)
| InScript (p : ptr) (estatus : Z)
| InUdp (u : udp_ext)
| InMaintenance.

Definition main_step x cfg s (i : main_input) : cres main_server_st :=
  match i with
  | InConnect cn => accept_client x cfg s cn
  | InWorker p cmd => cmd_watcher_cb x cfg s p cmd
  | InScript p estatus => script_child_watcher_cb x s p estatus
  | InUdp u =>
    '(o, t) ← forward_udp_to_owner u (udp_cfg cfg) (ps s);
    let s := {| s with ps := t |} in
    Ok match o with Some p => emit (EvUdp p) s | None => s end
  | InMaintenance => Ok {| s with ban_db := cleanup_banned_entries (ban_cfg cfg) (x_now x) (ban_db s) |}
  end.

Definition main_init (st : main_stats_st) : main_server_st :=
  Main proc_table_init [] [] (Store htable_init ∅) (Store htable_init ∅) st [].
End main.
Arguments main_server_st _ : clear implicits.
