(* ===== verification/MainProcSpec.v ===== *)
(** * The invariant of the main process

    Every handler of MainProc.v keeps the tables exact indices of the live
    processes, the lists of processes and scripts free of dangling pointers and
    the addresses of the clients distinct, and performs no undefined operation
    ([main_step_inv]).  The theorems about sessions, addresses and UDP packets
    follow from it. *)

From S2P Require Import Prelude CString Htable Store SecModData IpUtil NetText Ban IpLease.
From S2P Require Import ProcTable MainUdp MainProc.

Section main_spec.
Context {T : Type} `{HT : HTable T, HS : !HTableSpec T, Env : SecModEnv}.
Implicit Types (s : main_server_st T) (c : proc_st) (p q : ptr) (x : main_ext) (cfg : main_config)
  (R : gset ptr) (e : option ptr).

Definition scripts s : list ptr := (script_list s).*1.
Definition with_leases db s : main_server_st T := {| s with ip_leases := db |}.
Definition no_leases : proc_leases := ProcLeases None None.

(** The seed for the address of a client has the size of one, the limit is
    unsigned. *)
Definition cfg_ok (gc : group_cfg_st) : Prop :=
  length (ipv4_seed (lease_cfg gc)) = 4%nat ∧ bytes (ipv4_seed (lease_cfg gc)) ∧
  0 ≤ max_same_clients gc.

(** [R] are the processes with a registered session.  [e] is a process in the
    middle of its authentication, for which [mi_idle] need not hold. *)
Record main_inv e R s : Prop := {
  mi_ps : proc_inv (ps s) R;
  mi_list : NoDup (proc_list s);
  mi_elem q : q ∈ proc_list s ↔ is_Some (proc_at s q);
  mi_script_nodup : NoDup (scripts s);
  mi_script q : q ∈ scripts s → is_Some (proc_at s q);
  mi_leases : lease_inv (ip_leases s) (leases <$> procs (ps s));
  mi_ban : ban_ok (ban_db s);
  mi_count : active_clients (stats s) = u32 (Z.of_nat (length (proc_list s)));
  mi_reg q c : q ∈ R → proc_at s q = Some c → active_sid c = true;
  mi_active q c : proc_at s q = Some c → active_sid c = true → is_Some (vhost c) ∧ is_Some (config c);
  mi_idle q c : proc_at s q = Some c → status c = PS_AUTH_INACTIVE → e ≠ Some q →
    (q ∉ R) ∧ leases c = no_leases ∧ (q ∉ scripts s) ∧ active_sid c = false;
  mi_config q c gc : proc_at s q = Some c → config c = Some gc → cfg_ok gc;
}.

(** The log and the other statistics are of no concern. *)
Lemma main_inv_log e R s l : main_inv e R s → main_inv e R {| s with elog := l |}.
Proof. intros []. by split. Qed.

Lemma main_inv_stats e R s st :
  active_clients st = active_clients (stats s) → main_inv e R s → main_inv e R {| s with stats := st |}.
Proof. intros Hst []. split; try done. simpl. congruence. Qed.

Lemma main_inv_ban e R s db : ban_ok db → main_inv e R s → main_inv e R {| s with ban_db := db |}.
Proof. intros Hdb []. by split. Qed.

(** A process in the middle of its authentication may be any. *)
Lemma main_inv_weaken R s p : main_inv None R s → main_inv (Some p) R s.
Proof. intros []. split; try done. eauto. Qed.

(** What has to be shown of the new value of a process. *)
Record upd_ok e R s p c c' : Prop := {
  uo_ok : proc_ok c';
  uo_keys : p ∉ R ∨ same_keys c c';
  uo_reg : p ∈ R → active_sid c' = true;
  uo_active : active_sid c' = true → is_Some (vhost c') ∧ is_Some (config c');
  uo_idle : status c' = PS_AUTH_INACTIVE → e ≠ Some p →
    (p ∉ R) ∧ leases c' = no_leases ∧ (p ∉ scripts s) ∧ active_sid c' = false;
  uo_config gc : config c' = Some gc → cfg_ok gc;
}.

Lemma main_inv_set e e' R s p c c' db :
  main_inv e R s → proc_at s p = Some c → upd_ok e' R s p c c' → (e = e' ∨ e = Some p) →
  lease_inv db (<[p:=leases c']> (leases <$> procs (ps s))) →
  main_inv e' R (with_leases db (set_at s p c')).
Proof.
  intros [] Hc [] He Hl.
  assert (∀ q d, proc_at (set_at s p c') q = Some d → (q = p ∧ d = c') ∨ (q ≠ p ∧ proc_at s q = Some d))
    as Hat.
  { intros q d. unfold proc_at, set_at, set_proc. simpl. rewrite lookup_insert_Some. naive_solver. }
  assert (∀ q, is_Some (proc_at s q) ↔ is_Some (proc_at (set_at s p c') q)) as Hsome.
  { intros q. unfold proc_at, set_at, set_proc in *. simpl. destruct (decide (p = q)) as [<-|].
    - rewrite Hc, lookup_insert_eq. split; eauto.
    - by rewrite lookup_insert_ne. }
  split; simpl; try done.
  - by apply (proc_inv_set _ _ _ c).
  - intros q. rewrite mi_elem0. apply Hsome.
  - intros q Hq. by apply Hsome, mi_script0.
  - by rewrite fmap_insert.
  - intros q d Hq [[-> ->]|[_ Hd]]%Hat; eauto.
  - intros q d [[-> ->]|[_ Hd]]%Hat; eauto.
  - intros q d [[-> ->]|[Hne Hd]]%Hat; [auto|]. intros Hst Hq. apply (mi_idle0 q d Hd Hst). naive_solver.
  - intros q d gc [[-> ->]|[_ Hd]]%Hat; eauto.
Qed.

(** The leases stay what they are. *)
Lemma main_inv_set_at e e' R s p c c' :
  main_inv e R s → proc_at s p = Some c → upd_ok e' R s p c c' → (e = e' ∨ e = Some p) →
  leases c' = leases c → main_inv e' R (set_at s p c').
Proof.
  intros Hinv Hc Hu He Hl. apply (main_inv_set e e' R s p c c' (ip_leases s)); [done..|].
  rewrite Hl, insert_id; [apply Hinv|]. unfold proc_at in Hc. by rewrite lookup_fmap, Hc.
Qed.

Lemma proc_at_set s p c : proc_at (set_at s p c) p = Some c.
Proof. apply lookup_insert_eq. Qed.

Lemma proc_at_set_ne s p q c : q ≠ p → proc_at (set_at s p c) q = proc_at s q.
Proof. intros. by apply lookup_insert_ne. Qed.

(** What the handlers rely on: random bytes and addresses of the right size,
    memory that is not in use. *)
Record main_ext_ok x s : Prop := {
  mx_rnd id : x_rnd x = Some id → Z.of_nat (length id) = GNUTLS_MAX_SESSION_ID;
  mx_cfg msg g : x_reply x = Some msg → sr_config msg = Some g →
    cfg_ok (apply_default_config (x_find_vhost x (sr_vhost msg)) (sr_ipv4_seed msg) g);
  mx_lease gc : cfg_ok gc → lease_ext_ok (x_lease x) (lease_cfg gc);
  mx_fresh : lease_fresh (x_lease x) (ip_leases s);
  mx_ban : fresh (x_ban_mem x) (ban_db s);
  mx_pton6 str a : x_pton6 x str = Some a → length a = 16%nat;
}.

(** Other processes, leases, bans and scripts are as before. *)
Definition frame p s s' : Prop :=
  (∀ q, q ≠ p → proc_at s' q = proc_at s q) ∧ ip_leases s' = ip_leases s ∧ ban_db s' = ban_db s ∧
  script_list s' = script_list s.

Lemma frame_refl p s : frame p s s.
Proof. done. Qed.

Lemma frame_trans p s1 s2 s3 : frame p s1 s2 → frame p s2 s3 → frame p s1 s3.
Proof.
  intros (H1 & H2 & H3 & H4) (K1 & K2 & K3 & K4). split_and!; [|congruence..].
  intros q Hq. by rewrite K1, H1.
Qed.

Lemma frame_set s p c : frame p s (set_at s p c).
Proof. split_and!; try done. intros. by apply proc_at_set_ne. Qed.

(** ** Opening a session *)

(** What is known when a session was opened. *)
Definition session_ok x c c' : Prop :=
  ∃ msg user g, x_reply x = Some msg ∧ sr_reply msg = AUTH_REP_OK ∧
    sr_username msg = Some user ∧ sr_config msg = Some g ∧
    let v := x_find_vhost x (sr_vhost msg) in
    let gc := apply_default_config v (sr_ipv4_seed msg) g in
    username c' = strlcpy MAX_USERNAME_SIZE user ∧ config c' = Some gc ∧ vhost c' = Some v ∧
    (deny_roaming gc = true →
     human_addr2 (x_ntop6 x) (remote_addr c) (remote_addr_len c) (Z.of_nat MAX_IP_STR) false =
       Ok (sr_ip msg)).

Lemma session_open_spec x s R p c cookie :
  main_inv (Some p) R s → main_ext_ok x s → proc_at s p = Some c → p ∉ R → active_sid c = false →
  ∃ ret s' c', session_open x s p c cookie = Ok (ret, s') ∧ main_inv (Some p) R s' ∧
    frame p s s' ∧ proc_at s' p = Some c' ∧ same_keys c c' ∧ leases c' = leases c ∧
    active_sid c' = false ∧ (ret = -1 ∨ ret = 0 ∧ session_ok x c c').
Proof.
  intros Hinv Hx Hc HpR Ha. unfold session_open.
  assert (∀ c', same_keys c c' → active_sid c' = false → leases c' = leases c →
    (∀ gc, config c' = Some gc → cfg_ok gc) →
    main_inv (Some p) R (set_at (emit (EvSessionOpen cookie) s) p c')) as Hset.
  { intros c' Hk Ha' Hl Hg. apply (main_inv_set_at (Some p) (Some p) R _ p c); auto.
    - by apply main_inv_log.
    - split; [|by right|done|congruence|done|done].
      destruct (pi_procs _ _ (mi_ps _ _ _ Hinv) p c Hc) as [_ []].
      destruct Hk as (Hk1 & Hk2 & Hk3 & Hk4 & Hk5 & Hk6 & Hk7). split; congruence. }
  assert (same_keys c c) as Hrefl by done.
  destruct (negb _). { exists (-1), s, c. split_and!; auto. apply frame_refl. }
  destruct (x_reply x) as [msg|] eqn:Hmsg.
  2:{ eexists (-1), _, c. split_and!; auto; try done. by apply main_inv_log. }
  destruct (bool_decide _) eqn:Hok; cbn [negb]; [apply bool_decide_eq_true in Hok|].
  2:{ eexists (-1), _, c. split_and!; auto; try done. apply main_inv_stats; [|by apply main_inv_log].
      unfold update_auth_failures. by case_match. }
  destruct (sr_username msg) as [user|] eqn:Hu.
  2:{ eexists (-1), _, c. split_and!; auto; try done. by apply main_inv_log. }
  assert (∀ c', frame p s (set_at (emit (EvSessionOpen cookie) s) p c')) as Hframe
    by (intros c'; exact (frame_set (emit (EvSessionOpen cookie) s) p c')).
  destruct (sr_config msg) as [g|] eqn:Hg.
  2:{ eexists (-1), _, _. split_and!; [done|apply Hset; try done|apply Hframe|apply proc_at_set|done..|by left].
      intros gc Hgc. by apply (mi_config _ _ _ Hinv p c gc Hc). }
  set (v := x_find_vhost x (sr_vhost msg)). set (gc := apply_default_config v (sr_ipv4_seed msg) g).
  match goal with |- context [set_at (emit _ s) p ?d] => set (c' := d) end.
  assert (main_inv (Some p) R (set_at (emit (EvSessionOpen cookie) s) p c')) as Hinv'.
  { apply Hset; try done. intros gc' [= <-]. by apply (mx_cfg _ _ Hx msg). }
  assert (∀ ret, (ret = -1 ∨ ret = 0 ∧ session_ok x c c') →
    ∃ ret' s' c'', Ok (ret, set_at (emit (EvSessionOpen cookie) s) p c') = Ok (ret', s') ∧
    main_inv (Some p) R s' ∧ frame p s s' ∧ proc_at s' p = Some c'' ∧ same_keys c c'' ∧
    leases c'' = leases c ∧ active_sid c'' = false ∧ (ret' = -1 ∨ ret' = 0 ∧ session_ok x c c'')) as Hfin.
  { intros ret Hr. eexists ret, _, c'. split_and!; [done|done|apply Hframe|apply proc_at_set|done..]. }
  destruct (deny_roaming gc) eqn:Hdeny; cbn [negb].
  2:{ apply Hfin. right. split; [done|]. exists msg, user, g. split_and!; try done. fold v gc. cbv zeta.
      fold gc. rewrite Hdeny. done. }
  destruct (sr_ip msg) as [ip|] eqn:Hip; [|apply Hfin; by left].
  destruct (human_addr2_defined (x_ntop6 x) (remote_addr c) (remote_addr_len c) (Z.of_nat MAX_IP_STR))
    as [str Hstr].
  { pose proof (ok_remote _ (proj2 (pi_procs _ _ (mi_ps _ _ _ Hinv) p c Hc))) as Hl.
    unfold SOCKADDR_STORAGE_SIZE in Hl. case_match; lia. }
  change (remote_addr c') with (remote_addr c). change (remote_addr_len c') with (remote_addr_len c).
  rewrite Hstr. run. destruct str as [str|]; [|apply Hfin; by left].
  apply Hfin. destruct (bool_decide_reflect (str = ip)) as [->|]; [|by left]. right. split; [done|].
  exists msg, user, g. split_and!; try done. cbv zeta. split_and!; try done. by rewrite Hstr, Hip.
Qed.

(** A change of fields that no invariant mentions. *)
Lemma upd_ok_same e R s p c c' :
  main_inv e R s → proc_at s p = Some c → same_keys c c' → active_sid c' = active_sid c →
  vhost c' = vhost c → config c' = config c →
  (status c' = PS_AUTH_INACTIVE → e ≠ Some p → status c = PS_AUTH_INACTIVE ∧ leases c' = leases c) →
  upd_ok e R s p c c'.
Proof.
  intros Hinv Hc Hk Ha Hv Hg Hst. split.
  - destruct (pi_procs _ _ (mi_ps _ _ _ Hinv) p c Hc) as [_ []].
    destruct Hk as (Hk1 & Hk2 & Hk3 & Hk4 & Hk5 & Hk6 & Hk7). split; congruence.
  - by right.
  - rewrite Ha. intros Hp. by apply (mi_reg _ _ _ Hinv p c).
  - rewrite Ha, Hv, Hg. by apply (mi_active _ _ _ Hinv p).
  - intros Hi He. destruct (Hst Hi He) as [Hi' ->]. rewrite Ha. by apply (mi_idle _ _ _ Hinv p c).
  - rewrite Hg. intros gc Hgc. by apply (mi_config _ _ _ Hinv p c).
Qed.

Lemma main_inv_set_same e R s p c c' :
  main_inv e R s → proc_at s p = Some c → same_keys c c' → active_sid c' = active_sid c →
  vhost c' = vhost c → config c' = config c → leases c' = leases c →
  (status c' = PS_AUTH_INACTIVE → status c = PS_AUTH_INACTIVE) → main_inv e R (set_at s p c').
Proof.
  intros Hinv Hc Hk Ha Hv Hg Hl Hst. apply (main_inv_set_at e e R s p c); auto.
  apply upd_ok_same; auto.
Qed.

(** ** Taking over an earlier connection *)

Lemma leases_at s p c : proc_at s p = Some c → (leases <$> procs (ps s)) !! p = Some (leases c).
Proof. unfold proc_at. intros Hc. by rewrite lookup_fmap, Hc. Qed.

Lemma lease_inv_drop db (L : gmap ptr proc_leases) p : lease_inv db L → lease_inv db (<[p:=no_leases]> L).
Proof.
  intros Hl. apply (lease_inv_sub db L); [done|]. intros i v4 q l (d & h & Hd & Hs & Hr).
  destruct (decide (p = i)) as [<-|Hne].
  - rewrite lookup_insert_eq in Hd. simplify_eq. by destruct v4.
  - rewrite lookup_insert_ne in Hd by done. by exists d, h.
Qed.

(** The process [q] afterwards. *)
Definition taken (old : proc_st) : proc_st :=
  {| old with leases := no_leases; pid_killed := (0 <? pid old) || pid_killed old |}.

Lemma take_over_spec s R p c q old :
  main_inv (Some p) R s → proc_at s p = Some c → proc_at s q = Some old → q ∈ R → p ∉ R →
  leases c = no_leases →
  ∃ ret s', take_over s p q = Ok (ret, s') ∧ main_inv (Some p) R s' ∧
    (ret = -1 ∧ s' = s ∧ username c ≠ username old ∨
     ret = 0 ∧ username c = username old ∧
     proc_at s' p = Some {| c with leases := leases old |} ∧ proc_at s' q = Some (taken old) ∧
     (∀ r, r ≠ p → r ≠ q → proc_at s' r = proc_at s r) ∧ ip_leases s' = ip_leases s ∧
     ban_db s' = ban_db s ∧ script_list s' = script_list s).
Proof.
  intros Hinv Hc Hq HqR HpR Hl. assert (p ≠ q) as Hne by congruence.
  assert (status old ≠ PS_AUTH_INACTIVE) as Hst.
  { intros Hst. by destruct (mi_idle _ _ _ Hinv q old Hq Hst) as [? _]; [congruence|]. }
  unfold take_over. rewrite Hc, Hq.
  destruct (bool_decide_reflect (username c = username old)) as [Hu|Hu]; cbn [negb].
  2:{ exists (-1), s. split_and!; [done..|by left]. }
  unfold steal_ip_leases. fold no_leases.
  set (old1 := {| old with leases := no_leases |}). set (c1 := {| c with leases := leases old |}).
  set (s1 := set_at (set_at s q old1) p c1).
  assert (main_inv (Some p) R (set_at s q old1)) as Hinv1.
  { apply (main_inv_set (Some p) (Some p) R s q old old1 (ip_leases s)); auto.
    - by apply upd_ok_same.
    - apply lease_inv_drop, Hinv. }
  assert (proc_at (set_at s q old1) p = Some c) as Hc1 by by rewrite proc_at_set_ne.
  assert (main_inv (Some p) R s1) as Hinv2.
  { apply (main_inv_set (Some p) (Some p) R (set_at s q old1) p c c1 (ip_leases s)); auto.
    - by apply upd_ok_same.
    - cbn [ps set_at set_proc procs]. rewrite fmap_insert. cbn [leases c1 old1].
      rewrite insert_insert_ne by done.
      pose proof (steal_inv (ip_leases s) (leases <$> procs (ps s)) q p (leases old) (leases c)) as Hsteal.
      apply Hsteal; [apply Hinv|done|by apply leases_at..|by rewrite Hl|by rewrite Hl]. }
  assert (proc_at s1 q = Some old1) as Hq1.
  { unfold s1. rewrite proc_at_set_ne by done. apply proc_at_set. }
  destruct (Z.ltb_spec 0 (pid old)) as [Hpid|Hpid].
  - rewrite Hq1. exists 0, (emit (EvKill (pid old)) (set_at s1 q (taken old))).
    split; [unfold taken; by rewrite (proj2 (Z.ltb_lt 0 (pid old)) Hpid)|]. split.
    + apply main_inv_log. apply (main_inv_set_same _ _ _ _ old1); try done.
    + right. split_and!; try done.
      * change (proc_at (set_at s1 q (taken old)) p = Some c1).
        rewrite proc_at_set_ne by done. apply proc_at_set.
      * apply proc_at_set.
      * intros r Hrp Hrq. change (proc_at (set_at s1 q (taken old)) r = proc_at s r).
        rewrite proc_at_set_ne by done. unfold s1. by rewrite !proc_at_set_ne.
  - eexists 0, _. split; [done|]. split; [done|]. right.
    assert (old1 = taken old) as Hold.
    { unfold taken. by rewrite (proj2 (Z.ltb_ge 0 (pid old)) Hpid). }
    split_and!; try done; [apply proc_at_set|by rewrite <- Hold|].
    intros r Hrp Hrq. unfold s1. by rewrite !proc_at_set_ne.
Qed.

(** ** A cookie *)

(** The tables change, the processes do not. *)
Lemma main_inv_tables e R R' s t :
  main_inv e R s → procs t = procs (ps s) → proc_inv t R' →
  (∀ q c, q ∈ R' → q ∉ R → e = Some q ∧ (proc_at s q = Some c → active_sid c = true)) →
  main_inv e R' {| s with ps := t |}.
Proof.
  intros [] Ht Hp HR. unfold proc_at in *. split; cbn; unfold proc_at; cbn; rewrite ?Ht; try done.
  - intros q c Hq Hc. destruct (decide (q ∈ R)); [by eapply mi_reg0|]. by apply (HR q c).
  - intros q c Hc Hi He. destruct (mi_idle0 q c Hc Hi He) as (Hn & Hrest). split; [|done].
    intros Hq. by destruct (HR q c Hq Hn).
Qed.

Lemma main_ext_ok_frame x s s' :
  main_ext_ok x s → ip_leases s' = ip_leases s → ban_db s' = ban_db s → main_ext_ok x s'.
Proof. intros [] Hl Hb. split; try done; by rewrite ?Hl, ?Hb. Qed.

(** What is known when a cookie was accepted: the security module opened the
    session for the user, and where another process has this session it is
    the same user's and gave up its leases. *)
Definition cookie_ok x s s' R p (cookie : option (list Z)) : Prop :=
  ∃ ck c c', cookie = Some ck ∧ Z.of_nat (length ck) = SID_SIZE ∧
    proc_at s p = Some c ∧ proc_at s' p = Some c' ∧
    sid c' = ck ∧ session_ok x c c' ∧
    ((∀ q d, q ∈ R → proc_at s q = Some d → sid d ≠ ck) ∧ leases c' = no_leases ∨
     ∃ q old, q ∈ R ∧ proc_at s q = Some old ∧ sid old = ck ∧ username old = username c' ∧
       leases c' = leases old ∧ proc_at s' q = Some (taken old)).

Definition keeps s s' : Prop :=
  ip_leases s' = ip_leases s ∧ ban_db s' = ban_db s ∧ script_list s' = script_list s.

(** The session is looked for and taken over where there is one. *)
Lemma reuse_spec s R p c ck :
  main_inv (Some p) R s → proc_at s p = Some c → p ∉ R → leases c = no_leases →
  Z.of_nat (length ck) = SID_SIZE →
  ∃ ret s' c', match proc_search_sid (ps s) ck with
      | Some q => take_over s p q
      | None => Ok (0, s)
      end = Ok (ret, s') ∧ main_inv (Some p) R s' ∧ keeps s s' ∧ proc_at s' p = Some c' ∧
    c' = {| c with leases := leases c' |} ∧
    (ret = -1 ∨
     ret = 0 ∧
     ((∀ q d, q ∈ R → proc_at s q = Some d → sid d ≠ ck) ∧ leases c' = no_leases ∨
      ∃ q old, q ∈ R ∧ proc_at s q = Some old ∧ sid old = ck ∧ username old = username c' ∧
        leases c' = leases old ∧ proc_at s' q = Some (taken old))).
Proof.
  intros Hinv Hc HpR Hl Hck.
  pose proof (search_sid_spec (ps s) R ck (mi_ps _ _ _ Hinv) Hck) as Hsearch.
  destruct (proc_search_sid (ps s) ck) as [q|].
  - destruct Hsearch as (old & Hq & HqR & Hs).
    destruct (take_over_spec s R p c q old) as (ret & s' & -> & Hinv' & [(-> & -> & _)|H]); [done..| |].
    + exists (-1), s, c. split_and!; [done..|by destruct c|by left].
    + destruct H as (-> & Hu & Hp' & Hq' & _ & Hk). exists 0, s', {| c with leases := leases old |}.
      split_and!; [done| done|done|done|done|]. right. split; [done|]. right. exists q, old.
      split_and!; [done..|by rewrite Hu|done|done].
  - exists 0, s, c. split_and!; [done..|by destruct c|]. right. split; [done|]. by left.
Qed.

Lemma handle_auth_cookie_req_spec x s R p c cookie :
  main_inv None R s → main_ext_ok x s → proc_at s p = Some c → status c = PS_AUTH_INACTIVE →
  ∃ ret s' R', handle_auth_cookie_req x s p c cookie = Ok (ret, s') ∧ main_inv (Some p) R' s' ∧
    keeps s s' ∧ is_Some (proc_at s' p) ∧
    (ret = -1 ∧ R' = R ∨ ret = 0 ∧ R' = {[p]} ∪ R ∧ cookie_ok x s s' R p cookie).
Proof.
  intros Hinv Hx Hc Hst. destruct (mi_idle _ _ _ Hinv p c Hc Hst) as (HpR & Hl & Hscr & Ha); [done|].
  pose proof (main_inv_weaken R s p Hinv) as Hinv0. unfold handle_auth_cookie_req.
  destruct cookie as [ck|]; [|exists (-1), s, R; split_and!; eauto; done].
  destruct (Z.eqb_spec (Z.of_nat (length ck)) SID_SIZE) as [Hck|];
    [cbn [negb]|exists (-1), s, R; split_and!; eauto; done].
  destruct (x_rnd x) as [id|] eqn:Hid; [|exists (-1), s, R; split_and!; eauto; done].
  set (c0 := {| c with dtls_session_id := id; dtls_session_id_size := GNUTLS_MAX_SESSION_ID |}).
  pose proof (pi_procs _ _ (mi_ps _ _ _ Hinv) p c Hc) as [_ Hok].
  assert (proc_ok c0) as Hok0.
  { destruct Hok. split; try done. by apply (mx_rnd _ _ Hx). }
  assert (main_inv (Some p) R (set_at s p c0)) as Hinv1.
  { apply (main_inv_set_at (Some p) (Some p) R s p c); auto. split; auto; try done.
    - change (active_sid c0) with (active_sid c). by rewrite Ha.
    - intros gc Hgc. by apply (mi_config _ _ _ Hinv p c). }
  destruct (session_open_spec x (set_at s p c0) R p c0 ck) as
    (ret1 & s1 & c1 & -> & Hinv2 & (Hfr & Hfl & Hfb & Hfs) & Hc1 & Hk1 & Hl1 & Ha1 & Hret1);
    [done|by apply (main_ext_ok_frame x s)|apply proc_at_set|done..|].
  assert (keeps s s1) as (Hkl1 & Hkb1 & Hks1) by done.
  run. destruct Hret1 as [->|[-> Hses]]; cbn [Z.ltb Z.compare].
  { exists (-1), s1, R. split_and!; eauto; done. }
  destruct (reuse_spec s1 R p c1 ck) as (ret2 & s2 & c2 & -> & Hinv3 & (Hkl & Hkb & Hks) & Hc2 & He2 & Hret2);
    [done..|by rewrite Hl1|done|].
  run. assert (keeps s s2) as Hkeep by (split_and!; congruence).
  destruct Hret2 as [->|[-> Hreuse]]; cbn [Z.ltb Z.compare].
  { exists (-1), s2, R. split_and!; eauto; done. }
  rewrite Hc2. set (c3 := {| c2 with sid := ck; active_sid := true |}).
  assert (vhost c2 = vhost c1 ∧ config c2 = config c1 ∧ username c2 = username c1) as (Hv2 & Hg2 & Hu2)
    by (rewrite He2; done).
  pose proof (pi_procs _ _ (mi_ps _ _ _ Hinv3) p c2 Hc2) as [_ Hok2].
  assert (main_inv (Some p) R (set_at s2 p c3)) as Hinv4.
  { apply (main_inv_set_at (Some p) (Some p) R s2 p c2); auto. split; auto; try done.
    - destruct Hok2. by split.
    - intros _. change (vhost c3) with (vhost c2). change (config c3) with (config c2).
      destruct Hses as (msg & user & g & _ & _ & _ & _ & _ & Hg & Hv & _). rewrite Hv2, Hg2. eauto.
    - intros gc Hgc. by apply (mi_config _ _ _ Hinv3 p c2). }
  pose proof (proc_table_add_spec (x_ok x) (ps (set_at s2 p c3)) R p c3 (mi_ps _ _ _ Hinv4)
    (proc_at_set s2 p c3) HpR) as Hadd.
  destruct (proc_table_add _ _ _ _) as [ret3 t]. destruct Hadd as [Ht Hadd].
  assert (is_Some (procs t !! p)) as Hsome.
  { rewrite Ht. exists c3. apply proc_at_set. }
  destruct Hadd as [[-> Hadd]|(-> & Hadd & _)]; cbn [Z.ltb Z.compare].
  - eexists 0, _, ({[p]} ∪ R). split_and!; [done| |done..|]. 
    + apply (main_inv_tables (Some p) R); [done..|]. intros q d Hq Hn.
      assert (q = p) as -> by set_solver. split; [done|]. rewrite proc_at_set. by intros [= <-].
    + right. split_and!; [done..|]. exists ck, c, c3. split_and!; [done|done|done| |done| |].
      * unfold proc_at. cbn. rewrite Ht. apply proc_at_set.
      * destruct Hses as (msg & user & g & ? & ? & ? & ? & ? & ? & ? & ?). exists msg, user, g.
        cbv zeta. change (username c3) with (username c2). change (config c3) with (config c2).
        change (vhost c3) with (vhost c2). rewrite Hu2, Hv2, Hg2. done.
      * destruct Hreuse as [[Hno Hln]|(q & old & HqR & Hq & Hs & Hu & Hll & Hqt)].
        -- left. split; [|done]. intros q d HqR Hq. apply (Hno q d HqR).
           rewrite Hfr by congruence. rewrite proc_at_set_ne by congruence. done.
        -- right. assert (q ≠ p) as Hqp by congruence.
           rewrite Hfr, proc_at_set_ne in Hq by done. exists q, old. split_and!; try done.
           unfold proc_at. cbn. rewrite Ht. rewrite <- Hqt. by apply proc_at_set_ne.
  - eexists (-1), _, R. split_and!; [done| |done..|by left].
    apply (main_inv_tables (Some p) R); [done..|]. set_solver.
Qed.

(** ** Accepting the user *)

(** The other connections of a user that count against the limit. *)
Definition counted s p (user : string) q : bool :=
  match proc_at s q with
  | Some c => negb (bool_decide (q = p)) && negb (pid c =? -1) && negb (pid_killed c) &&
              bool_decide (user = username c)
  | None => false
  end.
Definition others s p (user : string) : nat :=
  length (filter (λ q, counted s p user q = true) (proc_list s)).

Lemma count_same_spec s p user max n l :
  (∀ q, q ∈ l → is_Some (proc_at s q)) → n ≤ max →
  count_same s p user max n l =
    Ok (if max <? n + Z.of_nat (length (filter (λ q, counted s p user q = true) l)) then -1 else 0).
Proof.
  revert n. induction l as [|q l IH]; intros n Hl Hn.
  { cbn. by rewrite (proj2 (Z.ltb_ge _ _)) by lia. }
  destruct (Hl q) as [c Hc]; [set_solver|].
  assert (∀ r, r ∈ l → is_Some (proc_at s r)) as Hl' by set_solver.
  cbn [count_same]. rewrite Hc. rewrite filter_cons.
  assert (counted s p user q = negb (bool_decide (q = p)) && negb (pid c =? -1) &&
    negb (pid_killed c) && bool_decide (user = username c)) as Hcnt by (unfold counted; by rewrite Hc).
  rewrite <- Hcnt. destruct (counted s p user q) eqn:E.
  - rewrite decide_True by done. cbn [length]. destruct (Z.ltb_spec max (n + 1)).
    + by rewrite (proj2 (Z.ltb_lt _ _)) by lia.
    + rewrite IH by (done || lia). do 2 f_equal. by replace (n + 1 + _) with
        (n + Z.of_nat (S (length (filter (λ r, counted s p user r = true) l)))) by lia.
  - rewrite decide_False by done. by apply IH.
Qed.

Lemma check_multiple_users_spec s e R p c gc :
  main_inv e R s → config c = Some gc → 0 ≤ max_same_clients gc →
  check_multiple_users s p c =
    Ok (if (0 <? max_same_clients gc) &&
           (max_same_clients gc <=? Z.of_nat (others s p (username c))) then -1 else 0).
Proof.
  intros Hinv Hg Hm. unfold check_multiple_users. rewrite Hg.
  destruct (Z.eqb_spec (max_same_clients gc) 0) as [->|]; [done|].
  rewrite count_same_spec; [|intros q Hq; by apply (mi_elem _ _ _ Hinv)|lia].
  unfold others. rewrite (proj2 (Z.ltb_lt 0 _)) by lia. cbn [andb].
  do 2 case_match; rewrite ?Z.ltb_lt, ?Z.ltb_ge, ?Z.leb_le, ?Z.leb_gt in *; (done || lia).
Qed.

(** What authentication fixes and the rest of the handler leaves alone. *)
Definition same_core c c' : Prop :=
  username c' = username c ∧ sid c' = sid c ∧ active_sid c' = active_sid c ∧
  config c' = config c ∧ vhost c' = vhost c.

Lemma same_core_trans c1 c2 c3 : same_core c1 c2 → same_core c2 c3 → same_core c1 c3.
Proof. intros (?&?&?&?&?) (?&?&?&?&?). split_and!; congruence. Qed.

Lemma open_tun_spec x s R p c gc :
  main_inv (Some p) R s → main_ext_ok x s → proc_at s p = Some c → config c = Some gc →
  ∃ ret s' c', open_tun x s p c = Ok (ret, s') ∧ main_inv (Some p) R s' ∧
    proc_at s' p = Some c' ∧ same_core c c' ∧ scripts s' = scripts s ∧ ret ≤ 0.
Proof.
  intros Hinv Hx Hc Hg. unfold open_tun. rewrite Hg.
  pose proof (get_ip_leases_inv (x_lease x) (lease_cfg gc) (ip_leases s) (leases <$> procs (ps s)) p
    (leases c) (mi_leases _ _ _ Hinv) (leases_at s p c Hc)) as Hget.
  destruct (get_ip_leases _ _ _ _) as [[ret db] l].
  assert (lease_inv db (<[p:=l]> (leases <$> procs (ps s)))) as Hl.
  { apply Hget; [|apply Hx]. apply (mx_lease _ _ Hx), (mi_config _ _ _ Hinv p c gc Hc Hg). }
  assert (∀ c', leases c' = l → same_keys c c' → same_core c c' →
    main_inv (Some p) R (with_leases db (set_at s p c'))) as Hset.
  { intros c' Hlc Hk (Hu & Hs & Ha & Hcf & Hv). apply (main_inv_set (Some p) (Some p) R s p c); auto.
    - apply upd_ok_same; auto. done.
    - by rewrite Hlc. }
  destruct (Z.ltb_spec ret 0).
  { eexists ret, _, _. split_and!; [done|by apply Hset|apply proc_at_set|done|done|lia]. }
  destruct (x_tun x) as [fd name]. case_match.
  - eexists (-1), _, _. split_and!; [done|by apply Hset|apply proc_at_set|done|done|lia].
  - eexists 0, _, _. split_and!; [done|by apply Hset|apply proc_at_set|done|done|lia].
Qed.

Lemma user_connected_spec x s R p :
  main_inv (Some p) R s → is_Some (proc_at s p) → p ∉ scripts s →
  let '(ret, s') := user_connected x s p in
  main_inv (Some p) R s' ∧ proc_at s' p = proc_at s p ∧ ret ≤ 0.
Proof.
  intros Hinv Hp Hn. unfold user_connected.
  pose proof (main_inv_log _ _ _ (EvConnected p :: elog s) Hinv) as Hlog.
  destruct (x_script x) as [| |pid]; [by split_and!..|].
  split_and!; [|by destruct (x_script_mem x)|unfold ERR_WAIT_FOR_SCRIPT; lia].
  destruct (x_script_mem x); [|done].
  destruct Hinv. split; try done; unfold scripts, emit in *; simpl.
  - by apply NoDup_cons.
  - intros q. rewrite elem_of_cons. intros [->|Hq]; [done|]. by apply mi_script0.
  - intros q c Hc Hi He. destruct (mi_idle0 q c Hc Hi He) as (? & ? & Hns & ?). split_and!; try done.
    rewrite elem_of_cons. intros [->|?]; [by apply He|by apply Hns].
Qed.

(** The user is accepted only within the limit. *)
Lemma accept_user_spec x s R p c gc :
  main_inv (Some p) R s → main_ext_ok x s → proc_at s p = Some c → config c = Some gc →
  p ∉ scripts s →
  ∃ ret s' c', accept_user x s p c = Ok (ret, s') ∧ main_inv (Some p) R s' ∧
    proc_at s' p = Some c' ∧ same_core c c' ∧ ret ≤ 0 ∧
    (ret = -1 ∨ max_same_clients gc = 0 ∨ Z.of_nat (others s p (username c)) < max_same_clients gc).
Proof.
  intros Hinv Hx Hc Hg Hn. unfold accept_user.
  pose proof (mi_config _ _ _ Hinv p c gc Hc Hg) as (_ & _ & Hm).
  rewrite (check_multiple_users_spec s (Some p) R p c gc) by done. run.
  destruct (_ && _) eqn:Hlim; cbn [Z.ltb Z.compare].
  { exists (-1), s, c. split_and!; [done..|lia|by left]. }
  destruct (open_tun_spec x s R p c gc) as (ret & s1 & c1 & -> & Hinv1 & Hc1 & Hcore & Hscr & Hret); [done..|].
  run. destruct (Z.ltb_spec ret 0); [by eexists (-1), s1, c1; split_and!; auto|].
  pose proof (user_connected_spec x s1 R p Hinv1) as Huc.
  destruct (user_connected x s1 p) as [ret2 s2].
  destruct Huc as (Hinv2 & Hp2 & Hr2); [by eexists|by rewrite Hscr|].
  exists ret2, s2, c1. split_and!; [done..|congruence|done|done|].
  right. apply andb_false_iff in Hlim as [Hl|Hl]; [apply Z.ltb_ge in Hl|apply Z.leb_gt in Hl]; lia.
Qed.

Lemma set_proc_status_spec R s p st :
  main_inv (Some p) R s → st ≠ PS_AUTH_INACTIVE → main_inv None R (set_proc_status s p st).
Proof.
  intros Hinv Hst. unfold set_proc_status. destruct (proc_at s p) as [c|] eqn:Hc.
  - apply (main_inv_set_at (Some p) None R s p c); auto.
    destruct (upd_ok_same (Some p) R s p c c Hinv Hc) as [Hok Hk ? ? ? ?]; try done.
    split; try done. destruct Hok. by split.
  - destruct Hinv. split; try done. intros q d Hd Hi _. apply (mi_idle0 q d Hd Hi). congruence.
Qed.

Lemma proc_at_status s p st c :
  proc_at s p = Some c → proc_at (set_proc_status s p st) p = Some {| c with status := st |}.
Proof. intros Hc. unfold set_proc_status. rewrite Hc. apply proc_at_set. Qed.

Lemma handle_script_exit_spec x s R p c code :
  main_inv None R s → proc_at s p = Some c → status c ≠ PS_AUTH_INACTIVE →
  let '(ret, s') := handle_script_exit x s p c code in
  main_inv None R s' ∧
  ∃ c', proc_at s' p = Some c' ∧ same_core c c' ∧ status c' ≠ PS_AUTH_INACTIVE ∧
    (code ≠ 0 → status c' = status c).
Proof.
  intros Hinv Hc Hst. unfold handle_script_exit, send_cookie_auth_reply.
  assert (∀ l c', same_keys c c' → same_core c c' → leases c' = leases c →
    status c' ≠ PS_AUTH_INACTIVE → main_inv None R (set_at {| s with elog := l |} p c')) as Hset.
  { intros l c' Hk (Hu & Hs & Ha & Hg & Hv) Hl Hst'. apply (main_inv_set_same _ _ _ _ c); auto;
    [by apply main_inv_log|done]. }
  destruct (Z.eqb_spec code 0) as [->|Hcode];
    repeat case_match; simplify_eq; cbn [fst snd]; (split; [by apply Hset|]);
    eexists; (split; [apply proc_at_set|]); split_and!; done.
Qed.

(** ** The whole request *)

Lemma handle_cookie_auth_res_spec x s R p c result :
  main_inv (Some p) R s → main_ext_ok x s → proc_at s p = Some c → p ∉ scripts s →
  (result = 0 → is_Some (config c)) →
  ∃ ret s' c', handle_cookie_auth_res x s p result = Ok (ret, s') ∧ main_inv None R s' ∧
    proc_at s' p = Some c' ∧ same_core c c' ∧ status c' ≠ PS_AUTH_INACTIVE ∧
    (status c' = PS_AUTH_COMPLETED → result = 0 ∧ ∃ gc, config c = Some gc ∧
       (max_same_clients gc = 0 ∨ Z.of_nat (others s p (username c)) < max_same_clients gc)).
Proof.
  intros Hinv Hx Hc Hn Hres. unfold handle_cookie_auth_res.
  (* the state in which the result is reported *)
  assert (∃ ret s1 c1, (if result =? 0 then
       match proc_at s p with
       | None => UB
       | Some c =>
         '(ret, s) ← accept_user x s p c;
         Ok (ret, set_proc_status s p (if ret <? 0 then PS_AUTH_FAILED else PS_AUTH_COMPLETED))
       end
     else if result <? 0 then Ok (result, set_proc_status s p PS_AUTH_FAILED)
     else Ok (ERR_BAD_COMMAND, set_proc_status s p PS_AUTH_FAILED)) = Ok (ret, s1) ∧
    main_inv None R s1 ∧ proc_at s1 p = Some c1 ∧ same_core c c1 ∧
    (status c1 = PS_AUTH_FAILED ∧ ret ≠ 0 ∨ ret = 0 ∧ result = 0 ∧ status c1 = PS_AUTH_COMPLETED ∧
     ∃ gc, config c = Some gc ∧
       (max_same_clients gc = 0 ∨ Z.of_nat (others s p (username c)) < max_same_clients gc)))
    as (ret & s1 & c1 & -> & Hinv1 & Hc1 & Hcore & Hst).
  { destruct (Z.eqb_spec result 0) as [->|Hr0].
    - destruct (Hres eq_refl) as [gc Hg]. rewrite Hc.
      destruct (accept_user_spec x s R p c gc) as (ret & s1 & c1 & -> & Hinv1 & Hc1 & Hcore & Hr & Hlim); [done..|].
      run. eexists ret, _, _. split_and!; [done| |by apply proc_at_status|done|].
      + apply set_proc_status_spec; [done|by case_match].
      + destruct (Z.ltb_spec ret 0); [left; split; [done|lia]|right]. split_and!; [lia|done..|].
        exists gc. split; [done|]. destruct Hlim as [->|Hlim]; [lia|done].
    - destruct (Z.ltb_spec result 0);
        (eexists _, _, _; split_and!; [done|by apply set_proc_status_spec|by apply proc_at_status|done|by left]). }
  run. destruct (Z.eqb_spec ret ERR_WAIT_FOR_SCRIPT) as [->|Hw].
  { exists 0, s1, c1. split_and!; try done.
    - destruct Hst as [[-> _]|(? & _)]; done.
    - intros Hcomp. destruct Hst as [[Hf _]|(? & _)]; [congruence|done]. }
  rewrite Hc1. pose proof (handle_script_exit_spec x s1 R p c1 ret Hinv1 Hc1) as Hexit.
  destruct (handle_script_exit x s1 p c1 ret) as [ret2 s2].
  destruct Hexit as (Hinv2 & c2 & Hc2 & Hcore2 & Hst2 & Hsame).
  { destruct Hst as [[-> _]|(_ & _ & -> & _)]; done. }
  destruct (Z.ltb_spec ret2 0).
  - eexists ret2, _, _. split_and!; [done|apply set_proc_status_spec; [by apply main_inv_weaken|done]|
      by apply proc_at_status| |done|done]. by eapply same_core_trans.
  - exists ret2, s2, c2. split_and!; [done..|by eapply same_core_trans|done|].
    intros Hcomp. destruct Hst as [[Hf Hr]|(_ & Hr & _ & Hlim)]; [|done].
    rewrite (Hsame Hr), Hf in Hcomp. done.
Qed.

(** ** Addresses and bans *)

(** The tables and the addresses of one process change. *)
Lemma main_inv_addrs e R s t p c c' :
  main_inv e R s → proc_at s p = Some c → proc_inv t R → procs t = <[p:=c']> (procs (ps s)) →
  same_core c c' → status c' = status c → leases c' = leases c →
  main_inv e R {| s with ps := t |}.
Proof.
  intros [] Hc Hp Ht (Hu & Hs & Ha & Hg & Hv) Hst Hl. unfold proc_at in *.
  assert (∀ q d, procs t !! q = Some d → ∃ d', procs (ps s) !! q = Some d' ∧ same_core d' d ∧
    status d = status d' ∧ leases d = leases d') as Hat.
  { intros q d. rewrite Ht, lookup_insert_Some. intros [[<- <-]|[_ Hd]]; [by exists c|by exists d]. }
  assert (∀ q, is_Some (procs t !! q) ↔ is_Some (procs (ps s) !! q)) as Hsome.
  { intros q. rewrite Ht. destruct (decide (p = q)) as [<-|].
    - rewrite lookup_insert_eq, Hc. split; eauto.
    - by rewrite lookup_insert_ne. }
  split; cbn; unfold proc_at; cbn; try done.
  - intros q. by rewrite mi_elem0, Hsome.
  - intros q Hq. apply Hsome. by apply mi_script0.
  - rewrite Ht, fmap_insert, Hl, insert_id; [done|]. by rewrite lookup_fmap, Hc.
  - intros q d Hq (d' & Hd' & (_ & _ & -> & _) & _)%Hat. by eapply mi_reg0.
  - intros q d (d' & Hd' & (_ & _ & -> & -> & ->) & _)%Hat. by eapply mi_active0.
  - intros q d (d' & Hd' & (_ & _ & -> & _) & -> & ->)%Hat. by apply mi_idle0.
  - intros q d gc (d' & Hd' & (_ & _ & _ & -> & _) & _)%Hat. by eapply mi_config0.
Qed.

Lemma ban_check_inv mem ok bc t1 t2 db a n :
  ban_ok db → fresh mem db → Z.of_nat (length a) = SOCKADDR_STORAGE_SIZE →
  ∃ r db', check_if_banned mem ok bc t1 t2 db (sockaddr_of a n) = Ok (r, db') ∧ ban_ok db'.
Proof.
  intros Hok Hf Ha. unfold SOCKADDR_STORAGE_SIZE in Ha.
  destruct (decide (cfg_max_ban_score bc = 0)) as [Hz|Hz].
  { exists 0, db. split; [|done]. unfold check_if_banned. by rewrite Hz. }
  assert (∃ b, SA_IN_P_GENERIC (sockaddr_of a n) = Ok b) as [b Hb].
  { unfold SA_IN_P_GENERIC, sockaddr_of, SA_IN_P, SA_IN6_P. destruct (n =? 16).
    - rewrite length_take. replace (16 `min` length a)%nat with 16%nat by lia. cbn [Nat.eqb].
      rewrite mem_at_Ok by (rewrite length_take; lia). eauto.
    - rewrite (proj2 (Nat.eqb_neq _ _)) by lia. rewrite mem_at_Ok by lia. eauto. }
  destruct (check_spec mem ok bc t1 t2 db (sockaddr_of a n) (massage_ipv6_address b))
    as (db' & -> & Hok' & _); [done..|by exists b|]. eauto.
Qed.

Lemma ban_add_str_inv pton6 mem ok bc t db str n :
  ban_ok db → fresh mem db → (∀ st a, pton6 st = Some a → length a = 16%nat) →
  ban_ok (add_str_ip_to_ban_list pton6 mem ok bc t db str n).2.
Proof.
  intros Hok Hf Hp. unfold add_str_ip_to_ban_list.
  destruct (Z.eqb_spec (cfg_max_ban_score bc) 0); [done|]. destruct (bool_decide _); [done|]. cbn [orb].
  assert (∀ b, ip_ok b → ban_ok (add_ip_to_ban_list mem ok bc t db b n).2) as Hadd.
  { intros b Hb. pose proof (add_spec mem ok bc t db b n Hok Hf Hb) as H.
    destruct (add_ip_to_ban_list _ _ _ _ _ _ _). by apply H. }
  destruct (bool_decide _).
  - destruct (pton6 str) as [b|] eqn:E; [|done]. apply Hadd. right. by apply (Hp str).
  - destruct (inet_pton4 str) as [b|]; [|done]. apply Hadd. by left.
Qed.

Lemma handle_session_info_spec x cfg s R p c addr :
  main_inv None R s → main_ext_ok x s → proc_at s p = Some c →
  (∀ a, addr = Some a → sockaddr_len (Z.of_nat (length a)) ∨ SOCKADDR_STORAGE_SIZE < Z.of_nat (length a)) →
  ∃ s', handle_session_info x cfg s p c addr = Ok s' ∧ main_inv None R s' ∧ is_Some (proc_at s' p).
Proof.
  intros Hinv Hx Hc Ha. unfold handle_session_info.
  destruct (listen_proxy_proto cfg); [|by eauto]. destruct addr as [a|]; [cbn [negb]|by eauto].
  destruct (Z.ltb_spec SOCKADDR_STORAGE_SIZE (Z.of_nat (length a))); [by eauto|].
  destruct (Ha a eq_refl) as [Hl|]; [|lia].
  destruct (proc_table_update_ip_spec (x_ntop6 x) (x_ok x 0%nat) (ps s) R p c a (mi_ps _ _ _ Hinv) Hc Hl)
    as (ret & t & a' & dn & -> & Ht & Hprocs & _ & _). run.
  set (c1 := set_addrs c a' (Z.of_nat (length a)) (dtls_remote_addr c) dn) in *.
  assert (main_inv None R {| s with ps := t |}) as Hinv1 by by apply (main_inv_addrs None R s t p c c1).
  assert (procs t !! p = Some c1) as Hc1 by by rewrite Hprocs, lookup_insert_eq.
  unfold proc_at at 1. cbn [ps ban_db]. rewrite Hc1.
  destruct (ban_check_inv (x_ban_mem x) (x_ban_ok x) (ban_cfg cfg) (x_now x) (x_now x) (ban_db s)
    (remote_addr c1) (remote_addr_len c1)) as (r & db & -> & Hdb);
    [apply Hinv|apply Hx|apply (pi_procs _ _ Ht p c1 Hc1)|]. run.
  pose proof (main_inv_ban None R _ db Hdb Hinv1) as Hinv2. eexists. split; [done|]. case_match.
  - split; [|by eexists; apply proc_at_set]. apply main_inv_log. by apply (main_inv_set_same _ _ _ _ c1).
  - split; [done|]. unfold proc_at. cbn. eauto.
Qed.

(** ** Removing a process *)

Lemma remove_script_spec p (l : list (ptr * Z)) :
  NoDup l.*1 →
  let l' := (remove_from_script_list p l).2 in
  NoDup l'.*1 ∧ ∀ q, q ∈ l'.*1 ↔ q ∈ l.*1 ∧ q ≠ p.
Proof.
  induction l as [|[q pid] l IH]; cbn; intros Hnd; [split; [done|set_solver]|].
  apply NoDup_cons in Hnd as [Hq Hnd]. specialize (IH Hnd).
  destruct (bool_decide_reflect (q = p)) as [->|Hne].
  - split; [done|]. intros r. rewrite elem_of_cons. split.
    + intros Hr. split; [by right|]. intros ->. done.
    + intros [[->|Hr] Hn]; done.
  - destruct (remove_from_script_list p l) as [o l']. cbn in *. destruct IH as [IH1 IH2].
    split; [apply NoDup_cons; split; [|done]|].
    + rewrite IH2. tauto.
    + intros r. rewrite !elem_of_cons, IH2. naive_solver.
Qed.

Lemma length_filter_ne p (l : list ptr) :
  NoDup l → p ∈ l → length l = S (length (filter (λ q, q ≠ p) l)).
Proof.
  induction l as [|q l IH]; intros Hnd Hp; [set_solver|].
  apply NoDup_cons in Hnd as [Hq Hnd]. rewrite filter_cons.
  destruct (decide (q = p)) as [->|Hne].
  - rewrite decide_False by naive_solver. cbn. f_equal.
    assert (∀ k : list ptr, p ∉ k → filter (λ q, q ≠ p) k = k) as Hid.
    { induction k as [|r k IHk]; intros Hk; [done|]. rewrite filter_cons, decide_True by set_solver.
      f_equal. apply IHk. set_solver. }
    by rewrite Hid.
  - rewrite decide_True by done. cbn. f_equal. apply IH; [done|]. set_solver.
Qed.

Lemma proc_table_del_keys (t : procs_st T) p c c' :
  same_keys c c' → proc_table_del t p c' = proc_table_del t p c.
Proof.
  intros (H1 & H2 & H3 & H4 & H5 & H6 & H7).
  unfold proc_table_del, rehash_dtls_ip, rehash_ip, rehash_dtls_id, rehash_sid.
  by rewrite H1, H2, H3, H4, H5, H6, H7.
Qed.

(** The state once everything of [p] is removed. *)
Lemma main_inv_removed R s p c t st l db :
  main_inv None R s → proc_at s p = Some c → t = proc_table (proc_table_del (ps s) p c) →
  active_clients st = u32 (active_clients (stats s) - 1) →
  db = (remove_ip_leases (ip_leases s) (leases c)).1 →
  main_inv None (R ∖ {[p]})
    (Main (Procs (delete p (procs (ps s))) t) (filter (λ q, q ≠ p) (proc_list s))
       (remove_from_script_list p (script_list s)).2 db (ban_db s) st l).
Proof.
  intros Hinv Hc -> Hst ->.
  pose proof (proc_table_del_spec (ps s) R p c (mi_ps _ _ _ Hinv) Hc) as Hdel.
  destruct (remove_script_spec p (script_list s) (mi_script_nodup _ _ _ Hinv)) as [Hsn Hse].
  pose proof (remove_ip_leases_inv (ip_leases s) _ p (leases c) (mi_leases _ _ _ Hinv)
    (leases_at s p c Hc)) as Hl.
  destruct (remove_ip_leases _ _) as [db pl] eqn:Hrm. cbn [fst].
  assert (p ∈ proc_list s) as Hin by (apply (mi_elem _ _ _ Hinv); eauto).
  pose proof (length_filter_ne p (proc_list s) (mi_list _ _ _ Hinv) Hin) as Hlen.
  unfold proc_at in *. destruct Hinv. split; cbn; unfold proc_at; cbn; try done.
  - by apply NoDup_filter.
  - intros q. rewrite list_elem_of_filter, mi_elem0. unfold proc_at.
    destruct (decide (q = p)) as [->|Hne].
    + rewrite lookup_delete_eq. split; [by intros []|by intros []].
    + rewrite lookup_delete_ne by done. tauto.
  - intros q Hq. apply Hse in Hq as [Hq Hne]. rewrite lookup_delete_ne by done. by apply mi_script0.
  - rewrite fmap_delete. apply (lease_inv_sub db _ _ Hl).
    intros i v4 q h (d & k & Hd & Hs). apply lookup_delete_Some in Hd as [Hne Hd].
    exists d, k. rewrite lookup_insert_ne by done. done.
  - rewrite Hst, mi_count0, Hlen. unfold wrap. rewrite Zminus_mod_idemp_l. f_equal. lia.
  - intros q d [Hq _]%elem_of_difference [_ Hd]%lookup_delete_Some. by eapply mi_reg0.
  - intros q d [_ Hd]%lookup_delete_Some. by apply (mi_active0 q).
  - intros q d [_ Hd]%lookup_delete_Some Hi _.
    destruct (mi_idle0 q d Hd Hi) as (? & ? & Hns & ?); [done|]. split_and!; try done; [set_solver|].
    intros Hq. by apply Hns, Hse.
  - intros q d gc [_ Hd]%lookup_delete_Some. by apply (mi_config0 q d gc).
Qed.

Lemma count_active m n (s : main_stats_st) :
  active_clients (count_minutes m (count_mtu n s)) = active_clients s.
Proof.
  assert (active_clients (count_mtu n s) = active_clients s) as <-.
  { unfold count_mtu. by destruct (_ || _); cbn; destruct (_ || _). }
  unfold count_minutes. by destruct (0 <? m).
Qed.

Lemma update_main_stats_active t v c st : active_clients (update_main_stats t v c st) = active_clients st.
Proof.
  unfold update_main_stats. set (s1 := count_closed _).
  assert (active_clients s1 = active_clients st) as <-.
  { unfold s1, count_closed, count_reason, maybe_reset. cbn.
    destruct (negb _ && _); by repeat (destruct (_ =? _); [done|]). }
  clearbody s1. cbv zeta. destruct (_ =? 0); [done|]. destruct (_ <? kbytes_in s1); [done|].
  destruct (_ <? kbytes_out s1); [done|]. by rewrite count_active.
Qed.

Lemma end_scripts_spec x s p c :
  ∃ l, end_scripts x s p c =
    Main (ps s) (proc_list s) (remove_from_script_list p (script_list s)).2 (ip_leases s) (ban_db s)
      (stats s) l.
Proof.
  unfold end_scripts. destruct (remove_from_script_list p (script_list s)) as [[pid|] l]; cbn [snd];
    [destruct (x_script_exit x =? 0)|destruct (bool_decide _)]; by eexists.
Qed.

(** A process disappears, or the main process exits because the security
    module does not answer. *)
Lemma remove_proc_spec x s R p c kill quit :
  main_inv None R s → proc_at s p = Some c →
  cwp (remove_proc x s p kill quit)
    (λ s', main_inv None (R ∖ {[p]}) s' ∧ proc_at s' p = None ∧ ban_db s' = ban_db s)
    (λ code, code = 1 ∧ x_close x = None).
Proof.
  intros Hinv Hc. unfold remove_proc. rewrite Hc. cbv zeta.
  set (s1 := if kill && _ && _ then _ else _).
  assert (ps s1 = ps s ∧ proc_list s1 = filter (λ q, q ≠ p) (proc_list s) ∧
    script_list s1 = script_list s ∧ ip_leases s1 = ip_leases s ∧ ban_db s1 = ban_db s ∧
    active_clients (stats s1) = u32 (active_clients (stats s) - 1)) as (H1 & H2 & H3 & H4 & H5 & H6)
    by (unfold s1; by case_match).
  clearbody s1.
  assert (cwp (if active_sid c && negb quit then session_close x s1 p c else Ok (c, s1))
    (λ '(c', s2), same_keys c c' ∧ leases c' = leases c ∧ ps s2 = ps s1 ∧ proc_list s2 = proc_list s1 ∧
      script_list s2 = script_list s1 ∧ ip_leases s2 = ip_leases s1 ∧ ban_db s2 = ban_db s1 ∧
      active_clients (stats s2) = active_clients (stats s1))
    (λ code, code = 1 ∧ x_close x = None)) as Hclose.
  { destruct (active_sid c) eqn:Ha; [destruct quit|]; [done| |done]. cbn [andb negb]. unfold session_close.
    destruct (x_close x) as [msg|]; [|done]. cbn [vhost].
    destruct (mi_active _ _ _ Hinv p c Hc Ha) as [[v Hv] _]. rewrite Hv. cbn.
    split_and!; try done. apply update_main_stats_active. }
  apply cwp_bind. eapply cwp_mono; [exact Hclose| |done].
  intros [c' s2] (Hk & Hl & K1 & K2 & K3 & K4 & K5 & K6).
  destruct (end_scripts_spec x s2 p c') as (l & ->). cbn [cwp ip_leases ps proc_list script_list].
  rewrite Hl, K4, H4. destruct (remove_ip_leases (ip_leases s) (leases c)) as [db pl] eqn:Hrl.
  cbn [cwp]. rewrite K1, H1, K2, H2, K3, H3, K5, H5, (proc_table_del_keys (ps s) p c c' Hk).
  split; [|split; [unfold proc_at; cbn; by rewrite lookup_delete_eq|done]].
  apply (main_inv_removed R s p c); try done; [cbn; by rewrite K6, H6|by rewrite Hrl].
Qed.

(** ** Steps *)

(** What a request for a session has achieved when the client is connected. *)
Definition granted x s R p (cookie : option (list Z)) (c' : proc_st) : Prop :=
  ∃ s1 c1 gc, cookie_ok x s s1 R p cookie ∧ proc_at s1 p = Some c1 ∧ same_core c1 c' ∧
    config c1 = Some gc ∧
    (max_same_clients gc = 0 ∨ Z.of_nat (others s1 p (username c1)) < max_same_clients gc).

Lemma auth_cookie_spec x s R p c cookie :
  main_inv None R s → main_ext_ok x s → proc_at s p = Some c → status c = PS_AUTH_INACTIVE →
  ∃ ret s' R' c', ('(ret, s) ← handle_auth_cookie_req x s p c cookie;
      '(ret, s) ← handle_cookie_auth_res x s p ret; Ok (if ret <? 0 then ret else 0, s)) = Ok (ret, s') ∧
    main_inv None R' s' ∧ proc_at s' p = Some c' ∧
    (status c' = PS_AUTH_COMPLETED → p ∈ R' ∧ granted x s R p cookie c').
Proof.
  intros Hinv Hx Hc Hst. destruct (mi_idle _ _ _ Hinv p c Hc Hst) as (HpR & _ & Hscr & _); [done|].
  destruct (handle_auth_cookie_req_spec x s R p c cookie) as
    (ret & s1 & R1 & -> & Hinv1 & (Hkl & Hkb & Hks) & [c1 Hc1] & Hret); [done..|]. run.
  assert (ret = 0 → is_Some (config c1)) as Hcfg.
  { intros ->. destruct Hret as [[? _]|(_ & _ & ck & d & d' & _ & _ & _ & Hd' & _ & Hses & _)]; [done|].
    rewrite Hc1 in Hd'. injection Hd' as <-. destruct Hses as (? & ? & ? & _ & _ & _ & _ & _ & -> & _). eauto. }
  destruct (handle_cookie_auth_res_spec x s1 R1 p c1 ret) as
    (ret2 & s2 & c2 & -> & Hinv2 & Hc2 & Hcore & _ & Hcomp);
    [done|by apply (main_ext_ok_frame x s)|done|unfold scripts; by rewrite Hks|done|]. run.
  eexists _, s2, R1, c2. split_and!; [done..|]. intros Hs2.
  destruct (Hcomp Hs2) as (-> & gc & Hgc & Hlim).
  destruct Hret as [[? _]|(_ & -> & Hck)]; [done|]. split; [set_solver|].
  by exists s1, c1, gc.
Qed.

Lemma handle_worker_commands_spec x cfg s R p c cmd :
  main_inv None R s → main_ext_ok x s → proc_at s p = Some c →
  (∀ a, cmd = WSessionInfo (Some a) →
     sockaddr_len (Z.of_nat (length a)) ∨ SOCKADDR_STORAGE_SIZE < Z.of_nat (length a)) →
  ∃ ret s' R', handle_worker_commands x cfg s p cmd = Ok (ret, s') ∧ main_inv None R' s' ∧
    is_Some (proc_at s' p).
Proof.
  intros Hinv Hx Hc Hin. unfold handle_worker_commands. rewrite Hc. destruct cmd as [r|str n|m|a|ck|].
  - eexists _, s, R. split_and!; [done..|by eexists].
  - pose proof (ban_add_str_inv (x_pton6 x) (x_ban_mem x) (x_ban_ok x) (ban_cfg cfg) (x_now x) (ban_db s)
      str n (mi_ban _ _ _ Hinv) (mx_ban _ _ Hx) (mx_pton6 _ _ Hx)) as Hb.
    destruct (add_str_ip_to_ban_list _ _ _ _ _ _ _ _) as [r db]. eexists _, _, R. split_and!; [done| |].
    + apply main_inv_log. by apply main_inv_ban.
    + by exists c.
  - destruct (bool_decide _); [|by eexists _, s, R; split_and!].
    eexists 0, _, R. split; [done|]. unfold set_tun_mtu.
    repeat case_match; try (by split; [|eexists]).
    split; [by apply (main_inv_set_same _ _ _ _ c)|by eexists; apply proc_at_set].
  - destruct (handle_session_info_spec x cfg s R p c a) as (s' & -> & Hinv' & Hp'); [done..|naive_solver|].
    run. by eexists 0, s', R.
  - destruct (bool_decide_reflect (status c = PS_AUTH_INACTIVE)); [|by eexists _, s, R; split_and!].
    destruct (auth_cookie_spec x s R p c ck) as (ret & s' & R' & c' & -> & Hinv' & Hc' & _); [done..|].
    eexists _, s', R'. split_and!; [done..|by eexists].
  - by eexists _, s, R; split_and!.
Qed.

Lemma new_proc_spec x s R mem n pid addr :
  main_inv None R s → Z.of_nat (length addr) = SOCKADDR_STORAGE_SIZE → 0 ≤ n ≤ SOCKADDR_STORAGE_SIZE →
  (∀ p, mem = Some p → ptr_ok p ∧ proc_at s p = None) →
  ∃ s', new_proc x s mem pid addr n = Ok (mem, s') ∧ main_inv None R s'.
Proof.
  intros Hinv Ha Hn Hm. unfold new_proc. destruct mem as [p|]; [|by eauto].
  destruct (Hm p eq_refl) as [Hp Hnone].
  destruct (memcpy_storage_spec (remote_addr zero_proc) addr n) as (a & -> & Hal & _); [done|lia|lia|]. run.
  set (c := {| zero_proc with remote_addr := a |}). eexists. split; [done|].
  assert (p ∉ R) as HpR.
  { intros [d Hd]%(proc_inv_live _ _ _ (mi_ps _ _ _ Hinv)). unfold proc_at in Hnone. congruence. }
  assert (p ∉ proc_list s) as Hpl by (rewrite (mi_elem _ _ _ Hinv), Hnone; by intros []).
  assert (p ∉ scripts s) as Hps.
  { intros [d Hd]%(mi_script _ _ _ Hinv). congruence. }
  destruct Hinv. unfold proc_at in *. split; cbn; unfold proc_at; cbn; try done.
  - apply proc_inv_new; [done..|]. split; try done; cbn; rewrite ?length_replicate; done.
  - by apply NoDup_cons.
  - intros q. rewrite elem_of_cons. destruct (decide (q = p)) as [->|Hne].
    + rewrite lookup_insert_eq. split; [by eauto|by left].
    + rewrite lookup_insert_ne by done. rewrite <- (mi_elem0 q). naive_solver.
  - intros q Hq. rewrite lookup_insert_ne by (intros <-; done). by apply mi_script0.
  - rewrite fmap_insert. by apply lease_inv_drop.
  - rewrite mi_count0. unfold wrap. rewrite Zplus_mod_idemp_l. f_equal. lia.
  - intros q d Hq. rewrite lookup_insert_ne by (intros <-; done). by apply mi_reg0.
  - intros q d. rewrite lookup_insert_Some. intros [[<- <-]|[_ Hd]]; [done|by apply (mi_active0 q)].
  - intros q d. rewrite lookup_insert_Some. intros [[<- <-]|[_ Hd]]; [done|by apply mi_idle0].
  - intros q d gc. rewrite lookup_insert_Some. intros [[<- <-]|[_ Hd]]; [done|by apply (mi_config0 q)].
Qed.

(** What can arrive: for live processes only, at memory that is not in use,
    and client addresses of workers that are IPv4 or IPv6 ones. *)
Definition input_ok s (i : main_input) : Prop :=
  match i with
  | InConnect cn =>
    Z.of_nat (length (cn_addr cn)) = SOCKADDR_STORAGE_SIZE ∧ 0 ≤ cn_len cn ≤ SOCKADDR_STORAGE_SIZE ∧
    ∀ p, cn_mem cn = Some p → ptr_ok p ∧ proc_at s p = None
  | InWorker p cmd =>
    is_Some (proc_at s p) ∧
    ∀ a, cmd = WSessionInfo (Some a) →
      sockaddr_len (Z.of_nat (length a)) ∨ SOCKADDR_STORAGE_SIZE < Z.of_nat (length a)
  | InScript p _ => p ∈ scripts s
  | InUdp u => udp_ext_ok u
  | InMaintenance => True
  end.

Lemma accept_client_spec x cfg s R cn :
  main_inv None R s → main_ext_ok x s → input_ok s (InConnect cn) →
  ∃ s', accept_client x cfg s cn = Ok s' ∧ main_inv None R s'.
Proof.
  intros Hinv Hx (Ha & Hn & Hm). unfold accept_client.
  case_match; [by eauto|]. case_match; [by eauto|].
  assert (∃ r db, (if negb (cn_unix cn) && negb (listen_proxy_proto cfg)
      then check_if_banned (x_ban_mem x) (x_ban_ok x) (ban_cfg cfg) (x_now x) (x_now x)
             (ban_db s) (sockaddr_of (cn_addr cn) (cn_len cn))
      else Ok (0, ban_db s)) = Ok (r, db) ∧ ban_ok db) as (r & db & -> & Hdb).
  { case_match; [|by eexists _, _; split; [done|apply Hinv]].
    apply ban_check_inv; [apply Hinv|apply Hx|done]. }
  run. pose proof (main_inv_ban None R s db Hdb Hinv) as Hinv1. case_match; [by eauto|].
  destruct (new_proc_spec x {| s with ban_db := db |} R (cn_mem cn) (cn_len cn) (cn_pid cn) (cn_addr cn))
    as (s' & -> & Hinv'); [done..|]. run.
  eexists. split; [done|]. case_match; [done|]. by apply main_inv_log.
Qed.

Lemma main_step_spec x cfg s R i :
  main_inv None R s → main_ext_ok x s → input_ok s i →
  cwp (main_step x cfg s i) (λ s', ∃ R', main_inv None R' s') (λ code, code = 1 ∧ x_close x = None).
Proof.
  intros Hinv Hx Hi. destruct i as [cn|p cmd|p code|u|]; cbn [main_step].
  - by destruct (accept_client_spec x cfg s R cn) as (s' & -> & ?); [done..|exists R].
  - destruct Hi as [[c Hc] Hi]. unfold cmd_watcher_cb.
    destruct (handle_worker_commands_spec x cfg s R p c cmd) as (ret & s' & R' & -> & Hinv' & [c' Hc']);
      [done..|]. run. destruct (ret <? 0); [|by exists R'].
    eapply cwp_mono; [by apply (remove_proc_spec x s' R' p c')|naive_solver|done].
  - destruct (mi_script _ _ _ Hinv p Hi) as [c Hc]. unfold script_child_watcher_cb. rewrite Hc.
    set (s1 := {| s with script_list := _ |}).
    destruct (remove_script_spec p (script_list s) (mi_script_nodup _ _ _ Hinv)) as [Hsn Hse].
    assert (status c ≠ PS_AUTH_INACTIVE) as Hst.
    { intros Hst. by destruct (mi_idle _ _ _ Hinv p c Hc Hst) as (_ & _ & ? & _). }
    assert (main_inv None R s1) as Hinv1.
    { destruct Hinv. split; try done; unfold scripts in *; cbn.
      - intros q [Hq _]%Hse. by apply mi_script0.
      - intros q d Hd Hi0 _. destruct (mi_idle0 q d Hd Hi0) as (? & ? & Hns & ?); [done|].
        split_and!; try done. intros [Hq _]%Hse. done. }
    pose proof (handle_script_exit_spec x s1 R p c code Hinv1 Hc Hst) as Hexit.
    destruct (handle_script_exit x s1 p c code) as [ret s2].
    destruct Hexit as (Hinv2 & c2 & Hc2 & _). destruct (ret <? 0); [|by exists R].
    eapply cwp_mono; [by apply (remove_proc_spec x s2 R p c2)|naive_solver|done].
  - destruct (forward_udp_spec u (udp_cfg cfg) (ps s) R (mi_ps _ _ _ Hinv) Hi)
      as (o & t & -> & Hp & Ht & _). run. exists R.
    assert (main_inv None R {| s with ps := t |}) as Hinv1.
    { destruct Ht as [Ht|(p & c & c' & Hc & _ & (a & n & da & dn & tm & ->) & Ht & _)].
      - apply (main_inv_tables None R R); [done..|]. set_solver.
      - by eapply (main_inv_addrs None R s t p c). }
    destruct o; [by apply main_inv_log|done].
  - exists R. apply main_inv_ban; [|done]. apply sweep_spec, Hinv.
Qed.
End main_spec.
