(* ===== verification/MainTheorems.v ===== *)
(** * The theorems about the main process

    The reachable states of the main process, its exchange with the security
    module when a session is opened, and the properties of both together. *)

From stdpp Require Import relations.
From S2P Require Import Prelude CString Htable Store SecModData SecModDb SecModAuth.
From S2P Require Import SecModDbSpec SecModMachine SecModRefine SecModSafety SecModTheorems.
From S2P Require Import IpUtil NetText Ban IpLease ProcTable MainUdp MainProc MainProcSpec.

(** ** The exchange with the security module *)

Section exchange.
Context {T : Type} `{HT : HTable T, Env : SecModEnv}.
Implicit Types (sec : sec_mod_st T) (xs : ext) (e : client_entry_st).

(** The four bytes of the seed. *)
Definition seed_bytes (seed : Z) : list Z :=
  [u8 seed; u8 (Z.shiftr seed 8); u8 (Z.shiftr seed 16); u8 (Z.shiftr seed 24)].

(** What the security module did while it handled a command, the latest
    first. *)
Definition done_since sec sec' : list event := take (length (log sec') - length (log sec)) (log sec').

(** The message the main process receives: the reply sent, with the group
    configuration [g] the security module attached to it. *)
Definition secm_answer (g : group_cfg_msg) sec sec' : option SecmSessionReplyMsg :=
  match done_since sec sec' with
  | EvSessionReply rep k user group ip tls vh seed :: _ =>
    Some {| sr_reply := rep; sr_username := Some user; sr_groupname := Some group;
            sr_config := Some g; sr_ipv4_seed := seed_bytes seed; sr_ip := Some ip; sr_vhost := vh |}
  | _ => None
  end.

(** A reply that grants a session names the user of an authenticated client
    with this SID. *)
Definition ok_reply_for sec xs (k : list Z) (ev : event) : Prop :=
  match ev with
  | EvSessionReply AUTH_REP_OK _ user _ _ _ _ _ =>
    ∃ p e, lookup_entry sec k = Some (p, e) ∧ SecModData.status e = PS_AUTH_COMPLETED ∧
      IS_CLIENT_ENTRY_EXPIRED e (now xs 0) = false ∧ user = SecModData.username (acct_info e)
  | _ => True
  end.

Lemma failed_reply_events xs sec sec0 k l :
  log sec = l ++ log sec0 → Forall (ok_reply_for sec0 xs k) l →
  ∃ l', log (send_failed_session_open_reply xs sec).2 = l' ++ log sec0 ∧ Forall (ok_reply_for sec0 xs k) l'.
Proof.
  intros Hl Hf. unfold send_failed_session_open_reply. case_match; [|by exists l].
  exists (EvSessionReply AUTH_REP_FAILED [] "" "" "" false None 0 :: l). simpl. rewrite Hl.
  split; [done|]. by constructor.
Qed.

Lemma open_reply_events xs sec sec0 k p q e e' seed l :
  log sec = l ++ log sec0 → Forall (ok_reply_for sec0 xs k) l →
  lookup_entry sec0 k = Some (q, e') → SecModData.status e' = PS_AUTH_COMPLETED →
  IS_CLIENT_ENTRY_EXPIRED e' (now xs 0) = false →
  SecModData.username (acct_info e) = SecModData.username (acct_info e') →
  ∃ l', log (session_open_reply xs sec p e seed).2 = l' ++ log sec0 ∧ Forall (ok_reply_for sec0 xs k) l'.
Proof.
  intros Hl Hf Hlk Hst Hexp Hu. unfold session_open_reply. case_match; [|by exists l]. cbv zeta.
  case_match; [by eapply failed_reply_events|].
  match goal with |- context [SecModData.emit ?ev sec] => exists (ev :: l) end.
  assert (Forall (ok_reply_for sec0 xs k) [EvSessionReply AUTH_REP_OK (SecModData.sid e)
    (SecModData.username (acct_info e)) (SecModData.groupname (acct_info e)) (remote_ip (acct_info e))
    (tls_auth_ok e) (vhost_name (SecModData.vhost e)) seed]) as Hev.
  { constructor; [|done]. exists q, e'. split_and!; [done..|]. done. }
  split; [rewrite <- app_comm_cons, <- Hl; by destruct (send xs 1 <? 0)|]. apply Forall_cons. split; [|done].
  by apply (Forall_cons_1 _ _ _ Hev).
Qed.

Lemma session_open_events xs sec req :
  ∃ l, log (handle_secm_session_open_cmd xs sec req).2 = l ++ log sec ∧
    Forall (ok_reply_for sec xs (so_sid req)) l.
Proof.
  unfold handle_secm_session_open_cmd.
  assert (log sec = [] ++ log sec ∧ Forall (ok_reply_for sec xs (so_sid req)) []) as [H0 H1] by done.
  destruct (negb (sid_ok _)); [by eapply failed_reply_events|].
  destruct (lookup_entry sec (so_sid req)) as [[p e]|] eqn:Hl; [|by eapply failed_reply_events].
  destruct (bool_decide _) eqn:Hst; cbn [negb]; [|by eapply failed_reply_events]. cbv zeta.
  apply bool_decide_eq_true in Hst.
  destruct (IS_CLIENT_ENTRY_EXPIRED e (now xs 0)) eqn:Hexp; [by eapply failed_reply_events|].
  set (e1 := SecModAuth.set_addrs _ _ _). set (sec1 := if bool_decide _ then _ else _).
  assert (∃ l, log sec1 = l ++ log sec ∧ Forall (ok_reply_for sec xs (so_sid req)) l) as (l & Hl1 & Hf).
  { unfold sec1. case_match; [|by exists []]. exists [EvAcctOpen (so_sid req)]. split; [done|].
    by constructor. }
  destruct (match acct_open _ _ with Some _ => _ | None => _ end); [by eapply failed_reply_events|].
  repeat case_match; [by eapply open_reply_events..|by exists l].
Qed.

(** What the main process receives is about the session it asked for. *)
Lemma secm_answer_ok xs sec req g msg :
  secm_answer g sec (handle_secm_session_open_cmd xs sec req).2 = Some msg → sr_reply msg = AUTH_REP_OK →
  ∃ p e, lookup_entry sec (so_sid req) = Some (p, e) ∧ SecModData.status e = PS_AUTH_COMPLETED ∧
    IS_CLIENT_ENTRY_EXPIRED e (now xs 0) = false ∧
    sr_username msg = Some (SecModData.username (acct_info e)).
Proof.
  destruct (session_open_events xs sec req) as (l & Hl & Hf). unfold secm_answer, done_since.
  rewrite Hl, length_app. replace (length l + length (log sec) - length (log sec))%nat with (length l) by lia.
  rewrite take_app_length. destruct l as [|ev l]; [done|]. apply Forall_cons in Hf as [Hev _].
  destruct ev; try done. intros [= <-]; simpl. intros ->.
  destruct Hev as (p & e & ? & ? & ? & ->). by exists p, e.
Qed.
End exchange.

(** ** Reachable states *)

Section main_theorems.
Context {T : Type} `{HT : HTable T, HS : !HTableSpec T, Env : SecModEnv}.
Implicit Types (s : main_server_st T) (c : proc_st) (p q : ptr) (x : main_ext) (cfg : main_config).

(** The states after any sequence of connections, requests of workers, ends
    of scripts, packets and maintenance. *)
Inductive main_reachable cfg : main_server_st T → Prop :=
| main_reach_init st : active_clients st = 0 → main_reachable cfg (main_init st)
| main_reach_step s s' x i :
    main_reachable cfg s → main_ext_ok x s → input_ok s i → main_step x cfg s i = Ok s' →
    main_reachable cfg s'.

Lemma main_init_inv st : active_clients st = 0 → main_inv None ∅ (main_init st : main_server_st T).
Proof.
  intros Hst. split; cbn; unfold proc_at; cbn; try done.
  - apply proc_inv_init.
  - apply NoDup_nil_2.
  - intros q. rewrite lookup_empty. split; [set_solver|by intros []].
  - apply NoDup_nil_2.
  - set_solver.
  - rewrite fmap_empty. apply lease_reachable_inv, lr_init.
  - apply store_init_ok.
Qed.

Lemma main_reachable_inv cfg s : main_reachable cfg s → ∃ R, main_inv None R s.
Proof.
  induction 1 as [st Hst|s s' x i _ [R IH] Hx Hi Hs]; [eexists; by apply main_init_inv|].
  pose proof (main_step_spec x cfg s R i IH Hx Hi) as H. by rewrite Hs in H.
Qed.

(** C10: In a reachable state the main process handles connections, requests of
    workers, ends of scripts, UDP packets and maintenance without an access to
    a process that is gone, to a missing configuration or out of the bounds of
    an address or a packet, on two conditions on what it is sent: the address
    in a worker's session info has the size of an IPv4 or IPv6 address or is
    too long and refused (a shorter one is read beyond its end, see
    [empty_address_is_read]), and a UDP packet does not fill the buffer (one
    that does can be read beyond, see [full_hello_overread]).  It exits only
    when the security module does not answer the close of a session. *)
Theorem main_process_safe cfg s x i :
  main_reachable cfg s → main_ext_ok x s → input_ok s i →
  match main_step x cfg s i with
  | Ok _ => True
  | Err code => code = 1 ∧ x_close x = None
  | UB | Fuel => False
  end.
Proof.
  intros [R Hinv]%main_reachable_inv Hx Hi. pose proof (main_step_spec x cfg s R i Hinv Hx Hi) as H.
  by destruct (main_step x cfg s i).
Qed.

Lemma tab_live f (m : gmap ptr proc_st) (t : T) M h p :
  tab f m t M → p ∈ htable_probe h t → is_Some (m !! p).
Proof.
  intros [Hr Hk] Hp. destruct (rep_probe_sound t M h p Hr Hp) as [k HM].
  destruct (Hk p k HM) as (c & Hc & _). eauto.
Qed.

(** C19: In every reachable state the four hash tables, the list of processes
    and the list of scripts hold live processes only, the list of processes
    holds each of them once, and their number is the number of clients that
    is compared with the limit. *)
Theorem main_pointers_live cfg s :
  main_reachable cfg s →
  (∀ t h p, t ∈ [db_ip (proc_table (ps s)); db_dtls_ip (proc_table (ps s));
                 db_dtls_id (proc_table (ps s)); db_sid (proc_table (ps s))] →
     p ∈ htable_probe h t → is_Some (proc_at s p)) ∧
  (∀ p, p ∈ (script_list s).*1 → is_Some (proc_at s p)) ∧
  NoDup (proc_list s) ∧ (∀ p, p ∈ proc_list s ↔ is_Some (proc_at s p)) ∧
  active_clients (stats s) = u32 (Z.of_nat (length (proc_list s))).
Proof.
  intros [R Hinv]%main_reachable_inv. split_and!; [|apply Hinv..].
  intros t h p Ht Hp. destruct (mi_ps _ _ _ Hinv) as [_ (M1 & H1 & _) (M2 & H2 & _) (M3 & H3 & _) (M4 & H4 & _)].
  unfold proc_at. rewrite !elem_of_cons in Ht. destruct Ht as [->|[->|[->|[->|Ht]]]];
    [eapply (tab_live _ _ _ _ h p); [|exact Hp]; eassumption..|set_solver].
Qed.

(** C20: No two clients of the main process have the same address: in every
    reachable state two recorded leases of processes differ in their IPv4
    address or their IPv6 subnet, also while a session is taken over. *)
Theorem client_addresses_distinct cfg s p q v4 v4' a b l l' :
  main_reachable cfg s →
  holds (leases <$> procs (ps s)) p v4 a l → holds (leases <$> procs (ps s)) q v4' b l' →
  (p, v4) ≠ (q, v4') → sig l ≠ sig l'.
Proof.
  intros [R Hinv]%main_reachable_inv Hp Hq Hne Hs. pose proof (mi_leases _ _ _ Hinv) as Hl.
  destruct (li_rec _ _ Hl _ _ _ _ Hp) as [Ha _], (li_rec _ _ Hl _ _ _ _ Hq) as [Hb _].
  assert (a = b) as <- by (by eapply (st_inj _ _ _ (li_ok _ _ Hl))).
  destruct (li_owner _ _ Hl _ _ _ _ _ _ _ Hp Hq) as [-> ->]. done.
Qed.

(** C5: A worker's client is connected with a cookie only if the security
    module has an authenticated session with this SID that has not expired
    (and has seen the certificate its method asks for); the client is the user
    of that session, and an earlier connection that has the session is of the
    same user. *)
Theorem cookie_needs_authentication cfg s x p c ck vs d sec xs g ret s' c' :
  main_reachable cfg s → main_ext_ok x s → reachable vs d sec →
  proc_at s p = Some c → status c = PS_AUTH_INACTIVE →
  x_reply x = secm_answer g sec (handle_secm_session_open_cmd xs sec
                {| so_sid := ck; so_ipv4 := None; so_ipv6 := None |}).2 →
  handle_worker_commands x cfg s p (WAuthCookie (Some ck)) = Ok (ret, s') →
  proc_at s' p = Some c' → status c' = PS_AUTH_COMPLETED →
  ∃ e, db sec !! ck = Some e ∧ SecModData.status e = PS_AUTH_COMPLETED ∧
    IS_CLIENT_ENTRY_EXPIRED e (now xs 0) = false ∧ cert_ok e ∧
    username c' = strlcpy MAX_USERNAME_SIZE (SecModData.username (acct_info e)) ∧ sid c' = ck ∧
    ∀ q, proc_search_sid (ps s) ck = Some q →
      ∃ r old, proc_at s r = Some old ∧ sid old = ck ∧ username old = username c'.
Proof.
  intros [R Hinv]%main_reachable_inv Hx Hsec Hc Hst Hreply Hcmd Hc' Hcomp.
  unfold handle_worker_commands in Hcmd. rewrite Hc, bool_decide_true in Hcmd by done.
  destruct (auth_cookie_spec x s R p c (Some ck)) as (ret2 & s2 & R2 & c2 & Heq & _ & Hc2 & Hgr); [done..|].
  rewrite Heq in Hcmd. injection Hcmd as -> ->. rewrite Hc' in Hc2. injection Hc2 as <-.
  destruct (Hgr Hcomp) as [_ (s1 & c1 & gc & Hck & Hc1 & (Hu & Hsid & _) & _)].
  destruct Hck as (k & c0 & c1' & [= <-] & Hlen & Hc0 & Hc1' & Hs1 & Hses & Hre).
  rewrite Hc1 in Hc1'. injection Hc1' as <-.
  destruct Hses as (msg & user & g' & Hmsg & Hok & Huser & _ & Hname & _). rewrite Hmsg in Hreply.
  destruct (secm_answer_ok xs sec _ g msg (eq_sym Hreply) Hok) as (ep & e & Hl & Hes & Hexp & Hue).
  destruct (reachable_inv _ _ _ Hsec) as [Hdb Hei].
  assert (db sec !! ck = Some e) as He by (rewrite lookup_entry_db by done; cbn [so_sid] in Hl; by rewrite Hl).
  exists e. split_and!; try done.
  - by apply (ei_cert _ _ (Hei _ _ He)).
  - rewrite Hu, Hname. congruence.
  - by rewrite Hsid.
  - intros q Hq. pose proof (search_sid_spec (ps s) R ck (mi_ps _ _ _ Hinv) Hlen) as Hs. rewrite Hq in Hs.
    destruct Hs as (old & Ho & HqR & Hso).
    destruct Hre as [[Hno _]|(r & old' & HrR & Hr & Hrs & Hru & _)].
    + by destruct (Hno q old HqR Ho).
    + exists r, old'. split_and!; try done. congruence.
Qed.

(** The limit on connections of one user is exact: the check denies a
    client if and only if a limit is configured and at least so many other
    processes that were not told to end belong to the same user. *)
Theorem user_limit_exact cfg s p c gc :
  main_reachable cfg s → proc_at s p = Some c → config c = Some gc →
  check_multiple_users s p c =
    Ok (if (0 <? max_same_clients gc) &&
           (max_same_clients gc <=? Z.of_nat (others s p (username c))) then -1 else 0).
Proof.
  intros [R Hinv]%main_reachable_inv Hc Hg. apply (check_multiple_users_spec s None R); [done..|].
  by apply (mi_config _ _ _ Hinv p c gc).
Qed.

(** A UDP packet is handled without reading beyond the buffer and is given
    to a process only if it is a client hello with the DTLS session ID of the
    process, or another packet from one of the addresses of the process; a
    process is given a socket at most once in [UDP_FD_RESEND_TIME] seconds. *)
Theorem udp_goes_to_owner cfg s u :
  main_reachable cfg s → udp_ext_ok u →
  ∃ o t, forward_udp_to_owner u (udp_cfg cfg) (ps s) = Ok (o, t) ∧
    ∀ p, o = Some p → ∃ c, proc_at s p = Some c ∧ owner u c ∧
      UDP_FD_RESEND_TIME < u_now u - udp_fd_receive_time c.
Proof.
  intros [R Hinv]%main_reachable_inv Hu.
  destruct (forward_udp_spec u (udp_cfg cfg) (ps s) R (mi_ps _ _ _ Hinv) Hu)
    as (o & t & -> & _ & _ & Hsoon & Hown). exists o, t. split; [done|]. intros p Hp.
  destruct (Hsoon p Hp) as (c & Hc & Ht), (Hown p Hp) as (c' & Hc' & _ & Ho).
  exists c. split_and!; [done| |done]. congruence.
Qed.

(** A worker makes the main process read through a null pointer by sending
    a session info message with an empty client address, which the size check
    of the handler lets pass. *)
Theorem empty_address_is_read cfg s x p c :
  listen_proxy_proto cfg = true → proc_at s p = Some c → remote_addr_len c ≠ 0 →
  handle_worker_commands x cfg s p (WSessionInfo (Some [])) = UB.
Proof.
  intros Hcfg Hc Hl. unfold handle_worker_commands, handle_session_info, proc_table_update_ip.
  rewrite Hc, Hcfg. cbn [negb length]. change (Z.of_nat 0) with 0. cbn [Z.ltb Z.compare].
  destruct (Z.eqb_spec 0 (remote_addr_len c)); [congruence|]. done.
Qed.
End main_theorems.

(** The ID of a client hello is found without reading beyond the buffer,
    in a bounded number of steps, for every packet shorter than the buffer;
    the ID lies in the buffer and is shorter than 256 bytes. *)
Theorem get_session_id_bounds psk buffer n :
  bytes buffer → Z.of_nat (length buffer) = MAX_MSG_SIZE → 0 ≤ n < MAX_MSG_SIZE →
  ∃ r, get_session_id psk buffer n = Ok r ∧
    ∀ id id_size, r = Some (id, id_size) →
      0 ≤ id_size < 256 ∧ 0 ≤ id ∧ id + id_size ≤ Z.of_nat (length buffer).
Proof. apply get_session_id_spec. Qed.

(** ** A concrete main process

    Two connections from the same address present the cookie of the session
    the security module of [Demo] has authenticated. *)
Module MainWitnesses.
Import SecModTheorems.Demo.

Definition the_vhost : main_vhost_st := {|
  stats_reset_time := 0; def_max_same_clients := 2; def_deny_roaming := true;
  def_ipv4_net := Some "192.168.1.0"%string; def_ipv4_netmask := Some "255.255.255.0"%string;
  def_ipv6_net := None; def_ipv6_prefix := 0; def_ipv6_subnet_prefix := 0 |}.

Definition group : group_cfg_msg := {|
  g_max_same_clients := None; g_deny_roaming := None; g_ipv4_net := None; g_ipv4_netmask := None;
  g_explicit_ipv4 := None; g_ipv6_net := None; g_ipv6_prefix := None; g_ipv6_subnet_prefix := None;
  g_explicit_ipv6 := None |}.

(** The security module is asked in its state [s2], where the user is
    authenticated, or [s3]. *)
Definition ask (sec : sec_mod_st rtable) : option SecmSessionReplyMsg :=
  secm_answer group sec (handle_secm_session_open_cmd (SecModTheorems.Demo.answers (heap 4) 1010) sec
    {| so_sid := cookie; so_ipv4 := None; so_ipv6 := None |}).2.

(** The reply for another session, of another user. *)
Definition other_cookie : list Z := repeat 8 32.
Definition other : option SecmSessionReplyMsg := Some {|
  sr_reply := AUTH_REP_OK; sr_username := Some "bob"%string; sr_groupname := None;
  sr_config := Some group; sr_ipv4_seed := [9; 9; 9; 9]; sr_ip := Some "10.0.0.1"%string;
  sr_vhost := None |}.

Definition ans (n : positive) (reply : option SecmSessionReplyMsg) : main_ext := {|
  x_now := 1010; x_rnd := Some (replicate 32 (Z.pos n mod 256)); x_reply := reply;
  x_close := Some (CliStatsRep 0 0 None); x_find_vhost _ := the_vhost; x_ok _ := true;
  x_lease := IpLease.LeaseWitnesses.answers (heap (2 * n)) (heap (2 * n + 1));
  x_tun := (7, "vpns0"%string); x_network := 0; x_script := NoScript; x_script_mem := true;
  x_script_exit := 0; x_send := 0; x_iroutes := 0; x_set_mtu := 0;
  x_ntop6 _ := ""%string; x_pton6 _ := None; x_ban_mem := None; x_ban_ok := true |}.

Definition conf : main_config := {|
  max_clients := 10; listen_proxy_proto := true; ban_cfg := BanConfig 0 0 0 0;
  udp_cfg := UdpConfig true false |}.

Definition stats0 : main_stats_st := MainStats 0 0 0 0 0 0 0 0 0 0 0 0 0 0 0 0.

(** 10.0.0.1, the address of the session. *)
Definition sa : list Z := [2; 0; 0; 80; 10; 0; 0; 1] ++ replicate 120 0.
Definition conn (n : positive) : connection := Connection (Some (heap n)) (Z.pos n) sa 16 false true true.

Definition next (x : main_ext) (s : main_server_st rtable) (i : main_input) : main_server_st rtable :=
  match main_step x conf s i with Ok s' => s' | _ => s end.

Definition auth (n : positive) (ck : list Z) : main_input := InWorker (heap n) (WAuthCookie (Some ck)).

(** The first client connects and authenticates, then the second one with the
    same cookie and a third one with another. *)
Definition m0 : main_server_st rtable := main_init stats0.
Definition m1 := next (ans 1 (ask s2)) m0 (InConnect (conn 1)).
Definition m2 := next (ans 1 (ask s2)) m1 (auth 1 cookie).
Definition m3 := next (ans 2 (ask s3)) m2 (InConnect (conn 2)).
Definition m4 := next (ans 2 (ask s3)) m3 (auth 2 cookie).
Definition m5 := next (ans 3 other) m4 (InConnect (conn 3)).
Definition m6 := next (ans 3 other) m5 (auth 3 other_cookie).

Lemma ans_lease n gc : cfg_ok gc → lease_ext_ok (x_lease (ans n other)) (lease_cfg gc).
Proof.
  intros (Hl & Hb & _). split; [| | |done]; cbn.
  - intros k. split; [done|]. pose proof (Z.mod_pos_bound (Z.of_nat k) 256). repeat constructor; lia.
  - intros l. split; [done|]. repeat constructor; cbn; lia.
  - intros t a [= <-]. split; [done|]. repeat constructor; lia.
Qed.

Lemma ans_ok n reply (s : main_server_st rtable) :
  reply ∈ [ask s2; ask s3; other] →
  lease_fresh (x_lease (ans n other)) (ip_leases s) → main_ext_ok (ans n reply) s.
Proof.
  intros Hr Hf. split; try done.
  - by intros id [= <-].
  - intros msg g Hmsg Hg. cbn [x_reply ans] in Hmsg. subst reply.
    assert (sr_config msg = Some group ∧ length (sr_ipv4_seed msg) = 4%nat ∧ bytes (sr_ipv4_seed msg))
      as (Hg' & Hl & Hb).
    { rewrite !elem_of_cons in Hr. destruct Hr as [Hr|[Hr|[Hr|Hr]]]; [..|set_solver];
        vm_compute in Hr; injection Hr as ->; (split; [done|]); (split; [done|]); repeat constructor; lia. }
    rewrite Hg in Hg'. injection Hg' as ->. split; [done|]. split; [done|]. done.
  - intros gc. apply (ans_lease n).
Qed.

Lemma conn_ok n (s : main_server_st rtable) : ptr_ok (heap n) → proc_at s (heap n) = None → input_ok s (InConnect (conn n)).
Proof. intros Hp Hn. split; [done|]. split; [done|]. intros p Hq. apply (inj Some) in Hq as <-. done. Qed.

Lemma auth_ok n ck (s : main_server_st rtable) : is_Some (proc_at s (heap n)) → input_ok s (auth n ck).
Proof. intros Hn. by split. Qed.

Lemma reach_m2 : main_reachable conf m2.
Proof.
  eapply (main_reach_step conf m1 m2 (ans 1 (ask s2)) (auth 1 cookie)).
  - eapply (main_reach_step conf m0 m1 (ans 1 (ask s2)) (InConnect (conn 1))).
    + by apply main_reach_init.
    + apply ans_ok; [set_solver|]. split_and!; by intros q [= <-].
    + by apply conn_ok.
    + by vm_compute.
  - apply ans_ok; [set_solver|]. split_and!; by intros q [= <-].
  - apply auth_ok. vm_compute. by eexists.
  - by vm_compute.
Qed.

Lemma reach_m3 : main_reachable conf m3.
Proof.
  eapply (main_reach_step conf m2 m3 (ans 2 (ask s3)) (InConnect (conn 2)) reach_m2);
    [|by apply conn_ok; [done|vm_compute]|by vm_compute].
  apply ans_ok; [set_solver|]. split_and!; intros q [= <-]; [split; [done|by vm_compute]..|done].
Qed.

Lemma reach_m4 : main_reachable conf m4.
Proof.
  eapply (main_reach_step conf m3 m4 (ans 2 (ask s3)) (auth 2 cookie) reach_m3).
  - apply ans_ok; [set_solver|]. split_and!; intros q [= <-]; [split; [done|by vm_compute]..|done].
  - apply auth_ok. vm_compute. by eexists.
  - by vm_compute.
Qed.

Lemma reach_m6 : main_reachable conf m6.
Proof.
  eapply (main_reach_step conf m5 m6 (ans 3 other) (auth 3 other_cookie)).
  - eapply (main_reach_step conf m4 m5 (ans 3 other) (InConnect (conn 3)) reach_m4).
    + apply ans_ok; [set_solver|]. split_and!; intros q [= <-]; [split; [done|by vm_compute]..|done].
    + by apply conn_ok; [done|vm_compute].
    + by vm_compute.
  - apply ans_ok; [set_solver|]. split_and!; intros q [= <-]; [split; [done|by vm_compute]..|done].
  - apply auth_ok. vm_compute. by eexists.
  - by vm_compute.
Qed.

(** The second client takes the first one's lease. *)
Definition session_lease : ip_lease_st :=
  Lease [192; 168; 1; 4] [192; 168; 1; 4] [192; 168; 1; 1] 0 true.
Definition other_lease : ip_lease_st :=
  Lease [192; 168; 1; 9] [192; 168; 1; 9] [192; 168; 1; 1] 0 true.

Lemma main_safe_witness :
  match main_step (ans 2 (ask s3)) conf m3 (auth 2 cookie) with
  | Ok _ => True
  | Err code => code = 1 ∧ x_close (ans 2 (ask s3)) = None
  | UB | Fuel => False
  end.
Proof.
  apply (main_process_safe conf m3 (ans 2 (ask s3)) (auth 2 cookie) reach_m3).
  - apply ans_ok; [set_solver|]. split_and!; intros q [= <-]; [split; [done|by vm_compute]..|done].
  - apply auth_ok. vm_compute. by eexists.
Defined.

Lemma main_live_witness : NoDup (proc_list m6) ∧ is_Some (proc_at m6 (heap 3)).
Proof.
  destruct (main_pointers_live conf m6 reach_m6) as (_ & _ & Hnd & Hel & _). split; [exact Hnd|].
  apply Hel. vm_compute. by left.
Defined.

Lemma distinct_witness : sig session_lease ≠ sig other_lease.
Proof.
  apply (client_addresses_distinct conf m6 (heap 2) (heap 3) true true (heap 2) (heap 6));
    [exact reach_m6| | |done]; by eexists _, _; vm_compute.
Defined.

Lemma cookie_witness :
  ∃ e, db s3 !! cookie = Some e ∧ SecModData.username (acct_info e) = "alice"%string.
Proof.
  destruct (cookie_needs_authentication conf m3 (ans 2 (ask s3)) (heap 2) (default zero_proc (proc_at m3 (heap 2)))
    cookie [] host s3 (SecModTheorems.Demo.answers (heap 4) 1010) group 0 m4
    (default zero_proc (proc_at m4 (heap 2)))) as (e & He & _ & _ & _ & Hu & _).
  - exact reach_m3.
  - apply ans_ok; [set_solver|]. split_and!; intros q [= <-]; [split; [done|by vm_compute]..|done].
  - exact reach_s3.
  - by vm_compute.
  - by vm_compute.
  - done.
  - by vm_compute.
  - by vm_compute.
  - by vm_compute.
  - exists e. split; [done|]. assert (Some e = db s3 !! cookie) as Hs by done. vm_compute in Hs.
    injection Hs as ->. done.
Defined.

Lemma user_limit_witness :
  check_multiple_users m4 (heap 2) (default zero_proc (proc_at m4 (heap 2))) = Ok 0.
Proof.
  rewrite (user_limit_exact conf m4 (heap 2) (default zero_proc (proc_at m4 (heap 2)))
    (default (apply_default_config the_vhost [] group) (config (default zero_proc (proc_at m4 (heap 2))))));
    [by vm_compute|exact reach_m4|by vm_compute|by vm_compute].
Defined.

(** A packet that is no client hello, from the address of the clients. *)
Definition packet : udp_ext := {|
  u_ret := 100; u_buffer := [23; 254; 253] ++ replicate (Z.to_nat 16381) 0; u_addr := sa; u_addr_size := 16;
  u_now := 2000; u_socket := true; u_connect := true; u_send := 0; u_ok := true |}.

Lemma packet_ok : udp_ext_ok packet.
Proof.
  split; try done. cbn [u_buffer packet].
  apply bytes_app. split; [repeat constructor; lia|]. apply Forall_replicate. lia.
Qed.

Lemma udp_witness :
  ∃ p t, forward_udp_to_owner packet (udp_cfg conf) (ps m2) = Ok (Some p, t) ∧
    ∃ c, proc_at m2 p = Some c ∧ owner packet c.
Proof.
  destruct (udp_goes_to_owner conf m2 packet reach_m2 packet_ok) as (o & t & He & Ho).
  assert (o = Some (heap 1)) as ->.
  { assert (match forward_udp_to_owner packet (udp_cfg conf) (ps m2) with
            | Ok (o, _) => bool_decide (o = Some (heap 1)) | _ => false end = true) as H by by vm_compute.
    rewrite He in H. by apply bool_decide_eq_true in H. }
  destruct (Ho (heap 1) eq_refl) as (c & Hc & Hown & _). exists (heap 1), t. split; [exact He|].
  exists c. by split.
Defined.

Lemma empty_address_witness :
  handle_worker_commands (ans 1 other) conf m2 (heap 1) (WSessionInfo (Some [])) = UB.
Proof.
  apply (empty_address_is_read conf m2 (ans 1 other) (heap 1) (default zero_proc (proc_at m2 (heap 1))));
    by vm_compute.
Defined.

Lemma session_id_witness :
  ∃ r, get_session_id true (u_buffer packet) 200 = Ok r ∧
    ∀ id id_size, r = Some (id, id_size) →
      0 ≤ id_size < 256 ∧ 0 ≤ id ∧ id + id_size ≤ Z.of_nat (length (u_buffer packet)).
Proof. apply (get_session_id_bounds true (u_buffer packet) 200); [apply packet_ok..|done]. Defined.

(** A hello that fills the buffer and ends with the header of the extension:
    the byte after the buffer is read. *)
Definition full_hello : list Z :=
  replicate 59 0 ++ [0; 0; 0; 0; 0; 0; 0] ++ [0; 1; 63; 182] ++ replicate (Z.to_nat 16310) 0 ++ [187; 146; 0; 0].

Lemma full_hello_overread :
  Z.of_nat (length full_hello) = MAX_MSG_SIZE ∧ get_session_id true full_hello MAX_MSG_SIZE = UB.
Proof. split; by vm_compute. Qed.

(** The maximum MTU goes down when a session with a smaller one is closed. *)
Lemma max_mtu_decreases :
  max_mtu (count_mtu 1400 (count_mtu 1500 (count_mtu 1300 stats0))) = 1400.
Proof. done. Qed.
End MainWitnesses.
