(* ===== verification/Bandwidth.v ===== *)
(** * Bandwidth limits of a session (src/worker-bandwidth.c, worker-bandwidth.h)

    A counter per direction.  Time is cut into periods of at least
    [COUNT_UPDATE_MS]; a packet is let through while the bytes of the period
    stay within what is allowed, and what is allowed in the next period is
    what was left plus half of the configured rate. *)

From S2P Require Import Prelude.

Record timespec := { tv_sec : Z; tv_nsec : Z }.

Definition timespec_ms (a : timespec) : Z := tv_sec a * 1000 + tv_nsec a ÷ (1000 * 1000).
Definition timespec_sub_ms (a b : timespec) : Z := u32 (timespec_ms a - timespec_ms b).

Definition COUNT_UPDATE_MS : Z := 500.

Record bandwidth_st := {
  count_start : timespec;
  transferred_bytes : Z;
  allowed_kb : Z;
  allowed_kb_per_count : Z;
  kb_per_sec : Z }.

Definition bandwidth_init (kb : Z) : bandwidth_st := {|
  count_start := {| tv_sec := 0; tv_nsec := 0 |};
  transferred_bytes := 0;
  allowed_kb := 0;
  allowed_kb_per_count := u64 (kb * COUNT_UPDATE_MS) / 1000;
  kb_per_sec := kb |}.

(** The value of a [size_t] as [ssize_t]. *)
Definition ssize (x : Z) : Z := let y := u64 x in if y <? 2 ^ 63 then y else y - 2 ^ 64.

(** The result is that of the C function (1 or 0) and the counter. *)
Definition _bandwidth_update (b : bandwidth_st) (bytes : Z) (now : timespec)
    : bool * bandwidth_st :=
  let diff := timespec_sub_ms now (count_start b) in
  if COUNT_UPDATE_MS <=? diff then
    let transferred_kb := transferred_bytes b / 1000 in
    let transferred_kb := u64 (transferred_kb * COUNT_UPDATE_MS) / diff in
    let remain := ssize (allowed_kb b - transferred_kb) in
    let t := ssize (allowed_kb_per_count b + remain) in
    (true, {| count_start := now;
              transferred_bytes := bytes;
              (* MIN compares as size_t *)
              allowed_kb := if u64 t <? kb_per_sec b then u64 t else kb_per_sec b;
              allowed_kb_per_count := allowed_kb_per_count b;
              kb_per_sec := kb_per_sec b |})
  else
    let sum := u64 (transferred_bytes b + bytes) in
    if u64 (allowed_kb b * 1000) <? sum then (false, b)
    else (true, {| count_start := count_start b;
                   transferred_bytes := sum;
                   allowed_kb := allowed_kb b;
                   allowed_kb_per_count := allowed_kb_per_count b;
                   kb_per_sec := kb_per_sec b |}).

Definition bandwidth_update (b : bandwidth_st) (bytes : Z) (now : timespec)
    : bool * bandwidth_st :=
  if kb_per_sec b =? 0 then (true, b) else _bandwidth_update b bytes now.

(** ** Runs *)

(** The bytes that a counter lets through of a sequence of packets, each with
    its size and the time it comes. *)
Fixpoint passed (b : bandwidth_st) (ps : list (Z * timespec)) : Z :=
  match ps with
  | [] => 0
  | (bytes, now) :: ps =>
    let '(ok, b) := bandwidth_update b bytes now in (if ok then bytes else 0) + passed b ps
  end.

(** The packets come one after the other, not before [t]. *)
Fixpoint in_order (t : Z) (ps : list (Z * timespec)) : Prop :=
  match ps with [] => True | (_, now) :: ps => t ≤ timespec_ms now ∧ in_order (timespec_ms now) ps end.

Definition last_time (t : Z) (ps : list (Z * timespec)) : Z :=
  match last ps with Some (_, now) => timespec_ms now | None => t end.

Lemma last_time_cons t n now ps : last_time t ((n, now) :: ps) = last_time (timespec_ms now) ps.
Proof. unfold last_time. rewrite last_cons. by destruct (last ps) as [[]|]. Qed.

Lemma in_order_last t ps : in_order t ps → t ≤ last_time t ps.
Proof.
  revert t. induction ps as [|[n now] ps IH]; intros t; [done|]. intros [Ht Hps].
  rewrite last_time_cons. specialize (IH _ Hps). lia.
Qed.

(** The difference of two times is at most the time that has passed. *)
Lemma timespec_sub_le a b : timespec_ms b ≤ timespec_ms a →
  0 ≤ timespec_sub_ms a b ≤ timespec_ms a - timespec_ms b.
Proof.
  intros. unfold timespec_sub_ms, wrap. split; [apply Z.mod_pos_bound; lia|apply Z.mod_le; lia].
Qed.

Section limits.
Context (kb maxpkt : Z).
Context (Hkb : 0 < kb < 2 ^ 40).
Context (Hmax : 0 ≤ maxpkt < 2 ^ 31).

(** What one period lets through at most. *)
Definition per_period : Z := Z.max (kb * 1000) maxpkt.

Record bw_ok (b : bandwidth_st) : Prop := {
  bo_rate : kb_per_sec b = kb;
  bo_allowed : 0 ≤ allowed_kb b ≤ kb;
  bo_trans : 0 ≤ transferred_bytes b ≤ per_period }.

Lemma init_bw_ok : bw_ok (bandwidth_init kb).
Proof. split; simpl; unfold per_period; lia. Qed.

(** A packet starts a period, and half a second or more has passed since the
    last one has started, or it is counted in the current one. *)
Lemma update_ok b bytes now ok b' : bw_ok b → 0 ≤ bytes ≤ maxpkt →
  timespec_ms (count_start b) ≤ timespec_ms now → bandwidth_update b bytes now = (ok, b') →
  bw_ok b' ∧
  (count_start b' = now ∧ COUNT_UPDATE_MS ≤ timespec_ms now - timespec_ms (count_start b) ∧
   transferred_bytes b' = bytes ∧ ok = true ∨
   count_start b' = count_start b ∧ allowed_kb b' = allowed_kb b ∧
   transferred_bytes b' = transferred_bytes b + (if ok then bytes else 0) ∧
   (ok = true → transferred_bytes b' ≤ allowed_kb b * 1000)).
Proof.
  intros [Hr Ha Ht] Hb Hn. unfold per_period in Ht. unfold bandwidth_update. rewrite Hr.
  destruct (Z.eqb_spec kb 0); [lia|]. unfold _bandwidth_update. pose proof (timespec_sub_le now (count_start b) Hn) as Hd.
  destruct (Z.leb_spec COUNT_UPDATE_MS (timespec_sub_ms now (count_start b))) as [Hdiff|Hdiff].
  - intros [= <- <-]. split; [|left; simpl; split_and!; [done|lia|done|done]].
    split; simpl; [done| |unfold per_period; lia]. rewrite Hr.
    set (t := u64 _). assert (0 ≤ t) by apply Z.mod_pos_bound, eq_refl. by destruct (Z.ltb_spec t kb); lia.
  - unfold wrap. rewrite !Z.mod_small by lia.
    destruct (Z.ltb_spec (allowed_kb b * 1000) (transferred_bytes b + bytes)); intros [= <- <-]; simpl;
      (split; [split; simpl; unfold per_period; lia|right; split_and!; try done; lia]).
Qed.

(** From a period that has started at a packet. *)
Lemma passed_from b ps : bw_ok b → Forall (λ p, 0 ≤ p.1 ≤ maxpkt) ps →
  ∀ t, timespec_ms (count_start b) ≤ t → in_order t ps →
  passed b ps + transferred_bytes b ≤
    ((last_time t ps - timespec_ms (count_start b)) / COUNT_UPDATE_MS + 1) * per_period.
Proof.
  intros Hb Hps. revert b Hb. induction Hps as [|[n now] ps Hn Hps IH]; intros b Hb t Ht Hord.
  { unfold last_time. simpl. destruct Hb as [_ _ Hb]. unfold COUNT_UPDATE_MS.
    assert (0 ≤ (t - timespec_ms (count_start b)) / 500) by (apply Z.div_pos; lia). nia. }
  destruct Hord as [H1 Hord]. rewrite last_time_cons. cbn [passed]. pose proof (in_order_last _ _ Hord) as Hl.
  destruct (bandwidth_update b n now) as [ok b'] eqn:E.
  apply update_ok in E as [Hb' [(Hs & Hd & Htr & ->)|(Hs & _ & Htr & _)]]; [| |done|done|lia].
  - specialize (IH b' Hb' (timespec_ms now) ltac:(rewrite Hs; lia) Hord). rewrite Hs, Htr in IH.
    destruct Hb as [_ _ Hb]. unfold COUNT_UPDATE_MS in *.
    set (L := last_time _ _) in *. set (S := timespec_ms (count_start b)) in *.
    assert (Hdiv : (L - timespec_ms now) / 500 + 1 ≤ (L - S) / 500).
    { rewrite <-Z.div_add by lia. apply Z.div_le_mono; lia. }
    nia.
  - specialize (IH b' Hb' (timespec_ms now) ltac:(rewrite Hs; lia) Hord). rewrite Hs, Htr in IH. lia.
Qed.

(** At the start nothing is allowed until a period starts. *)
Lemma passed_start b ps : bw_ok b → allowed_kb b = 0 → transferred_bytes b = 0 → Forall (λ p, 0 ≤ p.1 ≤ maxpkt) ps →
  ∀ t, timespec_ms (count_start b) ≤ t → in_order t ps →
  passed b ps ≤ ((last_time t ps - t) / COUNT_UPDATE_MS + 1) * per_period.
Proof.
  intros Hb Ha Htr Hps. revert b Hb Ha Htr. induction Hps as [|[n now] ps Hn Hps IH]; intros b Hb Ha Htr t Ht Hord.
  { unfold last_time. simpl. rewrite Z.sub_diag, Z.div_0_l by done. unfold per_period. lia. }
  destruct Hord as [H1 Hord]. rewrite last_time_cons. cbn [passed]. pose proof (in_order_last _ _ Hord) as Hl.
  set (L := last_time _ _) in *. assert (Hdiv : (L - timespec_ms now) / COUNT_UPDATE_MS ≤ (L - t) / COUNT_UPDATE_MS)
    by (apply Z.div_le_mono; unfold COUNT_UPDATE_MS; lia).
  assert (0 ≤ per_period) by (unfold per_period; lia).
  destruct (bandwidth_update b n now) as [ok b'] eqn:E.
  apply update_ok in E as [Hb' [(Hs & Hd & Htr' & ->)|(Hs & Ha' & Htr' & Hle)]]; [| |done|done|lia].
  - pose proof (passed_from b' ps Hb' Hps (timespec_ms now) ltac:(rewrite Hs; lia) Hord) as HP. fold L in HP.
    rewrite Hs, Htr' in HP. nia.
  - simpl in Hn. assert ((if ok then n else 0) = 0) as E0 by (destruct ok; [specialize (Hle eq_refl)|]; lia).
    specialize (IH b' Hb' ltac:(lia) ltac:(lia) (timespec_ms now) ltac:(rewrite Hs; lia) Hord). fold L in IH. nia.
Qed.
End limits.

(** C25: the bandwidth limit.  Of packets of at most [maxpkt] bytes that come
    one after the other from the time [t0] on, a counter with a limit of [kb]
    kilobytes per second lets through, for each half second that has passed
    and once more, at most [kb] kilobytes (or one packet, if that is larger):
    twice the configured rate, and a second's worth at once. *)
Theorem bandwidth_limit (kb maxpkt t0 : Z) (ps : list (Z * timespec)) :
  0 < kb < 2 ^ 40 → 0 ≤ maxpkt < 2 ^ 31 → 0 ≤ t0 →
  Forall (λ p, 0 ≤ p.1 ≤ maxpkt) ps → in_order t0 ps →
  passed (bandwidth_init kb) ps ≤
    ((last_time t0 ps - t0) / COUNT_UPDATE_MS + 1) * Z.max (kb * 1000) maxpkt.
Proof.
  intros Hkb Hmax Ht Hps Hord. fold (per_period kb maxpkt).
  apply passed_start; try done. by apply init_bw_ok.
Qed.

Definition at_ms (t : Z) : timespec := {| tv_sec := t / 1000; tv_nsec := t mod 1000 * 1000000 |}.

(** A limit of 1 kB per second: the first packet of a period overdraws the
    allowance, the negative remainder is compared as [size_t], and the full
    rate is allowed in the next period. *)
Example small_limit_overdraft :
  let b := (bandwidth_update (bandwidth_init 1) 1500 (at_ms 1000)).2 in
  let b := (bandwidth_update b 1500 (at_ms 1500)).2 in
  transferred_bytes b = 1500 ∧ allowed_kb b = 1.
Proof. vm_compute. split; reflexivity. Qed.

(** The limit is not the average: whole kilobytes are charged, scaled by the
    length of the period and rounded down, so that at 2 kB per second two
    packets of 1000 bytes every 501 ms pass almost all, twice the limit. *)
Example rounding_doubles_the_rate :
  passed (bandwidth_init 2) (concat (map (λ i, [(1000, at_ms (501 * Z.of_nat i)); (1000, at_ms (501 * Z.of_nat i))]) (seq 1 20)))
    = 39000.
Proof. vm_compute. reflexivity. Qed.

Lemma bandwidth_limit_witness :
  passed (bandwidth_init 100) [(1500, at_ms 1000); (1400, at_ms 1010); (1500, at_ms 1600)] ≤ 2 * 100000.
Proof.
  refine (bandwidth_limit 100 1500 1000 [(1500, at_ms 1000); (1400, at_ms 1010); (1500, at_ms 1600)] _ _ _ _ _);
    [lia|lia|lia|repeat constructor; simpl; lia|]. repeat split; vm_compute; discriminate.
Defined.
