(* ===== verification/WorkerState.v ===== *)
(** * The VPN session of a worker: state and effects (src/worker.h)

    A worker that has connected a client runs one loop over the TLS channel
    (CSTP), the DTLS channel, the tun device and the socket of the main
    process.  Its code runs in the monad [M]: the worker's state, the world it
    calls, and a log of what it did.  GnuTLS, the kernel and LZ4 are the class
    [World]; nothing is assumed of them here. *)

From S2P Require Import Prelude IpUtil SecModData Bandwidth.

Definition REASON_ANY : Z := 1.
Definition REASON_IDLE_TIMEOUT : Z := 4.
Definition REASON_DPD_TIMEOUT : Z := 5.
Definition REASON_ERROR : Z := 6.

Inductive udp_port_state_t :=
| UP_DISABLED | UP_WAIT_FD | UP_SETUP | UP_HANDSHAKE | UP_INACTIVE | UP_ACTIVE.

#[export] Instance udp_port_state_eq : EqDecision udp_port_state_t.
Proof. solve_decision. Defined.

(** The value of the C enumeration. *)
Definition up_num (u : udp_port_state_t) : Z :=
  match u with
  | UP_DISABLED => 0 | UP_WAIT_FD => 1 | UP_SETUP => 2
  | UP_HANDSHAKE => 3 | UP_INACTIVE => 4 | UP_ACTIVE => 5
  end.

Inductive comp_type_t := OC_COMP_LZS | OC_COMP_LZ4.

#[export] Instance comp_type_eq : EqDecision comp_type_t.
Proof. solve_decision. Defined.

(** ** GnuTLS codes *)

Definition GNUTLS_E_LARGE_PACKET : Z := -7.
Definition GNUTLS_E_UNEXPECTED_PACKET_LENGTH : Z := -9.
Definition GNUTLS_E_AGAIN : Z := -28.
Definition GNUTLS_E_REHANDSHAKE : Z := -37.
Definition GNUTLS_E_INTERRUPTED : Z := -52.
Definition GNUTLS_E_PREMATURE_TERMINATION : Z := -110.

(** ** The state of a worker

    The fields of [worker_st] that a session uses, with those of the
    configuration it reads, in groups by what changes them. *)

(** What does not change during a session. *)
Record conf_st := {
  session : bool;                   (* session != NULL *)
  conn_unix : bool;                 (* conn_type == SOCK_TYPE_UNIX *)
  auth_complete : bool;             (* auth_state == S_AUTH_COMPLETE *)
  sid_set : bool;
  proto : Z;
  session_start_time : Z;
  dtls_selected_comp : option comp_type_t;
  cstp_selected_comp : option comp_type_t;
  has_ipv6 : bool;                  (* vinfo.ipv6 != NULL *)
  ban_points : Z;
  use_psk : bool;                   (* ws->req *)
  has_ciphersuite : bool;           (* req.selected_ciphersuite != NULL *)
  idle_timeout : Z;                 (* WSCONFIG(ws) *)
  rekey_time : Z;
  switch_to_tcp_timeout : Z;
  no_compress_limit : Z;
  dtls_legacy : bool;
  max_ban_score : Z;
  session_timeout_secs : Z;         (* ws->user_config *)
  interim_update_secs : Z;
  dpd : Z }.

Record mtu_st := {
  link_mtu : Z;
  adv_link_mtu : Z;
  last_good_mtu : Z;
  last_bad_mtu : Z;
  try_mtu : bool;                   (* WSCONFIG(ws) *)
  vinfo_mtu : Z;
  cstp_crypto_overhead : Z;
  cstp_proto_overhead : Z;
  dtls_crypto_overhead : Z;
  dtls_proto_overhead : Z }.

Record udp_st := {
  dtls_session : bool;              (* dtls_session != NULL *)
  udp_state : udp_port_state_t;
  udp_recv_time : Z;
  tptr_fd : Z;                      (* dtls_tptr *)
  tptr_msg : option (list Z) }.

Record time_st := {
  last_msg_udp : Z;
  last_msg_tcp : Z;
  last_nc_msg : Z;
  last_periodic_check : Z;
  last_tls_rehandshake : Z;
  last_dtls_rehandshake : Z;
  last_stats_msg : Z;
  alarm_at : Z }.                   (* when SIGALRM ends the worker; 0 if it is off *)

Record data_st := {
  buffer : list Z;
  decomp : list Z;
  b_tx : bandwidth_st;
  b_rx : bandwidth_st;
  tun_bytes_in : Z;
  tun_bytes_out : Z }.

(** [terminate] and [terminate_reason] are globals of worker-vpn.c. *)
Record worker_st := {
  conf : conf_st;
  mt : mtu_st;
  udp : udp_st;
  times : time_st;
  dat : data_st;
  terminate : bool;
  terminate_reason : Z }.

Definition BUFFER_SIZE : Z := 16 * 1024.

(** ** The world *)

Inductive recv_result :=
| RecvData (bs : list Z)      (* the result is the number of bytes *)
| RecvAgain                   (* -1 with EAGAIN or EINTR *)
| RecvError.                  (* -1 with another error *)

(** Calls that prepare the DTLS session. *)
Inductive setup_call :=
| GnutlsInit | PrioritySetDirect | Prf | SetPremaster | CredentialsSet.

(** What arrives on the socket of the main process. *)
Inductive main_cmd :=
| CmdRecvError                (* [recv_msg_data] fails *)
| CmdEmpty                    (* a message of no bytes *)
| CmdTerminate
| CmdUdpFd (msg : option (bool * list Z)) (fd : Z)  (* UdpFdMsg, if it unpacks: hello, data *)
| CmdUnknown.

Class World (W : Type) := {
  gnutls_error_is_fatal : Z → bool;
  tls_record_send : list Z → W → Z * W;
  tls_recv_packet : W → (Z * list Z) * W;    (* gnutls_record_recv_packet *)
  tls_handshake : W → Z * W;
  dtls_record_send : list Z → W → Z * W;
  dtls_recv : W → (Z * list Z) * W;
  dtls_handshake : W → Z * W;
  (* gnutls_record_recv on a transport that has a message: the result, what is left of it *)
  dtls_probe : option (list Z) → W → (Z * option (list Z)) * W;
  dtls_setup : setup_call → W → Z * W;
  gnutls_dtls_set_mtu : Z → W → W;
  gnutls_dtls_set_data_mtu : Z → W → W;
  gnutls_dtls_get_mtu : W → Z;
  sock_recv : nat → W → recv_result * W;     (* recv on conn_fd *)
  sock_write : list Z → W → (Z * bool) * W;  (* write on conn_fd; whether errno is EAGAIN/EINTR *)
  errno_again : W → bool * W;                (* errno is EAGAIN or EINTR *)
  tun_dev_read : Z → W → (Z * bool * list Z) * W;
  tun_dev_write : list Z → W → (Z * bool) * W;
  tcp_info_pmtu : W → option Z * W;          (* getsockopt(TCP_INFO) *)
  ipv6_pathmtu : W → option Z * W;           (* getsockopt(IPV6_PATHMTU) *)
  connect_to_secmod : W → bool * W;
  recv_main : W → main_cmd * W;
  time0 : W → Z * W;                         (* time(0) *)
  lz4_compress_fn : list Z → option (list Z);        (* LZ4_compress_default *)
  lz4_decompress_fn : Z → list Z → option (list Z)   (* LZ4_decompress_safe *)
}.

(** ** Effects *)

Inductive action :=
| TlsRecord (bs : list Z)      (* a record on the TLS channel *)
| DtlsRecord (bs : list Z)
| SockBytes (bs : list Z)      (* bytes on an unencrypted CSTP channel *)
| ToTun (bs : list Z)
| TunMtuMsg (mtu : Z)          (* messages to the main process *)
| SessionInfoMsg
| BanIpMsg (score : Z)
| CliStatsMsg (bytes_in bytes_out uptime reason : Z)   (* to the security module *)
| CstpClose
| DtlsClose.

Record wstate (W : Type) := { ws : worker_st; world : W; log : list action }.
Arguments ws {_} _.
Arguments world {_} _.
Arguments log {_} _.
Arguments Build_wstate {_} _ _ _.

(** The computation goes on with a value, the process exits, it performs an
    undefined operation, or it is still repeating a call that keeps telling
    it to try again. *)
Inductive outcome (S A : Type) :=
| Val (a : A) (s : S)
| Exit (reason : Z) (s : S)
| Undef
| Blocked.
Arguments Val {_ _} _ _.
Arguments Exit {_ _} _ _.
Arguments Undef {_ _}.
Arguments Blocked {_ _}.

Definition M (W A : Type) : Type := wstate W → outcome (wstate W) A.

#[global] Instance M_ret W : MRet (M W) := λ A a s, Val a s.
#[global] Instance M_bind W : MBind (M W) := λ A B f m s,
  match m s with
  | Val a s' => f a s'
  | Exit r s' => Exit r s'
  | Undef => Undef
  | Blocked => Blocked
  end.

Section effects.
Context {W : Type}.

Definition gets {A} (f : worker_st → A) : M W A := λ s, Val (f (ws s)) s.
Definition modify (f : worker_st → worker_st) : M W unit :=
  λ s, Val tt {| ws := f (ws s); world := world s; log := log s |}.

Definition set_mtu (f : mtu_st → mtu_st) : M W unit :=
  modify (λ x, {| x with mt := f (mt x) |}).
Definition set_udp (f : udp_st → udp_st) : M W unit :=
  modify (λ x, {| x with udp := f (udp x) |}).
Definition set_times (f : time_st → time_st) : M W unit :=
  modify (λ x, {| x with times := f (times x) |}).
Definition set_dat (f : data_st → data_st) : M W unit :=
  modify (λ x, {| x with dat := f (dat x) |}).

Definition call {A} (f : W → A * W) : M W A :=
  λ s, let '(a, w) := f (world s) in Val a {| ws := ws s; world := w; log := log s |}.
Definition tell (f : W → W) : M W unit :=
  λ s, Val tt {| ws := ws s; world := f (world s); log := log s |}.
Definition emit (a : action) : M W unit :=
  λ s, Val tt {| ws := ws s; world := world s; log := log s ++ [a] |}.
Definition exits {A} (reason : Z) : M W A := λ s, Exit reason s.
Definition undef {A} : M W A := λ _, Undef.
Definition blocked {A} : M W A := λ _, Blocked.
Definition when (b : bool) (m : M W unit) : M W unit := if b then m else mret tt.

(** ** Reasoning

    [wp B m Q X s]: from [s], [m] performs no undefined operation; a value and
    the state it goes on with satisfy [Q]; a reason and the state it exits
    with satisfy [X]; it may be left repeating a call only if [B]. *)
Definition wp {A} (B : Prop) (m : M W A) (Q : A → wstate W → Prop)
    (X : Z → wstate W → Prop) (s : wstate W) : Prop :=
  match m s with
  | Val a s' => Q a s'
  | Exit r s' => X r s'
  | Undef => False
  | Blocked => B
  end.

Lemma wp_bind {A C} B (m : M W A) (f : A → M W C) Q X s :
  wp B m (λ a s', wp B (f a) Q X s') X s → wp B (m ≫= f) Q X s.
Proof. unfold wp, mbind, M_bind. by destruct (m s). Qed.

Lemma wp_ret {A} B (a : A) Q X s : Q a s → wp B (mret a) Q X s.
Proof. done. Qed.

Lemma wp_mono {A} B (m : M W A) (Q Q' : A → wstate W → Prop) (X X' : Z → wstate W → Prop) s :
  wp B m Q X s → (∀ a s', Q a s' → Q' a s') → (∀ r s', X r s' → X' r s') → wp B m Q' X' s.
Proof. unfold wp. destruct (m s); auto. Qed.

Lemma wp_gets {A} B (f : worker_st → A) Q X s : Q (f (ws s)) s → wp B (gets f) Q X s.
Proof. done. Qed.

Lemma wp_modify B f Q X s :
  Q tt {| ws := f (ws s); world := world s; log := log s |} → wp B (modify f) Q X s.
Proof. done. Qed.

Lemma wp_set_mtu B f Q X s :
  (let x := ws s in Q tt {| ws := {| x with mt := f (mt x) |}; world := world s; log := log s |}) →
  wp B (set_mtu f) Q X s.
Proof. done. Qed.

Lemma wp_set_udp B f Q X s :
  (let x := ws s in Q tt {| ws := {| x with udp := f (udp x) |}; world := world s; log := log s |}) →
  wp B (set_udp f) Q X s.
Proof. done. Qed.

Lemma wp_set_times B f Q X s :
  (let x := ws s in
   Q tt {| ws := {| x with times := f (times x) |}; world := world s; log := log s |}) →
  wp B (set_times f) Q X s.
Proof. done. Qed.

Lemma wp_set_dat B f Q X s :
  (let x := ws s in Q tt {| ws := {| x with dat := f (dat x) |}; world := world s; log := log s |}) →
  wp B (set_dat f) Q X s.
Proof. done. Qed.

Lemma wp_and {A} B B' (m : M W A) (Q Q' : A → wstate W → Prop) (X X' : Z → wstate W → Prop) s :
  wp B m Q X s → wp B' m Q' X' s →
  wp B m (λ a s', Q a s' ∧ Q' a s') (λ r s', X r s' ∧ X' r s') s.
Proof. unfold wp. by destruct (m s). Qed.

Lemma wp_Val {A} (m : M W A) (P : A → wstate W → Prop) s :
  wp False m P (λ _ _, False) s ↔ ∃ a s', m s = Val a s' ∧ P a s'.
Proof. unfold wp. destruct (m s); naive_solver. Qed.

Lemma wp_call {A} B (f : W → A * W) Q X s :
  (∀ a w, f (world s) = (a, w) → Q a {| ws := ws s; world := w; log := log s |}) →
  wp B (call f) Q X s.
Proof. intros H. unfold wp, call. destruct (f (world s)) eqn:E. by apply H. Qed.

Lemma wp_tell B f Q X s :
  Q tt {| ws := ws s; world := f (world s); log := log s |} → wp B (tell f) Q X s.
Proof. done. Qed.

Lemma wp_emit B a Q X s :
  Q tt {| ws := ws s; world := world s; log := log s ++ [a] |} → wp B (emit a) Q X s.
Proof. done. Qed.

Lemma wp_exits {A} B r Q X s : X r s → wp B (@exits A r) Q X s.
Proof. done. Qed.

Lemma wp_blocked {A} (B : Prop) Q X s : B → wp B (@blocked A) Q X s.
Proof. done. Qed.

Lemma wp_if {A} B (b : bool) (m n : M W A) Q X s :
  (b = true → wp B m Q X s) → (b = false → wp B n Q X s) → wp B (if b then m else n) Q X s.
Proof. destruct b; auto. Qed.

Lemma wp_when B (b : bool) (m : M W unit) Q X s :
  (b = true → wp B m Q X s) → (b = false → Q tt s) → wp B (when b m) Q X s.
Proof. unfold when. destruct b; intros H1 H2; [by apply H1|by apply wp_ret, H2]. Qed.
End effects.

Notation "m ;;; k" := (m ≫= λ _, k) (at level 100, right associativity, only parsing).

(** Symbolic execution, up to the next branch or call. *)
Ltac wp1 :=
  lazymatch goal with
  | |- wp _ (@mbind _ _ _ _ _ _) _ _ _ => apply wp_bind
  | |- wp _ (@mret _ _ _ _) _ _ _ => apply wp_ret
  | |- wp _ (gets _) _ _ _ => apply wp_gets
  | |- wp _ (set_mtu _) _ _ _ => apply wp_set_mtu
  | |- wp _ (set_udp _) _ _ _ => apply wp_set_udp
  | |- wp _ (set_times _) _ _ _ => apply wp_set_times
  | |- wp _ (set_dat _) _ _ _ => apply wp_set_dat
  | |- wp _ (modify _) _ _ _ => apply wp_modify
  | |- wp _ (tell _) _ _ _ => apply wp_tell
  | |- wp _ (emit _) _ _ _ => apply wp_emit
  | |- wp _ (exits _) _ _ _ => apply wp_exits
  end;
  cbn beta zeta; cbn [ws world log conf mt udp times dat terminate terminate_reason].
Ltac wps := repeat wp1.
