(* ===== verification/WorkerIo.v ===== *)
(** * The channels of a worker (src/tlslib.c, parts of worker-vpn.c, tun.c)

    Sending and receiving CSTP and DTLS packets, the tun device, the messages
    to the other processes, and leaving.  A pointer is the rest of the object
    it points into; a call that is given more bytes than that is undefined. *)

From S2P Require Import Prelude IpUtil SecModData Bandwidth WorkerState.

Section io.
Context {W : Type} `{World W}.
(** How often a call that says "try again" is repeated. *)
Context (patience : nat).

Definition try_again (ret : Z) : bool :=
  (ret =? GNUTLS_E_AGAIN) || (ret =? GNUTLS_E_INTERRUPTED).

(** [while (left > 0) { ret = gnutls_record_send(session, p, data_size); ... }],
    the loop of [cstp_send] and [dtls_send]. *)
Fixpoint record_send (send : list Z → W → Z * W) (tag : list Z → action) (fuel : nat)
    (p : list Z) (data_size left : Z) : M W Z :=
  if left <=? 0 then mret data_size else
  match fuel with
  | O => blocked
  | S fuel =>
    if Z.of_nat (length p) <? data_size then undef else
    let bs := take (Z.to_nat data_size) p in
    ret ← call (send bs);
    if ret <? 0 then
      if negb (try_again ret) then mret ret else record_send send tag fuel p data_size left
    else if 0 <? ret then
      emit (tag (take (Z.to_nat ret) bs)) ;;;
      record_send send tag fuel (drop (Z.to_nat ret) p) data_size (left - ret)
    else record_send send tag fuel p data_size left
  end.

(** [write] in a loop; the second component of its answer is whether [errno]
    is [EAGAIN] or [EINTR]. *)
Fixpoint force_write (write : list Z → W → (Z * bool) * W) (tag : list Z → action)
    (fuel : nat) (p : list Z) (len left : Z) : M W Z :=
  if left <=? 0 then mret len else
  match fuel with
  | O => blocked
  | S fuel =>
    if Z.of_nat (length p) <? left then undef else
    let bs := take (Z.to_nat left) p in
    '(ret, again) ← call (write bs);
    if ret =? -1 then
      if negb again then mret ret else force_write write tag fuel p len left
    else if 0 <? ret then
      emit (tag (take (Z.to_nat ret) bs)) ;;;
      force_write write tag fuel (drop (Z.to_nat ret) p) len (left - ret)
    else force_write write tag fuel p len left
  end.

Definition cstp_send (data : list Z) (data_size : Z) : M W Z :=
  tls ← gets (λ x, session (conf x));
  if (tls : bool) then record_send tls_record_send TlsRecord patience data data_size data_size
  else force_write sock_write SockBytes patience data data_size data_size.

Definition dtls_send (data : list Z) (data_size : Z) : M W Z :=
  s ← gets (λ x, dtls_session (udp x));
  if (s : bool) then record_send dtls_record_send DtlsRecord patience data data_size data_size
  else undef.

Definition tun_write (buf : list Z) (len : Z) : M W Z :=
  force_write tun_dev_write ToTun patience buf len len.

(** [read(sockfd, buf, len)] with [buf] at [off] of [ws->buffer]: the result,
    and whether [errno] is [EAGAIN] or [EINTR]. *)
Definition tun_read (off : nat) (len : Z) : M W (Z * bool) :=
  '(ret, again, bs) ← call (tun_dev_read len);
  if ret <? 0 then mret (ret, again) else
  b ← gets (λ x, buffer (dat x));
  match poke b off bs with
  | Ok b' => set_dat (λ d, {| d with buffer := b' |}) ;;; mret (ret, again)
  | _ => undef
  end.

(** ** Receiving *)

(** [counter] and [left] bound the number of turns. *)
Fixpoint recv_remaining (fuel : nat) (counter : nat) (off left total : nat) : M W Z :=
  match left, fuel with
  | O, _ => mret (Z.of_nat total)
  | _, O => blocked
  | _, S fuel =>
    r ← call (sock_recv left);
    match r with
    | RecvData bs =>
      b ← gets (λ x, buffer (dat x));
      match poke b off bs with
      | Ok b' =>
        set_dat (λ d, {| d with buffer := b' |}) ;;;
        if (length bs =? 0)%nat then mret (Z.of_nat total)
        else recv_remaining fuel counter (off + length bs) (left - length bs) (total + length bs)
      | _ => undef
      end
    | RecvAgain =>
      match counter with
      | O => mret (Z.of_nat total)
      | S counter => recv_remaining fuel counter off left total
      end
    | RecvError => mret (Z.of_nat total)
    end
  end.

Definition recv_all (off left : nat) : M W Z :=
  recv_remaining (100 + left) 100 off left 0.

(** The part of [_cstp_recv_packet] for an unencrypted channel, into
    [ws->buffer]. *)
Definition _cstp_recv_packet : M W Z :=
  ret ← recv_all 0 8;
  if ret <=? 0 then mret ret else
  b ← gets (λ x, buffer (dat x));
  match b !! 4%nat, b !! 5%nat with
  | Some b4, Some b5 =>
    let pktlen := Z.shiftl b4 8 + b5 in
    if BUFFER_SIZE <? pktlen + 8 then mret GNUTLS_E_UNEXPECTED_PACKET_LENGTH else
    if 0 <? pktlen then
      ret ← recv_all 8 (Z.to_nat pktlen);
      if ret <=? 0 then mret ret else mret (8 + pktlen)
    else mret (8 + pktlen)
  | _, _ => undef
  end.

(** The result and the packet. *)
Definition cstp_recv_packet : M W (Z * list Z) :=
  tls ← gets (λ x, session (conf x));
  if (tls : bool) then call tls_recv_packet else
  ret ← _cstp_recv_packet;
  b ← gets (λ x, buffer (dat x));
  mret (ret, take (Z.to_nat ret) b).

Definition dtls_recv_packet : M W (Z * list Z) :=
  s ← gets (λ x, dtls_session (udp x));
  if (s : bool) then call dtls_recv else undef.

(** ** Messages and leaving *)

Definition send_stats_to_secmod (now discon_reason : Z) : M W unit :=
  set_times (λ t, {| t with last_stats_msg := now |}) ;;;
  ok ← call connect_to_secmod;
  d ← gets dat;
  start ← gets (λ x, session_start_time (conf x));
  when ok (emit (CliStatsMsg (tun_bytes_in d) (tun_bytes_out d) (u32 (now - start)) discon_reason)).

(** [ws_add_score_to_ip(ws, 0, 1)]; the reply is not looked at. *)
Definition ws_add_score_final : M W unit :=
  m ← gets (λ x, max_ban_score (conf x));
  when (negb (m =? 0)) (emit (BanIpMsg 0)).

Definition exit_worker_reason {A} (reason : Z) : M W A :=
  c ← gets (λ x, auth_complete (conf x));
  when c (now ← call time0; send_stats_to_secmod now reason) ;;;
  b ← gets (λ x, ban_points (conf x));
  when (0 <? b) ws_add_score_final ;;;
  exits reason.

Definition DTLS_FATAL_ERR_CMD (ret : Z) : M W unit :=
  if (ret <? 0) && gnutls_error_is_fatal ret then exit_worker_reason REASON_ERROR else mret tt.

Definition CSTP_FATAL_ERR_CMD (ret : Z) : M W unit :=
  tls ← gets (λ x, session (conf x));
  if (tls : bool) then
    if (ret <? 0) && gnutls_error_is_fatal ret then exit_worker_reason REASON_ERROR else mret tt
  else if ret <? 0 then
    again ← call errno_again;
    if negb again then exit_worker_reason REASON_ERROR else mret tt
  else mret tt.

Definition cstp_close : M W unit := emit CstpClose.
Definition dtls_close : M W unit := emit DtlsClose.
End io.
