(* ===== verification/WorkerMtu.v ===== *)
(** * The MTU of a session (src/worker-vpn.c)

    The link MTU is what the peers negotiated, lowered by what the path
    accepts.  Over IPv4 it is searched for: a packet that is refused as too
    large calls [mtu_not_ok], one of the full size that is accepted calls
    [mtu_ok]. *)

From S2P Require Import Prelude IpUtil SecModData Bandwidth WorkerState WorkerIo.

Definition CSTP_DTLS_OVERHEAD : Z := 1.
Definition CSTP_OVERHEAD : Z := 8.
Definition IP_HEADER_SIZE : Z := 20.
Definition IPV6_HEADER_SIZE : Z := 40.
Definition TCP_HEADER_SIZE : Z := 20.
Definition UDP_HEADER_SIZE : Z := 8.

(** [unsigned] arithmetic. *)
Definition DATA_MTU (s : mtu_st) (mtu : Z) : Z :=
  u32 (mtu - dtls_crypto_overhead s - dtls_proto_overhead s).
Definition MIN_MTU (s : conf_st) : Z := if has_ipv6 s then 1280 else 800.

Section mtu.
Context {W : Type} `{World W}.

Definition data_mtu_send (mtu : Z) : M W unit := emit (TunMtuMsg mtu).

Definition link_mtu_set (mtu : Z) : M W unit :=
  l ← gets (λ x, link_mtu (mt x));
  if (l =? mtu) || (BUFFER_SIZE <? mtu) then mret tt else
  set_mtu (λ s, {| s with link_mtu := mtu |}) ;;;
  d ← gets (λ x, dtls_session (udp x));
  o ← gets (λ x, dtls_proto_overhead (mt x));
  when d (tell (gnutls_dtls_set_mtu (u32 (mtu - o)))) ;;;
  m ← gets (λ x, DATA_MTU (mt x) mtu);
  data_mtu_send m.

Definition data_mtu_set (mtu : Z) : M W unit :=
  d ← gets (λ x, dtls_session (udp x));
  when d (
    tell (gnutls_dtls_set_data_mtu (u32 (mtu + 1))) ;;;
    mtu ← call (λ w, (gnutls_dtls_get_mtu w, w));
    l ← gets (λ x, link_mtu (mt x));
    if (mtu <=? 0) || (mtu =? l) then mret tt else
    o ← gets (λ x, dtls_proto_overhead (mt x));
    link_mtu_set (u32 (mtu + o))).

Definition disable_mtu_disc : M W unit :=
  a ← gets (λ x, adv_link_mtu (mt x));
  link_mtu_set a ;;;
  set_mtu (λ s, {| s with try_mtu := false |}).

(** The IPv4 branch of [mtu_not_ok]. *)
Definition mtu_not_ok4 : M W unit :=
  min ← gets (λ x, MIN_MTU (conf x));
  set_mtu (λ s, {| s with last_bad_mtu := link_mtu s |}) ;;;
  good ← gets (λ x, last_good_mtu (mt x));
  l ← gets (λ x, link_mtu (mt x));
  if good =? min then disable_mtu_disc ;;; link_mtu_set min else
  when (l <=? good)
    (set_mtu (λ s, {| s with last_good_mtu := Z.max (u32 (2 * link_mtu s) / 3) min |})) ;;;
  good ← gets (λ x, last_good_mtu (mt x));
  link_mtu_set good.

(** The IPv6 branch. *)
Definition mtu_not_ok6 : M W unit :=
  r ← call ipv6_pathmtu;
  min ← gets (λ x, MIN_MTU (conf x));
  match r with
  | Some m => if m <? 1280 then disable_mtu_disc ;;; link_mtu_set min else link_mtu_set m
  | None => disable_mtu_disc ;;; link_mtu_set min
  end.

Definition mtu_not_ok : M W unit :=
  t ← gets (λ x, try_mtu (mt x));
  d ← gets (λ x, dtls_session (udp x));
  p ← gets (λ x, proto (conf x));
  if negb t || negb d then mret tt
  else if p =? AF_INET then mtu_not_ok4
  else if p =? AF_INET6 then mtu_not_ok6
  else mret tt.

Definition mtu_discovery_init (mtu : Z) : M W unit :=
  min ← gets (λ x, MIN_MTU (conf x));
  when (mtu <=? min) disable_mtu_disc ;;;
  set_mtu (λ s, {| s with last_good_mtu := mtu; last_bad_mtu := mtu |}).

Definition mtu_ok : M W unit :=
  t ← gets (λ x, try_mtu (mt x));
  p ← gets (λ x, proto (conf x));
  if negb t || (p =? AF_INET6) then mret tt else
  l ← gets (λ x, link_mtu (mt x));
  bad ← gets (λ x, last_bad_mtu (mt x));
  if (bad =? u32 (l + 1)) || (bad =? l) then mret tt else
  set_mtu (λ s, {| s with last_good_mtu := l |}) ;;;
  link_mtu_set (u32 (l + bad) / 2).

(** [getsockopt(TCP_INFO)]: -1 or the path MTU of the TCP connection. *)
Definition get_pmtu_approx : M W Z :=
  r ← call tcp_info_pmtu;
  mret (match r with Some m => m | None => -1 end).

(** ** Negotiation *)

(** The estimates of [tls_get_overhead] for the largest ciphersuite, for the
    ciphers of the TLS session and for the selected DTLS ciphersuite. *)
Record overheads := {
  o_max_tls : Z; o_max_dtls : Z; o_session_tls : Z; o_session_dtls : Z; o_suite : Z }.

Definition calc_dtls_overhead (o : overheads) (x : worker_st) : Z :=
  if decide (udp_state (udp x) = UP_DISABLED) then dtls_crypto_overhead (mt x) else
  let c := if use_psk (conf x) then
             if negb (session (conf x)) then CSTP_DTLS_OVERHEAD + o_max_dtls o
             else o_session_dtls o
           else if has_ciphersuite (conf x) then o_suite o else dtls_crypto_overhead (mt x) in
  u32 (c + CSTP_DTLS_OVERHEAD).

Definition calc_mtu_values (o : overheads) : M W unit :=
  x ← gets (λ x, x);
  let ip := if proto (conf x) =? AF_INET then IP_HEADER_SIZE else IPV6_HEADER_SIZE in
  set_mtu (λ s, {| s with
    cstp_proto_overhead := ip + TCP_HEADER_SIZE;
    dtls_proto_overhead := ip + UDP_HEADER_SIZE;
    cstp_crypto_overhead :=
      CSTP_OVERHEAD + (if session (conf x) then o_session_tls o else o_max_tls o);
    link_mtu := vinfo_mtu s;
    dtls_crypto_overhead := calc_dtls_overhead o x;
    adv_link_mtu := vinfo_mtu s |}).

(** The part of [connect_handler] that settles the MTU: [user_mtu] is the
    configured one, [req_link] and [req_tunnel] come from the client's
    headers.  The result is whether the session goes on. *)
Definition connect_mtu (o : overheads) (user_mtu req_link req_tunnel : Z) : M W bool :=
  when (0 <? user_mtu) (set_mtu (λ s, {| s with vinfo_mtu := user_mtu |})) ;;;
  (if 0 <? req_link then set_mtu (λ s, {| s with vinfo_mtu := Z.min (vinfo_mtu s) req_link |})
   else when (0 <? req_tunnel) (
     p ← gets (λ x, proto (conf x));
     let proto_max := if p =? AF_INET then IP_HEADER_SIZE + UDP_HEADER_SIZE
                      else IPV6_HEADER_SIZE + UDP_HEADER_SIZE in
     set_mtu (λ s, {| s with vinfo_mtu := Z.min (vinfo_mtu s)
       (u32 (req_tunnel + proto_max + (CSTP_DTLS_OVERHEAD + o_max_dtls o))) |}))) ;;;
  u ← gets (λ x, conn_unix (conf x));
  when (negb u) (
    max ← get_pmtu_approx;
    m ← gets (λ x, vinfo_mtu (mt x));
    when ((0 <? max) && (max <? m)) (link_mtu_set max)) ;;;
  calc_mtu_values o ;;;
  l ← gets (λ x, link_mtu (mt x));
  if BUFFER_SIZE <? u32 (l + 16) then mret false else
  m ← gets (λ x, DATA_MTU (mt x) l);
  data_mtu_send m ;;; mret true.
End mtu.
