(* ===== verification/WorkerMtuSearch.v ===== *)
(** * The search for the MTU ends (src/worker-vpn.c)

    Over a path that carries packets up to a limit, the feedback of full-size
    packets drives [mtu_ok] and [mtu_not_ok] to the limit or to the minimum. *)

From S2P Require Import Prelude IpUtil SecModData Bandwidth WorkerState WorkerIo WorkerMtu.

Section search.
Context {W : Type} `{World W}.

(** The answer to one packet of the size of the MTU. *)
Definition probe (limit : Z) : M W unit :=
  l ← gets (λ x, link_mtu (mt x));
  if l <=? limit then mtu_ok else mtu_not_ok.

Fixpoint probes (n : nat) (limit : Z) : M W unit :=
  match n with O => mret tt | S n => probe limit ;;; probes n limit end.

Lemma probes_add n m limit s s' :
  probes n limit s = Val tt s' → probes (n + m) limit s = probes m limit s'.
Proof.
  revert s. induction n as [|n IH]; intros s; simpl.
  - by intros [= <-].
  - unfold mbind, M_bind. destruct (probe limit s) as [[] s1| | |]; try done. apply IH.
Qed.

Lemma probes_stable n limit s : probe limit s = Val tt s → probes n limit s = Val tt s.
Proof.
  intros Hs. induction n as [|n IH]; simpl; [done|].
  unfold mbind, M_bind. by rewrite Hs.
Qed.

Context (limit m0 : Z).

(** The variables of the search. *)
Record searching (L G B : Z) (s : wstate W) : Prop := {
  se_link : link_mtu (mt (ws s)) = L;
  se_good : last_good_mtu (mt (ws s)) = G;
  se_bad : last_bad_mtu (mt (ws s)) = B;
  se_try : try_mtu (mt (ws s)) = true;
  se_proto : proto (conf (ws s)) = AF_INET;
  se_dtls : dtls_session (udp (ws s)) = true;
  se_min : MIN_MTU (conf (ws s)) ≤ limit;
  se_adv : adv_link_mtu (mt (ws s)) ≤ BUFFER_SIZE }.

(** The search has ended: nothing changes any more.  It has found the limit,
    or it was given up at the minimum, which happens only if the limit is
    less than a quarter above the minimum. *)
Definition settled (s : wstate W) : Prop :=
  probe limit s = Val tt s ∧ link_mtu (mt (ws s)) ≤ limit ∧
  (link_mtu (mt (ws s)) = Z.min m0 limit ∨
   link_mtu (mt (ws s)) = MIN_MTU (conf (ws s)) ∧ try_mtu (mt (ws s)) = false ∧
   4 * limit < 5 * MIN_MTU (conf (ws s)) + 2).

Definition reaches (n : nat) (P : wstate W → Prop) (s : wstate W) : Prop :=
  ∃ k s', (k ≤ n)%nat ∧ probes k limit s = Val tt s' ∧ P s'.

Lemma reaches_now n (P : wstate W → Prop) s : P s → reaches n P s.
Proof. intros. exists O, s. split_and!; [lia|done|done]. Qed.

Lemma reaches_step n (P : wstate W → Prop) s s' :
  probe limit s = Val tt s' → reaches n P s' → reaches (S n) P s.
Proof.
  intros Hs (k & s1 & Hk & Hp & HP). exists (S k), s1. split_and!; [lia| |done].
  simpl. unfold mbind, M_bind. by rewrite Hs.
Qed.

Lemma reaches_le n m (P : wstate W → Prop) s : (n ≤ m)%nat → reaches n P s → reaches m P s.
Proof. intros ? (k & s' & ? & ? & ?). exists k, s'. split_and!; [lia|done|done]. Qed.

Lemma reaches_trans n m (P Q : wstate W → Prop) s :
  reaches n P s → (∀ s', P s' → reaches m Q s') → reaches (n + m) Q s.
Proof.
  intros (k & s1 & Hk & Hp & HP) HQ. destruct (HQ s1 HP) as (j & s2 & Hj & Hp2 & HQ2).
  exists (k + j)%nat, s2. split_and!; [lia| |done]. by rewrite (probes_add _ _ _ _ s1).
Qed.

(** Only the link MTU of the state changes. *)
Definition with_link (m : Z) (x : worker_st) : worker_st :=
  let y := mt x in {| x with mt := {| y with link_mtu := m |} |}.

Lemma with_link_same x : with_link (link_mtu (mt x)) x = x.
Proof. by destruct x as [? [] ?]. Qed.

Lemma link_mtu_set_wp B mtu Q X (s : wstate W) : mtu ≤ BUFFER_SIZE →
  (∀ s', ws s' = with_link mtu (ws s) → Q tt s') → wp B (link_mtu_set mtu) Q X s.
Proof.
  intros Hm HQ. unfold link_mtu_set. wps. apply wp_if; intros E.
  - apply wp_ret, HQ. apply orb_true_iff in E as [<-%Z.eqb_eq|E%Z.ltb_lt]; [|lia].
    by rewrite with_link_same.
  - wps. apply wp_when; intros _; wps; apply HQ; reflexivity.
Qed.

Lemma u32_mtu x : 0 ≤ x ≤ 2 * BUFFER_SIZE → u32 x = x.
Proof. intros. apply wrap_small. unfold BUFFER_SIZE in *. lia. Qed.

Lemma min_mtu_range x : 800 ≤ MIN_MTU x ≤ 1280.
Proof. unfold MIN_MTU. destruct (has_ipv6 x); lia. Qed.

(** A full-size packet was refused. *)
Lemma probe_not_ok L G B s :
  searching L G B s → limit < L ≤ BUFFER_SIZE → G ≠ MIN_MTU (conf (ws s)) → G ≤ BUFFER_SIZE →
  let G' := if L <=? G then Z.max (2 * L / 3) (MIN_MTU (conf (ws s))) else G in
  ∃ s', probe limit s = Val tt s' ∧ searching G' G' L s' ∧ conf (ws s') = conf (ws s).
Proof.
  intros [Hl Hg Hb Ht Hp Hd Hmin Hadv] HL HG HG2 G'.
  pose proof (min_mtu_range (conf (ws s))) as Hm.
  assert (HG' : G' ≤ BUFFER_SIZE).
  { unfold G', BUFFER_SIZE in *. destruct (L <=? G); [|lia]. dlia. }
  cut (wp False (probe limit) (λ _ s', searching G' G' L s' ∧ conf (ws s') = conf (ws s))
         (λ _ _, False) s).
  { intros ([] & s' & ? & ?)%wp_Val. eauto. }
  unfold probe. wps. rewrite Hl. destruct (Z.leb_spec L limit); [lia|].
  unfold mtu_not_ok. wps. rewrite Ht, Hd, Hp. cbn [negb orb]. rewrite Z.eqb_refl.
  unfold mtu_not_ok4. wps. cbn [last_good_mtu link_mtu]. rewrite Hg, Hl.
  destruct (Z.eqb_spec G (MIN_MTU (conf (ws s)))); [done|]. wps.
  apply wp_when; intros E; subst G'; rewrite E in *; wps; cbn [last_good_mtu link_mtu];
    rewrite ?Hg, ?Hl, ?u32_mtu by lia.
  all: apply link_mtu_set_wp; [done|]; intros s' Hs'; rewrite Hs'; (split; [|done]);
    split; rewrite Hs'; done.
Qed.

(** The minimum was the last good value: the search is given up. *)
Lemma probe_give_up L B s :
  searching L (MIN_MTU (conf (ws s))) B s → limit < L → 4 * L < 5 * MIN_MTU (conf (ws s)) + 3 →
  reaches 1 settled s.
Proof.
  intros [Hl Hg Hb Ht Hp Hd Hmin Hadv] HL Hnear. pose proof (min_mtu_range (conf (ws s))) as Hm.
  cut (wp False (probe limit) (λ _, settled) (λ _ _, False) s).
  { intros ([] & s' & ? & ?)%wp_Val. eapply reaches_step; [done|]. by apply reaches_now. }
  unfold probe. wps. rewrite Hl. destruct (Z.leb_spec L limit); [lia|].
  unfold mtu_not_ok. wps. rewrite Ht, Hd, Hp. cbn [negb orb]. rewrite Z.eqb_refl.
  unfold mtu_not_ok4. wps. cbn [last_good_mtu link_mtu]. rewrite Hg, Z.eqb_refl.
  unfold disable_mtu_disc. wps. apply link_mtu_set_wp; [done|]. intros s1 Hs1. wps.
  apply link_mtu_set_wp; [unfold BUFFER_SIZE; lia|]. intros s2 Hs2. cbn [ws] in Hs2.
  rewrite Hs1 in Hs2.
  assert (El : link_mtu (mt (ws s2)) = MIN_MTU (conf (ws s))) by by rewrite Hs2.
  assert (Et : try_mtu (mt (ws s2)) = false) by by rewrite Hs2.
  assert (Em : conf (ws s2) = conf (ws s)) by by rewrite Hs2.
  split; [|split; [lia|right; rewrite El, Em; split_and!; [done|done|lia]]].
  unfold probe, mtu_ok, gets, mbind, M_bind. rewrite El.
  destruct (Z.leb_spec (MIN_MTU (conf (ws s))) limit); [|lia]. by rewrite Et.
Qed.

(** A full-size packet was accepted. *)
Lemma probe_ok L G B s :
  searching L G B s → 0 ≤ L ≤ limit → L + 1 < B ≤ BUFFER_SIZE →
  ∃ s', probe limit s = Val tt s' ∧ searching ((L + B) / 2) L B s' ∧ conf (ws s') = conf (ws s).
Proof.
  intros [Hl Hg Hb Ht Hp Hd Hmin Hadv] HL HB.
  cut (wp False (probe limit) (λ _ s', searching ((L + B) / 2) L B s' ∧ conf (ws s') = conf (ws s))
         (λ _ _, False) s).
  { intros ([] & s' & ? & ?)%wp_Val. eauto. }
  unfold probe. wps. rewrite Hl. destruct (Z.leb_spec L limit); [|lia].
  unfold mtu_ok. wps. rewrite Ht, Hp. cbn [negb orb].
  change (AF_INET =? AF_INET6) with false. cbn match. wps. rewrite Hl, Hb.
  rewrite !u32_mtu by lia. destruct (Z.eqb_spec B (L + 1)); [lia|].
  destruct (Z.eqb_spec B L); [lia|]. cbn [orb]. wps.
  apply link_mtu_set_wp; [dlia|]. intros s' Hs'. rewrite Hs'. split; [|done].
  split; rewrite Hs'; done.
Qed.

Lemma probe_fixed L G B s :
  searching L G B s → 0 ≤ L ≤ limit → L ≤ BUFFER_SIZE → B = L + 1 ∨ B = L →
  probe limit s = Val tt s.
Proof.
  intros [Hl Hg Hb Ht Hp Hd Hmin Hadv] HL HL2 HB.
  cut (wp False (probe limit) (λ _ s', s' = s) (λ _ _, False) s).
  { by intros ([] & s' & ? & ->)%wp_Val. }
  unfold probe. wps. rewrite Hl. destruct (Z.leb_spec L limit); [|lia].
  unfold mtu_ok. wps. rewrite Ht, Hp. cbn [negb orb].
  change (AF_INET =? AF_INET6) with false. cbn match. wps. rewrite Hl, Hb.
  rewrite (u32_mtu (L + 1)) by (unfold BUFFER_SIZE in *; lia). destruct (Z.eqb_spec B (L + 1)); [done|].
  destruct (Z.eqb_spec B L); [done|lia].
Qed.

(** ** Binary search *)

Context (Hm0 : limit < m0).

Lemma settled_at_limit L G B s :
  searching L G B s → 0 ≤ L ≤ limit → L ≤ BUFFER_SIZE → B = L + 1 → limit < B → settled s.
Proof.
  intros Hs HL HL2 HB Hlim. split.
  - eapply probe_fixed; eauto.
  - destruct Hs. split; [lia|left; lia].
Qed.

(** Between a good value and a bad one, probing their middle. *)
Lemma bisect (k : nat) G B s :
  searching ((G + B) / 2) G B s → 0 ≤ G ≤ limit → limit < B ≤ BUFFER_SIZE →
  B - G ≤ 2 ^ Z.of_nat k → MIN_MTU (conf (ws s)) ≤ G →
  (G = MIN_MTU (conf (ws s)) → 2 * B < 3 * G + 3) →
  reaches (2 * k) settled s.
Proof.
  revert G B s. induction k as [|k IH]; intros G B s Hs HG HB Hd Hmin Hthird.
  { simpl in Hd. apply reaches_now.
    replace ((G + B) / 2) with G in Hs by dlia. eapply settled_at_limit; eauto; lia. }
  rewrite Nat2Z.inj_succ, Z.pow_succ_r in Hd by lia.
  set (L := (G + B) / 2) in *. assert (HL : G ≤ L < B) by (unfold L; dlia).
  destruct (Z.le_gt_cases L limit) as [Hok|Hbad].
  - destruct (decide (B = L + 1)) as [|Hne].
    { apply reaches_now. eapply settled_at_limit; eauto; lia. }
    destruct (probe_ok L G B s Hs) as (s1 & E & Hs1 & Hm1); [lia|lia|].
    eapply reaches_le; [|eapply reaches_step; [exact E|]].
    2: { apply (IH L B); [done|lia|lia| |rewrite Hm1; lia|rewrite Hm1; unfold L in *; dlia]. unfold L. dlia. }
    lia.
  - destruct (decide (G = MIN_MTU (conf (ws s)))) as [->|Hne].
    { specialize (Hthird eq_refl). eapply reaches_le; [|eapply probe_give_up; [exact Hs|lia|unfold L; dlia]]. lia. }
    destruct (probe_not_ok L G B s Hs) as (s1 & E & Hs1 & Hm1); [lia|done|lia|].
    destruct (Z.leb_spec L G); [lia|].
    replace (2 * S k)%nat with (S (S (2 * k))) by lia.
    eapply reaches_step; [exact E|].
    destruct (decide (L = G + 1)) as [Hone|Htwo].
    { apply reaches_now. eapply settled_at_limit; eauto; lia. }
    destruct (probe_ok G G L s1 Hs1) as (s2 & E2 & Hs2 & Hm2); [lia|lia|].
    eapply reaches_step; [exact E2|].
    apply (IH G L); [done|lia|lia| |rewrite Hm2, Hm1; lia|by rewrite Hm2, Hm1]. unfold L. dlia.
Qed.

(** From a good value below a bad one. *)
Lemma bisect_start G B s :
  searching G G B s → 0 ≤ G ≤ limit → limit < B ≤ BUFFER_SIZE → MIN_MTU (conf (ws s)) ≤ G →
  (G = MIN_MTU (conf (ws s)) → 2 * B < 3 * G + 3) →
  reaches 29 settled s.
Proof.
  intros Hs HG HB Hmin Hthird. destruct (decide (B = G + 1)).
  { apply reaches_now. eapply settled_at_limit; eauto; lia. }
  destruct (probe_ok G G B s Hs) as (s1 & E & Hs1 & Hm1); [lia|lia|].
  eapply reaches_step; [exact E|].
  apply (bisect 14 G B); [done|lia|lia| |rewrite Hm1; lia|by rewrite Hm1].
  unfold BUFFER_SIZE in HB. change (2 ^ Z.of_nat 14) with 16384. lia.
Qed.

(** ** Lowering the MTU by thirds *)

Definition lowered (s : wstate W) : Prop :=
  ∃ G B, searching G G B s ∧ 0 ≤ G ≤ limit ∧ limit < B ≤ BUFFER_SIZE ∧ MIN_MTU (conf (ws s)) ≤ G ∧
    (G = MIN_MTU (conf (ws s)) → 2 * B < 3 * G + 3).

Lemma lower (k : nat) L B s :
  searching L L B s → limit < L ≤ BUFFER_SIZE →
  L * 2 ^ Z.of_nat k ≤ MIN_MTU (conf (ws s)) * 3 ^ Z.of_nat k →
  reaches k lowered s.
Proof.
  revert L B s. induction k as [|k IH]; intros L B s Hs HL Hk.
  { simpl in Hk. destruct Hs. lia. }
  rewrite Nat2Z.inj_succ, !Z.pow_succ_r in Hk by lia.
  assert (Hlim : MIN_MTU (conf (ws s)) ≤ limit) by apply Hs.
  pose proof (min_mtu_range (conf (ws s))) as Hmr.
  destruct (probe_not_ok L L B s Hs) as (s1 & E & Hs1 & Hm1); [lia|lia|lia|].
  rewrite Z.leb_refl in Hs1. set (G := Z.max _ _) in *.
  eapply reaches_step; [exact E|].
  assert (HG : MIN_MTU (conf (ws s)) ≤ G < L) by (unfold G; dlia).
  destruct (Z.le_gt_cases G limit).
  - apply reaches_now. exists G, L. rewrite Hm1. split_and!; try done; try lia. intros HGm. unfold G in *. dlia.
  - apply (IH G L); [done|lia|]. rewrite Hm1.
    assert (3 * G ≤ 2 * L) by (unfold G in *; dlia).
    assert (0 < 2 ^ Z.of_nat k) by lia. nia.
Qed.
End search.

(** C13: MTU discovery over IPv4.  From its start at [m0], above the minimum,
    on a path that carries up to [limit] bytes and at least the minimum, forty
    answers to full-size packets are enough: from then on the MTU does not
    change and is carried by the path, and it is the limit itself (or [m0],
    when that is less), unless the limit is less than a quarter above the
    minimum: then it may also be the minimum, with discovery switched off. *)
Theorem mtu_search_converges {W} `{World W} (limit m0 : Z) (s : wstate W) :
  searching limit m0 m0 m0 s → MIN_MTU (conf (ws s)) < m0 ≤ BUFFER_SIZE →
  ∃ s', probes 40 limit s = Val tt s' ∧ settled limit m0 s'.
Proof.
  intros Hs Hm. pose proof (min_mtu_range (conf (ws s))) as Hmr.
  assert (Hr : reaches limit 40 (settled limit m0) s).
  { destruct (Z.le_gt_cases m0 limit) as [Hle|Hgt].
    - apply reaches_now. split; [eapply probe_fixed; eauto; lia|].
      destruct Hs. split; [lia|left; lia].
    - apply (reaches_trans limit 8 32 (lowered limit)).
      + apply (lower limit 8 m0 m0); [done|lia|].
        unfold BUFFER_SIZE in Hm. change (2 ^ Z.of_nat 8) with 256.
        change (3 ^ Z.of_nat 8) with 6561. lia.
      + intros s1 (G & B & Hs1 & HG & HB & Hmin & Hthird).
        eapply reaches_le; [|apply (bisect_start limit m0 Hgt G B); done]. lia. }
  destruct Hr as (k & s' & Hk & Hp & Hset). exists s'. split; [|done].
  replace 40%nat with (k + (40 - k))%nat by lia.
  rewrite (probes_add k (40 - k) limit s s' Hp). apply probes_stable, Hset.
Qed.
