(* ===== verification/WorkerLoop.v ===== *)
(** * The loop of a VPN session (src/worker-vpn.c, worker-misc.c)

    Packets from the client, packets from the tun device, the periodic check,
    commands of the main process, and [session_turn], one turn of the loop of
    [connect_handler]. *)

From S2P Require Import Prelude Lzs IpUtil SecModData Bandwidth WorkerState WorkerIo WorkerMtu.

Definition AC_PKT_DATA : Z := 0.
Definition AC_PKT_DPD_OUT : Z := 3.
Definition AC_PKT_DPD_RESP : Z := 4.
Definition AC_PKT_DISCONN : Z := 5.
Definition AC_PKT_KEEPALIVE : Z := 7.
Definition AC_PKT_COMPRESSED : Z := 8.

Definition PERIODIC_CHECK_TIME : Z := 30.
Definition DPD_TRIES : Z := 2.
Definition DPD_MAX_TRIES : Z := 3.
Definition UDP_SWITCH_TIME : Z := 15.

(** 'S' 'T' 'F' 1, the length, the type, 0. *)
Definition cstp_header (size type : Z) : list Z :=
  [83; 84; 70; 1; u8 (Z.shiftr size 8); Z.land size 255; type; 0].

(** [FUZZ(x, diff, rnd)]: the remainder of C on an [int16_t]. *)
Definition FUZZ (x diff rnd : Z) : Z :=
  if diff <? x then
    let r := u16 rnd in
    let r := if r <? 2 ^ 15 then r else r - 2 ^ 16 in
    x + Z.rem r diff
  else x.

Section loop.
Context {W : Type} `{World W}.
Context (patience : nat).

(** ** Compression methods *)

(** The output buffer is the object from the pointer on; what a failed call
    leaves in it is not used. *)
Definition compress (c : comp_type_t) (dst src : list Z) : cres (Z * list Z) :=
  match c with
  | OC_COMP_LZS => lzs_compress dst (Z.of_nat (length dst)) src (Z.of_nat (length src))
  | OC_COMP_LZ4 =>
    match lz4_compress_fn src with
    | Some out => d ← poke dst 0 out; Ok (Z.of_nat (length out), d)
    | None => Ok (0, dst)
    end
  end.

Definition decompress (c : comp_type_t) (dst src : list Z) : cres (Z * list Z) :=
  match c with
  | OC_COMP_LZS => lzs_decompress dst (Z.of_nat (length dst)) src (Z.of_nat (length src))
  | OC_COMP_LZ4 =>
    match lz4_decompress_fn (Z.of_nat (length dst)) src with
    | Some out => d ← poke dst 0 out; Ok (Z.of_nat (length out), d)
    | None => Ok (-1, dst)
    end
  end.

(** [compress(ws->decomp+8, sizeof(ws->decomp)-8, src, l)]. *)
Definition compress_out (c : comp_type_t) (src : list Z) : M W Z :=
  b ← gets (λ x, decomp (dat x));
  match compress c (drop 8 b) src with
  | Ok (n, d) => set_dat (λ y, {| y with decomp := take 8 b ++ d |}) ;;; mret n
  | Err e => mret e
  | _ => undef
  end.

(** [decompress(ws->decomp, sizeof(ws->decomp), src, size)]. *)
Definition decompress_in (c : comp_type_t) (src : list Z) : M W Z :=
  b ← gets (λ x, decomp (dat x));
  match decompress c b src with
  | Ok (n, d) => set_dat (λ y, {| y with decomp := d |}) ;;; mret n
  | Err e => mret e
  | _ => undef
  end.

(** ** Packets from the client *)

(** [case AC_PKT_DATA] of [parse_data]. *)
Definition to_tun (plain : list Z) (plain_size now : Z) : M W Z :=
  ret ← tun_write patience plain plain_size;
  if ret =? -1 then mret (-1) else
  set_dat (λ d, {| d with tun_bytes_in := u64 (tun_bytes_in d + plain_size) |}) ;;;
  set_times (λ t, {| t with last_nc_msg := now |}) ;;;
  mret 0.

(** [case AC_PKT_COMPRESSED]. *)
Definition compressed_to_tun (c : option comp_type_t) (plain : list Z) (now : Z) : M W Z :=
  match c with
  | None => mret (-1)
  | Some c =>
    plain_size ← decompress_in c plain;
    if plain_size <=? 0 then mret (-1) else
    b ← gets (λ x, decomp (dat x));
    to_tun b plain_size now
  end.

(** [case AC_PKT_DPD_OUT] on the CSTP channel. *)
Definition cstp_dpd (buf : list Z) : M W Z :=
  let buf := <[6%nat := AC_PKT_DPD_RESP]> buf in
  ret ← cstp_send patience buf (Z.of_nat (length buf));
  mret (if ret <? 0 then -1 else 0).

(** [case AC_PKT_DPD_OUT] on the DTLS channel. *)
Definition dtls_dpd (buf : list Z) : M W Z :=
  let buf := <[0%nat := AC_PKT_DPD_RESP]> buf in
  let buf_size := Z.of_nat (length buf) in
  m ← gets (λ x, DATA_MTU (mt x) (link_mtu (mt x)));
  when (m <? buf_size - CSTP_DTLS_OVERHEAD) (data_mtu_set (u32 (buf_size - CSTP_DTLS_OVERHEAD))) ;;;
  ret ← dtls_send patience buf buf_size;
  ret ← (if ret =? GNUTLS_E_LARGE_PACKET then mtu_not_ok ;;; dtls_send patience buf 1
         else mret ret);
  mret (if ret <? 0 then -1 else 0).

Definition parse_data (buf : list Z) (now : Z) (is_dtls : bool) : M W Z :=
  match buf !! (if is_dtls then 0 else 6)%nat with
  | None => undef
  | Some head =>
    let plain := drop (if is_dtls then 1 else 8) buf in
    let plain_size := Z.of_nat (length buf) - (if is_dtls then 1 else 8) in
    if (head =? AC_PKT_DPD_RESP) || (head =? AC_PKT_KEEPALIVE) then mret 0
    else if head =? AC_PKT_DPD_OUT then
      if is_dtls then dtls_dpd buf else cstp_dpd buf
    else if head =? AC_PKT_DISCONN then exit_worker_reason REASON_USER_DISCONNECT
    else if head =? AC_PKT_COMPRESSED then
      c ← gets (λ x, if is_dtls then dtls_selected_comp (conf x) else cstp_selected_comp (conf x));
      compressed_to_tun c plain now
    else if head =? AC_PKT_DATA then to_tun plain plain_size now
    else mret 0
  end.

Definition is_active (u : udp_port_state_t) : bool := bool_decide (u = UP_ACTIVE).

Definition set_udp_state (u : udp_port_state_t) : M W unit :=
  set_udp (λ x, {| x with udp_state := u |}).

Definition parse_cstp_data (buf : list Z) (now : Z) : M W Z :=
  match buf with
  | b0 :: b1 :: b2 :: b3 :: b4 :: b5 :: b6 :: b7 :: _ =>
    if negb ((b0 =? 83) && (b1 =? 84) && (b2 =? 70) && (b3 =? 1) && (b7 =? 0)) then mret (-1) else
    let pktlen := Z.shiftl b4 8 + b5 in
    if negb (Z.of_nat (length buf) =? 8 + pktlen) then mret (-1) else
    u ← gets (λ x, udp_state (udp x));
    when ((b6 =? AC_PKT_DATA) && is_active u) (set_udp_state UP_INACTIVE) ;;;
    ret ← parse_data buf now false;
    set_times (λ t, {| t with last_msg_tcp := now |}) ;;;
    mret ret
  | _ => mret (-1)
  end.

Definition parse_dtls_data (buf : list Z) (now : Z) : M W Z :=
  match buf with
  | [] => mret (-1)
  | _ =>
    ret ← parse_data buf now true;
    set_times (λ t, {| t with last_msg_udp := now |}) ;;;
    mret ret
  end.

(** [bandwidth_update(&ws->b_rx, bytes, tnow)] and [b_tx]. *)
Definition update_rx (bytes : Z) (tnow : timespec) : M W bool :=
  b ← gets (λ x, b_rx (dat x));
  let '(ok, b) := bandwidth_update b bytes tnow in
  set_dat (λ d, {| d with b_rx := b |}) ;;; mret ok.

Definition update_tx (bytes : Z) (tnow : timespec) : M W bool :=
  b ← gets (λ x, b_tx (dat x));
  let '(ok, b) := bandwidth_update b bytes tnow in
  set_dat (λ d, {| d with b_tx := b |}) ;;; mret ok.

(** [do ret = gnutls_handshake(...); while (retry ret)]. *)
Fixpoint handshake (hs : W → Z * W) (retry : Z → bool) (fuel : nat) : M W Z :=
  match fuel with
  | O => blocked
  | S fuel =>
    ret ← call hs;
    if retry ret then handshake hs retry fuel else mret ret
  end.

(** *** [tls_mainloop] *)

Definition tls_rehandshake (tnow : timespec) : M W Z :=
  last ← gets (λ x, last_tls_rehandshake (times x));
  rekey ← gets (λ x, rekey_time (conf x));
  if (0 <? last) && (tv_sec tnow - last <? Z.quot rekey 2) then mret (-1) else
  ret ← handshake tls_handshake (λ r, (r <? 0) && negb (gnutls_error_is_fatal r)) patience;
  DTLS_FATAL_ERR_CMD ret ;;;
  set_times (λ t, {| t with last_tls_rehandshake := tv_sec tnow |}) ;;;
  mret 0.

Definition tls_packet (data : list Z) (tnow : timespec) : M W Z :=
  ok ← update_rx (Z.of_nat (length data) - 8) tnow;
  if negb ok then mret 0 else
  ret ← parse_cstp_data data (tv_sec tnow);
  if ret <? 0 then mret ret else
  u ← gets udp;
  when (((ret =? AC_PKT_DATA) || (ret =? AC_PKT_COMPRESSED)) && is_active (udp_state u) &&
        (UDP_SWITCH_TIME <? tv_sec tnow - udp_recv_time u)) (set_udp_state UP_INACTIVE) ;;;
  mret 0.

Definition tls_mainloop (tnow : timespec) : M W Z :=
  '(ret, data) ← cstp_recv_packet;
  if ret =? GNUTLS_E_PREMATURE_TERMINATION then mret (-1) else
  CSTP_FATAL_ERR_CMD ret ;;;
  if ret =? 0 then mret (-1)
  else if 8 <=? ret then tls_packet data tnow
  else if ret =? GNUTLS_E_REHANDSHAKE then tls_rehandshake tnow
  else mret 0.

(** *** [dtls_mainloop] *)

Definition dtls_rehandshake (tnow : timespec) : M W Z :=
  last ← gets (λ x, last_dtls_rehandshake (times x));
  rekey ← gets (λ x, rekey_time (conf x));
  if (0 <? last) && (tv_sec tnow - last <? Z.quot rekey 2) then mret (-1) else
  ret ← handshake dtls_handshake try_again patience;
  DTLS_FATAL_ERR_CMD ret ;;;
  set_times (λ t, {| t with last_dtls_rehandshake := tv_sec tnow |}) ;;;
  mret 0.

Definition dtls_packet (data : list Z) (tnow : timespec) : M W Z :=
  set_udp_state UP_ACTIVE ;;;
  ok ← update_rx (Z.of_nat (length data) - CSTP_DTLS_OVERHEAD) tnow;
  if negb ok then mret 0 else parse_dtls_data data (tv_sec tnow).

(** [case UP_ACTIVE: case UP_INACTIVE:]. *)
Definition dtls_receive (tnow : timespec) : M W Z :=
  '(ret, data) ← dtls_recv_packet;
  DTLS_FATAL_ERR_CMD ret ;;;
  r ← (if ret =? GNUTLS_E_REHANDSHAKE then dtls_rehandshake tnow
       else if 1 <=? ret then dtls_packet data tnow
       else mret 0);
  if r <? 0 then mret r else
  set_udp (λ x, {| x with udp_recv_time := tv_sec tnow |}) ;;;
  mret 0.

Definition setup_dtls_psk_keys : M W Z :=
  tls ← gets (λ x, session (conf x));
  if negb tls then mret (-1) else
  ret ← call (dtls_setup PrioritySetDirect);
  if ret <? 0 then mret ret else
  ret ← call (dtls_setup Prf);
  if ret <? 0 then mret ret else
  ret ← call (dtls_setup CredentialsSet);
  mret (if ret <? 0 then ret else 0).

Definition setup_legacy_dtls_keys : M W Z :=
  suite ← gets (λ x, has_ciphersuite (conf x));
  if negb suite then mret (-1) else
  ret ← call (dtls_setup PrioritySetDirect);
  if ret <? 0 then mret ret else
  ret ← call (dtls_setup SetPremaster);
  if ret <? 0 then mret ret else
  ret ← call (dtls_setup CredentialsSet);
  mret (if ret <? 0 then ret else 0).

Definition setup_dtls_connection : M W Z :=
  ret ← call (dtls_setup GnutlsInit);
  if ret <? 0 then mret (-1) else
  c ← gets conf;
  ret ← (if use_psk c && session c then setup_dtls_psk_keys
         else if negb (dtls_legacy c) then mret (-1)
         else setup_legacy_dtls_keys);
  if ret <? 0 then mret (-1) else
  set_udp_state UP_HANDSHAKE ;;;
  a ← gets (λ x, adv_link_mtu (mt x));
  link_mtu_set a ;;;
  set_udp (λ x, {| x with dtls_session := true |}) ;;;
  mret 0.

Definition dtls_start : M W Z :=
  ret ← setup_dtls_connection;
  if ret <? 0 then mret (-1) else
  m ← gets mt;
  tell (gnutls_dtls_set_mtu (u32 (link_mtu m - dtls_proto_overhead m))) ;;;
  mtu_discovery_init (link_mtu m) ;;;
  mret 0.

(** [case UP_HANDSHAKE:] with its [goto hsk_restart]. *)
Fixpoint hsk_restart (fuel : nat) : M W Z :=
  match fuel with
  | O => blocked
  | S fuel =>
    ret ← call dtls_handshake;
    if (ret <? 0) && gnutls_error_is_fatal ret then set_udp_state UP_DISABLED ;;; mret 0
    else if ret =? GNUTLS_E_LARGE_PACKET then mtu_not_ok ;;; hsk_restart fuel
    else if ret =? 0 then set_udp_state UP_ACTIVE ;;; emit SessionInfoMsg ;;; mret 0
    else mret 0
  end.

Definition dtls_mainloop (tnow : timespec) : M W Z :=
  u ← gets (λ x, udp_state (udp x));
  match u with
  | UP_ACTIVE | UP_INACTIVE => dtls_receive tnow
  | UP_SETUP => dtls_start
  | UP_HANDSHAKE =>
    s ← gets (λ x, dtls_session (udp x));
    if (s : bool) then hsk_restart patience else undef
  | _ => mret 0
  end.
End loop.
