(* ===== verification/WorkerTurn.v ===== *)
(** * One turn of the session loop (src/worker-vpn.c, worker-misc.c)

    Packets from the tun device, the periodic check, commands of the main
    process, and the body of the loop of [connect_handler]. *)

From S2P Require Import Prelude Lzs IpUtil SecModData Bandwidth WorkerState WorkerIo WorkerMtu.
From S2P Require Import WorkerLoop.

Section turn.
Context {W : Type} `{World W}.
Context (patience : nat).

(** ** Packets from the tun device *)

(** Where a packet to send is: at offset 8 of [ws->buffer] or [ws->decomp]. *)
Inductive place := InBuffer | InDecomp.

Record to_send := { where_ : place; size : Z; type : Z }.

Definition read_obj (p : place) : M W (list Z) :=
  gets (λ x, match p with InBuffer => buffer (dat x) | InDecomp => decomp (dat x) end).

Definition write_obj (p : place) (off : nat) (bs : list Z) : M W unit :=
  b ← read_obj p;
  match poke b off bs with
  | Ok b' => set_dat (λ d, match p with
                           | InBuffer => {| d with buffer := b' |}
                           | InDecomp => {| d with decomp := b' |} end)
  | _ => undef
  end.

(** The [if (ws->udp_state == UP_ACTIVE && ...) ... else if ...] that
    compresses the [l] bytes read: what to send on DTLS and on CSTP. *)
Definition tun_compress (l : Z) : M W (to_send * to_send) :=
  let plain := {| where_ := InBuffer; size := l; type := AC_PKT_DATA |} in
  let compressed n := {| where_ := InDecomp; size := n; type := AC_PKT_COMPRESSED |} in
  c ← gets conf;
  u ← gets (λ x, udp_state (udp x));
  b ← gets (λ x, buffer (dat x));
  let pkt := take (Z.to_nat l) (drop 8 b) in
  let long := no_compress_limit c <? l in
  match (if is_active u && long then dtls_selected_comp c else None) with
  | Some dc =>
    ret ← compress_out dc pkt;
    if (0 <? ret) && (ret <? l) then
      mret (compressed ret,
            if bool_decide (cstp_selected_comp c = Some dc) then compressed ret else plain)
    else mret (plain, plain)
  | None =>
    match (if long then cstp_selected_comp c else None) with
    | Some cc =>
      ret ← compress_out cc pkt;
      mret (plain, if (0 <? ret) && (ret <? l) then compressed ret else plain)
    | None => mret (plain, plain)
    end
  end.

Definition count_out (n : Z) : M W unit :=
  set_dat (λ d, {| d with tun_bytes_out := u64 (tun_bytes_out d + n) |}).

(** Sending on DTLS; the result is [tls_retry]. *)
Definition tun_send_dtls (p : to_send) : M W bool :=
  count_out (size p) ;;;
  write_obj (where_ p) 7 [type p] ;;;
  b ← read_obj (where_ p);
  ret ← dtls_send patience (drop 7 b) (size p + 1);
  DTLS_FATAL_ERR_CMD ret ;;;
  if ret =? GNUTLS_E_LARGE_PACKET then mtu_not_ok ;;; mret true else
  m ← gets mt;
  (* the comparison is unsigned *)
  when ((u32 (1 + DATA_MTU m (link_mtu m)) <=? u32 ret) && try_mtu m) mtu_ok ;;;
  mret false.

Definition tun_send_cstp (p : to_send) : M W unit :=
  write_obj (where_ p) 0 (cstp_header (size p) (type p)) ;;;
  count_out (size p) ;;;
  b ← read_obj (where_ p);
  ret ← cstp_send patience b (size p + 8);
  CSTP_FATAL_ERR_CMD ret.

(** [if (WSCONFIG(ws)->switch_to_tcp_timeout && ...)]. *)
Definition tun_switch_to_tcp (tnow : timespec) : M W unit :=
  sw ← gets (λ x, switch_to_tcp_timeout (conf x));
  u ← gets udp;
  when (negb (sw =? 0) && is_active (udp_state u) && (udp_recv_time u + sw <? tv_sec tnow))
    (set_udp_state UP_INACTIVE).

(** The packet of [l] bytes that was read. *)
Definition tun_packet (l : Z) (tnow : timespec) : M W unit :=
  tun_switch_to_tcp tnow ;;;
  '(dtls_to_send, cstp_to_send) ← tun_compress l;
  ok ← update_tx (size dtls_to_send) tnow;
  when ok (
    u ← gets (λ x, udp_state (udp x));
    tls_retry ← (if is_active u then tun_send_dtls dtls_to_send else mret false);
    u ← gets (λ x, udp_state (udp x));
    when (negb (is_active u) || tls_retry) (tun_send_cstp cstp_to_send) ;;;
    set_times (λ t, {| t with last_nc_msg := tv_sec tnow |})).

Definition tun_mainloop (tnow : timespec) : M W Z :=
  m ← gets (λ x, DATA_MTU (mt x) (link_mtu (mt x)));
  '(l, again) ← tun_read 8 m;
  if l <? 0 then mret (if (again : bool) then 0 else -1)
  else if l =? 0 then mret 0
  else tun_packet l tnow ;;; mret 0.

(** ** The periodic check *)

(** The time-outs; the result is whether to [goto cleanup]. *)
Definition check_timeouts (now : Z) : M W bool :=
  c ← gets conf;
  t ← gets times;
  if (0 <? idle_timeout c) && (idle_timeout c <? now - last_nc_msg t) then
    modify (λ x, {| x with terminate := true; terminate_reason := REASON_IDLE_TIMEOUT |}) ;;;
    mret true
  else if (0 <? session_timeout_secs c) && (session_timeout_secs c <? now - session_start_time c)
  then
    modify (λ x, {| x with terminate := true; terminate_reason := REASON_SESSION_TIMEOUT |}) ;;;
    mret true
  else mret false.

Definition check_stats (now : Z) : M W unit :=
  c ← gets conf;
  t ← gets times;
  when ((0 <? interim_update_secs c) && (interim_update_secs c <=? now - last_stats_msg t) &&
        sid_set c) (send_stats_to_secmod now 0).

(** Dead peer detection on the DTLS channel. *)
Definition check_dpd_udp (now : Z) : M W unit :=
  dpd ← gets (λ x, dpd (conf x));
  u ← gets (λ x, udp_state (udp x));
  last ← gets (λ x, last_msg_udp (times x));
  when (is_active u && (u32 (DPD_TRIES * dpd) <? now - last) && (0 <? dpd)) (
    data_mtu ← gets (λ x, DATA_MTU (mt x) (link_mtu (mt x)));
    (if BUFFER_SIZE <? 1 + data_mtu then undef
     else write_obj InBuffer 1 (replicate (Z.to_nat data_mtu) 0)) ;;;
    write_obj InBuffer 0 [AC_PKT_DPD_OUT] ;;;
    b ← gets (λ x, buffer (dat x));
    ret ← dtls_send patience b (u32 (data_mtu + 1));
    DTLS_FATAL_ERR_CMD ret ;;;
    when (u32 (DPD_MAX_TRIES * dpd) <? now - last) (set_udp_state UP_INACTIVE)).

(** Dead peer detection on the CSTP channel. *)
Definition check_dpd_tcp (now : Z) : M W unit :=
  dpd ← gets (λ x, dpd (conf x));
  last ← gets (λ x, last_msg_tcp (times x));
  when ((0 <? dpd) && (u32 (DPD_TRIES * dpd) <? now - last)) (
    write_obj InBuffer 0 (cstp_header 0 AC_PKT_DPD_OUT) ;;;
    b ← gets (λ x, buffer (dat x));
    ret ← cstp_send patience b 8;
    CSTP_FATAL_ERR_CMD ret ;;;
    when (u32 (DPD_MAX_TRIES * dpd) <? now - last) (exit_worker_reason REASON_DPD_TIMEOUT)).

Definition check_pmtu : M W unit :=
  u ← gets (λ x, conn_unix (conf x));
  st ← gets (λ x, udp_state (udp x));
  when (negb u && negb (bool_decide (st = UP_DISABLED))) (
    max ← get_pmtu_approx;
    l ← gets (λ x, link_mtu (mt x));
    when ((0 <? max) && (max <? l)) (link_mtu_set max)).

Definition periodic_check (tnow : timespec) : M W Z :=
  let now := tv_sec tnow in
  last ← gets (λ x, last_periodic_check (times x));
  if now - last <? FUZZ PERIODIC_CHECK_TIME 5 (tv_nsec tnow) then mret 0 else
  set_times (λ t, {| t with alarm_at := now + 1800 |}) ;;;
  stop ← check_timeouts now;
  when (negb stop) (
    check_stats now ;;;
    check_dpd_udp now ;;;
    check_dpd_tcp now ;;;
    check_pmtu) ;;;
  set_times (λ t, {| t with last_periodic_check := now |}) ;;;
  mret 0.

(** ** Commands of the main process *)

Definition ERR_NO_CMD_FD : Z := -13.

(** The result and the message that is left. *)
Definition recv_from_new_fd (fd : Z) (tmsg : option (list Z)) : M W (bool * option (list Z)) :=
  u ← gets udp;
  if negb (dtls_session u) || negb (is_active (udp_state u)) then mret (true, tmsg) else
  '(ret, tmsg) ← call (dtls_probe tmsg);
  mret (0 <? ret, tmsg).

Definition accept_udp_fd (hello : bool) (tmsg : option (list Z)) (fd : Z) : M W Z :=
  '(ok, tmsg) ← (if hello then set_udp_state UP_SETUP ;;; mret (true, tmsg)
                 else recv_from_new_fd fd tmsg);
  if negb ok then mret 0 else
  now ← call time0;
  set_udp (λ u, {| u with tptr_msg := tmsg; tptr_fd := fd; udp_recv_time := now |}) ;;;
  mret 0.

Definition handle_commands_from_main : M W Z :=
  set_dat (λ d, {| d with buffer := replicate (Z.to_nat BUFFER_SIZE) 0 |}) ;;;
  c ← call recv_main;
  match c with
  | CmdRecvError => exit_worker_reason REASON_SERVER_DISCONNECT
  | CmdEmpty => mret ERR_NO_CMD_FD
  | CmdTerminate => exit_worker_reason REASON_SERVER_DISCONNECT
  | CmdUdpFd msg fd =>
    let hello := match msg with Some (h, _) => h | None => true end in
    if fd =? -1 then
      u ← gets udp;
      when (tptr_fd u =? -1) (set_udp_state UP_DISABLED) ;;; mret (-1)
    else accept_udp_fd hello (snd <$> msg) fd
  | CmdUnknown => exit_worker_reason REASON_ERROR
  end.

(** ** The turn *)

Inductive poll_result :=
| PollIntr (sigterm : bool)     (* EINTR or EAGAIN, after SIGTERM or not *)
| PollFails
| PollEvents (err : bool) (tls cmd tun dtls : bool).

(** What a turn finds: pending records, the result of [poll] and the time. *)
Record turn := {
  tls_pending : bool;
  dtls_pending : bool;
  polled : poll_result;
  tnow : timespec }.

(** The label [terminate:]. *)
Definition do_terminate {A} : M W A :=
  write_obj InBuffer 0 (cstp_header 0 AC_PKT_DISCONN) ;;;
  b ← gets (λ x, buffer (dat x));
  _ ← cstp_send patience b 8;
  r ← gets terminate_reason;
  exit_worker_reason r.

(** The label [exit:]. *)
Definition do_exit {A} : M W A :=
  modify (λ x, {| x with terminate_reason := REASON_ERROR |}) ;;;
  cstp_close ;;;
  u ← gets udp;
  when (is_active (udp_state u) && dtls_session u) dtls_close ;;;
  exit_worker_reason REASON_ERROR.

Definition exit_on_error (m : M W Z) : M W unit :=
  ret ← m;
  if ret <? 0 then do_exit else mret tt.

Definition handle_cmd : M W unit :=
  ret ← handle_commands_from_main;
  if ret =? ERR_NO_CMD_FD then
    modify (λ x, {| x with terminate_reason := REASON_ERROR |}) ;;; do_terminate
  else if ret <? 0 then do_exit else mret tt.

(** After [poll]: the channels with something to read. *)
Definition serve (tls cmd tun : bool) (dtls : bool) (tnow : timespec) : M W unit :=
  exit_on_error (periodic_check tnow) ;;;
  when tun (exit_on_error (tun_mainloop tnow)) ;;;
  when tls (exit_on_error (tls_mainloop patience tnow)) ;;;
  u ← gets (λ x, udp_state (udp x));
  when ((up_num UP_WAIT_FD <? up_num u) && dtls) (exit_on_error (dtls_mainloop patience tnow)) ;;;
  when cmd handle_cmd.

Definition session_turn (t : turn) : M W unit :=
  stop ← gets terminate;
  if (stop : bool) then do_terminate else
  c ← gets (λ x, session (conf x));
  u ← gets udp;
  let tls_pending := tls_pending t && c in
  let dtls_fd := up_num UP_WAIT_FD <? up_num (udp_state u) in
  let dtls_pending := dtls_fd && (bool_decide (is_Some (tptr_msg u)) ||
                                  dtls_session u && dtls_pending t) in
  if tls_pending || dtls_pending then serve tls_pending false false dtls_pending (tnow t) else
  match polled t with
  | PollIntr sigterm =>
    when sigterm (modify (λ x, {| x with terminate := true;
                                         terminate_reason := REASON_SERVER_DISCONNECT |}))
  | PollFails => do_exit
  | PollEvents err tls cmd tun dtls =>
    if err then do_exit else serve tls cmd tun (dtls && dtls_fd) (tnow t)
  end.

(** A session: the turns of the loop. *)
Fixpoint run_session (ts : list turn) : M W unit :=
  match ts with [] => mret tt | t :: ts => session_turn t ;;; run_session ts end.
End turn.
