(* ===== verification/WorkerLaws.v ===== *)
(** * What a session relies on, and its invariant

    [WorldLaws] is what GnuTLS, the kernel and LZ4 promise; [WholeRecords] says
    that the peer has not negotiated small records; [prompt] says that
    no call has to be repeated; [worker_ok] is the invariant of the state.
    The lemmas run the functions of WorkerIo in any world. *)

From S2P Require Import Prelude IpUtil SecModData Bandwidth WorkerState WorkerIo WorkerMtu.

(** The least path MTU the kernel reports (net.ipv4.route.min_pmtu). *)
Definition MTU_FLOOR : Z := 552.

Class WorldLaws (W : Type) `{World W} := {
  (* a datagram is sent whole or not at all *)
  law_dtls_send bs w r w' :
    dtls_record_send bs w = (r, w') → 0 < Z.of_nat (length bs) ≤ BUFFER_SIZE →
    0 ≤ r → r = Z.of_nat (length bs);
  (* a received record has the length that is reported, at most 16 KiB *)
  law_tls_recv w r data w' :
    tls_recv_packet w = (r, data, w') → 0 < r →
    r = Z.of_nat (length data) ∧ r ≤ BUFFER_SIZE ∧ bytes data;
  law_dtls_recv w r data w' :
    dtls_recv w = (r, data, w') → 0 < r →
    r = Z.of_nat (length data) ∧ r ≤ BUFFER_SIZE ∧ bytes data;
  (* read, recv and write transfer at most what they are asked to *)
  law_sock_write bs w r e w' :
    sock_write bs w = (r, e, w') → r ≤ Z.of_nat (length bs);
  law_sock_recv n w bs w' :
    sock_recv n w = (RecvData bs, w') → (length bs ≤ n)%nat ∧ bytes bs;
  law_tun_read len w r e bs w' :
    tun_dev_read len w = (r, e, bs, w') → 0 ≤ r →
    r = Z.of_nat (length bs) ∧ r ≤ len ∧ bytes bs;
  law_tun_write bs w r e w' :
    tun_dev_write bs w = (r, e, w') → r ≤ Z.of_nat (length bs);
  law_pmtu w m w' : tcp_info_pmtu w = (Some m, w') → MTU_FLOOR ≤ m < 2 ^ 31;
  law_pathmtu w m w' : ipv6_pathmtu w = (Some m, w') → 0 ≤ m < 2 ^ 32;
  (* GnuTLS adds the record overhead [dtls_overhead] to the data MTU it is given *)
  dtls_overhead : Z;
  law_get_mtu w : 0 ≤ gnutls_dtls_get_mtu w < 2 ^ 31;
  law_data_mtu x w :
    0 ≤ x ≤ BUFFER_SIZE + 1 → x + dtls_overhead ≤ gnutls_dtls_get_mtu (gnutls_dtls_set_data_mtu x w);
  law_lz4_compress src out : lz4_compress_fn src = Some out → (length out ≤ length src)%nat;
  law_lz4_decompress n src out :
    lz4_decompress_fn n src = Some out → Z.of_nat (length out) ≤ n }.

(** GnuTLS takes what the worker sends at once, at most 16 KiB, as one record
    or not at all.  This is so unless the peer has negotiated smaller records:
    then [gnutls_record_send] takes less, and [cstp_send] reads beyond the data
    (WorkerTheorems.cstp_send_partial_overread). *)
Class WholeRecords (W : Type) `{World W} : Prop :=
  law_tls_send : ∀ bs w r w',
    tls_record_send bs w = (r, w') → 0 < Z.of_nat (length bs) ≤ BUFFER_SIZE →
    0 ≤ r → r = Z.of_nat (length bs).

(** No call has to be repeated. *)
Record prompt (W : Type) `{World W} : Prop := {
  prompt_tls bs w : try_again (tls_record_send bs w).1 = false;
  prompt_dtls bs w : try_again (dtls_record_send bs w).1 = false;
  prompt_sock bs w : (sock_write bs w).1 = (Z.of_nat (length bs), false) ∨
                     (sock_write bs w).1 = (-1, false);
  prompt_tun bs w : (tun_dev_write bs w).1 = (Z.of_nat (length bs), false) ∨
                    (tun_dev_write bs w).1 = (-1, false);
  prompt_tls_hs w : (tls_handshake w).1 < 0 → gnutls_error_is_fatal (tls_handshake w).1 = true;
  prompt_dtls_hs w : try_again (dtls_handshake w).1 = false ∧
                     (dtls_handshake w).1 ≠ GNUTLS_E_LARGE_PACKET }.

(** ** The invariant *)

Definition mtu_range (m : Z) : Prop := MTU_FLOOR ≤ m ≤ BUFFER_SIZE.

(** [d] is the record overhead of GnuTLS, [dtls] whether a DTLS session was
    started, and with it the search for the MTU. *)
Record mtu_wf (d : Z) (dtls : bool) (m : mtu_st) : Prop := {
  mw_link : mtu_range (link_mtu m);
  mw_adv : mtu_range (adv_link_mtu m);
  mw_good : dtls → mtu_range (last_good_mtu m);
  mw_bad : dtls → mtu_range (last_bad_mtu m);
  mw_proto : IP_HEADER_SIZE + UDP_HEADER_SIZE ≤ dtls_proto_overhead m;
  mw_crypto : 0 ≤ dtls_crypto_overhead m ≤ d + CSTP_DTLS_OVERHEAD;
  mw_overhead : dtls_crypto_overhead m + dtls_proto_overhead m ≤ MTU_FLOOR }.

Record worker_ok (d : Z) (x : worker_st) : Prop := {
  wo_buffer : Z.of_nat (length (buffer (dat x))) = BUFFER_SIZE;
  wo_bytes : bytes (buffer (dat x));
  wo_decomp : Z.of_nat (length (decomp (dat x))) = BUFFER_SIZE;
  wo_mtu : mtu_wf d (dtls_session (udp x)) (mt x);
  wo_udp : up_num UP_HANDSHAKE ≤ up_num (udp_state (udp x)) → dtls_session (udp x) = true }.

Lemma data_mtu_range d b m :
  mtu_wf d b m →
  DATA_MTU m (link_mtu m) = link_mtu m - dtls_crypto_overhead m - dtls_proto_overhead m ∧
  0 ≤ DATA_MTU m (link_mtu m) ≤ BUFFER_SIZE - 28.
Proof.
  intros [[? ?] _ _ _ Hp Hc Ho]. unfold IP_HEADER_SIZE, UDP_HEADER_SIZE in Hp.
  assert (E : DATA_MTU m (link_mtu m)
              = link_mtu m - dtls_crypto_overhead m - dtls_proto_overhead m).
  { unfold DATA_MTU. apply wrap_small. unfold BUFFER_SIZE in *. lia. }
  rewrite E. lia.
Qed.

Lemma mtu_range_u32 m : mtu_range m → 0 ≤ m < 2 ^ 31.
Proof. unfold mtu_range, MTU_FLOOR, BUFFER_SIZE. lia. Qed.

(** ** Sending and receiving *)

Section io_wp.
Context {W : Type} `{WorldLaws W, !WholeRecords W}.
Context (patience : nat) (B : Prop).
(** A worker may be left repeating a call only if [B], or else nothing has to
    be repeated. *)
Context (HB : B ∨ prompt W ∧ (0 < patience)%nat).

Lemma record_send_wp (send : list Z → W → Z * W) tag (fuel : nat) (p : list Z) (n : Z) Q X s :
  (∀ bs w r w', send bs w = (r, w') → 0 < Z.of_nat (length bs) ≤ BUFFER_SIZE →
     0 ≤ r → r = Z.of_nat (length bs)) →
  (B ∨ (∀ bs w, try_again (send bs w).1 = false) ∧ (0 < fuel)%nat) →
  0 < n ≤ BUFFER_SIZE → n ≤ Z.of_nat (length p) →
  (∀ r s', ws s' = ws s → (r = n ∧ log s' = log s ++ [tag (take (Z.to_nat n) p)] ∨ r < 0) → Q r s') →
  wp B (record_send send tag fuel p n n) Q X s.
Proof.
  intros Hlaw Hfuel Hn Hp HQ. revert s HQ.
  induction fuel as [|fuel IH]; intros s HQ; cbn [record_send];
    (destruct (Z.leb_spec n 0); [lia|]).
  { destruct Hfuel as [HB'|[_ ?]]; [by apply wp_blocked|lia]. }
  destruct (Z.ltb_spec (Z.of_nat (length p)) n); [lia|].
  set (bs := take (Z.to_nat n) p).
  assert (Hbs : Z.of_nat (length bs) = n) by (unfold bs; rewrite length_take; lia).
  wps. apply wp_call. intros r w' E.
  destruct (Z.ltb_spec r 0).
  - destruct (try_again r) eqn:Er; cbn [negb].
    + apply IH; [|intros; by apply HQ]. destruct Hfuel as [|[Hf _]]; [by left|].
      specialize (Hf bs (world s)). rewrite E in Hf. simpl in Hf. congruence.
    + wps. apply HQ; [done|]. by right.
  - pose proof (Hlaw bs (world s) r w' E) as Hr. assert (r = n) as -> by lia. clear Hr.
    destruct (Z.ltb_spec 0 n); [|lia]. wps. rewrite Z.sub_diag.
    destruct fuel; cbn [record_send]; wps; apply HQ; try done; left; split; try done.
    all: cbn; unfold bs; by rewrite take_take, Nat.min_id.
Qed.

Lemma force_write_wp (write : list Z → W → (Z * bool) * W) tag (fuel : nat) (p : list Z)
    (n left : Z) Q X s :
  (∀ bs w r e w', write bs w = (r, e, w') → r ≤ Z.of_nat (length bs)) →
  (B ∨ (∀ bs w, (write bs w).1 = (Z.of_nat (length bs), false) ∨ (write bs w).1 = (-1, false)) ∧
       (0 < fuel)%nat) →
  0 ≤ left ≤ Z.of_nat (length p) →
  (∀ r s', ws s' = ws s → Q r s') →
  wp B (force_write write tag fuel p n left) Q X s.
Proof.
  intros Hlaw Hfuel Hp HQ. revert p left s Hp HQ.
  induction fuel as [|fuel IH]; intros p left s Hp HQ; cbn [force_write];
    (destruct (Z.leb_spec left 0); [by apply wp_ret, HQ|]).
  { destruct Hfuel as [HB'|[_ ?]]; [by apply wp_blocked|lia]. }
  destruct (Z.ltb_spec (Z.of_nat (length p)) left); [lia|].
  set (bs := take (Z.to_nat left) p).
  assert (Hbs : Z.of_nat (length bs) = left) by (unfold bs; rewrite length_take; lia).
  wps. apply wp_call. intros [r e] w' E. cbn.
  pose proof (Hlaw bs (world s) r e w' E) as Hr. rewrite Hbs in Hr.
  destruct Hfuel as [HB'|[Hf _]].
  - destruct (Z.eqb_spec r (-1)).
    + destruct e; cbn [negb]; [|by wps; apply HQ]. apply IH; [by left|done|]. intros; by apply HQ.
    + destruct (Z.ltb_spec 0 r); [|apply IH; [by left|done|]; intros; by apply HQ].
      wps. apply IH; [by left|rewrite length_drop; lia|]. intros; by apply HQ.
  - specialize (Hf bs (world s)). rewrite E in Hf. cbn [fst] in Hf. rewrite Hbs in Hf.
    destruct (Z.eqb_spec r (-1)) as [->|].
    + destruct Hf as [[= ?]|[= ->]]; [lia|]. cbn [negb]. wps. by apply HQ.
    + destruct Hf as [[= -> ->]|[= ->]]; [|done]. destruct (Z.ltb_spec 0 left); [|lia]. wps.
      rewrite Z.sub_diag. destruct fuel; cbn [force_write]; wps; by apply HQ.
Qed.

Lemma cstp_send_wp (p : list Z) (n : Z) Q X s :
  0 < n ≤ BUFFER_SIZE → n ≤ Z.of_nat (length p) →
  (∀ r s', ws s' = ws s → Q r s') → wp B (cstp_send patience p n) Q X s.
Proof.
  intros Hn Hp HQ. unfold cstp_send. wps. apply wp_if; intros _.
  - apply record_send_wp; try done; [|auto].
    destruct HB as [|[Hpr ?]]; [by left|right; split; [apply Hpr|done]].
  - apply force_write_wp; try done; [apply law_sock_write| |lia].
    destruct HB as [|[Hpr ?]]; [by left|right; split; [apply Hpr|done]].
Qed.

Lemma dtls_send_wp (p : list Z) (n : Z) Q X s :
  dtls_session (udp (ws s)) = true →
  0 < n ≤ BUFFER_SIZE → n ≤ Z.of_nat (length p) →
  (∀ r s', ws s' = ws s → Q r s') → wp B (dtls_send patience p n) Q X s.
Proof.
  intros Hd Hn Hp HQ. unfold dtls_send. wps. rewrite Hd.
  apply record_send_wp; try done; [apply law_dtls_send| |auto].
  destruct HB as [|[Hpr ?]]; [by left|right; split; [apply Hpr|done]].
Qed.

Lemma tun_write_wp (p : list Z) (n : Z) Q X s :
  0 ≤ n ≤ Z.of_nat (length p) →
  (∀ r s', ws s' = ws s → Q r s') → wp B (tun_write patience p n) Q X s.
Proof.
  intros Hp HQ. apply force_write_wp; try done; [apply law_tun_write|].
  destruct HB as [|[Hpr ?]]; [by left|right; split; [apply Hpr|done]].
Qed.

(** ** Leaving *)

Lemma send_stats_wp now reason Q X s :
  (∀ s', (let x := ws s in let t := times x in
          ws s' = {| x with times := {| t with last_stats_msg := now |} |}) → Q tt s') →
  wp B (send_stats_to_secmod now reason) Q X s.
Proof.
  intros HQ. unfold send_stats_to_secmod. wps. apply wp_call. intros ok w' _. wps.
  apply wp_when; intros _; wps; by apply HQ.
Qed.

Lemma exit_worker_wp {A} reason Q (X : Z → wstate W → Prop) s :
  (∀ s', X reason s') → wp B (@exit_worker_reason W _ A reason) Q X s.
Proof.
  intros HX. unfold exit_worker_reason. wps.
  assert (Hrest : ∀ s, wp B (b ← gets (λ x, ban_points (conf x));
      when (0 <? b) ws_add_score_final ;;; @exits W A reason) Q X s).
  { intros s1. wps. apply wp_when; intros _; [|by wps].
    unfold ws_add_score_final. wps. apply wp_when; intros _; by wps. }
  apply wp_when; intros _; [|apply Hrest]. wps. apply wp_call. intros now w' _.
  apply send_stats_wp. intros s' _. apply Hrest.
Qed.

Lemma dtls_fatal_wp ret Q (X : Z → wstate W → Prop) s :
  (∀ s', X REASON_ERROR s') → Q tt s → wp B (DTLS_FATAL_ERR_CMD ret) Q X s.
Proof.
  intros HX HQ. unfold DTLS_FATAL_ERR_CMD. apply wp_if; intros _; [|by wps].
  by apply exit_worker_wp.
Qed.

Lemma cstp_fatal_wp ret Q (X : Z → wstate W → Prop) s :
  (∀ s', X REASON_ERROR s') → (∀ s', ws s' = ws s → Q tt s') →
  wp B (CSTP_FATAL_ERR_CMD ret) Q X s.
Proof.
  intros HX HQ. unfold CSTP_FATAL_ERR_CMD. wps.
  repeat (apply wp_if; intros _); try (by apply exit_worker_wp); wps; try by apply HQ.
  apply wp_call. intros again w' _. apply wp_if; intros _; [by apply exit_worker_wp|wps; by apply HQ].
Qed.
End io_wp.
