(* ===== verification/WorkerSafety.v ===== *)
(** * A session stays in its invariant and performs no undefined operation *)

From S2P Require Import Prelude Lzs LzsStream LzsCorrect IpUtil SecModData Bandwidth.
From S2P Require Import WorkerState WorkerIo WorkerMtu WorkerLoop WorkerTurn WorkerLaws.

(** What a step leaves alone; [tcp] says that it may hear from the client on
    the CSTP channel. *)
Record keeps (tcp : bool) (x x' : worker_st) : Prop := {
  k_conf : conf x' = conf x;
  k_tcp : tcp = false → last_msg_tcp (times x') = last_msg_tcp (times x);
  k_check : last_periodic_check (times x') = last_periodic_check (times x);
  k_term : terminate x' = terminate x;
  k_dtls : dtls_session (udp x) = true → dtls_session (udp x') = true }.

#[export] Instance keeps_preorder tcp : PreOrder (keeps tcp).
Proof.
  split; [by split|]. intros x y z [C1 T1 P1 S1 D1] [C2 T2 P2 S2 D2].
  split; [by rewrite C2| |by rewrite P2|by rewrite S2|by auto].
  intros E. by rewrite T2, T1.
Qed.

Section safe.
Context {W : Type} `{WorldLaws W, !WholeRecords W}.
Context (B : Prop).

Abbreviation ok := (worker_ok dtls_overhead).

(** [m] keeps the invariant, is defined, and changes no more than [keeps]. *)
Definition safe {A} (tcp : bool) (m : M W A) : Prop :=
  ∀ s, ok (ws s) →
    wp B m (λ _ s', ok (ws s') ∧ keeps tcp (ws s) (ws s')) (λ _ _, True) s.

Lemma safe_wp {A} tcp (m : M W A) Q (X : Z → wstate W → Prop) s :
  safe tcp m → ok (ws s) →
  (∀ a s', ok (ws s') → keeps tcp (ws s) (ws s') → Q a s') → (∀ r s', X r s') →
  wp B m Q X s.
Proof. intros Hm Hs HQ HX. eapply wp_mono; [by apply Hm|naive_solver|auto]. Qed.

Lemma safe_bind {A C} tcp (m : M W A) (k : A → M W C) :
  safe tcp m → (∀ a, safe tcp (k a)) → safe tcp (m ≫= k).
Proof.
  intros Hm Hk s Hs. apply wp_bind. eapply safe_wp; [done|done| |done].
  intros a s' Hs' K. eapply safe_wp; [apply Hk|done| |done].
  intros c s2 Hs2 K2. split; [done|by etrans].
Qed.

Lemma safe_same {A} tcp (m : M W A) :
  (∀ s, wp B m (λ _ s', ws s' = ws s) (λ _ _, True) s) → safe tcp m.
Proof. intros Hm s Hs. eapply wp_mono; [apply Hm| |done]. intros a s' E. by rewrite E. Qed.

Lemma safe_ret {A} tcp (a : A) : safe tcp (mret a).
Proof. by apply safe_same. Qed.
Lemma safe_gets {A} tcp (f : worker_st → A) : safe tcp (gets f).
Proof. by apply safe_same. Qed.
Lemma safe_emit tcp a : safe tcp (emit a).
Proof. by apply safe_same. Qed.
Lemma safe_tell tcp f : safe tcp (tell f).
Proof. by apply safe_same. Qed.
Lemma safe_call {A} tcp (f : W → A * W) : safe tcp (call f).
Proof. apply safe_same. intros s. by apply wp_call. Qed.
Lemma safe_if {A} tcp (b : bool) (m n : M W A) :
  safe tcp m → safe tcp n → safe tcp (if b then m else n).
Proof. by destruct b. Qed.
Lemma safe_when tcp (b : bool) (m : M W unit) : safe tcp m → safe tcp (when b m).
Proof. intros Hm. unfold when. by destruct b; [|apply safe_ret]. Qed.
Lemma safe_exit {A} tcp r : safe tcp (@exit_worker_reason W _ A r).
Proof. intros s _. by apply exit_worker_wp. Qed.

Lemma safe_set_times tcp f :
  (∀ t, last_periodic_check (f t) = last_periodic_check t ∧
        (tcp = false → last_msg_tcp (f t) = last_msg_tcp t)) →
  safe tcp (set_times f).
Proof.
  intros Hf s [Hb Hby Hd Hm Hu]. wps. destruct (Hf (times (ws s))) as [Hp Ht]. by split.
Qed.

Lemma safe_set_mtu tcp f :
  (∀ d b m, mtu_wf d b m → mtu_wf d b (f m)) → safe tcp (set_mtu f).
Proof. intros Hf s [Hb Hby Hd Hm Hu]. wps. split; [|done]. split; try done. by apply Hf. Qed.

Lemma safe_set_dat tcp f :
  (∀ d, buffer (f d) = buffer d ∧ decomp (f d) = decomp d) → safe tcp (set_dat f).
Proof.
  intros Hf s [Hb Hby Hd Hm Hu]. wps. destruct (Hf (dat (ws s))) as [Eb Ed].
  split; [|done]. split; cbn; rewrite ?Eb, ?Ed; done.
Qed.

(** A state of the UDP port that needs no DTLS session, or the session is there. *)
Lemma set_udp_state_wp tcp u (s : wstate W) :
  ok (ws s) → (up_num u < 3 ∨ dtls_session (udp (ws s)) = true) →
  wp B (set_udp_state u) (λ _ s', ok (ws s') ∧ keeps tcp (ws s) (ws s')) (λ _ _, True) s.
Proof.
  intros [Hb Hby Hd Hm Hu] Hc. unfold set_udp_state. wps. split; [|done]. split; try done.
  cbn. intros Hn. destruct Hc as [Hc|]; [lia|done].
Qed.

Lemma safe_set_inactive tcp u :
  up_num u < 3 → safe tcp (set_udp_state u).
Proof. intros Hu s Hs. apply set_udp_state_wp; auto. Qed.

(** *** MTU *)

Lemma safe_link_mtu_set tcp m : MTU_FLOOR ≤ m → safe tcp (link_mtu_set m).
Proof.
  intros Hm s [Hb Hby Hd Hmt Hu]. unfold link_mtu_set. wps. apply wp_if; intros E; [by wps|].
  apply orb_false_iff in E as [_ E%Z.ltb_ge]. wps.
  apply wp_when; intros _; wps; (split; [|done]); split; try done.
  all: destruct Hmt; by split.
Qed.

Lemma safe_disable_mtu_disc tcp : safe tcp disable_mtu_disc.
Proof.
  intros s Hs. unfold disable_mtu_disc. wps.
  eapply safe_wp; [apply (safe_link_mtu_set tcp); apply Hs|done| |done].
  intros [] s1 Hs1 K1. eapply safe_wp; [apply (safe_set_mtu tcp)|done| |done].
  - intros d b m []. by split.
  - intros [] s2 Hs2 K2. split; [done|by etrans].
Qed.

Lemma min_mtu_floor c : MTU_FLOOR ≤ MIN_MTU c ≤ BUFFER_SIZE.
Proof. unfold MIN_MTU, MTU_FLOOR, BUFFER_SIZE. destruct (has_ipv6 c); lia. Qed.

Lemma mtu_not_ok4_safe tcp (s : wstate W) :
  ok (ws s) → dtls_session (udp (ws s)) = true →
  wp B mtu_not_ok4 (λ _ s', ok (ws s') ∧ keeps tcp (ws s) (ws s')) (λ _ _, True) s.
Proof.
  intros [Hb Hby Hd Hmt Hu] Hdt. pose proof (min_mtu_floor (conf (ws s))) as Hmin.
  unfold mtu_not_ok4. wps. set (s1 := Build_wstate _ _ _).
  assert (Hmt1 : mtu_wf dtls_overhead true (mt (ws s1))).
  { rewrite Hdt in Hmt. destruct Hmt. by split. }
  assert (Hs1 : ok (ws s1) ∧ keeps tcp (ws s) (ws s1)).
  { split; [|done]. split; try done. cbn. rewrite Hdt. exact Hmt1. }
  destruct Hs1 as [Hs1 K1]. apply wp_if; intros _.
  - wps. eapply safe_wp; [apply (safe_disable_mtu_disc tcp)|done| |done]. intros [] s2 Hs2 K2.
    eapply safe_wp; [apply (safe_link_mtu_set tcp); lia|done| |done]. intros [] s3 Hs3 K3.
    split; [done|]. etrans; [exact K1|]. by etrans.
  - wps. apply wp_when; intros _; wps.
    + set (s2 := Build_wstate _ _ _).
      assert (Hg : mtu_range (last_good_mtu (mt (ws s2)))).
      { cbn. unfold mtu_range in *. rewrite wrap_small.
        - pose proof (mw_link _ _ _ Hmt). unfold mtu_range, BUFFER_SIZE, MTU_FLOOR in *. dlia.
        - pose proof (mtu_range_u32 _ (mw_link _ _ _ Hmt)). lia. }
      assert (Hs2 : ok (ws s2)).
      { split; try done. cbn. rewrite Hdt in *. destruct Hmt1. by split. }
      eapply safe_wp; [apply (safe_link_mtu_set tcp); apply Hg|done| |done].
      intros [] s3 Hs3 K3. split; [done|]. etrans; [exact K1|]. etrans; [|exact K3]. done.
    + eapply safe_wp; [apply (safe_link_mtu_set tcp)|done| |done].
      * apply (mw_good _ _ _ Hmt1). done.
      * intros [] s3 Hs3 K3. split; [done|]. by etrans.
Qed.

Lemma safe_mtu_not_ok6 tcp : safe tcp mtu_not_ok6.
Proof.
  intros s Hs. unfold mtu_not_ok6. wps. apply wp_call. intros r w' E. wps.
  set (s1 := Build_wstate _ _ _). assert (Hs1 : ok (ws s1)) by exact Hs.
  pose proof (min_mtu_floor (conf (ws s))) as Hmin.
  assert (Hoff : wp B (disable_mtu_disc ;;; link_mtu_set (MIN_MTU (conf (ws s))))
    (λ _ s', ok (ws s') ∧ keeps tcp (ws s) (ws s')) (λ _ _, True) s1).
  { eapply (safe_wp tcp); [|done|by intros [] s'|done].
    apply safe_bind; [apply safe_disable_mtu_disc|]. intros _. apply safe_link_mtu_set. lia. }
  destruct r as [m|]; [|exact Hoff]. destruct (Z.ltb_spec m 1280); [exact Hoff|].
  eapply (safe_wp tcp); [|done|by intros [] s'|done]. apply safe_link_mtu_set.
  unfold MTU_FLOOR. lia.
Qed.

Lemma safe_mtu_not_ok tcp : safe tcp mtu_not_ok.
Proof.
  intros s Hs. unfold mtu_not_ok. wps. apply wp_if; intros E; [by wps|].
  apply orb_false_iff in E as [_ E%negb_false_iff].
  apply wp_if; intros _; [by apply mtu_not_ok4_safe|].
  apply wp_if; intros _; [by apply safe_mtu_not_ok6|by wps].
Qed.

Lemma mtu_ok_safe tcp (s : wstate W) :
  ok (ws s) → dtls_session (udp (ws s)) = true →
  wp B mtu_ok (λ _ s', ok (ws s') ∧ keeps tcp (ws s) (ws s')) (λ _ _, True) s.
Proof.
  intros Hs Hd. unfold mtu_ok. wps. apply wp_if; intros _; [by wps|]. wps.
  apply wp_if; intros _; [by wps|]. wps. destruct Hs as [Hb Hby Hdc Hmt Hu].
  rewrite Hd in Hmt. pose proof (mw_link _ _ _ Hmt) as Hl. pose proof (mw_bad _ _ _ Hmt I) as Hbad.
  set (s1 := Build_wstate _ _ _).
  assert (Hs1 : ok (ws s1)).
  { split; try done. cbn. rewrite Hd. destruct Hmt. by split. }
  eapply safe_wp; [apply (safe_link_mtu_set tcp)|done| |done].
  - pose proof (mtu_range_u32 _ Hl). pose proof (mtu_range_u32 _ Hbad).
    rewrite wrap_small by lia. unfold mtu_range in *. dlia.
  - intros [] s2 Hs2 K2. split; [done|]. etrans; [|exact K2]. done.
Qed.

Lemma data_mtu_set_safe tcp (n : Z) (s : wstate W) :
  ok (ws s) → DATA_MTU (mt (ws s)) (link_mtu (mt (ws s))) < n ≤ BUFFER_SIZE →
  wp B (data_mtu_set n) (λ _ s', ok (ws s') ∧ keeps tcp (ws s) (ws s')) (λ _ _, True) s.
Proof.
  intros Hs Hn. unfold data_mtu_set. wps. apply wp_when; intros _; [|by split]. wps.
  apply wp_call. intros m w' [= <- <-]. wps. apply wp_if; intros _; [by wps|]. wps.
  set (s1 := Build_wstate _ _ _). assert (Hs1 : ok (ws s1)) by exact Hs.
  set (g := gnutls_dtls_get_mtu _). pose proof (law_get_mtu (gnutls_dtls_set_data_mtu (u32 (n + 1)) (world s))) as Hg.
  pose proof (law_data_mtu (u32 (n + 1)) (world s)) as Hd. fold g in Hg, Hd.
  destruct (data_mtu_range _ _ _ (wo_mtu _ _ Hs)) as [Em _]. rewrite Em in Hn.
  destruct (wo_mtu _ _ Hs) as [Hl _ _ _ Hp Hc Ho].
  rewrite wrap_small in Hd by (unfold BUFFER_SIZE, mtu_range, MTU_FLOOR in *; lia).
  specialize (Hd ltac:(unfold mtu_range, MTU_FLOOR in *; lia)).
  eapply safe_wp; [apply (safe_link_mtu_set tcp)|done|by intros [] s2|done].
  unfold IP_HEADER_SIZE, UDP_HEADER_SIZE, CSTP_DTLS_OVERHEAD, mtu_range, MTU_FLOOR in *.
  rewrite wrap_small by lia. lia.
Qed.
End safe.
