(* ===== verification/WorkerSession.v ===== *)
(** * The handlers of a session are safe *)

From S2P Require Import Prelude Lzs LzsStream LzsCorrect IpUtil SecModData Bandwidth.
From S2P Require Import WorkerState WorkerIo WorkerMtu WorkerLoop WorkerTurn WorkerLaws.
From S2P Require Import WorkerSafety.

(** Splits a computation into steps, and closes the easy ones. *)
Ltac safe1 :=
  lazymatch goal with
  | |- safe _ _ (@mbind _ _ _ _ _ _) => apply safe_bind; [|intros ?]
  | |- safe _ _ (@mret _ _ _ _) => apply safe_ret
  | |- safe _ _ (gets _) => apply safe_gets
  | |- safe _ _ (emit _) => apply safe_emit
  | |- safe _ _ (tell _) => apply safe_tell
  | |- safe _ _ (call _) => apply safe_call
  | |- safe _ _ (when _ _) => apply safe_when
  | |- safe _ _ (exit_worker_reason _) => apply safe_exit
  | |- safe _ _ (if _ then _ else _) => apply safe_if
  end.
Ltac safes := repeat safe1.

Section session.
Context {W : Type} `{WorldLaws W, !WholeRecords W}.
Context (patience : nat) (B : Prop).
Context (HB : B ∨ prompt W ∧ (0 < patience)%nat).

Abbreviation ok := (worker_ok dtls_overhead).
Abbreviation good := (λ tcp s, λ _ (s' : wstate W), ok (ws s') ∧ keeps tcp (ws s) (ws s')).

(** From [s1] on, as seen from the state [s] before it. *)
Lemma safe_from {A} tcp (m : M W A) (s s1 : wstate W) :
  safe B tcp m → ok (ws s1) → keeps tcp (ws s) (ws s1) → wp B m (good tcp s) (λ _ _, True) s1.
Proof.
  intros Hm Hs1 K. eapply safe_wp; [exact Hm|done| |done].
  intros a s2 Hs2 K2. split; [done|by etrans].
Qed.

Lemma safe_dtls_fatal tcp r : safe B tcp (@DTLS_FATAL_ERR_CMD W _ r).
Proof. intros s Hs. by apply dtls_fatal_wp. Qed.

Lemma safe_cstp_fatal tcp r : safe B tcp (@CSTP_FATAL_ERR_CMD W _ r).
Proof. intros s Hs. apply cstp_fatal_wp; [done|]. intros s' E. by rewrite E. Qed.

Lemma safe_cstp_send tcp p n :
  0 < n ≤ BUFFER_SIZE → n ≤ Z.of_nat (length p) → safe B tcp (@cstp_send W _ patience p n).
Proof.
  intros Hn Hp s Hs. apply cstp_send_wp; try done. intros r s' E. by rewrite E.
Qed.

Lemma safe_tun_write tcp p n :
  0 ≤ n ≤ Z.of_nat (length p) → safe B tcp (@tun_write W _ patience p n).
Proof. intros Hp s Hs. apply tun_write_wp; try done. intros r s' E. by rewrite E. Qed.

Lemma safe_stats tcp now r : safe B tcp (@send_stats_to_secmod W _ now r).
Proof.
  intros s Hs. apply send_stats_wp. intros s' E. rewrite E. destruct Hs. by split.
Qed.

(** ** Packets from the client *)

Lemma safe_to_tun tcp plain n now :
  0 ≤ n ≤ Z.of_nat (length plain) → safe B tcp (@to_tun W _ patience plain n now).
Proof.
  intros Hn. unfold to_tun. safes; [by apply safe_tun_write|by apply safe_set_dat|].
  by apply safe_set_times.
Qed.

Lemma decompress_range c dst src :
  bytes src →
  match decompress c dst src with
  | Ok (n, d) => n ≤ Z.of_nat (length dst) ∧ length d = length dst
  | Err _ => True
  | UB | Fuel => False
  end.
Proof.
  intros Hb. destruct c; simpl.
  - pose proof (lzs_decompress_defined dst src (Z.of_nat (length dst)) Hb ltac:(lia)) as Hd.
    destruct (lzs_decompress _ _ _ _) as [[n d]| | |]; try done.
    destruct Hd as [? ?]. split; [lia|done].
  - destruct (lz4_decompress_fn _ src) as [out|] eqn:E; [|split; [lia|done]].
    apply law_lz4_decompress in E.
    destruct (poke_Ok dst out 0) as (d & -> & Hd & _); [lia|]. simpl. split; [lia|done].
Qed.

Lemma decompress_in_wp tcp c src (s : wstate W) :
  ok (ws s) → bytes src →
  wp B (decompress_in c src) (λ n s', good tcp s n s' ∧ n ≤ BUFFER_SIZE) (λ _ _, True) s.
Proof.
  intros Hs Hb. unfold decompress_in. wps.
  pose proof (decompress_range c (decomp (dat (ws s))) src Hb) as Hr.
  destruct Hs as [Hbf Hby Hd Hm Hu].
  destruct (decompress _ _ _) as [[n d]|e| |] eqn:E; [|wps|done|done].
  - destruct Hr as [Hn Hl]. wps. split; [|lia]. split; [|done]. split; try done. cbn. lia.
  - split; [by split|].
    (* a code is negative *)
    destruct c; simpl in E.
    + pose proof (lzs_decompress_defined (decomp (dat (ws s))) src
        (Z.of_nat (length (decomp (dat (ws s))))) Hb ltac:(lia)) as Hd'.
      rewrite E in Hd'. unfold EINVAL, EFBIG, BUFFER_SIZE in *. lia.
    + destruct (lz4_decompress_fn _ src) as [out|] eqn:E2; [|done].
      apply law_lz4_decompress in E2.
      destruct (poke_Ok (decomp (dat (ws s))) out 0) as (d & E3 & _); [lia|].
      rewrite E3 in E. done.
Qed.

Lemma safe_compressed_to_tun tcp c plain now :
  bytes plain → safe B tcp (@compressed_to_tun W _ patience c plain now).
Proof.
  intros Hb. destruct c as [c|]; [|by safes]. intros s Hs. cbn [compressed_to_tun]. apply wp_bind.
  eapply wp_mono; [by apply (decompress_in_wp tcp)| |done].
  intros n s1 [[Hs1 K1] Hn]. apply wp_if; intros E; [by wps|]. apply Z.leb_gt in E. wps.
  apply safe_from; try done. apply safe_to_tun. destruct Hs1. lia.
Qed.

Lemma length_insert_buf (buf : list Z) i b : length (<[i := b]> buf) = length buf.
Proof. apply length_insert. Qed.

Lemma safe_cstp_dpd tcp buf :
  0 < Z.of_nat (length buf) ≤ BUFFER_SIZE → safe B tcp (@cstp_dpd W _ patience buf).
Proof.
  intros Hl. unfold cstp_dpd. cbv zeta. safes.
  apply safe_cstp_send; rewrite ?length_insert_buf; lia.
Qed.

Lemma dtls_dpd_safe tcp buf (s : wstate W) :
  ok (ws s) → dtls_session (udp (ws s)) = true → 0 < Z.of_nat (length buf) ≤ BUFFER_SIZE →
  wp B (dtls_dpd patience buf) (good tcp s) (λ _ _, True) s.
Proof.
  intros Hs Hd Hl. unfold dtls_dpd. cbv zeta. wps. rewrite length_insert_buf.
  set (buf' := <[_ := _]> buf).
  assert (Hl' : length buf' = length buf) by apply length_insert_buf.
  assert (Hrest : ∀ s1, ok (ws s1) → keeps tcp (ws s) (ws s1) →
    dtls_session (udp (ws s1)) = true →
    wp B (ret ← dtls_send patience buf' (Z.of_nat (length buf));
          ret ← (if ret =? GNUTLS_E_LARGE_PACKET then mtu_not_ok ;;; dtls_send patience buf' 1
                 else mret ret);
          mret (if ret <? 0 then -1 else 0)) (good tcp s) (λ _ _, True) s1).
  { intros s1 Hs1 K1 Hd1. wps. apply dtls_send_wp; try done; [lia|]. intros r s2 E2. wps.
    apply wp_if; intros _; [|wps; by rewrite E2]. wps.
    eapply safe_wp; [apply (safe_mtu_not_ok B tcp)|by rewrite E2| |done].
    intros [] s3 Hs3 K3. rewrite E2 in K3.
    apply dtls_send_wp; try done; [by apply K3|lia|]. intros r' s4 E4. wps.
    rewrite E4. split; [done|by etrans]. }
  apply wp_when; intros E; [|by apply Hrest]. apply Z.ltb_lt in E.
  unfold CSTP_DTLS_OVERHEAD in *. rewrite wrap_small by (unfold BUFFER_SIZE in *; lia).
  eapply wp_mono; [apply (data_mtu_set_safe B tcp); [done|lia]| |done].
  intros [] s1 [Hs1 K1]. apply Hrest; try done. by apply K1.
Qed.

Lemma parse_data_safe tcp buf now (dtls : bool) (s : wstate W) :
  ok (ws s) → bytes buf → Z.of_nat (length buf) ≤ BUFFER_SIZE →
  (if dtls then 1 ≤ length buf else 8 ≤ length buf)%nat →
  (dtls = true → dtls_session (udp (ws s)) = true) →
  wp B (parse_data patience buf now dtls) (good tcp s) (λ _ _, True) s.
Proof.
  intros Hs Hb Hl Hmin Hd. unfold parse_data.
  destruct (lookup_lt_is_Some_2 buf (if dtls then 0 else 6)%nat) as [head ->].
  { destruct dtls; lia. }
  cbv zeta. apply wp_if; intros _; [by wps|].
  apply wp_if; intros _.
  { destruct dtls; [apply dtls_dpd_safe; auto; lia|]. apply safe_cstp_dpd; [lia|done]. }
  apply wp_if; intros _; [by apply safe_exit|].
  apply wp_if; intros _.
  { wps. apply safe_compressed_to_tun; [|done]. unfold bytes in *. by apply Forall_drop. }
  apply wp_if; intros _; [|by wps]. apply safe_to_tun; [|done].
  rewrite length_drop. destruct dtls; lia.
Qed.

Lemma safe_parse_cstp buf now :
  bytes buf → Z.of_nat (length buf) ≤ BUFFER_SIZE →
  safe B true (parse_cstp_data patience buf now).
Proof.
  intros Hb Hl. unfold parse_cstp_data.
  do 8 (destruct buf as [|? buf]; [by safes|]). apply safe_if; [by safes|].
  cbv zeta. apply safe_if; [by safes|]. intros s Hs. wps.
  assert (Hrest : ∀ s1, ok (ws s1) → keeps true (ws s) (ws s1) →
    wp B (ret ← parse_data patience (z :: z0 :: z1 :: z2 :: z3 :: z4 :: z5 :: z6 :: buf) now false;
          set_times (λ t, {| t with last_msg_tcp := now |}) ;;; mret ret)
      (good true s) (λ _ _, True) s1).
  { intros s1 Hs1 K1. wps.
    eapply wp_mono; [apply (parse_data_safe true); try done; simpl; lia| |done].
    intros r s2 [Hs2 K2]. apply safe_from; [|done|by etrans]. safes. by apply safe_set_times. }
  apply wp_when; intros E; [|by apply Hrest].
  apply andb_true_iff in E as [_ E%bool_decide_eq_true].
  eapply wp_mono; [apply (set_udp_state_wp B true UP_INACTIVE); [done|]| |done].
  { right. apply Hs. by rewrite E. }
  intros [] s1 [Hs1 K1]. by apply Hrest.
Qed.

Lemma parse_dtls_safe tcp buf now (s : wstate W) :
  ok (ws s) → bytes buf → Z.of_nat (length buf) ≤ BUFFER_SIZE →
  dtls_session (udp (ws s)) = true →
  wp B (parse_dtls_data patience buf now) (good tcp s) (λ _ _, True) s.
Proof.
  intros Hs Hb Hl Hd. unfold parse_dtls_data. destruct buf as [|b buf]; [by wps|]. wps.
  eapply wp_mono; [apply (parse_data_safe tcp); try done; simpl; lia| |done].
  intros r s2 [Hs2 K2]. apply safe_from; [|done|done]. safes. by apply safe_set_times.
Qed.

Lemma safe_update_rx tcp n t : safe B tcp (@update_rx W n t).
Proof.
  unfold update_rx. safes. destruct (bandwidth_update _ _ _). safes. by apply safe_set_dat.
Qed.

Lemma safe_update_tx tcp n t : safe B tcp (@update_tx W n t).
Proof.
  unfold update_tx. safes. destruct (bandwidth_update _ _ _). safes. by apply safe_set_dat.
Qed.

Lemma safe_handshake tcp (hs : W → Z * W) retry fuel :
  (B ∨ (∀ w, retry (hs w).1 = false) ∧ (0 < fuel)%nat) → safe B tcp (handshake hs retry fuel).
Proof.
  intros HB'. apply safe_same. induction fuel as [|fuel IH]; intros s; cbn [handshake].
  { destruct HB' as [?|[_ ?]]; [by apply wp_blocked|lia]. }
  wps. apply wp_call. intros r w' E. destruct (retry r) eqn:Er; [|by wps].
  destruct HB' as [HB'|[Hr _]].
  - eapply wp_mono; [apply IH; by left| |done]. done.
  - specialize (Hr (world s)). rewrite E in Hr. simpl in Hr. congruence.
Qed.

Lemma safe_tls_rehandshake tcp t : safe B tcp (tls_rehandshake patience t).
Proof.
  unfold tls_rehandshake. safes; [|apply safe_dtls_fatal|by apply safe_set_times].
  apply safe_handshake. destruct HB as [|[Hp ?]]; [by left|right]. split; [|done]. intros w.
  pose proof (prompt_tls_hs _ Hp w) as Hf. destruct (Z.ltb_spec (tls_handshake w).1 0); [|done].
  by rewrite Hf.
Qed.

Lemma safe_dtls_rehandshake tcp t : safe B tcp (dtls_rehandshake patience t).
Proof.
  unfold dtls_rehandshake. safes; [|apply safe_dtls_fatal|by apply safe_set_times].
  apply safe_handshake. destruct HB as [|[Hp ?]]; [by left|right]. split; [|done]. intros w.
  apply (prompt_dtls_hs _ Hp w).
Qed.

(** ** The channels *)

Lemma safe_tls_packet data t :
  bytes data → Z.of_nat (length data) ≤ BUFFER_SIZE → safe B true (tls_packet patience data t).
Proof.
  intros Hb Hl. unfold tls_packet. apply safe_bind; [apply safe_update_rx|intros go].
  apply safe_if; [safes|]. apply safe_bind; [by apply safe_parse_cstp|intros ret].
  apply safe_if; [safes|]. intros s Hs. wps. apply wp_when; intros E; [|by wps].
  eapply wp_mono; [apply (set_udp_state_wp B true UP_INACTIVE); [done|]| |done].
  - right. apply Hs. rewrite !andb_true_iff in E.
    destruct E as [[_ E%bool_decide_eq_true] _]. by rewrite E.
  - intros [] s1 [Hs1 K1]. by wps.
Qed.

Lemma bytes_poke (m bs : list Z) off m' : bytes m → bytes bs → poke m off bs = Ok m' → bytes m'.
Proof.
  intros Hm Hb. unfold poke. destruct (_ <=? _)%nat; [|done]. intros [= <-].
  unfold bytes in *. rewrite !Forall_app. split_and!; [by apply Forall_take|done|by apply Forall_drop].
Qed.

(** Writing bytes into [ws->buffer]. *)
Lemma set_buffer_ok (x : worker_st) b' :
  ok x → bytes b' → Z.of_nat (length b') = BUFFER_SIZE →
  ok (let y := dat x in {| x with dat := {| y with buffer := b' |} |}).
Proof. intros [Hb Hby Hd Hm Hu] ? ?. by split. Qed.

Lemma recv_remaining_wp tcp fuel counter off left total (s : wstate W) :
  ok (ws s) → Z.of_nat (off + left) ≤ BUFFER_SIZE → (counter + left ≤ fuel)%nat →
  wp B (recv_remaining fuel counter off left total) (good tcp s) (λ _ _, True) s.
Proof.
  revert counter off left total s.
  induction fuel as [|fuel IH]; intros counter off left total s Hs Ho Hf; cbn [recv_remaining].
  { replace left with 0%nat by lia. by wps. }
  destruct left as [|left]; [by wps|]. wps. apply wp_call. intros r w' E.
  destruct r as [bs| |]; [|destruct counter as [|counter]; [by wps|]|by wps].
  2: { eapply wp_mono; [apply IH; [exact Hs|lia|lia]|done|done]. }
  apply law_sock_recv in E as [Hl Hbs]. wps.
  destruct (poke_Ok (buffer (dat (ws s))) bs off) as (b' & Ep & Hl' & _).
  { pose proof (wo_buffer _ _ Hs). lia. }
  rewrite Ep. wps. set (s1 := Build_wstate _ _ _).
  assert (Hs1 : ok (ws s1)).
  { apply set_buffer_ok; [done| |pose proof (wo_buffer _ _ Hs); lia].
    eapply bytes_poke; [apply Hs|done|done]. }
  apply wp_if; intros E2; [by wps|]. apply Nat.eqb_neq in E2.
  eapply wp_mono; [apply IH; [done|lia|lia]| |done]. intros a s2 [Hs2 K2].
  split; [done|]. etrans; [|exact K2]. done.
Qed.

Lemma cstp_recv_packet_wp (s : wstate W) :
  ok (ws s) →
  wp B cstp_recv_packet (λ r s', good false s r s' ∧
    (0 < r.1 → r.1 = Z.of_nat (length r.2) ∧ r.1 ≤ BUFFER_SIZE ∧ bytes r.2)) (λ _ _, True) s.
Proof.
  intros Hs. unfold cstp_recv_packet. wps. apply wp_if; intros _.
  { apply wp_call. intros [r data] w' E. split; [done|]. by eapply law_tls_recv. }
  wps.
  assert (Hrecv : wp B _cstp_recv_packet (λ r s', good false s r s' ∧ r ≤ BUFFER_SIZE)
            (λ _ _, True) s).
  { unfold _cstp_recv_packet, recv_all. wps.
    eapply wp_mono; [apply (recv_remaining_wp false); [done|done|lia]| |done].
    intros r s1 [Hs1 K1]. apply wp_if; intros E; [wps|].
    { split; [done|]. unfold BUFFER_SIZE. apply Z.leb_le in E. lia. }
    wps. pose proof (wo_buffer _ _ Hs1) as Hlen.
    destruct (lookup_lt_is_Some_2 (buffer (dat (ws s1))) 4) as [b4 E4]; [unfold BUFFER_SIZE in *; lia|].
    destruct (lookup_lt_is_Some_2 (buffer (dat (ws s1))) 5) as [b5 E5]; [unfold BUFFER_SIZE in *; lia|].
    rewrite E4, E5. pose proof (bytes_lookup _ _ _ (wo_bytes _ _ Hs1) E4) as H4.
    pose proof (bytes_lookup _ _ _ (wo_bytes _ _ Hs1) E5) as H5.
    rewrite Z.shiftl_mul_pow2 by lia.
    apply wp_if; intros E6; [by wps|]. apply Z.ltb_ge in E6.
    apply wp_if; intros E7; [|wps; split; [done|lia]]. apply Z.ltb_lt in E7. wps.
    eapply wp_mono; [apply (recv_remaining_wp false); [done|lia|lia]| |done].
    intros r2 s2 [Hs2 K2]. assert (K : keeps false (ws s) (ws s2)) by by etrans.
    apply wp_if; intros E8; wps; split; try done; [|lia].
    apply Z.leb_le in E8. unfold BUFFER_SIZE. lia. }
  eapply wp_mono; [exact Hrecv| |done]. intros r s1 [[Hs1 K1] Hr]. wps. split; [done|].
  cbn. intros Hpos. pose proof (wo_buffer _ _ Hs1). rewrite length_take.
  split_and!; [lia|lia|]. apply Forall_take, Hs1.
Qed.

Lemma keeps_weaken tcp x x' : keeps false x x' → keeps tcp x x'.
Proof. intros [? ? ? ? ?]. split; auto. Qed.

Lemma safe_weaken {A} tcp (m : M W A) : safe B false m → safe B tcp m.
Proof.
  intros Hm s Hs. eapply safe_wp; [exact Hm|done| |done].
  intros a s' Hs' K. split; [done|by apply keeps_weaken].
Qed.

Lemma safe_tls_mainloop t : safe B true (tls_mainloop patience t).
Proof.
  intros s Hs. unfold tls_mainloop. wps. eapply wp_mono; [by apply cstp_recv_packet_wp| |done].
  intros [ret data] s1 [[Hs1 K1%(keeps_weaken true)] Hd]. cbn in Hd.
  apply wp_if; intros _; [by wps|]. apply safe_from; [|done|done].
  apply safe_bind; [apply safe_cstp_fatal|]. intros _.
  apply safe_if; [safes|]. destruct (Z.leb_spec 8 ret).
  - destruct Hd as (-> & ? & ?); [lia|]. by apply safe_tls_packet.
  - apply safe_if; [apply safe_tls_rehandshake|safes].
Qed.

Lemma dtls_packet_safe tcp data t (s : wstate W) :
  ok (ws s) → bytes data → Z.of_nat (length data) ≤ BUFFER_SIZE →
  dtls_session (udp (ws s)) = true →
  wp B (dtls_packet patience data t) (good tcp s) (λ _ _, True) s.
Proof.
  intros Hs Hb Hl Hd. unfold dtls_packet. wps.
  eapply wp_mono; [apply (set_udp_state_wp B tcp UP_ACTIVE); auto| |done].
  intros [] s1 [Hs1 K1]. wps.
  eapply safe_wp; [apply (safe_update_rx tcp)|done| |done]. intros b s2 Hs2 K2.
  assert (K : keeps tcp (ws s) (ws s2)) by by etrans.
  apply wp_if; intros _; [by wps|].
  eapply wp_mono; [apply (parse_dtls_safe tcp); try done; by apply K| |done].
  intros r s3 [Hs3 K3]. split; [done|by etrans].
Qed.

Lemma safe_set_recv_time tcp t : safe B tcp (set_udp (λ x, {| x with udp_recv_time := t |})).
Proof. intros s [Hb Hby Hd Hm Hu]. wps. split; [|by split]. by split. Qed.

Lemma dtls_receive_safe tcp t (s : wstate W) :
  ok (ws s) → dtls_session (udp (ws s)) = true →
  wp B (dtls_receive patience t) (good tcp s) (λ _ _, True) s.
Proof.
  intros Hs Hd. unfold dtls_receive, dtls_recv_packet. wps. rewrite Hd.
  apply wp_call. intros [ret data] w' E. wps. apply dtls_fatal_wp; [done|]. wps.
  set (s1 := Build_wstate _ _ _).
  assert (Hmid : wp B (if ret =? GNUTLS_E_REHANDSHAKE then dtls_rehandshake patience t
         else if 1 <=? ret then dtls_packet patience data t else mret 0)
         (good tcp s) (λ _ _, True) s1).
  { apply wp_if; intros _; [by apply safe_from; [apply safe_dtls_rehandshake|..]|].
    apply wp_if; intros E1; [|by wps]. apply Z.leb_le in E1.
    apply law_dtls_recv in E as (-> & ? & ?); [|lia].
    by apply (dtls_packet_safe tcp data t s1). }
  eapply wp_mono; [exact Hmid| |done]. intros r s2 [Hs2 K2].
  apply wp_if; intros _; [by wps|]. apply safe_from; [|done|done]. safes.
  apply safe_set_recv_time.
Qed.
End session.
