(* ===== verification/WorkerTurnSafe.v ===== *)
(** * Every turn of a session is safe *)

From S2P Require Import Prelude Lzs LzsStream LzsCorrect IpUtil SecModData Bandwidth.
From S2P Require Import WorkerState WorkerIo WorkerMtu WorkerLoop WorkerTurn WorkerLaws.
From S2P Require Import WorkerSafety WorkerSession.

Section turns.
Context {W : Type} `{WorldLaws W, !WholeRecords W}.
Context (patience : nat) (B : Prop).
Context (HB : B ∨ prompt W ∧ (0 < patience)%nat).

Abbreviation ok := (worker_ok dtls_overhead).
Abbreviation good := (λ tcp s, λ _ (s' : wstate W), ok (ws s') ∧ keeps tcp (ws s) (ws s')).

(** ** Starting DTLS *)

(** The invariant while the DTLS session is being set up: the search for the
    MTU has not begun. *)
Record half_ok (x : worker_st) : Prop := {
  ho_buffer : Z.of_nat (length (buffer (dat x))) = BUFFER_SIZE;
  ho_bytes : bytes (buffer (dat x));
  ho_decomp : Z.of_nat (length (decomp (dat x))) = BUFFER_SIZE;
  ho_mtu : mtu_wf dtls_overhead false (mt x) }.

Lemma ok_half x : ok x → half_ok x.
Proof. intros [? ? ? [] ?]. by split. Qed.

Lemma link_mtu_set_half tcp m (s : wstate W) :
  half_ok (ws s) → MTU_FLOOR ≤ m →
  wp B (link_mtu_set m) (λ _ s', half_ok (ws s') ∧ keeps tcp (ws s) (ws s') ∧
    udp (ws s') = udp (ws s)) (λ _ _, True) s.
Proof.
  intros [Hb Hby Hd Hm] Hf. unfold link_mtu_set. wps. apply wp_if; intros E; [by wps|].
  apply orb_false_iff in E as [_ E%Z.ltb_ge]. wps.
  apply wp_when; intros _; wps; (split; [|done]); split; try done; destruct Hm; by split.
Qed.

Lemma setup_keys_same (m : M W Z) (s : wstate W) :
  m = setup_dtls_psk_keys ∨ m = setup_legacy_dtls_keys →
  wp B m (λ _ s', ws s' = ws s) (λ _ _, True) s.
Proof.
  assert (Hc : ∀ (c : setup_call) (k : Z → M W Z) s1,
    (∀ r s2, ws s2 = ws s1 → wp B (k r) (λ _ s', ws s' = ws s1) (λ _ _, True) s2) →
    wp B (call (dtls_setup c) ≫= k) (λ _ s', ws s' = ws s1) (λ _ _, True) s1).
  { intros c k s1 Hk. wps. apply wp_call. intros r w' _. by apply Hk. }
  intros [->| ->]; unfold setup_dtls_psk_keys, setup_legacy_dtls_keys; wps;
    (apply wp_if; intros _; [by wps|]).
  all: apply Hc; intros r1 s1 E1; rewrite <- E1; apply wp_if; intros _; [by wps|].
  all: apply Hc; intros r2 s2 E2; rewrite <- E2; apply wp_if; intros _; [by wps|].
  all: apply Hc; intros r3 s3 E3; by wps.
Qed.

Lemma setup_dtls_wp tcp (s : wstate W) :
  ok (ws s) →
  wp B setup_dtls_connection (λ r s', keeps tcp (ws s) (ws s') ∧
    (if r <? 0 then ok (ws s') else half_ok (ws s') ∧ dtls_session (udp (ws s')) = true))
    (λ _ _, True) s.
Proof.
  intros Hs. unfold setup_dtls_connection. wps. apply wp_call. intros r w' _.
  apply wp_if; intros _; [by wps|]. wps. set (s1 := Build_wstate _ _ _).
  assert (Hkeys : wp B (if use_psk (conf (ws s)) && session (conf (ws s)) then setup_dtls_psk_keys
     else if negb (dtls_legacy (conf (ws s))) then mret (-1) else setup_legacy_dtls_keys)
     (λ _ s', ws s' = ws s) (λ _ _, True) s1).
  { apply wp_if; intros _; [apply (setup_keys_same _ s1); auto|].
    apply wp_if; intros _; [by wps|apply (setup_keys_same _ s1); auto]. }
  eapply wp_mono; [exact Hkeys| |done]. intros r2 s2 E2.
  apply wp_if; intros _; [wps; by rewrite E2|]. unfold set_udp_state. wps.
  eapply wp_mono; [apply (link_mtu_set_half tcp)| |done].
  - cbn. rewrite E2. by destruct (ok_half _ Hs).
  - cbn. rewrite E2. apply Hs.
  - intros [] s3 (Hs3 & K3 & E3). wps. cbn in K3. rewrite E2 in K3. split; [|split; [by destruct Hs3|done]].
    destruct K3. by split.
Qed.

Lemma mtu_discovery_init_wp tcp m (s : wstate W) :
  half_ok (ws s) → dtls_session (udp (ws s)) = true → mtu_range m →
  wp B (mtu_discovery_init m) (good tcp s) (λ _ _, True) s.
Proof.
  intros Hs Hd Hm. unfold mtu_discovery_init. wps.
  assert (Hset : ∀ s1 : wstate W, half_ok (ws s1) → keeps tcp (ws s) (ws s1) →
    wp B (set_mtu (λ x, {| x with last_good_mtu := m; last_bad_mtu := m |}))
      (good tcp s) (λ _ _, True) s1).
  { intros s1 [Hb Hby Hdc Hmt] K. wps. split; [|etrans; [exact K|done]]. split; try done.
    - destruct Hmt. by split.
    - intros _. by apply K. }
  apply wp_when; intros _; [|by apply Hset]. unfold disable_mtu_disc. wps.
  eapply wp_mono; [apply (link_mtu_set_half tcp); [done|apply Hs]| |done].
  intros [] s1 (Hs1 & K1 & _). apply wp_set_mtu. cbn beta zeta.
  apply Hset; [|etrans; [exact K1|done]].
  destruct Hs1 as [? ? ? []]. by split.
Qed.

Lemma safe_dtls_start tcp : safe B tcp dtls_start.
Proof.
  intros s Hs. unfold dtls_start. wps. eapply wp_mono; [by apply (setup_dtls_wp tcp)| |done].
  intros r s1 [K1 Hs1]. destruct (r <? 0); [by wps|]. destruct Hs1 as [Hs1 Hd]. wps.
  eapply wp_mono; [apply (mtu_discovery_init_wp tcp); [exact Hs1|exact Hd|apply Hs1]| |done].
  intros [] s2 [Hs2 K2]. wps. split; [done|]. etrans; [exact K1|exact K2].
Qed.

Lemma hsk_restart_safe tcp fuel (s : wstate W) :
  (B ∨ prompt W ∧ (0 < fuel)%nat) → ok (ws s) → dtls_session (udp (ws s)) = true →
  wp B (hsk_restart fuel) (good tcp s) (λ _ _, True) s.
Proof.
  revert s. induction fuel as [|fuel IH]; intros s HB' Hs Hd; cbn [hsk_restart].
  { destruct HB' as [?|[_ ?]]; [by apply wp_blocked|lia]. }
  wps. apply wp_call. intros r w' E. set (s1 := Build_wstate _ _ _).
  assert (Hu : ∀ u (k : M W Z), (∀ s2, ok (ws s2) → keeps tcp (ws s) (ws s2) →
      wp B k (good tcp s) (λ _ _, True) s2) →
    wp B (set_udp_state u ;;; k) (good tcp s) (λ _ _, True) s1).
  { intros u k Hk. wps. eapply wp_mono; [apply (set_udp_state_wp B tcp); [done|by right]| |done].
    intros [] s2 [Hs2 K2]. by apply Hk. }
  apply wp_if; intros _; [apply Hu; intros; by wps|].
  apply wp_if; intros E2; [|apply wp_if; intros _; [apply Hu; intros; by wps|by wps]].
  wps. eapply safe_wp; [apply (safe_mtu_not_ok B tcp)|exact Hs| |done].
  intros [] s2 Hs2 K2. destruct HB' as [HB'|[Hp _]].
  - eapply wp_mono; [apply IH; [by left|done|by apply K2]| |done].
    intros a s3 [Hs3 K3]. split; [done|]. etrans; [exact K2|exact K3].
  - exfalso. apply (prompt_dtls_hs _ Hp (world s)). rewrite E. by apply Z.eqb_eq in E2.
Qed.

Lemma safe_dtls_mainloop tcp t : safe B tcp (dtls_mainloop patience t).
Proof.
  intros s Hs. unfold dtls_mainloop. wps.
  destruct (udp_state (udp (ws s))) eqn:E; wps; try done.
  - by apply safe_dtls_start.
  - assert (Hd : dtls_session (udp (ws s)) = true) by (apply Hs; by rewrite E).
    rewrite Hd. by apply hsk_restart_safe.
  - apply dtls_receive_safe; try done. apply Hs; by rewrite E.
  - apply dtls_receive_safe; try done. apply Hs; by rewrite E.
Qed.

(** ** Packets from the tun device *)

Definition sendable (p : to_send) : Prop := 0 < size p ≤ BUFFER_SIZE - 8 ∧ 0 ≤ type p < 256.

Lemma write_obj_safe tcp p off bs :
  bytes bs → Z.of_nat (off + length bs) ≤ BUFFER_SIZE → safe B tcp (@write_obj W p off bs).
Proof.
  clear HB. intros Hb Ho s Hs. unfold write_obj, read_obj. wps. destruct Hs as [Hbf Hby Hd Hm Hu].
  destruct p.
  - destruct (poke_Ok (buffer (dat (ws s))) bs off) as (b' & E & Hl & _); [lia|]. rewrite E. wps.
    split; [|done]. split; try done; cbn; [lia|]. eapply bytes_poke; [exact Hby|exact Hb|exact E].
  - destruct (poke_Ok (decomp (dat (ws s))) bs off) as (b' & E & Hl & _); [lia|]. rewrite E. wps.
    split; [|done]. split; try done. cbn. lia.
Qed.

Lemma compress_range c dst src :
  bytes src → (length src ≤ length dst)%nat →
  match compress c dst src with
  | Ok (n, d) => length d = length dst
  | Err _ => True
  | UB | Fuel => False
  end.
Proof.
  clear HB. intros Hb Hl. destruct c; simpl.
  - pose proof (lzs_compress_defined dst src (Z.of_nat (length dst)) Hb ltac:(lia)) as Hd.
    destruct (lzs_compress _ _ _ _) as [[n d]| | |]; naive_solver.
  - destruct (lz4_compress_fn src) as [out|] eqn:E; [|done].
    apply law_lz4_compress in E.
    by destruct (poke_Ok dst out 0) as (d & -> & Hd & _); [lia|].
Qed.

Lemma safe_compress_out tcp c src :
  bytes src → Z.of_nat (length src) ≤ BUFFER_SIZE - 8 → safe B tcp (compress_out c src).
Proof.
  intros Hb Hl s Hs. unfold compress_out. wps. destruct Hs as [Hbf Hby Hd Hm Hu].
  pose proof (compress_range c (drop 8 (decomp (dat (ws s)))) src Hb) as Hr.
  rewrite length_drop in Hr. specialize (Hr ltac:(lia)).
  destruct (compress _ _ _) as [[n d]|e| |]; [|by wps|done|done]. wps.
  split; [|done]. split; try done. cbn. rewrite length_app, length_take. unfold BUFFER_SIZE in *. lia.
Qed.

Lemma tun_compress_wp tcp l (s : wstate W) :
  ok (ws s) → 0 < l ≤ BUFFER_SIZE - 8 →
  wp B (tun_compress l) (λ p s', good tcp s p s' ∧ sendable p.1 ∧ sendable p.2) (λ _ _, True) s.
Proof.
  intros Hs Hl. unfold tun_compress. cbv zeta. wps.
  set (pkt := take (Z.to_nat l) _).
  assert (Hpkt : bytes pkt) by apply Forall_take, Forall_drop, Hs.
  assert (Hlen : Z.of_nat (length pkt) ≤ BUFFER_SIZE - 8).
  { unfold pkt. rewrite length_take. lia. }
  assert (Hplain : sendable {| where_ := InBuffer; size := l; type := AC_PKT_DATA |}) by done.
  assert (Hcomp : ∀ n, (0 <? n) && (n <? l) = true →
    sendable {| where_ := InDecomp; size := n; type := AC_PKT_COMPRESSED |}).
  { intros n [?%Z.ltb_lt ?%Z.ltb_lt]%andb_true_iff. split; simpl; [lia|done]. }
  destruct (if (_ : bool) then dtls_selected_comp _ else None) as [dc|].
  - wps. eapply safe_wp; [by apply (safe_compress_out tcp)|done| |done].
    intros n s1 Hs1 K1. apply wp_if; intros E; wps; (split; [done|]); [|done].
    split; [by apply Hcomp|]. case_bool_decide; [by apply Hcomp|done].
  - destruct (if (_ : bool) then cstp_selected_comp _ else None) as [cc|]; [|by wps]. wps.
    eapply safe_wp; [by apply (safe_compress_out tcp)|done| |done].
    intros n s1 Hs1 K1. wps. split; [done|]. split; [done|]. cbn.
    destruct (_ && _) eqn:E; [by apply Hcomp|done].
Qed.

Lemma read_obj_length p (x : worker_st) :
  ok x → Z.of_nat (length (match p with InBuffer => buffer (dat x) | InDecomp => decomp (dat x) end))
         = BUFFER_SIZE.
Proof. intros Hs. destruct p; apply Hs. Qed.

Lemma safe_count_out tcp n : safe B tcp (@count_out W n).
Proof. by apply safe_set_dat. Qed.

Lemma tun_send_dtls_safe tcp p (s : wstate W) :
  ok (ws s) → dtls_session (udp (ws s)) = true → sendable p →
  wp B (tun_send_dtls patience p) (good tcp s) (λ _ _, True) s.
Proof.
  intros Hs Hd [Hsz Hty]. unfold tun_send_dtls. wps.
  eapply safe_wp; [apply (safe_count_out tcp)|done| |done]. intros [] s1 Hs1 K1. wps.
  eapply safe_wp; [apply (write_obj_safe tcp)|done| |done].
  { apply bytes_cons. split; [done|by apply Forall_nil]. }
  { simpl. unfold BUFFER_SIZE. lia. }
  intros [] s2 Hs2 K2. unfold read_obj. wps.
  pose proof (read_obj_length (where_ p) _ Hs2) as Hlen.
  assert (K : keeps tcp (ws s) (ws s2)) by by etrans.
  apply dtls_send_wp; try done; [by apply K|lia|rewrite length_drop; lia|]. intros r s3 E3.
  assert (Hs3 : ok (ws s3) ∧ keeps tcp (ws s) (ws s3)) by by rewrite E3.
  destruct Hs3 as [Hs3 K3]. wps. apply dtls_fatal_wp; [done|]. apply wp_if; intros _.
  - wps. apply safe_from; [|done|done]. safes. apply safe_mtu_not_ok.
  - wps. apply wp_when; intros _; wps; [|done].
    eapply wp_mono; [apply (mtu_ok_safe B tcp); [done|by apply K3]| |done].
    intros [] s4 [Hs4 K4]. wps. split; [done|by etrans].
Qed.

Lemma cstp_header_bytes n t : 0 ≤ t < 256 → bytes (cstp_header n t).
Proof.
  clear HB. intros. unfold cstp_header.
  pose proof (wrap_range 8 (Z.shiftr n 8) ltac:(lia)).
  assert (0 ≤ Z.land n 255 < 256).
  { change 255 with (Z.ones 8). rewrite Z.land_ones by lia. apply Z.mod_pos_bound. lia. }
  repeat (apply bytes_cons; split; [lia|]). by apply Forall_nil.
Qed.

Lemma safe_tun_send_cstp tcp p : sendable p → safe B tcp (tun_send_cstp patience p).
Proof.
  intros [Hsz Hty] s Hs. unfold tun_send_cstp. wps.
  eapply safe_wp; [apply (write_obj_safe tcp)|done| |done].
  { by apply cstp_header_bytes. }
  { simpl. unfold BUFFER_SIZE. lia. }
  intros [] s1 Hs1 K1. wps.
  eapply safe_wp; [apply (safe_count_out tcp)|done| |done]. intros [] s2 Hs2 K2. unfold read_obj. wps.
  pose proof (read_obj_length (where_ p) _ Hs2) as Hlen.
  assert (K : keeps tcp (ws s) (ws s2)) by by etrans.
  eapply safe_wp; [apply (safe_cstp_send patience B HB tcp); lia|done| |done].
  intros r s3 Hs3 K3. apply safe_from; [apply safe_cstp_fatal|done|by etrans].
Qed.

Lemma safe_tun_packet tcp l t : 0 < l ≤ BUFFER_SIZE - 8 → safe B tcp (tun_packet patience l t).
Proof.
  intros Hl. unfold tun_packet. apply safe_bind; [|intros _].
  { intros s Hs. unfold tun_switch_to_tcp. wps. apply wp_when; intros E; [|by split].
    apply set_udp_state_wp; [done|]. right. apply Hs.
    rewrite !andb_true_iff in E. destruct E as [[_ E%bool_decide_eq_true] _]. by rewrite E. }
  intros s Hs. wps. eapply wp_mono; [by apply (tun_compress_wp tcp)| |done].
  intros [pd pc] s1 ([Hs1 K1] & Hpd & Hpc). cbn in Hpd, Hpc. wps.
  eapply safe_wp; [apply (safe_update_tx B tcp)|done| |done]. intros go s2 Hs2 K2.
  assert (K : keeps tcp (ws s) (ws s2)) by by etrans.
  apply wp_when; intros _; [|done]. wps.
  assert (Hrest : ∀ b s3, ok (ws s3) → keeps tcp (ws s) (ws s3) →
    wp B (u ← gets (λ x, udp_state (udp x));
          when (negb (is_active u) || b) (tun_send_cstp patience pc) ;;;
          set_times (λ y, {| y with last_nc_msg := tv_sec t |})) (good tcp s) (λ _ _, True) s3).
  { intros b s3 Hs3 K3. apply safe_from; [|done|done].
    safes; [by apply safe_tun_send_cstp|by apply safe_set_times]. }
  apply wp_if; intros E; [|by apply Hrest]. apply bool_decide_eq_true in E.
  eapply wp_mono; [apply (tun_send_dtls_safe tcp); [done|apply Hs2; by rewrite E|done]| |done].
  intros b s3 [Hs3 K3]. apply Hrest; [done|by etrans].
Qed.

Lemma safe_tun_mainloop tcp t : safe B tcp (tun_mainloop patience t).
Proof.
  intros s Hs. unfold tun_mainloop, tun_read. wps. apply wp_call. intros [[r e] bs] w' E.
  destruct (data_mtu_range _ _ _ (wo_mtu _ _ Hs)) as [_ Hm].
  destruct (Z.ltb_spec r 0); cbn beta; wps; [destruct (Z.ltb_spec r 0); [by wps|lia]|].
  apply law_tun_read in E as (Hr & Hle & Hb); [|done].
  destruct (poke_Ok (buffer (dat (ws s))) bs 8) as (b' & Ep & Hl' & _).
  { pose proof (wo_buffer _ _ Hs). lia. }
  rewrite Ep. wps. destruct (Z.ltb_spec r 0); [lia|]. set (s1 := Build_wstate _ _ _).
  assert (Hs1 : ok (ws s1)).
  { apply set_buffer_ok; [done| |pose proof (wo_buffer _ _ Hs); lia].
    eapply bytes_poke; [apply Hs|done|done]. }
  destruct (Z.eqb_spec r 0); [by wps|]. apply safe_from; [|done|done]. safes.
  apply safe_tun_packet. lia.
Qed.
End turns.
