(* ===== verification/WorkerLive.v ===== *)
(** * The periodic check, the turn, and the end of a session *)

From S2P Require Import Prelude Lzs LzsStream LzsCorrect IpUtil SecModData Bandwidth.
From S2P Require Import WorkerState WorkerIo WorkerMtu WorkerLoop WorkerTurn WorkerLaws.
From S2P Require Import WorkerSafety WorkerSession WorkerTurnSafe.

(** At [now], the session is within its limits and the client was heard. *)
Definition alive (now : Z) (x : worker_st) : Prop :=
  let c := conf x in let t := times x in
  (0 < idle_timeout c → now - last_nc_msg t ≤ idle_timeout c) ∧
  (0 < session_timeout_secs c → now - session_start_time c ≤ session_timeout_secs c) ∧
  (0 < dpd c < 2 ^ 30 → now - last_msg_tcp t ≤ DPD_MAX_TRIES * dpd c).

(** What a turn does: it runs the check at [now], or it is too early for it. *)
Record turned (tcp : bool) (now : Z) (x x' : worker_st) : Prop := {
  t_conf : conf x' = conf x;
  t_tcp : tcp = false → last_msg_tcp (times x') = last_msg_tcp (times x);
  t_check :
    (last_periodic_check (times x') = last_periodic_check (times x) ∧
     terminate x' = terminate x ∧ now - last_periodic_check (times x) < 34) ∨
    (last_periodic_check (times x') = now ∧ (terminate x' = true ∨ alive now x)) }.

Lemma turned_keeps tcp now x y z : turned false now x y → keeps tcp y z → turned tcp now x z.
Proof.
  intros [C T P] [C2 T2 P2 S2 D2]. split; [by rewrite C2| |].
  - intros E. rewrite T2 by done. by apply T.
  - by rewrite P2, S2.
Qed.

Lemma FUZZ_check n : 26 ≤ FUZZ PERIODIC_CHECK_TIME 5 n ≤ 34.
Proof.
  unfold FUZZ, PERIODIC_CHECK_TIME. change (5 <? 30) with true. cbv iota zeta.
  set (r := if (_ : bool) then _ else _).
  pose proof (Z.rem_bound_abs r 5). lia.
Qed.

Section live.
Context {W : Type} `{WorldLaws W, !WholeRecords W}.
Context (patience : nat) (B : Prop).
Context (HB : B ∨ prompt W ∧ (0 < patience)%nat).

Abbreviation ok := (worker_ok dtls_overhead).
Abbreviation good := (λ tcp s, λ _ (s' : wstate W), ok (ws s') ∧ keeps tcp (ws s) (ws s')).

(** ** The periodic check *)

Lemma safe_check_stats tcp now : safe B tcp (@check_stats W _ now).
Proof. unfold check_stats. safes. by apply safe_stats. Qed.

Lemma safe_check_pmtu tcp : safe B tcp (@check_pmtu W _).
Proof.
  intros s Hs. unfold check_pmtu, get_pmtu_approx. wps. apply wp_when; intros _; [|by split]. wps.
  apply wp_call. intros r w' E. wps. apply wp_when; intros E2; [|by split].
  apply andb_true_iff in E2 as [E2%Z.ltb_lt _]. destruct r as [m|]; [|lia].
  apply law_pmtu in E. apply safe_from; [apply safe_link_mtu_set; lia|done|done].
Qed.

Lemma safe_check_dpd_udp tcp now : safe B tcp (check_dpd_udp patience now).
Proof.
  intros s Hs. unfold check_dpd_udp. wps. apply wp_when; intros E; [|by split].
  rewrite !andb_true_iff in E. destruct E as [[E%bool_decide_eq_true _] _].
  assert (Hd : dtls_session (udp (ws s)) = true) by (apply Hs; by rewrite E).
  wps. destruct (data_mtu_range _ _ _ (wo_mtu _ _ Hs)) as [_ Hm]. set (m := DATA_MTU _ _) in *.
  destruct (Z.ltb_spec BUFFER_SIZE (1 + m)); [lia|].
  eapply safe_wp; [apply (write_obj_safe B tcp)|done| |done].
  { apply Forall_replicate. lia. }
  { rewrite length_replicate. lia. }
  intros [] s1 Hs1 K1. wps.
  eapply safe_wp; [apply (write_obj_safe B tcp)|done| |done].
  { apply bytes_cons. split; [done|by apply Forall_nil]. }
  { done. }
  intros [] s2 Hs2 K2. wps. assert (K : keeps tcp (ws s) (ws s2)) by by etrans.
  pose proof (wo_buffer _ _ Hs2) as Hlen.
  rewrite wrap_small by (unfold BUFFER_SIZE in *; lia).
  apply dtls_send_wp; try done; [by apply K|lia|lia|]. intros r s3 E3. wps.
  apply dtls_fatal_wp; [done|].
  assert (Hs3 : ok (ws s3) ∧ keeps tcp (ws s) (ws s3)) by by rewrite E3.
  destruct Hs3 as [Hs3 K3]. apply wp_when; intros _; [|done].
  eapply wp_mono; [apply (set_udp_state_wp B tcp); [done|right; by apply K3]| |done].
  intros [] s4 [Hs4 K4]. split; [done|by etrans].
Qed.

Lemma check_dpd_tcp_wp tcp now (s : wstate W) :
  ok (ws s) →
  wp B (check_dpd_tcp patience now) (λ a s', good tcp s a s' ∧
    (0 < dpd (conf (ws s)) < 2 ^ 30 →
     now - last_msg_tcp (times (ws s)) ≤ DPD_MAX_TRIES * dpd (conf (ws s)))) (λ _ _, True) s.
Proof.
  intros Hs. unfold check_dpd_tcp. wps. apply wp_when; intros E.
  - wps. eapply safe_wp; [apply (write_obj_safe B tcp)|done| |done].
    { by apply cstp_header_bytes. }
    { done. }
    intros [] s1 Hs1 K1. wps. pose proof (wo_buffer _ _ Hs1) as Hlen.
    eapply safe_wp; [apply (safe_cstp_send patience B HB tcp); unfold BUFFER_SIZE in *; lia|done| |done].
    intros r s2 Hs2 K2. wps. eapply safe_wp; [apply (safe_cstp_fatal B tcp)|done| |done].
    intros [] s3 Hs3 K3. apply wp_when; intros E2; [by apply exit_worker_wp|].
    assert (K : keeps tcp (ws s) (ws s3)) by (etrans; [exact K1|by etrans]).
    split; [done|]. intros Hd. apply Z.ltb_ge in E2. unfold DPD_MAX_TRIES in *.
    rewrite wrap_small in E2 by lia. lia.
  - split; [done|]. intros Hd. apply andb_false_iff in E as [E%Z.ltb_ge|E%Z.ltb_ge]; [lia|].
    unfold DPD_TRIES, DPD_MAX_TRIES in *. rewrite wrap_small in E by lia. lia.
Qed.

Lemma periodic_check_wp (t : timespec) (s : wstate W) :
  ok (ws s) →
  wp B (periodic_check patience t) (λ r s', r = 0 ∧ ok (ws s') ∧
    turned false (tv_sec t) (ws s) (ws s')) (λ _ _, True) s.
Proof.
  intros Hs. unfold periodic_check. cbv zeta. wps. pose proof (FUZZ_check (tv_nsec t)) as Hf.
  apply wp_if; intros E; [apply Z.ltb_lt in E; wps|].
  { split; [done|]. split; [done|]. split; [done|done|]. left. split_and!; [done|done|lia]. }
  clear E Hf. wps. unfold check_timeouts. wps. set (now := tv_sec t).
  assert (Hend : ∀ s1 : wstate W, ok (ws s1) → conf (ws s1) = conf (ws s) →
     last_msg_tcp (times (ws s1)) = last_msg_tcp (times (ws s)) →
     terminate (ws s1) = true ∨ alive now (ws s) →
     wp B (set_times (λ y, {| y with last_periodic_check := now |}) ;;; mret 0)
       (λ r s', r = 0 ∧ ok (ws s') ∧ turned false now (ws s) (ws s')) (λ _ _, True) s1).
  { intros s1 [? ? ? ? ?] C T A. wps. split; [done|]. split; [by split|].
    split; [done|done|]. right. split; [done|exact A]. }
  apply wp_if; intros E1.
  { wps. apply Hend; [by destruct Hs|done|done|by left]. }
  apply wp_if; intros E2.
  { wps. apply Hend; [by destruct Hs|done|done|by left]. }
  wps. unfold when. cbn [negb]. wps.
  assert (Hal : ∀ s0 : wstate W, ws s0 = (let x := ws s in let y := times x in
      {| x with times := {| y with alarm_at := now + 1800 |} |}) → ok (ws s0) ∧ keeps false (ws s) (ws s0)).
  { intros s0 ->. destruct Hs. split; by split. }
  match goal with |- wp _ _ _ _ ?s0 => destruct (Hal s0 eq_refl) as [Hs0 K0] end. clear Hal.
  eapply safe_wp; [apply (safe_check_stats false)|done| |done]. intros [] s1 Hs1 K1'.
  assert (K1 : keeps false (ws s) (ws s1)) by (etrans; [exact K0|exact K1']). clear K0 K1'. wps.
  eapply safe_wp; [apply (safe_check_dpd_udp false)|done| |done]. intros [] s2 Hs2 K2. wps.
  eapply wp_mono; [by apply (check_dpd_tcp_wp false)| |done]. intros [] s3 [[Hs3 K3] Hdpd]. wps.
  eapply safe_wp; [apply (safe_check_pmtu false)|done| |done]. intros [] s4 Hs4 K4.
  assert (K : keeps false (ws s) (ws s4)).
  { etrans; [exact K1|]. etrans; [exact K2|]. etrans; [exact K3|exact K4]. }
  assert (K12 : keeps false (ws s) (ws s2)) by (etrans; [exact K1|exact K2]).
  apply Hend; [done|apply K|by apply K|]. right. unfold alive. cbv zeta.
  rewrite (k_conf _ _ _ K12), (k_tcp _ _ _ K12 eq_refl) in Hdpd.
  apply andb_false_iff in E1, E2. cbn [ws conf times last_nc_msg] in E1, E2. rewrite !Z.ltb_ge in E1, E2.
  split_and!; [lia|lia|done].
Qed.

(** ** Commands of the main process *)

Lemma safe_recv_from_new_fd tcp fd m : safe B tcp (@recv_from_new_fd W _ fd m).
Proof.
  unfold recv_from_new_fd. safe1; [safes|]. apply safe_if; [safes|].
  apply safe_bind; [safes|intros [r m']]. safes.
Qed.

Lemma safe_accept_udp_fd tcp hello m fd : safe B tcp (@accept_udp_fd W _ hello m fd).
Proof.
  unfold accept_udp_fd. apply safe_bind.
  - apply safe_if; [|apply safe_recv_from_new_fd]. safes. by apply safe_set_inactive.
  - intros [go m']. safes. intros s [Hb Hby Hd Hm Hu]. wps. split; [|by split]. by split.
Qed.

Lemma safe_handle_commands tcp : safe B tcp (@handle_commands_from_main W _).
Proof.
  unfold handle_commands_from_main. apply safe_bind; [|intros _].
  { intros s Hs. wps. split; [|done]. apply set_buffer_ok; [done| |].
    - apply Forall_replicate. lia.
    - by rewrite length_replicate. }
  apply safe_bind; [safes|]. intros []; safes; [by apply safe_set_inactive|].
  apply safe_accept_udp_fd.
Qed.

(** ** The turn *)

Lemma do_terminate_wp {A} Q (s : wstate W) :
  ok (ws s) → wp B (@do_terminate W _ patience A) Q (λ _ _, True) s.
Proof.
  intros Hs. unfold do_terminate. wps.
  eapply safe_wp; [apply (write_obj_safe B false)|done| |done].
  { by apply cstp_header_bytes. }
  { done. }
  intros [] s1 Hs1 _. wps. pose proof (wo_buffer _ _ Hs1) as Hlen.
  eapply safe_wp; [apply (safe_cstp_send patience B HB false); unfold BUFFER_SIZE in *; lia|done| |done].
  intros r s2 _ _. wps. by apply exit_worker_wp.
Qed.

Lemma do_exit_wp {A} Q (s : wstate W) : wp B (@do_exit W _ A) Q (λ _ _, True) s.
Proof.
  unfold do_exit, cstp_close, dtls_close. wps.
  apply wp_when; intros _; wps; by apply exit_worker_wp.
Qed.

Lemma safe_exit_on_error tcp (m : M W Z) : safe B tcp m → safe B tcp (exit_on_error m).
Proof. intros Hm. unfold exit_on_error. safes; [done|]. intros s _. apply do_exit_wp. Qed.

Lemma safe_handle_cmd tcp : safe B tcp (handle_cmd patience).
Proof.
  unfold handle_cmd. apply safe_bind; [apply safe_handle_commands|]. intros r.
  apply safe_if.
  - intros s Hs. wps. apply do_terminate_wp. by destruct Hs.
  - apply safe_if; [|safes]. intros s _. apply do_exit_wp.
Qed.

Lemma serve_wp (tls cmd tun dtls : bool) (t : timespec) (s : wstate W) :
  ok (ws s) →
  wp B (serve patience tls cmd tun dtls t)
    (λ _ s', ok (ws s') ∧ turned tls (tv_sec t) (ws s) (ws s')) (λ _ _, True) s.
Proof.
  intros Hs. unfold serve. apply wp_bind. unfold exit_on_error at 1. apply wp_bind.
  eapply wp_mono; [by apply periodic_check_wp| |done]. intros r s1 (-> & Hs1 & T1).
  change (0 <? 0) with false. cbv iota. apply wp_ret.
  eapply (safe_wp B tls); [|done| |done].
  - apply safe_bind; [apply safe_when, safe_exit_on_error, safe_tun_mainloop; done|intros _].
    apply safe_bind; [|intros _].
    { unfold when. destruct tls; [|apply safe_ret]. by apply safe_exit_on_error, safe_tls_mainloop. }
    apply safe_bind; [apply safe_gets|intros u].
    apply safe_bind; [by apply safe_when, safe_exit_on_error, safe_dtls_mainloop|intros _].
    apply safe_when, safe_handle_cmd.
  - intros [] s2 Hs2 K2. split; [done|]. by eapply turned_keeps.
Qed.

(** The turn reads the TLS channel. *)
Definition reads_tls (x : worker_st) (t : turn) : bool :=
  tls_pending t && session (conf x) ||
  match polled t with PollEvents _ tls _ _ _ => tls | _ => false end.

(** The turn gets to the periodic check if [poll] is not needed or succeeds. *)
Definition polls_ok (t : turn) : bool :=
  match polled t with PollEvents false _ _ _ _ => true | _ => false end.

Lemma session_turn_wp (t : turn) (s : wstate W) :
  ok (ws s) →
  wp B (session_turn patience t) (λ _ s', ok (ws s') ∧ terminate (ws s) = false ∧
    (turned (reads_tls (ws s) t) (tv_sec (tnow t)) (ws s) (ws s') ∨
     polls_ok t = false ∧ conf (ws s') = conf (ws s) ∧ times (ws s') = times (ws s) ∧
     (terminate (ws s) = true → terminate (ws s') = true))) (λ _ _, True) s.
Proof.
  intros Hs. unfold session_turn. wps. apply wp_if; intros Hterm; [by apply do_terminate_wp|].
  wps. cbv zeta. set (tp := tls_pending t && session (conf (ws s))).
  set (df := _ <? _). set (dp := df && _).
  destruct (tp || dp) eqn:Ep.
  - eapply wp_mono; [by apply serve_wp| |done]. intros [] s1 [Hs1 T1].
    split; [done|]. split; [done|]. left. destruct T1 as [C T P]. split; [done| |done].
    intros E. apply T. unfold reads_tls in E. fold tp in E. by destruct tp.
  - apply orb_false_iff in Ep as [Etp Edp].
    destruct (polled t) as [sig| |err tls cmd tun dtls] eqn:Epoll.
    + apply wp_when; intros _; wps; (split; [by destruct Hs|]); (split; [done|]); right.
      all: split_and!; try done; unfold polls_ok; by rewrite Epoll.
    + apply do_exit_wp.
    + apply wp_if; intros _; [apply do_exit_wp|].
      eapply wp_mono; [by apply serve_wp| |done]. intros [] s1 [Hs1 T1].
      split; [done|]. split; [done|]. left. destruct T1 as [C T P]. split; [done| |done].
      intros E. apply T. unfold reads_tls in E. rewrite Epoll in E. by destruct tls, (tls_pending t && _).
Qed.
End live.
