(* ===== verification/WorkerDeadline.v ===== *)
(** * Sessions are safe, and end when they should *)

From S2P Require Import Prelude Lzs IpUtil SecModData Bandwidth.
From S2P Require Import WorkerState WorkerIo WorkerMtu WorkerLoop WorkerTurn WorkerLaws.
From S2P Require Import WorkerSafety WorkerSession WorkerTurnSafe WorkerLive.

Section run.
Context {W : Type} `{WorldLaws W, !WholeRecords W}.
Context (patience : nat) (B : Prop).
Context (HB : B ∨ prompt W ∧ (0 < patience)%nat).

Abbreviation ok := (worker_ok dtls_overhead).

Lemma run_session_wp ts (s : wstate W) :
  ok (ws s) →
  wp B (run_session patience ts) (λ _ s', ok (ws s') ∧ conf (ws s') = conf (ws s))
    (λ _ _, True) s.
Proof.
  revert s. induction ts as [|t ts IH]; intros s Hs; cbn [run_session]; [by wps|]. apply wp_bind.
  eapply wp_mono; [by apply session_turn_wp| |done]. intros [] s1 (Hs1 & _ & Ht).
  assert (C : conf (ws s1) = conf (ws s)) by (destruct Ht as [[]|(_ & ? & _)]; done).
  eapply wp_mono; [by apply IH| |done]. intros [] s2 [Hs2 C2]. by rewrite C2.
Qed.

Lemma run_app ts us (s : wstate W) Q X :
  wp B (run_session patience ts) (λ _ s', wp B (run_session patience us) Q X s') X s →
  wp B (run_session patience (ts ++ us)) Q X s.
Proof.
  revert s. induction ts as [|t ts IH]; intros s Hs; cbn [run_session app] in *; [exact Hs|].
  apply wp_bind. unfold wp, mbind, M_bind in Hs.
  unfold wp at 1. destruct (session_turn patience t s) as [[] s1| | |]; try done. by apply IH.
Qed.

(** ** A deadline

    [P] is what is known of the state, [allowed] which turns may happen; while
    the check finds the session alive, the deadline [D] is not passed. *)
Section deadline.
Context (P : worker_st → Prop) (allowed : worker_st → turn → bool) (D : Z).
Context (HPt : ∀ x x' t, P x → allowed x t = true →
  turned (reads_tls x t) (tv_sec (tnow t)) x x' → P x').
Context (HPs : ∀ x x', P x → conf x' = conf x → times x' = times x → P x').
Context (HD : ∀ x now, P x → alive now x → now ≤ D).

Definition before (x : worker_st) : Prop :=
  ok x ∧ P x ∧ (terminate x = true ∨ last_periodic_check (times x) ≤ D).

Lemma before_turn t (s : wstate W) :
  before (ws s) → allowed (ws s) t = true →
  wp B (session_turn patience t) (λ _ s', before (ws s')) (λ _ _, True) s.
Proof.
  intros (Hs & HP & Hb) Ha. eapply wp_mono; [by apply session_turn_wp| |done].
  intros [] s1 (Hs1 & Hterm & Ht). destruct Hb as [Hb|Hb]; [congruence|].
  destruct Ht as [Ht|(_ & C & T & Tm)].
  - split; [done|]. split; [by eapply HPt|].
    destruct (t_check _ _ _ _ Ht) as [(-> & _ & _)|[-> [?|Hal]]]; [by right|by left|right].
    by eapply HD.
  - split; [done|]. split; [by eapply HPs|]. right. by rewrite T.
Qed.

(** The check runs after the deadline. *)
Lemma deadline_turn t (s : wstate W) :
  before (ws s) → polls_ok t = true → D + 34 ≤ tv_sec (tnow t) →
  D < tv_sec (tnow t) →
  wp B (session_turn patience t) (λ _ s', ok (ws s') ∧ terminate (ws s') = true) (λ _ _, True) s.
Proof.
  intros (Hs & HP & Hb) Hp Hn Hn2. eapply wp_mono; [by apply session_turn_wp| |done].
  intros [] s1 (Hs1 & Hterm & Ht). split; [done|]. destruct Hb as [Hb|Hb]; [congruence|].
  destruct Ht as [Ht|(? & _)]; [|congruence].
  destruct (t_check _ _ _ _ Ht) as [(_ & _ & Hlt)|[_ [?|Hal]]]; [lia|done|].
  pose proof (HD _ _ HP Hal). lia.
Qed.

Lemma terminated_turn t (s : wstate W) :
  ok (ws s) → terminate (ws s) = true →
  wp B (session_turn patience t) (λ _ _, False) (λ _ _, True) s.
Proof.
  intros Hs Ht. eapply wp_mono; [by apply session_turn_wp| |done].
  intros [] s1 (_ & Hf & _). congruence.
Qed.

Lemma deadline_run ts t t' (s : wstate W) :
  before (ws s) →
  (∀ x u, P x → u ∈ ts → allowed x u = true) →
  polls_ok t = true → D + 34 ≤ tv_sec (tnow t) →
  wp B (run_session patience (ts ++ [t; t'])) (λ _ _, False) (λ _ _, True) s.
Proof.
  intros Hb Hall Hp Hn. apply run_app.
  assert (Hts : wp B (run_session patience ts) (λ _ s', before (ws s')) (λ _ _, True) s).
  { revert s Hb Hall. induction ts as [|u ts IH]; intros s Hb Hall; cbn [run_session]; [by wps|].
    apply wp_bind. eapply wp_mono; [apply before_turn; [done|apply Hall; [apply Hb|left]]| |done].
    intros [] s1 Hb1. apply IH; [done|]. intros x v Hx Hv. apply Hall; [done|by right]. }
  eapply wp_mono; [exact Hts| |done]. intros [] s1 Hb1. cbn [run_session]. apply wp_bind.
  eapply wp_mono; [by apply deadline_turn; [..|lia]| |done]. intros [] s2 [Hs2 Ht2]. apply wp_bind.
  eapply wp_mono; [by apply terminated_turn| |done]. done.
Qed.
End deadline.
End run.

(** The worker has ended, or it waits for a call that asks to be repeated. *)
Definition ended_or_waits {W} `{World W} (patience : nat) {A} (o : outcome (wstate W) A) : Prop :=
  match o with
  | Exit _ _ => True
  | Blocked => ¬ (prompt W ∧ (0 < patience)%nat)
  | Val _ _ | Undef => False
  end.

(** [wp] with no way to go on. *)
Lemma wp_ended {W} `{World W} patience {A} (m : M W A) s :
  (∀ B : Prop, B ∨ prompt W ∧ (0 < patience)%nat → wp B m (λ _ _, False) (λ _ _, True) s) →
  ended_or_waits patience (m s).
Proof.
  intros Hm. pose proof (Hm True (or_introl I)) as H1. unfold wp in *. destruct (m s) eqn:E; try done.
  intros Hp. exact (Hm False (or_intror Hp)).
Qed.

(** C8: memory safety of a session.  Whatever the client, the tun device and
    the main process send, for any number of turns of the loop, no undefined
    operation is performed (no buffer is left, no missing DTLS session is
    used), and the state stays well formed, as long as GnuTLS takes what is
    sent over TLS in whole records ([WholeRecords]: the client has not
    negotiated smaller ones; with smaller ones [cstp_send] reads beyond its
    data). *)
Theorem worker_session_safe {W} `{WorldLaws W, !WholeRecords W} (patience : nat) (ts : list turn) (s : wstate W) :
  worker_ok dtls_overhead (ws s) →
  match run_session patience ts s with
  | Val _ s' => worker_ok dtls_overhead (ws s') ∧ conf (ws s') = conf (ws s)
  | Undef => False
  | Exit _ _ | Blocked => True
  end.
Proof.
  intros Hs. pose proof (run_session_wp patience True (or_introl I) ts s Hs) as Hr.
  unfold wp in Hr. by destruct (run_session patience ts s).
Qed.

(** C26: dead peer detection.  In whatever turns the client is not heard on the
    CSTP channel, the first one that is 34 seconds or more after three DPD
    periods of silence, or the turn after that, ends the worker; unless the
    worker still waits for a call that asks to be repeated, as [cstp_send] does
    for a client that does not read. *)
Theorem dead_peer_disconnected {W} `{WorldLaws W, !WholeRecords W} (patience : nat) (ts : list turn)
    (t t' : turn) (s : wstate W) :
  worker_ok dtls_overhead (ws s) →
  let c := conf (ws s) in
  let heard := last_msg_tcp (times (ws s)) in
  0 < dpd c < 2 ^ 30 →
  last_periodic_check (times (ws s)) ≤ heard + DPD_MAX_TRIES * dpd c →
  Forall (λ u, reads_tls (ws s) u = false) ts →
  polls_ok t = true → heard + DPD_MAX_TRIES * dpd c + 34 ≤ tv_sec (tnow t) →
  ended_or_waits patience (run_session patience (ts ++ [t; t']) s).
Proof.
  intros Hs c heard Hdpd Hlast Hquiet Hpoll Htime. apply wp_ended. intros B HB.
  set (P := λ x, conf x = c ∧ last_msg_tcp (times x) = heard).
  apply (deadline_run patience B HB P
           (λ x u, negb (reads_tls x u)) (heard + DPD_MAX_TRIES * dpd c)).
  - intros x x' u [C L] Ha%negb_true_iff [Ct T _]. rewrite Ha in T.
    split; [by rewrite Ct|by rewrite T].
  - intros x x' [C L] C' T'. unfold P. by rewrite C', T'.
  - intros x now [C L] (_ & _ & Hal). rewrite C, L in Hal. lia.
  - split; [done|]. split; [done|]. by right.
  - intros x u [C _] Hu. apply negb_true_iff. rewrite Forall_forall in Hquiet.
    unfold reads_tls. rewrite C. by apply Hquiet.
  - done.
  - done.
Qed.

(** C27: the session time limit.  Whatever happens in a session, the first turn
    that is 34 seconds or more after its limit, or the turn after that, ends
    the worker; unless it still waits for a call that asks to be repeated. *)
Theorem session_timeout_enforced {W} `{WorldLaws W, !WholeRecords W} (patience : nat) (ts : list turn)
    (t t' : turn) (s : wstate W) :
  worker_ok dtls_overhead (ws s) →
  let c := conf (ws s) in
  0 < session_timeout_secs c →
  last_periodic_check (times (ws s)) ≤ session_start_time c + session_timeout_secs c →
  polls_ok t = true → session_start_time c + session_timeout_secs c + 34 ≤ tv_sec (tnow t) →
  ended_or_waits patience (run_session patience (ts ++ [t; t']) s).
Proof.
  intros Hs c Hto Hlast Hpoll Htime. apply wp_ended. intros B HB.
  apply (deadline_run patience B HB (λ x, conf x = c)
           (λ _ _, true) (session_start_time c + session_timeout_secs c)); try done.
  - intros x x' u C _ [Ct _ _]. by rewrite Ct.
  - intros x x' C C' _. by rewrite C'.
  - intros x now C (_ & Hal & _). rewrite C in Hal. lia.
  - split; [done|]. split; [done|]. by right.
Qed.
