(* ===== verification/WorkerTunnel.v ===== *)
(** * Packets get through the tunnel unchanged

    What [tun_mainloop] makes of a packet, compressed or not, on CSTP or on
    DTLS, the other side's [parse_cstp_data] or [parse_dtls_data] writes to its
    tun device as it was. *)

From S2P Require Import Prelude Lzs LzsStream LzsCorrect IpUtil SecModData Bandwidth.
From S2P Require Import WorkerState WorkerIo WorkerMtu WorkerLoop WorkerTurn WorkerLaws.
From S2P Require Import WorkerSafety WorkerSession WorkerTurnSafe.

(** A world that accepts what it is given, and whose LZ4 is lossless. *)
Record accepting (W : Type) `{World W} : Prop := {
  acc_tls bs w : (tls_record_send bs w).1 = Z.of_nat (length bs);
  acc_dtls bs w : (dtls_record_send bs w).1 = Z.of_nat (length bs);
  acc_tun bs w : (tun_dev_write bs w).1 = (Z.of_nat (length bs), false);
  acc_lz4 src out n : lz4_compress_fn src = Some out → Z.of_nat (length src) ≤ n →
    lz4_decompress_fn n out = Some src }.

Section tunnel.
Context {W : Type} `{WorldLaws W, !WholeRecords W}.
Context (patience : nat) (Hpat : (0 < patience)%nat) (Hacc : accepting W).

Abbreviation ok := (worker_ok dtls_overhead).

(** ** Compressed payloads *)

(** Whatever the receiver's buffer holds, decompressing [pay] gives [pkt]. *)
Definition carries (c : comp_type_t) (pay pkt : list Z) : Prop :=
  ∀ dst : list Z, Z.of_nat (length dst) = BUFFER_SIZE →
    ∃ d, decompress c dst pay = Ok (Z.of_nat (length pkt), d) ∧ take (length pkt) d = pkt.

Lemma compress_carries c dst pkt n d :
  bytes pkt → 0 < Z.of_nat (length pkt) ≤ BUFFER_SIZE - 8 →
  compress c dst pkt = Ok (n, d) → 0 < n →
  Z.of_nat (length (take (Z.to_nat n) d)) = n ∧ carries c (take (Z.to_nat n) d) pkt.
Proof.
  intros Hb Hl E Hn. destruct c; simpl in E.
  - pose proof (lzs_compress_defined dst pkt (Z.of_nat (length dst)) Hb ltac:(lia)) as Hd.
    rewrite E in Hd. destruct Hd as [Hnd Hld].
    assert (Hlen : Z.of_nat (length (take (Z.to_nat n) d)) = n) by (rewrite length_take; lia).
    split; [done|]. intros dst2 Hd2. simpl. rewrite Hlen.
    destruct (lzs_inverse pkt dst dst2 d (Z.of_nat (length dst)) (Z.of_nat (length dst2)) n)
      as (d2 & E2 & Ht); try done; try (unfold BUFFER_SIZE in *; lia).
    by exists d2.
  - destruct (lz4_compress_fn pkt) as [out|] eqn:E2; [|injection E as <- <-; lia].
    unfold poke in E. destruct (_ <=? _)%nat eqn:El; [|done]. apply Nat.leb_le in El.
    cbn in E. injection E as <- <-. rewrite Nat2Z.id. cbn [app take].
    rewrite take_app_length. split; [done|]. intros dst2 Hd2. simpl.
    rewrite (acc_lz4 _ Hacc pkt out _ E2) by lia.
    unfold poke. rewrite (proj2 (Nat.leb_le (0 + length pkt) (length dst2))) by lia.
    cbn. eexists. split; [done|]. rewrite take_0, app_nil_l. apply take_app_length.
Qed.

(** ** Sending *)

(** What a packet to send carries: the payload is at offset 8 of its object. *)
Definition payload (p : to_send) (x : worker_st) : list Z :=
  take (Z.to_nat (size p))
    (drop 8 match where_ p with InBuffer => buffer (dat x) | InDecomp => decomp (dat x) end).

Definition encodes (c : option comp_type_t) (ty : Z) (pay pkt : list Z) : Prop :=
  ty = AC_PKT_DATA ∧ pay = pkt ∨
  ty = AC_PKT_COMPRESSED ∧ ∃ cc, c = Some cc ∧ carries cc pay pkt.

Definition tun_pkt (l : Z) (x : worker_st) : list Z := take (Z.to_nat l) (drop 8 (buffer (dat x))).

Lemma compress_out_wp c pkt (s : wstate W) :
  ok (ws s) → bytes pkt → 0 < Z.of_nat (length pkt) ≤ BUFFER_SIZE - 8 →
  wp False (compress_out c pkt) (λ n s', log s' = log s ∧ conf (ws s') = conf (ws s) ∧
    udp (ws s') = udp (ws s) ∧ buffer (dat (ws s')) = buffer (dat (ws s)) ∧
    b_tx (dat (ws s')) = b_tx (dat (ws s)) ∧
    (0 < n → length (take (Z.to_nat n) (drop 8 (decomp (dat (ws s'))))) = Z.to_nat n ∧
       carries c (take (Z.to_nat n) (drop 8 (decomp (dat (ws s'))))) pkt))
    (λ _ _, False) s.
Proof.
  intros Hs Hb Hl. unfold compress_out. wps.
  pose proof (compress_range c (drop 8 (decomp (dat (ws s)))) pkt Hb) as Hr.
  rewrite length_drop in Hr. pose proof (wo_decomp _ _ Hs) as Hd. specialize (Hr ltac:(lia)).
  destruct (compress c _ pkt) as [[n d]|e| |] eqn:E; [|wps|done|done].
  - wps. split_and!; try done. cbn. intros Hn.
    destruct (compress_carries c _ pkt n d Hb Hl E Hn) as [Hlen Hc].
    rewrite drop_app_length' by (rewrite length_take; unfold BUFFER_SIZE in *; lia).
    split; [lia|done].
  - split_and!; try done. intros He. exfalso.
    destruct c; simpl in E.
    + pose proof (lzs_compress_defined (drop 8 (decomp (dat (ws s)))) pkt
        (Z.of_nat (length (drop 8 (decomp (dat (ws s)))))) Hb ltac:(lia)) as Hc.
      rewrite E in Hc. unfold EFBIG in Hc. lia.
    + destruct (lz4_compress_fn pkt) as [out|]; [|done].
      unfold poke in E. by destruct (_ <=? _)%nat.
Qed.

Lemma tun_compress_payload l (s : wstate W) :
  ok (ws s) → 0 < l ≤ BUFFER_SIZE - 8 →
  wp False (tun_compress l) (λ p s', log s' = log s ∧ conf (ws s') = conf (ws s) ∧
    udp (ws s') = udp (ws s) ∧ b_tx (dat (ws s')) = b_tx (dat (ws s)) ∧
    encodes (dtls_selected_comp (conf (ws s))) (type p.1) (payload p.1 (ws s')) (tun_pkt l (ws s)) ∧
    encodes (cstp_selected_comp (conf (ws s))) (type p.2) (payload p.2 (ws s')) (tun_pkt l (ws s)) ∧
    Z.of_nat (length (payload p.1 (ws s'))) = size p.1 ∧
    Z.of_nat (length (payload p.2 (ws s'))) = size p.2)
    (λ _ _, False) s.
Proof.
  intros Hs Hl. unfold tun_compress. cbv zeta. wps.
  change (take (Z.to_nat l) (drop 8 (buffer (dat (ws s))))) with (tun_pkt l (ws s)).
  assert (Hpkt : bytes (tun_pkt l (ws s))) by apply Forall_take, Forall_drop, Hs.
  assert (Hlen : Z.of_nat (length (tun_pkt l (ws s))) = l).
  { unfold tun_pkt. rewrite length_take, length_drop. pose proof (wo_buffer _ _ Hs). lia. }
  assert (Hplain : ∀ c x, buffer (dat x) = buffer (dat (ws s)) →
    encodes c AC_PKT_DATA (payload {| where_ := InBuffer; size := l; type := AC_PKT_DATA |} x)
      (tun_pkt l (ws s)) ∧
    Z.of_nat (length (payload {| where_ := InBuffer; size := l; type := AC_PKT_DATA |} x)) = l).
  { intros c x E. unfold payload, encodes. cbn. rewrite E.
    change (take (Z.to_nat l) (drop 8 (buffer (dat (ws s))))) with (tun_pkt l (ws s)). auto. }
  assert (Hcomp : ∀ c n (s1 : wstate W),
    (0 < n → length (take (Z.to_nat n) (drop 8 (decomp (dat (ws s1))))) = Z.to_nat n ∧
       carries c (take (Z.to_nat n) (drop 8 (decomp (dat (ws s1))))) (tun_pkt l (ws s))) →
    (0 <? n) && (n <? l) = true →
    let p := {| where_ := InDecomp; size := n; type := AC_PKT_COMPRESSED |} in
    encodes (Some c) (type p) (payload p (ws s1)) (tun_pkt l (ws s)) ∧
    Z.of_nat (length (payload p (ws s1))) = n).
  { intros c n s1 Hn [?%Z.ltb_lt _]%andb_true_iff p. destruct Hn as [Hln Hc]; [done|].
    unfold payload, p. cbn. split; [|lia]. right. eauto. }
  destruct (if (_ : bool) then dtls_selected_comp _ else None) as [dc|] eqn:Edc.
  - assert (Edc' : dtls_selected_comp (conf (ws s)) = Some dc) by (by destruct (_ && _)).
    wps. eapply wp_mono; [apply (compress_out_wp dc); [done|done|lia]| |done].
    intros n s1 (L1 & C1 & U1 & B1 & T1 & Hn).
    destruct (Hplain (cstp_selected_comp (conf (ws s))) (ws s1) B1) as [Hp1 Hp2].
    destruct (Hplain (dtls_selected_comp (conf (ws s))) (ws s1) B1) as [Hp3 _].
    apply wp_if; intros E; wps; cbn [fst snd].
    + destruct (Hcomp dc n s1 Hn E) as [He1 He2]. rewrite Edc'.
      case_bool_decide as Hc; [rewrite Hc|]; split_and!; done.
    + split_and!; done.
  - destruct (if (_ : bool) then cstp_selected_comp _ else None) as [cc|] eqn:Ecc.
    + assert (Ecc' : cstp_selected_comp (conf (ws s)) = Some cc) by (by destruct (_ <? _)).
      wps. eapply wp_mono; [apply (compress_out_wp cc); [done|done|lia]| |done].
      intros n s1 (L1 & C1 & U1 & B1 & T1 & Hn). wps. cbn [fst snd]. rewrite Ecc'.
      destruct (Hplain (Some cc) (ws s1) B1) as [Hp1 Hp2].
      destruct (Hplain (dtls_selected_comp (conf (ws s))) (ws s1) B1) as [Hp3 _].
      destruct ((0 <? n) && (n <? l)) eqn:E; [|split_and!; done].
      destruct (Hcomp cc n s1 Hn E) as [He1 He2]. split_and!; done.
    + wps. cbn [fst snd].
      destruct (Hplain (cstp_selected_comp (conf (ws s))) (ws s) eq_refl) as [Hp1 Hp2].
      destruct (Hplain (dtls_selected_comp (conf (ws s))) (ws s) eq_refl) as [Hp3 _].
      split_and!; done.
Qed.

(** *** The record on the wire *)

Lemma poke_drop (b hd b' : list Z) off n :
  (off + length hd = n)%nat → poke b off hd = Ok b' → drop n b' = drop n b.
Proof.
  intros <-. unfold poke. destruct (_ <=? _)%nat eqn:E; [|done]. apply Nat.leb_le in E.
  intros [= <-]. rewrite app_assoc, drop_app_length'; [done|].
  rewrite length_app, length_take. lia.
Qed.

Lemma record_accepted send tag (p : list Z) n (s : wstate W) Q X :
  (∀ bs w, (send bs w).1 = Z.of_nat (length bs)) →
  0 < n ≤ Z.of_nat (length p) →
  (∀ s', ws s' = ws s → log s' = log s ++ [tag (take (Z.to_nat n) p)] → Q n s') →
  wp False (record_send send tag patience p n n) Q X s.
Proof.
  intros Hs Hn HQ. destruct patience as [|k]; [lia|]. cbn [record_send].
  destruct (Z.leb_spec n 0); [lia|]. destruct (Z.ltb_spec (Z.of_nat (length p)) n); [lia|].
  wps. apply wp_call. intros r w' E. specialize (Hs (take (Z.to_nat n) p) (world s)).
  rewrite E, length_take in Hs. cbn in Hs. assert (r = n) as -> by lia.
  destruct (Z.ltb_spec n 0); [lia|]. destruct (Z.ltb_spec 0 n); [|lia]. wps.
  rewrite Z.sub_diag. destruct k; cbn [record_send]; wps; apply HQ; try done; cbn;
    by rewrite take_take, Nat.min_id.
Qed.

Lemma obj_after_poke p (x : worker_st) hd b' :
  poke (match p with InBuffer => buffer (dat x) | InDecomp => decomp (dat x) end) 0 hd = Ok b' →
  b' = hd ++ drop (length hd) (match p with InBuffer => buffer (dat x) | InDecomp => decomp (dat x) end).
Proof. unfold poke. destruct (_ <=? _)%nat; [|done]. by intros [= <-]. Qed.

(** [write_obj] and what a later [read_obj] finds. *)
Lemma write_read_wp p off bs (s : wstate W) Q X :
  ok (ws s) → Z.of_nat (off + length bs) ≤ BUFFER_SIZE →
  (∀ b' s', poke (match p with InBuffer => buffer (dat (ws s)) | InDecomp => decomp (dat (ws s)) end)
       off bs = Ok b' →
     (match p with InBuffer => buffer (dat (ws s')) | InDecomp => decomp (dat (ws s')) end) = b' →
     log s' = log s → conf (ws s') = conf (ws s) → udp (ws s') = udp (ws s) →
     mt (ws s') = mt (ws s) → Q tt s') →
  wp False (write_obj p off bs) Q X s.
Proof.
  intros Hs Ho HQ. unfold write_obj, read_obj. wps.
  pose proof (read_obj_length p (ws s) Hs) as Hlen.
  destruct (poke_Ok (match p with InBuffer => buffer (dat (ws s)) | InDecomp => decomp (dat (ws s)) end)
    bs off) as (b' & E & _); [lia|].
  rewrite E. wps. eapply HQ; [exact E|by destruct p|done..].
Qed.

Lemma tun_send_cstp_run p (s : wstate W) Q X :
  ok (ws s) → session (conf (ws s)) = true → sendable p →
  (∀ s', log s' = log s ++ [TlsRecord (cstp_header (size p) (type p) ++ payload p (ws s))] →
         Q tt s') →
  wp False (tun_send_cstp patience p) Q X s.
Proof.
  intros Hs Htls [Hsz _] HQ. unfold tun_send_cstp. wps.
  apply write_read_wp; [done|simpl; unfold BUFFER_SIZE; lia|].
  intros b' s1 Ep Eb L1 C1 U1 _. pose proof (read_obj_length (where_ p) _ Hs) as Hlen.
  apply obj_after_poke in Ep. unfold count_out. wps. unfold read_obj. wps. cbn.
  assert (Eb' : match where_ p with InBuffer => buffer (dat (ws s1))
                | InDecomp => decomp (dat (ws s1)) end = b') by exact Eb.
  rewrite Eb'. unfold cstp_send. wps. rewrite C1, Htls.
  apply record_accepted; [apply Hacc| |].
  { rewrite Ep, length_app, length_drop. simpl. lia. }
  intros s2 E2 L2. unfold CSTP_FATAL_ERR_CMD. wps. rewrite E2. cbn. rewrite Htls.
  destruct (Z.ltb_spec (size p + 8) 0); [lia|]. cbn. wps. apply HQ. rewrite L2. cbn. rewrite L1.
  do 3 f_equal. rewrite Ep. unfold payload.
  replace (Z.to_nat (size p + 8)) with (length (cstp_header (size p) (type p)) + Z.to_nat (size p))%nat
    by (simpl; lia).
  by rewrite take_app_add.
Qed.

(** [mtu_ok] tells the main process at most about a new MTU. *)
Lemma mtu_ok_log (s : wstate W) Q X :
  (∀ s', (log s' = log s ∨ ∃ m, log s' = log s ++ [TunMtuMsg m]) → udp (ws s') = udp (ws s) →
         Q tt s') →
  wp False mtu_ok Q X s.
Proof.
  intros HQ. unfold mtu_ok. wps. apply wp_if; intros _; [wps; by apply HQ; [left|]|]. wps.
  apply wp_if; intros _; [wps; by apply HQ; [left|]|]. wps.
  unfold link_mtu_set, data_mtu_send. wps. apply wp_if; intros _; [wps; by apply HQ; [left|]|]. wps.
  apply wp_when; intros _; wps; apply HQ; eauto.
Qed.

Lemma tun_send_dtls_run p (s : wstate W) Q X :
  ok (ws s) → dtls_session (udp (ws s)) = true → sendable p →
  (∀ s' m, log s' = log s ++ DtlsRecord (type p :: payload p (ws s)) :: m →
     (m = [] ∨ ∃ x, m = [TunMtuMsg x]) → udp (ws s') = udp (ws s) → Q false s') →
  wp False (tun_send_dtls patience p) Q X s.
Proof.
  intros Hs Hd [Hsz _] HQ. unfold tun_send_dtls, count_out. wps.
  set (s0 := Build_wstate _ _ _).
  assert (Hs0 : ok (ws s0)) by by destruct Hs.
  apply write_read_wp; [done|simpl; unfold BUFFER_SIZE; lia|].
  intros b' s1 Ep Eb L1 C1 U1 _. pose proof (read_obj_length (where_ p) _ Hs) as Hlen.
  assert (Hdrop : drop 7 b' = type p :: drop 8 (match where_ p with InBuffer => buffer (dat (ws s))
                | InDecomp => decomp (dat (ws s)) end)).
  { revert Ep. unfold poke. destruct (_ <=? _)%nat eqn:El; [|done]. apply Nat.leb_le in El.
    intros [= <-]. rewrite drop_app_length'; [by destruct (where_ p)|].
    rewrite length_take, Nat.min_l; [done|]. etrans; [|exact El]. simpl. lia. }
  unfold read_obj. wps. rewrite Eb, Hdrop. unfold dtls_send. wps. rewrite U1. cbn. rewrite Hd.
  apply record_accepted; [apply Hacc| |].
  { cbn [length]. rewrite length_drop. lia. }
  intros s2 E2 L2. wps. unfold DTLS_FATAL_ERR_CMD.
  destruct (Z.ltb_spec (size p + 1) 0); [lia|]. cbn. wps.
  destruct (Z.eqb_spec (size p + 1) GNUTLS_E_LARGE_PACKET); [unfold GNUTLS_E_LARGE_PACKET in *; lia|].
  assert (Hlog : log s2 = log s ++ [DtlsRecord (type p :: payload p (ws s))]).
  { rewrite L2, L1. cbn. do 3 f_equal. unfold payload.
    replace (Z.to_nat (size p + 1)) with (S (Z.to_nat (size p))) by lia. done. }
  assert (Hu : udp (ws s2) = udp (ws s)) by by rewrite E2, U1.
  wps. apply wp_when; intros _; wps.
  - apply mtu_ok_log. intros s3 Hl3 U3. wps. destruct Hl3 as [Hl3|[m Hl3]]; rewrite Hlog in Hl3.
    + apply (HQ _ []); [done|by left|by rewrite U3].
    + apply (HQ _ [TunMtuMsg m]); [|right; eauto|by rewrite U3]. by rewrite Hl3, <- app_assoc.
  - apply (HQ _ []); [done|by left|done].
Qed.

(** ** Receiving *)

Lemma tun_write_accepted p n (s : wstate W) Q X :
  0 < n ≤ Z.of_nat (length p) →
  (∀ s', ws s' = ws s → log s' = log s ++ [ToTun (take (Z.to_nat n) p)] → Q n s') →
  wp False (tun_write patience p n) Q X s.
Proof.
  intros Hn HQ. unfold tun_write. destruct patience as [|k]; [lia|]. cbn [force_write].
  destruct (Z.leb_spec n 0); [lia|]. destruct (Z.ltb_spec (Z.of_nat (length p)) n); [lia|].
  wps. apply wp_call. intros [r e] w' E.
  pose proof (acc_tun _ Hacc (take (Z.to_nat n) p) (world s)) as Ht.
  rewrite E, length_take in Ht. cbn in Ht. injection Ht as Hr _. assert (r = n) as -> by lia.
  destruct (Z.eqb_spec n (-1)); [lia|]. destruct (Z.ltb_spec 0 n); [|lia]. wps.
  rewrite Z.sub_diag. destruct k; cbn [force_write]; wps; apply HQ; try done; cbn;
    by rewrite take_take, Nat.min_id.
Qed.

Lemma to_tun_run p n now (s : wstate W) Q X :
  0 < n ≤ Z.of_nat (length p) →
  (∀ s', log s' = log s ++ [ToTun (take (Z.to_nat n) p)] → Q 0 s') →
  wp False (to_tun patience p n now) Q X s.
Proof.
  intros Hn HQ. unfold to_tun. wps. apply tun_write_accepted; [done|]. intros s' E L.
  destruct (Z.eqb_spec n (-1)); [lia|]. wps. by apply HQ.
Qed.

(** A packet whose type and payload encode [pkt] is written out as [pkt]. *)
Lemma parse_data_delivers (dtls : bool) hd ty pay pkt now c (s : wstate W) Q X :
  Z.of_nat (length (decomp (dat (ws s)))) = BUFFER_SIZE → 0 < Z.of_nat (length pkt) →
  (if dtls then dtls_selected_comp (conf (ws s)) else cstp_selected_comp (conf (ws s))) = c →
  encodes c ty pay pkt →
  length hd = (if dtls then 1 else 8)%nat → hd !! (if dtls then 0 else 6)%nat = Some ty →
  (∀ s', log s' = log s ++ [ToTun pkt] → Q 0 s') →
  wp False (parse_data patience (hd ++ pay) now dtls) Q X s.
Proof.
  intros Hd Hpos Hc Henc Hl Hhd HQ. unfold parse_data.
  rewrite (lookup_app_l_Some hd pay _ ty Hhd). cbv zeta.
  assert (Hdrop : drop (if dtls then 1 else 8) (hd ++ pay) = pay).
  { rewrite <- Hl. apply drop_app_length. }
  destruct Henc as [[-> ->]|[-> (cc & -> & Hcar)]].
  - change ((AC_PKT_DATA =? AC_PKT_DPD_RESP) || (AC_PKT_DATA =? AC_PKT_KEEPALIVE)) with false.
    change (AC_PKT_DATA =? AC_PKT_DPD_OUT) with false.
    change (AC_PKT_DATA =? AC_PKT_DISCONN) with false.
    change (AC_PKT_DATA =? AC_PKT_COMPRESSED) with false. rewrite Z.eqb_refl. cbv iota.
    rewrite Hdrop, length_app, Hl. apply to_tun_run; [destruct dtls; lia|]. intros s' L. apply HQ.
    rewrite L. do 3 f_equal. rewrite take_ge; [done|]. destruct dtls; lia.
  - change ((AC_PKT_COMPRESSED =? AC_PKT_DPD_RESP) || (AC_PKT_COMPRESSED =? AC_PKT_KEEPALIVE))
      with false.
    change (AC_PKT_COMPRESSED =? AC_PKT_DPD_OUT) with false.
    change (AC_PKT_COMPRESSED =? AC_PKT_DISCONN) with false. rewrite Z.eqb_refl. cbv iota. wps.
    rewrite Hc. cbn [compressed_to_tun]. rewrite Hdrop. unfold decompress_in. wps.
    destruct (Hcar _ Hd) as (d & -> & Ht). wps.
    destruct (Z.leb_spec (Z.of_nat (length pkt)) 0); [lia|]. wps.
    apply to_tun_run.
    + split; [done|]. apply (f_equal length) in Ht. rewrite length_take in Ht. cbn. lia.
    + intros s' L. apply HQ. rewrite L. cbn. by rewrite Nat2Z.id, Ht.
Qed.

Lemma cstp_header_length n : 0 ≤ n < 65536 →
  Z.shiftl (u8 (Z.shiftr n 8)) 8 + Z.land n 255 = n.
Proof.
  intros Hn. unfold wrap. change 255 with (Z.ones 8). rewrite Z.land_ones, Z.shiftl_mul_pow2 by lia.
  rewrite Z.shiftr_div_pow2 by lia. rewrite Z.mod_small by dlia. dlia.
Qed.

Lemma parse_cstp_delivers size ty pay pkt now (s : wstate W) :
  Z.of_nat (length (decomp (dat (ws s)))) = BUFFER_SIZE → 0 < Z.of_nat (length pkt) →
  Z.of_nat (length pay) = size → size < 65536 →
  encodes (cstp_selected_comp (conf (ws s))) ty pay pkt →
  ∃ s', parse_cstp_data patience (cstp_header size ty ++ pay) now s = Val 0 s' ∧
    log s' = log s ++ [ToTun pkt].
Proof.
  intros Hd Hpos Hlen Hsz Henc.
  cut (wp False (parse_cstp_data patience (cstp_header size ty ++ pay) now)
    (λ r s', r = 0 ∧ log s' = log s ++ [ToTun pkt]) (λ _ _, False) s).
  { intros (r & s' & ? & -> & ?)%wp_Val. eauto. }
  unfold parse_cstp_data, cstp_header. cbn [app]. rewrite !Z.eqb_refl. cbn [negb andb].
  rewrite cstp_header_length by lia. cbn [length]. cbv zeta.
  rewrite (proj2 (Z.eqb_eq _ _)) by lia. cbn [negb]. wps.
  assert (Hrest : ∀ s1, log s1 = log s → conf (ws s1) = conf (ws s) →
    decomp (dat (ws s1)) = decomp (dat (ws s)) →
    wp False (ret ← parse_data patience (cstp_header size ty ++ pay) now false;
        set_times (λ t, {| t with last_msg_tcp := now |}) ;;; mret ret)
      (λ r s', r = 0 ∧ log s' = log s ++ [ToTun pkt]) (λ _ _, False) s1).
  { intros s1 L C D. wps. apply (parse_data_delivers false _ ty pay pkt now
      (cstp_selected_comp (conf (ws s)))); try done; [by rewrite D|by rewrite C|].
    intros s2 L2. wps. split; [done|]. by rewrite L2, L. }
  apply wp_when; intros _; [|by apply Hrest].
  unfold set_udp_state. apply wp_set_udp. by apply Hrest.
Qed.

Lemma parse_dtls_delivers ty pay pkt now (s : wstate W) :
  Z.of_nat (length (decomp (dat (ws s)))) = BUFFER_SIZE → 0 < Z.of_nat (length pkt) →
  encodes (dtls_selected_comp (conf (ws s))) ty pay pkt →
  ∃ s', parse_dtls_data patience (ty :: pay) now s = Val 0 s' ∧ log s' = log s ++ [ToTun pkt].
Proof.
  intros Hd Hpos Henc.
  cut (wp False (parse_dtls_data patience (ty :: pay) now)
    (λ r s', r = 0 ∧ log s' = log s ++ [ToTun pkt]) (λ _ _, False) s).
  { intros (r & s' & ? & -> & ?)%wp_Val. eauto. }
  unfold parse_dtls_data. wps.
  apply (parse_data_delivers true [ty] ty pay pkt now (dtls_selected_comp (conf (ws s)))); done.
Qed.
End tunnel.

(** C11: the CSTP channel carries packets.  In a TLS session without an active
    DTLS channel and without a bandwidth limit, when every send is taken whole
    ([accepting]), a packet of [l] bytes read from the tun device, with [l] at
    most 8 bytes less than the buffer, becomes one TLS record, compressed or
    not, and any worker with the same compression method that receives that
    record writes exactly the packet to its tun device.  Sends in parts are not
    continued where they stopped (WorkerTheorems.cstp_send_partial_overread),
    and without TLS a payload can arrive cut. *)
Theorem cstp_tunnel_roundtrip {W} `{WorldLaws W, !WholeRecords W} (patience : nat) (l : Z) (t : timespec)
    (now : Z) (s r : wstate W) :
  (0 < patience)%nat → accepting W →
  worker_ok dtls_overhead (ws s) → session (conf (ws s)) = true →
  udp_state (udp (ws s)) ≠ UP_ACTIVE → kb_per_sec (b_tx (dat (ws s))) = 0 →
  0 < l ≤ BUFFER_SIZE - 8 →
  Z.of_nat (length (decomp (dat (ws r)))) = BUFFER_SIZE →
  cstp_selected_comp (conf (ws r)) = cstp_selected_comp (conf (ws s)) →
  ∃ s' rec r', tun_packet patience l t s = Val tt s' ∧ log s' = log s ++ [TlsRecord rec] ∧
    parse_cstp_data patience rec now r = Val 0 r' ∧ log r' = log r ++ [ToTun (tun_pkt l (ws s))].
Proof.
  intros Hpat Hacc Hs Htls Hudp Hkb Hl Hr Hcomp.
  assert (Hpkt : 0 < Z.of_nat (length (tun_pkt l (ws s)))).
  { unfold tun_pkt. rewrite length_take, length_drop. pose proof (wo_buffer _ _ Hs).
    unfold BUFFER_SIZE in *. lia. }
  cut (wp False (tun_packet patience l t) (λ _ s', ∃ size ty pay,
    log s' = log s ++ [TlsRecord (cstp_header size ty ++ pay)] ∧ Z.of_nat (length pay) = size ∧
    size < 65536 ∧ encodes (cstp_selected_comp (conf (ws s))) ty pay (tun_pkt l (ws s)))
    (λ _ _, False) s).
  { intros ([] & s' & E & size & ty & pay & L & Hlen & Hsz & Henc)%wp_Val. rewrite <- Hcomp in Henc.
    destruct (parse_cstp_delivers patience Hpat Hacc size ty pay (tun_pkt l (ws s)) now r)
      as (r' & Er & Lr); try done. eauto 10. }
  unfold tun_packet, tun_switch_to_tcp. wps. unfold is_active.
  rewrite (bool_decide_eq_false_2 _ Hudp), andb_false_r. cbn. wps.
  eapply wp_mono; [eapply wp_and; [by apply (tun_compress_payload patience Hpat Hacc)|
    by apply (tun_compress_wp patience True (or_introl I) false)]| |by intros ? ? [? _]].
  intros [pd pc] s1 [(L1 & C1 & U1 & T1 & _ & Hpc & _ & Hlc) ([Hs1 _] & _ & Hsend)].
  cbn [fst snd] in *. wps. unfold update_tx. wps. unfold bandwidth_update. rewrite T1, Hkb. cbn.
  wps. unfold when at 1. wps. rewrite U1. unfold is_active.
  rewrite (bool_decide_eq_false_2 _ Hudp). cbn. wps. cbn. rewrite ?U1.
  rewrite ?(bool_decide_eq_false_2 _ Hudp). cbn. unfold when.
  apply (tun_send_cstp_run patience Hpat Hacc).
  - destruct Hs1. rewrite U1 in *. by split.
  - cbn. by rewrite C1.
  - done.
  - intros s2 L2. wps. exists (size pc), (type pc), (payload pc (ws s1)). split_and!; try done.
    + rewrite L2. cbn. by rewrite L1.
    + destruct Hsend. unfold BUFFER_SIZE in *. lia.
Qed.

(** C12: the DTLS channel carries packets.  While DTLS is active, a packet of [l]
    bytes read from the tun device becomes one DTLS record, compressed or not
    (after which the main process may be told of a new MTU), and any worker
    with the same compression method that receives that record writes exactly
    the packet to its tun device. *)
Theorem dtls_tunnel_roundtrip {W} `{WorldLaws W, !WholeRecords W} (patience : nat) (l : Z) (t : timespec)
    (now : Z) (s r : wstate W) :
  (0 < patience)%nat → accepting W →
  worker_ok dtls_overhead (ws s) → udp_state (udp (ws s)) = UP_ACTIVE →
  switch_to_tcp_timeout (conf (ws s)) = 0 → kb_per_sec (b_tx (dat (ws s))) = 0 →
  0 < l ≤ BUFFER_SIZE - 8 →
  Z.of_nat (length (decomp (dat (ws r)))) = BUFFER_SIZE →
  dtls_selected_comp (conf (ws r)) = dtls_selected_comp (conf (ws s)) →
  ∃ s' rec m r', tun_packet patience l t s = Val tt s' ∧ log s' = log s ++ DtlsRecord rec :: m ∧
    (m = [] ∨ ∃ x, m = [TunMtuMsg x]) ∧
    parse_dtls_data patience rec now r = Val 0 r' ∧ log r' = log r ++ [ToTun (tun_pkt l (ws s))].
Proof.
  intros Hpat Hacc Hs Hudp Hsw Hkb Hl Hr Hcomp.
  assert (Hpkt : 0 < Z.of_nat (length (tun_pkt l (ws s)))).
  { unfold tun_pkt. rewrite length_take, length_drop. pose proof (wo_buffer _ _ Hs).
    unfold BUFFER_SIZE in *. lia. }
  cut (wp False (tun_packet patience l t) (λ _ s', ∃ ty pay m,
    log s' = log s ++ DtlsRecord (ty :: pay) :: m ∧ (m = [] ∨ ∃ x, m = [TunMtuMsg x]) ∧
    encodes (dtls_selected_comp (conf (ws s))) ty pay (tun_pkt l (ws s)))
    (λ _ _, False) s).
  { intros ([] & s' & E & ty & pay & m & L & Hm & Henc)%wp_Val. rewrite <- Hcomp in Henc.
    destruct (parse_dtls_delivers patience Hpat Hacc ty pay (tun_pkt l (ws s)) now r)
      as (r' & Er & Lr); try done. eauto 12. }
  unfold tun_packet, tun_switch_to_tcp. wps. rewrite Hsw. cbn. wps.
  eapply wp_mono; [eapply wp_and; [by apply (tun_compress_payload patience Hpat Hacc)|
    by apply (tun_compress_wp patience True (or_introl I) false)]| |by intros ? ? [? _]].
  intros [pd pc] s1 [(L1 & C1 & U1 & T1 & Hpd & _ & Hld & _) ([Hs1 _] & Hsend & _)].
  cbn [fst snd] in *. wps. unfold update_tx. wps. unfold bandwidth_update. rewrite T1, Hkb. cbn.
  wps. unfold when at 1. wps. rewrite U1, Hudp. change (is_active UP_ACTIVE) with true.
  cbv iota. apply (tun_send_dtls_run patience Hpat Hacc).
  - destruct Hs1. rewrite U1 in *. by split.
  - cbn. apply Hs. by rewrite Hudp.
  - done.
  - intros s2 m L2 Hm U2. wps. rewrite U2. cbn. rewrite Hudp. change (is_active UP_ACTIVE) with true.
    cbn. wps. exists (type pd), (payload pd (ws s1)), m. split_and!; try done.
    rewrite L2. cbn. by rewrite L1.
Qed.
