(* ===== verification/WorkerTheorems.v ===== *)
(** * Theorems about sessions, with a world to run them in

    The module [Sim] is a world in which every record is accepted and the
    bytes of the unencrypted channel come from a script. *)

From S2P Require Import Prelude Lzs IpUtil SecModData Bandwidth.
From S2P Require Import WorkerState WorkerIo WorkerMtu WorkerMtuSearch WorkerLoop WorkerTurn.
From S2P Require Import WorkerLaws WorkerSafety WorkerSession WorkerTurnSafe WorkerLive.
From S2P Require Import WorkerDeadline WorkerTunnel.

Module Sim.

(** The bytes that are still to arrive, and the MTU of the DTLS session. *)
Record sim := { script : list recv_result; dtls_mtu : Z }.

(** [recv] of at most [n] bytes; the end of the script is that of the stream. *)
Fixpoint script_recv (n : nat) (w : list recv_result) : recv_result * list recv_result :=
  match w with
  | [] => (RecvData [], [])
  | RecvData [] :: w => script_recv n w
  | RecvData bs :: w =>
    (RecvData (u8 <$> take n bs), match drop n bs with [] => w | rest => RecvData rest :: w end)
  | r :: w => (r, w)
  end.

#[export] Instance sim_world : World sim := {|
  gnutls_error_is_fatal := λ r, negb (existsb (Z.eqb r) [-28; -52; -37; -7]);
  tls_record_send := λ bs w, (Z.of_nat (length bs), w);
  tls_recv_packet := λ w, ((GNUTLS_E_AGAIN, []), w);
  tls_handshake := λ w, (0, w);
  dtls_record_send := λ bs w, (Z.of_nat (length bs), w);
  dtls_recv := λ w, ((GNUTLS_E_AGAIN, []), w);
  dtls_handshake := λ w, (0, w);
  dtls_probe := λ m w, ((GNUTLS_E_AGAIN, m), w);
  dtls_setup := λ _ w, (0, w);
  gnutls_dtls_set_mtu := λ m w, {| w with dtls_mtu := m |};
  gnutls_dtls_set_data_mtu := λ m w, {| w with dtls_mtu := m + 30 |};
  gnutls_dtls_get_mtu := λ w, Z.max 0 (Z.min (dtls_mtu w) (2 ^ 31 - 1));
  sock_recv := λ n w, let '(r, l) := script_recv n (script w) in (r, {| w with script := l |});
  sock_write := λ bs w, ((Z.of_nat (length bs), false), w);
  errno_again := λ w, (false, w);
  tun_dev_read := λ _ w, ((-1, true, []), w);
  tun_dev_write := λ bs w, ((Z.of_nat (length bs), false), w);
  tcp_info_pmtu := λ w, (Some 1400, w);
  ipv6_pathmtu := λ w, (None, w);
  connect_to_secmod := λ w, (true, w);
  recv_main := λ w, (CmdUdpFd (Some (true, [])) 5, w);
  time0 := λ w, (0, w);
  lz4_compress_fn := λ _, None;
  lz4_decompress_fn := λ _ _, None |}.

Lemma u8_bytes (l : list Z) : bytes (u8 <$> l).
Proof. apply Forall_fmap, Forall_true. intros x. apply (wrap_range 8). lia. Qed.

Lemma script_recv_data n w bs w' :
  script_recv n w = (RecvData bs, w') → (length bs ≤ n)%nat ∧ bytes bs.
Proof.
  induction w as [|r w IH]; simpl.
  { intros [= <- <-]. split; [simpl; lia|by apply Forall_nil]. }
  destruct r as [[|b l]| |]; [apply IH| |done|done]. intros [= <- <-].
  split; [rewrite length_fmap, length_take; lia|]. apply u8_bytes.
Qed.

#[export] Instance sim_laws : WorldLaws sim.
Proof.
  refine {| dtls_overhead := 30 |}; cbn.
  - by intros bs w r w' [= <- <-].
  - intros w r data w' [= <- <- <-] Hr. unfold GNUTLS_E_AGAIN in Hr. lia.
  - intros w r data w' [= <- <- <-] Hr. unfold GNUTLS_E_AGAIN in Hr. lia.
  - by intros bs w r e w' [= <- <- <-].
  - intros n w bs w'. destruct (script_recv n (script w)) as [r l] eqn:E. intros [= -> <-].
    by eapply script_recv_data.
  - intros len w r e bs w' [= <- <- <- <-] Hr. lia.
  - by intros bs w r e w' [= <- <- <-].
  - intros w m w' [= <- <-]. unfold MTU_FLOOR. lia.
  - done.
  - intros w. lia.
  - intros x w Hx. unfold BUFFER_SIZE in Hx. lia.
  - done.
  - done.
Defined.

#[export] Instance sim_whole : WholeRecords sim.
Proof. by intros bs w r w' [= <- <-]. Qed.

Lemma len_not_again (bs : list Z) : try_again (Z.of_nat (length bs)) = false.
Proof.
  unfold try_again, GNUTLS_E_AGAIN, GNUTLS_E_INTERRUPTED.
  destruct (Z.eqb_spec (Z.of_nat (length bs)) (-28)); [lia|].
  destruct (Z.eqb_spec (Z.of_nat (length bs)) (-52)); [lia|done].
Qed.

Lemma sim_prompt : prompt sim.
Proof. split; try done; intros; cbn; auto using len_not_again. Qed.

Lemma sim_accepting : accepting sim.
Proof. by split. Qed.

End Sim.
Import Sim.

(** ** Negotiation of the MTU *)

(** The MTU the headers of the client and the configuration give. *)
Definition negotiated (o : overheads) (x : worker_st) (user_mtu req_link req_tunnel : Z) : Z :=
  let m := if 0 <? user_mtu then user_mtu else vinfo_mtu (mt x) in
  if 0 <? req_link then Z.min m req_link
  else if 0 <? req_tunnel then
    Z.min m (u32 (req_tunnel + (if proto (conf x) =? AF_INET then 28 else 48) + (1 + o_max_dtls o)))
  else m.

(** Only the MTU part of the state changes. *)
Definition only_mtu (x x' : worker_st) : Prop :=
  udp x' = udp x ∧ dat x' = dat x ∧ conf x' = conf x ∧ times x' = times x ∧
  terminate x' = terminate x.

#[export] Instance only_mtu_preorder : PreOrder only_mtu.
Proof.
  split; [by intros x|]. intros x y z (? & ? & ? & ? & ?) (? & ? & ? & ? & ?).
  unfold only_mtu. split_and!; by etrans.
Qed.

(** The value that [calc_mtu_values] is given. *)
Definition offers (m : Z) (x x' : worker_st) : Prop :=
  only_mtu x x' ∧ dtls_crypto_overhead (mt x') = dtls_crypto_overhead (mt x) ∧
  vinfo_mtu (mt x') = m.

Lemma link_mtu_set_offers {W} `{World W} m n (s : wstate W) Q X :
  vinfo_mtu (mt (ws s)) = n →
  (∀ s', offers n (ws s) (ws s') → Q tt s') → wp False (link_mtu_set m) Q X s.
Proof.
  intros Hn HQ. unfold link_mtu_set, data_mtu_send. wps. apply wp_if; intros _; [wps; by apply HQ|]. wps.
  apply wp_when; intros _; wps; by apply HQ.
Qed.

Lemma offers_trans m n x y z : offers m x y → offers n y z → offers n x z.
Proof.
  intros (O1 & D1 & _) (O2 & D2 & V2). split; [by etrans|]. split; [by rewrite D2|done].
Qed.

(** What [connect_mtu] leaves. *)
Lemma connect_mtu_run {W} `{World W} (o : overheads)
    (user_mtu req_link req_tunnel : Z) (s : wstate W) :
  let m := negotiated o (ws s) user_mtu req_link req_tunnel in
  ∃ s', connect_mtu o user_mtu req_link req_tunnel s = Val (negb (BUFFER_SIZE <? u32 (m + 16))) s' ∧
    link_mtu (mt (ws s')) = m ∧ adv_link_mtu (mt (ws s')) = m ∧ only_mtu (ws s) (ws s') ∧
    dtls_crypto_overhead (mt (ws s')) = calc_dtls_overhead o (ws s) ∧
    dtls_proto_overhead (mt (ws s')) =
      (if proto (conf (ws s)) =? AF_INET then IP_HEADER_SIZE else IPV6_HEADER_SIZE) + UDP_HEADER_SIZE.
Proof.
  intros m. set (x := ws s) in *.
  cut (wp False (connect_mtu o user_mtu req_link req_tunnel)
    (λ b s', b = negb (BUFFER_SIZE <? u32 (m + 16)) ∧
      link_mtu (mt (ws s')) = m ∧ adv_link_mtu (mt (ws s')) = m ∧ only_mtu x (ws s') ∧
      dtls_crypto_overhead (mt (ws s')) = calc_dtls_overhead o x ∧
      dtls_proto_overhead (mt (ws s')) =
      (if proto (conf x) =? AF_INET then IP_HEADER_SIZE else IPV6_HEADER_SIZE) + UDP_HEADER_SIZE)
    (λ _ _, False) s).
  { intros (b & s' & ? & -> & ?)%wp_Val. eauto. }
  unfold connect_mtu. apply wp_bind.
  set (m1 := if 0 <? user_mtu then user_mtu else vinfo_mtu (mt x)).
  assert (H1 : ∀ Q X, (∀ s1, offers m1 x (ws s1) → Q tt s1) →
    wp False (when (0 <? user_mtu) (set_mtu (λ y, {| y with vinfo_mtu := user_mtu |}))) Q X s).
  { intros Q X HQ. subst m1. apply wp_when; intros E; rewrite E in HQ; wps; by apply HQ. }
  apply H1. clear H1. intros s1 O1. apply wp_bind.
  match goal with |- wp _ ?c _ _ _ => assert (H2 : ∀ Q X,
    (∀ s2, offers m x (ws s2) → Q tt s2) → wp False c Q X s1) end.
  { intros Q X HQ. assert (HQ' : ∀ s2, offers m (ws s1) (ws s2) → Q tt s2).
    { intros s2 O2. apply HQ. by eapply offers_trans. }
    clear HQ. unfold m, negotiated in HQ'. fold m1 in HQ'. cbv zeta in HQ'.
    destruct O1 as ((_ & _ & C1 & _) & _ & V1). rewrite <- V1, <- C1 in HQ'.
    destruct (0 <? req_link); [wps; by apply HQ'|]. unfold when.
    destruct (0 <? req_tunnel); [wps|by apply HQ'].
    apply HQ'. split; [done|]. split; [done|].
    unfold IP_HEADER_SIZE, IPV6_HEADER_SIZE, UDP_HEADER_SIZE, CSTP_DTLS_OVERHEAD.
    cbn. by destruct (_ =? AF_INET). }
  apply H2. clear H2. intros s2 O2. wps.
  match goal with |- wp _ ?c _ _ _ => assert (H3 : ∀ Q X,
    (∀ s3, offers m x (ws s3) → Q tt s3) → wp False c Q X s2) end.
  { intros Q X HQ. apply wp_when; intros _; [|by apply HQ]. unfold get_pmtu_approx. wps.
    apply wp_call. intros r w' _. wps. apply wp_when; intros _; [|by apply HQ].
    apply (link_mtu_set_offers _ m); [apply O2|]. intros s3 O3. apply HQ. by eapply offers_trans. }
  apply H3. clear H3. intros s3 (O & D & V). destruct (O) as (U & _ & C & _).
  unfold calc_mtu_values. wps. cbn. rewrite V.
  assert (Ec : calc_dtls_overhead o (ws s3) = calc_dtls_overhead o x).
  { unfold calc_dtls_overhead. by rewrite U, C, D. }
  apply wp_if; intros E; rewrite E; unfold data_mtu_send; wps; split_and!; try done; cbn; by rewrite C.
Qed.

(** the MTU of a new session is what the configuration and the client's
    headers give.  The path MTU of the TCP connection, which is asked for to
    lower it, has no effect on it: [calc_mtu_values] overwrites it. *)
Theorem connect_mtu_negotiated {W} `{World W} (o : overheads)
    (user_mtu req_link req_tunnel : Z) (s : wstate W) :
  let m := negotiated o (ws s) user_mtu req_link req_tunnel in
  ∃ s', connect_mtu o user_mtu req_link req_tunnel s = Val (negb (BUFFER_SIZE <? u32 (m + 16))) s' ∧
    link_mtu (mt (ws s')) = m ∧ adv_link_mtu (mt (ws s')) = m ∧ only_mtu (ws s) (ws s').
Proof.
  intros m. destruct (connect_mtu_run o user_mtu req_link req_tunnel s)
    as (s' & E & L & A & O & _). by exists s'.
Qed.

(** ** The invariant holds at the start *)

Lemma connect_ok {W} `{WorldLaws W} (o : overheads)
    (user_mtu req_link req_tunnel : Z) (s : wstate W) :
  let m := negotiated o (ws s) user_mtu req_link req_tunnel in
  let x := ws s in
  MTU_FLOOR ≤ m ≤ BUFFER_SIZE - 16 →
  Z.of_nat (length (buffer (dat x))) = BUFFER_SIZE → bytes (buffer (dat x)) →
  Z.of_nat (length (decomp (dat x))) = BUFFER_SIZE →
  dtls_session (udp x) = false → udp_state (udp x) = UP_DISABLED ∨ udp_state (udp x) = UP_WAIT_FD →
  0 ≤ calc_dtls_overhead o x ≤ dtls_overhead + CSTP_DTLS_OVERHEAD →
  calc_dtls_overhead o x + IPV6_HEADER_SIZE + UDP_HEADER_SIZE ≤ MTU_FLOOR →
  ∃ s', connect_mtu o user_mtu req_link req_tunnel s = Val true s' ∧
    worker_ok dtls_overhead (ws s').
Proof.
  intros m x Hm Hb Hby Hd Hs Hu Ho Hf.
  destruct (connect_mtu_run o user_mtu req_link req_tunnel s)
    as (s' & E & L & A & (U & D & C & _) & Hc & Hp). fold m in E, L, A. fold x in U, D, C, Hc, Hp.
  exists s'. split.
  - rewrite E. f_equal. unfold MTU_FLOOR, BUFFER_SIZE in *. rewrite wrap_small by lia.
    destruct (Z.ltb_spec (16 * 1024) (m + 16)); [lia|done].
  - split; rewrite ?D, ?U; try done; [|intros Hn; destruct Hu as [Hu|Hu]; rewrite Hu in Hn; done].
    rewrite Hs. unfold IP_HEADER_SIZE, IPV6_HEADER_SIZE, UDP_HEADER_SIZE, mtu_range in *.
    split; rewrite ?L, ?A, ?Hc, ?Hp; try done; unfold mtu_range, BUFFER_SIZE in *; try lia.
    all: destruct (_ =? _); unfold IP_HEADER_SIZE, UDP_HEADER_SIZE; lia.
Qed.

(** a session starts well formed.  If the negotiated MTU is between the
    floor and the buffers, the overheads fit below the floor, and the buffers
    are whole, then [connect_mtu] leaves the invariant that the turns keep. *)
Theorem connect_establishes_ok {W} `{WorldLaws W} (o : overheads)
    (user_mtu req_link req_tunnel : Z) (s : wstate W) :
  let m := negotiated o (ws s) user_mtu req_link req_tunnel in
  let x := ws s in
  MTU_FLOOR ≤ m ≤ BUFFER_SIZE - 16 →
  Z.of_nat (length (buffer (dat x))) = BUFFER_SIZE → bytes (buffer (dat x)) →
  Z.of_nat (length (decomp (dat x))) = BUFFER_SIZE →
  dtls_session (udp x) = false → udp_state (udp x) = UP_DISABLED ∨ udp_state (udp x) = UP_WAIT_FD →
  0 ≤ calc_dtls_overhead o x ≤ dtls_overhead + CSTP_DTLS_OVERHEAD →
  calc_dtls_overhead o x + IPV6_HEADER_SIZE + UDP_HEADER_SIZE ≤ MTU_FLOOR →
  ∃ s', connect_mtu o user_mtu req_link req_tunnel s = Val true s' ∧
    worker_ok dtls_overhead (ws s').
Proof. apply connect_ok. Qed.

(** ** Behaviour that is not intended *)

(** a keepalive switches DTLS off.  [parse_data] answers 0, which is also
    [AC_PKT_DATA], for every packet it accepts; so when no DTLS packet came
    for more than [UDP_SWITCH_TIME] seconds, any packet on the CSTP channel,
    here a keepalive, makes the worker leave DTLS as if it were data. *)
Theorem keepalive_disables_dtls {W} `{World W} (patience : nat) (t : timespec) (s : wstate W) :
  udp_state (udp (ws s)) = UP_ACTIVE → kb_per_sec (b_rx (dat (ws s))) = 0 →
  UDP_SWITCH_TIME < tv_sec t - udp_recv_time (udp (ws s)) →
  ∃ s', tls_packet patience (cstp_header 0 AC_PKT_KEEPALIVE) t s = Val 0 s' ∧
    udp_state (udp (ws s')) = UP_INACTIVE ∧ log s' = log s.
Proof.
  intros Hu Hk Ht.
  cut (wp False (tls_packet patience (cstp_header 0 AC_PKT_KEEPALIVE) t)
    (λ r s', r = 0 ∧ udp_state (udp (ws s')) = UP_INACTIVE ∧ log s' = log s) (λ _ _, False) s).
  { intros (r & s' & ? & -> & ?)%wp_Val. eauto. }
  unfold tls_packet, update_rx. wps. unfold bandwidth_update. rewrite Hk. cbn. wps. cbn. wps.
  unfold parse_cstp_data, cstp_header. cbn.
  change (Z.of_nat 8 =? _) with true. cbn [negb]. wps. change (0 <? 0) with false. cbn match. wps.
  rewrite Hu. change (is_active UP_ACTIVE) with true. change (0 =? AC_PKT_DATA) with true. cbn [orb andb].
  destruct (Z.ltb_spec UDP_SWITCH_TIME (tv_sec t - udp_recv_time (udp (ws s)))); [|lia].
  unfold when, set_udp_state. by wps.
Qed.

(** a partial send reads past the data.  [cstp_send] passes the whole size
    again after GnuTLS took a part of the data (which it does when the peer
    negotiated a smaller record size): the next call is given more bytes
    than the object has left. *)
Theorem cstp_send_partial_overread {W} `{World W} (patience : nat) (data : list Z) (r : Z) (w' : W)
    (s : wstate W) :
  (2 ≤ patience)%nat → session (conf (ws s)) = true →
  tls_record_send data (world s) = (r, w') → 0 < r < Z.of_nat (length data) →
  cstp_send patience data (Z.of_nat (length data)) s = Undef.
Proof.
  intros Hp Hs E Hr. destruct patience as [|[|k]]; [lia|lia|].
  unfold cstp_send, mbind, M_bind, gets. rewrite Hs. cbn [record_send].
  destruct (Z.leb_spec (Z.of_nat (length data)) 0); [lia|]. rewrite Z.ltb_irrefl.
  unfold mbind, M_bind, call. rewrite Nat2Z.id, (take_ge data) by lia. rewrite E.
  destruct (Z.ltb_spec r 0); [lia|]. destruct (Z.ltb_spec 0 r); [|lia]. unfold emit. cbn [record_send].
  destruct (Z.leb_spec (Z.of_nat (length data) - r) 0); [lia|].
  rewrite length_drop. destruct (Z.ltb_spec (Z.of_nat (length data - Z.to_nat r)) (Z.of_nat (length data)));
    [done|lia].
Qed.

Module WorkerWitnesses.

Definition conf0 : conf_st := {|
  session := true; conn_unix := false; auth_complete := true; sid_set := true; proto := AF_INET;
  session_start_time := 1000; dtls_selected_comp := Some OC_COMP_LZS;
  cstp_selected_comp := Some OC_COMP_LZS; has_ipv6 := false; ban_points := 0; use_psk := true;
  has_ciphersuite := false; idle_timeout := 0; rekey_time := 3600; switch_to_tcp_timeout := 0;
  no_compress_limit := 64; dtls_legacy := true; max_ban_score := 80; session_timeout_secs := 7200;
  interim_update_secs := 0; dpd := 90 |}.

Definition overheads0 : overheads :=
  {| o_max_tls := 37; o_max_dtls := 37; o_session_tls := 29; o_session_dtls := 29; o_suite := 29 |}.

(** A packet of 200 equal bytes is at offset 8 of the buffer. *)
Definition worker0 : worker_st := {|
  conf := conf0;
  mt := {| link_mtu := 0; adv_link_mtu := 0; last_good_mtu := 0; last_bad_mtu := 0;
           try_mtu := true; vinfo_mtu := 1500; cstp_crypto_overhead := 0;
           cstp_proto_overhead := 0; dtls_crypto_overhead := 0; dtls_proto_overhead := 0 |};
  udp := {| dtls_session := false; udp_state := UP_WAIT_FD; udp_recv_time := 1000;
            tptr_fd := -1; tptr_msg := None |};
  times := {| last_msg_udp := 1000; last_msg_tcp := 1000; last_nc_msg := 1000;
              last_periodic_check := 0; last_tls_rehandshake := 0; last_dtls_rehandshake := 0;
              last_stats_msg := 0; alarm_at := 0 |};
  dat := {| buffer := replicate 8 0 ++ replicate 200 7 ++ replicate (Z.to_nat 16176) 0;
            decomp := replicate (Z.to_nat 16384) 0;
            b_tx := bandwidth_init 0; b_rx := bandwidth_init 0; tun_bytes_in := 0;
            tun_bytes_out := 0 |};
  terminate := false; terminate_reason := REASON_SERVER_DISCONNECT |}.

Definition start (x : worker_st) : wstate sim :=
  {| ws := x; world := {| script := []; dtls_mtu := 1400 |}; log := [] |}.

Definition at_time (sec : Z) (tls cmd tun dtls : bool) : turn :=
  {| tls_pending := false; dtls_pending := false; polled := PollEvents false tls cmd tun dtls;
     tnow := {| tv_sec := sec; tv_nsec := 0 |} |}.

(** The state after a client asked for the MTU [m], and after DTLS was set up. *)
Definition connected (m : Z) : wstate sim :=
  match connect_mtu overheads0 0 m 0 (start worker0) with Val true s => s | _ => start worker0 end.

Definition dtls_up : list turn :=
  [at_time 1000 false true false false; at_time 1001 false false false true;
   at_time 1002 false false false true].

Definition tunnel (m : Z) : wstate sim :=
  match run_session 5 dtls_up (connected m) with Val _ s => s | _ => connected m end.
End WorkerWitnesses.
Import WorkerWitnesses.

(** a client that asks for an MTU of 1 byte (X-CSTP-Base-MTU: 1) is accepted;
    the data MTU wraps around; and once DTLS is up and then silent for two DPD
    periods, the periodic check clears almost 4 GiB from the 16 KiB buffer on. *)
Theorem small_mtu_overflows :
  negotiated overheads0 worker0 0 1 0 = 1 ∧
  (∃ s, connect_mtu overheads0 0 1 0 (start worker0) = Val true s) ∧
  DATA_MTU (mt (ws (tunnel 1))) (link_mtu (mt (ws (tunnel 1)))) = 4294967239 ∧
  udp_state (udp (ws (tunnel 1))) = UP_ACTIVE ∧
  run_session 5 [at_time 1200 false false false false] (tunnel 1) = Undef.
Proof.
  split; [reflexivity|]. split; [by eexists; vm_compute|].
  split_and!; vm_compute; reflexivity.
Qed.

(** A packet of an unencrypted channel that ends after one of the four payload
    bytes is delivered whole, with three bytes of an older packet. *)
Example truncated_packet_is_delivered :
  let stale := replicate 8 0 ++ [1; 2; 3; 4] ++ replicate (Z.to_nat 16372) 0 in
  let c := conf0 in
  let d := dat worker0 in
  let x := {| worker0 with
    conf := {| c with session := false; conn_unix := true |};
    dat := {| d with buffer := stale |} |} in
  let s := {| ws := x; world := {| script := [RecvData (cstp_header 4 0 ++ [9]); RecvError];
                                   dtls_mtu := 1400 |}; log := [] |} in
  match cstp_recv_packet s with
  | Val (ret, data) _ => ret = 12 ∧ data = cstp_header 4 0 ++ [9; 2; 3; 4]
  | _ => False
  end.
Proof. vm_compute. split; reflexivity. Qed.

(** ** Witnesses *)

Lemma worker0_bytes : bytes (buffer (dat worker0)).
Proof. unfold bytes, worker0. cbn [dat buffer]. rewrite !Forall_app. split_and!; apply Forall_replicate; lia. Qed.

Lemma connected_ok m : MTU_FLOOR ≤ m ≤ 1500 → worker_ok dtls_overhead (ws (connected m)).
Proof.
  intros Hm. unfold connected. unfold MTU_FLOOR in Hm.
  assert (Hn : negotiated overheads0 worker0 0 m 0 = m).
  { unfold negotiated. simpl. destruct (Z.ltb_spec 0 m); [lia|lia]. }
  destruct (connect_ok overheads0 0 m 0 (start worker0)) as (s' & -> & Hs'); try done.
  - change (ws (start worker0)) with worker0. rewrite Hn. unfold MTU_FLOOR, BUFFER_SIZE. lia.
  - apply worker0_bytes.
  - by right.
Qed.

Lemma connect_establishes_ok_witness :
  ∃ s', connect_mtu overheads0 0 1400 0 (start worker0) = Val true s' ∧
    worker_ok dtls_overhead (ws s').
Proof.
  apply (connect_establishes_ok overheads0 0 1400 0 (start worker0)); try done.
  - apply worker0_bytes.
  - by right.
Defined.

Lemma worker_session_safe_witness :
  match run_session 5 dtls_up (connected 1400) with
  | Val _ s' => worker_ok dtls_overhead (ws s') ∧ conf (ws s') = conf (ws (connected 1400))
  | Undef => False
  | Exit _ _ | Blocked => True
  end.
Proof. apply (worker_session_safe 5 dtls_up (connected 1400)). apply connected_ok. vm_compute. split; discriminate. Defined.

(** No turn hears from the client after second 1000; the DPD period is 90 s. *)
Lemma dead_peer_disconnected_witness :
  ended_or_waits 5 (run_session 5 (dtls_up ++ [at_time 1304 false false false false;
                                               at_time 1305 false false false false]) (connected 1400)).
Proof.
  apply (dead_peer_disconnected 5 dtls_up _ _ (connected 1400));
    [apply connected_ok; unfold MTU_FLOOR; lia|..].
  - vm_compute. split; reflexivity.
  - vm_compute. discriminate.
  - repeat constructor.
  - reflexivity.
  - vm_compute. discriminate.
Defined.

Lemma session_timeout_enforced_witness :
  ended_or_waits 5 (run_session 5 (dtls_up ++ [at_time 8234 true false false false;
                                               at_time 8235 true false false false]) (connected 1400)).
Proof.
  apply (session_timeout_enforced 5 dtls_up _ _ (connected 1400));
    [apply connected_ok; unfold MTU_FLOOR; lia|..].
  - vm_compute. reflexivity.
  - vm_compute. discriminate.
  - reflexivity.
  - vm_compute. discriminate.
Defined.

Lemma cstp_tunnel_roundtrip_witness :
  ∃ s' rec r', tun_packet 1 200 {| tv_sec := 1000; tv_nsec := 0 |} (connected 1400) = Val tt s' ∧
    log s' = log (connected 1400) ++ [TlsRecord rec] ∧
    parse_cstp_data 1 rec 1000 (connected 1300) = Val 0 r' ∧
    log r' = log (connected 1300) ++ [ToTun (tun_pkt 200 (ws (connected 1400)))].
Proof.
  apply (cstp_tunnel_roundtrip 1 200 _ 1000 (connected 1400) (connected 1300));
    [lia|apply sim_accepting|apply connected_ok; unfold MTU_FLOOR; lia|..].
  - reflexivity.
  - vm_compute. discriminate.
  - reflexivity.
  - unfold BUFFER_SIZE. lia.
  - vm_compute. reflexivity.
  - reflexivity.
Defined.

Lemma run_ok ts (s : wstate sim) :
  worker_ok dtls_overhead (ws s) →
  worker_ok dtls_overhead (ws (match run_session 5 ts s with Val _ s' => s' | _ => s end)).
Proof.
  intros Hs. pose proof (run_session_wp 5 True (or_introl I) ts s Hs) as Hr. unfold wp in Hr.
  by destruct (run_session 5 ts s); [destruct Hr|..].
Qed.

Lemma tunnel_ok : worker_ok dtls_overhead (ws (tunnel 1400)).
Proof. unfold tunnel. apply run_ok, connected_ok. unfold MTU_FLOOR. lia. Qed.

Lemma dtls_tunnel_roundtrip_witness :
  ∃ s' rec m r', tun_packet 1 200 {| tv_sec := 1003; tv_nsec := 0 |} (tunnel 1400) = Val tt s' ∧
    log s' = log (tunnel 1400) ++ DtlsRecord rec :: m ∧ (m = [] ∨ ∃ x, m = [TunMtuMsg x]) ∧
    parse_dtls_data 1 rec 1003 (connected 1300) = Val 0 r' ∧
    log r' = log (connected 1300) ++ [ToTun (tun_pkt 200 (ws (tunnel 1400)))].
Proof.
  apply (dtls_tunnel_roundtrip 1 200 _ 1003 (tunnel 1400) (connected 1300));
    [lia|apply sim_accepting|apply tunnel_ok|..].
  - vm_compute. reflexivity.
  - vm_compute. reflexivity.
  - vm_compute. reflexivity.
  - unfold BUFFER_SIZE. lia.
  - vm_compute. reflexivity.
  - vm_compute. reflexivity.
Defined.

Lemma mtu_search_converges_witness :
  ∃ s', probes 40 1300 (tunnel 1400) = Val tt s' ∧ settled 1300 1400 s'.
Proof.
  apply (mtu_search_converges 1300 1400 (tunnel 1400)).
  - split; vm_compute; (reflexivity || discriminate).
  - split; vm_compute; (reflexivity || discriminate).
Defined.

(** Just above the minimum the search gives up, though more would pass. *)
Example mtu_search_gives_up :
  match probes 40 850 (tunnel 1400) with
  | Val _ s => Some (link_mtu (mt (ws (tunnel 1400))), link_mtu (mt (ws s)), try_mtu (mt (ws s)))
  | _ => None
  end = Some (1400, 800, false).
Proof. vm_compute. reflexivity. Qed.

Lemma keepalive_disables_dtls_witness :
  ∃ s', tls_packet 5 (cstp_header 0 AC_PKT_KEEPALIVE) {| tv_sec := 1020; tv_nsec := 0 |} (tunnel 1400)
      = Val 0 s' ∧ udp_state (udp (ws s')) = UP_INACTIVE ∧ log s' = log (tunnel 1400).
Proof.
  apply (keepalive_disables_dtls 5 {| tv_sec := 1020; tv_nsec := 0 |} (tunnel 1400));
    vm_compute; reflexivity.
Defined.

(** A peer that negotiated records of at most 512 bytes. *)
Definition small_records : World sim :=
  {| sim_world with tls_record_send := λ bs w, (Z.min 512 (Z.of_nat (length bs)), w) |}.

Lemma cstp_send_partial_overread_witness :
  @cstp_send sim small_records 5 (replicate 600 65) 600 (start worker0) = Undef.
Proof.
  apply (@cstp_send_partial_overread sim small_records 5 (replicate 600 65) 512
           (world (start worker0)) (start worker0)); [lia|reflexivity|reflexivity|].
  vm_compute. split; reflexivity.
Defined.
