(* ===== verification/Html.v ===== *)
(** * Escaped text in requests (src/html.c)

    [unescape_html], [unescape_url] and [escape_url] on the memory they are
    given: a pointer is what its object still holds from there on, reading
    past the end is undefined, and so is writing past the block allocated for
    the result.  [wcrtomb] depends on the locale and is an argument. *)

From S2P Require Import Prelude CString.

(** ** Characters and numbers (ctype.h, stdlib.h) *)

Definition c_isdigit (c : Z) : bool := (48 <=? c) && (c <=? 57).
Definition c_isalnum (c : Z) : bool :=
  c_isdigit c || ((65 <=? c) && (c <=? 90)) || ((97 <=? c) && (c <=? 122)).

(** The value of a digit in a base. *)
Definition digit_of (base c : Z) : option Z :=
  let d := if c_isdigit c then c - 48
           else if (97 <=? c) && (c <=? 122) then c - 87
           else if (65 <=? c) && (c <=? 90) then c - 55 else 99 in
  if d <? base then Some d else None.

(** Digits from [p] on: how many, their value, and where they end. *)
Fixpoint scan_digits (base : Z) (p : list Z) (n : nat) (v : Z) : cres (nat * Z * list Z) :=
  match p with
  | [] => UB
  | c :: p' =>
    match digit_of base c with
    | Some d => scan_digits base p' (S n) (base * v + d)
    | None => Ok (n, v, p)
    end
  end.

Fixpoint skip_spaces (p : list Z) : cres (list Z) :=
  match p with
  | [] => UB
  | c :: p' => if c_isspace c then skip_spaces p' else Ok p
  end.

Definition LONG_MAX : Z := 2 ^ 63 - 1.

(** After the sign, [strtol] with base 16 skips [0x] before a digit. *)
Definition skip_0x (base : Z) (p : list Z) : list Z :=
  match p with
  | z :: x :: d :: _ =>
    if (base =? 16) && (z =? 48) && ((x =? 120) || (x =? 88)) && bool_decide (is_Some (digit_of 16 d))
    then drop 2 p else p
  | _ => p
  end.

(** [strtol(p, &endptr, base)]: the value and [endptr]. *)
Definition strtol (base : Z) (p : list Z) : cres (Z * list Z) :=
  q ← skip_spaces p;
  c ← deref q;
  let neg := c =? 45 in
  let q := if neg || (c =? 43) then drop 1 q else q in
  '(n, v, e) ← scan_digits base (skip_0x base q) 0 0;
  let v := if neg then Z.max (- 2 ^ 63) (- v) else Z.min LONG_MAX v in
  Ok (if (n =? 0)%nat then (0, p) else (v, e)).

(** [strncasecmp(p, lit, strlen(lit)) == 0] for a literal. *)
Fixpoint matches_ci (lit p : list Z) : cres bool :=
  match lit with
  | [] => Ok true
  | l :: lit' =>
    c ← deref p;
    if c_tolower c =? c_tolower l then matches_ci lit' (drop 1 p) else Ok false
  end.

(** [strncmp(p, lit, strlen(lit)) == 0] for a literal. *)
Fixpoint matches (lit p : list Z) : cres bool :=
  match lit with
  | [] => Ok true
  | l :: lit' => c ← deref p; if c =? l then matches lit' (drop 1 p) else Ok false
  end.

(** [msg[pos++] = c] where the block [msg] has [cap] bytes, of which the
    first [pos] are written. *)
Definition push (cap : Z) (msg : list Z) (c : Z) : cres (list Z) :=
  if Z.of_nat (length msg) <? cap then Ok (msg ++ [c]) else UB.

(** [memcpy(&msg[pos], src, n); pos += n]. *)
Definition push_all (cap : Z) (msg src : list Z) : cres (list Z) :=
  if Z.of_nat (length msg + length src) <=? cap then Ok (msg ++ src) else UB.

(** [msg[pos] = 0]. *)
Definition finish (cap : Z) (msg : list Z) : cres (list Z) := push cap msg 0.

Definition WCHAR_MAX : Z := 2 ^ 31 - 1.

(** The literals of the chain of [if]s and the characters they stand for. *)
Definition entities : list (list Z * Z) :=
  [(to_bytes "&lt;", 60); (to_bytes "&gt;", 62); (to_bytes "&nbsp;", 32);
   (to_bytes "&quot;", 34); (to_bytes "&amp;", 38); (to_bytes "&apos;", 39)].

Fixpoint find_entity (es : list (list Z * Z)) (p : list Z) : cres (option (list Z * Z)) :=
  match es with
  | [] => Ok None
  | (lit, c) :: es' =>
    b ← matches_ci lit p;
    if (b : bool) then Ok (Some (lit, c)) else find_entity es' p
  end.

Section html.
Context (wcrtomb : Z → option (list Z)).

(** The branch for [&#]: the message so far, the input that is left and its
    index; [None] stands for [goto fail]. *)
Definition unescape_num (len : Z) (p : list Z) (i : Z) (msg : list Z)
    : cres (option (list Z * list Z * Z)) :=
  x ← aread p 2;
  '(val, e) ← (if x =? 120 then strtol 16 (drop 3 p) else strtol 10 (drop 2 p));
  ec ← deref e;
  if negb (ec =? 59) || (WCHAR_MAX <? val) then
    c ← deref p;
    msg' ← push (len + 1) msg c;
    Ok (Some (msg', drop 1 p, i + 1))
  else
    match wcrtomb (s32 val) with
    | None => Ok None
    | Some mb =>
      if Z.of_nat (length mb) <? u32 (len - Z.of_nat (length msg)) then
        msg' ← push_all (len + 1) msg mb;
        Ok (Some (msg', drop 1 e, i + Z.of_nat (length p - length e) + 1))
      else Ok None
    end.

(** One iteration of the loop. *)
Definition unescape_html1 (len : Z) (p : list Z) (i : Z) (msg : list Z)
    : cres (option (list Z * list Z * Z)) :=
  let plain := c ← deref p; msg' ← push (len + 1) msg c; Ok (Some (msg', drop 1 p, i + 1)) in
  if u32 (len - Z.of_nat (length msg)) <? 1 then Ok None else
  c ← deref p;
  if negb (c =? 38) then plain else
  r ← find_entity entities p;
  match r with
  | Some (lit, ch) =>
    msg' ← push (len + 1) msg ch;
    Ok (Some (msg', drop (length lit) p, i + Z.of_nat (length lit)))
  | None =>
    n ← matches (to_bytes "&#") p;
    if (n : bool) then unescape_num len p i msg else plain
  end.

Fixpoint unescape_html_loop (fuel : nat) (len : Z) (p : list Z) (i : Z) (msg : list Z)
    : cres (option (list Z)) :=
  if negb (i <? len) then
    msg' ← finish (len + 1) msg;
    Ok (Some (take (length msg) msg'))
  else
  match fuel with
  | O => Fuel
  | S fuel' =>
    r ← unescape_html1 len p i msg;
    match r with
    | None => Ok None
    | Some (msg', p', i') => unescape_html_loop fuel' len p' i' msg'
    end
  end.

(** The text without its NUL, or NULL.  [mem] is whether [talloc_size] has
    memory. *)
Definition unescape_html (mem : bool) (html : list Z) (len : Z) : cres (option (list Z)) :=
  if negb mem then Ok None else unescape_html_loop (Z.to_nat len) len html 0 [].

End html.

(** ** URLs *)

(** [sscanf(b, "%02x", &u)] for [b] of the characters [c1] and [c2]. *)
Definition scan_02x (c1 c2 : Z) : option Z :=
  let b := if c1 =? 0 then [] else if c2 =? 0 then [c1] else [c1; c2] in
  let b := match b with
           | [a; d] => if c_isspace a then (if c_isspace d then [] else [d]) else b
           | [a] => if c_isspace a then [] else b
           | _ => b
           end in
  match b with
  | [a] => digit_of 16 a
  | [a; d] =>
    if (a =? 43) || (a =? 45) then
      (λ v, if a =? 45 then u32 (- v) else v) <$> digit_of 16 d
    else if (a =? 48) && ((d =? 120) || (d =? 88)) then None
    else match digit_of 16 a, digit_of 16 d with
         | Some v, Some w => Some (16 * v + w)
         | Some v, None => Some v
         | None, _ => None
         end
  | _ => None
  end.

Fixpoint unescape_url_loop (fuel : nat) (len : Z) (p : list Z) (i : Z) (msg : list Z)
    : cres (option (list Z)) :=
  if negb (i <? len) then
    msg' ← finish (len + 1) msg;
    Ok (Some (take (length msg) msg'))
  else
  match fuel with
  | O => Fuel
  | S fuel' =>
    c ← deref p;
    if c =? 37 then
      b0 ← aread p 1;
      b1 ← aread p 2;
      match scan_02x b0 b1 with
      | None => Ok None
      | Some u => msg' ← push (len + 1) msg (u8 u); unescape_url_loop fuel' len (drop 3 p) (i + 3) msg'
      end
    else
      msg' ← push (len + 1) msg (if c =? 43 then 32 else c);
      unescape_url_loop fuel' len (drop 1 p) (i + 1) msg'
  end.

Definition unescape_url (mem : bool) (url : list Z) (len : Z) : cres (option (list Z)) :=
  if negb mem then Ok None else unescape_url_loop (Z.to_nat len) len url 0 [].

Definition hex_upper (d : Z) : Z := if d <? 10 then 48 + d else 55 + d.

(** [snprintf(&msg[pos], 4, "%%%02X", (unsigned)c)]: three characters of what
    is printed; a [char] above 127 is negative and prints as [FFFFFFxx]. *)
Definition percent (c : Z) : list Z :=
  if c <? 128 then [37; hex_upper (c / 16); hex_upper (c mod 16)] else [37; 70; 70].

(** A [char] above 127 is negative, which [c_isalnum] and the comparisons
    refuse. *)
Definition escape_char (c : Z) : list Z :=
  if (c <? 128) && (c_isalnum c || (c =? 45) || (c =? 95) || (c =? 46) || (c =? 126)) then [c]
  else if c =? 32 then [43] else percent c.

Fixpoint escape_url_loop (n : nat) (cap : Z) (p msg : list Z) : cres (option (list Z)) :=
  match n with
  | O => msg' ← finish cap msg; Ok (Some (take (length msg) msg'))
  | S n' =>
    c ← deref p;
    let e := escape_char c in
    (* snprintf also writes a NUL *)
    if (1 <? Z.of_nat (length e)) && (cap <=? Z.of_nat (length msg + length e)) then UB else
    msg' ← push_all cap msg e;
    escape_url_loop n' cap (drop 1 p) msg'
  end.

Definition escape_url (mem : bool) (url : list Z) (len : Z) : cres (option (list Z)) :=
  if negb mem then Ok None else escape_url_loop (Z.to_nat len) (3 * len + 1) url [].
