(* ===== verification/HtmlSpec.v ===== *)
(** * Escaped text: safety and decoding

    Whatever a client sends, [unescape_html] stays within the text and the
    block it allocates; texts built from characters, named and numeric
    entities decode to what they stand for; [unescape_url] inverts
    [escape_url] on ASCII. *)

From S2P Require Import Prelude CString Html.

(** ** Memory up to a NUL *)

(** A pointer into a NUL-terminated string: a NUL is still to come. *)
Definition nul_ahead (p : list Z) : Prop := 0 ∈ p.

Lemma nul_ahead_cons c p : nul_ahead (c :: p) → c ≠ 0 → nul_ahead p.
Proof. unfold nul_ahead. rewrite elem_of_cons. naive_solver. Qed.

Lemma nul_ahead_lookup p k : p !! k = Some 0 → nul_ahead p.
Proof. apply list_elem_of_lookup_2. Qed.

Lemma deref_nul p : nul_ahead p → ∃ c p', p = c :: p' ∧ deref p = Ok c.
Proof. destruct p as [|c p]; [by intros ?%elem_of_nil|]. naive_solver. Qed.

Lemma digit_of_nonzero base c d : digit_of base c = Some d → base ≤ 99 → c ≠ 0.
Proof. unfold digit_of. intros H ? ->. simpl in H. destruct (Z.ltb_spec 99 base); [lia|done]. Qed.

Lemma c_isspace_nonzero c : c_isspace c = true → c ≠ 0.
Proof. by intros H ->. Qed.

Lemma matches_ci_nul lit p : 0 ∉ lit → nul_ahead p → ∃ b, matches_ci lit p = Ok b ∧
  (b = true → ∃ k, p = k ++ drop (length lit) p ∧ length k = length lit).
Proof.
  revert p. induction lit as [|l lit IH]; intros p Hl Hp; simpl.
  { exists true. split; [done|]. intros _. by exists []. }
  apply not_elem_of_cons in Hl as [Hl0 Hl].
  destruct (deref_nul p Hp) as (c & p' & -> & ->); run.
  destruct (Z.eqb_spec (c_tolower c) (c_tolower l)) as [E|E]; [|by exists false].
  change (drop 1 (c :: p')) with p'. destruct (IH p') as (b & -> & Hb); [done| |].
  { eapply nul_ahead_cons; [done|]. intros ->. apply Hl0. symmetry. apply c_tolower_zero.
    rewrite <- E. reflexivity. }
  exists b. split; [done|]. intros ->. destruct Hb as (k & Hk & Hlen); [done|].
  exists (c :: k). simpl. split; [by rewrite Hk at 1|lia].
Qed.

Lemma matches_nul lit p : 0 ∉ lit → nul_ahead p → ∃ b, matches lit p = Ok b.
Proof.
  revert p. induction lit as [|l lit IH]; intros p Hl Hp; simpl; [by eexists|].
  apply not_elem_of_cons in Hl as [Hl0 Hl].
  destruct (deref_nul p Hp) as (c & p' & -> & ->); run.
  destruct (Z.eqb_spec c l) as [->|]; [|by eexists]. apply IH; [done|].
  eapply nul_ahead_cons; [done|]. done.
Qed.

Lemma matches_true lit p : matches lit p = Ok true → ∃ q, p = lit ++ q.
Proof.
  revert p. induction lit as [|l lit IH]; intros p; simpl; [by eauto|].
  destruct p as [|c p]; [done|]. simpl. destruct (Z.eqb_spec c l) as [->|]; [|done].
  rewrite drop_0. intros [q ->]%IH. by exists q.
Qed.

Lemma scan_digits_nul base p n v : base ≤ 99 → nul_ahead p →
  ∃ n' v' e, scan_digits base p n v = Ok (n', v', e) ∧ e `suffix_of` p ∧ nul_ahead e.
Proof.
  intros Hb. revert n v. induction p as [|c p IH]; intros n v Hp; [by apply elem_of_nil in Hp|].
  simpl. destruct (digit_of base c) as [d|] eqn:Ed; [|by eexists _, _, _].
  destruct (IH (S n) (base * v + d)) as (n' & v' & e & -> & ? & ?).
  { eapply nul_ahead_cons; [done|]. by eapply digit_of_nonzero. }
  exists n', v', e. split_and!; [done|by apply suffix_cons_r|done].
Qed.

Lemma skip_spaces_nul p : nul_ahead p →
  ∃ q, skip_spaces p = Ok q ∧ q `suffix_of` p ∧ nul_ahead q.
Proof.
  induction p as [|c p IH]; intros Hp; [by apply elem_of_nil in Hp|]. simpl.
  destruct (c_isspace c) eqn:Ec; [|by eexists].
  destruct IH as (q & -> & ? & ?).
  { eapply nul_ahead_cons; [done|]. by apply c_isspace_nonzero. }
  eauto using suffix_cons_r.
Qed.

Lemma skip_0x_nul base p : nul_ahead p →
  skip_0x base p `suffix_of` p ∧ nul_ahead (skip_0x base p).
Proof.
  intros Hp. unfold skip_0x. destruct p as [|z [|x [|d p]]]; try done.
  destruct (Z.eqb_spec z 48) as [->|]; rewrite ?andb_false_r, ?andb_true_r; [|done].
  destruct (_ && _) eqn:E; [|done].
  apply andb_true_iff in E as [[_ E]%andb_true_iff _].
  split; [by eexists [_; _]|]. apply nul_ahead_cons with x; [|by intros ->].
  by apply nul_ahead_cons with 48.
Qed.

Lemma strtol_nul base p : base ≤ 99 → nul_ahead p →
  ∃ v e, strtol base p = Ok (v, e) ∧ e `suffix_of` p ∧ nul_ahead e.
Proof.
  intros Hb Hp. unfold strtol.
  destruct (skip_spaces_nul p Hp) as (q & -> & Hq & Hqn); run.
  destruct (deref_nul q Hqn) as (c & q' & -> & ->); run.
  set (q2 := if _ || _ then _ else _).
  assert (q2 `suffix_of` c :: q' ∧ nul_ahead q2) as [Hq2 Hq2n].
  { subst q2. destruct (_ || _) eqn:E; [|done].
    split; [by eexists [_]|]. apply nul_ahead_cons with c; [done|]. by intros ->. }
  destruct (skip_0x_nul base q2 Hq2n) as [H0 H0n].
  destruct (scan_digits_nul base (skip_0x base q2) 0 0 Hb H0n) as (n & v & e & -> & He & Hen); run.
  destruct (n =? 0)%nat; eexists _, _; (split; [done|]); [done|].
  split; [|done]. by etrans; [|etrans; [|etrans]].
Qed.

(** ** Safety of unescape_html *)

Section safety.
Context (wcrtomb : Z → option (list Z)).

Lemma suffix_drop (e p : list Z) : e `suffix_of` p → e = drop (length p - length e) p.
Proof.
  intros [k ->]. rewrite length_app. by rewrite drop_app_length' by lia.
Qed.

(** What an iteration does to a text of [len] bytes. *)
Definition progress (len : Z) (p : list Z) (i : Z) (r : option (list Z * list Z * Z)) : Prop :=
  match r with
  | None => True
  | Some (msg', p', i') => Z.of_nat (length msg') ≤ len ∧
      ∃ d : nat, (0 < d)%nat ∧ p' = drop d p ∧ i' = i + Z.of_nat d
  end.

Lemma push_Ok cap msg c : Z.of_nat (length msg) < cap → push cap msg c = Ok (msg ++ [c]).
Proof. intros. unfold push. by bool_cases. Qed.

Lemma unescape_num_progress len p i msg :
  Z.of_nat (length msg) < len < 2 ^ 32 → nul_ahead p → matches (to_bytes "&#") p = Ok true →
  ∃ r, unescape_num wcrtomb len p i msg = Ok r ∧ progress len p i r.
Proof.
  intros Hlen Hp [p2 ->]%matches_true.
  change (to_bytes "&#") with [38; 35] in *. cbn [app] in *.
  assert (nul_ahead p2) as Hp2.
  { apply nul_ahead_cons with 35; [|done]. by apply nul_ahead_cons with 38. }
  destruct (deref_nul p2 Hp2) as (x & p3 & -> & _).
  unfold unescape_num. rewrite (aread_Ok _ 2 x) by done; run.
  assert (∃ val e, (if x =? 120 then strtol 16 (drop 3 (38 :: 35 :: x :: p3))
                    else strtol 10 (drop 2 (38 :: 35 :: x :: p3))) = Ok (val, e) ∧
          e `suffix_of` x :: p3 ∧ nul_ahead e) as (val & e & -> & He & Hen).
  { destruct (Z.eqb_spec x 120) as [->|]; simpl.
    - rewrite drop_0. destruct (strtol_nul 16 p3) as (v & e & -> & ? & ?); [done|by eapply nul_ahead_cons|].
      eexists _, _. split_and!; [done|by apply suffix_cons_r|done].
    - by apply strtol_nul. }
  run. destruct (deref_nul e Hen) as (ec & e' & -> & ->); run.
  destruct (negb _ || _).
  { cbn [deref]. run. rewrite push_Ok by lia. run. eexists. split; [done|]. split.
    - rewrite length_app. simpl. lia.
    - exists 1%nat. split_and!; [lia|done|lia]. }
  destruct (wcrtomb _) as [mb|]; [|by eexists].
  rewrite wrap_small by lia.
  destruct (Z.ltb_spec (Z.of_nat (length mb)) (len - Z.of_nat (length msg))); [|by eexists].
  unfold push_all. destruct (Z.leb_spec (Z.of_nat (length msg + length mb)) (len + 1)); [|lia].
  run. eexists. split; [done|]. split; [rewrite length_app; lia|].
  set (p := 38 :: 35 :: x :: p3). apply (suffix_cons_r _ _ 35), (suffix_cons_r _ _ 38) in He.
  exists (S (length p - length (ec :: e'))). split_and!; [lia| |lia].
  rewrite (suffix_drop (ec :: e') p He) at 1. rewrite drop_drop. f_equal. lia.
Qed.

Lemma find_entity_nul es p : Forall (λ e, (0 ∉ e.1) ∧ (0 < length e.1)%nat) es → nul_ahead p →
  ∃ r, find_entity es p = Ok r ∧
    match r with Some (lit, _) => (0 < length lit)%nat | None => True end.
Proof.
  intros Hes Hp. induction Hes as [|[lit c] es [Hl0 Hl] _ IH]; simpl; [by eexists|].
  destruct (matches_ci_nul lit p Hl0 Hp) as (b & -> & _); run.
  destruct b; [|done]. eexists. split; [done|]. done.
Qed.

Lemma unescape_html1_progress len p i msg :
  Z.of_nat (length msg) ≤ len < 2 ^ 32 → nul_ahead p →
  ∃ r, unescape_html1 wcrtomb len p i msg = Ok r ∧ progress len p i r.
Proof.
  intros Hlen Hp. unfold unescape_html1. rewrite wrap_small by lia.
  destruct (Z.ltb_spec (len - Z.of_nat (length msg)) 1); [by eexists|].
  destruct (deref_nul p Hp) as (c & p' & -> & ->); run.
  assert (∃ r, (msg' ← push (len + 1) msg c; Ok (Some (msg', drop 1 (c :: p'), i + 1))) = Ok r ∧
    progress len (c :: p') i r) as Hplain.
  { rewrite push_Ok by lia. run. eexists. split; [done|]. split.
    - rewrite length_app. simpl. lia.
    - exists 1%nat. split_and!; [lia|done|lia]. }
  destruct (negb (c =? 38)); [done|].
  destruct (find_entity_nul entities (c :: p')) as (r & -> & Hr); [|done|].
  { repeat constructor; simpl; (lia || (rewrite !not_elem_of_cons; split_and!; try done; by apply not_elem_of_nil)). }
  run. destruct r as [[lit ch]|].
  { rewrite push_Ok by lia. run. eexists. split; [done|]. split.
    - rewrite length_app. simpl. lia.
    - by exists (length lit). }
  destruct (matches_nul (to_bytes "&#") (c :: p')) as [b Hb]; [|done|].
  { simpl. rewrite !not_elem_of_cons. split_and!; try done. by apply not_elem_of_nil. }
  rewrite Hb. run. destruct b; [|done]. apply unescape_num_progress; [lia|done|done].
Qed.

Lemma unescape_html_loop_safe fuel len p i msg k :
  Z.of_nat (length msg) ≤ len < 2 ^ 32 → 0 ≤ i → len ≤ k → p !! Z.to_nat (k - i) = Some 0 ∨ len ≤ i →
  (Z.to_nat (len - i) ≤ fuel)%nat →
  ∃ r, unescape_html_loop wcrtomb fuel len p i msg = Ok r ∧
    ∀ t, r = Some t → Z.of_nat (length t) ≤ len.
Proof.
  revert p i msg. induction fuel as [|fuel IH]; intros p i msg Hlen Hi Hk Hp Hf; simpl.
  all: destruct (Z.ltb_spec i len) as [Hil|Hil]; simpl.
  all: try (unfold finish; rewrite push_Ok by lia; run; eexists; split; [done|];
    intros t [= <-]; rewrite take_app_length; lia).
  { lia. }
  destruct Hp as [Hp|]; [|lia].
  destruct (unescape_html1_progress len p i msg) as (r & -> & Hr);
    [lia|by eapply nul_ahead_lookup|].
  run. destruct r as [[[msg' p'] i']|]; [|by eexists].
  destruct Hr as (Hm & d & Hd & -> & ->). apply IH; [lia|lia|done| |lia].
  destruct (decide (len ≤ i + Z.of_nat d)); [by right|left].
  rewrite lookup_drop, <- Hp. f_equal. lia.
Qed.

Lemma unescape_html_defined mem html len k :
  0 ≤ len < 2 ^ 32 → len ≤ k → html !! Z.to_nat k = Some 0 →
  ∃ r, unescape_html wcrtomb mem html len = Ok r ∧ ∀ t, r = Some t → Z.of_nat (length t) ≤ len.
Proof.
  intros Hlen Hk Hn. unfold unescape_html. destruct mem; simpl; [|by eexists].
  apply unescape_html_loop_safe with k; simpl; [lia|lia|done| |lia].
  left. by rewrite Z.sub_0_r.
Qed.

End safety.

(** ** What entities stand for *)

Inductive token :=
| TChar (c : Z)                        (* a character other than & *)
| TName (k : nat)                      (* the k-th named entity *)
| TNum (hex : bool) (ds : list Z).     (* &#ds; or &#xds; *)

Definition base_of (hex : bool) : Z := if hex then 16 else 10.

Definition render (t : token) : list Z :=
  match t with
  | TChar c => [c]
  | TName k => (nth k entities ([], 0)).1
  | TNum hex ds => to_bytes "&#" ++ (if hex then [120] else []) ++ ds ++ [59]
  end.

Definition number (base : Z) (ds : list Z) : Z :=
  foldl (λ v c, base * v + default 0 (digit_of base c)) 0 ds.

(** Digits other than the [0x] that [strtol] skips. *)
Definition numeral (hex : bool) (ds : list Z) : Prop :=
  ds ≠ [] ∧ Forall (λ c, is_Some (digit_of (base_of hex) c)) ds.

Section decoding.
Context (wcrtomb : Z → option (list Z)).

Definition value (t : token) : list Z :=
  match t with
  | TChar c => [c]
  | TName k => [(nth k entities ([], 0)).2]
  | TNum hex ds => default [] (wcrtomb (number (base_of hex) ds))
  end.

(** A numeral that fits a [wchar_t], whose encoding exists and is shorter
    than the entity. *)
Definition token_ok (t : token) : Prop :=
  match t with
  | TChar c => c ≠ 38
  | TName k => (k < length entities)%nat
  | TNum hex ds =>
    numeral hex ds ∧ number (base_of hex) ds ≤ WCHAR_MAX ∧
    (∃ mb, wcrtomb (number (base_of hex) ds) = Some mb ∧ (length mb < length ds + 3)%nat)
  end.

Lemma digit_of_nonneg base c d : digit_of base c = Some d → 0 ≤ d.
Proof.
  unfold digit_of. intros H. case_match; [|done]. simplify_eq.
  unfold c_isdigit in *. bool_cases; destruct (Z.leb_spec 97 c), (Z.leb_spec 65 c); simpl in *; lia.
Qed.

Lemma number_app_nonneg base ds v : 0 ≤ base → 0 ≤ v →
  0 ≤ foldl (λ v c, base * v + default 0 (digit_of base c)) v ds.
Proof.
  intros Hb. revert v. induction ds as [|c ds IH]; intros v Hv; simpl; [done|].
  apply IH. destruct (digit_of base c) as [d|] eqn:E; simpl; [|nia].
  apply digit_of_nonneg in E. nia.
Qed.

Lemma scan_digits_all base ds x e n v : Forall (λ c, is_Some (digit_of base c)) ds →
  digit_of base x = None →
  scan_digits base (ds ++ x :: e) n v =
    Ok ((n + length ds)%nat, foldl (λ v c, base * v + default 0 (digit_of base c)) v ds, x :: e).
Proof.
  intros Hd Hx. revert n v. induction Hd as [|c ds [d Ed] _ IH]; intros n v; simpl.
  - rewrite Hx. do 3 f_equal. lia.
  - rewrite Ed, IH. simpl. do 3 f_equal. lia.
Qed.

Lemma digit_of_char hex c : is_Some (digit_of (base_of hex) c) →
  c_isspace c = false ∧ c ≠ 45 ∧ c ≠ 43 ∧ c ≠ 120 ∧ c ≠ 88.
Proof.
  intros [d Hd]. unfold digit_of, base_of, c_isdigit, c_isspace in *.
  destruct (decide (48 ≤ c ≤ 57 ∨ 65 ≤ c ≤ 70 ∨ 97 ≤ c ≤ 102)) as [Hc|Hc].
  { split_and!; [|lia..]. bool_cases. }
  exfalso. revert Hd. destruct hex; bool_cases; simpl in *; intros [=]; lia.
Qed.

Lemma skip_0x_digits hex ds e : Forall (λ c, is_Some (digit_of (base_of hex) c)) ds →
  skip_0x (base_of hex) (ds ++ 59 :: e) = ds ++ 59 :: e.
Proof.
  intros Hd. unfold skip_0x. destruct ds as [|z [|x ds]]; simpl; [by destruct e as [|? []]; rewrite ?andb_false_r|..].
  - destruct e; [done|]. by rewrite !andb_false_r.
  - apply Forall_cons in Hd as [_ [Hx _]%Forall_cons]. apply digit_of_char in Hx as (_ & _ & _ & ? & ?).
    destruct (Z.eqb_spec x 120), (Z.eqb_spec x 88); try done. simpl. rewrite !andb_false_r. by case_match.
Qed.

Lemma strtol_numeral hex ds e : numeral hex ds → number (base_of hex) ds ≤ WCHAR_MAX →
  strtol (base_of hex) (ds ++ 59 :: e) = Ok (number (base_of hex) ds, 59 :: e).
Proof.
  intros [Hne Hd] Hmax. destruct ds as [|c ds]; [done|]. clear Hne.
  pose proof (Forall_inv Hd) as Hc. destruct (digit_of_char _ _ Hc) as (Hs & H1 & H2 & _).
  unfold strtol. cbn [app skip_spaces]. rewrite Hs. run. cbn [deref]. run.
  destruct (Z.eqb_spec c 45), (Z.eqb_spec c 43); try done. cbn [orb].
  change (c :: ds ++ 59 :: e) with ((c :: ds) ++ 59 :: e).
  rewrite skip_0x_digits by done. rewrite scan_digits_all by (done || by destruct hex).
  run. cbn [Nat.add length Nat.eqb]. do 2 f_equal. fold (number (base_of hex) (c :: ds)).
  unfold WCHAR_MAX, LONG_MAX in *. lia.
Qed.

Lemma find_entity_named k rest : (k < length entities)%nat →
  let e := nth k entities ([], 0) in
  find_entity entities (e.1 ++ rest) = Ok (Some e) ∧ hd 0 e.1 = 38.
Proof. intros Hk. do 6 (destruct k as [|k]; [done|]). simpl in Hk. lia. Qed.

Lemma unescape_numeral len hex ds rest i msg mb :
  numeral hex ds → number (base_of hex) ds ≤ WCHAR_MAX →
  wcrtomb (number (base_of hex) ds) = Some mb → (length mb < length ds + 3)%nat →
  Z.of_nat (length msg) + Z.of_nat (length (render (TNum hex ds))) ≤ len < 2 ^ 32 →
  unescape_num wcrtomb len (38 :: 35 :: (if hex then [120] else []) ++ ds ++ 59 :: rest) i msg =
    Ok (Some (msg ++ mb, rest, i + Z.of_nat (length (render (TNum hex ds))))).
Proof.
  intros Hn Hmax Hmb Hlmb Hlen. pose proof (strtol_numeral hex ds rest Hn Hmax) as Hs.
  cbn [render] in *. change (to_bytes "&#") with [38; 35] in *.
  rewrite !length_app in *. cbn [length] in *.
  assert (∃ x, aread (38 :: 35 :: (if hex then [120] else []) ++ ds ++ 59 :: rest) 2 = Ok x ∧
    (x =? 120) = hex) as (x & Hx & Ex).
  { destruct hex; [by exists 120|]. destruct Hn as [Hne Hd], ds as [|c ds]; [done|].
    exists c. split; [done|]. apply Forall_inv, digit_of_char in Hd. by destruct (Z.eqb_spec c 120); naive_solver. }
  unfold unescape_num. rewrite Hx. run. rewrite Ex.
  assert (∀ q, (if hex then strtol 16 (drop 3 (38 :: 35 :: (if hex then [120] else []) ++ q))
    else strtol 10 (drop 2 (38 :: 35 :: (if hex then [120] else []) ++ q))) = strtol (base_of hex) q)
    as -> by (intros; by destruct hex).
  rewrite Hs. run. cbn [deref]. run. cbn [Z.eqb Pos.eqb negb orb].
  destruct (Z.ltb_spec WCHAR_MAX (number (base_of hex) ds)); [lia|].
  assert (s32 (number (base_of hex) ds) = number (base_of hex) ds) as ->.
  { assert (0 ≤ number (base_of hex) ds) by (apply number_app_nonneg; [by destruct hex|done]).
    unfold WCHAR_MAX in *. apply s32_small. lia. }
  rewrite Hmb, wrap_small by lia.
  destruct (Z.ltb_spec (Z.of_nat (length mb)) (len - Z.of_nat (length msg))); [|destruct hex; simpl in *; lia].
  unfold push_all. destruct (Z.leb_spec (Z.of_nat (length msg + length mb)) (len + 1)); [|lia].
  run. cbn [skipn]. rewrite drop_0. do 3 f_equal. cbn [length]. rewrite !length_app. cbn [length].
  destruct hex; simpl; lia.
Qed.

Lemma render_length t : token_ok t → (0 < length (render t))%nat.
Proof.
  destruct t as [c|k|hex ds]; simpl; [lia| |lia].
  intros Hk. do 6 (destruct k as [|k]; [simpl; lia|]). simpl in Hk. lia.
Qed.

Lemma unescape_token len t rest i msg :
  token_ok t →
  Z.of_nat (length msg) + Z.of_nat (length (render t)) ≤ len < 2 ^ 32 →
  unescape_html1 wcrtomb len (render t ++ rest) i msg =
    Ok (Some (msg ++ value t, rest, i + Z.of_nat (length (render t)))).
Proof.
  intros Ht Hlen. unfold unescape_html1. rewrite wrap_small by lia.
  pose proof (render_length t Ht).
  destruct (Z.ltb_spec (len - Z.of_nat (length msg)) 1); [lia|].
  destruct t as [c|k|hex ds]; simpl in Ht.
  - cbn [render app deref]. run. destruct (Z.eqb_spec c 38); [done|]. cbn [negb].
    rewrite push_Ok by lia. run. cbn [skipn]. by rewrite drop_0.
  - destruct (find_entity_named k rest Ht) as [Hf Hh]. cbn [render value] in *.
    destruct (nth k entities ([], 0)) as [lit ch] eqn:E. cbn [fst snd] in *.
    destruct lit as [|c lit]; [simpl in *; lia|]. simpl in Hh. subst c.
    cbn [app deref] in *. run. cbn [negb Z.eqb Pos.eqb]. rewrite Hf. run.
    rewrite push_Ok by lia. run. by rewrite (drop_app_length (38 :: lit) rest : drop _ (38 :: lit ++ rest) = _).
  - destruct Ht as (Hn & Hmax & mb & Hmb & Hlmb).
    cbn [render] in *. change (to_bytes "&#") with [38; 35] in *.
    rewrite <- !(assoc_L (++)). cbn [app deref]. run. cbn [negb Z.eqb Pos.eqb].
    assert (∀ q, find_entity entities (38 :: 35 :: q) = Ok None) as -> by done. run.
    assert (∀ q, matches [38; 35] (38 :: 35 :: q) = Ok true) as -> by done. run.
    rewrite (unescape_numeral len hex ds rest i msg mb) by done.
    cbn [value]. by rewrite Hmb.
Qed.

(** The output is shorter than the text read for it. *)
Lemma token_shrinks t : token_ok t → (length (value t) ≤ length (render t))%nat.
Proof.
  destruct t as [c|k|hex ds]; simpl; [done| |].
  - intros Hk. do 6 (destruct k as [|k]; [simpl; lia|]). simpl in Hk. lia.
  - intros (_ & _ & mb & -> & Hl). rewrite !length_app. simpl. lia.
Qed.

Lemma unescape_tokens fuel len ts rest i msg :
  Forall token_ok ts → len < 2 ^ 32 →
  i + Z.of_nat (length (concat (render <$> ts))) = len → Z.of_nat (length msg) ≤ i →
  (length ts ≤ fuel)%nat →
  unescape_html_loop wcrtomb fuel len (concat (render <$> ts) ++ rest) i msg =
    Ok (Some (msg ++ concat (value <$> ts))).
Proof.
  intros Hts Hlen. revert fuel i msg.
  induction Hts as [|t ts Ht _ IH]; intros fuel i msg Hi Hmsg Hf.
  - simpl in Hi. rewrite app_nil_r. destruct fuel; simpl.
    all: destruct (Z.ltb_spec i len); [lia|]; simpl; unfold finish; rewrite push_Ok by lia; run.
    all: by rewrite take_app_length.
  - rewrite fmap_cons in Hi. cbn [concat] in Hi. rewrite length_app in Hi.
    destruct fuel as [|fuel]; [simpl in Hf; lia|].
    pose proof (token_shrinks t Ht).
    assert (0 < length (render t))%nat by by apply render_length.
    cbn [unescape_html_loop]. destruct (Z.ltb_spec i len); [|lia]. cbn [negb].
    cbn [fmap list_fmap concat]. rewrite <- !(assoc_L (++)). rewrite unescape_token by (done || lia).
    run. rewrite IH; [by rewrite <- (assoc_L (++))|lia| |simpl in Hf; lia].
    rewrite length_app. lia.
Qed.

(** A text built of characters, named entities and decimal or hexadecimal
    character references decodes to exactly what they stand for. *)
Theorem entities_decode ts rest :
  Forall token_ok ts → Z.of_nat (length (concat (render <$> ts))) < 2 ^ 32 →
  unescape_html wcrtomb true (concat (render <$> ts) ++ rest)
      (Z.of_nat (length (concat (render <$> ts)))) =
    Ok (Some (concat (value <$> ts))).
Proof.
  intros Hts Hlen. unfold unescape_html. cbn [negb].
  apply (unescape_tokens _ _ ts rest 0 []); [done|done|lia|simpl; lia|].
  rewrite Nat2Z.id. clear Hlen. induction Hts as [|t ts Ht _ IH]; [simpl; lia|].
  rewrite fmap_cons. cbn [concat length]. rewrite length_app. pose proof (render_length t Ht). lia.
Qed.

End decoding.

(** ** URLs *)

(** Safety: after a [%] at the end of the text two more bytes are read. *)
Definition url_room (len i : Z) (p : list Z) : Prop :=
  i < len → len - i + 2 ≤ Z.of_nat (length p) ∨
            len - i + 1 ≤ Z.of_nat (length p) ∧ p !! Z.to_nat (len - i - 1) ≠ Some 37.

Lemma url_room_drop len i p k : 0 ≤ k → url_room len i p → i < len →
  url_room len (i + k) (drop (Z.to_nat k) p).
Proof.
  intros Hk Hr Hi Hik. rewrite length_drop, lookup_drop.
  replace (Z.to_nat k + Z.to_nat (len - (i + k) - 1))%nat with (Z.to_nat (len - i - 1)) by lia.
  destruct (Hr Hi) as [?|[? ?]]; [left; lia|right; split; [lia|done]].
Qed.

Lemma unescape_url_loop_defined fuel len p i msg :
  0 ≤ i → Z.of_nat (length msg) ≤ i → Z.of_nat (length msg) ≤ len →
  url_room len i p → (Z.to_nat (len - i) ≤ fuel)%nat →
  ∃ r, unescape_url_loop fuel len p i msg = Ok r ∧ ∀ t, r = Some t → Z.of_nat (length t) ≤ len.
Proof.
  revert p i msg. induction fuel as [|fuel IH]; intros p i msg Hi Hm Hml Hp Hf; simpl.
  all: destruct (Z.ltb_spec i len) as [Hil|Hil]; simpl.
  all: try (unfold finish; rewrite push_Ok by lia; run; eexists; split; [done|];
    intros t [= <-]; rewrite take_app_length; lia).
  { lia. }
  pose proof (url_room_drop len i p 1 ltac:(lia) Hp Hil) as H1.
  pose proof (url_room_drop len i p 3 ltac:(lia) Hp Hil) as H3.
  destruct p as [|c p]; [destruct (Hp Hil) as [?|[? _]]; simpl in *; lia|]. cbn [deref]. run.
  destruct (Z.eqb_spec c 37) as [->|_].
  - assert (∃ c1 c2 p', p = c1 :: c2 :: p') as (c1 & c2 & p' & ->).
    { destruct p as [|c1 [|c2 p]]; [| |by eauto].
      all: destruct (Hp Hil) as [?|[Hl Hn]]; simpl in *; [lia|].
      all: assert (len - i - 1 = 0) as E by lia; rewrite E in Hn; done. }
    rewrite (aread_Ok _ 1 c1), (aread_Ok _ 2 c2) by done. run.
    destruct (scan_02x c1 c2) as [u|]; [|by eexists].
    rewrite push_Ok by lia. run. apply IH; rewrite ?length_app; simpl; try lia. exact H3.
  - rewrite push_Ok by lia. run. apply IH; rewrite ?length_app; simpl; try lia. exact H1.
Qed.

Lemma unescape_url_defined mem url len : 0 ≤ len → url_room len 0 url →
  ∃ r, unescape_url mem url len = Ok r ∧ ∀ t, r = Some t → Z.of_nat (length t) ≤ len.
Proof.
  intros. unfold unescape_url. destruct mem; simpl; [|by eexists].
  apply unescape_url_loop_defined; simpl; (done || lia).
Qed.

(** A text whose last byte is [%] and is followed by its NUL only. *)
Lemma unescape_url_loop_overread t fuel len i msg :
  Forall (λ c, c ≠ 37) t → len = i + Z.of_nat (length t) + 1 → (length t < fuel)%nat →
  Z.of_nat (length msg) ≤ i →
  unescape_url_loop fuel len (t ++ [37; 0]) i msg = UB.
Proof.
  intros Ht. revert fuel i msg. induction Ht as [|c t Hc _ IH]; intros fuel i msg Hl Hf Hm.
  all: destruct fuel as [|fuel]; [simpl in *; lia|]; simpl.
  all: destruct (Z.ltb_spec i len); [|simpl in *; lia]; cbn [negb].
  - done.
  - destruct (Z.eqb_spec c 37); [done|]. rewrite push_Ok by (simpl in *; lia). run.
    rewrite drop_0. apply IH; [simpl in *; lia|simpl in *; lia|rewrite length_app; simpl in *; lia].
Qed.

(** A URL-encoded value that ends in a percent sign makes the server read
    beyond the end of the request body. *)
Theorem trailing_percent_overread t :
  Forall (λ c, c ≠ 37) t →
  unescape_url true (t ++ [37; 0]) (Z.of_nat (length t) + 1) = UB.
Proof.
  intros Ht. unfold unescape_url. cbn [negb].
  apply unescape_url_loop_overread; [done|lia|lia|simpl; lia].
Qed.

Definition ascii (s : list Z) : Prop := Forall (λ c, 0 ≤ c < 128) s.

Lemma hex_upper_digit d : 0 ≤ d < 16 → digit_of 16 (hex_upper d) = Some d ∧
  hex_upper d ≠ 0 ∧ c_isspace (hex_upper d) = false ∧ hex_upper d ≠ 43 ∧ hex_upper d ≠ 45 ∧
  hex_upper d ≠ 120 ∧ hex_upper d ≠ 88.
Proof.
  intros. assert (Forall (λ d, digit_of 16 (hex_upper d) = Some d ∧
    hex_upper d ≠ 0 ∧ c_isspace (hex_upper d) = false ∧ hex_upper d ≠ 43 ∧ hex_upper d ≠ 45 ∧
    hex_upper d ≠ 120 ∧ hex_upper d ≠ 88) (seqZ 0 16)) as HF by by repeat constructor.
  rewrite Forall_forall in HF. apply HF, elem_of_seqZ. lia.
Qed.

Lemma scan_02x_percent c : 0 ≤ c < 128 → scan_02x (hex_upper (c / 16)) (hex_upper (c mod 16)) = Some c.
Proof.
  intros Hc. destruct (hex_upper_digit (c / 16)) as (Hd & H0 & Hs & H1 & H2 & _); [dlia|].
  destruct (hex_upper_digit (c mod 16)) as (Hd' & H0' & Hs' & _ & _ & H3 & H4); [dlia|].
  unfold scan_02x. rewrite !(proj2 (Z.eqb_neq _ _)) by done. rewrite Hs. simpl.
  rewrite !(proj2 (Z.eqb_neq _ 120)), !(proj2 (Z.eqb_neq _ 88)) by done. rewrite andb_false_r.
  rewrite (proj2 (Z.eqb_neq _ 43)), (proj2 (Z.eqb_neq _ 45)) by done. cbn [orb].
  rewrite Hd, Hd'. f_equal. clear -Hc. dlia.
Qed.

Lemma escape_url_loop_Ok s rest msg cap :
  Z.of_nat (length msg) + 3 * Z.of_nat (length s) < cap →
  escape_url_loop (length s) cap (s ++ rest) msg = Ok (Some (msg ++ concat (escape_char <$> s))).
Proof.
  revert msg. induction s as [|c s IH]; intros msg Hl.
  - simpl in *. unfold finish. rewrite push_Ok by lia. run. by rewrite take_app_length, app_nil_r.
  - cbn [length escape_url_loop app deref] in *. run.
    assert (length (escape_char c) ≤ 3)%nat by (unfold escape_char, percent; repeat case_match; simpl; lia).
    destruct (Z.leb_spec cap (Z.of_nat (length msg + length (escape_char c)))); [lia|].
    rewrite andb_false_r. unfold push_all.
    destruct (Z.leb_spec (Z.of_nat (length msg + length (escape_char c))) cap); [|lia]. run.
    cbn [skipn]. rewrite drop_0, IH by (rewrite length_app; lia).
    rewrite fmap_cons. cbn [concat]. by rewrite (assoc_L (++)).
Qed.

Lemma escape_url_Ok s rest :
  escape_url true (s ++ rest) (Z.of_nat (length s)) = Ok (Some (concat (escape_char <$> s))).
Proof.
  unfold escape_url. cbn [negb]. rewrite Nat2Z.id. apply escape_url_loop_Ok. simpl. lia.
Qed.

Lemma escape_char_cases c : 0 ≤ c < 128 →
  (escape_char c = [c] ∧ c ≠ 37 ∧ c ≠ 43) ∨ (escape_char c = [43] ∧ c = 32) ∨
  escape_char c = [37; hex_upper (c / 16); hex_upper (c mod 16)].
Proof.
  intros. unfold escape_char, percent. destruct (Z.ltb_spec c 128); [|lia]. cbn [andb].
  destruct (_ || _) eqn:E; [left; split_and!; [done|by intros ->..]|].
  destruct (Z.eqb_spec c 32); auto.
Qed.

Lemma unescape_escaped fuel len s rest i msg :
  ascii s → len = i + Z.of_nat (length (concat (escape_char <$> s))) →
  Z.of_nat (length msg) ≤ i → (length s ≤ fuel)%nat →
  unescape_url_loop fuel len (concat (escape_char <$> s) ++ rest) i msg = Ok (Some (msg ++ s)).
Proof.
  intros Hs. revert fuel i msg. induction Hs as [|c s Hc _ IH]; intros fuel i msg Hl Hm Hf.
  - simpl in Hl. rewrite app_nil_r.
    destruct fuel; simpl; (destruct (Z.ltb_spec i len); [lia|]); simpl; unfold finish;
      rewrite push_Ok by lia; run; by rewrite take_app_length.
  - destruct fuel as [|fuel]; [simpl in Hf; lia|]. rewrite fmap_cons in *. cbn [concat] in *.
    rewrite length_app in Hl. rewrite <- (assoc_L (++)). cbn [unescape_url_loop].
    assert (0 < length (escape_char c))%nat by (unfold escape_char, percent; repeat case_match; simpl; lia).
    destruct (Z.ltb_spec i len); [|lia]. cbn [negb].
    assert (msg ++ c :: s = (msg ++ [c]) ++ s) as -> by by rewrite <- (assoc_L (++)).
    destruct (escape_char_cases c Hc) as [(E & ? & ?)|[[E ->]|E]]; rewrite E in Hl |- *.
    + cbn [app deref]. run.
      destruct (Z.eqb_spec c 37) as [->|]; [done|]. destruct (Z.eqb_spec c 43) as [->|]; [done|].
      rewrite push_Ok by lia. run. cbn [skipn]. rewrite drop_0.
      cbn [length] in Hl, Hf. apply IH; rewrite ?length_app; cbn [length]; lia.
    + cbn [app deref]. run. cbn [Z.eqb Pos.eqb]. rewrite push_Ok by lia. run.
      cbn [skipn]. rewrite drop_0. cbn [length] in Hl, Hf. apply IH; rewrite ?length_app; cbn [length]; lia.
    + cbn [app deref]. run.
      cbn [Z.eqb Pos.eqb]. rewrite (aread_Ok _ 1 (hex_upper (c / 16))), (aread_Ok _ 2 (hex_upper (c mod 16))) by done.
      run. rewrite scan_02x_percent by done. rewrite push_Ok by lia. run.
      rewrite wrap_small by lia. cbn [skipn]. rewrite drop_0.
      cbn [length] in Hl, Hf. apply IH; rewrite ?length_app; cbn [length]; lia.
Qed.

Lemma unescape_url_escaped s rest : ascii s →
  unescape_url true (concat (escape_char <$> s) ++ rest)
    (Z.of_nat (length (concat (escape_char <$> s)))) = Ok (Some s).
Proof.
  intros Hs. unfold unescape_url. cbn [negb].
  rewrite (unescape_escaped _ _ s rest 0 []); try done. rewrite Nat2Z.id.
  clear Hs. induction s as [|c s IH]; [done|]. rewrite fmap_cons. cbn [concat length]. rewrite length_app.
  assert (0 < length (escape_char c))%nat by (unfold escape_char, percent; repeat case_match; simpl; lia).
  lia.
Qed.

(** Every ASCII text survives [escape_url] followed by [unescape_url]. *)
Theorem url_roundtrip s rest rest' :
  ascii s →
  ∃ e, escape_url true (s ++ rest) (Z.of_nat (length s)) = Ok (Some e) ∧
       unescape_url true (e ++ rest') (Z.of_nat (length e)) = Ok (Some s).
Proof.
  intros Hs. eexists. split; [apply escape_url_Ok|]. by apply unescape_url_escaped.
Qed.

(** Every byte above 127 is escaped as [%FF]. *)
Lemma escape_url_loses_bytes c : 128 ≤ c < 256 → escape_url true [c; 0] 1 = Ok (Some (to_bytes "%FF")).
Proof.
  intros. etrans; [exact (escape_url_Ok [c] [0])|]. simpl. unfold escape_char, percent, c_isalnum.
  by bool_cases.
Qed.
