(* ===== verification/Str.v ===== *)
(** * Growing strings (src/str.c, src/str.h)

    A [str_st] holds a block from the allocator, whose cells are
    uninitialised until they are written.  Accesses outside the block, or to
    uninitialised cells, are undefined.  Whether an allocation succeeds is
    decided by an argument that is asked with the size. *)

From S2P Require Import Prelude CString.

Abbreviation cell := (option Z).

Record str_st := {
  allocd : option (list cell);     (* NULL or the block *)
  data : nat;                      (* the pointer data, from allocd on *)
  max_length : Z;
  len : Z }.                       (* the field length *)

Definition set_len (s : str_st) (n : Z) : str_st := {| s with len := n |}.

Definition str_init : str_st := {| allocd := None; data := 0; max_length := 0; len := 0 |}.

(** Without a block nothing is done; otherwise the block is freed. *)
Definition str_clear (s : str_st) : str_st :=
  match allocd s with None => s | Some _ => str_init end.

Definition str_reset (s : str_st) : str_st := {| s with data := 0%nat; len := 0 |}.

Definition ERR_MEM : Z := -6.
Definition MIN_CHUNK : Z := 64.

(** Bytes of the string; undefined when a cell is not initialised. *)
Definition peek (b : list cell) (off n : nat) : cres (list Z) :=
  if (length b <? off + n)%nat then UB else
  match mapM id (take n (drop off b)) with Some bs => Ok bs | None => UB end.

(** The bytes of the string. *)
Definition contents (s : str_st) : cres (list Z) :=
  match allocd s with
  | None => UB
  | Some b => peek b (data s) (Z.to_nat (len s))
  end.

(** [memmove(allocd, data, length)]. *)
Definition move_front (b : list cell) (off n : nat) : cres (list cell) :=
  if (length b <? off + n)%nat then UB else poke b 0 (take n (drop off b)).

Definition realloc (b : option (list cell)) (n : Z) : list cell :=
  let old := default [] b in
  take (Z.to_nat n) old ++ replicate (Z.to_nat n - length old) None.

Section str.
Context (mem : Z → bool).

(** The result of the C function and the string. *)
Definition str_append_size (s : str_st) (data_size : Z) : cres (Z * str_st) :=
  let tot_len := u64 (data_size + len s) in
  if data_size =? 0 then Ok (0, s) else
  if u64 (tot_len + 1) <=? max_length s then
    match allocd s with
    | None => UB
    | Some b =>
      if u64 (max_length s - Z.of_nat (data s)) <=? tot_len then
        b' ← move_front b (data s) (Z.to_nat (len s));
        Ok (s32 tot_len, {| s with allocd := Some b'; data := 0%nat |})
      else Ok (s32 tot_len, s)
    end
  else
    let new_len := u64 (Z.max data_size MIN_CHUNK + Z.max (max_length s) MIN_CHUNK) in
    if negb (mem (u64 (new_len + 1))) then Ok (ERR_MEM, {| s with allocd := None |}) else
    let b := realloc (allocd s) (u64 (new_len + 1)) in
    b' ← (if len s =? 0 then Ok b else move_front b (data s) (Z.to_nat (len s)));
    Ok (s32 tot_len, {| allocd := Some b'; data := 0%nat; max_length := new_len; len := len s |}).

Definition str_append_data (s : str_st) (bs : list Z) : cres (Z * str_st) :=
  '(ret, s) ← str_append_size s (Z.of_nat (length bs) + 1);
  if ret <? 0 then Ok (ret, s) else
  match allocd s with
  | None => UB
  | Some b =>
    b ← poke b (data s + Z.to_nat (len s)) (Some <$> bs);
    let n := u64 (Z.of_nat (length bs) + len s) in
    b ← poke b (data s + Z.to_nat n) [Some 0];
    Ok (0, {| s with allocd := Some b; len := n |})
  end.

Definition str_append_data_prefix1 (s : str_st) (bs : list Z) : cres (Z * str_st) :=
  '(ret, s) ← str_append_data s [u8 (Z.of_nat (length bs))];
  if 0 <=? ret then str_append_data s bs else Ok (ret, s).

(** [src] is a C string without its NUL, or NULL. *)
Definition str_append_str (s : str_st) (src : option (list Z)) : cres (Z * str_st) :=
  match src with
  | None => Ok (-1, s)
  | Some t =>
    '(ret, s) ← str_append_data s (t ++ [0]);
    Ok (ret, if 0 <=? ret then set_len s (u64 (len s - 1)) else s)
  end.

(** [text] is what [vasprintf] prints, if it can. *)
Definition str_append_printf (s : str_st) (text : option (list Z)) : cres (Z * str_st) :=
  match text with None => Ok (-1, s) | Some t => str_append_str s (Some t) end.

(** ** Replacing patterns *)

(** A row of [str_rep_tab]: the pattern and the text to put in its place,
    [rep_val] or the result of [rep_func], which may be NULL. *)
Record str_rep := { pattern : list Z; rep_val : option (list Z) }.

(** The row for the text at a percent sign. *)
Fixpoint find_pattern (tab : list str_rep) (text : list Z) : option str_rep :=
  match tab with
  | [] => None
  | r :: tab' =>
    if bool_decide (take (length (pattern r)) text = pattern r) then Some r
    else find_pattern tab' text
  end.

(** [memchr(p, '%', n)] as an index. *)
Fixpoint memchr (text : list Z) (c : Z) : option nat :=
  match text with
  | [] => None
  | x :: text' => if x =? c then Some O else S <$> memchr text' c
  end.

Fixpoint str_replace_loop (fuel : nat) (s : str_st) (pos : nat) (tab : list str_rep)
    : cres (Z * str_st) :=
  match fuel with
  | O => Fuel
  | S fuel' =>
    match allocd s with
    | None => UB
    | Some b =>
      text ← peek b (data s + pos) (Z.to_nat (len s) - pos);
      match memchr text 37 with
      | None => Ok (0, s)
      | Some k =>
        let pos := (pos + k)%nat in
        let text := drop k text in
        match find_pattern tab text with
        | None => match tab with [] => UB | _ => Ok (-1, s) end
        | Some r =>
          let final := drop (length (pattern r)) text in
          if negb (mem (Z.of_nat (length final))) then Ok (-1, s) else
          let s := set_len s (u64 (len s - Z.of_nat (length final + length (pattern r)))) in
          '(ret, s) ← str_append_str s (rep_val r);
          if ret <? 0 then Ok (ret, s) else
          '(ret, s) ← str_append_data s final;
          if ret <? 0 then Ok (ret, s) else
          if Z.of_nat pos <? len s then str_replace_loop fuel' s pos tab else Ok (0, s)
        end
      end
    end
  end.

Definition str_replace_str (fuel : nat) (s : str_st) (tab : list str_rep) : cres (Z * str_st) :=
  str_replace_loop fuel s 0 tab.

End str.

(** [trim_trailing_whitespace] on a string without its NUL. *)
Fixpoint drop_spaces (rev_str : list Z) : list Z :=
  match rev_str with
  | [] => []
  | c :: r => if c_isspace c then drop_spaces r else rev_str
  end.

Definition trim_trailing_whitespace (s : list Z) : list Z := reverse (drop_spaces (reverse s)).

(** ** What a string holds *)

Definition repr (s : str_st) (bs : list Z) : Prop :=
  match allocd s with
  | None => s = str_init ∧ bs = []
  | Some b =>
    Z.of_nat (length b) = max_length s + 1 ∧ max_length s ≤ 2 ^ 33 ∧
    len s = Z.of_nat (length bs) ∧
    Z.of_nat (data s) + len s ≤ max_length s ∧
    take (length bs) (drop (data s) b) = Some <$> bs
  end.

Lemma repr_init : repr str_init [].
Proof. done. Qed.

Lemma repr_len s bs : repr s bs → len s = Z.of_nat (length bs).
Proof. unfold repr. case_match; [naive_solver|]. by intros [-> ->]. Qed.

Lemma repr_reset s bs : repr s bs → repr (str_reset s) [].
Proof.
  unfold repr. simpl. case_match; [|by intros [-> _]]. intros (? & ? & ? & ? & ?).
  split_and!; simpl; lia || done.
Qed.

Lemma repr_clear s bs : repr s bs → repr (str_clear s) [].
Proof. unfold repr, str_clear. destruct (allocd s) eqn:E; [done|]. rewrite E. naive_solver. Qed.

(** The bytes before a position are still there when the string is cut. *)
Lemma repr_cut s bs n : repr s bs → (n ≤ length bs)%nat → allocd s ≠ None →
  repr (set_len s (Z.of_nat n)) (take n bs).
Proof.
  unfold repr. simpl. case_match; [|done]. intros (? & ? & ? & ? & Ht) Hn _.
  rewrite length_take. rewrite Nat.min_l by lia.
  split_and!; [done|done|done|lia|]. rewrite fmap_take, <- Ht, take_take. by rewrite Nat.min_l.
Qed.

Lemma poke_spec {A} (b : list A) off bs : (off + length bs ≤ length b)%nat →
  poke b off bs = Ok (take off b ++ bs ++ drop (off + length bs) b).
Proof. intros. unfold poke. by destruct (Nat.leb_spec (off + length bs) (length b)); [|lia]. Qed.

Lemma move_front_spec b off n : (off + n ≤ length b)%nat →
  ∃ b', move_front b off n = Ok b' ∧ length b' = length b ∧
    take n (drop 0 b') = take n (drop off b).
Proof.
  intros H. unfold move_front. destruct (Nat.ltb_spec (length b) (off + n)); [lia|].
  assert (length (take n (drop off b)) = n) as Hl by (rewrite length_take, length_drop; lia).
  rewrite poke_spec by lia. eexists. split; [done|].
  rewrite !length_app, Hl, length_drop. split; [simpl; lia|].
  rewrite drop_0. simpl. rewrite take_app_le by lia. by rewrite take_ge by lia.
Qed.

Lemma realloc_length b n : 0 ≤ n → Z.of_nat (length (realloc b n)) = n.
Proof. intros. unfold realloc. rewrite length_app, length_take, length_replicate. lia. Qed.

Lemma realloc_keeps b n k : (k ≤ length b)%nat → Z.of_nat (length b) ≤ n →
  take k (realloc (Some b) n) = take k b.
Proof.
  intros. unfold realloc. simpl. rewrite (take_ge b) by lia. by rewrite take_app_le.
Qed.

Section append.
Context (mem : Z → bool).

(** Either there is room for [n] more bytes after the string, or memory is
    exhausted. *)
Lemma str_append_size_ok s bs n :
  repr s bs → 1 ≤ n → Z.of_nat (length bs) + n < 2 ^ 31 →
  (∃ s' b, str_append_size mem s n = Ok (Z.of_nat (length bs) + n, s') ∧ repr s' bs ∧
     allocd s' = Some b ∧ (data s' + length bs + Z.to_nat n ≤ length b)%nat ∧
     Z.of_nat (data s') + len s' + n ≤ max_length s') ∨
  ((∃ k, mem k = false) ∧ str_append_size mem s n = Ok (ERR_MEM, {| s with allocd := None |})).
Proof.
  intros Hr Hn Hsz. pose proof (repr_len _ _ Hr) as Hlen.
  unfold str_append_size. rewrite Hlen. rewrite (wrap_small 64 (n + _)) by lia.
  destruct (Z.eqb_spec n 0); [lia|]. rewrite (wrap_small 64 (n + _ + 1)) by lia.
  rewrite (s32_small (n + _)) by lia.
  destruct (Z.leb_spec (n + Z.of_nat (length bs) + 1) (max_length s)).
  - left. unfold repr in Hr. destruct (allocd s) as [b|] eqn:Eb;
      [|destruct Hr as [-> ->]; simpl in *; lia].
    destruct Hr as (Hb & Hm & _ & Hd & Ht). rewrite wrap_small by lia.
    destruct (Z.leb_spec (max_length s - Z.of_nat (data s)) (n + Z.of_nat (length bs))).
    + rewrite Nat2Z.id. destruct (move_front_spec b (data s) (length bs)) as (b' & -> & Hl & Ht');
        [lia|]. run. eexists _, b'. split; [do 2 f_equal; lia|]. unfold repr. simpl.
      rewrite Ht', Ht. split_and!; (done || lia).
    + eexists s, b. split; [do 2 f_equal; lia|]. unfold repr. rewrite Eb. split_and!; (done || lia).
  - assert (max_length s ≤ 2 ^ 31) as Hmax by lia.
    assert (0 ≤ max_length s ∧ Z.of_nat (length bs) ≤ max_length s) as [Hm0 Hm1].
    { unfold repr in Hr. destruct (allocd s); [|destruct Hr as [-> ->]; simpl; lia]. lia. }
    unfold MIN_CHUNK. set (new_len := Z.max n 64 + Z.max (max_length s) 64).
    assert (n + Z.of_nat (length bs) ≤ new_len ≤ 2 ^ 32 + 64) by lia.
    rewrite (wrap_small 64 new_len), (wrap_small 64 (new_len + 1)) by lia.
    destruct (mem (new_len + 1)) eqn:Em; cbn [negb]; [left|right; by eauto].
    assert (∃ b', (if len s =? 0 then Ok (realloc (allocd s) (new_len + 1))
        else move_front (realloc (allocd s) (new_len + 1)) (data s) (Z.to_nat (len s))) = Ok b' ∧
      Z.of_nat (length b') = new_len + 1 ∧ take (length bs) b' = Some <$> bs) as (b' & E & Hl & Ht).
    { pose proof (realloc_length (allocd s) (new_len + 1)) as Hrl. unfold repr in Hr.
      destruct (Z.eqb_spec (len s) 0).
      { eexists. split; [done|]. split; [apply Hrl; lia|]. destruct bs; [done|simpl in *; lia]. }
      destruct (allocd s) as [b|]; [|destruct Hr as [-> ->]; done].
      destruct Hr as (Hb & _ & _ & Hd & Ht). rewrite Hlen, Nat2Z.id.
      destruct (move_front_spec (realloc (Some b) (new_len + 1)) (data s) (length bs))
        as (b' & -> & Hl & Ht'); [lia|].
      eexists. split; [done|]. split; [lia|]. rewrite drop_0 in Ht'. rewrite Ht', <- Ht.
      rewrite !take_drop_commute. by rewrite realloc_keeps by lia. }
    rewrite Hlen in E. rewrite E. run. eexists _, b'. split; [do 2 f_equal; lia|].
    unfold repr. simpl. rewrite drop_0. split_and!; (done || lia).
Qed.

Lemma str_append_data_ok s bs d :
  repr s bs → Z.of_nat (length bs) + Z.of_nat (length d) + 1 < 2 ^ 31 →
  (∃ s', str_append_data mem s d = Ok (0, s') ∧ repr s' (bs ++ d) ∧ allocd s' ≠ None) ∨
  ((∃ k, mem k = false) ∧ ∃ s', str_append_data mem s d = Ok (ERR_MEM, s')).
Proof.
  intros Hr Hsz. unfold str_append_data.
  destruct (str_append_size_ok s bs (Z.of_nat (length d) + 1) Hr) as
    [(s' & b & -> & Hr' & Eb & Hroom & Hmax)|[Hmem ->]]; [lia|lia| |right; by eauto].
  left. run. destruct (Z.ltb_spec (Z.of_nat (length bs) + (Z.of_nat (length d) + 1)) 0); [lia|].
  rewrite Eb. pose proof (repr_len _ _ Hr') as Hlen. rewrite Hlen, Nat2Z.id in *.
  rewrite poke_spec by (rewrite length_fmap; lia). run.
  rewrite wrap_small by lia. rewrite length_fmap.
  set (b1 := take (data s' + length bs) b ++ _).
  assert (length b1 = length b) as Hb1.
  { subst b1. rewrite !length_app, length_take, length_drop, length_fmap. lia. }
  rewrite poke_spec by (rewrite Hb1; simpl; lia). run. eexists. split; [done|].
  unfold repr in *. rewrite Eb in Hr'. destruct Hr' as (Hb & Hm & _ & Hd & Ht). simpl.
  split; [|done]. rewrite (length_app bs d). split_and!; [|done|lia|lia|].
  { rewrite length_app, length_take. cbn [length]. rewrite length_drop, Hb1. lia. }
  replace (Z.to_nat (Z.of_nat (length d) + Z.of_nat (length bs))) with (length bs + length d)%nat by lia.
  rewrite take_drop_commute.
  rewrite take_app_le by (rewrite length_take, Hb1; lia). rewrite take_ge by (rewrite length_take, Hb1; lia).
  subst b1. rewrite (assoc_L (++)), take_app_length'
    by (rewrite length_app, length_take, length_fmap; lia).
  rewrite drop_app_le by (rewrite length_take; lia). rewrite fmap_app. f_equal.
  rewrite <- Ht. by rewrite take_drop_commute.
Qed.
End append.
