(* ===== verification/StrSpec.v ===== *)
(** * Growing strings: appending and replacing patterns

    Appending concatenates; [str_replace_str] agrees with a definition of
    the text with its patterns replaced, when no value contains a percent
    sign; a value that contains its own pattern makes it loop for ever. *)

From S2P Require Import Prelude CString Str.

(** ** Percent signs *)

Definition plain (t : list Z) : Prop := Forall (λ c, c ≠ 37) t.

Lemma memchr_plain_app u t : plain u →
  memchr (u ++ t) 37 = (λ k, length u + k)%nat <$> memchr t 37.
Proof.
  intros Hu. induction Hu as [|c u Hc _ IH]; simpl.
  - by destruct (memchr t 37).
  - destruct (Z.eqb_spec c 37); [done|]. rewrite IH. by destruct (memchr t 37).
Qed.

Lemma memchr_None t : memchr t 37 = None → plain t.
Proof.
  induction t as [|c t IH]; simpl; [by constructor|]. destruct (Z.eqb_spec c 37); [done|].
  intros H%fmap_None. constructor; [done|by apply IH].
Qed.

Lemma memchr_Some t k : memchr t 37 = Some k →
  ∃ w t', t = w ++ 37 :: t' ∧ plain w ∧ length w = k.
Proof.
  revert k. induction t as [|c t IH]; intros k; simpl; [done|].
  destruct (Z.eqb_spec c 37) as [->|].
  - intros [= <-]. exists [], t. split_and!; [done|by constructor|done].
  - intros (k' & Hk & ->)%fmap_Some. destruct (IH k' Hk) as (w & t' & -> & ? & ?).
    exists (c :: w), t'. split_and!; [done|by constructor|simpl; lia].
Qed.

(** ** The text with its patterns replaced

    [None] when a percent sign starts no pattern or its value is missing.
    [n] bounds the length of the text. *)
Fixpoint expand (n : nat) (tab : list str_rep) (text : list Z) : option (list Z) :=
  match n, text with
  | _, [] => Some []
  | O, _ => None
  | S n', c :: t =>
    if c =? 37 then
      r ← find_pattern tab text;
      v ← rep_val r;
      o ← expand n' tab (drop (length (pattern r)) text);
      Some (v ++ o)
    else o ← expand n' tab t; Some (c :: o)
  end.

Definition patterns_ok (tab : list str_rep) : Prop := Forall (λ r, pattern r ≠ []) tab.
Definition values_plain (tab : list str_rep) : Prop :=
  Forall (λ r, default True (plain <$> rep_val r)) tab.

Lemma find_pattern_elem tab t r : find_pattern tab t = Some r → r ∈ tab.
Proof.
  induction tab as [|r' tab IH]; simpl; [done|]. case_bool_decide.
  - intros [= ->]. by left.
  - intros. right. auto.
Qed.

Lemma expand_plain n tab w t : plain w → (length w + length t ≤ n)%nat →
  expand n tab (w ++ t) = (λ o, w ++ o) <$> expand (n - length w) tab t.
Proof.
  intros Hw. revert n. induction Hw as [|c w Hc _ IH]; intros n Hn; simpl in *.
  - rewrite Nat.sub_0_r. by destruct (expand n tab t).
  - destruct n as [|n]; [lia|]. simpl. destruct (Z.eqb_spec c 37); [done|].
    rewrite IH by lia. by destruct (expand _ tab t).
Qed.

Lemma expand_plain_all n tab t : plain t → (length t ≤ n)%nat → expand n tab t = Some t.
Proof.
  intros Ht Hn. pose proof (expand_plain n tab t [] Ht) as H. rewrite app_nil_r in H.
  rewrite H by (simpl; lia). by destruct (n - length t)%nat; simpl; rewrite app_nil_r.
Qed.

Lemma expand_more n n' tab t : patterns_ok tab → (length t ≤ n)%nat → (n ≤ n')%nat →
  expand n' tab t = expand n tab t.
Proof.
  intros Hp. revert n' t. induction n as [|n IH]; intros n' t Hn Hn'.
  { destruct t; [by destruct n'|simpl in *; lia]. }
  destruct n' as [|n']; [lia|]. destruct t as [|c t]; [done|]. simpl in *.
  destruct (c =? 37); [|rewrite (IH n') by lia; done].
  destruct (find_pattern tab (c :: t)) as [r|] eqn:Er; simpl; [|done].
  destruct (rep_val r) as [v|]; simpl; [|done].
  assert (pattern r ≠ []) as Hr.
  { eapply Forall_forall in Hp; [exact Hp|]. by eapply find_pattern_elem. }
  rewrite (IH n'); [done| |lia]. rewrite length_drop. destruct (pattern r); [done|simpl; lia].
Qed.

(** ** Reading *)

Lemma peek_repr s bs b pos : repr s bs → allocd s = Some b → (pos ≤ length bs)%nat →
  peek b (data s + pos) (Z.to_nat (len s) - pos) = Ok (drop pos bs).
Proof.
  intros Hr Eb Hp. unfold repr in Hr. rewrite Eb in Hr. destruct Hr as (Hb & _ & Hl & Hd & Ht).
  rewrite Hl, Nat2Z.id. unfold peek.
  destruct (Nat.ltb_spec (length b) (data s + pos + (length bs - pos))); [lia|].
  assert (take (length bs - pos) (drop (data s + pos) b) = Some <$> drop pos bs) as ->.
  { rewrite fmap_drop, <- Ht. rewrite skipn_firstn_comm, drop_drop. done. }
  assert (∀ l : list Z, mapM id (Some <$> l) = Some l) as ->; [|done].
  intros l. apply mapM_Some. induction l; simpl; by constructor.
Qed.

Lemma contents_repr s bs : repr s bs → allocd s ≠ None → contents s = Ok bs.
Proof.
  intros Hr Ha. unfold contents. destruct (allocd s) as [b|] eqn:E; [|done].
  pose proof (peek_repr s bs b 0 Hr E) as Hp. rewrite Nat.add_0_r, Nat.sub_0_r in Hp.
  apply Hp. lia.
Qed.

(** ** Appending *)

Section replace.
Context (mem : Z → bool) (Hmem : ∀ n, mem n = true).

Lemma append_data_done s bs d :
  repr s bs → Z.of_nat (length bs) + Z.of_nat (length d) + 1 < 2 ^ 31 →
  ∃ s', str_append_data mem s d = Ok (0, s') ∧ repr s' (bs ++ d) ∧ allocd s' ≠ None.
Proof.
  intros Hr Hs. destruct (str_append_data_ok mem s bs d Hr Hs) as [?|[[k Hk] _]]; [done|].
  by rewrite Hmem in Hk.
Qed.

Lemma append_str_done s bs t :
  repr s bs → Z.of_nat (length bs) + Z.of_nat (length t) + 2 < 2 ^ 31 →
  ∃ s', str_append_str mem s (Some t) = Ok (0, s') ∧ repr s' (bs ++ t) ∧ allocd s' ≠ None.
Proof.
  intros Hr Hs. unfold str_append_str.
  destruct (append_data_done s bs (t ++ [0]) Hr) as (s' & -> & Hr' & Ha);
    [rewrite length_app; simpl; lia|].
  run. cbn [Z.leb Z.compare]. eexists. split; [done|]. simpl. split; [|done].
  pose proof (repr_len _ _ Hr') as Hl. rewrite !length_app in Hl. simpl in Hl.
  rewrite wrap_small by lia.
  pose proof (repr_cut s' _ (length (bs ++ t)) Hr') as Hc.
  rewrite (assoc_L (++)), take_app_length in Hc.
  replace (len s' - 1) with (Z.of_nat (length (bs ++ t))) by (rewrite length_app; lia).
  apply Hc; [|done]. rewrite !length_app. simpl. lia.
Qed.

Context (tab : list str_rep) (Hpat : patterns_ok tab) (Hval : values_plain tab) (Hne : tab ≠ []).
Context (B : Z) (HB : 0 ≤ B) (HBv : Forall (λ r, ∀ v, rep_val r = Some v → Z.of_nat (length v) ≤ B) tab).

(** The string is [done ++ rest], the position is in [done] and no percent
    sign lies between. *)
Lemma str_replace_loop_expand fuel s done' rest pos n :
  repr s (done' ++ rest) → allocd s ≠ None → (pos ≤ length done')%nat → plain (drop pos done') →
  (length rest < fuel)%nat → (length rest ≤ n)%nat →
  Z.of_nat (length done') + (B + 1) * Z.of_nat (length rest) + B + 3 < 2 ^ 31 →
  ∃ ret s', str_replace_loop mem fuel s pos tab = Ok (ret, s') ∧
    match expand n tab rest with
    | Some o => ret = 0 ∧ repr s' (done' ++ o) ∧ allocd s' ≠ None
    | None => ret = -1
    end.
Proof.
  revert s done' rest pos n. induction fuel as [|fuel IH]; intros s dn rest pos n Hr Ha Hpos Hpl Hf Hn Hsz; [lia|].
  cbn [str_replace_loop]. destruct (allocd s) as [b|] eqn:Eb; [|done].
  rewrite (peek_repr s (dn ++ rest) b pos) by (done || rewrite length_app; lia). run.
  rewrite drop_app_le by done. rewrite memchr_plain_app by done.
  destruct (memchr rest 37) as [k|] eqn:Ek; simpl.
  2: { apply memchr_None in Ek. eexists _, _. split; [done|].
    rewrite expand_plain_all by done. by rewrite Eb. }
  apply memchr_Some in Ek as (w & t & -> & Hw & <-).
  rewrite length_app in Hf, Hn, Hsz. simpl in Hf, Hn, Hsz.
  rewrite expand_plain by (done || simpl; lia).
  destruct (n - length w)%nat as [|n1] eqn:En; [lia|]. cbn [expand].
  rewrite Z.eqb_refl.
  assert (drop (length (drop pos dn) + length w) (drop pos dn ++ w ++ 37 :: t) = 37 :: t) as ->.
  { rewrite (assoc_L (++)). apply drop_app_length'. by rewrite length_app. }
  destruct (find_pattern tab (37 :: t)) as [r|] eqn:Er; simpl.
  2: { destruct tab; [done|]. by eexists _, _. }
  rewrite Hmem. cbn [negb].
  pose proof (find_pattern_elem _ _ _ Er) as Hin.
  assert (pattern r ≠ []) as Hpr by (eapply Forall_forall in Hpat; eauto).
  assert (Hpm : take (length (pattern r)) (37 :: t) = pattern r).
  { clear -Er. induction tab as [|r' tab' IH]; simpl in Er; [done|].
    case_bool_decide; [by simplify_eq|auto]. }
  set (final := drop (length (pattern r)) (37 :: t)).
  assert (length final + length (pattern r) = S (length t))%nat as Hfin.
  { subst final. rewrite length_drop. apply (f_equal length) in Hpm.
    rewrite length_take in Hpm. simpl in *. lia. }
  pose proof (repr_len _ _ Hr) as Hl. rewrite !length_app in Hl. simpl in Hl.
  rewrite wrap_small by lia.
  set (s1 := set_len s _).
  assert (repr s1 (dn ++ w)) as Hr1.
  { pose proof (repr_cut s _ (length (dn ++ w)) Hr) as Hc.
    rewrite (assoc_L (++)), take_app_length in Hc. subst s1.
    replace (len s - Z.of_nat (length final + length (pattern r))) with (Z.of_nat (length (dn ++ w)))
      by (rewrite length_app; lia).
    apply Hc; [rewrite !length_app; simpl; lia|by rewrite Eb]. }
  destruct (rep_val r) as [v|] eqn:Ev; [cbn [mbind option_bind]|simpl; by eexists _, _].
  assert (Z.of_nat (length v) ≤ B) as HvB.
  { eapply Forall_forall in HBv; [|exact Hin]. by apply HBv. }
  assert (plain v) as Hv.
  { eapply Forall_forall in Hval; [|exact Hin]. by rewrite Ev in Hval. }
  destruct (append_str_done s1 (dn ++ w) v Hr1) as (s2 & -> & Hr2 & Ha2);
    [rewrite length_app; nia|]. run. cbn [Z.ltb Z.compare].
  destruct (append_data_done s2 ((dn ++ w) ++ v) final Hr2) as (s3 & -> & Hr3 & Ha3);
    [rewrite !length_app; nia|]. run. cbn [Z.ltb Z.compare].
  assert (pos + (length (drop pos dn) + length w) = length (dn ++ w))%nat as ->
    by (rewrite length_drop, length_app; lia).
  assert (1 ≤ length (pattern r))%nat by (destruct (pattern r); [done|simpl; lia]).
  assert (length final ≤ length t)%nat as Hft by lia.
  assert (Hexp : expand n1 tab final = expand (length final) tab final)
    by (apply expand_more; [done|lia|lia]).
  assert (plain (drop (length (dn ++ w)) ((dn ++ w) ++ v))) by by rewrite drop_app_length.
  pose proof (repr_len _ _ Hr3) as Hl3. rewrite Hl3.
  destruct (Z.ltb_spec (Z.of_nat (length (dn ++ w))) (Z.of_nat (length (((dn ++ w) ++ v) ++ final)))).
  - destruct (IH s3 ((dn ++ w) ++ v) final (length (dn ++ w)) n1) as (ret & s' & -> & Hres);
      [done|done|rewrite !length_app; lia|done|lia|lia|rewrite !length_app; nia|].
    exists ret, s'. split; [done|]. destruct (expand n1 tab final) as [o|]; simpl; [|done].
    destruct Hres as (-> & Hres & Ha'). split; [done|]. split; [|done].
    by rewrite <- !(assoc_L (++)) in Hres.
  - rewrite !length_app in *. assert (length v = 0 ∧ length final = 0)%nat as [Ev0 Ef] by lia.
    apply nil_length_inv in Ev0, Ef. subst v. rewrite Ef in *.
    eexists _, _. split; [done|].
    destruct n1; simpl; (split_and!; [done| |done]); rewrite !app_nil_r in *; done.
Qed.

(** C28: With memory available, for values that contain no percent sign and a
    result of less than 2 GiB, replacing patterns gives the text with every
    pattern replaced by its value, as [expand] has it, and fails exactly when a
    percent sign starts no pattern or the value is missing; one iteration for
    each byte of the text is enough.  A value with a percent sign is scanned
    again, see [own_pattern_loops]. *)
Theorem str_replace_expands s text :
  repr s text → allocd s ≠ None →
  (B + 1) * Z.of_nat (length text) + B + 3 < 2 ^ 31 →
  ∃ ret s', str_replace_str mem (S (length text)) s tab = Ok (ret, s') ∧
    match expand (length text) tab text with
    | Some o => ret = 0 ∧ repr s' o ∧ allocd s' ≠ None
    | None => ret = -1
    end.
Proof.
  intros Hr Ha Hs. apply (str_replace_loop_expand _ s [] text 0); simpl; try done || lia.
  by constructor.
Qed.

End replace.

(** ** A value that is its own pattern *)

Section selfrep.
Context (mem : Z → bool) (Hmem : ∀ n, mem n = true).

Lemma str_replace_loop_selfrep fuel s w p t tab r pos :
  find_pattern tab (37 :: p ++ t) = Some r → pattern r = 37 :: p → rep_val r = Some (37 :: p) →
  plain w → repr s (w ++ 37 :: p ++ t) → allocd s ≠ None → (pos ≤ length w)%nat →
  Z.of_nat (length (w ++ 37 :: p ++ t)) + 2 < 2 ^ 31 →
  str_replace_loop mem fuel s pos tab = Fuel.
Proof.
  intros Hf Hp Hv Hw. revert s pos. induction fuel as [|fuel IH]; intros s pos Hr Ha Hpos Hs; [done|].
  cbn [str_replace_loop]. destruct (allocd s) as [b|] eqn:Eb; [|done].
  rewrite (peek_repr s (w ++ 37 :: p ++ t) b pos) by (done || rewrite length_app; lia). run.
  rewrite drop_app_le by done. rewrite memchr_plain_app by by apply Forall_drop.
  cbn [memchr]. rewrite Z.eqb_refl. simpl. rewrite Nat.add_0_r, drop_app_length, Hf, Hmem.
  cbn [negb]. rewrite Hp, Hv. change (37 :: p ++ t) with ((37 :: p) ++ t) in *.
  rewrite drop_app_length.
  pose proof (repr_len _ _ Hr) as Hl. rewrite !length_app in Hl. rewrite !length_app in Hs.
  rewrite wrap_small by lia.
  set (s1 := set_len s _).
  assert (repr s1 w) as Hr1.
  { pose proof (repr_cut s _ (length w) Hr) as Hc. rewrite take_app_length in Hc. subst s1.
    replace (len s - Z.of_nat (length t + length (37 :: p))) with (Z.of_nat (length w)) by lia.
    apply Hc; [rewrite !length_app; lia|by rewrite Eb]. }
  destruct (append_str_done mem Hmem s1 w (37 :: p) Hr1) as (s2 & -> & Hr2 & Ha2); [lia|].
  run. cbn [Z.ltb Z.compare].
  destruct (append_data_done mem Hmem s2 (w ++ 37 :: p) t Hr2) as (s3 & -> & Hr3 & Ha3);
    [rewrite length_app; lia|].
  run. cbn [Z.ltb Z.compare]. rewrite <- (assoc_L (++)) in Hr3.
  rewrite (repr_len _ _ Hr3). rewrite length_drop.
  replace (pos + (length w - pos))%nat with (length w) by lia.
  destruct (Z.ltb_spec (Z.of_nat (length w)) (Z.of_nat (length (w ++ (37 :: p) ++ t)))) as [|Hx];
    [|rewrite !length_app in Hx; simpl in Hx; lia].
  apply IH; [done|done|done|]. rewrite !length_app. lia.
Qed.

(** When the value of a pattern is the pattern itself, replacing never
    ends: a user whose name is the pattern for the user name blocks the
    worker. *)
Theorem own_pattern_loops fuel w p t tab r s :
  find_pattern tab (37 :: p ++ t) = Some r → pattern r = 37 :: p → rep_val r = Some (37 :: p) →
  plain w → repr s (w ++ 37 :: p ++ t) → allocd s ≠ None →
  Z.of_nat (length (w ++ 37 :: p ++ t)) + 2 < 2 ^ 31 →
  str_replace_str mem fuel s tab = Fuel.
Proof. intros. by eapply str_replace_loop_selfrep; [..|lia|]. Qed.

End selfrep.

(** ** Examples *)

Module StrWitnesses.

(** The table of [replace_vals] for a user. *)
Definition rep_user (name : list Z) : str_rep := {| pattern := to_bytes "%{U}"; rep_val := Some name |}.

Definition text_st (t : list Z) : str_st := {|
  allocd := Some ((Some <$> t) ++ replicate (64 - length t) None); data := 0; max_length := 63;
  len := Z.of_nat (length t) |}.

Lemma text_repr t : (length t ≤ 63)%nat → repr (text_st t) t.
Proof.
  intros Ht. unfold repr, text_st. simpl. rewrite length_app, length_fmap, length_replicate, drop_0.
  split_and!; try lia. by rewrite take_app_length' by by rewrite length_fmap.
Qed.

Lemma str_replace_expands_witness : ∃ ret s',
  str_replace_str (λ _, true) 13 (text_st (to_bytes "X-User: %{U}")) [rep_user (to_bytes "jo")] = Ok (ret, s') ∧
  ret = 0 ∧ repr s' (to_bytes "X-User: jo") ∧ allocd s' ≠ None.
Proof.
  apply (str_replace_expands (λ _, true) (λ _, eq_refl) [rep_user (to_bytes "jo")]) with (B := 2)
    (text := to_bytes "X-User: %{U}").
  - by repeat constructor.
  - by repeat constructor.
  - discriminate.
  - lia.
  - constructor; [|constructor]. intros v [= <-]. simpl. lia.
  - apply text_repr. simpl. lia.
  - discriminate.
  - reflexivity.
Defined.

Lemma own_pattern_loops_witness :
  str_replace_str (λ _, true) 1000 (text_st (to_bytes "X-User: %{U}")) [rep_user (to_bytes "%{U}")] = Fuel.
Proof.
  apply (own_pattern_loops (λ _, true) (λ _, eq_refl) 1000 (to_bytes "X-User: ") (to_bytes "{U}") []
    [rep_user (to_bytes "%{U}")] (rep_user (to_bytes "%{U}"))).
  - reflexivity.
  - reflexivity.
  - reflexivity.
  - by repeat constructor.
  - apply text_repr. simpl. lia.
  - discriminate.
  - reflexivity.
Defined.

End StrWitnesses.
