(* ===== verification/RouteAdd.v ===== *)
(** * Routes towards clients (src/route-add.c, [replace_vals] of src/worker-vpn.c)

    Commands are made from a pattern of the configuration and run by a shell.
    The shell is the argument [exec]; it sees the command and the world. *)

From S2P Require Import Prelude CString IpUtil NetText Str StrSpec.

Definition ERR_EXEC : Z := -10.

(** How a child that runs a command ends. *)
Inductive child :=
| ForkFailed
| WaitFailed
| Abnormal
| Exited (status : Z).

#[global] Instance child_eq_dec : EqDecision child.
Proof. solve_decision. Defined.

Section routes.
Context {W : Type} (exec : list Z → W → child * W).
Context (mem : Z → bool) (fuel : nat).

Definition call_script (cmd : option (list Z)) (w : W) : Z * W :=
  match cmd with
  | None => (0, w)
  | Some cmd =>
    let '(r, w) := exec cmd w in
    (match r with Exited status => if status =? 0 then 0 else ERR_EXEC | _ => ERR_EXEC end, w)
  end.

Definition route_tab (route dev : string) : list str_rep :=
  [{| pattern := to_bytes "%{R}"; rep_val := Some (to_bytes route) |};
   {| pattern := to_bytes "%R"; rep_val := Some (to_bytes route) |};
   {| pattern := to_bytes "%{D}"; rep_val := Some (to_bytes dev) |};
   {| pattern := to_bytes "%D"; rep_val := Some (to_bytes dev) |};
   {| pattern := to_bytes "%{RI}"; rep_val := to_bytes <$> ipv4_route_to_cidr route |}].

(** The result and the command. *)
Definition replace_cmd (pat route dev : string) : cres (Z * option (list Z)) :=
  '(ret, s) ← str_append_str mem str_init (Some (to_bytes pat));
  if ret <? 0 then Ok (ERR_MEM, None) else
  '(ret, s) ← str_replace_str mem fuel s (route_tab route dev);
  if ret <? 0 then Ok (ERR_MEM, None) else
  cmd ← contents s;
  Ok (0, Some cmd).

(** [pat] is [route_add_cmd] or [route_del_cmd] of the configuration. *)
Definition route_adddel (pat : option string) (route dev : string) (w : W) : cres (Z * W) :=
  match pat with
  | None => Ok (0, w)
  | Some pat =>
    '(ret, cmd) ← replace_cmd pat route dev;
    if ret <? 0 then Ok (ret, w) else
    let '(ret, w) := call_script cmd w in
    Ok (if ret <? 0 then (ERR_EXEC, w) else (0, w))
  end.

Record route_conf := { route_add_cmd : option string; route_del_cmd : option string }.

Definition route_add (c : route_conf) := route_adddel (route_add_cmd c).
Definition route_del (c : route_conf) := route_adddel (route_del_cmd c).

(** The loops over the routes; a failed [route_add] stops the first one and
    gives the routes added before. *)
Fixpoint add_all (c : route_conf) (routes : list string) (dev : string) (w : W)
    : cres (option nat * W) :=
  match routes with
  | [] => Ok (None, w)
  | r :: rs =>
    '(ret, w) ← route_add c r dev w;
    if ret <? 0 then Ok (Some O, w) else
    '(f, w) ← add_all c rs dev w;
    Ok (option_map S f, w)
  end.

Fixpoint del_all (c : route_conf) (routes : list string) (dev : string) (w : W) : cres W :=
  match routes with
  | [] => Ok w
  | r :: rs => '(_, w) ← route_del c r dev w; del_all c rs dev w
  end.

Record route_proc := {
  iroutes : option (list string);     (* proc->config and its iroutes *)
  tun_name : string;
  applied_iroutes : bool }.

Definition apply_iroutes (c : route_conf) (p : route_proc) (w : W) : cres (Z * route_proc * W) :=
  match iroutes p with
  | None => UB
  | Some [] => Ok (0, p, w)
  | Some rs =>
    '(f, w) ← add_all c rs (tun_name p) w;
    match f with
    | None => Ok (0, {| p with applied_iroutes := true |}, w)
    | Some i => w ← del_all c (take i rs) (tun_name p) w; Ok (-1, p, w)
    end
  end.

Definition remove_iroutes (c : route_conf) (p : route_proc) (w : W) : cres (route_proc * W) :=
  match iroutes p with
  | None | Some [] => Ok (p, w)
  | Some rs =>
    if negb (applied_iroutes p) then Ok (p, w) else
    w ← del_all c rs (tun_name p) w;
    Ok ({| p with applied_iroutes := false |}, w)
  end.

End routes.

(** [replace_vals]: a header of the configuration for a user. *)
Definition replace_vals (mem : Z → bool) (fuel : nat) (username groupname txt : string)
    : cres (option (list Z)) :=
  let tab := [{| pattern := to_bytes "%{U}"; rep_val := Some (to_bytes username) |};
              {| pattern := to_bytes "%{G}"; rep_val := Some (to_bytes groupname) |}] in
  '(ret, s) ← str_append_str mem str_init (Some (to_bytes txt));
  if ret <? 0 then Ok None else
  '(ret, s) ← str_replace_str mem fuel s tab;
  if ret <? 0 then Ok None else
  t ← contents s;
  Ok (Some t).

(** ** The commands *)

Definition command (pat route dev : string) : option (list Z) :=
  expand (String.length pat) (route_tab route dev) (to_bytes pat).

(** ** Values without percent signs *)

(** A route or a device: no percent sign, at most 255 bytes. *)
Definition route_ok (route : string) : Prop :=
  plain (to_bytes route) ∧ (String.length route ≤ 255)%nat.

Lemma to_bytes_substring n t : to_bytes (String.substring 0 n t) = take n (to_bytes t).
Proof. revert t. induction n as [|n IH]; intros [|c t]; simpl; [done..|]. by rewrite IH. Qed.

Lemma plain_dec n : plain (to_bytes (dec n)).
Proof.
  eapply Forall_impl; [apply dec_digit_string|]. intros c Hc ->. done.
Qed.

Lemma cidr_plain route r : route_ok route → ipv4_route_to_cidr route = Some r →
  plain (to_bytes r) ∧ (String.length r ≤ 300)%nat.
Proof.
  intros [Hp Hl]. unfold ipv4_route_to_cidr.
  destruct (strchr route _) as [p|]; [|intros [= <-]; split; [done|lia]].
  destruct (strchr p _) as [q|]; [|done].
  case_bool_decide; [|intros [= <-]; split; [done|lia]].
  destruct (Z.leb_spec (ipv4_mask_to_int (tail q)) 0), (Z.ltb_spec 32 (ipv4_mask_to_int (tail q)));
    simpl; try done. intros [= <-].
  set (n := (String.length route - String.length q)%nat).
  rewrite <- to_bytes_length, !to_bytes_app, to_bytes_substring.
  split.
  - apply Forall_app. split; [by apply Forall_take|]. apply Forall_app.
    split; [by repeat constructor|apply plain_dec].
  - rewrite !length_app, length_take, !to_bytes_length. simpl.
    pose proof (dec_length_le 2 (ipv4_mask_to_int (tail q))). lia.
Qed.

Lemma route_tab_ok route dev : route_ok route → route_ok dev →
  patterns_ok (route_tab route dev) ∧ values_plain (route_tab route dev) ∧
  Forall (λ r, ∀ v, rep_val r = Some v → Z.of_nat (length v) ≤ 300) (route_tab route dev).
Proof.
  intros Hr Hd. split; [by repeat constructor|].
  assert (∀ s, route_ok s → ∀ v, Some (to_bytes s) = Some v → Z.of_nat (length v) ≤ 300)
    as Hlen by (intros s [_ Hs] v [= <-]; rewrite to_bytes_length; lia).
  pose proof (cidr_plain route) as Hc.
  split; repeat constructor; simpl; try apply Hr; try apply Hd; try (by apply Hlen).
  - destruct (ipv4_route_to_cidr route) as [c|]; simpl; [|done]. by apply (Hc c).
  - intros v Hv. destruct (ipv4_route_to_cidr route) as [c|]; simpl in *; [|done]. simplify_eq.
    rewrite to_bytes_length. destruct (Hc c); [done|done|lia].
Qed.

Section commands.
Context (mem : Z → bool) (Hmem : ∀ n, mem n = true) (fuel : nat).

Lemma replace_cmd_spec pat route dev :
  route_ok route → route_ok dev → Z.of_nat (String.length pat) ≤ 65536 → (String.length pat < fuel)%nat →
  replace_cmd mem fuel pat route dev =
    Ok (match command pat route dev with Some c => (0, Some c) | None => (ERR_MEM, None) end).
Proof.
  intros Hr Hd Hl Hf. destruct (route_tab_ok route dev Hr Hd) as (Hp & Hv & HB).
  unfold replace_cmd, command. rewrite <- to_bytes_length in *.
  destruct (append_str_done mem Hmem str_init [] (to_bytes pat) repr_init) as (s & -> & Hs & Ha);
    [simpl; lia|]. run. cbn [Z.ltb Z.compare].
  destruct (str_replace_loop_expand mem Hmem (route_tab route dev) Hp Hv ltac:(done) 300 ltac:(done) HB
    fuel s [] (to_bytes pat) 0 (length (to_bytes pat))) as (ret & s' & E & Hres);
    try (done || lia); [by constructor|simpl; lia|].
  unfold str_replace_str. rewrite E. run.
  destruct (expand _ _ _) as [o|]; [|by subst ret].
  destruct Hres as (-> & Hs' & Ha'). cbn [Z.ltb Z.compare]. by rewrite (contents_repr s' o).
Qed.
End commands.

(** ** All routes or none *)

Section all_or_nothing.
Context {W : Type} (exec : list Z → W → child * W).
Context (mem : Z → bool) (Hmem : ∀ n, mem n = true) (fuel : nat).
Context (c : route_conf) (addp delp dev : string).
Context (Hadd : route_add_cmd c = Some addp) (Hdel : route_del_cmd c = Some delp).
Context (Hdev : route_ok dev).
Context (Ha : Z.of_nat (String.length addp) ≤ 65536) (Hd : Z.of_nat (String.length delp) ≤ 65536).
Context (Hfa : (String.length addp < fuel)%nat) (Hfd : (String.length delp < fuel)%nat).

(** The routes of the system, and what the commands of the administrator do
    to them: adding one succeeds or changes nothing, deleting one removes it. *)
Context (table : W → gset string).
Context (adds : ∀ r x w, command addp r dev = Some x →
  table (exec x w).2 = if decide ((exec x w).1 = Exited 0) then {[r]} ∪ table w else table w).
Context (dels : ∀ r x w, command delp r dev = Some x → table (exec x w).2 = table w ∖ {[r]}).

(** Both patterns give a command for the route. *)
Definition has_commands (r : string) : Prop :=
  route_ok r ∧ is_Some (command addp r dev) ∧ is_Some (command delp r dev).

Lemma call_script_ret x w :
  call_script exec (Some x) w =
    ((if decide ((exec x w).1 = Exited 0) then 0 else ERR_EXEC), (exec x w).2).
Proof.
  unfold call_script. destruct (exec x w) as [r w']. simpl.
  destruct (decide (r = Exited 0)) as [->|Hr]; [done|].
  destruct r as [| | |status]; try done. destruct (Z.eqb_spec status 0) as [->|]; done.
Qed.

Lemma route_add_step r w : has_commands r →
  ∃ ret w', route_add exec mem fuel c r dev w = Ok (ret, w') ∧
    (ret = 0 ∧ table w' = {[r]} ∪ table w ∨ ret = ERR_EXEC ∧ table w' = table w).
Proof.
  intros (Hr & [x Hx] & _). unfold route_add, route_adddel. rewrite Hadd.
  rewrite replace_cmd_spec by done. rewrite Hx. run. cbn [Z.ltb Z.compare].
  rewrite call_script_ret. pose proof (adds r x w Hx) as Ht.
  destruct (decide _); simpl; eexists _, _; (split; [done|]); auto.
Qed.

Lemma route_del_step r w : has_commands r →
  ∃ ret w', route_del exec mem fuel c r dev w = Ok (ret, w') ∧ table w' = table w ∖ {[r]}.
Proof.
  intros (Hr & _ & [x Hx]). unfold route_del, route_adddel. rewrite Hdel.
  rewrite replace_cmd_spec by done. rewrite Hx. run. cbn [Z.ltb Z.compare].
  rewrite call_script_ret. pose proof (dels r x w Hx) as Ht.
  destruct (decide _); simpl; eexists _, _; (split; [done|]); auto.
Qed.

Lemma del_all_table rs w : Forall has_commands rs →
  ∃ w', del_all exec mem fuel c rs dev w = Ok w' ∧ table w' = table w ∖ list_to_set rs.
Proof.
  intros Hrs. revert w. induction Hrs as [|r rs Hr _ IH]; intros w; simpl.
  - eexists. split; [done|]. set_solver.
  - destruct (route_del_step r w Hr) as (ret & w1 & -> & H1). run.
    destruct (IH w1) as (w' & -> & H2). eexists. split; [done|]. set_solver.
Qed.

Lemma add_all_table rs w : Forall has_commands rs →
  ∃ f w', add_all exec mem fuel c rs dev w = Ok (f, w') ∧
    match f with
    | None => table w' = list_to_set rs ∪ table w
    | Some i => (i < length rs)%nat ∧ table w' = list_to_set (take i rs) ∪ table w
    end.
Proof.
  intros Hrs. revert w. induction Hrs as [|r rs Hr _ IH]; intros w; simpl.
  - eexists _, _. split; [done|]. set_solver.
  - destruct (route_add_step r w Hr) as (ret & w1 & -> & [[-> H1]|[-> H1]]); run; simpl.
    + destruct (IH w1) as (f & w' & -> & H2). run. eexists _, _. split; [done|].
      destruct f as [i|]; simpl; [destruct H2 as [? H2]; split; [lia|]|]; rewrite H2, H1;
        by rewrite (assoc_L (∪)), (comm_L (∪) (list_to_set _) {[r]}).
    + eexists _, _. split; [done|]. split; [lia|]. set_solver.
Qed.

(** Applying the routes of a client adds all of them, or leaves the
    routes of the system as they were; removing them later restores what was
    there before. *)
Theorem iroutes_all_or_nothing p rs w :
  iroutes p = Some rs → tun_name p = dev → applied_iroutes p = false →
  Forall has_commands rs → table w ## list_to_set rs →
  ∃ ret p' w', apply_iroutes exec mem fuel c p w = Ok (ret, p', w') ∧
    (ret = 0 ∧ table w' = list_to_set rs ∪ table w ∨ ret = -1 ∧ table w' = table w) ∧
    ∃ p'' w'', remove_iroutes exec mem fuel c p' w' = Ok (p'', w'') ∧
      table w'' = table w ∧ applied_iroutes p'' = false.
Proof.
  intros Ei Et Ea Hrs Hdisj. unfold apply_iroutes. rewrite Ei, Et.
  destruct rs as [|r rs'].
  { eexists _, _, _. split; [done|]. split; [left; split; [done|set_solver]|].
    unfold remove_iroutes. rewrite Ei. by eexists _, _. }
  set (rs := r :: rs') in *. destruct (add_all_table rs w Hrs) as (f & w1 & -> & H1). run.
  destruct f as [i|].
  - destruct (del_all_table (take i rs) w1) as (w2 & -> & H2); [by apply Forall_take|]. run.
    destruct H1 as [_ H1].
    assert (table w2 = table w) as E2.
    { rewrite H2, H1. assert (list_to_set (take i rs) ⊆@{gset string} list_to_set rs).
      { intros y. rewrite !elem_of_list_to_set. intros Hy.
        rewrite <- (take_drop i rs). by apply elem_of_app; left. }
      set_solver. }
    eexists _, _, _. split; [done|]. split; [by right|].
    unfold remove_iroutes. rewrite Ei, Ea. by eexists _, _.
  - eexists _, _, _. split; [done|]. split; [by left|].
    unfold remove_iroutes. cbn [iroutes tun_name applied_iroutes negb]. subst rs.
    destruct (del_all_table (r :: rs') w1 Hrs) as (w2 & -> & H2). run.
    eexists _, _. split; [done|]. split; [|done]. rewrite H2, H1. set_solver.
Qed.

End all_or_nothing.

(** ** An example *)

Module RouteWitnesses.

(** A shell with the commands [a<route>] and [d<route>]. *)
Definition exec0 (x : list Z) (w : gset string) : child * gset string :=
  match x with
  | 97 :: r => (Exited 0, {[of_bytes r]} ∪ w)
  | 100 :: r => (Exited 0, w ∖ {[of_bytes r]})
  | _ => (Exited 1, w)
  end.

Definition conf0 : route_conf := {| route_add_cmd := Some "a%R"; route_del_cmd := Some "d%R" |}.
Definition proc0 : route_proc := {|
  iroutes := Some ["10.1.0.0/16"; "10.2.0.0/16"]; tun_name := "vpns0"; applied_iroutes := false |}.

Lemma command_a r : command "a%R" r "vpns0" = Some (97 :: to_bytes r).
Proof. unfold command. simpl. by rewrite app_nil_r. Qed.
Lemma command_d r : command "d%R" r "vpns0" = Some (100 :: to_bytes r).
Proof. unfold command. simpl. by rewrite app_nil_r. Qed.

Lemma iroutes_all_or_nothing_witness : ∃ ret p' w',
  apply_iroutes exec0 (λ _, true) 4 conf0 proc0 ∅ = Ok (ret, p', w') ∧
  (ret = 0 ∧ w' = list_to_set ["10.1.0.0/16"; "10.2.0.0/16"] ∪ ∅ ∨ ret = -1 ∧ w' = ∅) ∧
  ∃ p'' w'', remove_iroutes exec0 (λ _, true) 4 conf0 p' w' = Ok (p'', w'') ∧
    w'' = ∅ ∧ applied_iroutes p'' = false.
Proof.
  assert (∀ r : string, (String.length r ≤ 255)%nat → plain (to_bytes r) → has_commands "a%R" "d%R" "vpns0" r)
    as Hc by (intros r Hl Hp; split; [by split|]; rewrite command_a, command_d; split; by eexists).
  apply (iroutes_all_or_nothing exec0 (λ _, true) (λ _, eq_refl) 4 conf0 "a%R" "d%R" "vpns0")
    with (table := id) (rs := ["10.1.0.0/16"; "10.2.0.0/16"]).
  - reflexivity.
  - reflexivity.
  - split; [by repeat constructor|simpl; lia].
  - simpl. lia.
  - simpl. lia.
  - simpl. lia.
  - simpl. lia.
  - intros r x w. rewrite command_a. intros [= <-]. simpl. by rewrite of_to_bytes.
  - intros r x w. rewrite command_d. intros [= <-]. simpl. by rewrite of_to_bytes.
  - reflexivity.
  - reflexivity.
  - reflexivity.
  - repeat apply Forall_cons_2; try apply Forall_nil_2; (apply Hc; [simpl; lia|by repeat constructor]).
  - apply disjoint_empty_l.
Defined.

End RouteWitnesses.
