(* ===== verification/HttpHeads.v ===== *)
(** * Names of HTTP headers (src/http-heads.h, http-heads.gperf)

    The perfect hash function that recognises the headers the server handles,
    and that it agrees with the list of headers it was made from. *)

From S2P Require Import Prelude CString.

Inductive header_id :=
| HEADER_COOKIE
| HEADER_MASTER_SECRET
| HEADER_HOSTNAME
| HEADER_CSTP_MTU
| HEADER_CSTP_BASE_MTU
| HEADER_CSTP_ATYPE
| HEADER_DEVICE_TYPE
| HEADER_PLATFORM
| HEADER_DTLS_CIPHERSUITE
| HEADER_DTLS12_CIPHERSUITE
| HEADER_CONNECTION
| HEADER_FULL_IPV6
| HEADER_USER_AGENT
| HEADER_CSTP_ENCODING
| HEADER_DTLS_ENCODING
| HEADER_SUPPORT_SPNEGO
| HEADER_AUTHORIZATION.

#[global] Instance header_id_eq_dec : EqDecision header_id.
Proof. solve_decision. Defined.

Definition asso_values : list Z :=
  [41; 41; 41; 41; 41; 41; 41; 41; 41; 41; 41; 41; 41; 41; 41; 41; 41; 41; 41; 41;
   41; 41; 41; 41; 41; 41; 41; 41; 41; 41; 41; 41; 41; 41; 41; 41; 41; 41; 41; 41;
   41; 41; 41; 41; 41; 41; 41; 41; 41; 41; 15; 41; 41; 41; 41; 41; 41; 41; 41; 41;
   41; 41; 41; 41; 41; 0; 20; 0; 5; 41; 10; 41; 15; 41; 41; 41; 41; 0; 41; 41;
   41; 41; 41; 5; 41; 41; 41; 41; 41; 41; 41; 41; 41; 41; 41; 41; 41; 41; 41; 41;
   41; 5; 41; 41; 41; 5; 41; 41; 41; 41; 0; 0; 41; 41; 0; 41; 0; 41; 41; 41;
   41; 41; 0; 41; 41; 41; 41; 41; 41; 41; 41; 41; 41; 41; 41; 41; 41; 41; 41; 41;
   41; 41; 41; 41; 41; 41; 41; 41; 41; 41; 41; 41; 41; 41; 41; 41; 41; 41; 41; 41;
   41; 41; 41; 41; 41; 41; 41; 41; 41; 41; 41; 41; 41; 41; 41; 41; 41; 41; 41; 41;
   41; 41; 41; 41; 41; 41; 41; 41; 41; 41; 41; 41; 41; 41; 41; 41; 41; 41; 41; 41;
   41; 41; 41; 41; 41; 41; 41; 41; 41; 41; 41; 41; 41; 41; 41; 41; 41; 41; 41; 41;
   41; 41; 41; 41; 41; 41; 41; 41; 41; 41; 41; 41; 41; 41; 41; 41; 41; 41; 41; 41;
   41; 41; 41; 41; 41; 41; 41; 41; 41; 41; 41; 41; 41; 41; 41; 41].

(** A header name is given by its bytes, without the NUL after them; the HTTP
    parser lets no NUL into a name. *)
Definition hash (str : list Z) (len : Z) : cres Z :=
  let hval := len in
  h7 ← (if (3 <=? hval) && (hval <=? 7) then Ok 0
        else c ← aread str 7; aread asso_values c);
  c ← aread str 2;
  h2 ← aread asso_values c;
  Ok (u32 (hval + h7 + h2)).

Definition wordlist : list (string * option header_id) :=
  [("", None);
   ("", None);
   ("", None);
   ("", None);
   ("", None);
   ("", None);
   ("Cookie", Some HEADER_COOKIE);
   ("", None);
   ("", None);
   ("", None);
   ("X-CSTP-MTU", Some HEADER_CSTP_MTU);
   ("", None);
   ("", None);
   ("Authorization", Some HEADER_AUTHORIZATION);
   ("", None);
   ("Connection", Some HEADER_CONNECTION);
   ("", None);
   ("", None);
   ("", None);
   ("X-CSTP-Address-Type", Some HEADER_CSTP_ATYPE);
   ("User-Agent", Some HEADER_USER_AGENT);
   ("", None);
   ("X-CSTP-Accept-Encoding", Some HEADER_CSTP_ENCODING);
   ("X-DTLS-CipherSuite", Some HEADER_DTLS_CIPHERSUITE);
   ("X-Support-HTTP-Auth", Some HEADER_SUPPORT_SPNEGO);
   ("X-DTLS-Master-Secret", Some HEADER_MASTER_SECRET);
   ("", None);
   ("X-DTLS-Accept-Encoding", Some HEADER_DTLS_ENCODING);
   ("", None);
   ("", None);
   ("X-CSTP-Hostname", Some HEADER_HOSTNAME);
   ("", None);
   ("X-AnyConnect-Identifier-Platform", Some HEADER_PLATFORM);
   ("", None);
   ("X-AnyConnect-Identifier-DeviceType", Some HEADER_DEVICE_TYPE);
   ("X-CSTP-Base-MTU", Some HEADER_CSTP_BASE_MTU);
   ("", None);
   ("X-CSTP-Full-IPv6-Capability", Some HEADER_FULL_IPV6);
   ("", None);
   ("", None);
   ("X-DTLS12-CipherSuite", Some HEADER_DTLS12_CIPHERSUITE)].

Definition MIN_WORD_LENGTH : Z := 6.
Definition MAX_WORD_LENGTH : Z := 34.
Definition MAX_HASH_VALUE : Z := 40.

Definition in_word_set (str : list Z) (len : Z) : cres (option header_id) :=
  if (len <=? MAX_WORD_LENGTH) && (MIN_WORD_LENGTH <=? len) then
    key ← hash str len;
    if key <=? MAX_HASH_VALUE then
      '(s, id) ← aread wordlist key;
      Ok (if bool_decide (to_bytes s = str) then id else None)
    else Ok None
  else Ok None.

(** The keywords of http-heads.gperf. *)
Definition keywords : list (string * header_id) :=
  [("Cookie", HEADER_COOKIE);
   ("User-Agent", HEADER_USER_AGENT);
   ("X-CSTP-Accept-Encoding", HEADER_CSTP_ENCODING);
   ("X-DTLS-Accept-Encoding", HEADER_DTLS_ENCODING);
   ("Connection", HEADER_CONNECTION);
   ("X-DTLS-Master-Secret", HEADER_MASTER_SECRET);
   ("X-DTLS-CipherSuite", HEADER_DTLS_CIPHERSUITE);
   ("X-DTLS12-CipherSuite", HEADER_DTLS12_CIPHERSUITE);
   ("X-CSTP-Base-MTU", HEADER_CSTP_BASE_MTU);
   ("X-CSTP-MTU", HEADER_CSTP_MTU);
   ("X-CSTP-Address-Type", HEADER_CSTP_ATYPE);
   ("X-CSTP-Hostname", HEADER_HOSTNAME);
   ("X-CSTP-Full-IPv6-Capability", HEADER_FULL_IPV6);
   ("X-AnyConnect-Identifier-DeviceType", HEADER_DEVICE_TYPE);
   ("X-AnyConnect-Identifier-Platform", HEADER_PLATFORM);
   ("X-Support-HTTP-Auth", HEADER_SUPPORT_SPNEGO);
   ("Authorization", HEADER_AUTHORIZATION)].

Fixpoint find_keyword (l : list (string * header_id)) (str : list Z) : option header_id :=
  match l with
  | [] => None
  | (s, id) :: l' => if bool_decide (to_bytes s = str) then Some id else find_keyword l' str
  end.

Lemma find_keyword_None l str : find_keyword l str = None → ∀ s id, (s, id) ∈ l → to_bytes s ≠ str.
Proof.
  induction l as [|[s id] l IH]; simpl; [by intros _ s id ?%elem_of_nil|].
  case_bool_decide; [done|]. intros Hn s' id' [[= -> ->]|Hin]%elem_of_cons; [done|]. by eapply IH.
Qed.

Lemma find_keyword_Some l str id : find_keyword l str = Some id →
  ∃ s, (s, id) ∈ l ∧ str = to_bytes s.
Proof.
  induction l as [|[s id'] l IH]; simpl; [done|]. case_bool_decide.
  - intros [= ->]. exists s. split; [by left|done].
  - intros (s' & ? & ?)%IH. exists s'. split; [by right|done].
Qed.

(** Every keyword hashes to its own place. *)
Lemma keywords_hash :
  Forall (λ k, in_word_set (to_bytes k.1) (Z.of_nat (String.length k.1)) = Ok (Some k.2)) keywords.
Proof. repeat constructor. Qed.

Lemma wordlist_keywords :
  Forall (λ w, match w.2 with Some id => (w.1, id) ∈ keywords | None => True end) wordlist.
Proof.
  assert (forallb (λ w, match w.2 with
    | Some id => bool_decide ((w.1, id) ∈ keywords) | None => true end) wordlist = true) as H
    by (vm_compute; reflexivity).
  apply Is_true_eq_left, forallb_True in H. eapply Forall_impl; [exact H|].
  intros [w [id|]]; simpl; [|done]. apply bool_decide_unpack.
Qed.

Lemma asso_values_range : length asso_values = 256%nat ∧ Forall (λ v, 0 ≤ v ≤ 41) asso_values.
Proof. split; [done|]. repeat constructor; done. Qed.

Lemma asso_read c : 0 ≤ c < 256 → ∃ v, aread asso_values c = Ok v ∧ 0 ≤ v ≤ 41.
Proof.
  intros Hc. destruct asso_values_range as [Hl Hv].
  destruct (aread_lt asso_values c) as (v & E & Hi); [rewrite Hl; lia|].
  exists v. split; [done|]. exact (Forall_lookup_1 _ _ _ _ Hv Hi).
Qed.

Lemma byte_read str i : bytes str → 0 ≤ i < Z.of_nat (length str) →
  ∃ c, aread str i = Ok c ∧ 0 ≤ c < 256.
Proof.
  intros Hb Hi. destruct (aread_lt str i Hi) as (c & E & Hc). exists c. split; [done|].
  by eapply bytes_lookup.
Qed.

Lemma hash_defined str : bytes str → 6 ≤ Z.of_nat (length str) →
  ∃ key, hash str (Z.of_nat (length str)) = Ok key ∧ 0 ≤ key.
Proof.
  intros Hb Hl. unfold hash. set (len := Z.of_nat (length str)) in *.
  assert (∃ h7, (if (3 <=? len) && (len <=? 7) then Ok 0
    else c ← aread str 7; aread asso_values c) = Ok h7) as [h7 ->].
  { destruct (Z.leb_spec 3 len), (Z.leb_spec len 7); simpl; try lia; [by eexists|].
    destruct (byte_read str 7 Hb) as (c & -> & Hc); [lia|]. run.
    destruct (asso_read c Hc) as (v & -> & _). by eexists. }
  run. destruct (byte_read str 2 Hb) as (c & -> & Hc); [lia|]. run.
  destruct (asso_read c Hc) as (v & -> & _). run. eexists. split; [done|]. by apply wrap_range.
Qed.

(** The perfect hash recognises exactly the headers of its keyword list:
    for every name it returns what a search through the list returns, and
    stays within its tables. *)
Theorem in_word_set_keywords str :
  bytes str → in_word_set str (Z.of_nat (length str)) = Ok (find_keyword keywords str).
Proof.
  intros Hb. destruct (find_keyword keywords str) as [id|] eqn:E.
  - apply find_keyword_Some in E as (s & Hin & ->). rewrite to_bytes_length.
    pose proof keywords_hash as H. rewrite Forall_forall in H. exact (H _ Hin).
  - unfold in_word_set, MAX_WORD_LENGTH, MIN_WORD_LENGTH, MAX_HASH_VALUE.
    destruct (Z.leb_spec (Z.of_nat (length str)) 34), (Z.leb_spec 6 (Z.of_nat (length str)));
      simpl; try done.
    destruct (hash_defined str Hb) as (key & -> & Hk); [lia|]. run.
    destruct (Z.leb_spec key 40); [|done].
    destruct (aread_lt wordlist key) as ([s id] & -> & Hw); [simpl; lia|]. run.
    case_bool_decide as Hs; [|done]. destruct id as [id|]; [|done].
    pose proof (Forall_lookup_1 _ _ _ _ wordlist_keywords Hw) as Hin. simpl in Hin.
    by destruct (find_keyword_None _ _ E _ _ Hin).
Qed.

Lemma in_word_set_keywords_witness :
  in_word_set (to_bytes "X-CSTP-MTU") 10 = Ok (Some HEADER_CSTP_MTU) ∧
  in_word_set (to_bytes "X-CSTP-ABC") 10 = Ok None.
Proof.
  split.
  - apply (in_word_set_keywords (to_bytes "X-CSTP-MTU")). by apply (bool_decide_unpack _).
  - apply (in_word_set_keywords (to_bytes "X-CSTP-ABC")). by apply (bool_decide_unpack _).
Defined.
