(* ===== verification/HttpReq.v ===== *)
(** * HTTP requests of clients (src/worker-http.c)

    The callbacks of the HTTP parser collect the headers of a request and
    [header_value_check] acts on each of them.  The parser (src/http-parser)
    calls the callbacks; nettle's base64 decoder, GnuTLS's hex decoder and
    the parameters of the TLS session are arguments. *)

From S2P Require Import Prelude CString Html Str HttpHeads IpUtil WorkerState.

(** ** Data *)

Definition MAX_USERNAME_SIZE : nat := 64.
Definition MAX_AGENT_NAME : nat := 64.
Definition MAX_HOSTNAME_SIZE : nat := MAX_USERNAME_SIZE.
Definition TLS_MASTER_SIZE : nat := 48.
Definition SID_SIZE : nat := 32.
Definition URL_SIZE : nat := 256.

Inductive cipher := AES_128_GCM | AES_256_GCM | AES_256_CBC | AES_128_CBC | DES3_CBC | OtherCipher.
Inductive mac := AEAD | SHA1 | OtherMac.
#[global] Instance cipher_eq_dec : EqDecision cipher.
Proof. solve_decision. Defined.
#[global] Instance mac_eq_dec : EqDecision mac.
Proof. solve_decision. Defined.

Record dtls_ciphersuite_st := {
  oc_name : string;
  dtls12_mode : bool;
  server_prio : Z;
  gnutls_cipher : cipher;
  gnutls_mac : mac }.

Definition ciphersuites : list dtls_ciphersuite_st :=
  [{| oc_name := "OC-DTLS1_2-AES128-GCM"; dtls12_mode := false; server_prio := 80;
      gnutls_cipher := AES_128_GCM; gnutls_mac := AEAD |};
   {| oc_name := "OC-DTLS1_2-AES256-GCM"; dtls12_mode := false; server_prio := 90;
      gnutls_cipher := AES_256_GCM; gnutls_mac := AEAD |};
   {| oc_name := "AES256-SHA"; dtls12_mode := false; server_prio := 60;
      gnutls_cipher := AES_256_CBC; gnutls_mac := SHA1 |};
   {| oc_name := "AES128-SHA"; dtls12_mode := false; server_prio := 50;
      gnutls_cipher := AES_128_CBC; gnutls_mac := SHA1 |};
   {| oc_name := "DES-CBC3-SHA"; dtls12_mode := false; server_prio := 1;
      gnutls_cipher := DES3_CBC; gnutls_mac := SHA1 |}].

Definition ciphersuites12 : list dtls_ciphersuite_st :=
  [{| oc_name := "AES128-GCM-SHA256"; dtls12_mode := true; server_prio := 50;
      gnutls_cipher := AES_128_GCM; gnutls_mac := AEAD |};
   {| oc_name := "AES256-GCM-SHA384"; dtls12_mode := true; server_prio := 90;
      gnutls_cipher := AES_256_GCM; gnutls_mac := AEAD |}].

Record compression_method_st := {
  comp_id : comp_type_t;
  comp_name : string;
  comp_prio : Z }.

(** The table a configuration starts with. *)
Definition comp_methods0 : list compression_method_st :=
  [{| comp_id := OC_COMP_LZ4; comp_name := "oc-lz4"; comp_prio := 90 |};
   {| comp_id := OC_COMP_LZS; comp_name := "lzs"; comp_prio := 80 |}].

Inductive agent_t := AGENT_UNKNOWN | AGENT_OPENCONNECT_V3 | AGENT_OPENCONNECT | AGENT_ANYCONNECT.
Inductive header_state_t := HTTP_HEADER_INIT | HTTP_HEADER_RECV | HTTP_HEADER_VALUE_RECV.

(** [S_AUTH_*], in the order of the enumeration. *)
Inductive auth_state_t :=
| S_AUTH_INACTIVE | S_AUTH_INIT | S_AUTH_REQ | S_AUTH_COOKIE | S_AUTH_COMPLETE.
#[global] Instance auth_state_eq_dec : EqDecision auth_state_t.
Proof. solve_decision. Defined.

Definition auth_num (a : auth_state_t) : Z :=
  match a with
  | S_AUTH_INACTIVE => 0 | S_AUTH_INIT => 1 | S_AUTH_REQ => 2 | S_AUTH_COOKIE => 3
  | S_AUTH_COMPLETE => 4
  end.

(** A character array is the bytes before its terminating NUL. *)
Record http_req_st := {
  url : list Z;
  header : str_st;
  value : str_st;
  header_state : header_state_t;
  devtype : list Z;
  hostname : list Z;
  user_agent : list Z;
  user_agent_type : agent_t;
  next_header : option header_id;
  is_mobile : bool;
  spnego_set : bool;
  master_secret : list Z;
  master_secret_set : bool;
  body : option (list Z);              (* with a NUL after body_length bytes *)
  body_length : Z;
  selected_ciphersuite : option dtls_ciphersuite_st;
  use_psk : bool;
  headers_complete : bool;
  message_complete : bool;
  link_mtu : Z;
  tunnel_mtu : Z;
  no_ipv4 : bool;
  no_ipv6 : bool;
  authorization : option (list Z) }.   (* with authorization_size its length *)

Record auth_method := { auth_type : Z; enabled : bool }.

Definition AUTH_TYPE_USERNAME_PASS : Z := 1.
Definition AUTH_TYPE_CERTIFICATE : Z := 8.
Definition AUTH_TYPE_GSSAPI : Z := 64.

(** The fields of [worker_st] that requests change. *)
Record http_ws := {
  req : http_req_st;
  sid : list Z;
  sid_set : bool;
  cookie : list Z;
  cookie_set : bool;
  auth_state : auth_state_t;
  auth : list auth_method;             (* WSPCONFIG(ws)->auth *)
  selected_auth : nat;                 (* index of ws->selected_auth *)
  cert_auth_ok : bool;
  dtls_selected_comp : option compression_method_st;
  cstp_selected_comp : option compression_method_st;
  full_ipv6 : bool }.

Record http_conf := {
  dtls_legacy : bool;
  dtls_psk : bool;
  enable_compression : bool;
  comp_methods : list compression_method_st;
  tls_suite : option (cipher * mac);   (* of ws->session *)
  anyconnect_dtls12_broken : bool;     (* the check of GnuTLS's version *)
  kkdcp_urls : list (option (list Z)) }.

(** ** Helpers of the C library *)

(** [strtok] over a string: the non-empty pieces between separators. *)
Fixpoint split_on (sep : Z) (s cur : list Z) : list (list Z) :=
  match s with
  | [] => [cur]
  | c :: s' => if c =? sep then cur :: split_on sep s' [] else split_on sep s' (cur ++ [c])
  end.

Definition strtok (sep : Z) (s : list Z) : list (list Z) :=
  filter (λ t, t ≠ []) (split_on sep s []).

(** [strncasecmp(s, lit, strlen(lit)) == 0] for a C string. *)
Definition starts_ci (lit : string) (s : list Z) : bool :=
  bool_decide (c_tolower <$> take (String.length lit) s = c_tolower <$> to_bytes lit).
Definition starts (lit : string) (s : list Z) : bool :=
  bool_decide (take (String.length lit) s = to_bytes lit).

(** [strstr]: what follows the first occurrence. *)
Fixpoint strstr (s : list Z) (lit : string) : option (list Z) :=
  if starts lit s then Some (drop (String.length lit) s) else
  match s with [] => None | _ :: s' => strstr s' lit end.

Definition memmem (s : list Z) (lit : string) : bool := bool_decide (is_Some (strstr s lit)).

Definition c_atoi (s : list Z) : Z := atoi (of_bytes s).

(** Copying a string and its NUL into an array of [size] characters. *)
Definition copy_array (size : nat) (bs : list Z) : cres (list Z) :=
  if (length bs + 1 <=? size)%nat then Ok (cstr bs) else UB.

Definition BASE64_DECODE_LENGTH (n : Z) : Z := (n + 1) * 6 / 8.

(** The loop [while (tmplen > 1 && c_isspace(p[tmplen - 1])) tmplen--]: the
    spaces at the end of the reversed text go, but not its first character. *)
Fixpoint cut_spaces (rev_p : list Z) : list Z :=
  match rev_p with
  | c :: ((_ :: _) as r) => if c_isspace c then cut_spaces r else rev_p
  | _ => rev_p
  end.
Definition trim_end (p : list Z) : list Z := reverse (cut_spaces (reverse p)).

Fixpoint skip_space (p : list Z) : list Z :=
  match p with [] => [] | c :: r => if c_isspace c then skip_space r else p end.

(** [valid_hostname] (src/valid-hostname.c). *)
Definition valid_hostname (host : list Z) : bool :=
  negb (bool_decide (head host = Some 45)) && forallb (λ c, c_isalnum c || (c =? 45)) host.

(** ** Choosing an authentication method (src/worker-auth.c) *)

Definition has_type (m : auth_method) (t : Z) : bool := negb (Z.land (auth_type m) t =? 0).

Fixpoint find_method (p : nat → auth_method → bool) (ms : list auth_method) (i : nat) : option nat :=
  match ms with
  | [] => None
  | m :: ms' => if p i m then Some i else find_method p ms' (S i)
  end.

Definition selected (w : http_ws) : auth_method :=
  default {| auth_type := 0; enabled := false |} (auth w !! selected_auth w).

Definition ws_switch_auth_to (t : Z) (w : http_ws) : bool * http_ws :=
  if enabled (selected w) && has_type (selected w) t then (true, w) else
  match find_method (λ _ m, enabled m && has_type m t) (auth w) 0 with
  | Some i => (true, {| w with selected_auth := i |})
  | None => (false, w)
  end.

Definition ws_switch_auth_to_next (w : http_ws) : bool * http_ws :=
  let k := selected_auth w in
  let ms := alter (λ m, {| m with enabled := false |}) k (auth w) in
  let w := {| w with auth := ms |} in
  match find_method (λ i m, negb (i =? k)%nat && enabled m) ms 0 with
  | Some i => (true, {| w with selected_auth := i |})
  | None => (false, w)
  end.

(** ** Negotiation *)

(** The inner loop over a table of ciphersuites for one token of the client:
    the candidate and whether the search is finished. *)
Fixpoint scan_suites (want : option (cipher * mac)) (tok : list Z) (ss : list dtls_ciphersuite_st)
    (cand : option dtls_ciphersuite_st) : option dtls_ciphersuite_st * bool :=
  match ss with
  | [] => (cand, false)
  | c :: ss' =>
    let wanted := bool_decide (want = Some (gnutls_cipher c, gnutls_mac c)) in
    let better := match cand with None => true | Some k => server_prio k <? server_prio c end in
    if bool_decide (tok = to_bytes (oc_name c)) && (better || wanted) then
      if wanted then (Some c, true) else scan_suites want tok ss' (Some c)
    else scan_suites want tok ss' cand
  end.

Fixpoint select_suite (want : option (cipher * mac)) (toks : list (list Z))
    (ss : list dtls_ciphersuite_st) (cand : option dtls_ciphersuite_st) : option dtls_ciphersuite_st :=
  match toks with
  | [] => cand
  | t :: toks' =>
    let '(cand, fin) := scan_suites want t ss cand in
    if fin then cand else select_suite want toks' ss cand
  end.

Definition scan_comp (cms : list compression_method_st) (tok : list Z)
    (cand : option compression_method_st) : option compression_method_st :=
  foldl (λ cand c,
    if (c_strcasecmp (of_bytes tok) (comp_name c) =? 0) &&
       match cand with None => true | Some k => comp_prio k <? comp_prio c end
    then Some c else cand) cand cms.

Definition select_comp (cms : list compression_method_st) (toks : list (list Z))
    : option compression_method_st := foldl (λ cand t, scan_comp cms t cand) None toks.

(** [switch_comp_priority] of the configuration: whether it was understood,
    and the table. *)
Fixpoint set_prio (cms : list compression_method_st) (algo : list Z) (prio : Z)
    : option (list compression_method_st) :=
  match cms with
  | [] => None
  | c :: cms' =>
    if c_strcasecmp (of_bytes algo) (comp_name c) =? 0
    then Some ({| c with comp_prio := u32 prio |} :: cms')
    else cons c <$> set_prio cms' algo prio
  end.

Definition switch_comp_priority (mem : bool) (cms : list compression_method_st) (modstring : list Z)
    : bool * list compression_method_st :=
  if negb mem then (false, cms) else
  match strtok 58 modstring with
  | algo :: prio :: _ =>
    let p := match strtol 10 (prio ++ [0]) with Ok (v, _) => v | _ => 0 end in
    if p <=? 0 then (false, cms) else
    match set_prio cms algo p with Some cms' => (true, cms') | None => (false, cms) end
  | _ => (false, cms)
  end.

(** An indicator that is followed by the end or a colon. *)
Definition psk_indicator (str : list Z) : bool :=
  match strstr str "PSK-NEGOTIATE" with
  | Some [] => true
  | Some (c :: _) => c =? 58
  | None => false
  end.

Definition set_req (f : http_req_st → http_req_st) (w : http_ws) : http_ws :=
  {| w with req := f (req w) |}.

Definition negotiate_psk (q : http_req_st) : http_req_st :=
  {| q with use_psk := true; master_secret_set := true; selected_ciphersuite := None |}.

Definition agent_of (ua : list Z) (old : agent_t) : agent_t :=
  if starts_ci "Open AnyConnect VPN Agent v" ua then
    if u32 (c_atoi (drop 27 ua)) <=? 3 then AGENT_OPENCONNECT_V3 else AGENT_OPENCONNECT
  else if starts_ci "OpenConnect VPN Agent" ua then AGENT_OPENCONNECT
  else if starts_ci "Cisco AnyConnect" ua then AGENT_ANYCONNECT
  else if starts_ci "AnyConnect" ua then AGENT_ANYCONNECT
  else old.

Section http.
(** nettle's decoder: what it has written to the destination when it stops,
    and whether it accepted the text. *)
Context (base64_decode : list Z → list Z * bool).
(** [gnutls_hex2bin]: what the destination holds afterwards. *)
Context (hex2bin : list Z → list Z → list Z).
Context (conf : http_conf) (mem : Z → bool).

(** [oc_base64_decode] (src/common/base64-helper.c) into a buffer: the result,
    the length and the buffer. *)
Definition oc_base64_decode (src dst : list Z) : cres (bool * Z * list Z) :=
  let '(out, ok) := base64_decode src in
  dst ← poke dst 0 out;
  Ok (ok, Z.of_nat (length out), dst).

(** The two cookies the server knows; [None] stands for the [return] in the
    branch of [webvpn=]. *)
Definition cookie_token (tok : list Z) (w : http_ws) : cres (option http_ws) :=
  let p := skip_space tok in
  if starts "webvpn=" p then
    let p := trim_end (drop 7 p) in
    let nlen := BASE64_DECODE_LENGTH (Z.of_nat (length p)) in
    if (nlen <? Z.of_nat SID_SIZE) || (Z.of_nat SID_SIZE + 8 <? nlen) then Ok None else
    '(ok, n, buf) ← oc_base64_decode p (replicate (Z.to_nat BUFFER_SIZE) 0);
    Ok (Some (if negb ok || negb (n =? Z.of_nat SID_SIZE)
              then {| w with cookie_set := false |}
              else {| w with cookie := take SID_SIZE buf; auth_state := S_AUTH_COOKIE;
                             cookie_set := true |}))
  else if starts "webvpncontext=" p then
    let p := trim_end (drop 14 p) in
    '(ok, n, s) ← oc_base64_decode p (sid w);
    Ok (Some {| w with sid := s; sid_set := ok && (n =? Z.of_nat SID_SIZE) |})
  else Ok (Some w).

Fixpoint cookie_tokens (toks : list (list Z)) (w : http_ws) : cres http_ws :=
  match toks with
  | [] => Ok w
  | t :: toks' =>
    r ← cookie_token t w;
    match r with None => Ok w | Some w' => cookie_tokens toks' w' end
  end.

(** [value] is the text of the header; C string functions see it up to its
    first NUL. *)
Definition header_value (h : header_id) (value : list Z) (w : http_ws) : cres http_ws :=
  let q := req w in
  let str := cstr value in
  match h with
  | HEADER_MASTER_SECRET =>
    if use_psk q || negb (dtls_legacy conf) then Ok w else
    if (length value <? TLS_MASTER_SIZE * 2)%nat
    then Ok (set_req (λ q, {| q with master_secret_set := false |}) w) else
    let m := hex2bin (take (TLS_MASTER_SIZE * 2) value) (master_secret q) in
    Ok (set_req (λ q, {| q with master_secret := m; master_secret_set := true |}) w)
  | HEADER_HOSTNAME =>
    if (MAX_HOSTNAME_SIZE <? length value + 1)%nat
    then Ok (set_req (λ q, {| q with hostname := [] |}) w) else
    h ← copy_array MAX_HOSTNAME_SIZE value;
    Ok (set_req (λ q, {| q with hostname := if valid_hostname h then h else [] |}) w)
  | HEADER_DEVICE_TYPE =>
    if (MAX_AGENT_NAME <? length value + 1)%nat
    then Ok (set_req (λ q, {| q with devtype := [] |}) w) else
    d ← copy_array MAX_AGENT_NAME value;
    Ok (set_req (λ q, {| q with devtype := d |}) w)
  | HEADER_PLATFORM =>
    if starts_ci "apple-ios" str || starts_ci "android" str
    then Ok (set_req (λ q, {| q with is_mobile := true |}) w) else Ok w
  | HEADER_SUPPORT_SPNEGO =>
    if has_type (selected w) AUTH_TYPE_CERTIFICATE && cert_auth_ok w then Ok w else
    let '(_, w) := ws_switch_auth_to AUTH_TYPE_GSSAPI w in
    Ok (set_req (λ q, {| q with spnego_set := true |}) w)
  | HEADER_AUTHORIZATION =>
    Ok (set_req (λ q, {| q with authorization := Some value |}) w)
  | HEADER_USER_AGENT =>
    ua ← copy_array MAX_AGENT_NAME
           (if (MAX_AGENT_NAME <? length value + 1)%nat then take (MAX_AGENT_NAME - 1) value
            else value);
    Ok (set_req (λ q, {| q with user_agent := ua;
                                user_agent_type := agent_of ua (user_agent_type q) |}) w)
  | HEADER_DTLS_CIPHERSUITE =>
    if use_psk q || negb (dtls_legacy conf) then Ok w else
    if psk_indicator str && dtls_psk conf then Ok (set_req negotiate_psk w) else
    if bool_decide (is_Some (selected_ciphersuite q)) then Ok w else
    let cand := select_suite (tls_suite conf) (strtok 58 str) ciphersuites None in
    Ok (set_req (λ q, {| q with selected_ciphersuite := cand |}) w)
  | HEADER_DTLS12_CIPHERSUITE =>
    if use_psk q || negb (dtls_legacy conf) then Ok w else
    if (match user_agent_type q with AGENT_ANYCONNECT => true | _ => false end) &&
       anyconnect_dtls12_broken conf then Ok w else
    if psk_indicator str && dtls_psk conf then Ok (set_req negotiate_psk w) else
    let cand := select_suite (tls_suite conf) (strtok 58 str) ciphersuites12 None in
    Ok (set_req (λ q, {| q with selected_ciphersuite :=
      match cand with None => selected_ciphersuite q | Some _ => cand end |}) w)
  | HEADER_DTLS_ENCODING =>
    if negb (enable_compression conf) then Ok w else
    Ok {| w with dtls_selected_comp := select_comp (comp_methods conf) (strtok 44 str) |}
  | HEADER_CSTP_ENCODING =>
    if negb (enable_compression conf) then Ok w else
    Ok {| w with cstp_selected_comp := select_comp (comp_methods conf) (strtok 44 str) |}
  | HEADER_CSTP_BASE_MTU => Ok (set_req (λ q, {| q with link_mtu := u32 (c_atoi str) |}) w)
  | HEADER_CSTP_MTU => Ok (set_req (λ q, {| q with tunnel_mtu := u32 (c_atoi str) |}) w)
  | HEADER_CSTP_ATYPE =>
    Ok (set_req (λ q, {| q with no_ipv4 := no_ipv4 q || negb (memmem value "IPv4");
                                no_ipv6 := no_ipv6 q || negb (memmem value "IPv6") |}) w)
  | HEADER_FULL_IPV6 =>
    Ok (if memmem value "true" then {| w with full_ipv6 := true |} else w)
  | HEADER_COOKIE =>
    if auth_num S_AUTH_COOKIE <? auth_num (auth_state w) then Ok w
    else cookie_tokens (strtok 59 str) w
  | HEADER_CONNECTION => Ok w
  end.

Definition header_value_check (w : http_ws) : cres http_ws :=
  if len (value (req w)) <=? 0 then Ok w else
  if negb (mem (u64 (len (value (req w)) + 1))) then Ok w else
  v ← contents (value (req w));
  match next_header (req w) with
  | None => Ok w
  | Some h => header_value h v w
  end.

(** ** Callbacks of the parser

    The result is that of the C function; the parser stops when it is not 0. *)

Definition http_url_cb (at_ : list Z) (w : http_ws) : cres (Z * http_ws) :=
  if (URL_SIZE <=? length at_)%nat then Ok (1, set_req (λ q, {| q with url := [] |}) w) else
  u ← copy_array URL_SIZE at_;
  Ok (0, set_req (λ q, {| q with url := u |}) w).

Definition is_recv (s : header_state_t) : bool :=
  match s with HTTP_HEADER_RECV => true | _ => false end.
Definition is_value_recv (s : header_state_t) : bool :=
  match s with HTTP_HEADER_VALUE_RECV => true | _ => false end.

Definition http_header_field_cb (at_ : list Z) (w : http_ws) : cres (Z * http_ws) :=
  w ← (if is_recv (header_state (req w)) then Ok w else
       w ← (if is_value_recv (header_state (req w)) then header_value_check w else Ok w);
       Ok (set_req (λ q, {| q with header_state := HTTP_HEADER_RECV;
                                   header := str_reset (header q) |}) w));
  '(ret, s) ← str_append_data mem (header (req w)) at_;
  Ok (if ret <? 0 then ret else 0, set_req (λ q, {| q with header := s |}) w).

Definition header_check (q : http_req_st) : cres http_req_st :=
  n ← (if len (header q) =? 0 then Ok [] else contents (header q));
  r ← in_word_set n (len (header q));
  Ok {| q with next_header := r |}.

Definition http_header_value_cb (at_ : list Z) (w : http_ws) : cres (Z * http_ws) :=
  w ← (if is_value_recv (header_state (req w)) then Ok w else
       q ← header_check (req w);
       Ok {| w with req := {| q with header_state := HTTP_HEADER_VALUE_RECV;
                                     value := str_reset (value q) |} |});
  '(ret, s) ← str_append_data mem (value (req w)) at_;
  Ok (if ret <? 0 then ret else 0, set_req (λ q, {| q with value := s |}) w).

Definition http_header_complete_cb (w : http_ws) : cres (Z * http_ws) :=
  w ← header_value_check w;
  let w := if has_type (selected w) AUTH_TYPE_GSSAPI &&
              bool_decide (auth_state w = S_AUTH_INACTIVE) && negb (spnego_set (req w))
           then (ws_switch_auth_to_next w).2 else w in
  Ok (0, set_req (λ q, {| q with headers_complete := true |}) w).

Definition http_message_complete_cb (w : http_ws) : cres (Z * http_ws) :=
  Ok (0, set_req (λ q, {| q with message_complete := true |}) w).

Definition http_body_cb (at_ : list Z) (w : http_ws) : cres (Z * http_ws) :=
  let q := req w in
  if negb (mem (u64 (body_length q + Z.of_nat (length at_) + 1))) then Ok (1, w) else
  let old := take (Z.to_nat (body_length q)) (default [] (body q)) in
  if (length old <? Z.to_nat (body_length q))%nat then UB else
  Ok (0, set_req (λ q, {| q with body := Some (old ++ at_ ++ [0]);
                                 body_length := u32 (body_length q + Z.of_nat (length at_)) |}) w).

Definition http_req_init (w : http_ws) : http_ws :=
  set_req (λ q, {| q with header := str_init; value := str_init |}) w.

Definition http_req_reset (w : http_ws) : http_ws :=
  set_req (λ q, {| q with headers_complete := false; message_complete := false; body_length := 0;
                          spnego_set := false; url := []; header_state := HTTP_HEADER_INIT;
                          header := str_reset (header q); value := str_reset (value q) |}) w.

Definition http_req_deinit (w : http_ws) : http_ws :=
  set_req (λ q, {| q with header := str_clear (header q); value := str_clear (value q);
                          body := None |}) (http_req_reset w).

(** ** Handlers for URLs *)

Inductive handler :=
| get_auth_handler | post_auth_handler | get_cert_handler | get_cert_der_handler
| get_ca_handler | get_ca_der_handler | get_config_handler | get_empty_handler
| get_dl_handler | get_string_handler | post_kkdcp_handler.

Record known_urls_st := {
  known_url : string;
  partial_match : bool;
  get_handler : handler;
  post_handler : option handler }.

Definition LL (u : string) (g : handler) (p : option handler) : known_urls_st :=
  {| known_url := u; partial_match := false; get_handler := g; post_handler := p |}.

Definition known_urls : list known_urls_st :=
  [LL "/" get_auth_handler (Some post_auth_handler);
   LL "/auth" get_auth_handler (Some post_auth_handler);
   LL "/VPN" get_auth_handler (Some post_auth_handler);
   LL "/cert.pem" get_cert_handler None;
   LL "/cert.cer" get_cert_der_handler None;
   LL "/ca.pem" get_ca_handler None;
   LL "/ca.cer" get_ca_der_handler None;
   {| known_url := "/profiles"; partial_match := true; get_handler := get_config_handler;
      post_handler := None |};
   LL "/1/index.html" get_empty_handler None;
   LL "/1/Linux" get_empty_handler None;
   LL "/1/Linux_64" get_empty_handler None;
   LL "/1/Windows" get_empty_handler None;
   LL "/1/Darwin_i386" get_empty_handler None;
   LL "/1/binaries/vpndownloader.sh" get_dl_handler None;
   LL "/1/VPNManifest.xml" get_string_handler None;
   LL "/1/binaries/update.txt" get_string_handler None;
   LL "/+CSCOT+/" get_string_handler None;
   LL "/logout" get_empty_handler None].

(** The condition of the loop of [http_get_url_handler]. *)
Definition get_matches (u : list Z) (p : known_urls_st) : bool :=
  let k := to_bytes (known_url p) in
  bool_decide (u = k) ||
  (bool_decide (take (length k) u = k) &&
   (partial_match p || match drop (length k) u with c :: _ => (c =? 47) || (c =? 63) | [] => false end)).

Fixpoint find_url (f : known_urls_st → bool) (l : list known_urls_st) : option known_urls_st :=
  match l with [] => None | p :: l' => if f p then Some p else find_url f l' end.

Definition http_get_url_handler (u : list Z) : option handler :=
  get_handler <$> find_url (get_matches u) known_urls.

Definition http_post_url_handler (u : list Z) : option handler :=
  match find_url (λ p, bool_decide (to_bytes (known_url p) = u)) known_urls with
  | Some p => post_handler p
  | None => if bool_decide (Some u ∈ kkdcp_urls conf) then Some post_kkdcp_handler else None
  end.

End http.
