(* ===== verification/HttpSafety.v ===== *)
(** * HTTP requests: safety of the headers, negotiations

    Every header but one is handled within its buffers for every value; a
    long [webvpncontext] cookie writes beyond [ws->sid].  The ciphersuite of
    a client is the best one it offers. *)

From S2P Require Import Prelude CString Html Str StrSpec HttpHeads IpUtil WorkerState HttpReq HttpReqSpec.

(** ** Negotiation of ciphersuites *)

Section suites.
Context (want : option (cipher * mac)).

Definition wanted (c : dtls_ciphersuite_st) : Prop := want = Some (gnutls_cipher c, gnutls_mac c).

(** The candidate after some offers: one of the best of them, none of which
    matches the TLS session. *)
Definition best (cand : option dtls_ciphersuite_st) (seen : dtls_ciphersuite_st → Prop) : Prop :=
  (∀ c, seen c → ¬ wanted c) ∧
  match cand with
  | None => ∀ c, ¬ seen c
  | Some k => seen k ∧ ∀ c, seen c → server_prio c ≤ server_prio k
  end.

Lemma best_ext cand P Q : (∀ c, P c ↔ Q c) → best cand P → best cand Q.
Proof.
  intros H [H1 H2]. split; [intros c; rewrite <- H; apply H1|]. destruct cand as [k|].
  - destruct H2 as [? H2]. split; [by apply H|]. intros c. rewrite <- H. apply H2.
  - intros c. rewrite <- H. apply H2.
Qed.

Lemma scan_suites_best tok ss cand seen : best cand seen →
  match scan_suites want tok ss cand with
  | (r, true) => ∃ k, r = Some k ∧ k ∈ ss ∧ tok = to_bytes (oc_name k) ∧ wanted k
  | (r, false) => best r (λ c, seen c ∨ c ∈ ss ∧ tok = to_bytes (oc_name c))
  end.
Proof.
  revert cand seen. induction ss as [|c ss IH]; intros cand seen Hb; simpl.
  { eapply best_ext; [|exact Hb]. intros c. split; [by left|]. intros [?|[?%elem_of_nil _]]; done. }
  assert (∀ cand', best cand' (λ c', seen c' ∨ c' = c ∧ tok = to_bytes (oc_name c)) →
    match scan_suites want tok ss cand' with
    | (r, true) => ∃ k, r = Some k ∧ k ∈ c :: ss ∧ tok = to_bytes (oc_name k) ∧ wanted k
    | (r, false) => best r (λ c', seen c' ∨ c' ∈ c :: ss ∧ tok = to_bytes (oc_name c'))
    end) as Hrest.
  { intros cand' Hb'. specialize (IH cand' _ Hb'). destruct (scan_suites want tok ss cand') as [r []].
    - destruct IH as (k & ? & ? & ? & ?). exists k. split_and!; try done. by right.
    - eapply best_ext; [|exact IH]. intros c'. cbv beta. rewrite elem_of_cons. naive_solver. }
  case_bool_decide as Ht; [|apply Hrest; eapply best_ext; [|exact Hb]; naive_solver]. cbn [andb].
  case_bool_decide as Hw.
  { rewrite orb_true_r. exists c. split_and!; [done|by left|done|done]. }
  rewrite orb_false_r. destruct Hb as [Hnw Hc]. destruct cand as [k|].
  - destruct Hc as [Hk Hmax]. destruct (Z.ltb_spec (server_prio k) (server_prio c)); apply Hrest.
    + split; [naive_solver|]. split; [naive_solver|]. intros c' [Hc'|[-> _]]; [|done].
      specialize (Hmax _ Hc'). lia.
    + split; [naive_solver|]. split; [naive_solver|]. intros c' [Hc'|[-> _]]; [auto|done].
  - apply Hrest. split; [naive_solver|]. split; [naive_solver|]. intros c' [Hc'|[-> _]]; [|done].
    by destruct (Hc c').
Qed.

Definition offered (toks : list (list Z)) (c : dtls_ciphersuite_st) : Prop :=
  to_bytes (oc_name c) ∈ toks.

Lemma select_suite_best toks ss cand seen : best cand seen → (∀ c, seen c → c ∈ ss) →
  match select_suite want toks ss cand with
  | None => ∀ c, c ∈ ss → ¬ seen c ∧ ¬ offered toks c
  | Some k => k ∈ ss ∧ (seen k ∨ offered toks k) ∧
      (wanted k ∨ ∀ c, c ∈ ss → seen c ∨ offered toks c →
         ¬ wanted c ∧ server_prio c ≤ server_prio k)
  end.
Proof.
  revert cand seen. induction toks as [|t toks IH]; intros cand seen Hb Hs; simpl.
  - destruct Hb as [Hnw Hc]. destruct cand as [k|].
    + destruct Hc as [Hk Hm]. split_and!; [auto|by left|]. right. intros c _ [?|?%elem_of_nil]; [auto|done].
    + intros c _. split; [auto|]. by intros ?%elem_of_nil.
  - pose proof (scan_suites_best t ss cand seen Hb) as Hsc.
    destruct (scan_suites want t ss cand) as [r []].
    + destruct Hsc as (k & -> & Hk & -> & Hw). split_and!; [done|right; by left|by left].
    + specialize (IH r _ Hsc ltac:(naive_solver)). destruct (select_suite want toks ss r) as [k|].
      * destruct IH as (Hk & Ho & Hm). unfold offered in *. setoid_rewrite elem_of_cons.
        split_and!; [done|naive_solver|]. destruct Hm as [?|Hm]; [by left|right].
        intros c Hc Hoc. apply Hm; naive_solver.
      * intros c Hc. specialize (IH c Hc). unfold offered in *. rewrite elem_of_cons. naive_solver.
Qed.

End suites.

(** The DTLS ciphersuite of a session is one the client offers: one that
    matches its TLS session if it offers such a one, and otherwise one of the
    highest priority among its offers; there is none only if nothing it
    offers is supported. *)
Theorem ciphersuite_negotiated want toks ss :
  match select_suite want toks ss None with
  | None => ∀ c, c ∈ ss → ¬ offered toks c
  | Some k => k ∈ ss ∧ offered toks k ∧
      (wanted want k ∨ ∀ c, c ∈ ss → offered toks c →
         ¬ wanted want c ∧ server_prio c ≤ server_prio k)
  end.
Proof.
  assert (best want None (λ _, False)) as Hb by (split; intros ? []).
  pose proof (select_suite_best want toks ss None _ Hb) as H.
  destruct (select_suite want toks ss None) as [k|].
  - destruct H as (? & ? & ?); [intros ? []|]. naive_solver.
  - intros c Hc. eapply H; [intros ? []|done].
Qed.

(** ** Safety *)

Record http_ok (w : http_ws) : Prop := {
  ok_url : (length (url (req w)) < URL_SIZE)%nat;
  ok_devtype : (length (devtype (req w)) < MAX_AGENT_NAME)%nat;
  ok_hostname : (length (hostname (req w)) < MAX_HOSTNAME_SIZE)%nat;
  ok_valid : valid_hostname (hostname (req w)) = true;
  ok_agent : (length (user_agent (req w)) < MAX_AGENT_NAME)%nat;
  ok_master : length (master_secret (req w)) = TLS_MASTER_SIZE;
  ok_sid : length (sid w) = SID_SIZE;
  ok_cookie : length (cookie w) = SID_SIZE }.

Section safety.
Context (base64_decode : list Z → list Z * bool) (hex2bin : list Z → list Z → list Z).
Context (conf : http_conf).

(** What nettle documents of the room its decoder needs, and GnuTLS of
    [gnutls_hex2bin]. *)
Context (base64_room : ∀ src,
  Z.of_nat (length (base64_decode src).1) ≤ BASE64_DECODE_LENGTH (Z.of_nat (length src))).
Context (hex2bin_room : ∀ src old, length old = TLS_MASTER_SIZE →
  length (hex2bin src old) = TLS_MASTER_SIZE).

Abbreviation hv := (header_value base64_decode hex2bin conf).

(** A session identifier in a cookie decodes to 32 bytes at most. *)
Definition sid_fits (tok : list Z) : Prop :=
  ∀ p, skip_space tok = to_bytes "webvpncontext=" ++ p →
    (length (base64_decode (trim_end p)).1 ≤ SID_SIZE)%nat.

Lemma cstr_length l : (length (cstr l) ≤ length l)%nat.
Proof. induction l as [|c l IH]; simpl; [done|]. destruct (c =? 0); simpl; lia. Qed.

Lemma copy_array_Ok n l : (length l < n)%nat →
  copy_array n l = Ok (cstr l) ∧ (length (cstr l) < n)%nat.
Proof.
  intros. unfold copy_array. destruct (Nat.leb_spec (length l + 1) n); [|lia].
  split; [done|]. pose proof (cstr_length l). lia.
Qed.

Lemma decode_Ok src dst : (length (base64_decode src).1 ≤ length dst)%nat →
  ∃ ok n dst', oc_base64_decode base64_decode src dst = Ok (ok, n, dst') ∧ length dst' = length dst.
Proof.
  intros Hl. unfold oc_base64_decode. destruct (base64_decode src) as [out ok]. simpl in *.
  destruct (poke_Ok dst out 0) as (d & -> & Hd & _); [lia|]. run. by eexists _, _, _.
Qed.

Lemma cookie_token_safe t w : http_ok w → sid_fits t →
  ∃ r, cookie_token base64_decode t w = Ok r ∧ match r with Some w' => http_ok w' | None => True end.
Proof.
  intros Hw Hf. unfold cookie_token. destruct (starts "webvpn=" _).
  - set (p := trim_end _). destruct (_ || _) eqn:E; [by eexists|].
    apply orb_false_iff in E as [_ E]. apply Z.ltb_ge in E.
    pose proof (base64_room p) as Hroom.
    destruct (decode_Ok p (replicate (Z.to_nat BUFFER_SIZE) 0)) as (ok & n & d & -> & Hd).
    { rewrite length_replicate. unfold BUFFER_SIZE, SID_SIZE in *. lia. }
    run. eexists. split; [done|]. destruct Hw. destruct (_ || _); constructor; try done.
    simpl. rewrite length_take, Hd, length_replicate. unfold BUFFER_SIZE, SID_SIZE. lia.
  - destruct (starts "webvpncontext=" _) eqn:E; [|by eexists].
    apply bool_decide_eq_true in E. set (p := drop 14 (skip_space t)).
    assert (skip_space t = to_bytes "webvpncontext=" ++ p) as Hp.
    { subst p. rewrite <- E. by rewrite take_drop. }
    destruct (decode_Ok (trim_end p) (sid w)) as (ok & n & d & -> & Hd).
    { rewrite (ok_sid _ Hw). by apply Hf. }
    run. eexists. split; [done|]. destruct Hw. constructor; try done. simpl. congruence.
Qed.

Lemma cookie_tokens_safe toks w : http_ok w → Forall sid_fits toks →
  ∃ w', cookie_tokens base64_decode toks w = Ok w' ∧ http_ok w'.
Proof.
  intros Hw Hf. revert w Hw. induction Hf as [|t toks Ht _ IH]; intros w Hw; simpl; [by eauto|].
  destruct (cookie_token_safe t w Hw Ht) as (r & -> & Hr). run. destruct r as [w'|]; [by apply IH|by eauto].
Qed.

(** C14: Handling a header stays within the buffers of the request for every
    value the client may send, except for a session identifier in a cookie
    that is too long; the host name a client asks for is valid or dropped. *)
Theorem header_value_safe h v w :
  http_ok w → (h = HEADER_COOKIE → Forall sid_fits (strtok 59 (cstr v))) →
  ∃ w', hv h v w = Ok w' ∧ http_ok w'.
Proof.
  intros Hw Hf. destruct h; unfold header_value; cbn zeta;
    try (repeat case_match; eexists; (split; [done|]); destruct Hw; by constructor).
  - destruct (_ <? _); [by eauto|]. apply cookie_tokens_safe; auto.
  - repeat case_match; eexists; (split; [done|]); destruct Hw; constructor; try done. simpl. auto.
  - destruct (Nat.ltb_spec MAX_HOSTNAME_SIZE (length v + 1)).
    { eexists. split; [done|]. destruct Hw. constructor; try done; simpl; unfold MAX_HOSTNAME_SIZE, MAX_USERNAME_SIZE; lia. }
    destruct (copy_array_Ok MAX_HOSTNAME_SIZE v) as [-> Hc]; [lia|]. run. eexists. split; [done|].
    destruct Hw. constructor; try done; simpl; destruct (valid_hostname (cstr v)) eqn:E; try done.
    simpl. unfold MAX_HOSTNAME_SIZE, MAX_USERNAME_SIZE. lia.
  - destruct (Nat.ltb_spec MAX_AGENT_NAME (length v + 1)).
    { eexists. split; [done|]. destruct Hw. constructor; try done; simpl; unfold MAX_AGENT_NAME; lia. }
    destruct (copy_array_Ok MAX_AGENT_NAME v) as [-> Hc]; [lia|]. run. eexists. split; [done|].
    destruct Hw. by constructor.
  - destruct (copy_array_Ok MAX_AGENT_NAME (if (MAX_AGENT_NAME <? length v + 1)%nat
      then take (MAX_AGENT_NAME - 1) v else v)) as [-> Hc].
    { destruct (Nat.ltb_spec MAX_AGENT_NAME (length v + 1)); [|lia].
      rewrite length_take. unfold MAX_AGENT_NAME in *. lia. }
    run. eexists. split; [done|]. destruct Hw. by constructor.
  - destruct (_ && _); [by eauto|]. unfold ws_switch_auth_to. destruct (_ && _).
    + eexists. split; [done|]. destruct Hw. by constructor.
    + destruct (find_method _ _ _); eexists; (split; [done|]); destruct Hw; by constructor.
Qed.

(** ** A session identifier that is too long *)

Lemma split_on_plain sep s cur : sep ∉ s → split_on sep s cur = [cur ++ s].
Proof.
  revert cur. induction s as [|c s IH]; intros cur Hs; simpl; [by rewrite app_nil_r|].
  apply not_elem_of_cons in Hs as [Hc Hs]. destruct (Z.eqb_spec c sep) as [->|]; [done|].
  rewrite IH by done. by rewrite <- (assoc_L (++)).
Qed.

Lemma strtok_one sep s : sep ∉ s → s ≠ [] → strtok sep s = [s].
Proof.
  intros Hs Hn. unfold strtok. rewrite split_on_plain by done. by rewrite filter_cons_True.
Qed.

Lemma cstr_plain s : 0 ∉ s → cstr s = s.
Proof.
  induction s as [|c s IH]; intros Hs; simpl; [done|]. apply not_elem_of_cons in Hs as [? Hs].
  destruct (Z.eqb_spec c 0) as [->|]; [done|]. by rewrite IH.
Qed.

Lemma context_chars : (0 ∉ to_bytes "webvpncontext=") ∧ (59 ∉ to_bytes "webvpncontext=").
Proof. split; by apply (bool_decide_unpack _). Qed.

(** C40: A [webvpncontext] cookie that decodes to more than 32 bytes is written
    beyond [ws->sid], before any authentication. *)
Theorem long_context_overflows p w :
  length (sid w) = SID_SIZE → auth_num (auth_state w) ≤ auth_num S_AUTH_COOKIE →
  0 ∉ p → 59 ∉ p → (SID_SIZE < length (base64_decode (trim_end p)).1)%nat →
  hv HEADER_COOKIE (to_bytes "webvpncontext=" ++ p) w = UB.
Proof.
  intros Hsid Ha H0 Hsep Hlong. unfold header_value. cbn zeta.
  destruct (Z.ltb_spec (auth_num S_AUTH_COOKIE) (auth_num (auth_state w))); [lia|].
  rewrite cstr_plain.
  2: { rewrite elem_of_app. intros [Hin|]; [|done]. by apply (proj1 context_chars). }
  rewrite strtok_one; [| |done].
  2: { rewrite elem_of_app. intros [Hin|]; [|done]. by apply (proj2 context_chars). }
  cbn [cookie_tokens]. unfold cookie_token.
  assert (skip_space (to_bytes "webvpncontext=" ++ p) = to_bytes "webvpncontext=" ++ p) as -> by done.
  assert (starts "webvpn=" (to_bytes "webvpncontext=" ++ p) = false) as -> by done.
  assert (starts "webvpncontext=" (to_bytes "webvpncontext=" ++ p) = true) as -> by done.
  assert (drop 14 (to_bytes "webvpncontext=" ++ p) = p) as -> by done.
  unfold oc_base64_decode. destruct (base64_decode (trim_end p)) as [out ok]. simpl in Hlong.
  unfold poke. destruct (Nat.leb_spec (0 + length out) (length (sid w))); [lia|]. done.
Qed.

(** ** Authentication state *)

Lemma cookie_tokens_auth toks w w' : cookie_tokens base64_decode toks w = Ok w' →
  auth_state w' = auth_state w ∨ auth_state w' = S_AUTH_COOKIE.
Proof.
  revert w. induction toks as [|t toks IH]; intros w; simpl; [naive_solver|].
  assert (∀ w1, cookie_token base64_decode t w = Ok (Some w1) →
    auth_state w1 = auth_state w ∨ auth_state w1 = S_AUTH_COOKIE) as Ht.
  { intros w1. unfold cookie_token. destruct (starts "webvpn=" _).
    - destruct (_ || _); [done|]. destruct (oc_base64_decode _ _ _) as [[[ok n] d]| | |]; try done.
      simpl. destruct (_ || _); intros [= <-]; auto.
    - destruct (starts "webvpncontext=" _); [|intros [= ->]; auto].
      destruct (oc_base64_decode _ _ _) as [[[ok n] d]| | |]; try done. intros [= <-]. auto. }
  destruct (cookie_token base64_decode t w) as [[w1|]| | |]; try done; simpl; [|intros [= ->]; auto].
  intros E. destruct (IH _ E) as [->|]; auto.
Qed.

(** A header leaves the authentication state alone or moves it to
    [S_AUTH_COOKIE], never beyond. *)
Lemma header_value_auth h v w w' : hv h v w = Ok w' →
  auth_state w' = auth_state w ∨
  auth_state w' = S_AUTH_COOKIE ∧ auth_num (auth_state w) ≤ auth_num S_AUTH_COOKIE.
Proof.
  destruct h; unfold header_value, set_req; cbn zeta;
    try (repeat case_match; intros [= <-]; by left).
  - destruct (Z.ltb_spec (auth_num S_AUTH_COOKIE) (auth_num (auth_state w))); [intros [= <-]; by left|].
    intros [?|?]%cookie_tokens_auth; auto.
  - destruct (_ <? _)%nat; [intros [= <-]; by left|]. destruct (copy_array _ _); try done.
    intros [= <-]. by left.
  - destruct (_ <? _)%nat; [intros [= <-]; by left|]. destruct (copy_array _ _); try done.
    intros [= <-]. by left.
  - destruct (copy_array _ _); try done. intros [= <-]. by left.
  - destruct (_ && _); [intros [= <-]; by left|]. unfold ws_switch_auth_to. destruct (_ && _); [|destruct (find_method _ _ _)];
      intros [= <-]; by left.
Qed.

End safety.

(** ** Examples *)

Module HttpSafetyWitnesses.
Import HttpWitnesses.

Lemma header_value_safe_witness : ∃ w',
  header_value (λ _, ([], false)) (λ _ old, old) http_conf0 HEADER_HOSTNAME
    (to_bytes "client.example.com") hw0 = Ok w' ∧ http_ok w'.
Proof.
  apply (header_value_safe (λ _, ([], false)) (λ _ old, old) http_conf0).
  - intros src. unfold BASE64_DECODE_LENGTH. cbn [fst length]. apply Z.div_pos; lia.
  - by intros src old E.
  - constructor; simpl; unfold URL_SIZE, MAX_HOSTNAME_SIZE, MAX_USERNAME_SIZE, MAX_AGENT_NAME, SID_SIZE,
      TLS_MASTER_SIZE; lia || done.
  - discriminate.
Defined.

Lemma long_context_overflows_witness :
  header_value (λ _, (replicate 33 65, true)) (λ _ old, old) http_conf0 HEADER_COOKIE
    (to_bytes "webvpncontext=" ++ to_bytes "QUFBQUFBQUFBQUFBQUFBQUFBQUFBQUFBQUFBQUFBQUFB") hw0 = UB.
Proof.
  apply (long_context_overflows (λ _, (replicate 33 65, true)) (λ _ old, old) http_conf0).
  - reflexivity.
  - simpl. lia.
  - by apply (bool_decide_unpack _).
  - by apply (bool_decide_unpack _).
  - simpl. unfold SID_SIZE. lia.
Defined.

End HttpSafetyWitnesses.
