(* ===== verification/LoginParse.v ===== *)
(** * Fields of a login form (src/worker-auth.c)

    [parse_reply] and [match_password_in_reply] search the body of a POST
    request, a block of [body_length] bytes and a NUL, for a field and decode
    it.  A pointer is what the block still holds from there on. *)

From S2P Require Import Prelude CString Html HtmlSpec HttpReq.

(** ** Searching *)

(** [strcasestr]: the text from the first occurrence on. *)
Fixpoint strcasestr (lit p : list Z) : cres (option (list Z)) :=
  match p with
  | [] => UB
  | c :: p' =>
    b ← matches_ci lit p;
    if (b : bool) then Ok (Some p) else if c =? 0 then Ok None else strcasestr lit p'
  end.

Fixpoint strchr_ptr (ch : Z) (p : list Z) : cres (option (list Z)) :=
  match p with
  | [] => UB
  | c :: p' => if c =? ch then Ok (Some p) else if c =? 0 then Ok None else strchr_ptr ch p'
  end.

(** [while ( *p != 0) { if (stop) break; p++; len++; }]: the number of bytes. *)
Fixpoint count_until (stop : list Z → cres bool) (p : list Z) : cres nat :=
  match p with
  | [] => UB
  | c :: p' =>
    if c =? 0 then Ok O else
    b ← stop p;
    if (b : bool) then Ok O else n ← count_until stop p'; Ok (S n)
  end.

(** [*p == '<' && *(p+1) == '/']. *)
Definition at_close (p : list Z) : cres bool :=
  c ← deref p;
  if c =? 60 then d ← aread p 1; Ok (d =? 47) else Ok false.

Definition at_amp (p : list Z) : cres bool := c ← deref p; Ok (c =? 38).

(** [*p == '<' && strncasecmp(p, tag, strlen(tag)) == 0]. *)
Definition at_tag (tag p : list Z) : cres bool :=
  c ← deref p; if c =? 60 then matches_ci tag p else Ok false.

(** [snprintf] into an array of 64 characters. *)
Definition temp64 (t : list Z) : list Z := take 63 t.

Section parse.
Context (wcrtomb : Z → option (list Z)) (mem : bool).

(** The value of [len] bytes at [p]; [None] is the result -1. *)
Definition take_value (xml : bool) (p : list Z) (n : nat) : cres (option (list Z)) :=
  if (n =? 0)%nat then Ok (if mem then Some [] else None)
  else if xml then unescape_html wcrtomb mem p (Z.of_nat n)
  else unescape_url mem p (Z.of_nat n).

Definition is_xml (body : list Z) (body_length : nat) : bool := memmem (take body_length body) "<?xml".

Definition match_password_in_reply (body : option (list Z)) (body_length : nat)
    : cres (option (list Z)) :=
  match body with
  | None => Ok None
  | Some body =>
    if (body_length =? 0)%nat then Ok None else
    if is_xml body body_length then
      v ← strcasestr (to_bytes "<password") body;
      v ← match v with Some _ => Ok v | None => strcasestr (to_bytes "_password>") body end;
      match v with
      | None => Ok None
      | Some v =>
        p ← strchr_ptr 62 v;
        match p with
        | None => Ok None
        | Some p => let v := drop 1 p in n ← count_until at_close v; take_value true v n
        end
      end
    else
      v ← strcasestr (to_bytes "password") body;
      match v with
      | None => Ok None
      | Some v =>
        p ← strchr_ptr 61 v;
        match p with
        | None => Ok None
        | Some p => let v := drop 1 p in n ← count_until at_amp v; take_value false v n
        end
      end
  end.

Definition parse_reply (body : option (list Z)) (body_length : nat) (field : string)
    (xml_field : option string) : cres (option (list Z)) :=
  match body with
  | None => Ok None
  | Some body =>
    if (body_length =? 0)%nat then Ok None else
    if is_xml body body_length then
      let field := default field xml_field in
      let temp1 := temp64 (to_bytes "<" ++ to_bytes field ++ to_bytes ">") in
      let temp2 := temp64 (to_bytes "</" ++ to_bytes field ++ to_bytes ">") in
      v ← strcasestr temp1 body;
      match v with
      | None => Ok None
      | Some v =>
        let v := drop (length temp1) v in
        n ← count_until (at_tag temp2) v;
        take_value true v n
      end
    else
      let temp1 := temp64 (to_bytes field ++ to_bytes "=") in
      v ← strcasestr temp1 body;
      match v with
      | None => Ok None
      | Some v =>
        let v := drop (length temp1) v in
        n ← count_until at_amp v;
        take_value false v n
      end
  end.

End parse.

(** ** Reading back a form *)

(** [lit] does not occur in [t], compared without case, not even across the
    end of [t] when the text goes on with [rest]. *)
Definition absent (lit t rest : list Z) : Prop :=
  ∀ k, (k < length t)%nat → matches_ci lit (drop k t ++ rest) = Ok false.

Lemma strcasestr_skip lit t rest : Forall (λ c, c ≠ 0) t → absent lit t rest →
  strcasestr lit (t ++ rest) = strcasestr lit rest.
Proof.
  intros Ht. induction Ht as [|c t Hc _ IH]; intros Ha; [done|]. cbn [app strcasestr].
  pose proof (Ha 0%nat ltac:(simpl; lia)) as H0. cbn [skipn app] in H0. rewrite H0. run.
  destruct (Z.eqb_spec c 0); [done|]. apply IH. intros k Hk. apply (Ha (S k)). simpl. lia.
Qed.

Lemma matches_ci_refl lit rest : matches_ci lit (lit ++ rest) = Ok true.
Proof.
  induction lit as [|l lit IH]; simpl; [done|]. rewrite Z.eqb_refl. by rewrite drop_0.
Qed.

Lemma strcasestr_here lit rest : lit ≠ [] → strcasestr lit (lit ++ rest) = Ok (Some (lit ++ rest)).
Proof.
  intros Hl. pose proof (matches_ci_refl lit rest) as Hm. destruct lit as [|l lit]; [done|].
  cbn [app strcasestr] in *. rewrite Hm. done.
Qed.

(** The end of a value in a form. *)
Definition value_end (rest : list Z) : Prop := ∃ c r, rest = c :: r ∧ (c = 38 ∨ c = 0).

Lemma count_until_amp t rest : Forall (λ c, c ≠ 0 ∧ c ≠ 38) t → value_end rest →
  count_until at_amp (t ++ rest) = Ok (length t).
Proof.
  intros Ht (c & r & -> & Hc). induction Ht as [|x t [Hx0 Hx] _ IH].
  - destruct Hc as [-> | ->]; done.
  - cbn [app count_until]. destruct (Z.eqb_spec x 0); [done|].
    change (at_amp (x :: t ++ c :: r)) with (Ok (x =? 38)). run.
    destruct (Z.eqb_spec x 38); [done|]. by rewrite IH.
Qed.

Lemma escape_char_plain c : 0 ≤ c < 128 → Forall (λ x, x ≠ 0 ∧ x ≠ 38 ∧ x ≠ 61 ∧ x ≠ 60) (escape_char c).
Proof.
  intros Hc. assert (Forall (λ c, Forall (λ x, x ≠ 0 ∧ x ≠ 38 ∧ x ≠ 61 ∧ x ≠ 60) (escape_char c)) (seqZ 0 128)) as H.
  { apply (bool_decide_unpack _). vm_compute. done. }
  rewrite Forall_forall in H. apply H, elem_of_seqZ. lia.
Qed.

Lemma escaped_plain s : ascii s →
  Forall (λ x, x ≠ 0 ∧ x ≠ 38 ∧ x ≠ 61 ∧ x ≠ 60) (concat (escape_char <$> s)).
Proof.
  intros Hs. induction Hs as [|c s Hc _ IH]; [by constructor|]. rewrite fmap_cons. cbn [concat].
  apply Forall_app. split; [by apply escape_char_plain|done].
Qed.

Section roundtrip.
Context (wcrtomb : Z → option (list Z)).

Lemma take_value_escaped s rest : ascii s →
  take_value wcrtomb true false (concat (escape_char <$> s) ++ rest)
    (length (concat (escape_char <$> s))) = Ok (Some s).
Proof.
  intros Hs. unfold take_value. destruct (Nat.eqb_spec (length (concat (escape_char <$> s))) 0) as [E|_].
  - destruct s as [|c s]; [done|]. exfalso. rewrite fmap_cons in E. cbn [concat] in E.
    rewrite length_app in E.
    assert (0 < length (escape_char c))%nat by (unfold escape_char, percent; repeat case_match; simpl; lia).
    lia.
  - by apply unescape_url_escaped.
Qed.

(** A field of a form that starts with it, or where it follows fields in
    which it does not occur. *)
Lemma field_value pre lit s rest : Forall (λ c, c ≠ 0) pre → lit ≠ [] →
  absent lit pre (lit ++ concat (escape_char <$> s) ++ rest) → ascii s → value_end rest →
  (v ← strcasestr lit (pre ++ lit ++ concat (escape_char <$> s) ++ rest);
   match v with
   | None => Ok None
   | Some v => let v := drop (length lit) v in
               n ← count_until at_amp v; take_value wcrtomb true false v n
   end) = Ok (Some s).
Proof.
  intros Hpre Hl Ha Hs He. rewrite strcasestr_skip by done. rewrite strcasestr_here by done. run.
  rewrite drop_app_length, count_until_amp; [|eapply Forall_impl; [by apply escaped_plain|naive_solver]|done].
  run. by apply take_value_escaped.
Qed.

(** A field of a login form sent by a browser comes out as the user
    entered it: the text between the field's name and the next ampersand,
    decoded, whatever fields surround it. *)
Theorem form_field_roundtrip field pre s rest :
  (String.length field < 63)%nat →
  ascii s → Forall (λ c, c ≠ 0) pre → value_end rest →
  let lit := to_bytes field ++ to_bytes "=" in
  let text := pre ++ lit ++ concat (escape_char <$> s) ++ rest in
  absent lit pre (lit ++ concat (escape_char <$> s) ++ rest) →
  is_xml text (length text - 1) = false →
  (1 < length text)%nat →
  parse_reply wcrtomb true (Some text) (length text - 1) field None = Ok (Some s).
Proof.
  intros Hf Hs Hpre He lit text Ha Hx Hl. unfold parse_reply.
  destruct (Nat.eqb_spec (length text - 1) 0); [lia|]. rewrite Hx.
  assert (temp64 (to_bytes field ++ to_bytes "=") = lit) as ->.
  { unfold temp64. apply take_ge. unfold lit. rewrite length_app, to_bytes_length. simpl. lia. }
  apply field_value; try done. subst lit. by destruct (to_bytes field).
Qed.

(** The password of a form without other occurrences of the word. *)
Theorem form_password_roundtrip pre s rest :
  ascii s → Forall (λ c, c ≠ 0) pre → value_end rest →
  let text := pre ++ to_bytes "password=" ++ concat (escape_char <$> s) ++ rest in
  absent (to_bytes "password") pre (to_bytes "password=" ++ concat (escape_char <$> s) ++ rest) →
  is_xml text (length text - 1) = false →
  match_password_in_reply wcrtomb true (Some text) (length text - 1) = Ok (Some s).
Proof.
  intros Hs Hpre He text Ha Hx. unfold match_password_in_reply.
  assert (1 < length text)%nat by (unfold text; rewrite length_app; simpl; lia).
  destruct (Nat.eqb_spec (length text - 1) 0); [lia|]. rewrite Hx.
  change (to_bytes "password=") with (to_bytes "password" ++ [61]) in *.
  subst text. rewrite <- (assoc_L (++)) in *. rewrite strcasestr_skip by done.
  rewrite strcasestr_here by done. run.
  assert (∀ q, strchr_ptr 61 (to_bytes "password" ++ [61] ++ q) = Ok (Some (61 :: q))) as -> by done.
  run. cbn [skipn]. rewrite drop_0.
  rewrite count_until_amp; [|eapply Forall_impl; [by apply escaped_plain|naive_solver]|done].
  run. by apply take_value_escaped.
Qed.

End roundtrip.

(** A user name that contains the word "password" moves the search: the value
    of the field after it is taken for the password. *)
Example password_in_user_name :
  match_password_in_reply (λ _, None) true
    (Some (to_bytes "username=password1&group=staff&password=secret" ++ [0])) 46
  = Ok (Some (to_bytes "staff")).
Proof. reflexivity. Qed.

(** ** Safety *)

Section safety.
Context (wcrtomb : Z → option (list Z)) (mem : bool).

Lemma strcasestr_nul lit p : 0 ∉ lit → nul_ahead p →
  ∃ r, strcasestr lit p = Ok r ∧
    match r with
    | Some q => q `suffix_of` p ∧ nul_ahead q ∧ matches_ci lit q = Ok true
    | None => True end.
Proof.
  intros Hl. induction p as [|c p IH]; intros Hp; [by apply elem_of_nil in Hp|]. cbn [strcasestr].
  destruct (matches_ci_nul lit (c :: p) Hl Hp) as (b & Hb & _). rewrite Hb. run.
  destruct b; [by eexists|]. destruct (Z.eqb_spec c 0) as [->|Hc]; [by eexists|].
  destruct IH as (r & -> & Hr); [by apply nul_ahead_cons with c|]. eexists. split; [done|].
  destruct r as [q|]; [|done]. destruct Hr as (? & ? & ?). split_and!; [by apply suffix_cons_r|done..].
Qed.

Lemma count_until_nul stop p : nul_ahead p →
  (∀ q, nul_ahead q → ∃ b, stop q = Ok b) →
  ∃ n, count_until stop p = Ok n ∧ (n < length p)%nat.
Proof.
  intros Hp Hs. induction p as [|c p IH]; [by apply elem_of_nil in Hp|]. cbn [count_until].
  destruct (Z.eqb_spec c 0); [exists O; simpl; split; [done|lia]|].
  destruct (Hs (c :: p) Hp) as [b ->]. run. destruct b; [exists O; simpl; split; [done|lia]|].
  destruct IH as (n' & -> & ?); [by apply nul_ahead_cons with c|]. run.
  exists (S n'). simpl. split; [done|lia].
Qed.

Lemma strchr_ptr_nul ch p : ch ≠ 0 → nul_ahead p →
  ∃ r, strchr_ptr ch p = Ok r ∧
    match r with Some q => q `suffix_of` p ∧ nul_ahead (drop 1 q) | None => True end.
Proof.
  intros Hch. induction p as [|c p IH]; intros Hp; [by apply elem_of_nil in Hp|]. cbn [strchr_ptr].
  destruct (Z.eqb_spec c ch) as [->|].
  { eexists. split; [done|]. split; [done|]. simpl. rewrite drop_0. by apply nul_ahead_cons with ch. }
  destruct (Z.eqb_spec c 0) as [->|]; [by eexists|].
  destruct IH as (r & -> & Hr); [by apply nul_ahead_cons with c|]. eexists. split; [done|].
  destruct r as [q|]; [|done]. destruct Hr. split; [by apply suffix_cons_r|done].
Qed.

Lemma matches_ci_nul_drop lit p : 0 ∉ lit → nul_ahead p → matches_ci lit p = Ok true →
  nul_ahead (drop (length lit) p).
Proof.
  revert p. induction lit as [|l lit IH]; intros p Hl Hp Hm; simpl in *; [by rewrite drop_0|].
  apply not_elem_of_cons in Hl as [Hl0 Hl].
  destruct (deref_nul p Hp) as (c & p' & -> & _). simpl in Hm.
  destruct (Z.eqb_spec (c_tolower c) (c_tolower l)) as [E|]; [|done].
  rewrite drop_0 in Hm. apply IH; [done| |done]. apply nul_ahead_cons with c; [done|].
  intros ->. apply Hl0. symmetry. apply c_tolower_zero. rewrite <- E. done.
Qed.

Lemma at_amp_nul q : nul_ahead q → ∃ b, at_amp q = Ok b.
Proof. intros (c & q' & -> & _)%deref_nul. by eexists. Qed.

Lemma at_close_nul q : nul_ahead q → ∃ b, at_close q = Ok b.
Proof.
  intros Hq. destruct (deref_nul q Hq) as (c & q' & -> & _). unfold at_close. simpl.
  destruct (Z.eqb_spec c 60) as [->|]; [|by eexists].
  destruct (deref_nul q') as (d & q2 & -> & _); [by apply nul_ahead_cons with 60|]. by eexists.
Qed.

Lemma at_tag_nul tag q : 0 ∉ tag → nul_ahead q → ∃ b, at_tag tag q = Ok b.
Proof.
  intros Ht Hq. unfold at_tag. destruct (deref_nul q Hq) as (c & q' & -> & ->). run.
  destruct (c =? 60); [|by eexists]. destruct (matches_ci_nul tag (c :: q') Ht Hq) as (b & -> & _).
  by eexists.
Qed.

(** A value within a body that ends in a NUL after a byte other than [%]. *)
Lemma take_value_safe xml bs v n : last bs ≠ Some 37 → Z.of_nat (length bs) < 2 ^ 31 →
  v `suffix_of` bs ++ [0] → nul_ahead v → (n < length v)%nat →
  ∃ r, take_value wcrtomb mem xml v n = Ok r.
Proof.
  intros Hlast Hlen [k Hk] Hv Hn. unfold take_value. destruct (n =? 0)%nat eqn:En; [by eexists|].
  apply Nat.eqb_neq in En. destruct v as [|x v0 _] using rev_ind; [by apply elem_of_nil in Hv|].
  rewrite (assoc_L (++)) in Hk. apply app_inj_tail in Hk as [-> <-].
  rewrite length_app in Hn, Hlen. simpl in Hn.
  destruct xml.
  - destruct (unescape_html_defined wcrtomb mem (v0 ++ [0]) (Z.of_nat n) (Z.of_nat (length v0)))
      as (r & -> & _); [lia|lia| |by eexists].
    rewrite Nat2Z.id. by apply list_lookup_middle.
  - destruct (unescape_url_defined mem (v0 ++ [0]) (Z.of_nat n)) as (r & -> & _); [lia| |by eexists].
    intros _. rewrite length_app. simpl. destruct (decide (n = length v0)) as [->|]; [right|left; lia].
    split; [lia|]. destruct v0 as [|y v1 _] using rev_ind; [simpl in *; lia|].
    rewrite (assoc_L (++)), last_snoc in Hlast. rewrite length_app. simpl.
    replace (Z.to_nat (Z.of_nat (length v1 + 1) - 0 - 1)) with (length v1) by lia.
    rewrite <- (assoc_L (++)). cbn [app]. by rewrite list_lookup_middle.
Qed.

Lemma temp64_chars f : 0 ∉ to_bytes f → ∀ a b, 0 ∉ a → 0 ∉ b → 0 ∉ temp64 (a ++ to_bytes f ++ b).
Proof.
  intros Hf a b Ha Hb Hin. apply elem_of_take in Hin as (i & Hi & _).
  apply list_elem_of_lookup_2 in Hi. rewrite !elem_of_app in Hi. naive_solver.
Qed.

(** What follows a match, or a character, up to a stop. *)
Lemma value_after_match bs lit stop xml v : last bs ≠ Some 37 → Z.of_nat (length bs) < 2 ^ 31 →
  0 ∉ lit → (∀ q, nul_ahead q → ∃ b, stop q = Ok b) →
  v `suffix_of` bs ++ [0] → nul_ahead v → matches_ci lit v = Ok true →
  ∃ r, (n ← count_until stop (drop (length lit) v);
        take_value wcrtomb mem xml (drop (length lit) v) n) = Ok r.
Proof.
  intros Hlast Hlen Hl Hstop Hsuf Hv Hm.
  pose proof (matches_ci_nul_drop lit v Hl Hv Hm) as Hd.
  destruct (count_until_nul stop _ Hd Hstop) as (n & -> & Hn). run.
  apply (take_value_safe xml bs); [done|done| |done|done].
  etrans; [|exact Hsuf]. exists (take (length lit) v). by rewrite take_drop.
Qed.

Lemma value_after_char bs ch stop xml v : last bs ≠ Some 37 → Z.of_nat (length bs) < 2 ^ 31 →
  ch ≠ 0 → (∀ q, nul_ahead q → ∃ b, stop q = Ok b) → v `suffix_of` bs ++ [0] → nul_ahead v →
  ∃ r, (p ← strchr_ptr ch v;
    match p with
    | None => Ok None
    | Some p => let v := drop 1 p in n ← count_until stop v; take_value wcrtomb mem xml v n
    end) = Ok r.
Proof.
  intros Hlast Hlen Hch Hstop Hsuf Hv.
  destruct (strchr_ptr_nul ch v Hch Hv) as (r & -> & Hr). run. destruct r as [p|]; [|by eexists].
  destruct Hr as [Hp Hd]. destruct (count_until_nul stop _ Hd Hstop) as (n & -> & Hn). run.
  apply (take_value_safe xml bs); [done|done| |done|done].
  etrans; [|exact Hsuf]. etrans; [|exact Hp]. exists (take 1 p). by rewrite take_drop.
Qed.

Lemma nul_ahead_end bs : nul_ahead (bs ++ [0]).
Proof. apply elem_of_app. right. by left. Qed.

Lemma cstring_chars f : cstring f → 0 ∉ to_bytes f.
Proof. intros Hc Hin. unfold cstring in Hc. rewrite Forall_forall in Hc. by apply (Hc 0). Qed.

Lemma parse_reply_safe bs field xml_field :
  last bs ≠ Some 37 → Z.of_nat (length bs) < 2 ^ 31 →
  cstring field → (∀ f, xml_field = Some f → cstring f) →
  ∃ r, parse_reply wcrtomb mem (Some (bs ++ [0])) (length bs) field xml_field = Ok r.
Proof.
  intros Hlast Hlen Hf Hxf. unfold parse_reply. destruct (_ =? _)%nat; [by eexists|].
  destruct (is_xml _ _).
  - assert (0 ∉ to_bytes (default field xml_field)) as Hfx.
    { apply cstring_chars. destruct xml_field as [f|]; simpl; [by apply Hxf|done]. }
    set (t1 := temp64 (to_bytes "<" ++ _)). set (t2 := temp64 (to_bytes "</" ++ _)).
    assert (0 ∉ t1) by (apply temp64_chars; [done|by apply (bool_decide_unpack _)..]).
    assert (0 ∉ t2) by (apply temp64_chars; [done|by apply (bool_decide_unpack _)..]).
    destruct (strcasestr_nul t1 (bs ++ [0])) as (r & -> & Hr); [done|apply nul_ahead_end|]. run.
    destruct r as [v|]; [|by eexists]. destruct Hr as (? & ? & ?).
    apply (value_after_match bs); try done. intros. by apply at_tag_nul.
  - set (t1 := temp64 (to_bytes field ++ to_bytes "=")).
    assert (0 ∉ t1).
    { apply (temp64_chars field (cstring_chars _ Hf) [] (to_bytes "="));
        [by apply not_elem_of_nil|by apply (bool_decide_unpack _)]. }
    destruct (strcasestr_nul t1 (bs ++ [0])) as (r & -> & Hr); [done|apply nul_ahead_end|]. run.
    destruct r as [v|]; [|by eexists]. destruct Hr as (? & ? & ?).
    apply (value_after_match bs); try done. apply at_amp_nul.
Qed.

(** The two searches of [match_password_in_reply] in an XML body. *)
Lemma find_password_safe bs : ∃ v, (v ← strcasestr (to_bytes "<password") (bs ++ [0]);
    match v with Some _ => Ok v | None => strcasestr (to_bytes "_password>") (bs ++ [0]) end) = Ok v ∧
  match v with Some v => v `suffix_of` bs ++ [0] ∧ nul_ahead v | None => True end.
Proof.
  destruct (strcasestr_nul (to_bytes "<password") (bs ++ [0])) as (r & -> & Hr);
    [by apply (bool_decide_unpack _)|apply nul_ahead_end|]. run.
  destruct r as [v|]; [eexists; split; [done|]; naive_solver|].
  destruct (strcasestr_nul (to_bytes "_password>") (bs ++ [0])) as (r & -> & Hr');
    [by apply (bool_decide_unpack _)|apply nul_ahead_end|].
  eexists. split; [done|]. destruct r; naive_solver.
Qed.

(** C16: Reading a field or the password from the body of a login request
    never leaves the body, whatever it holds, unless its last byte is a
    percent sign. *)
Theorem login_fields_safe bs field xml_field :
  last bs ≠ Some 37 → Z.of_nat (length bs) < 2 ^ 31 →
  cstring field → (∀ f, xml_field = Some f → cstring f) →
  (∃ r, parse_reply wcrtomb mem (Some (bs ++ [0])) (length bs) field xml_field = Ok r) ∧
  (∃ r, match_password_in_reply wcrtomb mem (Some (bs ++ [0])) (length bs) = Ok r).
Proof.
  intros Hlast Hlen Hf Hxf. split; [by apply parse_reply_safe|].
  unfold match_password_in_reply. destruct (_ =? _)%nat; [by eexists|]. destruct (is_xml _ _).
  - destruct (find_password_safe bs) as (v & Ev & Hv).
    rewrite <- cres_bind_assoc, Ev. run. destruct v as [v|]; [|by eexists]. destruct Hv.
    apply (value_after_char bs); try done. apply at_close_nul.
  - destruct (strcasestr_nul (to_bytes "password") (bs ++ [0])) as (r & -> & Hr);
      [by apply (bool_decide_unpack _)|apply nul_ahead_end|]. run.
    destruct r as [v|]; [|by eexists]. destruct Hr as (? & ? & ?).
    apply (value_after_char bs); try done. apply at_amp_nul.
Qed.

End safety.

(** ** Examples *)

Module LoginParseWitnesses.

Lemma form_field_roundtrip_witness :
  let text := to_bytes "group_list=staff&" ++ (to_bytes "username" ++ to_bytes "=") ++
              concat (escape_char <$> to_bytes "jo e") ++ (to_bytes "&password=x" ++ [0]) in
  parse_reply (λ _, None) true (Some text) (length text - 1) "username" None = Ok (Some (to_bytes "jo e")).
Proof.
  apply (form_field_roundtrip (λ _, None) "username" (to_bytes "group_list=staff&") (to_bytes "jo e")
    (to_bytes "&password=x" ++ [0])).
  - simpl. lia.
  - by apply (bool_decide_unpack _).
  - by apply (bool_decide_unpack _).
  - exists 38, (to_bytes "password=x" ++ [0]). split; [reflexivity|by left].
  - intros k Hk. do 17 (destruct k as [|k]; [reflexivity|]). simpl in Hk. lia.
  - reflexivity.
  - simpl. lia.
Defined.

Lemma login_fields_safe_witness :
  let bs := to_bytes "username=jo&password=100%25" in
  (∃ r, parse_reply (λ _, None) true (Some (bs ++ [0])) (length bs) "username" None = Ok r) ∧
  (∃ r, match_password_in_reply (λ _, None) true (Some (bs ++ [0])) (length bs) = Ok r).
Proof.
  apply (login_fields_safe (λ _, None) true (to_bytes "username=jo&password=100%25") "username" None).
  - discriminate.
  - reflexivity.
  - by apply (bool_decide_unpack _).
  - discriminate.
Defined.

End LoginParseWitnesses.
