(* ===== verification/Login.v ===== *)
(** * Logging in (src/worker-auth.c)

    The handlers that take a client from its first request to an accepted
    cookie: the login form, the answers of the security module, the page that
    hands out the cookie, and the cookie's acceptance by the main process.
    The channel to the client, the security module and the main process are
    the class [LoginWorld]; what is sent and received is logged. *)

From S2P Require Import Prelude CString IpUtil Html Str HttpHeads WorkerState HttpReq LoginParse.

(** ** Messages *)

Inductive rep := REP_OK | REP_MSG | REP_FAILED | REP_OTHER.

(** [SecAuthInitMsg] and [SecAuthContMsg], the fields the worker fills in. *)
Record sec_auth_init := {
  i_user_name : option (list Z);
  i_group_name : option (list Z);
  i_auth_type : Z;
  i_tls_auth_ok : bool;
  i_cert_user_name : option (list Z);
  i_cert_group_names : list (list Z);
  i_user_agent : option (list Z) }.

Record sec_auth_cont := { c_password : list Z; c_sid : option (list Z) }.

(** [SecAuthReplyMsg]. *)
Record sec_auth_reply := {
  r_reply : rep;
  r_user_name : option (list Z);
  r_msg : option (list Z);
  r_passwd_counter : option Z;
  r_sid : option (list Z);
  r_dtls_session_id : list Z }.

(** [AuthCookieReplyMsg] and the descriptor that comes with it. *)
Record auth_cookie_reply := {
  a_reply : rep;
  a_fd : Z;
  a_vname : option (list Z);
  a_user_name : option (list Z);
  a_group_name : option (list Z);
  a_sid : list Z;
  a_session_id : list Z;
  a_config : option (bool * list string);     (* no_udp, routes *)
  a_ipv4 : option string;
  a_ipv6 : option string;
  a_ipv4_local : option string;
  a_ipv6_local : option string }.

(** ** State *)

Record vpn_info := {
  v_name : list Z;
  v_ipv4 : option string;
  v_ipv6 : option string;
  v_ipv4_local : option string;
  v_ipv6_local : option string }.

Record login_ws := {
  hw : http_ws;
  tls : bool;                     (* ws->session != NULL *)
  username : list Z;
  groupname : list Z;
  cert_username : list Z;
  cert_groups : list (list Z);
  session_id : list Z;
  user_config : bool;             (* user_config != NULL *)
  tun_fd : Z;
  vinfo : vpn_info;
  default_route : bool;
  udp_port : Z }.

Record login_conf := {
  http : http_conf;
  default_select_group : option (list Z);
  group_list : list (list Z);
  friendly_group_list : option (list (option (list Z)));
  cookie_timeout : Z;
  cisco_client_compat : bool;
  banner : option (list Z);
  xml_config : option (list Z * list Z);      (* file and hash *)
  cert_hash : list Z }.

Inductive laction :=
| Out (text : list Z)                (* text on the CSTP channel *)
| OutCookie (c : list Z)             (* the header that hands out the cookie [c] *)
| SecInit (m : sec_auth_init)
| SecCont (m : sec_auth_cont)
| SecReplied (r : sec_auth_reply)
| CookieSent (c : list Z)            (* AUTH_COOKIE_REQ to the main process *)
| MainReplied (r : auth_cookie_reply)
| ProfileSent (f : list Z)           (* the file goes to the client *)
| Tunnel                             (* [connect_handler] sets up the tunnel *)
| FatalClose.

Class LoginWorld (W : Type) := {
  cstp_out : list Z → W → Z * W;                       (* cstp_send *)
  cstp_uncork : W → Z * W;
  secmod_connect : W → bool * W;
  secmod_init : sec_auth_init → W → Z * W;             (* send_msg_to_secmod *)
  secmod_cont : sec_auth_cont → W → Z * W;
  secmod_reply : W → (Z + sec_auth_reply) * W;         (* recv_msg *)
  main_cookie : list Z → W → Z * W;                    (* send_msg_to_main *)
  main_reply : W → (Z + auth_cookie_reply) * W;        (* recv_socket_msg *)
  tun_claim : Z → W → Z * W;
  cert_peers : W → bool * W;                           (* gnutls_certificate_get_peers *)
  cert_names : W → option (list Z * list (list Z)) * W (* get_cert_names *)
}.

Record lstate (W : Type) := { lw : login_ws; lworld : W; llog : list laction }.
Arguments lw {_} _.
Arguments lworld {_} _.
Arguments llog {_} _.
Arguments Build_lstate {_} _ _ _.

Definition LM (W A : Type) : Type := lstate W → outcome (lstate W) A.

#[global] Instance LM_ret W : MRet (LM W) := λ A a s, Val a s.
#[global] Instance LM_bind W : MBind (LM W) := λ A B f m s,
  match m s with
  | Val a s' => f a s'
  | Exit r s' => Exit r s'
  | Undef => Undef
  | Blocked => Blocked
  end.

Section effects.
Context {W : Type}.

Definition lget {A} (f : login_ws → A) : LM W A := λ s, Val (f (lw s)) s.
Definition lmod (f : login_ws → login_ws) : LM W unit :=
  λ s, Val tt {| lw := f (lw s); lworld := lworld s; llog := llog s |}.
Definition lcall {A} (f : W → A * W) : LM W A :=
  λ s, let '(a, w) := f (lworld s) in Val a {| lw := lw s; lworld := w; llog := llog s |}.
Definition lemit (a : laction) : LM W unit :=
  λ s, Val tt {| lw := lw s; lworld := lworld s; llog := llog s ++ [a] |}.
Definition lexit {A} : LM W A := λ s, Exit REASON_ANY s.
Definition lift {A} (m : cres A) : LM W A :=
  λ s, match m with Ok a => Val a s | Fuel => Blocked | _ => Undef end.

Definition set_hw (f : http_ws → http_ws) : LM W unit := lmod (λ x, {| x with hw := f (hw x) |}).
Definition set_auth_state (a : auth_state_t) : LM W unit :=
  set_hw (λ h, {| h with auth_state := a |}).

End effects.

(** Text with a backquote for a double quote and a caret for a newline. *)
Definition quoted (s : string) : list Z :=
  (λ c, if c =? 96 then 34 else if c =? 94 then 10 else c) <$> to_bytes s.
Definition line (s : string) : list Z := to_bytes s ++ [13; 10].
Definition crlf : list Z := [13; 10].
Definition num (n : Z) : list Z := to_bytes (dec n).

(** [strlcpy(dst, src, n)] of a C string. *)
Definition strlcpyb (n : nat) (src : list Z) : list Z := take (n - 1) (cstr src).

Definition GNUTLS_MAX_SESSION_ID : nat := 32.
Definition ERR_AUTH_FAIL : Z := -3.
Definition ERR_AUTH_CONTINUE : Z := -4.
Definition USERNAME_FIELD : string := "username".
Definition GROUPNAME_FIELD : string := "group%5flist".
Definition GROUPNAME_FIELD2 : string := "group_list".
Definition GROUPNAME_FIELD_XML : string := "group-select".

(** ** Pages *)

Definition VERSION_MSG : list Z := quoted "<version who=`sg`>0.1(1)</version>^".
Definition XML_HEAD : list Z := quoted "<?xml version=`1.0` encoding=`UTF-8`?>^".

Definition oc_success_msg_head : list Z :=
  XML_HEAD ++ quoted "<config-auth client=`vpn` type=`complete`>^" ++ VERSION_MSG ++
  quoted "<auth id=`success`>^<title>SSL VPN Service</title>".
Definition ocv3_success_msg_head : list Z :=
  XML_HEAD ++ quoted "<auth id=`success`>^<title>SSL VPN Service</title>".
Definition OC_SUCCESS_MSG_FOOT : list Z := quoted "</auth></config-auth>^".
Definition ocv3_success_msg_foot : list Z := quoted "</auth>^".
Definition OC_SUCCESS_MSG_FOOT_PROFILE (file hash : list Z) : list Z :=
  quoted "</auth>^<config client=`vpn` type=`private`><vpn-profile-manifest><vpn rev=`1.0`>" ++
  quoted "<file type=`profile` service-type=`user`><uri>/profiles/" ++ file ++
  quoted "</uri><hash type=`sha1`>" ++ hash ++
  quoted "</hash></file></vpn></vpn-profile-manifest>^</config></config-auth>".

Definition FORM : list Z := quoted "</message>^<form method=`post` action=`/auth`>^".
Definition OC_LOGIN_MSG_START (msg : list Z) : list Z :=
  XML_HEAD ++ quoted "<config-auth client=`vpn` type=`auth-request`>^" ++ VERSION_MSG ++
  quoted "<auth id=`main`>^<message>" ++ msg ++ FORM.
Definition OCV3_LOGIN_MSG_START (id : string) (msg : list Z) : list Z :=
  XML_HEAD ++ quoted "<auth id=`" ++ to_bytes id ++ quoted "`>^<message>" ++ msg ++ FORM.
Definition oc_login_msg_end : list Z := quoted "</form></auth>^</config-auth>".
Definition ocv3_login_msg_end : list Z := quoted "</form></auth>^".
Definition login_msg_user : list Z :=
  quoted "<input type=`text` name=`username` label=`Username:` />^".
Definition LOGIN_MSG_PASSWORD : list Z :=
  quoted "<input type=`password` name=`password` label=`Password:` />^".
Definition LOGIN_MSG_PASSWORD_CTR (n : Z) : list Z :=
  quoted "<input type=`password` name=`secondary_password` label=`Password" ++ num n ++ quoted ":` />^".

(** [snprintf] into [temp]. *)
Definition group_option (size : nat) (value name : list Z) : list Z :=
  take (size - 1) (quoted "<option value=`" ++ value ++ quoted "`>" ++ name ++ quoted "</option>^").

Section login.
Context {W : Type} `{LoginWorld W}.
Context (conf : login_conf) (mem : Z → bool).
Context (base64_encode : list Z → list Z) (wcrtomb : Z → option (list Z)).
Context (http_ver : Z).

(** [append_group_idx]. *)
Definition group_idx_text (i : nat) (value : list Z) : list Z :=
  let name := match friendly_group_list conf with
              | Some l => default value (mjoin (l !! i))
              | None => value end in
  group_option 128 value name.

Fixpoint friendly_name (groups : list (list Z)) (friendly : list (option (list Z))) (g : list Z)
    : list Z :=
  match groups, friendly with
  | x :: gs, f :: fs => if bool_decide (x = g) then default g f else friendly_name gs fs g
  | _, _ => g
  end.

(** [append_group_str]. *)
Definition group_str_text (g : list Z) : list Z :=
  group_option 256 g (match friendly_group_list conf with
                      | Some l => friendly_name (group_list conf) l g
                      | None => g end).

(** [cstp_puts], [cstp_printf], [cstp_send] on a text. *)
Definition out (text : list Z) : LM W Z :=
  lemit (Out text) ;;; lcall (cstp_out text).

(** Texts one after the other, until one cannot be sent. *)
Fixpoint outs (ts : list (list Z)) : LM W Z :=
  match ts with
  | [] => mret 0
  | t :: ts' => ret ← out t; if ret <? 0 then mret (-1) else outs ts'
  end.

Definition basic_auth_handler (msg : option (list Z)) : LM W Z :=
  n ← lget (λ x, length (auth (hw x)));
  ret ← outs ([to_bytes "HTTP/1." ++ num http_ver ++ line " 401 Unauthorized"] ++
     (if (1 <? n)%nat then [line "X-HTTP-Auth-Support: fallback"] else []) ++
     [match msg with
      | None => line "WWW-Authenticate: Negotiate"
      | Some m => to_bytes "WWW-Authenticate: Negotiate " ++ m ++ crlf end;
      line "Content-Length: 0"; crlf]);
  if ret <? 0 then mret (-1) else
  ret ← lcall cstp_uncork;
  mret (if ret <? 0 then -1 else 0).

(** [get_cert_info]. *)
Definition get_cert_info : LM W Z :=
  t ← lget tls;
  if negb t then u ← lget cert_username; mret (if bool_decide (u = []) then -1 else 0) else
  p ← lcall cert_peers;
  if negb (p : bool) then mret (-1) else
  r ← lcall cert_names;
  match r with
  | None => mret (-1)
  | Some (u, gs) => lmod (λ x, {| x with cert_username := u; cert_groups := gs |}) ;;; mret 0
  end.

(** Appending texts to a [str_st], until memory is exhausted. *)
Fixpoint str_appends (s : str_st) (ts : list (list Z)) : cres (Z * str_st) :=
  match ts with
  | [] => Ok (0, s)
  | t :: ts' =>
    '(ret, s) ← str_append_str mem s (Some t);
    if ret <? 0 then Ok (-1, s) else str_appends s ts'
  end.

Definition sel_type (x : login_ws) (t : Z) : bool := has_type (selected (hw x)) t.

(** The start and the end of a login form for a client. *)
Definition form_start (x : login_ws) (msg : list Z) : list Z :=
  match user_agent_type (req (hw x)) with
  | AGENT_OPENCONNECT_V3 =>
    OCV3_LOGIN_MSG_START (if bool_decide (auth_state (hw x) = S_AUTH_REQ) then "passwd" else "main") msg
  | _ => OC_LOGIN_MSG_START msg
  end.
Definition form_end (x : login_ws) : list Z :=
  match user_agent_type (req (hw x)) with
  | AGENT_OPENCONNECT_V3 => ocv3_login_msg_end
  | _ => oc_login_msg_end
  end.

Definition password_form (x : login_ws) (pmsg : option (list Z)) (pcounter : Z) : list (list Z) :=
  let pmsg := match pmsg with
              | Some m => if starts_ci "Password:" m then to_bytes "Please enter your password." else m
              | None => to_bytes "Please enter your password." end in
  [form_start x pmsg;
   if 0 <? pcounter then LOGIN_MSG_PASSWORD_CTR pcounter else LOGIN_MSG_PASSWORD;
   form_end x].

(** The groups of the form. *)
Definition groups_form (x : login_ws) : list (list Z) :=
  let g := groupname x in
  let chosen := negb (bool_decide (g = [])) in
  if (length (group_list conf) =? 0)%nat && (length (cert_groups x) =? 0)%nat then [] else
  [quoted "<select name=`group_list` label=`Group:`>^"] ++
  (if chosen then [group_str_text g] else []) ++
  match default_select_group conf with
  | Some d => [to_bytes "<option>" ++ d ++ quoted "</option>^"] | None => [] end ++
  (if sel_type x AUTH_TYPE_CERTIFICATE && cert_auth_ok (hw x) then
     (λ c, to_bytes "<option>" ++ c ++ quoted "</option>^") <$>
       filter (λ c, (c ∉ group_list conf) ∧ ¬ (chosen = true ∧ g = c)) (cert_groups x)
   else []) ++
  imap (λ _ p, group_idx_text p.1 p.2)
    (filter (λ p, ¬ (chosen = true ∧ g = p.2)) (imap (λ i v, (i, v)) (group_list conf))) ++
  [to_bytes "</select>" ++ [10]].

(** [get_auth_handler2]; [post] is [post_auth_handler]. *)
Definition get_auth_handler2 (post : LM W Z) (pmsg : option (list Z)) (pcounter : Z) : LM W Z :=
  x ← lget id;
  if sel_type x AUTH_TYPE_GSSAPI && (auth_num (auth_state (hw x)) <? auth_num S_AUTH_COOKIE) then
    match authorization (req (hw x)) with
    | None | Some [] => basic_auth_handler None
    | Some _ => post
    end
  else
  ret ← outs [to_bytes "HTTP/1." ++ num http_ver ++ line " 200 OK";
     (if sid_set (hw x)
      then to_bytes "Set-Cookie: webvpncontext=" ++ base64_encode (sid (hw x)) ++
           to_bytes "; Max-Age=" ++ num (cookie_timeout conf) ++ line "; Secure"
      else line "Set-Cookie: webvpncontext=; expires=Thu, 01 Jan 1970 22:00:00 GMT; path=/; Secure");
     line "Content-Type: text/xml"];
  if ret <? 0 then mret (-1) else
  r ← (if bool_decide (auth_state (hw x) = S_AUTH_REQ) then
         lift (str_appends str_init (password_form x pmsg pcounter))
       else
         '(ret, s) ← lift (str_appends str_init
            ([form_start x (default (to_bytes "Please enter your username.") pmsg)] ++
             (if sel_type x AUTH_TYPE_USERNAME_PASS then [login_msg_user] else [])));
         if (ret : Z) <? 0 then mret (ret, s) else
         ci ← (if sel_type x AUTH_TYPE_CERTIFICATE && cert_auth_ok (hw x) then get_cert_info else mret 0);
         if ci <? 0 then mret (-1, s) else
         x ← lget id;
         lift (str_appends s (groups_form x ++ [form_end x])));
  if (r.1 : Z) <? 0 then mret (-1) else
  ret ← outs [to_bytes "Content-Length: " ++ num (u32 (len r.2)) ++ crlf;
              line "X-Transcend-Version: 1"; crlf];
  if ret <? 0 then mret (-1) else
  text ← lift (contents r.2);
  ret ← out text;
  if ret <? 0 then mret (-1) else
  ret ← lcall cstp_uncork;
  mret (if ret <? 0 then -1 else 0).

(** [post_common_handler]: the page that hands out the cookie. *)
Definition post_common_handler (imsg : option (list Z)) : LM W Z :=
  x ← lget id;
  let v3 := match user_agent_type (req (hw x)) with AGENT_OPENCONNECT_V3 => true | _ => false end in
  let head := if v3 then ocv3_success_msg_head else oc_success_msg_head in
  let foot := if v3 then ocv3_success_msg_foot
              else match xml_config conf with
                   | Some (f, h) => OC_SUCCESS_MSG_FOOT_PROFILE f h
                   | None => OC_SUCCESS_MSG_FOOT end in
  let msg := match banner conf with
             | Some b => take 287 (to_bytes "<banner>" ++ b ++ to_bytes "</banner>")
             | None => [] end in
  let size := (length msg + length head + length foot)%nat in
  ret ← outs ([to_bytes "HTTP/1." ++ num http_ver ++ line " 200 OK"; line "Connection: Keep-Alive"] ++
     match imsg with
     | Some ((_ :: _) as m) =>
       if sel_type x AUTH_TYPE_GSSAPI then [to_bytes "WWW-Authenticate: Negotiate " ++ m ++ crlf] else []
     | _ => [] end ++
     [line "Content-Type: text/xml";
      to_bytes "Content-Length: " ++ num (Z.of_nat size) ++ crlf;
      line "X-Transcend-Version: 1"] ++
     (if sid_set (hw x)
      then [to_bytes "Set-Cookie: webvpncontext=" ++ base64_encode (sid (hw x)) ++ line "; Secure"] else []));
  if ret <? 0 then mret (-1) else
  lemit (OutCookie (cookie (hw x))) ;;;
  ret ← lcall (cstp_out (to_bytes "Set-Cookie: webvpn=" ++ base64_encode (cookie (hw x)) ++ line "; Secure"));
  if ret <? 0 then mret (-1) else
  ret ← outs [line "Set-Cookie: webvpnc=; expires=Thu, 01 Jan 1970 22:00:00 GMT; path=/; Secure";
     to_bytes "Set-Cookie: webvpnc=bu:/&p:t&iu:1/&sh:" ++ cert_hash conf ++
     match xml_config conf with
     | Some (f, h) =>
       to_bytes "&lu:/+CSCOT+/translation-table?textdomain%3DAnyConnect%26type%3Dmanifest&fu:profiles%2F" ++
       f ++ to_bytes "&fh:" ++ h
     | None => [] end ++ line "; path=/; Secure";
     crlf ++ head ++ msg ++ foot];
  if ret <? 0 then mret (-1) else
  ret ← lcall cstp_uncork;
  mret (if ret <? 0 then -1 else 0).

(** ** Answers of the security module *)

(** The result, the message and the counter. *)
Definition recv_auth_reply : LM W (Z * option (list Z) * Z) :=
  r ← lcall secmod_reply;
  match r with
  | inl code => mret (code, None, 0)
  | inr m =>
    lemit (SecReplied m) ;;;
    let update_sid :=
      match r_sid m with
      | Some s => if (length s =? SID_SIZE)%nat
                  then set_hw (λ h, {| h with sid := s; sid_set := true |}) else mret tt
      | None => mret tt
      end in
    match r_reply m with
    | REP_MSG =>
      update_sid ;;;
      mret (ERR_AUTH_CONTINUE, r_msg m, default 0 (r_passwd_counter m))
    | REP_OK =>
      match r_user_name m with
      | None => mret (ERR_AUTH_FAIL, None, 0)
      | Some u =>
        lmod (λ x, {| x with username := strlcpyb MAX_USERNAME_SIZE u |}) ;;;
        update_sid ;;;
        match r_sid m with
        | Some s =>
          if (length s =? SID_SIZE)%nat && (length (r_dtls_session_id m) =? GNUTLS_MAX_SESSION_ID)%nat
          then
            set_hw (λ h, {| h with cookie := s; cookie_set := true |}) ;;;
            lmod (λ x, {| x with session_id := r_dtls_session_id m |}) ;;;
            mret (0, r_msg m, 0)
          else mret (ERR_AUTH_FAIL, None, 0)
        | None => mret (ERR_AUTH_FAIL, None, 0)
        end
      end
    | _ => mret (ERR_AUTH_FAIL, None, 0)
    end
  end.

(** Where a step of [post_auth_handler] goes on. *)
Inductive next := Go | AskAuth | Fail (reason : string) | Done (ret : Z).

Definition body_field (field : string) (xml : option string) : LM W (option (list Z)) :=
  q ← lget (λ x, req (hw x));
  lift (parse_reply wcrtomb true (body q) (Z.to_nat (body_length q)) field xml).

(** [ws_switch_auth_to_next] and back to the beginning. *)
Definition next_method (reason : string) : LM W next :=
  ok ← lget (λ x, (ws_switch_auth_to_next (hw x)).1);
  set_hw (λ h, (ws_switch_auth_to_next h).2) ;;;
  if (ok : bool) then
    set_hw (λ h, {| h with auth_state := S_AUTH_INACTIVE; sid_set := false |}) ;;; mret AskAuth
  else mret (Fail reason).

(** The certificate of a client in the first step. *)
Definition init_cert (get : option (list Z) → Z → LM W Z) (def_group : bool) (m : sec_auth_init)
    : LM W (next * sec_auth_init) :=
  x ← lget id;
  if negb (sel_type x AUTH_TYPE_CERTIFICATE) then mret (Go, m) else
  if negb (cert_auth_ok (hw x)) then n ← next_method "No certificate"; mret (n, m) else
  ci ← get_cert_info;
  if ci <? 0 then mret (Fail "Could not read certificate", m) else
  x ← lget id;
  if negb def_group && negb (bool_decide (cert_groups x = [])) && bool_decide (groupname x = []) then
    ret ← get (Some (to_bytes "Please select your group.")) 0; mret (Done ret, m)
  else
    mret (Go, {| m with i_tls_auth_ok := cert_auth_ok (hw x);
                        i_cert_user_name := Some (cert_username x);
                        i_cert_group_names := cert_groups x;
                        i_auth_type := Z.lor (i_auth_type m) AUTH_TYPE_CERTIFICATE |}).

(** The group a client selects: whether it is the default one, and what to
    send. *)
Definition init_group : LM W (bool * option (list Z)) :=
  g ← body_field GROUPNAME_FIELD (Some GROUPNAME_FIELD_XML);
  g ← match g with
      | Some _ => mret g
      | None => body_field GROUPNAME_FIELD2 (Some GROUPNAME_FIELD_XML)
      end;
  match g with
  | None => mret (false, None)
  | Some g =>
    if bool_decide (default_select_group conf = Some (cstr g)) then mret (true, None) else
    lmod (λ x, {| x with groupname := strlcpyb MAX_USERNAME_SIZE g |}) ;;;
    g ← lget groupname;
    mret (false, Some g)
  end.

(** The name of a user in the first step. *)
Definition init_user (m : sec_auth_init) : LM W (next * sec_auth_init) :=
  x ← lget id;
  if negb (sel_type x AUTH_TYPE_USERNAME_PASS) then mret (Go, m) else
  u ← body_field USERNAME_FIELD None;
  match u with
  | None => mret (AskAuth, m)
  | Some u =>
    lmod (λ x, {| x with username := strlcpyb MAX_USERNAME_SIZE u |}) ;;;
    u ← lget username;
    mret (Go, {| m with i_user_name := Some u;
                        i_auth_type := Z.lor (i_auth_type m) AUTH_TYPE_USERNAME_PASS |})
  end.

Definition init_gssapi (m : sec_auth_init) : LM W (next * sec_auth_init) :=
  x ← lget id;
  if negb (sel_type x AUTH_TYPE_GSSAPI) then mret (Go, m) else
  match authorization (req (hw x)) with
  | None | Some [] => ret ← basic_auth_handler None; mret (Done ret, m)
  | Some a =>
    if (10 <? length a)%nat then
      mret (Go, {| m with i_user_name := Some (cstr (drop 10 a));
                          i_auth_type := Z.lor (i_auth_type m) AUTH_TYPE_GSSAPI |})
    else mret (Fail "Authentication failed", m)
  end.

(** The first step: [auth_state] is [S_AUTH_INACTIVE]. *)
Definition auth_init (get : option (list Z) → Z → LM W Z) : LM W next :=
  '(def_group, g) ← init_group;
  let m := {| i_user_name := None; i_group_name := g; i_auth_type := 0; i_tls_auth_ok := false;
              i_cert_user_name := None; i_cert_group_names := []; i_user_agent := None |} in
  '(n, m) ← init_gssapi m;
  match n with
  | Go =>
    '(n, m) ← init_user m;
    match n with
    | Go =>
      '(n, m) ← init_cert get def_group m;
      match n with
      | Go =>
        x ← lget id;
        let ua := user_agent (req (hw x)) in
        let m := {| m with i_user_agent := if bool_decide (ua = []) then None else Some ua |} in
        c ← lcall secmod_connect;
        if negb (c : bool) then mret (Fail "Internal error") else
        lemit (SecInit m) ;;;
        ret ← lcall (secmod_init m);
        if ret <? 0 then mret (Fail "Internal error") else
        set_auth_state S_AUTH_INIT ;;; mret Go
      | _ => mret n
      end
    | _ => mret n
    end
  | _ => mret n
  end.

(** A further step: a password for the security module. *)
Definition auth_cont : LM W next :=
  x ← lget id;
  let q := req (hw x) in
  p ← (if sel_type x AUTH_TYPE_GSSAPI then
         mret (match authorization q with
               | Some a => if (10 <? length a)%nat then inl (Some (cstr (drop 10 a)))
                           else inr "Authentication failed"
               | None => inr "Authentication failed" end)
       else if sel_type x AUTH_TYPE_USERNAME_PASS then
         r ← lift (match_password_in_reply wcrtomb true (body q) (Z.to_nat (body_length q)));
         mret (match r with Some v => inl (Some (cstr v)) | None => inr "No password" end)
       else mret (inl None));
  match (p : option (list Z) + string) with
  | inr reason => mret (Fail reason)
  | inl None => mret (Fail "Authentication failed")
  | inl (Some pw) =>
    let m := {| c_password := pw; c_sid := if sid_set (hw x) then Some (sid (hw x)) else None |} in
    c ← lcall secmod_connect;
    if negb (c : bool) then mret (Fail "Internal error") else
    lemit (SecCont m) ;;;
    ret ← lcall (secmod_cont m);
    if ret <? 0 then mret (Fail "Internal error") else
    set_auth_state S_AUTH_REQ ;;; mret Go
  end.

(** What the answer leads to. *)
Definition auth_answer (get : option (list Z) → Z → LM W Z) : LM W next :=
  '(ret, msg, pcounter) ← recv_auth_reply;
  x ← lget id;
  if ret =? ERR_AUTH_CONTINUE then
    set_auth_state S_AUTH_REQ ;;;
    ret ← (if sel_type x AUTH_TYPE_GSSAPI then basic_auth_handler msg else get msg pcounter);
    mret (Done ret)
  else if ret <? 0 then
    if sel_type x AUTH_TYPE_GSSAPI then next_method "Authentication failed"
    else mret (Fail "Authentication failed")
  else
    set_auth_state S_AUTH_COOKIE ;;;
    ret ← post_common_handler msg;
    mret (Done ret).

Definition auth_fail (reason : string) : LM W Z :=
  _ ← out (to_bytes "HTTP/1." ++ num http_ver ++ to_bytes " 401 " ++ line reason ++
           line "Content-Length: 0" ++ crlf);
  lemit FatalClose ;;; lexit.

(** [post_auth_handler]; [get] is [get_auth_handler2]. *)
Definition post_auth_body (get : option (list Z) → Z → LM W Z) : LM W Z :=
  (x ← lget id;
   if sid_set (hw x) && bool_decide (auth_state (hw x) = S_AUTH_INACTIVE)
   then set_auth_state S_AUTH_INIT else mret tt) ;;;
  a ← lget (λ x, auth_state (hw x));
  n ← match a with
      | S_AUTH_INACTIVE => auth_init get
      | S_AUTH_INIT | S_AUTH_REQ => auth_cont
      | _ => mret (Fail "Authentication failed")
      end;
  n ← match n with Go => auth_answer get | _ => mret n end;
  match n with
  | Go => mret 0
  | Done ret => mret ret
  | AskAuth => get None 0
  | Fail reason => auth_fail reason
  end.

(** The two handlers call each other: [get_auth_handler2] for a client of
    GSSAPI, [post_auth_handler] to ask again. *)
Fixpoint post_auth (fuel : nat) : LM W Z :=
  match fuel with
  | O => λ _, Blocked
  | S fuel' => post_auth_body (get_auth_handler2 (post_auth fuel'))
  end.

Definition get_auth (fuel : nat) : LM W Z := get_auth_handler2 (post_auth fuel) None 0.

(** ** The cookie *)

Definition check_if_default_route (routes : list string) : bool :=
  existsb (λ r, bool_decide (r = "default" ∨ r = "0.0.0.0/0")%string) routes.

(** An address of the reply: the unspecified one means none. *)
Definition lease (any : string) (new old : option string) : option string :=
  match new with
  | None => old
  | Some a => if bool_decide (a = any) then None else Some a
  end.

Definition recv_cookie_auth_reply : LM W Z :=
  let fail := lmod (λ x, {| x with user_config := false |}) ;;; mret ERR_AUTH_FAIL in
  r ← lcall main_reply;
  match r with
  | inl code => mret code
  | inr m =>
    lemit (MainReplied m) ;;;
    match a_reply m with
    | REP_OK =>
      if a_fd m =? -1 then fail else
      lmod (λ x, {| x with tun_fd := a_fd m |}) ;;;
      c ← lcall (tun_claim (a_fd m));
      if negb (c =? 0) then fail else
      match a_vname m, a_config m, a_user_name m with
      | Some vn, Some (no_udp, routes), Some u =>
        if negb (length (a_sid m) =? SID_SIZE)%nat then fail else
        set_hw (λ h, {| h with sid := a_sid m; sid_set := true |}) ;;;
        s ← lget session_id;
        s ← lift (poke s 0 (a_session_id m));
        lmod (λ x,
          let v := vinfo x in
          {| x with
             username := strlcpyb MAX_USERNAME_SIZE u;
             groupname := match a_group_name m with Some g => strlcpyb MAX_USERNAME_SIZE g | None => [] end;
             session_id := s;
             user_config := true;
             vinfo := {| v_name := strlcpyb 16 vn;
                         v_ipv4 := lease "0.0.0.0" (a_ipv4 m) (v_ipv4 v);
                         v_ipv6 := lease "::" (a_ipv6 m) (v_ipv6 v);
                         v_ipv4_local := lease "0.0.0.0" (a_ipv4_local m) (v_ipv4_local v);
                         v_ipv6_local := lease "::" (a_ipv6_local m) (v_ipv6_local v) |};
             udp_port := if (no_udp : bool) then 0 else udp_port x;
             default_route := default_route x || check_if_default_route routes |}) ;;;
        mret 0
      | _, _, _ => fail
      end
    | _ => fail
    end
  end.

Definition auth_cookie : LM W Z :=
  x ← lget id;
  ci ← (if sel_type x AUTH_TYPE_CERTIFICATE && negb (cisco_client_compat conf) then
          if negb (cert_auth_ok (hw x)) then mret (-1) else get_cert_info
        else mret 0);
  if ci <? 0 then mret (-1) else
  lemit (CookieSent (cookie (hw x))) ;;;
  ret ← lcall (main_cookie (cookie (hw x)));
  if ret <? 0 then mret ret else
  ret ← recv_cookie_auth_reply;
  mret (if ret <? 0 then ret else 0).

(** [response_404] (src/worker-http-handlers.c). *)
Definition HTML_404 : list Z := line "<html><body><h1>404 Not Found</h1></body></html>".

Definition response_404 (ver : Z) : LM W Z :=
  outs [to_bytes "HTTP/1." ++ num ver ++ line " 404 Not found";
        to_bytes "Content-length: " ++ num (Z.of_nat (length HTML_404)) ++ crlf;
        line "Connection: close" ++ crlf; HTML_404].

Definition refuse (text : list Z) : LM W unit :=
  _ ← out text; lemit FatalClose ;;; lexit.

Definition cookie_authenticate_or_exit : LM W unit :=
  x ← lget id;
  if bool_decide (auth_state (hw x) = S_AUTH_COMPLETE) then mret tt else
  if negb (bool_decide (auth_state (hw x) = S_AUTH_COOKIE)) || negb (cookie_set (hw x)) then
    refuse (line "HTTP/1.1 503 Service Unavailable" ++ crlf)
  else
  ret ← auth_cookie;
  if ret <? 0 then
    refuse ((if ret =? ERR_AUTH_FAIL then line "HTTP/1.1 401 Cookie is not acceptable"
             else line "HTTP/1.1 503 Service Unavailable") ++ crlf)
  else set_auth_state S_AUTH_COMPLETE.

(** The beginning of [connect_handler]. *)
Definition connect_start : LM W unit :=
  cookie_authenticate_or_exit ;;;
  u ← lget (λ x, url (req (hw x)));
  if bool_decide (u = to_bytes "/CSCOSSLC/tunnel") then mret tt else
  _ ← response_404 1; lemit FatalClose ;;; lexit.

End login.
