(* ===== verification/LoginPages.v ===== *)
(** * Requests of a client (src/worker-vpn.c, src/worker-http-handlers.c)

    The loop of [vpn_server] over the requests of a connection, and the pages
    that are not the login form.  A request is the sequence of callbacks the
    HTTP parser makes for it; certificates and files are the class
    [PageWorld]. *)

From S2P Require Import Prelude CString IpUtil Html Str HttpHeads WorkerState HttpReq.
From S2P Require Import LoginParse Login.

Class PageWorld (W : Type) := {
  certificate_get_ours : W → option (list Z) * W;    (* the first certificate, DER *)
  pem_encode : list Z → option (list Z);
  crt_import : list Z → bool;                        (* the certificate can be read *)
  get_crt_raw : nat → Z + list Z;                    (* the issuer in the i-th chain *)
  check_issuer : list Z → list Z → bool;
  crt_export : bool → list Z → option (list Z);      (* DER or PEM *)
  xml_config_file : W → option (list Z) * W;         (* of ws->user_config *)
  file_size : list Z → W → option Z * W;             (* stat *)
  cstp_send_file : list Z → W → Z * W;
  kkdcp : Z → W → Z * W                              (* post_kkdcp_handler *)
}.

Section pages.
Context {W : Type} `{LoginWorld W, PageWorld W}.

Definition send_headers (http_ver : Z) (content_type : string) (content_length : Z) : LM W Z :=
  outs [to_bytes "HTTP/1." ++ num http_ver ++ line " 200 OK";
        line "Connection: Keep-Alive";
        to_bytes "Content-Type: " ++ line content_type;
        line "X-Transcend-Version: 1";
        to_bytes "Content-Length: " ++ num (u32 content_length) ++ crlf;
        crlf].

Definition send_data (http_ver : Z) (content_type : string) (data : list Z) : LM W Z :=
  ret ← send_headers http_ver content_type (Z.of_nat (length data));
  if ret <? 0 then mret (-1) else
  ret ← out data;
  if ret <? 0 then mret (-1) else
  ret ← lcall cstp_uncork;
  mret (if ret <? 0 then -1 else 0).

(** A connection over a UNIX socket has no session. *)
Definition get_cert (http_ver : Z) : LM W Z :=
  t ← lget tls;
  if negb t then mret (-1) else
  c ← lcall certificate_get_ours;
  match c with
  | None => mret (-1)
  | Some c => match pem_encode c with
              | None => mret (-1)
              | Some p => send_data http_ver "application/x-pem-file" p
              end
  end.

Definition get_cert_der (http_ver : Z) : LM W Z :=
  t ← lget tls;
  if negb t then mret (-1) else
  c ← lcall certificate_get_ours;
  match c with
  | None => mret (-1)
  | Some c => send_data http_ver "application/pkix-cert" c
  end.

(** The loop of [ca_handler] over the chains; [handle] is whether [issuer] is
    not NULL.  The error with which it leaves, or what is sent. *)
Fixpoint find_issuer (crt : list Z) (der : bool) (handle : bool) (i n : nat) : Z + list Z :=
  match n with
  | O => inr []
  | S n' =>
    match get_crt_raw i with
    | inl e => inl e
    | inr ca =>
      if negb (handle && crt_import ca) then inl (-1) else
      if check_issuer crt ca then
        match crt_export der ca with None => inl (-1) | Some o => inr o end
      else find_issuer crt der false (S i) n'
    end
  end.

Definition GNUTLS_E_REQUESTED_DATA_NOT_AVAILABLE : Z := -56.

Definition ca_handler (http_ver : Z) (der : bool) : LM W Z :=
  t ← lget tls;
  if negb t then mret (-1) else
  c ← lcall certificate_get_ours;
  match c with
  | None => mret (-1)
  | Some c =>
    if negb (crt_import c) then mret (-1) else
    ret ← match find_issuer c der true 0 8 with
          | inl e => mret e
          | inr o => send_data http_ver "application/pkix-cert" o
          end;
    mret (if ret =? GNUTLS_E_REQUESTED_DATA_NOT_AVAILABLE then -1 else ret)
  end.

Definition VPN_VERSION : list Z := to_bytes "0,0,0000" ++ [10].
Definition XML_START : list Z := XML_HEAD ++ quoted "<vpn rev=`1.0`>^</vpn>^".
Definition SH_SCRIPT : list Z := quoted "#!/bin/sh^^exit 0".
Definition EMPTY_MSG : list Z := quoted "<html></html>^".

Definition get_string (http_ver : Z) : LM W Z :=
  u ← lget (λ x, url (req (hw x)));
  send_data http_ver "text/xml"
    (if bool_decide (u = to_bytes "/1/binaries/update.txt") then VPN_VERSION else XML_START).
Definition get_dl (http_ver : Z) : LM W Z :=
  send_data http_ver "application/x-shellscript" SH_SCRIPT.
Definition get_empty (http_ver : Z) : LM W Z :=
  send_data http_ver "text/html" EMPTY_MSG.

Context (conf : login_conf).

Definition null_deref {A} : LM W A := λ _, Undef.

(** [get_config_handler]: the profile, for a client with an accepted cookie.
    Without a configuration of the user a NULL pointer is read. *)
Definition get_config (http_ver : Z) : LM W Z :=
  cookie_authenticate_or_exit conf ;;;
  uc ← lget user_config;
  if negb (uc : bool) then null_deref else
  f ← lcall xml_config_file;
  match f with
  | None => _ ← response_404 http_ver; mret (-1)
  | Some f =>
    st ← lcall (file_size f);
    match st with
    | None => _ ← response_404 http_ver; mret (-1)
    | Some size =>
      ret ← send_headers http_ver "text/xml" size;
      if ret <? 0 then mret (-1) else
      ret ← lcall cstp_uncork;
      if ret <? 0 then mret (-1) else
      lemit (ProfileSent f) ;;;
      ret ← lcall (cstp_send_file f);
      mret (if ret <? 0 then -1 else 0)
    end
  end.

(** ** The loop *)

Inductive callback :=
| on_url (a : list Z)
| on_header_field (a : list Z)
| on_header_value (a : list Z)
| on_headers_complete
| on_body (a : list Z)
| on_message_complete.

Inductive method := HTTP_GET | HTTP_POST | HTTP_CONNECT | HTTP_OTHER.

(** A request: the callbacks up to the reception that completes its headers,
    the ones of later receptions. *)
Record request := {
  rq_method : method;
  rq_major : Z;
  rq_minor : Z;
  rq_head : list callback;
  rq_rest : list callback }.

Context (mem : Z → bool).
Context (base64_encode : list Z → list Z) (base64_decode : list Z → list Z * bool).
Context (hex2bin : list Z → list Z → list Z) (wcrtomb : Z → option (list Z)).
Context (fuel : nat).

Definition settings (c : callback) : http_ws → cres (Z * http_ws) :=
  match c with
  | on_url a => http_url_cb a
  | on_header_field a => http_header_field_cb base64_decode hex2bin (http conf) mem a
  | on_header_value a => http_header_value_cb mem a
  | on_headers_complete => http_header_complete_cb base64_decode hex2bin (http conf) mem
  | on_body a => http_body_cb mem a
  | on_message_complete => http_message_complete_cb
  end.

(** The parser makes no callback after one that does not return 0. *)
Fixpoint execute (cs : list callback) (h : http_ws) : cres http_ws :=
  match cs with
  | [] => Ok h
  | c :: cs' => '(ret, h) ← settings c h; if ret =? 0 then execute cs' h else Ok h
  end.

Definition receive (cs : list callback) : LM W unit :=
  h ← lget hw;
  h ← lift (execute cs h);
  set_hw (λ _, h).

Definition http_get (h : handler) (http_ver : Z) : LM W Z :=
  match h with
  | get_auth_handler => get_auth conf mem base64_encode wcrtomb http_ver fuel
  | get_cert_handler => get_cert http_ver
  | get_cert_der_handler => get_cert_der http_ver
  | get_ca_handler => ca_handler http_ver false
  | get_ca_der_handler => ca_handler http_ver true
  | get_config_handler => get_config http_ver
  | get_empty_handler => get_empty http_ver
  | get_dl_handler => get_dl http_ver
  | get_string_handler => get_string http_ver
  | post_auth_handler => post_auth conf mem base64_encode wcrtomb http_ver fuel
  | post_kkdcp_handler => lcall (kkdcp http_ver)
  end.

(** Whether another request is read. *)
Definition vpn_server_request (r : request) : LM W bool :=
  set_hw http_req_reset ;;;
  receive (rq_head r) ;;;
  q ← lget (λ x, req (hw x));
  if negb (headers_complete q) then lexit else
  let keep ret := (ret =? 0) && (negb (rq_major r =? 1) || negb (rq_minor r =? 0)) in
  match rq_method r with
  | HTTP_GET =>
    match http_get_url_handler (url q) with
    | None => _ ← response_404 (rq_minor r); mret false
    | Some h => ret ← http_get h (rq_minor r); mret (keep ret)
    end
  | HTTP_POST =>
    (if message_complete q then mret tt else receive (rq_rest r)) ;;;
    q ← lget (λ x, req (hw x));
    if negb (message_complete q) then lexit else
    match http_post_url_handler (http conf) (url q) with
    | None => _ ← response_404 (rq_minor r); mret false
    | Some h => ret ← http_get h (rq_minor r); mret (keep ret)
    end
  | HTTP_CONNECT => connect_start conf ;;; lemit Tunnel ;;; mret false
  | HTTP_OTHER => _ ← response_404 (rq_minor r); mret false
  end.

Definition MAX_HTTP_REQUESTS : nat := 16.

Fixpoint vpn_server_loop (requests_left : nat) (rs : list request) : LM W unit :=
  match rs with
  | [] => mret tt
  | r :: rs' =>
    match requests_left with
    | O => lexit
    | S n => again ← vpn_server_request r; if (again : bool) then vpn_server_loop n rs' else mret tt
    end
  end.

(** [vpn_server] after the handshake. *)
Definition vpn_server (rs : list request) : LM W unit :=
  set_hw (λ h, {| h with selected_auth := 0 |}) ;;;
  set_hw (λ h, if cert_auth_ok h then (ws_switch_auth_to AUTH_TYPE_CERTIFICATE h).2 else h) ;;;
  set_hw http_req_init ;;;
  vpn_server_loop MAX_HTTP_REQUESTS rs.

End pages.
