(* ===== verification/LoginSpec.v ===== *)
(** * Logging in: who hands out a cookie and who accepts it

    Over any sequence of requests, a cookie is handed out only after the
    security module has accepted the user, and a tunnel is set up only after
    the main process has accepted the cookie. *)

From S2P Require Import Prelude CString IpUtil Html Str HttpHeads WorkerState HttpReq HttpReqSpec.
From S2P Require Import HttpSafety LoginParse Login LoginPages.

Class LoginLaws (W : Type) `{LoginWorld W} := {
  secmod_error w c : (secmod_reply w).1 = inl c → c < 0;
  main_error w c : (main_reply w).1 = inl c → c < 0 }.

Section quiet.
Context {W : Type}.

(** ** What a computation may do

    Three actions need a reason: handing out a cookie, setting up a tunnel
    and sending a profile.  [quiet m]: [m] does none of them and completes no
    login. *)

Definition plain (a : laction) : Prop :=
  match a with OutCookie _ | Tunnel | ProfileSent _ => False | _ => True end.

Definition complete (x : login_ws) : Prop := auth_state (hw x) = S_AUTH_COMPLETE.

Definition ext (s s' : lstate W) : Prop :=
  (∃ l, llog s' = llog s ++ l ∧ Forall plain l) ∧
  (complete (lw s') → complete (lw s) ∧ user_config (lw s') = user_config (lw s)).

Definition quiet {A} (m : LM W A) : Prop := ∀ s,
  match m s with Val _ s' | Exit _ s' => ext s s' | _ => True end.

#[global] Instance ext_preorder : PreOrder ext.
Proof.
  split.
  - intros s. split; [|done]. exists []. by rewrite app_nil_r.
  - intros s1 s2 s3 [(l1 & E1 & H1) A1] [(l2 & E2 & H2) A2]. split.
    + exists (l1 ++ l2). split; [by rewrite E2, E1, (assoc_L (++))|by apply Forall_app].
    + intros [C E]%A2. destruct (A1 C) as [? E']. split; [done|congruence].
Qed.

Lemma ext_same s s' : llog s' = llog s →
  (complete (lw s') → complete (lw s) ∧ user_config (lw s') = user_config (lw s)) → ext s s'.
Proof. intros E ?. split; [|done]. exists []. by rewrite E, app_nil_r. Qed.

Lemma quiet_bind {A B} (m : LM W A) (f : A → LM W B) :
  quiet m → (∀ a, quiet (f a)) → quiet (m ≫= f).
Proof.
  intros Hm Hf s. unfold mbind, LM_bind. specialize (Hm s). destruct (m s) as [a s'|r s'| |]; try done.
  specialize (Hf a s'). destruct (f a s'); try done; by etrans.
Qed.

Lemma quiet_ret {A} (a : A) : quiet (mret a).
Proof. intros s. simpl. reflexivity. Qed.
Lemma quiet_get {A} (f : login_ws → A) : quiet (lget f).
Proof. intros s. simpl. reflexivity. Qed.
Lemma quiet_call {A} (f : W → A * W) : quiet (lcall f).
Proof. intros s. unfold lcall. destruct (f (lworld s)). by apply ext_same. Qed.
Lemma quiet_emit a : plain a → quiet (lemit a).
Proof. intros Ha s. split; [|done]. exists [a]. split; [done|by constructor]. Qed.
Lemma quiet_exit {A} : quiet (lexit (A:=A)).
Proof. intros s. simpl. reflexivity. Qed.
Lemma quiet_lift {A} (m : cres A) : quiet (lift m).
Proof. intros s. unfold lift. destruct m; simpl; done || reflexivity. Qed.

Lemma quiet_mod f : (∀ x, complete (f x) → complete x ∧ user_config (f x) = user_config x) →
  quiet (lmod f).
Proof. intros Hf s. apply ext_same; simpl; auto. Qed.
Lemma quiet_set_hw f : (∀ h, auth_state (f h) = S_AUTH_COMPLETE → auth_state h = S_AUTH_COMPLETE) →
  quiet (set_hw f).
Proof. intros Hf. apply quiet_mod. intros x Hx. split; [|done]. by apply Hf. Qed.

End quiet.

Create HintDb quiet discriminated.
#[export] Hint Resolve quiet_ret quiet_get quiet_call quiet_exit quiet_lift : quiet.

(** Walks through a handler. *)
Ltac quiet_step :=
  match goal with
  | |- quiet (mbind _ _) => apply quiet_bind; [|intros]
  | |- quiet (lemit _) => by apply quiet_emit
  | |- quiet (lmod _) => apply quiet_mod; intros; split; done
  | |- quiet (set_hw _) => apply quiet_set_hw; by intros ?
  | |- quiet (set_auth_state _) => apply quiet_set_hw; by intros ?
  | |- quiet (if ?b then _ else _) => destruct b
  | |- quiet (match ?x with _ => _ end) => destruct x
  | |- quiet (let _ := _ in _) => intros; cbv zeta
  | |- quiet _ => solve [auto with quiet nocore]
  end.
Ltac quiet := repeat quiet_step.

Section invariant.
Context {W : Type}.

(** ** The invariant *)

(** The main process has accepted a cookie it was sent. *)
Definition accepted (l : list laction) : Prop :=
  ∃ c r l1 l2, l = l1 ++ CookieSent c :: MainReplied r :: l2 ∧ a_reply r = REP_OK.

(** The security module has answered that the user with the cookie [c] is
    authenticated. *)
Definition granted (c : list Z) (l : list laction) : Prop :=
  ∃ r, SecReplied r ∈ l ∧ r_reply r = REP_OK ∧ r_sid r = Some c.

(** What an action needs to have happened before it. *)
Definition justified (l : list laction) (a : laction) : Prop :=
  match a with
  | OutCookie c => granted c l
  | Tunnel | ProfileSent _ => accepted l
  | _ => True
  end.

Inductive ok_log : list laction → Prop :=
| ok_nil : ok_log []
| ok_snoc l a : ok_log l → justified l a → ok_log (l ++ [a]).

Definition login_inv (s : lstate W) : Prop :=
  (complete (lw s) → accepted (llog s) ∧ user_config (lw s) = true) ∧ ok_log (llog s).

Definition lkeeps {A} (m : LM W A) : Prop := ∀ s, login_inv s →
  match m s with Val _ s' | Exit _ s' => login_inv s' | _ => True end.

Lemma accepted_app l l' : accepted l → accepted (l ++ l').
Proof.
  intros (c & r & l1 & l2 & -> & Hr). exists c, r, l1, (l2 ++ l'). split; [|done].
  by rewrite <- (assoc_L (++)).
Qed.

Lemma granted_app c l l' : granted c l → granted c (l ++ l').
Proof. intros (r & ? & ? & ?). exists r. split; [|done]. apply elem_of_app. by left. Qed.

Lemma justified_plain l a : plain a → justified l a.
Proof. by destruct a. Qed.

Lemma ok_log_app l l' : ok_log l → Forall plain l' → ok_log (l ++ l').
Proof.
  intros Hl. induction l' as [|a l' IH] using rev_ind; intros Hp; [by rewrite app_nil_r|].
  apply Forall_app in Hp as [Hp Ha]. rewrite (assoc_L (++)). constructor; [auto|].
  apply justified_plain. by inversion Ha.
Qed.

Lemma ext_inv s s' : ext s s' → login_inv s → login_inv s'.
Proof.
  intros [(l & E & Hl) Ha] [H1 H2]. unfold login_inv. rewrite E. split.
  - intros [C ->]%Ha. destruct (H1 C). split; [by apply accepted_app|done].
  - by apply ok_log_app.
Qed.

Lemma quiet_keeps {A} (m : LM W A) : quiet m → lkeeps m.
Proof. intros Hm s Hs. specialize (Hm s). destruct (m s); try done; by eapply ext_inv. Qed.

Lemma keeps_bind {A B} (m : LM W A) (f : A → LM W B) :
  lkeeps m → (∀ a, lkeeps (f a)) → lkeeps (m ≫= f).
Proof.
  intros Hm Hf s Hs. unfold mbind, LM_bind. specialize (Hm s Hs).
  destruct (m s) as [a s'|r s'| |]; try done. exact (Hf a s' Hm).
Qed.

Lemma keeps_blocked {A} : lkeeps (A:=A) (λ _, Blocked).
Proof. by intros s Hs. Qed.

(** [m] keeps the invariant where [P] holds of what has happened. *)
Definition given {A} (P : list laction → Prop) (m : LM W A) : Prop :=
  ∀ s, login_inv s → P (llog s) →
  match m s with Val _ s' | Exit _ s' => login_inv s' | _ => True end.

Lemma given_bind {A B} (P : list laction → Prop) (m : LM W A) (f : A → LM W B) :
  (∀ l l', P l → P (l ++ l')) → quiet m → (∀ a, given P (f a)) → given P (m ≫= f).
Proof.
  intros HP Hm Hf s Hs Hg. unfold mbind, LM_bind. specialize (Hm s).
  destruct (m s) as [a s'|r s'| |]; try done.
  - apply Hf; [by eapply ext_inv|]. destruct Hm as [(l & -> & _) _]. auto.
  - by eapply ext_inv.
Qed.

Lemma given_quiet {A} P (m : LM W A) : quiet m → given P m.
Proof. intros Hm s Hs _. by apply quiet_keeps. Qed.

Lemma inv_emit s a : login_inv s → justified (llog s) a →
  login_inv {| lw := lw s; lworld := lworld s; llog := llog s ++ [a] |}.
Proof.
  intros [H1 H2] Ha. split; simpl; [|by constructor].
  intros C. destruct (H1 C). split; [by apply accepted_app|done].
Qed.

Lemma given_emit {A} (P : list laction → Prop) a (m : LM W A) :
  (∀ l, P l → justified l a) → quiet m → given P (lemit a ;;; m).
Proof.
  intros Ha Hm s Hs Hg. unfold mbind, LM_bind, lemit.
  apply (quiet_keeps m Hm). apply inv_emit; auto.
Qed.

(** Before the login is complete, nothing depends on the user's
    configuration. *)
Definition early {A} (m : LM W A) : Prop := ∀ s, login_inv s → ¬ complete (lw s) →
  match m s with Val _ s' | Exit _ s' => login_inv s' ∧ ¬ complete (lw s') | _ => True end.

Lemma early_bind {A B} (m : LM W A) (f : A → LM W B) :
  early m → (∀ a, early (f a)) → early (m ≫= f).
Proof.
  intros Hm Hf s Hs Hn. unfold mbind, LM_bind. specialize (Hm s Hs Hn).
  destruct (m s) as [a s'|r s'| |]; try done. destruct Hm. by apply Hf.
Qed.

Lemma early_quiet {A} (m : LM W A) : quiet m → early m.
Proof.
  intros Hm s Hs Hn. specialize (Hm s).
  destruct (m s); try done; (split; [by eapply ext_inv|]); by intros []%Hm.
Qed.

Lemma early_mod f : (∀ x, auth_state (hw (f x)) = auth_state (hw x)) → early (lmod f).
Proof.
  intros Hf s [_ Hl] Hn. assert (¬ complete (f (lw s))) by (unfold complete; by rewrite Hf).
  by repeat split.
Qed.

End invariant.

Ltac keeps_step :=
  match goal with
  | H : _ |- lkeeps _ => solve [apply H]
  | |- lkeeps (mbind _ _) => apply keeps_bind; [|intros]
  | |- lkeeps (if ?b then _ else _) => destruct b
  | |- lkeeps (match ?x with _ => _ end) => destruct x
  | |- lkeeps (let _ := _ in _) => intros; cbv zeta
  | |- lkeeps _ => apply quiet_keeps; solve [quiet]
  end.
Ltac keeps := repeat keeps_step.

Ltac early := repeat match goal with
  | |- early (mbind _ _) => apply early_bind; [|intros]
  | |- early (if ?b then _ else _) => destruct b
  | |- early (match ?x with _ => _ end) => destruct x
  | |- early (lmod _) => apply early_mod; done
  | |- early (let _ := _ in _) => intros; cbv zeta
  | H : _ |- early _ => solve [apply H]
  | |- early _ => apply early_quiet; solve [quiet]
  end.

Section handlers.
Context {W : Type} `{LoginWorld W}.
Context (conf : login_conf) (mem : Z → bool).
Context (base64_encode : list Z → list Z) (base64_decode : list Z → list Z * bool).
Context (hex2bin : list Z → list Z → list Z) (wcrtomb : Z → option (list Z)).
Context (http_ver : Z).

Lemma quiet_out t : quiet (W:=W) (out t).
Proof. unfold out. quiet. Qed.
#[local] Hint Resolve quiet_out : quiet.

Lemma quiet_outs ts : quiet (W:=W) (outs ts).
Proof. induction ts; simpl; quiet. Qed.
#[local] Hint Resolve quiet_outs : quiet.

Lemma quiet_basic msg : quiet (W:=W) (basic_auth_handler http_ver msg).
Proof. unfold basic_auth_handler. quiet. Qed.
Lemma quiet_cert_info : quiet (W:=W) get_cert_info.
Proof. unfold get_cert_info. quiet. Qed.
#[local] Hint Resolve quiet_basic quiet_cert_info : quiet.

Lemma quiet_404 v : quiet (W:=W) (response_404 v).
Proof. unfold response_404. quiet. Qed.
Lemma switch_next_auth h : auth_state (ws_switch_auth_to_next h).2 = auth_state h.
Proof. unfold ws_switch_auth_to_next. by destruct (find_method _ _ _). Qed.

Lemma quiet_next_method r : quiet (W:=W) (next_method r).
Proof.
  unfold next_method. quiet. apply quiet_set_hw. intros h. by rewrite switch_next_auth.
Qed.

#[local] Hint Resolve quiet_404 quiet_next_method : quiet.

Lemma quiet_body_field f x : quiet (W:=W) (body_field wcrtomb f x).
Proof. unfold body_field. quiet. Qed.
#[local] Hint Resolve quiet_body_field : quiet.

Lemma quiet_init_group : quiet (W:=W) (init_group conf wcrtomb).
Proof. unfold init_group. quiet. Qed.
Lemma quiet_init_user m : quiet (W:=W) (init_user wcrtomb m).
Proof. unfold init_user. quiet. Qed.
Lemma quiet_init_gssapi m : quiet (W:=W) (init_gssapi http_ver m).
Proof. unfold init_gssapi. quiet. Qed.
Lemma quiet_auth_cont : quiet (W:=W) (auth_cont wcrtomb).
Proof. unfold auth_cont. quiet. Qed.
Lemma quiet_auth_fail r : quiet (W:=W) (auth_fail http_ver r).
Proof. unfold auth_fail. quiet. Qed.
Lemma quiet_refuse t : quiet (W:=W) (refuse t).
Proof. unfold refuse. quiet. Qed.
#[local] Hint Resolve quiet_init_group quiet_init_user quiet_init_gssapi quiet_auth_cont
  quiet_auth_fail quiet_refuse : quiet.

Lemma quiet_recv_auth_reply : quiet (W:=W) recv_auth_reply.
Proof. unfold recv_auth_reply. quiet. Qed.
#[local] Hint Resolve quiet_recv_auth_reply : quiet.

(** What a positive answer of the security module leaves. *)
Lemma recv_auth_reply_ok `{!LoginLaws W} s ret msg n s' :
  recv_auth_reply (W:=W) s = Val (ret, msg, n) s' → 0 ≤ ret →
  granted (cookie (hw (lw s'))) (llog s').
Proof.
  unfold recv_auth_reply. cbv [mbind LM_bind mret LM_ret lcall lemit lmod set_hw].
  pose proof (secmod_error (lworld s)) as Herr. destruct (secmod_reply (lworld s)) as [[c|m] w].
  { intros E ?. simplify_eq. specialize (Herr ret eq_refl). lia. }
  destruct (r_reply m) eqn:Er, (r_sid m) as [sd|] eqn:Es, (r_user_name m) as [u|]; simpl;
    repeat case_match; intros; simplify_eq/=; try (unfold ERR_AUTH_FAIL, ERR_AUTH_CONTINUE in *; lia);
    try done.
  exists m. split; [|done]. apply elem_of_app. right. by left.
Qed.

(** ** The page with the cookie *)

Lemma post_common_grants msg s : login_inv s → granted (cookie (hw (lw s))) (llog s) →
  match post_common_handler conf base64_encode http_ver msg s with
  | Val _ s' | Exit _ s' => login_inv s' | _ => True end.
Proof.
  intros Hs Hg. unfold post_common_handler. unfold mbind at 1, LM_bind at 1, lget at 1.
  set (x := id (lw s)). change (lw s) with x in Hg. clearbody x. revert s Hs Hg.
  match goal with |- ∀ s, _ → _ → match ?m s with _ => _ end =>
    enough (given (granted (cookie (hw x))) m) as Hm by (intros s Hs Hg; by apply Hm) end.
  cbv zeta. apply given_bind; [apply granted_app|quiet|intros ret].
  destruct (ret <? 0); [apply given_quiet; quiet|]. apply given_emit; [done|]. quiet.
Qed.

(** ** The login form *)

Section form.
Context (get : option (list Z) → Z → LM W Z) (Hget : ∀ msg n, lkeeps (get msg n)).
Context `{!LoginLaws W}.

(** After the answer: everything but the page with the cookie. *)
Lemma keeps_answer : lkeeps (auth_answer conf base64_encode http_ver get).
Proof.
  intros s Hs. unfold auth_answer. unfold mbind at 1, LM_bind at 1.
  pose proof (quiet_keeps _ quiet_recv_auth_reply s Hs) as Hi.
  destruct (recv_auth_reply s) as [[[ret msg] n] s1|r s1| |] eqn:E; try done.
  unfold mbind at 1, LM_bind at 1, lget at 1. generalize (id (lw s1)). intros x.
  destruct (ret =? ERR_AUTH_CONTINUE); [|destruct (Z.ltb_spec ret 0) as [|Hr]].
  - revert s1 Hi E. intros s1 Hi _. revert s1 Hi. apply keeps_bind; [apply quiet_keeps; quiet|intros _].
    apply keeps_bind; [|intros; apply quiet_keeps; quiet].
    destruct (sel_type x AUTH_TYPE_GSSAPI); [apply quiet_keeps; quiet|apply Hget].
  - revert s1 Hi E. intros s1 Hi _. revert s1 Hi. apply quiet_keeps. quiet.
  - pose proof (recv_auth_reply_ok _ _ _ _ _ E Hr) as Hg.
    assert (quiet (W:=W) (set_auth_state S_AUTH_COOKIE)) as Hq by quiet.
    pose proof (quiet_keeps _ Hq s1 Hi) as Hi'. simpl in Hi'.
    pose proof (post_common_grants msg _ Hi' Hg) as Hp.
    cbv [mbind LM_bind set_auth_state set_hw lmod mret LM_ret]. by destruct (post_common_handler _ _ _ _ _).
Qed.

Lemma keeps_init_cert d m : lkeeps (init_cert get d m).
Proof. unfold init_cert. keeps. Qed.

Lemma keeps_init : lkeeps (auth_init conf wcrtomb http_ver get).
Proof.
  unfold auth_init. pose proof keeps_init_cert as Hc. keeps.
Qed.

Lemma keeps_post_body : lkeeps (post_auth_body conf base64_encode wcrtomb http_ver get).
Proof. unfold post_auth_body. pose proof keeps_init. pose proof keeps_answer. keeps. Qed.

End form.

Lemma keeps_get post msg n : lkeeps post →
  lkeeps (get_auth_handler2 conf mem base64_encode http_ver post msg n).
Proof. intros Hp. unfold get_auth_handler2. keeps. Qed.

Lemma keeps_post `{!LoginLaws W} fuel : lkeeps (post_auth conf mem base64_encode wcrtomb http_ver fuel).
Proof.
  induction fuel as [|fuel IH]; [apply keeps_blocked|]. apply keeps_post_body; [|done].
  intros msg n. by apply keeps_get.
Qed.

(** ** The cookie *)

(** What an accepted cookie leaves. *)
Lemma recv_cookie_ok `{!LoginLaws W} s ret s' : recv_cookie_auth_reply s = Val ret s' → 0 ≤ ret →
  user_config (lw s') = true ∧ ∃ r, llog s' = llog s ++ [MainReplied r] ∧ a_reply r = REP_OK.
Proof.
  unfold recv_cookie_auth_reply. cbv [mbind LM_bind mret LM_ret lcall lemit lmod set_hw lget lift].
  pose proof (main_error (lworld s)) as Herr. destruct (main_reply (lworld s)) as [[c|m] w].
  { intros E ?. simplify_eq. specialize (Herr ret eq_refl). lia. }
  destruct (a_reply m) eqn:Er, (a_vname m), (a_config m) as [[]|], (a_user_name m); simpl;
    repeat case_match; intros; simplify_eq/=; try (unfold ERR_AUTH_FAIL in *; lia); try done;
    split; try done; by exists m.
Qed.


Lemma early_recv_cookie : early recv_cookie_auth_reply.
Proof. unfold recv_cookie_auth_reply. cbv zeta. early. Qed.

Lemma early_auth_cookie : early (auth_cookie conf).
Proof. unfold auth_cookie. pose proof early_recv_cookie. early. Qed.

Lemma auth_cookie_ok `{!LoginLaws W} s ret s' : auth_cookie (W:=W) conf s = Val ret s' → 0 ≤ ret →
  accepted (llog s') ∧ user_config (lw s') = true.
Proof.
  unfold auth_cookie. unfold mbind at 1, LM_bind at 1, lget at 1.
  generalize (id (lw s)). intros x. unfold mbind at 1, LM_bind at 1.
  match goal with |- match ?m with _ => _ end = _ → _ => destruct m as [ci s1| | |] end; try done.
  destruct (ci <? 0); [intros [= <- _]; lia|].
  cbv [mbind LM_bind mret LM_ret lcall lemit].
  match goal with |- context [main_cookie ?c ?w] => destruct (main_cookie c w) as [rm w'] end.
  destruct (Z.ltb_spec rm 0); [intros [= <- _]; lia|].
  match goal with |- match ?m with _ => _ end = _ → _ => destruct m as [rr s2| | |] eqn:E end; try done.
  destruct (Z.ltb_spec rr 0); [intros [= <- _]; lia|]. intros [= <- <-] _.
  destruct (recv_cookie_ok _ _ _ E) as (Hu & r & El & Hr); [done|]. split; [|done].
  exists (cookie (hw x)), r, (llog s1), []. split; [|done]. rewrite El. simpl. by rewrite <- (assoc_L (++)).
Qed.

Lemma refuse_exits t s : login_inv s →
  match refuse (W:=W) t s with Val _ _ => False | Exit _ s' => login_inv s' | _ => True end.
Proof.
  intros Hs. pose proof (quiet_keeps _ (quiet_refuse t) s Hs) as Hq. revert Hq.
  cbv [refuse out lemit lexit mbind LM_bind lcall]. by destruct (cstp_out _ _).
Qed.

Lemma authenticate_keeps `{!LoginLaws W} s : login_inv s →
  match cookie_authenticate_or_exit (W:=W) conf s with
  | Val _ s' => login_inv s' ∧ complete (lw s')
  | Exit _ s' => login_inv s'
  | _ => True
  end.
Proof.
  intros Hs. unfold cookie_authenticate_or_exit. unfold mbind at 1, LM_bind at 1, lget at 1.
  simpl id. case_bool_decide as Hc; [done|].
  destruct (negb _ || negb _).
  { match goal with |- context [refuse ?t] => pose proof (refuse_exits t s Hs) end.
    by destruct (refuse _ s). }
  unfold mbind, LM_bind.
  pose proof (early_auth_cookie s Hs Hc) as He.
  destruct (auth_cookie conf s) as [ret s1|r s1| |] eqn:E; [|by destruct He|done|done].
  destruct He as [Hi Hn]. destruct (Z.ltb_spec ret 0).
  - match goal with |- context [refuse ?t] => pose proof (refuse_exits t s1 Hi) end.
    by destruct (refuse _ s1).
  - destruct (auth_cookie_ok _ _ _ E) as [? Hu]; [done|]. destruct Hi. split; [|done]. by split.
Qed.

Lemma keeps_authenticate `{!LoginLaws W} : lkeeps (W:=W) (cookie_authenticate_or_exit conf).
Proof.
  intros s Hs. pose proof (authenticate_keeps s Hs) as Ha.
  destruct (cookie_authenticate_or_exit conf s); [by destruct Ha|done..].
Qed.

End handlers.

#[export] Hint Resolve quiet_out quiet_outs quiet_basic quiet_cert_info quiet_404 quiet_refuse : quiet.
