(* ===== verification/LoginTheorems.v ===== *)
(** * Logging in: theorems

    The invariant of [LoginSpec] over the requests of a connection. *)

From S2P Require Import Prelude CString IpUtil Html Str HttpHeads WorkerState HttpReq HttpReqSpec.
From S2P Require Import HttpSafety LoginParse Login LoginPages LoginSpec.

Section pages.
Context {W : Type} `{LoginWorld W, PageWorld W, !LoginLaws W}.
Context (conf : login_conf).

Lemma quiet_headers v t n : quiet (W:=W) (send_headers v t n).
Proof. unfold send_headers. quiet. Qed.
#[local] Hint Resolve quiet_headers : quiet.

Lemma quiet_send_data v t d : quiet (W:=W) (send_data v t d).
Proof. unfold send_data. quiet. Qed.
#[local] Hint Resolve quiet_send_data : quiet.

Lemma quiet_get_cert v : quiet (W:=W) (get_cert v).
Proof. unfold get_cert. quiet. Qed.
Lemma quiet_get_cert_der v : quiet (W:=W) (get_cert_der v).
Proof. unfold get_cert_der. quiet. Qed.
Lemma quiet_ca v der : quiet (W:=W) (ca_handler v der).
Proof. unfold ca_handler. quiet. Qed.
Lemma quiet_get_string v : quiet (W:=W) (get_string v).
Proof. unfold get_string. quiet. Qed.

(** ** The profile *)

Lemma given_profile v f : given accepted (W:=W)
  (st ← lcall (file_size f);
   match st with
   | None => _ ← response_404 v; mret (-1)
   | Some size =>
     ret ← send_headers v "text/xml" size;
     if ret <? 0 then mret (-1) else
     ret ← lcall cstp_uncork;
     if ret <? 0 then mret (-1) else
     lemit (ProfileSent f) ;;;
     ret ← lcall (cstp_send_file f);
     mret (if ret <? 0 then -1 else 0)
   end).
Proof.
  apply given_bind; [apply accepted_app|quiet|intros [size|]]; [|apply given_quiet; quiet].
  apply given_bind; [apply accepted_app|quiet|intros r1]. destruct (r1 <? 0); [apply given_quiet; quiet|].
  apply given_bind; [apply accepted_app|quiet|intros r2]. destruct (r2 <? 0); [apply given_quiet; quiet|].
  apply given_emit; [done|]. quiet.
Qed.

Lemma keeps_get_config v : lkeeps (get_config conf v).
Proof.
  intros s Hs. unfold get_config. unfold mbind at 1, LM_bind at 1.
  pose proof (authenticate_keeps conf s Hs) as Ha.
  destruct (cookie_authenticate_or_exit conf s) as [[] s1| | |]; try done.
  destruct Ha as [Hi Hc]. unfold mbind at 1, LM_bind at 1, lget at 1.
  destruct (proj1 Hi Hc) as [Hacc ->]. simpl negb. cbv iota. revert s1 Hi Hacc Hc. intros s1 Hi Hacc _.
  revert s1 Hi Hacc. apply given_bind; [apply accepted_app|quiet|intros [f|]]; [|apply given_quiet; quiet].
  apply given_profile.
Qed.

(** ** Callbacks *)

Context (mem : Z → bool).
Context (base64_encode : list Z → list Z) (base64_decode : list Z → list Z * bool).
Context (hex2bin : list Z → list Z → list Z) (wcrtomb : Z → option (list Z)).
Context (fuel : nat).

Definition stays (h h' : http_ws) : Prop :=
  auth_state h' = S_AUTH_COMPLETE → auth_state h = S_AUTH_COMPLETE.

Lemma header_value_check_stays h h' :
  header_value_check base64_decode hex2bin (http conf) mem h = Ok h' → stays h h'.
Proof.
  unfold header_value_check, stays. repeat (case_match; [by intros [= <-]|]).
  destruct (contents (value (req h))) as [v| | |]; try done. simpl.
  destruct (next_header (req h)) as [n|]; [|by intros [= <-]].
  intros [->|[-> _]]%header_value_auth; [done|by intros].
Qed.

Lemma settings_stays c h ret h' :
  settings conf mem base64_decode hex2bin c h = Ok (ret, h') → stays h h'.
Proof.
  unfold stays. destruct c as [a|a|a| |a|]; simpl.
  - unfold http_url_cb. case_match; [by intros [= <- <-]|].
    destruct (copy_array URL_SIZE a); try done. by intros [= <- <-].
  - unfold http_header_field_cb. destruct (is_recv _); simpl.
    { destruct (str_append_data mem _ a) as [[]| | |]; try done. by intros [= <- <-]. }
    destruct (is_value_recv _); simpl; [|by destruct (str_append_data mem _ a) as [[]| | |]; intros [= <- <-]].
    destruct (header_value_check _ _ _ _ h) as [h1| | |] eqn:E; try done. simpl.
    apply header_value_check_stays in E. destruct (str_append_data mem _ a) as [[]| | |]; try done.
    by intros [= <- <-].
  - unfold http_header_value_cb. destruct (is_value_recv _); simpl.
    { destruct (str_append_data mem _ a) as [[]| | |]; try done. by intros [= <- <-]. }
    destruct (header_check _); try done. simpl.
    destruct (str_append_data mem _ a) as [[]| | |]; try done. by intros [= <- <-].
  - unfold http_header_complete_cb. destruct (header_value_check _ _ _ _ h) as [h1| | |] eqn:E; try done.
    apply header_value_check_stays in E. simpl. intros [= <- <-]. unfold stays, set_req. simpl.
    intros Hc. apply E. revert Hc. case_match; [by rewrite switch_next_auth|done].
  - unfold http_body_cb. case_match; [by intros [= <- <-]|]. case_match; [done|]. by intros [= <- <-].
  - by intros [= <- <-].
Qed.

Lemma execute_stays cs h h' : execute conf mem base64_decode hex2bin cs h = Ok h' → stays h h'.
Proof.
  revert h. induction cs as [|c cs IH]; intros h; simpl; [intros [= <-]; by unfold stays|].
  destruct (settings _ _ _ _ c h) as [[ret h1]| | |] eqn:E; try done. simpl. apply settings_stays in E.
  case_match; [intros Hh%IH; unfold stays in *; auto|by intros [= <-]].
Qed.

Lemma quiet_receive cs : quiet (W:=W) (receive conf mem base64_decode hex2bin cs).
Proof.
  intros s. cbv [receive mbind LM_bind lget lift set_hw lmod].
  destruct (execute _ _ _ _ cs _) as [h| | |] eqn:E; try done. apply execute_stays in E.
  apply ext_same; [done|]. by intros ?%E.
Qed.

(** ** The loop *)

#[local] Hint Resolve quiet_get_cert quiet_get_cert_der quiet_ca quiet_get_string quiet_receive : quiet.

Lemma keeps_http_get h v : lkeeps (http_get conf mem base64_encode wcrtomb fuel h v).
Proof.
  pose proof (keeps_post (W:=W) conf mem base64_encode wcrtomb v fuel).
  pose proof (keeps_get_config v). unfold http_get, get_auth, get_dl, get_empty.
  destruct h; try by keeps. by apply keeps_get.
Qed.

Lemma keeps_connect : lkeeps (connect_start conf ;;; lemit Tunnel ;;; mret false).
Proof.
  intros s Hs. pose proof (authenticate_keeps conf s Hs) as Ha. unfold connect_start.
  cbv [mbind LM_bind lget]. destruct (cookie_authenticate_or_exit conf s) as [[] s1| | |]; try done.
  destruct Ha as [Hi Hc]. case_bool_decide.
  - apply (inv_emit s1 Tunnel Hi). by apply Hi.
  - pose proof (quiet_keeps _ (quiet_404 1) s1 Hi). destruct (response_404 1 s1); try done.
    by apply inv_emit.
Qed.

Lemma keeps_request r :
  lkeeps (vpn_server_request conf mem base64_encode base64_decode hex2bin wcrtomb fuel r).
Proof.
  unfold vpn_server_request. pose proof keeps_http_get. pose proof keeps_connect.
  apply keeps_bind; [apply quiet_keeps; quiet|intros _]. keeps.
Qed.

Lemma keeps_loop n rs :
  lkeeps (vpn_server_loop conf mem base64_encode base64_decode hex2bin wcrtomb fuel n rs).
Proof.
  revert n. induction rs as [|r rs IH]; intros [|n]; simpl; pose proof keeps_request; keeps.
Qed.

Lemma keeps_server rs :
  lkeeps (vpn_server conf mem base64_encode base64_decode hex2bin wcrtomb fuel rs).
Proof.
  unfold vpn_server. pose proof keeps_loop.
  apply keeps_bind; [apply quiet_keeps; quiet|intros _].
  apply keeps_bind; [|intros _; keeps]. apply quiet_keeps, quiet_set_hw. intros h.
  destruct (cert_auth_ok h); [|done]. unfold ws_switch_auth_to. by repeat case_match.
Qed.

End pages.

(** ** Theorems *)

Lemma ok_log_split l1 a l2 : ok_log (l1 ++ a :: l2) → justified l1 a.
Proof.
  induction l2 as [|b l2 IH] using rev_ind; intros Hl.
  - inversion Hl as [E|l b Hb Hj E]; [by destruct l1|]. by apply app_inj_tail in E as [-> ->].
  - rewrite app_comm_cons, (assoc_L (++)) in Hl. inversion Hl as [E|l c Hb Hj E]; [by destruct l1|].
    apply app_inj_tail in E as [-> ->]. auto.
Qed.

Section theorems.
Context {W : Type} `{LoginWorld W, PageWorld W, !LoginLaws W}.
Context (conf : login_conf) (mem : Z → bool).
Context (base64_encode : list Z → list Z) (base64_decode : list Z → list Z * bool).
Context (hex2bin : list Z → list Z → list Z) (wcrtomb : Z → option (list Z)).
Context (fuel : nat).

Abbreviation serve := (vpn_server conf mem base64_encode base64_decode hex2bin wcrtomb fuel).

(** A connection on which nothing has happened. *)
Definition new_connection (s : lstate W) : Prop :=
  llog s = [] ∧ auth_state (hw (lw s)) = S_AUTH_INACTIVE.

Definition final {A} (m : outcome (lstate W) A) : option (lstate W) :=
  match m with Val _ s | Exit _ s => Some s | _ => None end.

Lemma serve_log rs s s' : new_connection s → final (serve rs s) = Some s' → ok_log (llog s').
Proof.
  intros [El Ea] E. assert (login_inv s) as Hs.
  { split; [unfold complete; by rewrite Ea|]. rewrite El. constructor. }
  pose proof (keeps_server conf mem base64_encode base64_decode hex2bin wcrtomb fuel rs s Hs) as Hi.
  destruct (serve rs s); simplify_eq/=; apply Hi.
Qed.

(** C3: whatever the requests of a client, and whatever the security module
    and the main process answer, when the worker hands out a cookie the
    security module has answered before that the user is authenticated, with
    that cookie as the identifier of the session. *)
Theorem cookie_after_authentication rs s s' l1 c l2 : new_connection s →
  final (serve rs s) = Some s' → llog s' = l1 ++ OutCookie c :: l2 → granted c l1.
Proof. intros Hn Hf E. apply (ok_log_split l1 (OutCookie c) l2). rewrite <- E. by eapply serve_log. Qed.

(** C4: whatever the requests of a client, when a tunnel is set up or a
    profile is sent, the main process has accepted before a cookie the worker
    had sent to it. *)
Theorem tunnel_after_accepted_cookie rs s s' l1 a l2 : new_connection s →
  final (serve rs s) = Some s' → llog s' = l1 ++ a :: l2 →
  (a = Tunnel ∨ ∃ f, a = ProfileSent f) → accepted l1.
Proof.
  intros Hn Hf E Ha. assert (justified l1 a) as Hj.
  { apply (ok_log_split l1 a l2). rewrite <- E. by eapply serve_log. }
  by destruct Ha as [->|[f ->]].
Qed.

End theorems.

(** Only the issuer of the first chain is ever found: the handle is released
    and not initialised again before the second one is read. *)
Lemma ca_of_first_chain {W} `{PageWorld W} crt der o : find_issuer crt der true 0 8 = inr o →
  ∃ ca, get_crt_raw 0 = inr ca ∧ check_issuer crt ca = true ∧ crt_export der ca = Some o.
Proof.
  simpl. destruct (get_crt_raw 0) as [|ca]; [done|]. case_match; [done|].
  destruct (check_issuer crt ca) eqn:E.
  - destruct (crt_export der ca) eqn:Ee; [|done]. intros [= ->]. by exists ca.
  - by destruct (get_crt_raw 1).
Qed.

(** ** A group that cannot be asked for *)

Section recursion.
Context {W : Type} `{LoginWorld W}.
Context (conf : login_conf) (mem : Z → bool) (base64_encode : list Z → list Z).
Context (wcrtomb : Z → option (list Z)) (http_ver : Z).
Context (u : list Z) (gs : list (list Z)) (Hgs : gs ≠ []).
Context (peers : ∀ w, (cert_peers w).1 = true) (names : ∀ w, (cert_names w).1 = Some (u, gs)).

(** A client of GSSAPI with a certificate that names groups, which has not
    selected one. *)
Record no_group (s : lstate W) : Prop := {
  ng_type : sel_type (lw s) AUTH_TYPE_GSSAPI = true ∧ sel_type (lw s) AUTH_TYPE_CERTIFICATE = true ∧
            sel_type (lw s) AUTH_TYPE_USERNAME_PASS = false;
  ng_cert : tls (lw s) = true ∧ cert_auth_ok (hw (lw s)) = true;
  ng_group : groupname (lw s) = [];
  ng_auth : auth_state (hw (lw s)) = S_AUTH_INACTIVE ∧ sid_set (hw (lw s)) = false;
  ng_body : body (req (hw (lw s))) = None;
  ng_token : ∃ a, authorization (req (hw (lw s))) = Some a ∧ (10 < length a)%nat }.

Abbreviation post := (post_auth conf mem base64_encode wcrtomb http_ver).

Definition with_cert (x : login_ws) : login_ws := {| x with cert_username := u; cert_groups := gs |}.

Lemma cert_info_groups s : tls (lw s) = true → ∃ w,
  get_cert_info s = Val 0 {| lw := with_cert (lw s); lworld := w; llog := llog s |}.
Proof.
  intros Ht. cbv [get_cert_info mbind LM_bind lget lcall lmod mret LM_ret]. rewrite Ht. simpl.
  pose proof (peers (lworld s)) as Hp. destruct (cert_peers (lworld s)) as [p w]. simpl in Hp. rewrite Hp.
  simpl. pose proof (names w) as Hn. destruct (cert_names w) as [n w']. simpl in Hn. rewrite Hn. by exists w'.
Qed.

Lemma no_group_cert s w : no_group s →
  no_group {| lw := with_cert (lw s); lworld := w; llog := llog s |}.
Proof. by intros []. Qed.

Lemma bind_val {A B} (m : LM W A) (f : A → LM W B) a s s' : m s = Val a s' → (m ≫= f) s = f a s'.
Proof. unfold mbind, LM_bind. by intros ->. Qed.

Lemma init_group_none (s : lstate W) : body (req (hw (lw s))) = None → init_group conf wcrtomb s = Val (false, None) s.
Proof. intros Hb. cbv [init_group body_field mbind LM_bind lget lift]. rewrite Hb. simpl. by rewrite Hb. Qed.

Lemma init_gssapi_token m s : no_group s → ∃ m', init_gssapi http_ver m s = Val (Go, m') s.
Proof.
  intros [(Tg & _) _ _ _ _ (a & Hau & Hla)]. cbv [init_gssapi mbind LM_bind lget id].
  rewrite Tg, Hau. cbn [negb]. destruct a as [|c a]; [simpl in Hla; lia|].
  destruct (Nat.ltb_spec 10 (length (c :: a))); [|lia]. by eexists.
Qed.

Lemma init_user_skip m s : no_group s → init_user wcrtomb m s = Val (Go, m) s.
Proof. intros [(_ & _ & Tu) _ _ _ _ _]. cbv [init_user mbind LM_bind lget id]. by rewrite Tu. Qed.

Lemma init_cert_asks get m s : no_group s → ∃ w, init_cert get false m s =
  (ret ← get (Some (to_bytes "Please select your group.")) 0; mret (Done ret, m))
    {| lw := with_cert (lw s); lworld := w; llog := llog s |}.
Proof.
  intros [(_ & Tc & _) [Ct Cc] Hg _ _ _]. destruct (cert_info_groups s Ct) as [w Ew]. exists w.
  unfold init_cert. rewrite (bind_val _ _ (lw s) s s) by done. rewrite Tc, Cc. cbn [negb].
  rewrite (bind_val _ _ _ _ _ Ew). unfold mbind at 1, LM_bind at 1, lget at 1.
  simpl. rewrite Hg. by case_bool_decide.
Qed.

(** The first step only asks for the group again. *)
Lemma init_asks_group get s : no_group s →
  (∀ w, get (Some (to_bytes "Please select your group.")) 0
    {| lw := with_cert (lw s); lworld := w; llog := llog s |} = Blocked) →
  post_auth_body conf base64_encode wcrtomb http_ver get s = Blocked.
Proof.
  intros Hs Hget. pose proof (ng_auth _ Hs) as [Ha Hsid]. unfold post_auth_body.
  rewrite (bind_val _ _ tt s s).
  2: { cbv [mbind LM_bind lget mret LM_ret id]. by rewrite Hsid. }
  rewrite (bind_val _ _ S_AUTH_INACTIVE s s) by (unfold lget; by rewrite Ha). cbn iota.
  unfold mbind at 1, LM_bind at 1. unfold auth_init.
  rewrite (bind_val _ _ _ _ _ (init_group_none s (ng_body _ Hs))). cbv zeta.
  match goal with |- context [init_gssapi _ ?m] => destruct (init_gssapi_token m s Hs) as [m' Em] end.
  rewrite (bind_val _ _ _ _ _ Em), (bind_val _ _ _ _ _ (init_user_skip m' s Hs)).
  destruct (init_cert_asks get m' s Hs) as [w Ec]. unfold mbind at 1, LM_bind at 1. rewrite Ec.
  unfold mbind at 1, LM_bind at 1. by rewrite Hget.
Qed.

(** With GSSAPI and a certificate as one method, a client whose
    certificate names groups and which has selected none, makes the two
    handlers of the login form call each other without end. *)
Theorem unselected_group_recursion fuel s : no_group s → post fuel s = Blocked.
Proof.
  revert s. induction fuel as [|fuel IH]; intros s Hs; [done|]. simpl. apply init_asks_group; [done|].
  intros w. apply (no_group_cert s w) in Hs. unfold get_auth_handler2.
  unfold mbind at 1, LM_bind at 1, lget at 1. pose proof (ng_type _ Hs) as (Tg & _).
  pose proof (ng_auth _ Hs) as [Ha _]. pose proof (ng_token _ Hs) as (a & Hau & Hla).
  simpl in Tg, Ha, Hau |- *. rewrite Tg, Ha, Hau. simpl. destruct a; [simpl in Hla; lia|]. by apply IH.
Qed.

End recursion.

(** ** A login

    A client that sends its name, is accepted, and asks for the tunnel. *)

Module LoginWitnesses.
Import HttpWitnesses.

Definition sid0 : list Z := replicate 32 7.

#[global] Instance world0 : LoginWorld unit := {
  cstp_out t w := (Z.of_nat (length t), w);
  cstp_uncork w := (0, w);
  secmod_connect w := (true, w);
  secmod_init _ w := (1, w);
  secmod_cont _ w := (1, w);
  secmod_reply w := (inr {| r_reply := REP_OK; r_user_name := Some (to_bytes "u"); r_msg := None;
    r_passwd_counter := None; r_sid := Some sid0; r_dtls_session_id := replicate 32 9 |}, w);
  main_cookie _ w := (0, w);
  main_reply w := (inr {| a_reply := REP_OK; a_fd := 5; a_vname := Some (to_bytes "vpns0");
    a_user_name := Some (to_bytes "u"); a_group_name := None; a_sid := sid0;
    a_session_id := replicate 32 9; a_config := Some (false, []); a_ipv4 := None; a_ipv6 := None;
    a_ipv4_local := None; a_ipv6_local := None |}, w);
  tun_claim _ w := (0, w);
  cert_peers w := (false, w);
  cert_names w := (None, w) }.

#[global] Instance pages0 : PageWorld unit := {
  certificate_get_ours w := (None, w);
  pem_encode c := Some c;
  crt_import _ := true;
  get_crt_raw _ := inl (-56);
  check_issuer _ _ := false;
  crt_export _ c := Some c;
  xml_config_file w := (None, w);
  file_size _ w := (None, w);
  cstp_send_file _ w := (0, w);
  kkdcp _ w := (0, w) }.

#[global] Instance laws0 : LoginLaws unit.
Proof. by split. Qed.

Definition ws0 : login_ws := {|
  hw := hw0; tls := true; username := []; groupname := []; cert_username := []; cert_groups := [];
  session_id := replicate 32 0; user_config := false; tun_fd := -1;
  vinfo := {| v_name := []; v_ipv4 := None; v_ipv6 := None; v_ipv4_local := None; v_ipv6_local := None |};
  default_route := false; udp_port := 443 |}.

Definition conf0 : login_conf := {|
  http := http_conf0;
  default_select_group := None; group_list := []; friendly_group_list := None; cookie_timeout := 300;
  cisco_client_compat := false; banner := None; xml_config := None; cert_hash := [] |}.

Definition requests0 : list request :=
  [{| rq_method := HTTP_POST; rq_major := 1; rq_minor := 1;
      rq_head := [on_url (to_bytes "/auth"); on_header_field (to_bytes "User-Agent");
                  on_header_value (to_bytes "oc"); on_headers_complete];
      rq_rest := [on_body (to_bytes "username=u"); on_message_complete] |};
   {| rq_method := HTTP_CONNECT; rq_major := 1; rq_minor := 1;
      rq_head := [on_url (to_bytes "/CSCOSSLC/tunnel"); on_headers_complete]; rq_rest := [] |}].

Definition s0 : lstate unit := {| lw := ws0; lworld := tt; llog := [] |}.

Definition served : outcome (lstate unit) unit :=
  vpn_server conf0 (λ _, true) id (λ s, (s, true)) (λ _ old, old) (λ _, None) 2 requests0 s0.

Definition served_state : lstate unit := default s0 (final served).

Lemma cookie_after_authentication_witness : granted sid0 (take 8 (llog served_state)).
Proof.
  apply (cookie_after_authentication conf0 (λ _, true) id (λ s, (s, true)) (λ _ old, old) (λ _, None) 2
    requests0 s0 served_state (take 8 (llog served_state)) sid0 (drop 9 (llog served_state))).
  - split; reflexivity.
  - vm_compute. reflexivity.
  - vm_compute. reflexivity.
Defined.

Lemma tunnel_after_accepted_cookie_witness : accepted (take 14 (llog served_state)).
Proof.
  apply (tunnel_after_accepted_cookie conf0 (λ _, true) id (λ s, (s, true)) (λ _ old, old) (λ _, None) 2
    requests0 s0 served_state (take 14 (llog served_state)) Tunnel []).
  - split; reflexivity.
  - vm_compute. reflexivity.
  - vm_compute. reflexivity.
  - left. reflexivity.
Defined.

(** A certificate with a group, for GSSAPI. *)
Definition world_group : LoginWorld unit := {|
  cstp_out t w := (Z.of_nat (length t), w);
  cstp_uncork w := (0, w);
  secmod_connect w := (false, w);
  secmod_init _ w := (-1, w);
  secmod_cont _ w := (-1, w);
  secmod_reply w := (inl (-1), w);
  main_cookie _ w := (-1, w);
  main_reply w := (inl (-1), w);
  tun_claim _ w := (-1, w);
  cert_peers w := (true, w);
  cert_names w := (Some (to_bytes "u", [to_bytes "g"]), w) |}.

Definition gssapi_ws : login_ws :=
  let q := req0 in let h := hw0 in let x := ws0 in
  {| x with hw := {| h with
       req := {| q with authorization := Some (to_bytes "Negotiate YII=") |};
       auth := [{| auth_type := Z.lor AUTH_TYPE_GSSAPI AUTH_TYPE_CERTIFICATE; enabled := true |}];
       cert_auth_ok := true |} |}.

Lemma unselected_group_recursion_witness :
  post_auth (H:=world_group) conf0 (λ _, true) id (λ _, None) 1 1000
    {| lw := gssapi_ws; lworld := tt; llog := [] |} = Blocked.
Proof.
  apply (unselected_group_recursion (H:=world_group) conf0 (λ _, true) id (λ _, None) 1
    (to_bytes "u") [to_bytes "g"]).
  - discriminate.
  - reflexivity.
  - reflexivity.
  - constructor; try done. exists (to_bytes "Negotiate YII="). split; [reflexivity|]. simpl. lia.
Defined.

End LoginWitnesses.
