(* ===== verification/Ini.v ===== *)
(** * Configuration files (src/inih/ini.c)

    A file is read line by line into a buffer, in which the names and values
    are cut out by writing NULs.  The handler gets the buffer and where the
    value starts in it, since [sanitize_config_value] looks at the bytes
    before the value.  The options that are chosen when the parser is
    compiled are arguments. *)

From S2P Require Import Prelude CString CText.

Definition MAX_SECTION : nat := 50.
Definition MAX_NAME : nat := 50.
Definition INI_MAX_LINE : nat := 200.

(** [strlen]. *)
Fixpoint strlen (l : list Z) : cres nat :=
  match l with
  | [] => UB
  | c :: l' => if c =? 0 then Ok O else n ← strlen l'; Ok (S n)
  end.

(** [while (p > s && isspace( *--p)) *p = 0] with [p] at [s + k]. *)
Fixpoint rstrip_loop (k : nat) (b : list Z) (s : nat) : cres (list Z) :=
  match k with
  | O => Ok b
  | S k' =>
    c ← aread b (Z.of_nat (s + k'));
    if c_isspace c then b ← awrite b (Z.of_nat (s + k')) 0; rstrip_loop k' b s else Ok b
  end.
Definition rstrip (b : list Z) (s : nat) : cres (list Z) :=
  n ← strlen (drop s b); rstrip_loop n b s.

Fixpoint lskip_loop (l : list Z) : cres nat :=
  match l with
  | [] => UB
  | c :: l' => if c =? 0 then Ok O else if c_isspace c then n ← lskip_loop l'; Ok (S n) else Ok O
  end.
Definition lskip (b : list Z) (s : nat) : cres nat := n ← lskip_loop (drop s b); Ok (s + n)%nat.

Definition mem (c : Z) (l : list Z) : bool := bool_decide (c ∈ l).

(** The string copied into an array of [size] characters. *)
Definition strncpy0 (src : list Z) (size : nat) : list Z := take (size - 1) (cstr src).

(** The name of the section, the name of the last value and the user's data. *)
Record ini_st (U : Type) := {
  section : list Z;
  prev_name : list Z;
  lineno : Z;
  error : Z;
  user : U }.
Arguments section {_} _.
Arguments prev_name {_} _.
Arguments lineno {_} _.
Arguments error {_} _.
Arguments user {_} _.

Definition ini_init {U} (u : U) : ini_st U :=
  {| section := []; prev_name := []; lineno := 0; error := 0; user := u |}.

Section ini.
Context (INI_STOP_ON_FIRST_ERROR : bool) (INI_INLINE_COMMENT_PREFIXES : list Z).
Context {U : Type}.
(** [handler(user, section, name, value)] with the value at a position in a
    buffer; 0 is an error. *)
Context (handler : U → list Z → list Z → list Z → nat → cres (Z * U)).

(** [chars] is empty for NULL. *)
Fixpoint find_loop (chars : list Z) (was_space : bool) (l : list Z) : cres nat :=
  match l with
  | [] => UB
  | c :: l' =>
    if (c =? 0) || mem c chars || (was_space && mem c INI_INLINE_COMMENT_PREFIXES) then Ok O
    else n ← find_loop chars (c_isspace c) l'; Ok (S n)
  end.
Definition find_chars_or_comment (b : list Z) (s : nat) (chars : list Z) : cres nat :=
  n ← find_loop chars false (drop s b); Ok (s + n)%nat.

(** [if (!error) error = lineno]. *)
Definition fail (st : ini_st U) : ini_st U :=
  if error st =? 0 then {| st with error := lineno st |} else st.

Definition call (st : ini_st U) (name b : list Z) (value : nat) : cres (ini_st U) :=
  '(r, u) ← handler (user st) (section st) name b value;
  let st := {| st with user := u |} in
  Ok (if r =? 0 then fail st else st).

(** The bytes EF BB BF at the start of the file. *)
Definition bom (b : list Z) : bool :=
  bool_decide (take 3 b = [239; 187; 191]).

(** A [name = value] line. *)
Definition ini_pair (st : ini_st U) (b : list Z) (start : nat) : cres (ini_st U) :=
  e ← find_chars_or_comment b start [61; 58];
  c ← aread b (Z.of_nat e);
  if (c =? 61) || (c =? 58) then
    b ← awrite b (Z.of_nat e) 0;
    b ← rstrip b start;
    let value := S e in
    e ← find_chars_or_comment b value [];
    c ← aread b (Z.of_nat e);
    b ← (if c =? 0 then Ok b else awrite b (Z.of_nat e) 0);
    value ← lskip b value;
    b ← rstrip b value;
    let name := cstr (drop start b) in
    call {| st with prev_name := strncpy0 name MAX_NAME |} name b value
  else Ok (fail st).

(** A [[section]] line. *)
Definition ini_section (st : ini_st U) (b : list Z) (start : nat) : cres (ini_st U) :=
  e ← find_chars_or_comment b (S start) [93];
  c ← aread b (Z.of_nat e);
  if c =? 93 then
    b ← awrite b (Z.of_nat e) 0;
    Ok {| st with section := strncpy0 (drop (S start) b) MAX_SECTION; prev_name := [] |}
  else Ok (fail st).

(** One line, in the buffer with its NUL. *)
Definition ini_line (st : ini_st U) (b : list Z) : cres (ini_st U) :=
  let st := {| st with lineno := lineno st + 1 |} in
  let start := if (lineno st =? 1) && bom b then 3%nat else O in
  b ← rstrip b start;
  start ← lskip b start;
  c ← aread b (Z.of_nat start);
  if (c =? 59) || (c =? 35) then Ok st
  else if negb (bool_decide (prev_name st = [])) && negb (c =? 0) && (0 <? start)%nat then
    call st (prev_name st) b start
  else if c =? 91 then ini_section st b start
  else if negb (c =? 0) then ini_pair st b start
  else Ok st.

(** The loop; every line has at least one byte. *)
Fixpoint ini_loop (fuel : nat) (st : ini_st U) (f : list Z) : cres (ini_st U) :=
  match f with
  | [] => Ok st
  | _ :: _ =>
    match fuel with
    | O => Fuel
    | S fuel' =>
      let '(line, rest) := fgets (INI_MAX_LINE - 1) f in
      st ← ini_line st (line ++ [0]);
      if INI_STOP_ON_FIRST_ERROR && negb (error st =? 0) then Ok st else ini_loop fuel' st rest
    end
  end.

Definition ini_parse_stream (u : U) (f : list Z) : cres (Z * U) :=
  st ← ini_loop (length f) (ini_init u) f;
  Ok (error st, user st).

(** [ini_parse]; [None] is a file that cannot be opened. *)
Definition ini_parse (file : option (list Z)) (u : U) : cres (Z * U) :=
  match file with
  | None => Ok (-1, u)
  | Some f => ini_parse_stream u f
  end.
End ini.
