(* ===== verification/IniSpec.v ===== *)
(** * Configuration files: the parser stays in its line and finds what was
    written *)

From S2P Require Import Prelude CString CText Ini.

(** ** Safety *)

(** The buffer of a line ends with a NUL. *)
Definition line_buf (b : list Z) (s : nat) : Prop := last b = Some 0 ∧ (s < length b)%nat.

(** The value the handler gets: after the NUL that ends the name, or the
    first character of a continued line. *)
Definition value_at (b : list Z) (v : nat) : Prop :=
  line_buf b v ∧
  ((∃ j, (j < v)%nat ∧ b !! j = Some 0) ∨ ∃ c, b !! v = Some c ∧ c ≠ 0 ∧ c_isspace c = false).

Lemma last_drop_buf b s : line_buf b s → last (drop s b) = Some 0.
Proof.
  intros [Hl Hs]. destruct (drop s b) as [|c l] eqn:E.
  { apply (f_equal length) in E. rewrite length_drop in E. simpl in E. lia. }
  rewrite <- E. rewrite <- (take_drop s b) in Hl. rewrite last_app, E in Hl. rewrite E.
  destruct (last (c :: l)) eqn:El; [done|]. by apply last_None in El.
Qed.

(** A function that looks for a place in a string finds one not after its
    end. *)
Lemma strlen_spec l : last l = Some 0 → ∃ n, strlen l = Ok n ∧ (n < length l)%nat ∧ l !! n = Some 0.
Proof.
  induction l as [|c l IH]; [done|]. intros Hl. simpl. destruct (Z.eqb_spec c 0) as [->|Hc].
  - exists O. split; [done|]. split; [simpl; lia|done].
  - destruct l as [|d l]; [by injection Hl as ->|]. destruct IH as (n & -> & Hn & Hz); [done|].
    exists (S n). split; [done|]. split; [simpl in *; lia|done].
Qed.

Lemma lskip_spec l : last l = Some 0 →
  ∃ n c, lskip_loop l = Ok n ∧ (n < length l)%nat ∧ l !! n = Some c ∧ (c = 0 ∨ c_isspace c = false).
Proof.
  induction l as [|c l IH]; [done|]. intros Hl. simpl. destruct (Z.eqb_spec c 0) as [->|Hc].
  { exists O, 0. split; [done|]. split; [simpl; lia|]. by split; [|left]. }
  destruct (c_isspace c) eqn:Es.
  - destruct l as [|d l]; [by injection Hl as ->|]. destruct IH as (n & x & -> & Hn & Hz); [done|].
    exists (S n), x. split; [done|]. split; [simpl in *; lia|done].
  - exists O, c. split; [done|]. split; [simpl; lia|]. by split; [|right].
Qed.

Lemma find_spec pre chars w l : last l = Some 0 →
  ∃ n, find_loop pre chars w l = Ok n ∧ (n < length l)%nat.
Proof.
  revert w. induction l as [|c l IH]; intros w; [done|]. intros Hl. simpl.
  destruct ((c =? 0) || mem c chars || (w && mem c pre)) eqn:E; [exists O; split; [done|simpl; lia]|].
  destruct l as [|d l]. { injection Hl as ->. by rewrite Z.eqb_refl in E. }
  destruct (IH (c_isspace c)) as (n & -> & Hn); [done|]. exists (S n). split; [done|]. simpl in *. lia.
Qed.

Lemma insert_buf b i s : line_buf b s → line_buf (<[i := 0]> b) s.
Proof.
  intros [Hl Hs]. split; [|by rewrite length_insert]. rewrite last_lookup, length_insert.
  rewrite last_lookup in Hl. destruct (decide (i = pred (length b))) as [->|].
  - apply list_lookup_insert_eq. destruct b; simpl in *; [lia|lia].
  - by rewrite list_lookup_insert_ne.
Qed.

(** Cutting off white space changes only bytes from [s] on, to NULs. *)
Lemma rstrip_loop_wp k b s E : line_buf b s → (s + k < length b)%nat →
  cwp (rstrip_loop k b s) (λ b', line_buf b' s ∧ length b' = length b ∧
    (∀ i, b !! i = Some 0 → b' !! i = Some 0) ∧ ∀ i, (i < s)%nat → b' !! i = b !! i) E.
Proof.
  revert b. induction k as [|k IH]; intros b Hb Hk; simpl; [done|].
  destruct (aread_lt b (Z.of_nat (s + k))) as (c & -> & Hc); [lia|]. simpl. destruct (c_isspace c); [|done].
  rewrite awrite_lt by lia. simpl. rewrite Nat2Z.id.
  eapply cwp_mono; [apply IH; [by apply insert_buf|rewrite length_insert; lia]| |done].
  simpl. intros b' (Hb' & Hl & Hz & Hi). rewrite length_insert in Hl. split_and!; [done..| |].
  - intros i H0. apply Hz. destruct (decide (i = s + k)%nat) as [->|]; [|by rewrite list_lookup_insert_ne].
    apply list_lookup_insert_eq. lia.
  - intros i Hlt. rewrite Hi, list_lookup_insert_ne by lia. done.
Qed.

Lemma rstrip_wp b s E : line_buf b s →
  cwp (rstrip b s) (λ b', line_buf b' s ∧ length b' = length b ∧
    (∀ i, b !! i = Some 0 → b' !! i = Some 0) ∧ ∀ i, (i < s)%nat → b' !! i = b !! i) E.
Proof.
  intros Hb. unfold rstrip. destruct (strlen_spec (drop s b)) as (n & -> & Hn & _); [by apply last_drop_buf|].
  simpl. apply rstrip_loop_wp; [done|]. rewrite length_drop in Hn. lia.
Qed.

Lemma lskip_wp b s E : line_buf b s →
  cwp (lskip b s) (λ v, (s ≤ v)%nat ∧ line_buf b v ∧ ∃ c, b !! v = Some c ∧ (c = 0 ∨ c_isspace c = false)) E.
Proof.
  intros Hb. unfold lskip. destruct (lskip_spec (drop s b)) as (n & c & -> & Hn & Hc & H); [by apply last_drop_buf|].
  simpl. rewrite length_drop in Hn. rewrite lookup_drop in Hc.
  split; [lia|]. split; [split; [apply Hb|lia]|]. by exists c.
Qed.

Lemma find_wp pre b s chars E : line_buf b s →
  cwp (find_chars_or_comment pre b s chars) (λ e, (s ≤ e)%nat ∧ line_buf b e) E.
Proof.
  intros Hb. unfold find_chars_or_comment. destruct (find_spec pre chars false (drop s b)) as (n & -> & Hn);
    [by apply last_drop_buf|]. simpl. rewrite length_drop in Hn. split; [lia|]. split; [apply Hb|lia].
Qed.

Lemma read_wp b s E : line_buf b s → cwp (aread b (Z.of_nat s)) (λ c, b !! s = Some c) E.
Proof.
  intros [_ Hs]. destruct (aread_lt b (Z.of_nat s)) as (c & -> & Hc); [lia|]. simpl. by rewrite Nat2Z.id in Hc.
Qed.

Section safety.
Context (stop : bool) (pre : list Z) {U : Type}.
Context (handler : U → list Z → list Z → list Z → nat → cres (Z * U)).
Context (I : U → Prop) (E : Z → Prop).
Hypothesis Hh : ∀ u s n b v, I u → value_at b v → cwp (handler u s n b v) (λ ru, I ru.2) E.

Lemma call_wp st n b v : I (user st) → value_at b v → cwp (call handler st n b v) (λ st', I (user st')) E.
Proof.
  intros Hu Hv. unfold call. apply cwp_bind. eapply cwp_mono; [by apply Hh| |done].
  intros [r u'] Hi. simpl in *. unfold fail. by repeat case_match.
Qed.

Lemma fail_user (st : ini_st U) : user (fail st) = user st.
Proof. unfold fail. by case_match. Qed.

Lemma pair_wp st b s : I (user st) → line_buf b s → cwp (ini_pair pre handler st b s) (λ st', I (user st')) E.
Proof.
  intros Hu Hb. unfold ini_pair. apply cwp_bind. eapply cwp_mono; [by apply find_wp| |done].
  intros e [Hse He]. apply cwp_bind. eapply cwp_mono; [by apply read_wp| |done]. intros c Hc.
  destruct ((c =? 61) || (c =? 58)) eqn:Ec; [|by rewrite <- fail_user in Hu].
  assert (c ≠ 0) as Hc0 by lia. rewrite awrite_lt by (destruct He; lia). simpl. rewrite Nat2Z.id.
  assert (S e < length b)%nat as Hse'.
  { destruct He as [Hl Hlt]. destruct (decide (e = pred (length b))); [|lia]. rewrite last_lookup in Hl. congruence. }
  apply cwp_bind. eapply cwp_mono; [apply rstrip_wp, insert_buf, Hb| |done].
  intros b1 ([Hl1 Hs1] & Hlen1 & Hz1 & _). rewrite length_insert in Hlen1.
  assert (b1 !! e = Some 0) as Hz. { apply Hz1, list_lookup_insert_eq. apply He. }
  assert (line_buf b1 (S e)) as Hb1 by (split; [done|lia]).
  apply cwp_bind. eapply cwp_mono; [by apply find_wp| |done]. intros e2 [Hse2 He2].
  apply cwp_bind. eapply cwp_mono; [by apply read_wp| |done]. intros c2 Hc2.
  apply cwp_bind. assert (cwp (if c2 =? 0 then Ok b1 else awrite b1 (Z.of_nat e2) 0)
    (λ b2, line_buf b2 (S e) ∧ b2 !! e = Some 0) E) as H2.
  { destruct (c2 =? 0); [done|]. rewrite awrite_lt by (destruct He2; lia). simpl. rewrite Nat2Z.id.
    split; [by apply insert_buf|]. by rewrite list_lookup_insert_ne by lia. }
  eapply cwp_mono; [exact H2| |done]. intros b2 [Hb2 Hz2].
  apply cwp_bind. eapply cwp_mono; [by apply lskip_wp| |done]. intros v (Hv & Hbv & _).
  apply cwp_bind. eapply cwp_mono; [by apply rstrip_wp| |done]. intros b3 (Hb3 & _ & Hz3 & _).
  apply call_wp; [done|]. split; [done|]. left. exists e. split; [lia|]. by apply Hz3.
Qed.

Lemma section_wp st b s : I (user st) → line_buf b s → b !! s = Some 91 →
  cwp (ini_section pre st b s) (λ st', I (user st')) E.
Proof.
  intros Hu Hb H91. assert (line_buf b (S s)) as Hb'.
  { destruct Hb as [Hl Hs]. split; [done|]. destruct (decide (s = pred (length b))) as [->|]; [|lia].
    rewrite last_lookup in Hl. congruence. }
  unfold ini_section. apply cwp_bind. eapply cwp_mono; [by apply find_wp| |done]. intros e [He Hbe].
  apply cwp_bind. eapply cwp_mono; [by apply read_wp| |done]. intros c Hc.
  destruct (c =? 93); [|by rewrite <- fail_user in Hu]. rewrite awrite_lt by (destruct Hbe; lia). done.
Qed.

Lemma line_wp st b : I (user st) → line_buf b 0 → cwp (ini_line pre handler st b) (λ st', I (user st')) E.
Proof.
  intros Hu Hb. unfold ini_line. cbv zeta.
  match goal with |- context [rstrip b ?x] => set (start := x) end.
  assert (line_buf b start) as Hs.
  { unfold start. destruct (_ && bom b) eqn:Eb; [|done]. apply andb_prop in Eb as [_ Eb].
    split; [apply Hb|]. unfold bom in Eb. apply bool_decide_eq_true_1 in Eb. destruct Hb as [Hl _].
    rewrite <- (take_drop 3 b), Eb in Hl. rewrite <- (take_drop 3 b), Eb, length_app. simpl.
    destruct (drop 3 b); simpl; [done|lia]. }
  apply cwp_bind. eapply cwp_mono; [by apply rstrip_wp| |done]. intros b1 (Hb1 & _).
  apply cwp_bind. eapply cwp_mono; [by apply lskip_wp| |done]. intros v (_ & Hbv & x & Hx & Hsp).
  apply cwp_bind. eapply cwp_mono; [by apply read_wp| |done]. intros c Hc. assert (x = c) as -> by congruence.
  destruct ((c =? 59) || (c =? 35)); [done|].
  destruct (_ && negb (c =? 0) && _) eqn:Ec.
  { apply call_wp; [done|]. split; [done|]. right. exists c. split; [done|]. split; [lia|].
    destruct Hsp as [Hz|Hz]; [|exact Hz]. lia. }
  destruct (Z.eqb_spec c 91) as [->|]; [by apply section_wp|].
  destruct (negb (c =? 0)); [by apply pair_wp|done].
Qed.

Lemma fgets_shorter n c f : (length (fgets (S n) (c :: f)).2 ≤ length f)%nat.
Proof.
  assert (∀ m l, (length (fgets m l).2 ≤ length l)%nat) as H.
  { induction m as [|m IH]; intros [|d l]; simpl; try lia. destruct (d =? 10); simpl; [lia|].
    specialize (IH l). destruct (fgets m l). simpl in *. lia. }
  simpl. destruct (c =? 10); simpl; [done|]. specialize (H n f). by destruct (fgets n f).
Qed.

Lemma loop_wp fuel st f : I (user st) → (length f ≤ fuel)%nat →
  cwp (ini_loop stop pre handler fuel st f) (λ st', I (user st')) E.
Proof.
  revert st f. induction fuel as [|fuel IH]; intros st [|c f] Hu Hf; simpl in Hf; try done; try lia.
  cbn [ini_loop]. pose proof (fgets_shorter 198 c f) as Hr. unfold INI_MAX_LINE. simpl Nat.sub.
  destruct (fgets 199 (c :: f)) as [l r]. simpl in Hr. apply cwp_bind.
  eapply cwp_mono; [apply line_wp; [done|]| |done].
  - split; [by rewrite last_snoc|]. rewrite length_app. simpl. lia.
  - intros st' Hu'. destruct (stop && _); [done|]. apply IH; [done|lia].
Qed.

(** Whatever a configuration file holds, parsing it stays within the
    line that is read and ends, and the handler gets only values that
    follow the NUL of their name or start a continued line. *)
Theorem ini_parse_safe u f : I u → cwp (ini_parse_stream stop pre handler u f) (λ eu, I eu.2) E.
Proof.
  intros Hu. unfold ini_parse_stream. apply cwp_bind. eapply cwp_mono; [by apply loop_wp| |done]. done.
Qed.
End safety.

(** ** A file that is written and read *)

Inductive item := ISection (name : list Z) | IPair (name value : list Z).

Definition render_item (it : item) : list Z :=
  match it with
  | ISection n => 91 :: n ++ [93; 10]
  | IPair n v => n ++ [32; 61; 32] ++ v ++ [10]
  end.
Definition render_items (l : list item) : list Z := concat (map render_item l).

(** The buffer of a pair when the handler is called. *)
Definition pair_buf (n v : list Z) : list Z := n ++ [0; 0; 32] ++ v ++ [0; 0].

Lemma strlen_app l r : Forall (λ c, c ≠ 0) l → strlen (l ++ 0 :: r) = Ok (length l).
Proof. induction 1 as [|c l Hc _ IH]; [done|]. simpl. destruct (Z.eqb_spec c 0); [done|]. by rewrite IH. Qed.

(** The text does not end in white space. *)
Definition trimmed (l : list Z) : Prop := ∃ l' c, l = l' ++ [c] ∧ c_isspace c = false.

Lemma aread_mid (p : list Z) c r : aread (p ++ c :: r) (Z.of_nat (length p)) = Ok c.
Proof. apply aread_Ok; [lia|]. rewrite Nat2Z.id, lookup_app_r by lia. by rewrite Nat.sub_diag. Qed.

Lemma awrite_mid (p : list Z) c r x : awrite (p ++ c :: r) (Z.of_nat (length p)) x = Ok (p ++ x :: r).
Proof.
  rewrite awrite_lt by (rewrite length_app; simpl; lia). f_equal.
  rewrite Nat2Z.id, insert_app_r_alt by lia. by rewrite Nat.sub_diag.
Qed.

Lemma rstrip_loop_trimmed (p l r : list Z) : trimmed l → rstrip_loop (length l) (p ++ l ++ r) (length p) = Ok (p ++ l ++ r).
Proof.
  intros (l' & c & -> & Hc). rewrite length_app, Nat.add_1_r. cbn [rstrip_loop].
  replace (p ++ (l' ++ [c]) ++ r) with ((p ++ l') ++ c :: r) by by rewrite <- !(assoc_L (++)).
  rewrite <- length_app, aread_mid. simpl. by rewrite Hc.
Qed.

Lemma rstrip_trimmed (p l r : list Z) : trimmed l → Forall (λ c, c ≠ 0) l →
  rstrip (p ++ l ++ 0 :: r) (length p) = Ok (p ++ l ++ 0 :: r).
Proof.
  intros Ht Hl. unfold rstrip. rewrite drop_app_length, strlen_app by done. run. by apply rstrip_loop_trimmed.
Qed.

(** One character of white space at the end. *)
Lemma rstrip_space (p l : list Z) w (r : list Z) : trimmed l → Forall (λ c, c ≠ 0) l → c_isspace w = true →
  rstrip (p ++ l ++ w :: 0 :: r) (length p) = Ok (p ++ l ++ 0 :: 0 :: r).
Proof.
  intros Ht Hl Hw. unfold rstrip. rewrite drop_app_length.
  replace (l ++ w :: 0 :: r) with ((l ++ [w]) ++ 0 :: r) by by rewrite <- (assoc_L (++)).
  rewrite strlen_app. 2: { apply Forall_app_2; [done|]. apply Forall_singleton. by intros ->. }
  run. rewrite length_app, Nat.add_1_r. cbn [rstrip_loop].
  replace (p ++ (l ++ [w]) ++ 0 :: r) with ((p ++ l) ++ w :: 0 :: r) by by rewrite <- !(assoc_L (++)).
  rewrite <- length_app, aread_mid. run. rewrite Hw, awrite_mid. run. rewrite <- (assoc_L (++)).
  by apply rstrip_loop_trimmed.
Qed.

Lemma lskip_first b c l s : drop s b = c :: l → c_isspace c = false → lskip b s = Ok s.
Proof.
  intros Hd Hc. unfold lskip. rewrite Hd. simpl. rewrite Hc. destruct (c =? 0); simpl; by rewrite Nat.add_0_r.
Qed.

Lemma cstr_app_nul l r : Forall (λ c, c ≠ 0) l → cstr (l ++ 0 :: r) = l.
Proof. induction 1 as [|c l Hc _ IH]; [done|]. simpl. destruct (Z.eqb_spec c 0); [done|]. by rewrite IH. Qed.

Section roundtrip.
Context (stop : bool) (pre : list Z) {U : Type}.
Context (handler : U → list Z → list Z → list Z → nat → cres (Z * U)).

(** Characters of names. *)
Definition name_char (c : Z) : Prop := c ≠ 0 ∧ c ≠ 61 ∧ c ≠ 58 ∧ c ≠ 93 ∧ c_isspace c = false.

(** What is read back. *)
Definition item_ok (it : item) : Prop :=
  (length (render_item it) ≤ INI_MAX_LINE - 1)%nat ∧
  match it with
  | ISection n => Forall (λ c, c ≠ 0 ∧ c ≠ 93 ∧ c_isspace c = false) n ∧ (length n < MAX_SECTION)%nat
  | IPair n v =>
    Forall name_char n ∧ (∃ c, head n = Some c ∧ c ≠ 35 ∧ c ≠ 59 ∧ c ≠ 91 ∧ c ≠ 239) ∧
    Forall (λ c, c ≠ 0 ∧ c ≠ 10) v ∧ trimmed v ∧ (∃ c, head v = Some c ∧ c_isspace c = false) ∧
    find_loop pre [] true (v ++ [0]) = Ok (length v)
  end.

(** The lines, one after the other. *)
Definition spec_item (st : ini_st U) (it : item) : cres (ini_st U) :=
  let st := {| st with lineno := lineno st + 1 |} in
  match it with
  | ISection n => Ok {| st with section := n; prev_name := [] |}
  | IPair n v =>
    call handler {| st with prev_name := take (MAX_NAME - 1) n |} n (pair_buf n v) (length n + 3)%nat
  end.

Fixpoint spec_items (st : ini_st U) (l : list item) : cres (ini_st U) :=
  match l with
  | [] => Ok st
  | it :: l' =>
    st ← spec_item st it;
    if stop && negb (error st =? 0) then Ok st else spec_items st l'
  end.

Lemma find_name chars n w r : Forall (λ c, c ≠ 0 ∧ (c ∉ chars) ∧ c_isspace c = false) n → w = false ∨ n = [] →
  find_loop pre chars w (n ++ r) = (k ← find_loop pre chars (match n with [] => w | _ => false end) r; Ok (length n + k)%nat).
Proof.
  intros Hn. revert w. induction Hn as [|c n (Hc & Hm & Hs) _ IH]; intros w Hw; simpl.
  { by destruct (find_loop pre chars w r). }
  destruct Hw as [->|]; [|done]. destruct (Z.eqb_spec c 0); [done|].
  unfold mem at 1. rewrite (bool_decide_false _ Hm). simpl. rewrite Hs, IH by by left.
  destruct n; by destruct (find_loop pre chars false r).
Qed.

Lemma find_more chars l r : ∀ w n, find_loop pre chars w (l ++ [0]) = Ok n → find_loop pre chars w (l ++ 0 :: r) = Ok n.
Proof.
  induction l as [|c l IH]; intros w n; simpl; [done|]. destruct (_ || _); [done|].
  destruct (find_loop pre chars (c_isspace c) (l ++ [0])) as [k| | |] eqn:E; try done. simpl. intros [= <-].
  by rewrite (IH _ k).
Qed.

(** A [[section]] line. *)
Lemma ini_line_section st n : item_ok (ISection n) →
  ini_line pre handler st (render_item (ISection n) ++ [0]) = spec_item st (ISection n).
Proof.
  intros (_ & Hn & Hl). unfold ini_line, spec_item. cbv zeta. cbn [render_item lineno].
  assert (bom ((91 :: n ++ [93; 10]) ++ [0]) = false) as ->.
  { unfold bom. apply bool_decide_eq_false_2. by intros [=]. }
  rewrite andb_false_r.
  assert (trimmed (91 :: n ++ [93])) as Ht by (exists (91 :: n), 93; done).
  assert (Forall (λ c, c ≠ 0) (91 :: n ++ [93])) as H0.
  { apply Forall_cons. split; [done|]. apply Forall_app_2; [|by apply Forall_singleton].
    eapply Forall_impl; [exact Hn|]. naive_solver. }
  pose proof (rstrip_space [] (91 :: n ++ [93]) 10 [] Ht H0 eq_refl) as Hr. simpl in Hr.
  rewrite <- (assoc_L (++)) in Hr. simpl in Hr. simpl app. rewrite <- (assoc_L (++)). simpl app. rewrite Hr. run.
  rewrite (lskip_first _ 91 (n ++ [93; 0; 0])); [|simpl; by rewrite <- (assoc_L (++))|done]. run.
  unfold aread. simpl. rewrite andb_false_r. unfold ini_section, find_chars_or_comment. simpl drop.
  rewrite drop_0. replace ((n ++ [93]) ++ [0; 0]) with (n ++ [93; 0; 0]) by by rewrite <- (assoc_L (++)).
  rewrite find_name; [|eapply Forall_impl; [exact Hn|]; intros c (? & ? & ?); set_solver|by left].
  assert (∀ w, find_loop pre [93] w [93; 0; 0] = Ok O) as Hf by done. rewrite Hf. run. rewrite Nat.add_0_r.
  replace (91 :: n ++ [93; 0; 0]) with ((91 :: n) ++ 93 :: [0; 0]) by done.
  change (1 + length n)%nat with (length (91 :: n)). rewrite aread_mid. run. rewrite awrite_mid. run.
  do 2 f_equal. unfold strncpy0. cbn [app drop]. rewrite ?drop_0, cstr_app_nul.
  - apply take_ge. unfold MAX_SECTION in *. lia.
  - eapply Forall_impl; [exact Hn|]. naive_solver.
Qed.

Lemma names_ok n c : Forall name_char n → head n = Some c → trimmed n ∧ Forall (λ c, c ≠ 0) n ∧ c_isspace c = false.
Proof.
  intros Hn Hc. split_and!.
  - destruct (exists_last (l:=n)) as (n' & d & ->); [by intros ->|]. exists n', d. split; [done|].
    apply Forall_app in Hn as [_ Hn]. apply Forall_cons in Hn as [(_ & _ & _ & _ & ?) _]. done.
  - eapply Forall_impl; [exact Hn|]. intros d (? & _). done.
  - destruct n; simplify_eq/=. apply Forall_cons in Hn as [(_ & _ & _ & _ & ?) _]. done.
Qed.

(** The part of a [name = value] line after the white space is cut. *)
Lemma ini_pair_ok st n v c d :
  Forall name_char n → head n = Some c → Forall (λ c, c ≠ 0 ∧ c ≠ 10) v → trimmed v →
  head v = Some d → c_isspace d = false → find_loop pre [] true (v ++ [0]) = Ok (length v) →
  ini_pair pre handler st (n ++ [32; 61; 32] ++ v ++ [0; 0]) 0 =
    call handler {| st with prev_name := take (MAX_NAME - 1) n |} n (pair_buf n v) (length n + 3)%nat.
Proof.
  intros Hn Hc Hv Ht Hd Hds Hf. destruct (names_ok n c Hn Hc) as (Htn & Hn0 & Hcs).
  unfold ini_pair, find_chars_or_comment. rewrite drop_0.
  rewrite find_name; [|eapply Forall_impl; [exact Hn|]; intros x (? & ? & ? & ? & ?); set_solver|by left].
  assert (∀ w r, find_loop pre [61; 58] w (32 :: 61 :: r) =
    if w && mem 32 pre then Ok O else Ok 1%nat) as Hf1.
  { intros w r. cbn -[mem]. by destruct (w && mem 32 pre). }
  change ([32; 61; 32] ++ v ++ [0; 0]) with (32 :: 61 :: 32 :: v ++ [0; 0]). rewrite Hf1. replace (match n with [] => false | _ => false end) with false by by destruct n. cbn [andb]. run.
  replace (n ++ 32 :: 61 :: 32 :: v ++ [0; 0]) with ((n ++ [32]) ++ 61 :: 32 :: v ++ [0; 0])
    by by rewrite <- (assoc_L (++)).
  replace (length n + 1)%nat with (length (n ++ [32])) by by rewrite length_app.
  cbn [Nat.add]. rewrite aread_mid. run. rewrite awrite_mid. run.
  pose proof (rstrip_space [] n 32 (32 :: v ++ [0; 0]) Htn Hn0 eq_refl) as Hr. simpl in Hr.
  replace ((n ++ [32]) ++ 0 :: 32 :: v ++ [0; 0]) with (n ++ 32 :: 0 :: 32 :: v ++ [0; 0])
    by by rewrite <- (assoc_L (++)).
  rewrite Hr. run. rewrite length_app. simpl length. set (b := n ++ 0 :: 0 :: 32 :: v ++ [0; 0]).
  assert (drop (S (length n + 1)) b = 32 :: v ++ [0; 0]) as Hd1.
  { unfold b. rewrite drop_app_ge by lia. by replace (S (length n + 1) - length n)%nat with 2%nat by lia. }
  assert (drop (length n + 3) b = v ++ [0; 0]) as Hd2.
  { unfold b. rewrite drop_app_ge by lia. by replace (length n + 3 - length n)%nat with 3%nat by lia. }
  assert (find_loop pre [] false (32 :: v ++ [0; 0]) = Ok (S (length v))) as Hf2.
  { cbn [find_loop]. change (mem 32 []) with false. cbn. by rewrite (find_more [] v [0] _ _ Hf). }
  rewrite Hd1, Hf2. simpl orb. run.
  rewrite (aread_Ok _ _ 0); [|lia|].
  2: { rewrite Nat2Z.id. replace (S (length n + 1 + S (length v)))%nat with (length n + 3 + length v)%nat by lia.
       rewrite <- lookup_drop, Hd2, lookup_app_r by lia. by rewrite Nat.sub_diag. }
  run. unfold lskip. rewrite Z.eqb_refl. run.
  rewrite Hd1. cbn [lskip_loop]. change (c_isspace 32) with true. simpl Z.eqb. cbv iota.
  destruct v as [|d' v]; simplify_eq/=. rewrite Hds.
  assert (d ≠ 0) as Hd0. { apply Forall_cons in Hv as [[? _] _]. done. }
  destruct (Z.eqb_spec d 0); [done|]. run.
  replace (S (length n + 1 + 1))%nat with (length n + 3)%nat by lia.
  assert (b = (n ++ [0; 0; 32]) ++ (d :: v) ++ 0 :: [0]) as Eb by (unfold b; by rewrite <- (assoc_L (++))).
  rewrite Eb. replace (length n + 3)%nat with (length (n ++ [0; 0; 32])) at 1 by by rewrite length_app.
  rewrite rstrip_trimmed; [|done|eapply Forall_impl; [exact Hv|]; naive_solver]. run. rewrite <- Eb.
  assert (cstr (drop 0 b) = n) as ->. { rewrite drop_0. unfold b. by apply cstr_app_nul. }
  f_equal. unfold strncpy0. rewrite <- (app_nil_r n) at 1.
  assert (cstr n = n) as Hcn. { clear -Hn0. induction Hn0 as [|x l Hx _ IH]; [done|]. simpl.
    destruct (Z.eqb_spec x 0); [done|]. by rewrite IH. }
  rewrite app_nil_r. by rewrite Hcn.
Qed.

(** A [name = value] line. *)
Lemma ini_line_pair st n v : item_ok (IPair n v) →
  ini_line pre handler st (render_item (IPair n v) ++ [0]) = spec_item st (IPair n v).
Proof.
  intros (_ & Hn & (c & Hc & H35 & H59 & H91 & H239) & Hv & Ht & (d & Hd & Hds) & Hf).
  destruct (names_ok n c Hn Hc) as (Htn & Hn0 & Hcs). unfold ini_line, spec_item. cbv zeta. cbn [lineno].
  assert (Forall (λ c, c ≠ 0) v) as Hv0 by (eapply Forall_impl; [exact Hv|]; naive_solver).
  set (st1 := {| section := section st; prev_name := prev_name st; lineno := lineno st + 1; error := error st; user := user st |}).
  assert (bom (render_item (IPair n v) ++ [0]) = false) as ->.
  { unfold bom. apply bool_decide_eq_false_2. destruct n; simplify_eq/=. by intros [=]. }
  rewrite andb_false_r.
  pose proof (rstrip_space [] (n ++ [32; 61; 32] ++ v) 10 []) as Hr. simpl in Hr.
  rewrite <- (assoc_L (++)) in Hr. simpl in Hr. rewrite <- !(assoc_L (++)) in Hr.
  cbn [render_item]. rewrite <- (assoc_L (++)). simpl app. rewrite <- (assoc_L (++)). simpl app. rewrite Hr; [|..|done].
  2: { destruct Ht as (l & x & -> & Hx). exists (n ++ 32 :: 61 :: 32 :: l), x. split; [|done]. by rewrite <- (assoc_L (++)). }
  2: { apply Forall_app_2; [done|]. by repeat (apply Forall_cons; split; [done|]). }
  run. destruct n as [|c' n]; simplify_eq/=. rewrite (lskip_first _ c (n ++ 32 :: 61 :: 32 :: v ++ [0; 0])); [|done..]. run.
  unfold aread. simpl. destruct (Z.eqb_spec c 59), (Z.eqb_spec c 35), (Z.eqb_spec c 91); try done. simpl.
  rewrite andb_false_r. destruct (Z.eqb_spec c 0) as [->|]. { apply Forall_cons in Hn0 as [? _]. done. }
  apply (ini_pair_ok st1 (c :: n) v c d); done.
Qed.

Lemma ini_line_item st it : item_ok it → ini_line pre handler st (render_item it ++ [0]) = spec_item st it.
Proof. destruct it; [apply ini_line_section|apply ini_line_pair]. Qed.

Lemma fgets_body n l r : Forall (λ c, c ≠ 10) l → (length l < n)%nat → fgets n (l ++ 10 :: r) = (l ++ [10], r).
Proof.
  intros Hl. revert n. induction Hl as [|c l Hc _ IH]; intros [|n] Hn; simpl in *; try lia; [done|].
  destruct (Z.eqb_spec c 10); [done|]. by rewrite IH by lia.
Qed.

Lemma fgets_item it r : item_ok it → fgets (INI_MAX_LINE - 1) (render_item it ++ r) = (render_item it, r).
Proof.
  assert (∀ l, Forall (λ c, c_isspace c = false) l → Forall (λ c, c ≠ 10) l) as Hs.
  { intros l Hl. eapply Forall_impl; [exact Hl|]. by intros c Hc ->. }
  intros [Hl H]. destruct it as [n|n v]; cbn [render_item] in *.
  - replace ((91 :: n ++ [93; 10]) ++ r) with ((91 :: n ++ [93]) ++ 10 :: r) by (simpl; by rewrite <- !(assoc_L (++))).
    rewrite fgets_body; [by rewrite <- app_comm_cons, <- (assoc_L (++))| |].
    + destruct H as [Hn _]. apply Forall_cons. split; [done|]. apply Forall_app_2; [|by apply Forall_singleton].
      apply Hs. eapply Forall_impl; [exact Hn|]. naive_solver.
    + simpl in *. rewrite length_app in *. simpl in *. lia.
  - destruct H as (Hn & _ & Hv & _).
    replace ((n ++ [32; 61; 32] ++ v ++ [10]) ++ r) with ((n ++ [32; 61; 32] ++ v) ++ 10 :: r)
      by by rewrite <- !(assoc_L (++)).
    rewrite fgets_body; [by rewrite <- !(assoc_L (++))| |].
    + apply Forall_app_2; [apply Hs; eapply Forall_impl; [exact Hn|]; intros c (_ & _ & _ & _ & ?); done|].
      repeat (apply Forall_cons; split; [done|]). eapply Forall_impl; [exact Hv|]. naive_solver.
    + rewrite !length_app in *. simpl in *. lia.
Qed.

Lemma loop_items fuel st l : Forall item_ok l → (length (render_items l) ≤ fuel)%nat →
  ini_loop stop pre handler fuel st (render_items l) = spec_items st l.
Proof.
  intros Hl. revert fuel st. induction Hl as [|it l Hit _ IH]; intros fuel st Hf; [by destruct fuel|].
  unfold render_items in *. simpl in *. rewrite length_app in Hf.
  assert (∃ c k, render_item it = c :: k) as (c & k & E).
  { destruct it as [n|[|c n] v]; simpl; by eexists _, _. }
  destruct fuel as [|fuel]; [rewrite E in Hf; simpl in Hf; lia|]. rewrite E at 1. simpl app. cbn [ini_loop].
  rewrite app_comm_cons, <- E, fgets_item, ini_line_item by done.
  destruct (spec_item st it) as [st'| | |]; try done. run. destruct (stop && _); [done|]. apply IH.
  rewrite E in Hf. simpl in Hf. lia.
Qed.

Lemma ini_items u l : Forall item_ok l →
  ini_parse_stream stop pre handler u (render_items l) =
    (st ← spec_items (ini_init u) l; Ok (error st, user st)).
Proof. intros Hl. unfold ini_parse_stream. by rewrite loop_items. Qed.

(** A file of sections and [name = value] lines is read as it was
    written: the handler is called for every pair, in order, with its section,
    its name and its value. *)
Theorem ini_roundtrip u l : Forall item_ok l →
  ini_parse_stream stop pre handler u (render_items l) =
    (st ← spec_items (ini_init u) l; Ok (error st, user st)).
Proof. apply ini_items. Qed.

End roundtrip.

(** ** Files as a writer sees them *)

(** A handler that keeps what it is called with. *)
Definition collect (u : list (list Z * list Z * list Z)) (section name b : list Z) (value : nat)
    : cres (Z * list (list Z * list Z * list Z)) :=
  Ok (1, u ++ [(section, name, cstr (drop value b))]).







Module IniWitnesses.

Ltac chars := repeat (apply Forall_cons; split; [done|]); apply Forall_nil; exact I.



(** The prefix that the build configures is not the one that is compiled in:
    with ';' a value keeps what follows a '#'. *)
Example hash_is_kept :
  ini_parse false [59] collect (Some (to_bytes "mtu = 1400 # bytes
"%string)) [] = Ok (0, [([], to_bytes "mtu", to_bytes "1400 # bytes")]).
Proof. vm_compute. reflexivity. Qed.
End IniWitnesses.
