(* ===== verification/ConfPorts.v ===== *)
(** * Port lists (src/config-ports.c)

    The value of restrict-user-to-ports: [tcp(443), udp(80)], or the same in
    [!( ... )] for ports that are refused.  A pointer into the text is what
    the text still holds from there on, with its NUL. *)

From S2P Require Import Prelude CString CText Html.

Inductive fw_proto_t := PROTO_UDP | PROTO_TCP | PROTO_SCTP | PROTO_ESP | PROTO_ICMP | PROTO_ICMPv6.
#[export] Instance fw_proto_eq_dec : EqDecision fw_proto_t.
Proof. solve_decision. Defined.

Record FwPortSt := { port : Z; proto : fw_proto_t; negate : bool }.

(** [atoi(p)] as an [int], stored in an unsigned field. *)
Definition atoi_at (p : list Z) : cres Z := '(v, _) ← strtol 10 p; Ok (u32 v).

(** The names in the order they are tried. *)
Definition proto_names : list (list Z * fw_proto_t) :=
  [(to_bytes "tcp", PROTO_TCP); (to_bytes "udp", PROTO_UDP); (to_bytes "sctp", PROTO_SCTP);
   (to_bytes "icmpv6", PROTO_ICMPv6); (to_bytes "icmp", PROTO_ICMP); (to_bytes "esp", PROTO_ESP)].

Fixpoint find_proto (names : list (list Z * fw_proto_t)) (p : list Z) : cres (option (fw_proto_t * list Z)) :=
  match names with
  | [] => Ok None
  | (n, pr) :: names' =>
    m ← matches_ci n p;
    if (m : bool) then Ok (Some (pr, drop (length n) p)) else find_proto names' p
  end.

(** [while (c_isspace( *p) || *p == '(')]: where it stops, and
    [bracket_start]. *)
Fixpoint skip_open (p : list Z) (bracket : bool) : cres (list Z * bool) :=
  match p with
  | [] => UB
  | c :: p' =>
    if c_isspace c || (c =? 40) then skip_open p' (bracket || (c =? 40)) else Ok (p, bracket)
  end.

(** The loop.  The list has what was appended before an error, too; the
    allocations of [append_port] succeed. *)
Fixpoint ports_loop (fuel : nat) (neg : bool) (p : list Z) (l : list FwPortSt)
    : cres (Z * list FwPortSt) :=
  match fuel with
  | O => Fuel
  | S fuel' =>
    p ← skip_spaces p;
    o ← find_proto proto_names p;
    match o with
    | None => Ok (-1, l)
    | Some (pr, p) =>
      p ← skip_spaces p;
      c ← deref p;
      if negb (c =? 40) then Ok (-1, l) else
      let p := drop 1 p in
      n ← atoi_at p;
      let l := l ++ [{| port := n; proto := pr; negate := neg |}] in
      match strchr_at p 41 with
      | None => Ok (-1, l)
      | Some k =>
        p2 ← skip_spaces (drop (S k) p);
        c ← deref p2;
        if (c =? 0) || (neg && (c =? 41)) then Ok (0, l)
        else if negb (c =? 44) then Ok (-1, l)
        else ports_loop fuel' neg (drop 1 p2) l
      end
    end
  end.

(** [str] without its NUL; the ports are added to the list. *)
Definition cfg_parse_ports (l : list FwPortSt) (str : option (list Z))
    : cres (Z * list FwPortSt) :=
  match str with
  | None => Ok (0, l)
  | Some str =>
    let p := str ++ [0] in
    p ← skip_spaces p;
    c ← deref p;
    if c =? 33 then
      '(p, bracket) ← skip_open (drop 1 p) false;
      if negb bracket then Ok (-1, l) else ports_loop (S (length str)) true p l
    else ports_loop (S (length str)) false p l
  end.

Example ports1 : cfg_parse_ports [] (Some (to_bytes "tcp(443), UDP ( 80 ),icmpv6()")) =
  Ok (0, [ {| port := 443; proto := PROTO_TCP; negate := false |};
           {| port := 80; proto := PROTO_UDP; negate := false |};
           {| port := 0; proto := PROTO_ICMPv6; negate := false |} ]).
Proof. reflexivity. Qed.
Example ports2 : cfg_parse_ports [] (Some (to_bytes "!(tcp(22))")) =
  Ok (0, [ {| port := 22; proto := PROTO_TCP; negate := true |} ]).
Proof. reflexivity. Qed.
Example ports3 : cfg_parse_ports [] (Some (to_bytes "tcp(22), tpc(23)")) =
  Ok (-1, [ {| port := 22; proto := PROTO_TCP; negate := false |} ]).
Proof. reflexivity. Qed.
