(* ===== verification/ConfPortsSpec.v ===== *)
(** * Port lists: reading stays in the text, and reads what was written *)

From stdpp Require Import pretty.
From S2P Require Import Prelude CString CText Html HtmlSpec IpUtil NetText ConfPorts.

(** ** Safety *)

Lemma nul_ahead_snoc l : nul_ahead (l ++ [0]).
Proof. apply elem_of_app. right. by apply list_elem_of_singleton. Qed.

Lemma skip_open_nul p b : nul_ahead p → ∃ q b', skip_open p b = Ok (q, b') ∧ q `suffix_of` p ∧ nul_ahead q.
Proof.
  revert b. induction p as [|c p IH]; intros b Hp; [by apply elem_of_nil in Hp|]. simpl.
  destruct (c_isspace c || (c =? 40)) eqn:Ec; [|by eexists _, _].
  destruct (IH (b || (c =? 40))) as (q & b' & -> & ? & ?).
  { eapply nul_ahead_cons; [done|]. by intros ->. }
  exists q, b'. split_and!; [done|by apply suffix_cons_r|done].
Qed.

Lemma find_proto_nul names p : Forall (λ n, 0 ∉ n.1) names → nul_ahead p →
  ∃ o, find_proto names p = Ok o ∧
    match o with Some (_, q) => q `suffix_of` p ∧ nul_ahead q | None => True end.
Proof.
  intros Hn Hp. induction Hn as [|[n pr] names Hn _ IH]; simpl; [by eexists|]. simpl in Hn.
  destruct (matches_ci_nul n p Hn Hp) as (m & E & Hm). rewrite E. run. destruct m; [|done].
  destruct (Hm eq_refl) as (k & Hk & _). eexists. split; [done|]. split; [by exists k|].
  clear -Hn Hp E. revert p Hp E. induction n as [|l n IH]; intros p Hp E; simpl in *; [by rewrite drop_0|].
  apply not_elem_of_cons in Hn as [Hl0 Hn].
  destruct (deref_nul p Hp) as (c & p' & -> & _). simpl in E.
  destruct (Z.eqb_spec (c_tolower c) (c_tolower l)) as [Ec|]; [|done].
  rewrite drop_0 in E. apply IH; [done| |done]. apply nul_ahead_cons with c; [done|].
  intros ->. apply Hl0. symmetry. apply c_tolower_zero. rewrite <- Ec. done.
Qed.

Lemma proto_names_nul : Forall (λ n, 0 ∉ n.1) proto_names.
Proof. repeat (apply Forall_cons; split; [set_solver by lia|]). by apply Forall_nil. Qed.

Lemma strchr_at_nul p c k : nul_ahead p → strchr_at p c = Some k → c ≠ 0 →
  nul_ahead (drop (S k) p) ∧ (k < length p)%nat.
Proof.
  intros Hp Hk Hc. revert k Hk. induction p as [|x p IH]; intros k Hk; [done|]. simpl in Hk.
  destruct (Z.eqb_spec x 0); [done|]. apply nul_ahead_cons in Hp; [|done]. destruct (x =? c).
  - injection Hk as <-. simpl. rewrite drop_0. split; [done|lia].
  - destruct (strchr_at p c) as [k'|]; [|done]. injection Hk as <-. destruct (IH Hp k') as [? ?]; [done|].
    split; [done|]. simpl. lia.
Qed.

Lemma suffix_length_le (q p : list Z) : q `suffix_of` p → (length q ≤ length p)%nat.
Proof. intros [k ->]. rewrite length_app. lia. Qed.

Lemma ports_loop_safe fuel neg p l : nul_ahead p → (length p ≤ fuel)%nat →
  cwp (ports_loop fuel neg p l) (λ rl, l `prefix_of` rl.2) (λ _, False).
Proof.
  revert p l. induction fuel as [|fuel IH]; intros p l Hp Hf.
  { destruct (deref_nul p Hp) as (? & ? & -> & _). simpl in Hf. lia. }
  cbn [ports_loop]. destruct (skip_spaces_nul p Hp) as (p1 & -> & Hs1 & Hp1). run.
  destruct (find_proto_nul _ p1 proto_names_nul Hp1) as (o & -> & Ho). run. destruct o as [[pr p2]|]; [|simpl; reflexivity].
  destruct Ho as [Hs2 Hp2]. destruct (skip_spaces_nul p2 Hp2) as (p3 & -> & Hs3 & Hp3). run.
  destruct (deref_nul p3 Hp3) as (c & p3' & -> & ->). run. destruct (Z.eqb_spec c 40) as [->|]; [|simpl; reflexivity]. cbn [negb].
  change (drop 1 (40 :: p3')) with p3'. apply nul_ahead_cons in Hp3; [|done]. cbv zeta.
  unfold atoi_at. destruct (strtol_nul 10 p3') as (v & e & -> & _); [lia|done|]. run.
  destruct (strchr_at p3' 41) as [k|] eqn:Ek; [|by apply prefix_app_r].
  destruct (strchr_at_nul _ _ _ Hp3 Ek) as [Hp4 Hk]; [done|].
  destruct (skip_spaces_nul _ Hp4) as (p5 & -> & Hs5 & Hp5). run.
  destruct (deref_nul p5 Hp5) as (c2 & p5' & -> & ->). run.
  destruct ((c2 =? 0) || _) eqn:E0; [by apply prefix_app_r|]. destruct (Z.eqb_spec c2 44) as [->|]; [|by apply prefix_app_r].
  cbn [negb]. change (drop 1 (44 :: p5')) with p5'. apply nul_ahead_cons in Hp5; [|done].
  eapply cwp_mono; [apply IH; [done|]| |done].
  - apply suffix_length_le in Hs1, Hs2, Hs3, Hs5. rewrite length_drop in Hs5. simpl in *. lia.
  - intros rl Hl. simpl in *. etrans; [|exact Hl]. by apply prefix_app_r.
Qed.

(** Reading a list of ports never leaves the text, whatever it is, ends,
    and keeps the ports that were there. *)
Theorem ports_safe l str :
  cwp (cfg_parse_ports l str) (λ rl, l `prefix_of` rl.2) (λ _, False).
Proof.
  unfold cfg_parse_ports. destruct str as [str|]; [|simpl; reflexivity]. cbv zeta.
  destruct (skip_spaces_nul (str ++ [0])) as (p & -> & Hs & Hp); [apply nul_ahead_snoc|]. run.
  assert (length p ≤ S (length str))%nat as Hl.
  { apply suffix_length_le in Hs. rewrite length_app in Hs. simpl in Hs. lia. }
  destruct (deref_nul p Hp) as (c & p' & -> & ->). run. destruct (Z.eqb_spec c 33) as [->|].
  - change (drop 1 (33 :: p')) with p'. apply nul_ahead_cons in Hp; [|done].
    destruct (skip_open_nul p' false Hp) as (q & b & -> & Hq & Hqn). run.
    destruct (negb b); [simpl; reflexivity|]. apply ports_loop_safe; [done|]. apply suffix_length_le in Hq. simpl in *. lia.
  - by apply ports_loop_safe.
Qed.

(** ** Round trip *)

Definition proto_name (pr : fw_proto_t) : list Z :=
  to_bytes match pr with
           | PROTO_UDP => "udp" | PROTO_TCP => "tcp" | PROTO_SCTP => "sctp"
           | PROTO_ESP => "esp" | PROTO_ICMP => "icmp" | PROTO_ICMPv6 => "icmpv6" end.

Definition print_port (p : FwPortSt) : list Z :=
  proto_name (proto p) ++ [40] ++ to_bytes (dec (port p)) ++ [41].
Fixpoint print_list (l : list FwPortSt) : list Z :=
  match l with
  | [] => []
  | [p] => print_port p
  | p :: l' => print_port p ++ [44; 32] ++ print_list l'
  end.
Definition print_ports (neg : bool) (l : list FwPortSt) : list Z :=
  if neg then [33; 40] ++ print_list l ++ [41] else print_list l.

Lemma find_proto_name pr rest : find_proto proto_names (proto_name pr ++ 40 :: rest) = Ok (Some (pr, 40 :: rest)).
Proof. by destruct pr; simpl; rewrite ?drop_0. Qed.

Lemma skip_spaces_name pr rest : skip_spaces (proto_name pr ++ rest) = Ok (proto_name pr ++ rest).
Proof. by destruct pr. Qed.

Lemma digit_of_digit c : is_digit c = true → digit_of 10 c = Some (c - 48).
Proof.
  unfold is_digit, digit_of, c_isdigit. intros H. rewrite H. destruct (Z.ltb_spec (c - 48) 10); [done|]. lia.
Qed.

Lemma fold_digits s v : digit_string s →
  foldl (λ v c, 10 * v + default 0 (digit_of 10 c)) v (to_bytes s) = digits s v.
Proof.
  revert v. induction s as [|a s IH]; intros v Hs; simpl; [done|].
  apply Forall_cons in Hs as [Ha Hs]. rewrite (digit_of_digit _ Ha), Ha. simpl. rewrite IH by done. f_equal. lia.
Qed.

Lemma dec_nonempty n : to_bytes (dec n) ≠ [].
Proof.
  assert (∀ x s, s ≠ ""%string → pretty_N_go x s ≠ ""%string) as H.
  { intros x. induction (N.lt_wf_0 x) as [x _ IH]; intros s Hs.
    assert (x = 0 ∨ 0 < x)%N as [->|Hx] by lia; [done|].
    rewrite pretty_N_go_step by done. apply IH; [by apply N.div_lt|done]. }
  unfold dec, pretty, pretty_N. destruct (decide (Z.to_N n = 0%N)) as [|Hn]; [done|].
  rewrite pretty_N_go_step by lia. intros E.
  apply (H (Z.to_N n `div` 10)%N (String (pretty_N_char (Z.to_N n `mod` 10)) "")); [done|].
  by destruct (pretty_N_go _ _).
Qed.

Lemma atoi_at_dec n rest : 0 ≤ n < 2 ^ 32 → atoi_at (to_bytes (dec n) ++ 41 :: rest) = Ok n.
Proof.
  intros Hn. pose proof (dec_digit_string n) as Hd. pose proof (dec_nonempty n) as Hne.
  assert (Forall (λ c, is_Some (digit_of 10 c)) (to_bytes (dec n))) as Hs.
  { eapply Forall_impl; [exact Hd|]. intros c Hc. rewrite (digit_of_digit _ Hc). by eexists. }
  assert (digits (dec n) 0 = n) as Hv.
  { pose proof (digits_dec n "" ltac:(lia) Logic.I) as E.
    assert (∀ t : string, (t +:+ "")%string = t) as Happ by (intros t; induction t as [|a t IH]; [done|exact (f_equal (String a) IH)]).
    by rewrite Happ in E. }
  rewrite <- (fold_digits _ _ Hd) in Hv. revert Hd Hne Hs Hv. generalize (to_bytes (dec n)). intros ds Hd Hne Hs Hv.
  unfold atoi_at, strtol. destruct ds as [|c ds]; [done|]. clear Hne.
  pose proof (Forall_inv Hs) as Hc. destruct (digit_of_char false _ Hc) as (Hsp & H1 & H2 & _).
  cbn [app skip_spaces]. rewrite Hsp. run. cbn [deref]. run.
  destruct (Z.eqb_spec c 45), (Z.eqb_spec c 43); try done. cbn [orb].
  assert (∀ q, skip_0x 10 q = q) as -> by (by intros [|? [|? [|? ?]]]).
  change (c :: ds ++ 41 :: rest) with ((c :: ds) ++ 41 :: rest). rewrite scan_digits_all by done. run.
  cbn [Nat.add length Nat.eqb]. run. rewrite Hv. f_equal. unfold LONG_MAX.
  rewrite Z.min_r by lia. by apply wrap_small.
Qed.

Lemma strchr_dec n rest : strchr_at (to_bytes (dec n) ++ 41 :: rest) 41 = Some (length (to_bytes (dec n))).
Proof.
  rewrite strchr_group; [simpl; by rewrite Nat.add_0_r|].
  eapply Forall_impl; [apply dec_digit_string|]. unfold is_digit. intros c Hc. lia.
Qed.

(** One port, up to what follows its parenthesis. *)
Lemma ports_step fuel neg p rest l : 0 ≤ port p < 2 ^ 32 → negate p = neg →
  ports_loop (S fuel) neg (print_port p ++ rest) l =
    (p2 ← skip_spaces rest;
     c ← deref p2;
     if (c =? 0) || (neg && (c =? 41)) then Ok (0, l ++ [p])
     else if negb (c =? 44) then Ok (-1, l ++ [p])
     else ports_loop fuel neg (drop 1 p2) (l ++ [p])).
Proof.
  intros Hp Hn. unfold print_port. cbn [ports_loop]. rewrite <- !(assoc_L (++)).
  cbn [app]. rewrite skip_spaces_name. run. rewrite find_proto_name. run.
  set (q := to_bytes (dec (port p)) ++ 41 :: rest). change (skip_spaces (40 :: q)) with (Ok (40 :: q)). run.
  cbn [deref]. run. change (negb (40 =? 40)) with false. cbv iota zeta. change (drop 1 (40 :: q)) with q.
  unfold q. rewrite atoi_at_dec by done. run.
  rewrite strchr_dec. replace (drop (S (length (to_bytes (dec (port p))))) (to_bytes (dec (port p)) ++ 41 :: rest)) with rest.
  2: { rewrite drop_app_ge by lia. by replace (S _ - _)%nat with 1%nat by lia. }
  by replace {| port := port p; proto := proto p; negate := neg |} with p by (destruct p; by simplify_eq/=).
Qed.

Definition port_ok (neg : bool) (p : FwPortSt) : Prop := 0 ≤ port p < 2 ^ 32 ∧ negate p = neg.

Lemma ports_list fuel neg p ps l : Forall (port_ok neg) (p :: ps) → (length ps < fuel)%nat →
  ports_loop fuel neg (print_list (p :: ps) ++ (if neg then [41; 0] else [0])) l = Ok (0, l ++ p :: ps).
Proof.
  revert fuel p l. induction ps as [|p2 ps IH]; intros [|fuel] p l Hps Hf; try lia;
    pose proof Hps as [[Hp Hn] Hps']%Forall_cons.
  - cbn [print_list]. rewrite ports_step by done. by destruct neg.
  - change (print_list (p :: p2 :: ps)) with (print_port p ++ [44; 32] ++ print_list (p2 :: ps)).
    rewrite <- !(assoc_L (++)), ports_step by done. set (r := print_list (p2 :: ps) ++ _).
    change (skip_spaces ([44; 32] ++ r)) with (Ok (44 :: 32 :: r)). run. cbn [deref]. run.
    change (44 =? 0) with false. change (44 =? 41) with false. rewrite andb_false_r. cbn [orb].
    change (negb (44 =? 44)) with false. cbv iota. change (drop 1 (44 :: 32 :: r)) with (32 :: r). simpl in Hf.
    assert (∀ q, ports_loop fuel neg (32 :: q) (l ++ [p]) = ports_loop fuel neg q (l ++ [p])) as Hsp.
    { intros q. by destruct fuel. }
    rewrite Hsp. pose proof (IH fuel p2 (l ++ [p]) Hps' ltac:(lia)) as E. fold r in E. rewrite E. by rewrite <- (assoc_L (++)).
Qed.

(** A list of ports that is printed is read back, as allowed or as
    refused ports. *)
Theorem ports_roundtrip neg l ps : ps ≠ [] → Forall (port_ok neg) ps →
  cfg_parse_ports l (Some (print_ports neg ps)) = Ok (0, l ++ ps).
Proof.
  intros Hne Hps. destruct ps as [|p ps]; [done|].
  assert (length ps < S (length (print_ports neg (p :: ps))))%nat as Hl.
  { unfold print_ports. assert (∀ q qs, (length qs < S (length (print_list (q :: qs))))%nat) as H.
    { intros q qs. revert q. induction qs as [|q2 qs IH]; intros q; [simpl; lia|].
      change (print_list (q :: q2 :: qs)) with (print_port q ++ [44; 32] ++ print_list (q2 :: qs)).
      specialize (IH q2). rewrite !length_app. cbn [length]. cbn [length] in IH. lia. }
    specialize (H p ps). destruct neg; [|done]. rewrite !length_app. cbn [length]. lia. }
  pose proof (ports_list _ neg p ps l Hps Hl) as E. unfold cfg_parse_ports. cbv zeta.
  destruct neg; unfold print_ports in *.
  - rewrite <- !(assoc_L (++)). set (q := print_list (p :: ps) ++ [41] ++ [0]).
    change (skip_spaces ([33; 40] ++ q)) with (Ok (33 :: 40 :: q)). run. cbn [deref]. run.
    change (33 =? 33) with true. cbv iota. change (drop 1 (33 :: 40 :: q)) with (40 :: q).
    change (skip_open (40 :: q) false) with (skip_open q true).
    assert (∀ r, skip_open (print_list (p :: ps) ++ r) true = Ok (print_list (p :: ps) ++ r, true)) as Hs.
    { intros r. destruct ps; cbn [print_list]; unfold print_port; by destruct (proto p). }
    unfold q. rewrite Hs. run. exact E.
  - assert (∀ r, skip_spaces (print_list (p :: ps) ++ r) = Ok (print_list (p :: ps) ++ r) ∧
      ∃ c, deref (print_list (p :: ps) ++ r) = Ok c ∧ c ≠ 33) as Hs.
    { intros r. destruct ps; cbn [print_list]; unfold print_port; destruct (proto p); (split; [done|]); by eexists. }
    destruct (Hs [0]) as (-> & c & Hc & Hc33). run. rewrite Hc. run.
    destruct (Z.eqb_spec c 33); [done|]. exact E.
Qed.
