(* ===== verification/ConfSub.v ===== *)
(** * Options in brackets and Kerberos proxies (src/subconfig.c,
    src/config-kkdcp.c)

    [auth = "plain[passwd=/etc/ocpasswd,otp=/etc/otp]"]: what follows the
    name of a method.  A pointer into the text is what the text still holds
    from there on, with its NUL; [exit(1)] is [Err 1].  Allocations succeed. *)

From S2P Require Import Prelude CString CText Html PlainAuth.

Definition MAX_SUBOPTIONS : nat := 5.

(** [while (c_isspace( *p) || *p == ',') p++]. *)
Fixpoint skip_sep (p : list Z) : cres (list Z) :=
  match p with
  | [] => UB
  | c :: p' => if c_isspace c || (c =? 44) then skip_sep p' else Ok p
  end.

(** The name and the value at [p], whether it is the last one, and where the
    next one starts. *)
Definition expand_one (p : list Z) : cres (list Z * list Z * bool * list Z) :=
  match strchr_at p 61 with
  | None => Err 1
  | Some len =>
    p2 ← skip_spaces (drop (S len) p);
    '(len2, fin) ← match strchr_at p2 44 with
                   | Some k => Ok (k, false)
                   | None => match strchr_at p2 93 with Some k => Ok (k, true) | None => Err 1 end
                   end;
    len ← (if (0 <? len)%nat then trim_len p len else Ok len);
    len2 ← (if (0 <? len2)%nat then trim_len p2 len2 else Ok len2);
    p' ← skip_sep (drop len2 p2);
    Ok (take len p, take len2 p2, fin, p')
  end.

Fixpoint expand_loop (n : nat) (p : list Z) (out : list (list Z * list Z)) : cres (list (list Z * list Z)) :=
  match n with
  | O => Ok out
  | S n' =>
    '(name, value, fin, p') ← expand_one p;
    let out := out ++ [(name, value)] in
    if (fin : bool) then Ok out else expand_loop n' p' out
  end.

Definition expand_brackets_string (str : option (list Z)) : cres (list (list Z * list Z)) :=
  match str with
  | None => Ok []
  | Some str =>
    let s := str ++ [0] in
    match strchr_at s 91 with
    | None => Ok []
    | Some k => p ← skip_spaces (drop (S k) s); expand_loop MAX_SUBOPTIONS p []
    end
  end.

(** Up to the next comma or closing bracket. *)
Definition upto_comma (p : list Z) : cres (list Z) :=
  match strchr_at p 44 with
  | Some k => Ok (take k p)
  | None => match strchr_at p 93 with Some k => Ok (take k p) | None => Err 1 end
  end.

Definition get_brackets_string1 (str : list Z) : cres (option (list Z)) :=
  let s := str ++ [0] in
  match strchr_at s 91 with
  | None => Ok None
  | Some k => p ← skip_spaces (drop (S k) s); r ← upto_comma p; Ok (Some r)
  end.

Definition get_brackets_string2 (str : list Z) : cres (option (list Z)) :=
  let s := str ++ [0] in
  match strchr_at s 91 with
  | None => Ok None
  | Some k =>
    let p := drop (S k) s in
    match strchr_at p 44 with
    | None => Ok None
    | Some j => p ← skip_spaces (drop (S j) p); r ← upto_comma p; Ok (Some r)
    end
  end.

(** [c_strcasecmp(a, b) == 0] for texts without NUL. *)
Definition strcaseeq (a b : list Z) : bool := bool_decide (map c_tolower a = map c_tolower b).
Definition is_name (a : list Z) (s : string) : bool := strcaseeq a (to_bytes s).
Definition CHECK_TRUE (v : list Z) : bool := is_name v "true" || is_name v "yes".

(** [atoi(v)] as an [int]. *)
Definition atoi_text (v : list Z) : cres Z := '(n, _) ← strtol 10 (v ++ [0]); Ok (s32 n).

(** Options one after the other. *)
Fixpoint each {C} (f : C → list Z → list Z → cres C) (c : C) (l : list (list Z * list Z)) : cres C :=
  match l with
  | [] => Ok c
  | (n, v) :: l' => c ← f c n v; each f c l'
  end.

(** ** The methods *)

Record gssapi_cfg_st := { keytab : option (list Z); no_local_map : bool; ticket_freshness_secs : Z; gssapi_gid_min : Z }.
Record radius_cfg_st := { r_config : option (list Z); nas_identifier : option (list Z) }.
Record pam_cfg_st := { gid_min : Z }.

Definition gssapi_option (c : gssapi_cfg_st) (name value : list Z) : cres gssapi_cfg_st :=
  if is_name name "keytab" then Ok {| c with keytab := Some value |}
  else if is_name name "require-local-user-map" then Ok {| c with no_local_map := negb (CHECK_TRUE value) |}
  else if is_name name "tgt-freshness-time" then
    n ← atoi_text value;
    if n =? 0 then Err 1 else Ok {| c with ticket_freshness_secs := n |}
  else if is_name name "gid-min" then
    n ← atoi_text value;
    if n <? 0 then Err 1 else Ok {| c with gssapi_gid_min := n |}
  else Err 1.

Definition gssapi_get_brackets_string (str : option (list Z)) : cres gssapi_cfg_st :=
  vals ← expand_brackets_string str;
  each gssapi_option {| keytab := None; no_local_map := false; ticket_freshness_secs := 0; gssapi_gid_min := 0 |} vals.

(** The old format: a path after the bracket. *)
Definition legacy (str : option (list Z)) : option (list Z) :=
  match str with
  | Some ((91 :: c :: _) as s) => if (c =? 47) || (c =? 46) then Some s else None
  | _ => None
  end.

(** With the configuration of the method, whether the configuration of the
    users comes from RADIUS ([SUP_CONFIG_RADIUS]). *)
Definition radius_option (c : radius_cfg_st * bool) (name value : list Z) : cres (radius_cfg_st * bool) :=
  let '(a, sup) := c in
  if is_name name "config" then Ok ({| a with r_config := Some value |}, sup)
  else if is_name name "nas-identifier" then Ok ({| a with nas_identifier := Some value |}, sup)
  else if is_name name "groupconfig" then Ok (a, sup || CHECK_TRUE value)
  else Err 1.

Definition radius_get_brackets_string (sup : bool) (str : option (list Z)) : cres (radius_cfg_st * bool) :=
  c ← match legacy str with
      | Some s =>
        r ← get_brackets_string1 s;
        p ← get_brackets_string2 s;
        match p with
        | None => Ok ({| r_config := r; nas_identifier := None |}, sup)
        | Some p => if is_name p "groupconfig" then Ok ({| r_config := r; nas_identifier := None |}, true) else Err 1
        end
      | None =>
        vals ← expand_brackets_string str;
        each radius_option ({| r_config := None; nas_identifier := None |}, sup) vals
      end;
  match r_config c.1 with None => Err 1 | Some _ => Ok c end.

Definition pam_option (c : pam_cfg_st) (name value : list Z) : cres pam_cfg_st :=
  if is_name name "gid-min" then n ← atoi_text value; if n <? 0 then Err 1 else Ok {| gid_min := n |}
  else Err 1.

Definition pam_get_brackets_string (str : option (list Z)) : cres pam_cfg_st :=
  vals ← expand_brackets_string str; each pam_option {| gid_min := 0 |} vals.

Definition plain_option (c : plain_cfg_st) (name value : list Z) : cres plain_cfg_st :=
  if is_name name "passwd" then Ok {| c with passwd := Some (of_bytes value) |}
  else if is_name name "otp" then Ok {| c with otp_file := Some (of_bytes value) |}
  else Err 1.

Definition plain_get_brackets_string (str : option (list Z)) : cres plain_cfg_st :=
  c ← match legacy str with
      | Some s => r ← get_brackets_string1 s; Ok {| passwd := of_bytes <$> r; otp_file := None |}
      | None => vals ← expand_brackets_string str; each plain_option {| passwd := None; otp_file := None |} vals
      end;
  match passwd c, otp_file c with None, None => Err 1 | _, _ => Ok c end.

Example sub1 : plain_get_brackets_string (Some (to_bytes "[passwd=/etc/pw , otp = /etc/otp]")) =
  Ok {| passwd := Some "/etc/pw"%string; otp_file := Some "/etc/otp"%string |}.
Proof. reflexivity. Qed.
Example sub2 : plain_get_brackets_string (Some (to_bytes "[/etc/pw]")) =
  Ok {| passwd := Some "/etc/pw"%string; otp_file := None |}.
Proof. reflexivity. Qed.
Example sub3 : plain_get_brackets_string (Some (to_bytes "[passwd]")) = Err 1.
Proof. reflexivity. Qed.

(** ** Kerberos proxies (src/config-kkdcp.c, parse_kkdcp of src/config.c) *)

Definition MAX_KRB_REALMS : nat := 16.

(** [find_space]. *)
Fixpoint find_space (s : list Z) : option nat :=
  match s with
  | [] => None
  | c :: s' => if c_isspace c then Some O else S <$> find_space s'
  end.

Fixpoint skip_blanks (s : list Z) : list Z :=
  match s with [] => [] | c :: s' => if c_isspace c then skip_blanks s' else s end.

Record kkdcp_url := {
  k_udp : bool;
  k_port : list Z;
  k_server : list Z;
  k_path : list Z;
  k_realm : list Z }.

(** [parse_kkdcp_string] on a text without NUL: the parts it cuts out. *)
Definition parse_kkdcp_string (s : list Z) : cres kkdcp_url :=
  match find_space s with
  | None => Err 1
  | Some i =>
    let path := take i s in
    let realm := skip_blanks (drop (S i) s) in
    match find_space realm with
    | None => Err 1
    | Some j =>
      let server := skip_blanks (drop (S j) realm) in
      let realm := take j realm in
      let proto := take 4 server in
      if negb (bool_decide (proto = to_bytes "udp@")) && negb (bool_decide (proto = to_bytes "tcp@")) then Err 1 else
      let udp := bool_decide (proto = to_bytes "udp@") in
      let server := drop 4 server in
      match strchr_at server 93 with
      | None =>
        match strchr_at server 58 with
        | None => Err 1
        | Some k => Ok {| k_udp := udp; k_port := drop (S k) server; k_server := take k server; k_path := path; k_realm := realm |}
        end
      | Some p =>
        match strchr_at (drop p server) 58 with
        | None => Err 1
        | Some k =>
          let host := take p server in
          let host := match strchr_at host 91 with Some h => drop (S h) host | None => host end in
          Ok {| k_udp := udp; k_port := drop (S (p + k)) server; k_server := host; k_path := path; k_realm := realm |}
        end
      end
    end
  end.

(** A zeroed [kkdcp_st] has no URL. *)
Record kkdcp_st := { k_url : option (list Z); k_realms : list (list Z * list Z) }.
Definition no_kkdcp : kkdcp_st := {| k_url := None; k_realms := [] |}.

Section kkdcp.
(** [getaddrinfo]: the address of a server. *)
Context (getaddrinfo : kkdcp_url → option (list Z)).

(** The loop over the entries there are: [strcmp] with the NULL of a zeroed
    entry is undefined; the last match counts. *)
Fixpoint find_url (l : list kkdcp_st) (path : list Z) (j : nat) (found : option nat) : cres (option nat) :=
  match l with
  | [] => Ok found
  | e :: l' =>
    match k_url e with
    | None => UB
    | Some u => find_url l' path (S j) (if bool_decide (u = path) then Some j else found)
    end
  end.

(** The loop over the URLs: the array, and the number of entries. *)
Fixpoint kkdcp_loop (urls : list (list Z)) (i : nat) (a : list kkdcp_st) (size : nat) : cres (list kkdcp_st * nat) :=
  match urls with
  | [] => Ok (a, size)
  | s :: urls' =>
    u ← parse_kkdcp_string s;
    match getaddrinfo u with
    | None => Err 1
    | Some addr =>
      f ← find_url (take size a) (k_path u) 0 None;
      let '(j, a, size) := match f with
                           | Some j => (j, a, size)
                           | None => (i, <[i := {| k_url := Some (k_path u); k_realms := [] |}]> a, S size)
                           end in
      match a !! j with
      | None => UB
      | Some e =>
        if (MAX_KRB_REALMS <=? length (k_realms e))%nat then Err 1 else
        kkdcp_loop urls' (S i) (<[j := {| e with k_realms := k_realms e ++ [(k_realm u, addr)] |}]> a) size
      end
    end
  end.

(** [urlfw] is NULL, or the array it had when [n] was counted. *)
Definition parse_kkdcp (urlfw : option (list (list Z))) (n : nat) : cres (list kkdcp_st * nat) :=
  match urlfw with
  | None => UB
  | Some l => kkdcp_loop (take n l) 0 (replicate n no_kkdcp) 0
  end.
End kkdcp.
