(* ===== verification/ConfSubSpec.v ===== *)
(** * Options in brackets: safety and round trip *)

From S2P Require Import Prelude CString CText Html HtmlSpec PlainAuth ConfPorts ConfPortsSpec ConfSub.

(** ** Safety *)

(** A pointer to a character that is not white space. *)
Definition at_word (p : list Z) : Prop := nul_ahead p ∧ ∃ c q, p = c :: q ∧ c_isspace c = false.

Lemma skip_spaces_word p : nul_ahead p → ∃ q, skip_spaces p = Ok q ∧ at_word q.
Proof.
  induction p as [|c p IH]; intros Hp; [by apply elem_of_nil in Hp|]. simpl. destruct (c_isspace c) eqn:Ec.
  - apply IH. eapply nul_ahead_cons; [done|]. by apply c_isspace_nonzero.
  - eexists. split; [done|]. split; [done|]. by eexists _, _.
Qed.

Lemma skip_sep_word p : nul_ahead p → ∃ q, skip_sep p = Ok q ∧ at_word q.
Proof.
  induction p as [|c p IH]; intros Hp; [by apply elem_of_nil in Hp|]. simpl.
  destruct (c_isspace c) eqn:Ec; simpl; [|destruct (Z.eqb_spec c 44) as [->|]].
  - apply IH. eapply nul_ahead_cons; [done|]. by apply c_isspace_nonzero.
  - apply IH. by eapply nul_ahead_cons.
  - eexists. split; [done|]. split; [done|]. by eexists _, _.
Qed.

Lemma trim_len_word p len : at_word p → (0 < len ≤ length p)%nat →
  ∃ k, trim_len p len = Ok k ∧ (0 < k ≤ len)%nat.
Proof.
  intros Hp. induction len as [|len IH]; intros Hl; [lia|]. simpl.
  destruct (aread_lt p (Z.of_nat len)) as (c & -> & Hc); [lia|]. run.
  destruct (c_isspace c) eqn:Ec; [|exists (S len); split; [done|lia]].
  destruct len as [|len]. { destruct Hp as (_ & d & q & -> & Hd). simpl in Hc. simplify_eq. congruence. }
  destruct IH as (k & -> & Hk); [lia|]. exists k. split; [done|lia].
Qed.

Lemma strchr_at_before p c k j : nul_ahead p → strchr_at p c = Some k → (j ≤ k)%nat →
  nul_ahead (drop j p) ∧ (k < length p)%nat.
Proof.
  revert k j. induction p as [|x p IH]; intros k j Hp Hk Hj; [done|]. simpl in Hk.
  destruct (Z.eqb_spec x 0); [done|]. destruct (x =? c).
  - injection Hk as <-. assert (j = 0)%nat as -> by lia. split; [done|simpl; lia].
  - destruct (strchr_at p c) as [k'|] eqn:E; [|done]. injection Hk as <-. pose proof (nul_ahead_cons _ _ Hp n) as Hp'.
    destruct j as [|j]; [split; [done|]|].
    + destruct (IH k' O Hp' eq_refl) as [_ ?]; [lia|]. simpl. lia.
    + destruct (IH k' j Hp' eq_refl) as [? ?]; [lia|]. split; [done|]. simpl. lia.
Qed.

Lemma expand_one_safe p : at_word p →
  cwp (expand_one p) (λ r, at_word r.2) (λ c, c = 1).
Proof.
  intros Hp. unfold expand_one. destruct (strchr_at p 61) as [len|] eqn:El; [|done].
  destruct (strchr_at_nul p 61 len) as [Hd Hl]; [apply Hp|done|done|].
  destruct (skip_spaces_word _ Hd) as (p2 & -> & Hp2). run.
  assert (cwp match strchr_at p2 44 with
              | Some k => Ok (k, false)
              | None => match strchr_at p2 93 with Some k => Ok (k, true) | None => Err 1 end end
    (λ kf, (kf.1 < length p2)%nat ∧ ∀ j, (j ≤ kf.1)%nat → nul_ahead (drop j p2)) (λ c, c = 1)) as H2.
  { assert (∀ k c, strchr_at p2 c = Some k → (k < length p2)%nat ∧ ∀ j, (j ≤ k)%nat → nul_ahead (drop j p2)) as H.
    { intros k c Hk. split; [by destruct (strchr_at_before p2 c k O (proj1 Hp2) Hk ltac:(lia))|].
      intros j Hj. by destruct (strchr_at_before p2 c k j (proj1 Hp2) Hk Hj). }
    destruct (strchr_at p2 44) as [k|] eqn:E1; [by eapply H|]. destruct (strchr_at p2 93) as [k|] eqn:E2; [by eapply H|done]. }
  apply cwp_bind. eapply cwp_mono; [exact H2| |done]. intros [len2 fin] [Hl2 Hn2]. simpl in Hl2, Hn2.
  assert (∀ q n, at_word q → (n ≤ length q)%nat →
    ∃ k, (if (0 <? n)%nat then trim_len q n else Ok n) = Ok k ∧ (k ≤ n)%nat) as Ht.
  { intros q n Hq Hn. destruct (Nat.ltb_spec 0 n); [|by exists n].
    destruct (trim_len_word q n Hq ltac:(lia)) as (k & -> & ?). exists k. split; [done|lia]. }
  destruct (Ht p len Hp ltac:(lia)) as (k & -> & Hk). run.
  destruct (Ht p2 len2 Hp2 ltac:(lia)) as (k2 & -> & Hk2). run.
  destruct (skip_sep_word (drop k2 p2)) as (q & -> & Hq); [by apply Hn2|]. done.
Qed.

(** Reading the options in brackets never leaves the text, whatever it
    is: they are read, or the program exits. *)
Theorem expand_brackets_safe str :
  cwp (expand_brackets_string str) (λ l, (length l ≤ MAX_SUBOPTIONS)%nat) (λ c, c = 1).
Proof.
  unfold expand_brackets_string. destruct str as [str|]; [|simpl; lia]. cbv zeta.
  destruct (strchr_at (str ++ [0]) 91) as [k|] eqn:Ek; [|simpl; lia].
  destruct (strchr_at_nul _ _ _ (nul_ahead_snoc str) Ek) as [Hd _]; [done|].
  destruct (skip_spaces_word _ Hd) as (p & -> & Hp). run.
  assert (∀ n p out, at_word p → cwp (expand_loop n p out) (λ l, (length l ≤ length out + n)%nat) (λ c, c = 1)) as H.
  { intros n. induction n as [|n IH]; intros q out Hq; simpl; [lia|]. apply cwp_bind.
    eapply cwp_mono; [by apply expand_one_safe| |done]. intros [[[nm v] fin] q'] Hq'. simpl in Hq'.
    destruct fin; [simpl; rewrite length_app; simpl; lia|].
    eapply cwp_mono; [by apply IH| |done]. intros l Hl. rewrite length_app in Hl. simpl in Hl. lia. }
  by apply (H MAX_SUBOPTIONS p []).
Qed.

(** ** Round trip *)

(** A name or value that is read as it is written. *)
Definition word_char (c : Z) : Prop := c ≠ 0 ∧ c ≠ 61 ∧ c ≠ 44 ∧ c ≠ 93 ∧ c ≠ 91 ∧ c_isspace c = false.
Definition word (l : list Z) : Prop := l ≠ [] ∧ Forall word_char l.

Definition print_option (o : list Z * list Z) : list Z := o.1 ++ 61 :: o.2.
Fixpoint print_options (l : list (list Z * list Z)) : list Z :=
  match l with
  | [] => []
  | [o] => print_option o
  | o :: l' => print_option o ++ 44 :: print_options l'
  end.
Definition print_brackets (l : list (list Z * list Z)) : list Z := 91 :: print_options l ++ [93].

Lemma skip_spaces_at l rest : word l → skip_spaces (l ++ rest) = Ok (l ++ rest) ∧ skip_sep (l ++ rest) = Ok (l ++ rest).
Proof.
  intros [Hne Hl]. destruct l as [|c l]; [done|]. apply Forall_cons in Hl as [(_ & _ & H44 & _ & _ & Hs) _].
  simpl. rewrite Hs. destruct (Z.eqb_spec c 44); done.
Qed.

Lemma trim_len_at l rest : word l → trim_len (l ++ rest) (length l) = Ok (length l).
Proof.
  intros [Hne Hl]. destruct (exists_last (l:=l)) as (l' & c & ->); [done|].
  apply Forall_app in Hl as [_ Hl]. apply Forall_cons in Hl as [(_ & _ & _ & _ & _ & Hs) _].
  rewrite length_app, Nat.add_1_r. simpl.
  rewrite (aread_Ok _ _ c); [run; by rewrite Hs|lia|].
  rewrite Nat2Z.id, <- (assoc_L (++)), lookup_app_r by lia. by rewrite Nat.sub_diag.
Qed.

Lemma word_no l c : word l → (c = 61 ∨ c = 44 ∨ c = 93 ∨ c = 91) → Forall (λ x, x ≠ 0 ∧ x ≠ c) l.
Proof. intros [_ Hl] Hc. eapply Forall_impl; [exact Hl|]. intros x (? & ? & ? & ? & ? & _). lia. Qed.

(** One option, before a comma or the closing bracket. *)
Lemma expand_one_at n v (fin : bool) rest : word n → word v →
  (fin = true → Forall (λ x, x ≠ 0 ∧ x ≠ 44) rest) →
  expand_one (n ++ 61 :: v ++ (if fin then 93 else 44) :: rest ++ [0]) =
    (p' ← skip_sep ((if fin then 93 else 44) :: rest ++ [0]); Ok (n, v, fin, p')).
Proof.
  intros Hn Hv Hr. unfold expand_one. set (t := (if fin then 93 else 44) :: rest ++ [0]).
  rewrite strchr_group by (apply word_no; auto). simpl strchr_at. cbn [fmap option_fmap option_map]. rewrite Nat.add_0_r.
  rewrite drop_app_ge by lia. replace (S (length n) - length n)%nat with 1%nat by lia. cbn [drop].
  rewrite drop_0. rewrite (proj1 (skip_spaces_at v t Hv)). run.
  assert (strchr_at (v ++ t) 44 = if fin then None else Some (length v)) as ->.
  { rewrite strchr_group by (apply word_no; auto). unfold t. destruct fin; simpl; [|by rewrite Nat.add_0_r].
    rewrite strchr_group by by apply Hr. done. }
  assert (fin = true → strchr_at (v ++ t) 93 = Some (length v)) as H93.
  { intros ->. rewrite strchr_group by (apply word_no; auto). unfold t. simpl. by rewrite Nat.add_0_r. }
  assert ((0 <? length n)%nat = true ∧ (0 <? length v)%nat = true) as [El Ev].
  { split; apply Nat.ltb_lt; [destruct Hn as [? _]; destruct n|destruct Hv as [? _]; destruct v]; simpl; done || lia. }
  destruct fin; [rewrite H93 by done|]; run; rewrite El, Ev, !trim_len_at by done; run;
    rewrite drop_app_length, !take_app_length; done.
Qed.

Lemma expand_loop_at n o l out : Forall (λ o, word o.1 ∧ word o.2) (o :: l) → (length l < n)%nat →
  expand_loop n (print_options (o :: l) ++ [93; 0]) out = Ok (out ++ o :: l).
Proof.
  revert n o out. induction l as [|o2 l IH]; intros [|n] [nm v] out Hl Hn; try (simpl in Hn; lia);
    pose proof Hl as [[Hnm Hv] Hl']%Forall_cons; simpl in Hnm, Hv.
  - assert (print_options [(nm, v)] ++ [93; 0] = nm ++ 61 :: v ++ 93 :: [] ++ [0]) as ->
      by (cbn [print_options]; unfold print_option; by rewrite <- (assoc_L (++))).
    cbn [expand_loop]. pose proof (expand_one_at nm v true [] Hnm Hv) as E. cbv iota in E. rewrite E by (intros _; by apply Forall_nil). done.
  - change (print_options ((nm, v) :: o2 :: l)) with ((nm ++ 61 :: v) ++ 44 :: print_options (o2 :: l)).
    set (q := print_options (o2 :: l)) in *. cbn [expand_loop].
    replace (((nm ++ 61 :: v) ++ 44 :: q) ++ [93; 0]) with (nm ++ 61 :: v ++ 44 :: (q ++ [93]) ++ [0])
      by by rewrite <- !(assoc_L (++)).
    pose proof (expand_one_at nm v false (q ++ [93]) Hnm Hv) as E. cbv iota in E. rewrite E by done.
    assert (skip_sep (44 :: (q ++ [93]) ++ [0]) = Ok (q ++ [93; 0])) as ->.
    { change (skip_sep (44 :: (q ++ [93]) ++ [0])) with (skip_sep ((q ++ [93]) ++ [0])). rewrite <- (assoc_L (++)).
      unfold q. apply Forall_cons in Hl' as [[Hw _] _]. destruct o2 as [n2 v2]. simpl in Hw.
      assert (∃ r, print_options ((n2, v2) :: l) = n2 ++ r) as [r ->].
      { destruct l; cbn [print_options]; unfold print_option; cbn [fst snd]; [by eexists|].
        rewrite <- (assoc_L (++)). by eexists. }
      rewrite <- !(assoc_L (++)). by apply skip_spaces_at. }
    run. unfold q. rewrite IH; [|done|simpl in Hn; lia]. by rewrite <- (assoc_L (++)).
Qed.

(** Options that are written in brackets are read back. *)
Theorem brackets_roundtrip pre l : Forall (λ x, x ≠ 0 ∧ x ≠ 91) pre → l ≠ [] → (length l ≤ MAX_SUBOPTIONS)%nat →
  Forall (λ o, word o.1 ∧ word o.2) l → expand_brackets_string (Some (pre ++ print_brackets l)) = Ok l.
Proof.
  intros Hpre Hne Hn Hl. destruct l as [|o l]; [done|]. unfold expand_brackets_string, print_brackets. cbv zeta.
  set (q := print_options (o :: l)).
  replace ((pre ++ 91 :: q ++ [93]) ++ [0]) with (pre ++ 91 :: q ++ [93; 0]) by by rewrite <- !(assoc_L (++)); simpl; rewrite <- (assoc_L (++)).
  rewrite strchr_group by done. simpl strchr_at.
  cbn [fmap option_fmap option_map]. rewrite Nat.add_0_r, drop_app_ge by lia.
  replace (S (length pre) - length pre)%nat with 1%nat by lia. cbn [drop]. rewrite drop_0.
  assert (skip_spaces (q ++ [93; 0]) = Ok (q ++ [93; 0])) as ->.
  { pose proof Hl as [[Hw _] _]%Forall_cons. destruct o as [n v]. simpl in Hw.
    unfold q. assert (∃ r, print_options ((n, v) :: l) = n ++ r) as [r ->].
    { destruct l; cbn [print_options]; unfold print_option; cbn [fst snd]; [by eexists|].
      rewrite <- (assoc_L (++)). by eexists. }
    rewrite <- !(assoc_L (++)). by apply skip_spaces_at. }
  run. by apply (expand_loop_at MAX_SUBOPTIONS o l []).
Qed.
