(* ===== verification/ConfValue.v ===== *)
(** * Values of the configuration (src/config.c)

    The helpers every option uses: cleaning a value, numbers, texts and
    lists. *)

From S2P Require Import Prelude CString CText Html Ini.

Definition DEFAULT_CONFIG_ENTRIES : nat := 96.

(** ** sanitize_config_value *)

Definition blank (c : Z) : bool := c_isspace c || (c =? 34).

(** [while (blank(value[len-1])) len--] with [k] the position of
    [value + len] in the buffer. *)
Fixpoint blank_back (b : list Z) (k : nat) : cres nat :=
  match k with
  | O => UB
  | S k' => c ← aread b (Z.of_nat k'); if blank c then blank_back b k' else Ok k
  end.

(** [while (blank(value[i])) i++]. *)
Fixpoint blank_front (p : list Z) : cres nat :=
  match p with
  | [] => UB
  | c :: p' => if blank c then n ← blank_front p'; Ok (S n) else Ok O
  end.

(** [None] is NULL. *)
Definition sanitize_config_value (b : list Z) (v : nat) : cres (option (list Z)) :=
  n ← strlen (drop v b);
  k ← blank_back b (v + n);
  i ← blank_front (drop v b);
  let len := Z.of_nat k - Z.of_nat v - Z.of_nat i in
  Ok (if len <? 0 then None else Some (take (Z.to_nat len) (cstr (drop (v + i) b)))).

(** ** Reading a value, a text without NUL *)

(** [PREAD_STRING]: for an empty value [value[len-1]] is 4 GB behind it. *)
Definition READ_STRING (value : list Z) : cres (list Z) :=
  len ← trim_len value (length value); Ok (take len value).

Definition is_value (a : list Z) (s : string) : bool := bool_decide (map c_tolower a = map c_tolower (to_bytes s)).
Definition READ_TF (value : list Z) : Z := if is_value value "true" || is_value value "yes" then 1 else 0.

Inductive width := U32 | S32 | S64 | U64.
Definition to_width (w : width) (v : Z) : Z :=
  match w with U32 => u32 v | S32 => s32 v | S64 => v | U64 => u64 v end.
Definition READ_NUMERIC (w : width) (value : list Z) : cres Z :=
  '(v, _) ← strtol 10 (value ++ [0]); Ok (to_width w v).

Definition TOS_PACK (x : Z) : Z := u32 (Z.shiftl x 4).
Definition READ_PRIO_TOS (value : list Z) : cres Z :=
  m ← matches (to_bytes "0x") (value ++ [0]);
  if (m : bool) then '(v, _) ← strtol 16 (value ++ [0]); Ok (TOS_PACK (u32 v))
  else '(v, _) ← strtol 10 (value ++ [0]); Ok (u32 (u32 v + 1)).

(** ** Arrays of pointers

    An array with room for [cap] pointers, the last one used a NULL. *)
Record vec (A : Type) := { cap : nat; vals : list A }.
Arguments cap {_} _.
Arguments vals {_} _.
Definition new_vec {A} : vec A := {| cap := DEFAULT_CONFIG_ENTRIES; vals := [] |}.

(** Writing the pointers [n] and [n + 1]. *)
Definition push {A} (a : vec A) (v : A) : cres (vec A) :=
  let n := length (vals a) in
  if (S n <? cap a)%nat then Ok {| cap := cap a; vals := vals a ++ [v] |} else UB.

(** [_add_multi_line_val]; the allocations succeed. *)
Definition _add_multi_line_val {A} (o : option (vec A)) (v : A) : cres (vec A) :=
  let a := default new_vec o in
  let n := length (vals a) in
  let a := if (DEFAULT_CONFIG_ENTRIES - 1 <=? n)%nat then {| cap := n + 2; vals := vals a |} else a in
  push a v.

(** [READ_MULTI_BRACKET_LINE] for one of the two arrays: no reallocation. *)
Definition add_bracket_val {A} (o : option (vec A)) (v : A) : cres (vec A) :=
  let a := default new_vec o in
  if (length (vals a) <? DEFAULT_CONFIG_ENTRIES)%nat then push a v else Ok a.

(** [extract_prefix]: the prefix and what is left of the text. *)
Definition extract_prefix (network : list Z) : cres (Z * list Z) :=
  match strchr_at (network ++ [0]) 47 with
  | None => Ok (0, network)
  | Some k => '(v, _) ← strtol 10 (drop (S k) (network ++ [0])); Ok (u32 v, take k network)
  end.

(** [valid_ipv6_prefix] (src/ip-util.h). *)
Definition valid_ipv6_prefix (prefix : Z) : bool := (10 <? prefix) && (prefix <=? 128).

(** The name of a virtual host, without the white space around it. *)
Definition sanitize_name (idna_map : list Z → list Z) (name : list Z) : cres (list Z) :=
  p ← skip_spaces (name ++ [0]);
  len ← strlen p;
  len ← (if (0 <? len)%nat then trim_len p len else Ok len);
  Ok (idna_map (take len p)).

Example sanitize1 : sanitize_config_value (0 :: [32; 34] ++ to_bytes "a b" ++ [34; 0]) 1 = Ok (Some (to_bytes "a b")).
Proof. reflexivity. Qed.
(** An indented line of quotes only is looked at beyond its start. *)
Example sanitize_under : sanitize_config_value [32; 34; 0] 1 = UB.
Proof. reflexivity. Qed.
