(* ===== verification/Config.v ===== *)
(** * The configuration of the server (src/config.c)

    [cfg_st] and [perm_cfg_st] hold some ninety fields that are filled from
    the options of the file; a structure is a map from the names of its
    fields to their values, where a field that is missing is zero or NULL.
    The options are tables with the macro each one uses.  [exit(1)] is
    [Err 1]; messages are left out, and allocations succeed. *)

From stdpp Require Import gmap strings.
From S2P Require Import Prelude CString CText Html Ini IpUtil PlainAuth HttpReq ConfPorts ConfSub ConfValue.

Record fields := { nums : gmap string Z; strs : gmap string (list Z); lists : gmap string (vec (list Z)) }.
Definition no_fields : fields := {| nums := ∅; strs := ∅; lists := ∅ |}.

Definition num (f : string) (c : fields) : Z := default 0 (nums c !! f).
Definition str (f : string) (c : fields) : option (list Z) := strs c !! f.
Definition texts (f : string) (c : fields) : list (list Z) := from_option vals [] (lists c !! f).
Definition set_num (f : string) (v : Z) (c : fields) : fields := {| c with nums := <[f := v]> (nums c) |}.
Definition set_str (f : string) (v : list Z) (c : fields) : fields := {| c with strs := <[f := v]> (strs c) |}.
Definition set_list (f : string) (v : vec (list Z)) (c : fields) : fields := {| c with lists := <[f := v]> (lists c) |}.

(** The member of another structure. *)
Definition copy_num (f : string) (d c : fields) : fields := set_num f (num f d) c.
Definition copy_str (f : string) (d c : fields) : fields :=
  {| c with strs := match str f d with Some v => <[f := v]> (strs c) | None => delete f (strs c) end |}.

Definition copy_num_as (f g : string) (c : fields) : fields := set_num f (num g c) c.

(** ** Virtual hosts *)

Inductive auth_mod := MOD_pam | MOD_gssapi | MOD_radius | MOD_plain.
#[export] Instance auth_mod_eq_dec : EqDecision auth_mod.
Proof. solve_decision. Defined.

(** What the brackets of a method give. *)
Inductive additional :=
| ADD_pam (c : pam_cfg_st) | ADD_gssapi (c : gssapi_cfg_st)
| ADD_radius (c : radius_cfg_st) | ADD_plain (c : plain_cfg_st).

Record auth_st := {
  a_name : option (list Z);
  a_additional : option additional;
  a_type : Z;
  a_amod : option auth_mod;
  a_enabled : bool }.
Definition no_auth : auth_st :=
  {| a_name := None; a_additional := None; a_type := 0; a_amod := None; a_enabled := false |}.

Record vhost := {
  v_name : option (list Z);
  perm : fields;
  config : fields;
  friendly_group_list : option (vec (option (list Z)));
  fw_ports : list FwPortSt;
  kkdcp : list kkdcp_st;
  auth_init : bool;
  auths : list auth_st;             (* auth[0 .. auth_methods - 1] *)
  acct : option (list Z * option radius_cfg_st);
  sup_config_radius : bool;         (* SUP_CONFIG_RADIUS instead of SUP_CONFIG_FILE *)
  tmp : fields;                     (* auth, eauth, acct, urlfw, ... while loading *)
  urlfw_size : nat }.

(** [apply_default_conf] for a new [cfg_st]; the second value of dpd counts. *)
Definition default_config : fields :=
  {| nums := list_to_map
       [("mobile_idle_timeout", 2 ^ 32 - 1); ("no_compress_limit", 256); ("rekey_time", 24 * 60 * 60);
        ("cookie_timeout", 120); ("auth_timeout", 1800); ("ban_reset_time", 300); ("max_ban_score", 3 * 10);
        ("ban_points_wrong_password", 10); ("ban_points_connect", 1); ("ban_points_kkdcp", 1);
        ("network.ipv6_subnet_prefix", 128); ("dtls_legacy", 1); ("dtls_psk", 1); ("predictable_ips", 1);
        ("use_utmp", 1); ("keepalive", 3600); ("dpd", 60)]%string;
     strs := ∅; lists := ∅ |}.

(** [vhost_add]; tls_vhost_init is called unless [reload]. *)
Definition vhost_add (name : option (list Z)) (reload : bool) : vhost :=
  {| v_name := name;
     perm := if reload then no_fields else set_num "stats_reset_time" (24 * 60 * 60 * 7) no_fields;
     config := default_config; friendly_group_list := None; fw_ports := []; kkdcp := []; auth_init := false; auths := []; acct := None;
     sup_config_radius := false; tmp := no_fields; urlfw_size := 0 |}.

(** The state of the loader: the list of virtual hosts, whose last one is the
    default, the compression methods, and the name of the pid file. *)
Record loader := {
  vhosts : list vhost;
  comp_methods : list compression_method_st;
  pid_file : list Z }.

(** ** The options *)

Inductive action :=
| TF (f : string)
| NUM (f : string) (w : width)
| STR (f : string)
| MULTI (f : string)
| STATIC (f : string) (size : nat)
| PRIO (f : string)
| RATE (f : string)                  (* a number, in kb *)
| UID (f : string) | GID (f : string)
| RAW (f : string)                   (* talloc_strdup *)
| PORTS | REKEY_METHOD | IPV4_NETWORK | IPV6_NETWORK | IPV6_PREFIX | IPV6_SUBNET_PREFIX | SELECT_GROUP
| REQUIRE_CERT | USE_DBUS | COMP_PRIORITY | PID_FILE | DEPRECATED.

(** Where a field is. *)
Inductive place := PERM | CONF | TMP.

(** An option: its name, whether a named virtual host takes the value of the
    default one instead, where its field is, and how it is read. *)
Record option_st := { o_name : string; o_global : bool; o_place : place; o_action : action }.
Definition opt n p a : option_st := {| o_name := n; o_global := false; o_place := p; o_action := a |}.
Definition gopt n p a : option_st := {| o_name := n; o_global := true; o_place := p; o_action := a |}.

(** The options that are read once. *)
Definition perm_options : list option_st := [
  opt "auth" TMP (MULTI "auth");
  opt "enable-auth" TMP (MULTI "eauth");
  opt "acct" TMP (RAW "acct");
  opt "listen-host" PERM (STR "listen_host");
  opt "udp-listen-host" PERM (STR "udp_listen_host");
  gopt "listen-clear-file" PERM (STR "unix_conn_file");
  gopt "tcp-port" PERM (NUM "port" U32);
  gopt "udp-port" PERM (NUM "udp_port" U32);
  gopt "run-as-user" PERM (UID "uid");
  gopt "run-as-group" PERM (GID "gid");
  opt "server-cert" PERM (MULTI "cert");
  opt "server-key" PERM (MULTI "key");
  opt "dh-params" PERM (STR "dh_params_file");
  opt "pin-file" PERM (STR "pin_file");
  opt "srk-pin-file" PERM (STR "srk_pin_file");
  opt "ca-cert" PERM (STR "ca");
  opt "key-pin" PERM (STR "key_pin");
  opt "srk-pin" PERM (STR "srk_pin");
  gopt "socket-file" PERM (STR "socket_file_prefix");
  gopt "occtl-socket-file" PERM (STR "occtl_socket_file");
  gopt "chroot-dir" PERM (STR "chroot_dir");
  gopt "server-stats-reset-time" PERM (NUM "stats_reset_time" U32);
  opt "pid-file" PERM PID_FILE ]%string.

(** The options that are read again on a reload. *)
Definition conf_options1 : list option_st := [
  opt "listen-host-is-dyndns" CONF (TF "is_dyndns");
  gopt "listen-proxy-proto" CONF (TF "listen_proxy_proto");
  opt "append-routes" CONF (TF "append_routes");
  opt "kkdcp" TMP (MULTI "urlfw");
  opt "tunnel-all-dns" CONF (TF "tunnel_all_dns");
  opt "keepalive" CONF (NUM "keepalive" U32);
  opt "switch-to-tcp-timeout" CONF (NUM "switch_to_tcp_timeout" U32);
  opt "dpd" CONF (NUM "dpd" U32);
  opt "mobile-dpd" CONF (NUM "mobile_dpd" U32);
  gopt "rate-limit-ms" CONF (NUM "rate_limit_ms" U32);
  opt "ocsp-response" CONF (STR "ocsp_response");
  opt "user-profile" CONF (STR "xml_config_file");
  opt "default-domain" CONF (STR "default_domain");
  opt "crl" CONF (STR "crl");
  opt "cert-user-oid" CONF (STR "cert_user_oid");
  opt "cert-group-oid" CONF (STR "cert_group_oid");
  gopt "connect-script" CONF (STR "connect_script");
  gopt "host-update-script" CONF (STR "host_update_script");
  gopt "disconnect-script" CONF (STR "disconnect_script");
  opt "session-control" CONF DEPRECATED;
  opt "banner" CONF (STR "banner");
  opt "dtls-legacy" CONF (TF "dtls_legacy");
  opt "cisco-client-compat" CONF (TF "cisco_client_compat");
  opt "always-require-cert" CONF REQUIRE_CERT;
  gopt "dtls-psk" CONF (TF "dtls_psk");
  opt "match-tls-dtls-ciphers" CONF (TF "match_dtls_and_tls");
  opt "compression" CONF (TF "enable_compression");
  gopt "compression-algo-priority" CONF COMP_PRIORITY;
  opt "no-compress-limit" CONF (NUM "no_compress_limit" U32);
  opt "use-seccomp" CONF (TF "isolate");
  gopt "isolate-workers" CONF (TF "isolate");
  opt "predictable-ips" CONF (TF "predictable_ips");
  gopt "use-utmp" CONF (TF "use_utmp");
  opt "use-dbus" CONF USE_DBUS;
  gopt "use-occtl" CONF (TF "use_occtl");
  gopt "try-mtu-discovery" CONF (TF "try_mtu");
  gopt "ping-leases" CONF (TF "ping_leases");
  opt "restrict-user-to-routes" CONF (TF "restrict_user_to_routes");
  opt "restrict-user-to-ports" CONF PORTS;
  opt "tls-priorities" CONF (STR "priorities");
  opt "mtu" CONF (NUM "default_mtu" U32);
  opt "net-priority" CONF (PRIO "net_priority");
  opt "output-buffer" CONF (NUM "output_buffer" U32);
  opt "rx-data-per-sec" CONF (RATE "rx_per_sec");
  opt "tx-data-per-sec" CONF (RATE "tx_per_sec");
  opt "deny-roaming" CONF (TF "deny_roaming");
  opt "stats-report-time" CONF (NUM "stats_report_time" U32);
  opt "rekey-time" CONF (NUM "rekey_time" S64);
  opt "rekey-method" CONF REKEY_METHOD ]%string.

Definition conf_options2 : list option_st := [
  opt "cookie-timeout" CONF (NUM "cookie_timeout" S64);
  opt "persistent-cookies" CONF (TF "persistent_cookies");
  opt "session-timeout" CONF (NUM "session_timeout" S64);
  gopt "auth-timeout" CONF (NUM "auth_timeout" U32);
  opt "idle-timeout" CONF (NUM "idle_timeout" U32);
  opt "mobile-idle-timeout" CONF (NUM "mobile_idle_timeout" U32);
  gopt "max-clients" CONF (NUM "max_clients" U32);
  gopt "min-reauth-time" CONF (NUM "min_reauth_time" S64);
  gopt "ban-reset-time" CONF (NUM "ban_reset_time" S32);
  gopt "max-ban-score" CONF (NUM "max_ban_score" S32);
  gopt "ban-points-wrong-password" CONF (NUM "ban_points_wrong_password" U32);
  gopt "ban-points-connection" CONF (NUM "ban_points_connect" U32);
  gopt "ban-points-kkdcp" CONF (NUM "ban_points_kkdcp" U32);
  opt "max-same-clients" CONF (NUM "max_same_clients" U32);
  gopt "device" CONF (STATIC "network.name" 16);
  opt "cgroup" CONF (STR "cgroup");
  opt "proxy-url" CONF (STR "proxy_url");
  opt "ipv4-network" CONF IPV4_NETWORK;
  opt "ipv4-netmask" CONF (STR "network.ipv4_netmask");
  opt "ipv6-network" CONF IPV6_NETWORK;
  opt "ipv6-prefix" CONF IPV6_PREFIX;
  opt "ipv6-subnet-prefix" CONF IPV6_SUBNET_PREFIX;
  opt "custom-header" CONF (MULTI "custom_header");
  opt "split-dns" CONF (MULTI "split_dns");
  opt "route" CONF (MULTI "network.routes");
  opt "no-route" CONF (MULTI "network.no_routes");
  opt "default-select-group" CONF (STR "default_select_group");
  opt "auto-select-group" TMP (TF "auto_select_group");
  opt "select-group" CONF SELECT_GROUP;
  opt "dns" CONF (MULTI "network.dns");
  opt "ipv4-dns" CONF (MULTI "network.dns");
  opt "ipv6-dns" CONF (MULTI "network.dns");
  opt "nbns" CONF (MULTI "network.nbns");
  opt "ipv4-nbns" CONF (MULTI "network.nbns");
  opt "ipv6-nbns" CONF (MULTI "network.nbns");
  gopt "route-add-cmd" CONF (STR "route_add_cmd");
  gopt "route-del-cmd" CONF (STR "route_del_cmd");
  opt "config-per-user" CONF (STR "per_user_dir");
  opt "config-per-group" CONF (STR "per_group_dir");
  opt "expose-iroutes" TMP (TF "expose_iroutes");
  opt "default-user-config" CONF (STR "default_user_conf");
  opt "default-group-config" CONF (STR "default_group_conf") ]%string.

Definition conf_options : list option_st := conf_options1 ++ conf_options2.

Definition find_option (l : list option_st) (name : list Z) : option option_st :=
  List.find (λ o, bool_decide (name = to_bytes (o_name o))) l.

Section handler.
(** [getpwnam], [getgrnam], and [gnutls_idna_map] with its fallback. *)
Context (getpwnam getgrnam : list Z → option Z) (idna_map : list Z → list Z).

Definition get_place (p : place) (v : vhost) : fields :=
  match p with PERM => perm v | CONF => config v | TMP => tmp v end.
Definition set_place (p : place) (c : fields) (v : vhost) : vhost :=
  match p with
  | PERM => {| v with perm := c |} | CONF => {| v with config := c |} | TMP => {| v with tmp := c |}
  end.

(** The member of the default virtual host. *)
Definition copy_member (a : action) (d c : fields) : fields :=
  match a with
  | TF f | NUM f _ | UID f | GID f => copy_num f d c
  | STR f | STATIC f _ => copy_str f d c
  | _ => c
  end.

(** The actions on one structure. *)
Definition read_field (a : action) (value : list Z) (c : fields) : cres fields :=
  match a with
  | TF f => Ok (set_num f (READ_TF value) c)
  | NUM f w => n ← READ_NUMERIC w value; Ok (set_num f n c)
  | STR f => s ← READ_STRING value; Ok (set_str f s c)
  | MULTI f => l ← _add_multi_line_val (lists c !! f) value; Ok (set_list f l c)
  | STATIC f size => Ok (set_str f (take (size - 1) value) c)
  | PRIO f => n ← READ_PRIO_TOS value; Ok (set_num f n c)
  | RATE f => n ← READ_NUMERIC U64 value; Ok (set_num f (n / 1000) c)
  | UID f => match getpwnam value with Some u => Ok (set_num f u c) | None => Err 1 end
  | GID f => match getgrnam value with Some g => Ok (set_num f g c) | None => Err 1 end
  | RAW f => Ok (set_str f value c)
  | REKEY_METHOD =>
    if bool_decide (value = to_bytes "ssl") then Ok (set_num "rekey_method" 1 c)
    else if bool_decide (value = to_bytes "new-tunnel") then Ok (set_num "rekey_method" 2 c)
    else Err 1
  | IPV4_NETWORK =>
    s ← READ_STRING value;
    '(prefix4, s) ← extract_prefix s;
    let c := set_str "network.ipv4" s c in
    if prefix4 =? 0 then Ok c else
    Ok match ipv4_prefix_to_strmask prefix4 with
       | Some m => set_str "network.ipv4_netmask" (to_bytes m) c
       | None => {| c with strs := delete "network.ipv4_netmask"%string (strs c) |}
       end
  | IPV6_NETWORK =>
    s ← READ_STRING value;
    '(prefix, s) ← extract_prefix s;
    let c := set_str "network.ipv6" s c in
    Ok (if prefix =? 0 then c else set_num "network.ipv6_prefix" prefix c)
  | IPV6_PREFIX =>
    n ← READ_NUMERIC U32 value;
    if valid_ipv6_prefix n then Ok (set_num "network.ipv6_prefix" n c) else Err 1
  | IPV6_SUBNET_PREFIX =>
    n ← READ_NUMERIC U32 value;
    if 0 <? n then
      if valid_ipv6_prefix n then Ok (set_num "network.ipv6_subnet_prefix" n c) else Err 1
    else Ok c
  | REQUIRE_CERT => Ok (if READ_TF value =? 0 then set_num "cisco_client_compat" 1 c else c)
  | USE_DBUS => Ok (if READ_TF value =? 0 then c else set_num "use_occtl" 1 c)
  | PORTS | SELECT_GROUP | COMP_PRIORITY | PID_FILE | DEPRECATED => Ok c
  end.

(** [select-group]: the name without its brackets, and what is in them. *)
Definition select_group (value : list Z) (v : vhost) : cres vhost :=
  let name := match strchr_at (value ++ [0]) 91 with Some k => take k value | None => value end in
  friendly ← get_brackets_string1 value;
  l ← add_bracket_val (lists (config v) !! "group_list"%string) name;
  fl ← add_bracket_val (friendly_group_list v) friendly;
  Ok {| v with config := set_list "group_list" l (config v); friendly_group_list := Some fl |}.

(** An option of the virtual host [v], whose default is [d]. *)
Definition apply_option (st : loader) (d v : vhost) (o : option_st) (value : list Z) : cres (loader * vhost) :=
  if o_global o && bool_decide (is_Some (v_name v)) then
    Ok (st, set_place (o_place o) (copy_member (o_action o) (get_place (o_place o) d) (get_place (o_place o) v)) v)
  else
  match o_action o with
  | PORTS =>
    '(r, l) ← cfg_parse_ports (fw_ports v) (Some value);
    if r <? 0 then Err 1 else Ok (st, {| v with fw_ports := l |})
  | SELECT_GROUP => v ← select_group value v; Ok (st, v)
  | COMP_PRIORITY => Ok ({| st with comp_methods := (switch_comp_priority true (comp_methods st) value).2 |}, v)
  | PID_FILE =>
    Ok (if bool_decide (pid_file st = []) then {| st with pid_file := take 255 value |} else st, v)
  | a =>
    c ← read_field a value (get_place (o_place o) v);
    Ok (st, set_place (o_place o) c v)
  end.

(** The default virtual host is the last of the list. *)
Definition default_vhost (l : list vhost) : option vhost := last l.

Definition find_name (l : list vhost) (name : list Z) : option nat :=
  fst <$> list_find (λ v, v_name v = Some name) l.

(** The position of the virtual host of a section in the list, which may be a
    new one at its head; [None] for another section. *)
Definition section_vhost (l : list vhost) (section : list Z) (reload : bool) : cres (option (list vhost * nat)) :=
  if bool_decide (section = []) then Ok (Some (l, (length l - 1)%nat)) else
  if negb (bool_decide (take 6 section = to_bytes "vhost:")) then Ok None else
  vname ← sanitize_name idna_map (drop 6 section);
  if bool_decide (vname = []) then Err 1 else
  match find_name l vname with
  | Some i => Ok (Some (l, i))
  | None => Ok (Some (vhost_add (Some vname) reload :: l, O))
  end.

(** A value for an option of a virtual host. *)
Definition set_value (st : loader) (d : vhost) (i : nat) (name value : list Z) : cres loader :=
  match vhosts st !! i with
  | None => UB
  | Some v =>
    let stage1 := if auth_init v then None else find_option perm_options name in
    match (match stage1 with Some o => Some o | None => find_option conf_options name end) with
    | None => Ok st
    | Some o =>
      '(st, v) ← apply_option st d v o value;
      Ok {| st with vhosts := <[i := v]> (vhosts st) |}
    end
  end.

(** The handler; it returns 0, which is an error for the parser. *)
Definition cfg_ini_handler (reload : bool) (st : loader) (section name b : list Z) (value : nat)
    : cres (Z * loader) :=
  match default_vhost (vhosts st) with
  | None => UB
  | Some d =>
    o ← section_vhost (vhosts st) section reload;
    match o with
    | None => Ok (0, st)
    | Some (l, i) =>
      let st := {| st with vhosts := l |} in
      value ← sanitize_config_value b value;
      match value with
      | None => Ok (0, st)
      | Some value => st ← set_value st d i name value; Ok (0, st)
      end
    end
  end.
End handler.
