(* ===== verification/ConfCheck.v ===== *)
(** * Authentication methods and checks of the configuration (src/config.c)

    What is done with the options once the file is read, and loading a file
    as a whole. *)

From stdpp Require Import gmap strings.
From S2P Require Import Prelude CString CText Html Ini IpUtil PlainAuth HttpReq ConfPorts ConfSub ConfValue Config.

(** ** Methods *)

Definition MAX_AUTH_METHODS : nat := 4.
Definition AUTH_TYPE_USERNAME_PASS : Z := 1.
Definition AUTH_TYPE_PAM : Z := 3.
Definition AUTH_TYPE_PLAIN : Z := 5.
Definition AUTH_TYPE_CERTIFICATE : Z := 8.
Definition AUTH_TYPE_RADIUS : Z := 33.
Definition AUTH_TYPE_GSSAPI : Z := 64.
Definition ALL_AUTH_TYPES : Z :=
  Z.ldiff (Z.lor (Z.lor (Z.lor (Z.lor AUTH_TYPE_PAM AUTH_TYPE_PLAIN) AUTH_TYPE_CERTIFICATE) AUTH_TYPE_RADIUS) AUTH_TYPE_GSSAPI)
    AUTH_TYPE_USERNAME_PASS.

(** The table, for a server with all libraries. *)
Definition avail_auth_types : list (string * option auth_mod * Z) :=
  [("pam", Some MOD_pam, AUTH_TYPE_PAM); ("gssapi", Some MOD_gssapi, AUTH_TYPE_GSSAPI);
   ("radius", Some MOD_radius, AUTH_TYPE_RADIUS); ("plain", Some MOD_plain, AUTH_TYPE_PLAIN);
   ("certificate", None, AUTH_TYPE_CERTIFICATE)]%string.

(** [c_strncasecmp(text, name, strlen(name)) == 0]. *)
Definition starts_with (name : string) (text : list Z) : bool :=
  bool_decide (map c_tolower (take (String.length name) text) = map c_tolower (to_bytes name)).

Definition find_method (text : list Z) : option (string * option auth_mod * Z) :=
  List.find (λ t, starts_with t.1.1 text) avail_auth_types.

(** [get_brackets_string] of a method on what follows its name; with it
    whether the users are configured by RADIUS. *)
Definition brackets_of (m : option auth_mod) (sup : bool) (old : option additional) (str : list Z)
    : cres (option additional * bool) :=
  match m with
  | None => Ok (old, sup)
  | Some MOD_pam => c ← pam_get_brackets_string (Some str); Ok (Some (ADD_pam c), sup)
  | Some MOD_gssapi => c ← gssapi_get_brackets_string (Some str); Ok (Some (ADD_gssapi c), sup)
  | Some MOD_radius => '(c, sup) ← radius_get_brackets_string sup (Some str); Ok (Some (ADD_radius c), sup)
  | Some MOD_plain => c ← plain_get_brackets_string (Some str); Ok (Some (ADD_plain c), sup)
  end.

(** [figure_auth_funcs] with [primary]: all methods go to the first slot. *)
Fixpoint figure_primary (auth : list (list Z)) (a : auth_st) (sup : bool) : cres (auth_st * bool) :=
  match auth with
  | [] => Ok (a, sup)
  | t :: auth' =>
    match find_method t with
    | None => Err 1
    | Some (n, m, ty) =>
      '(add, sup) ← brackets_of m sup (a_additional a) (drop (String.length n) t);
      if bool_decide (is_Some (a_amod a)) && bool_decide (is_Some m) then Err 1 else
      figure_primary auth'
        {| a_name := Some match a_name a with Some o => o ++ 43 :: to_bytes n | None => to_bytes n end;
           a_additional := add;
           a_type := Z.lor (a_type a) ty;
           a_amod := match a_amod a with Some x => Some x | None => m end;
           a_enabled := true |} sup
    end
  end.

(** Without it, one slot after the other. *)
Fixpoint figure_secondary (auth : list (list Z)) (l : list auth_st) (sup : bool) : cres (list auth_st * bool) :=
  match auth with
  | [] => Ok (l, sup)
  | t :: auth' =>
    match find_method t with
    | None => Err 1
    | Some (n, m, ty) =>
      '(add, sup) ← brackets_of m sup None (drop (String.length n) t);
      let l := l ++ [ {| a_name := Some (to_bytes n); a_additional := add; a_type := ty; a_amod := m; a_enabled := true |} ] in
      if (MAX_AUTH_METHODS <=? length l)%nat then Err 1 else figure_secondary auth' l sup
    end
  end.

(** [figure_acct_funcs]; both accounting modules accept [ALL_AUTH_TYPES]. *)
Definition figure_acct (text : list Z) (type : Z) (sup : bool)
    : cres ((list Z * option radius_cfg_st) * bool) :=
  if starts_with "radius" text then
    '(c, sup) ← radius_get_brackets_string sup (Some (drop 6 text));
    if Z.land ALL_AUTH_TYPES type =? 0 then Err 1 else Ok ((to_bytes "radius", Some c), sup)
  else if starts_with "pam" text then
    if Z.land ALL_AUTH_TYPES type =? 0 then Err 1 else Ok ((to_bytes "pam", None), sup)
  else Err 1.

(** What parse_cfg_file does for a virtual host that is not set up. *)
Definition figure_methods (v : vhost) : cres vhost :=
  if auth_init v then Ok v else
  match texts "auth" (tmp v) with
  | [] => Err 1
  | auth =>
    '(a, sup) ← figure_primary auth no_auth (sup_config_radius v);
    '(l, sup) ← figure_secondary (texts "eauth" (tmp v)) [a] sup;
    '(ac, sup) ← match str "acct" (tmp v) with
                 | None => Ok (None, sup)
                 | Some t => '(r, sup) ← figure_acct t (a_type a) sup; Ok (Some r, sup)
                 end;
    Ok {| v with auths := l; acct := ac; sup_config_radius := sup; auth_init := true |}
  end.

(** ** check_cfg *)

Definition MAX_BANNER_SIZE : nat := 256.
Definition MIN_NO_COMPRESS_LIMIT : Z := 64.
Definition GNUTLS_CERT_REQUEST : Z := 1.
Definition GNUTLS_CERT_REQUIRE : Z := 2.

Definition is_cert (a : auth_st) : bool := negb (Z.land (a_type a) AUTH_TYPE_CERTIFICATE =? 0).

(** The request for a certificate in the handshake; 0 is no request. *)
Definition cert_request (l : list auth_st) (compat : Z) : Z :=
  match l with
  | [a] => if is_cert a then (if compat =? 0 then GNUTLS_CERT_REQUIRE else GNUTLS_CERT_REQUEST) else 0
  | _ => if existsb is_cert l then GNUTLS_CERT_REQUEST else 0
  end.

(** The loop over the routes: what is left of them. *)
Fixpoint check_routes (done rest : list (list Z)) : cres (list (list Z)) :=
  match rest with
  | [] => Ok done
  | r :: rest' =>
    match ip_route_sanity_check true (of_bytes r) with
    | None => Err 1
    | Some r =>
      if bool_decide (r = "0.0.0.0/0"%string) || bool_decide (r = "default"%string) then Ok []
      else check_routes (done ++ [to_bytes r]) rest'
    end
  end.
Fixpoint check_no_routes (l : list (list Z)) : cres (list (list Z)) :=
  match l with
  | [] => Ok []
  | r :: l' =>
    match ip_route_sanity_check true (of_bytes r) with
    | None => Err 1
    | Some r => l' ← check_no_routes l'; Ok (to_bytes r :: l')
    end
  end.

(** The texts of an array, in the same block. *)
Definition set_texts (f : string) (l : list (list Z)) (c : fields) : fields :=
  match lists c !! f with
  | Some a => set_list f {| cap := cap a; vals := l |} c
  | None => c
  end.

Definition or_exit (b : bool) : cres unit := if b then Err 1 else Ok tt.

(** Numbers and strings that are set from others. *)
Definition default_priorities (d : option vhost) (c : fields) : fields :=
  match str "priorities" c, d with
  | Some _, _ => c
  | None, Some d => copy_str "priorities" (config d) c
  | None, None => set_str "priorities" (to_bytes "NORMAL:%SERVER_PRECEDENCE:%COMPAT") c
  end.
Definition default_occtl_file (p : fields) : fields :=
  match str "occtl_socket_file" p with
  | Some _ => p
  | None => set_str "occtl_socket_file" (to_bytes "/var/run/occtl.socket") p
  end.
Definition default_mobile_dpd (c : fields) : fields :=
  if num "mobile_dpd" c =? 0 then copy_num_as "mobile_dpd" "dpd" c else c.
Definition compat_legacy (c : fields) : fields :=
  if num "cisco_client_compat" c =? 0 then c else set_num "dtls_legacy" 1 c.
Definition psk_off (p c : fields) : fields :=
  if bool_decide (is_Some (str "unix_conn_file" p)) then set_num "dtls_psk" 0 c else c.
Definition default_mobile_idle (c : fields) : fields :=
  if num "mobile_idle_timeout" c =? 2 ^ 32 - 1 then copy_num_as "mobile_idle_timeout" "idle_timeout" c else c.
Definition raise_limit (c : fields) : fields :=
  if num "no_compress_limit" c <? MIN_NO_COMPRESS_LIMIT then set_num "no_compress_limit" MIN_NO_COMPRESS_LIMIT c else c.
Definition default_udp_host (p : fields) : fields :=
  match str "udp_listen_host" p, str "listen_host" p with
  | None, Some h => set_str "udp_listen_host" h p
  | _, _ => p
  end.

Section check.
(** [calc_sha1_hash] of a file. *)
Context (sha1_file : list Z → option (list Z)).

(** The hash of the profile, with the directory of the chroot as a second
    try. *)
Definition profile_hash (file : list Z) (chroot : option (list Z)) : cres (list Z) :=
  match sha1_file file with
  | Some h => Ok h
  | None =>
    match chroot with
    | None => Err 1
    | Some d => match sha1_file (take 255 (d ++ 47 :: file)) with Some h => Ok h | None => Err 1 end
    end
  end.

(** The fields that must be there. *)
Definition check_required (v : vhost) (d : option vhost) : cres vhost :=
  _ ← or_exit (negb (from_option a_enabled false (head (auths v))));
  v ← match str "socket_file_prefix" (perm v), v_name v with
      | Some _, _ => Ok v
      | None, None => Err 1
      | None, Some _ =>
        match d with
        | None => UB
        | Some d => Ok {| v with perm := copy_str "socket_file_prefix" (perm d) (perm v) |}
        end
      end;
  _ ← or_exit ((num "port" (perm v) =? 0) && negb (bool_decide (is_Some (str "unix_conn_file" (perm v)))) &&
               negb (bool_decide (is_Some d)));
  let certs := length (texts "cert" (perm v)) in
  let keys := length (texts "key" (perm v)) in
  _ ← or_exit ((certs =? 0)%nat || (keys =? 0)%nat);
  let c := config v in
  let has f := bool_decide (is_Some (str f c)) in
  _ ← or_exit (negb (has "network.ipv4"%string) && negb (has "network.ipv6"%string));
  _ ← or_exit (has "network.ipv4"%string && negb (has "network.ipv4_netmask"%string));
  _ ← or_exit (has "network.ipv6"%string && (num "network.ipv6_prefix" c =? 0));
  _ ← or_exit (MAX_BANNER_SIZE <? length (default [] (str "banner" c)))%nat;
  _ ← or_exit (negb (certs =? keys)%nat);
  Ok v.

(** The checks that depend on the request for a certificate. *)
Definition check_cert (v : vhost) : cres vhost :=
  let c := config v in
  let req := cert_request (auths v) (num "cisco_client_compat" c) in
  let c := if req =? 0 then c else set_num "cert_req" req c in
  let req := num "cert_req" c in
  _ ← (if req =? 0 then Ok tt else
       match str "cert_user_oid" c with
       | None => Err 1
       | Some oid =>
         or_exit (negb (c_isdigit (List.hd 0 oid)) && negb (bool_decide (oid = to_bytes "SAN(rfc822name)")))
       end);
  _ ← or_exit (bool_decide (is_Some (str "unix_conn_file" (perm v))) && negb (req =? 0) &&
               (num "listen_proxy_proto" c =? 0));
  Ok {| v with config := c |}.

(** The values that are set from others. *)
Definition hash_cert (p : fields) : fields :=
  match texts "cert" p, str "cert_hash" p with
  | f :: _, None => match sha1_file f with Some h => set_str "cert_hash" h p | None => p end
  | _, _ => p
  end.
Definition derive (v : vhost) (d : option vhost) : cres vhost :=
  let p := perm v in let c := config v in
  let p := hash_cert p in
  c ← match str "xml_config_file" c with
      | None => Ok c
      | Some f => h ← profile_hash f (str "chroot_dir" p); Ok (set_str "xml_config_hash" h c)
      end;
  let c := default_priorities d c in
  let p := default_occtl_file p in
  _ ← or_exit (negb (num "network.ipv6_prefix" c =? 0) &&
               (num "network.ipv6_subnet_prefix" c <=? num "network.ipv6_prefix" c));
  _ ← or_exit (negb (bool_decide (is_Some (v_name v))) && bool_decide (default [] (str "network.name" c) = []));
  let c := psk_off p (compat_legacy (default_mobile_dpd c)) in
  _ ← or_exit (negb (num "match_dtls_and_tls" c =? 0) && negb (num "dtls_legacy" c =? 0));
  let c := raise_limit (default_mobile_idle c) in
  Ok {| v with perm := default_udp_host p; config := c |}.

Definition check_networks (v : vhost) : cres vhost :=
  let c := config v in
  r ← check_routes [] (texts "network.routes" c);
  n ← check_no_routes (texts "network.no_routes" c);
  _ ← or_exit (existsb (λ d, bool_decide (d = to_bytes "local")) (texts "network.dns" c));
  _ ← or_exit ((bool_decide (is_Some (str "per_user_dir" c)) || bool_decide (is_Some (str "per_group_dir" c))) &&
               sup_config_radius v);
  Ok {| v with config := set_texts "network.no_routes" n (set_texts "network.routes" r c) |}.

Definition check_cfg (v : vhost) (d : option vhost) : cres vhost :=
  v ← check_required v d;
  v ← check_cert v;
  v ← derive v d;
  check_networks v.
End check.

(** ** Loading

    Reading and reloading a configuration file as a whole.  What the loader
    does with certificates and with the groups of the authentication module
    is not part of the model. *)

Section load.
Context (getpwnam getgrnam : list Z → option Z) (idna_map : list Z → list Z).
Context (sha1_file : list Z → option (list Z)).
Context (getaddrinfo : kkdcp_url → option (list Z)).
Context (fopen : list Z → option (list Z)).
(** The regular files of a directory, [None] if it cannot be opened. *)
Context (readdir : list Z → option (list (list Z))).

Definition DEFAULT_CFG_FILE : list Z := to_bytes "/etc/ocserv/ocserv.conf".
Definition OLD_DEFAULT_CFG_FILE : list Z := to_bytes "/etc/ocserv.conf".

(** The routes in the files of the users. *)
Definition iroutes_handler (c : fields) (section name b : list Z) (value : nat) : cres (Z * fields) :=
  if negb (bool_decide (section = [])) || negb (bool_decide (name = to_bytes "iroute")) then Ok (0, c) else
  v ← sanitize_config_value b value;
  match v with
  | None => Ok (0, c)
  | Some v => l ← _add_multi_line_val (lists c !! "known_iroutes"%string) v; Ok (0, set_list "known_iroutes" l c)
  end.

Definition append_iroutes_from_file (c : fields) (file : list Z) : cres fields :=
  '(ret, c) ← ini_parse false [59] iroutes_handler (fopen file) c;
  if ret <? 0 then Ok c else
  l ← check_no_routes (texts "known_iroutes" c);
  Ok (set_texts "known_iroutes" l c).

Fixpoint load_files (c : fields) (dir : list Z) (files : list (list Z)) : cres fields :=
  match files with
  | [] => Ok c
  | f :: files' => c ← append_iroutes_from_file c (take 255 (dir ++ 47 :: f)); load_files c dir files'
  end.
Definition load_iroutes (c : fields) : cres fields :=
  match str "per_user_dir" c with
  | None => Ok c
  | Some dir => match readdir dir with None => Ok c | Some l => load_files c dir l end
  end.

(** What follows the parser for one virtual host; [d] is NULL for the
    default one.  The number of Kerberos proxies stays when their array is
    freed. *)
Definition finish_vhost (v : vhost) (d : option vhost) : cres vhost :=
  v ← figure_methods v;
  v ← (if num "expose_iroutes" (tmp v) =? 0 then Ok v else c ← load_iroutes (config v); Ok {| v with config := c |});
  v ← check_cfg sha1_file v d;
  let urlfw := lists (tmp v) !! "urlfw"%string in
  let n := match urlfw with Some a => length (vals a) | None => urlfw_size v end in
  if (n =? 0)%nat then Ok v else
  '(k, size) ← parse_kkdcp getaddrinfo (vals <$> urlfw) n;
  let t := tmp v in
  Ok {| v with tmp := {| t with lists := delete "urlfw"%string (lists t) |};
               urlfw_size := n; kkdcp := take size k |}.

(** The virtual hosts from the last one, the default, to the first. *)
Fixpoint finish_named (d : vhost) (l : list vhost) : cres (list vhost) :=
  match l with
  | [] => Ok []
  | v :: l' => v ← finish_vhost v (Some d); l' ← finish_named d l'; Ok (v :: l')
  end.
Definition finish_all (l : list vhost) : cres (list vhost) :=
  match reverse l with
  | [] => UB
  | d :: named =>
    d ← finish_vhost d None;
    named ← finish_named d named;
    Ok (reverse (d :: named))
  end.

(** The parser as it is compiled: no stop at errors, comments start with a
    semicolon. *)
Definition read_file (reload : bool) (st : loader) (file : list Z) : cres (Z * loader) :=
  ini_parse false [59] (cfg_ini_handler getpwnam getgrnam idna_map reload) (fopen file) st.

Definition parse_cfg_file (reload : bool) (st : loader) (file : list Z) : cres loader :=
  '(r, st) ← read_file reload st file;
  '(r, st) ← (if (r <? 0) && bool_decide (file = DEFAULT_CFG_FILE)
              then read_file reload st OLD_DEFAULT_CFG_FILE else Ok (r, st));
  if r <? 0 then Err 1 else
  l ← finish_all (vhosts st);
  Ok {| st with vhosts := l |}.

(** [cfg_new] for the reload; what is kept while loading stays. *)
Definition cfg_new (v : vhost) : vhost :=
  {| v with config := default_config; friendly_group_list := None; fw_ports := []; kkdcp := [] |}.
Definition reload_cfg_file (st : loader) (file : list Z) : cres loader :=
  parse_cfg_file true {| st with vhosts := map cfg_new (vhosts st) |} file.
End load.
