(* ===== verification/ConfSpec.v ===== *)
(** * The configuration: what is read, and what is accepted *)

From stdpp Require Import gmap strings.
From S2P Require Import Prelude CString CText Html HtmlSpec Ini IniSpec IpUtil HttpReq PlainAuth ConfPorts ConfPortsSpec ConfSub ConfSubSpec.
From S2P Require Import ConfValue Config ConfCheck.

(** ** Values *)

Lemma strlen_app_nul l r : Forall (λ c, c ≠ 0) l → strlen (l ++ 0 :: r) = Ok (length l).
Proof. apply strlen_app. Qed.

(** Going back stops at a byte that is not blank. *)
Lemma blank_back_safe b k j c : b !! j = Some c → blank c = false → (j < k ≤ length b)%nat →
  ∃ k', blank_back b k = Ok k' ∧ (j < k' ≤ k)%nat.
Proof.
  intros Hj Hc. induction k as [|k IH]; intros Hk; [lia|]. simpl.
  destruct (aread_lt b (Z.of_nat k)) as (d & -> & Hd); [lia|]. run. rewrite Nat2Z.id in Hd.
  destruct (blank d) eqn:Ed; [|exists (S k); split; [done|lia]].
  destruct (decide (j = k)) as [->|]; [congruence|]. destruct IH as (k' & -> & ?); [lia|].
  exists k'. split; [done|lia].
Qed.

Lemma blank_front_safe p : nul_ahead p → ∃ n, blank_front p = Ok n ∧ (n < length p)%nat.
Proof.
  induction p as [|c p IH]; intros Hp; [by apply elem_of_nil in Hp|]. simpl.
  destruct (blank c) eqn:Ec; [|exists O; split; [done|lia]].
  destruct IH as (n & -> & ?); [|exists (S n); split; [done|lia]].
  eapply nul_ahead_cons; [done|]. by intros ->.
Qed.

Lemma nul_ahead_last l : last l = Some 0 → nul_ahead l.
Proof. intros [l' ->]%last_Some. apply nul_ahead_snoc. Qed.

(** A value is cleaned within its line if something before its end is not
    blank. *)
Lemma sanitize_safe b v n j c : line_buf b v → strlen (drop v b) = Ok n →
  b !! j = Some c → blank c = false → (j < v + n)%nat →
  cwp (sanitize_config_value b v) (λ _, True) (λ _, False).
Proof.
  intros Hb Hn Hj Hc Hjn. unfold sanitize_config_value. pose proof (last_drop_buf _ _ Hb) as Hl.
  destruct (strlen_spec _ Hl) as (n' & En & Hlt & _). rewrite Hn in En. simplify_eq. rewrite Hn. run.
  rewrite length_drop in Hlt. destruct (blank_back_safe b (v + n') j c Hj Hc) as (k & -> & _); [lia|]. run.
  destruct (blank_front_safe _ (nul_ahead_last _ Hl)) as (i & -> & _). done.
Qed.

(** The value after a name. *)
Lemma sanitize_pair_safe b v j : line_buf b v → (j < v)%nat → b !! j = Some 0 →
  cwp (sanitize_config_value b v) (λ _, True) (λ _, False).
Proof.
  intros Hb Hj H0. destruct (strlen_spec _ (last_drop_buf _ _ Hb)) as (n & En & _).
  by apply (sanitize_safe b v n j 0); [..|lia].
Qed.

(** A value without blanks at its ends. *)
Definition tidy (v : list Z) : Prop :=
  (∃ c l, v = c :: l ∧ blank c = false) ∧ (∃ l c, v = l ++ [c] ∧ blank c = false).

(** A decision for lines with an option and a value. *)
Definition pair_okb (n v : list Z) : bool :=
  (length (render_item (IPair n v)) <=? INI_MAX_LINE - 1)%nat &&
  forallb (λ c, negb (c =? 0) && negb (c =? 61) && negb (c =? 58) && negb (c =? 93) && negb (c_isspace c)) n &&
  match n with c :: _ => negb (c =? 35) && negb (c =? 59) && negb (c =? 91) && negb (c =? 239) | [] => false end &&
  forallb (λ c, negb (c =? 0) && negb (c =? 10)) v &&
  match v with c :: _ => negb (blank c) | [] => false end &&
  match last v with Some c => negb (blank c) | None => false end &&
  match find_loop [59] [] true (v ++ [0]) with Ok k => (k =? length v)%nat | _ => false end.

Lemma forallb_Forall' {A} (f : A → bool) (P : A → Prop) l : (∀ a, f a = true → P a) → forallb f l = true → Forall P l.
Proof. intros H Hl. apply Forall_forall. intros a Ha. apply H. rewrite List.forallb_forall in Hl. by apply Hl, list_elem_of_In. Qed.

Lemma pair_okb_ok n v : pair_okb n v = true → item_ok [59] (IPair n v) ∧ tidy v.
Proof.
  unfold pair_okb. rewrite !andb_true_iff. intros ((((((Hl & Hn) & Hhn) & Hv) & Hhv) & Hlv) & Hf).
  destruct n as [|n0 n]; [done|]. destruct v as [|v0 v]; [done|]. destruct (last (v0 :: v)) as [c|] eqn:Ec; [|done].
  apply last_Some in Ec as [v' Ec]. apply negb_true_iff in Hhv, Hlv.
  assert (∀ c, blank c = false → c_isspace c = false) as Hb by (intros d; unfold blank; by destruct (c_isspace d)).
  split; [split; [by apply Nat.leb_le|]; split_and!|split; [by eexists _, _|by eexists _, _]].
  - eapply forallb_Forall'; [|exact Hn]. intros d. rewrite !andb_true_iff, !negb_true_iff, !Z.eqb_neq. unfold name_char. tauto.
  - exists n0. split; [done|]. rewrite !andb_true_iff, !negb_true_iff, !Z.eqb_neq in Hhn. tauto.
  - eapply forallb_Forall'; [|exact Hv]. intros d. rewrite !andb_true_iff, !negb_true_iff, !Z.eqb_neq. tauto.
  - eexists _, _. split; [exact Ec|]. by apply Hb.
  - eexists. split; [done|]. by apply Hb.
  - destruct (find_loop _ _ _ _) as [k| | |]; try done. apply Nat.eqb_eq in Hf. by subst k.
Qed.

Definition section_okb (n : list Z) : bool :=
  forallb (λ c, negb (c =? 0) && negb (c =? 93) && negb (c_isspace c)) n && (length n <? MAX_SECTION)%nat.
Lemma section_okb_ok n : section_okb n = true → item_ok [59] (ISection n).
Proof.
  unfold section_okb. rewrite andb_true_iff, Nat.ltb_lt. intros [Hn Hl]. split; [|split; [|done]].
  - simpl. rewrite length_app. simpl. unfold MAX_SECTION in Hl. lia.
  - eapply forallb_Forall'; [|exact Hn]. intros d. rewrite !andb_true_iff, !negb_true_iff, !Z.eqb_neq. tauto.
Qed.

(** Concrete lines. *)
Ltac lines_ok :=
  repeat (apply List.Forall_cons;
    [match goal with
     | |- item_ok _ (IPair ?n ?v) => exact (proj1 (pair_okb_ok n v eq_refl))
     | |- _ (IPair ?n ?v) => exact (proj2 (pair_okb_ok n v eq_refl))
     | |- item_ok _ (ISection ?n) => exact (section_okb_ok n eq_refl)
     | |- _ => exact I
     end|]); apply List.Forall_nil.

Lemma sanitize_tidy n v : tidy v → Forall (λ c, c ≠ 0) v →
  sanitize_config_value (pair_buf n v) (length n + 3) = Ok (Some v).
Proof.
  intros [(c & l & Ec & Hc) (l' & d & El & Hd)] Hv. unfold sanitize_config_value, pair_buf.
  set (b := n ++ [0; 0; 32] ++ v ++ [0; 0]).
  assert (drop (length n + 3) b = v ++ [0; 0]) as Hdr.
  { unfold b. rewrite drop_app_ge by lia. by replace (length n + 3 - length n)%nat with 3%nat by lia. }
  rewrite Hdr, strlen_app by done. run.
  assert (blank_back b (length n + 3 + length v) = Ok (length n + 3 + length v)%nat) as ->.
  { rewrite El, length_app, Nat.add_1_r, Nat.add_succ_r. simpl.
    rewrite (aread_Ok _ _ d); [run; by rewrite Hd|lia|].
    rewrite Nat2Z.id, <- lookup_drop, Hdr, El, <- (assoc_L (++)), lookup_app_r by lia. by rewrite Nat.sub_diag. }
  run. assert (blank_front (v ++ [0; 0]) = Ok O) as -> by (rewrite Ec; simpl; by rewrite Hc). run.
  replace (_ - _ - _) with (Z.of_nat (length v)) by lia. destruct (Z.ltb_spec (Z.of_nat (length v)) 0); [lia|].
  rewrite Nat.add_0_r, Hdr, cstr_app_nul, Nat2Z.id, take_ge by done. done.
Qed.

(** ** A file that is written and read *)

Section roundtrip.
Context (getpwnam getgrnam : list Z → option Z) (idna_map : list Z → list Z).
Abbreviation handler := (cfg_ini_handler getpwnam getgrnam idna_map).
Abbreviation set_value := (set_value getpwnam getgrnam).

(** An option with its value in a section. *)
Definition set_option (reload : bool) (st : loader) (section name value : list Z) : cres loader :=
  match default_vhost (vhosts st) with
  | None => UB
  | Some d =>
    o ← section_vhost idna_map (vhosts st) section reload;
    match o with
    | None => Ok st
    | Some (l, i) => set_value {| st with vhosts := l |} d i name value
    end
  end.

Fixpoint set_options (reload : bool) (st : loader) (section : list Z) (l : list item) : cres loader :=
  match l with
  | [] => Ok st
  | ISection n :: l' => set_options reload st n l'
  | IPair n v :: l' => st ← set_option reload st section n v; set_options reload st section l'
  end.

Definition value_ok (it : item) : Prop := match it with IPair _ v => tidy v | ISection _ => True end.

Lemma handler_pair reload st section n v : tidy v → Forall (λ c, c ≠ 0) v →
  handler reload st section n (pair_buf n v) (length n + 3) =
    (st ← set_option reload st section n v; Ok (0, st)).
Proof.
  intros Ht Hv. unfold cfg_ini_handler, set_option. destruct (default_vhost (vhosts st)) as [d|]; [|done].
  destruct (section_vhost _ _ _ _) as [[[l i]|]| | |]; try done. run. by rewrite sanitize_tidy.
Qed.

Lemma spec_items_options reload st l : Forall (item_ok [59]) l → Forall value_ok l →
  (st ← spec_items false (handler reload) st l; Ok (user st)) =
    set_options reload (user st) (section st) l.
Proof.
  intros Hl. revert st. induction Hl as [|it l Hit _ IH]; intros st Hv; [done|].
  apply Forall_cons in Hv as [Hv Hvs]. destruct it as [n|n v]; cbn [spec_items spec_item set_options].
  - run. cbn [andb]. by rewrite IH.
  - unfold call. cbn [user Ini.section]. destruct Hit as (_ & _ & _ & Hv0 & _).
    rewrite handler_pair; [|done|eapply Forall_impl; [exact Hv0|]; naive_solver].
    destruct (set_option reload (user st) (section st) n v) as [st'| | |]; try done. run. cbn [andb].
    rewrite IH by done. unfold fail. by repeat case_match.
Qed.
End roundtrip.

Lemma read_items getpwnam getgrnam idna_map fopen reload st file l :
  fopen file = Some (render_items l) → Forall (item_ok [59]) l → Forall value_ok l →
  ('(_, st) ← read_file getpwnam getgrnam idna_map fopen reload st file; Ok st) =
    set_options getpwnam getgrnam idna_map reload st [] l.
Proof.
  intros Hf Hl Hv. unfold read_file, ini_parse. rewrite Hf, ini_items by done.
  pose proof (spec_items_options getpwnam getgrnam idna_map reload (ini_init st) l Hl Hv) as E. cbn [user section ini_init] in E.
  rewrite <- E. by destruct (spec_items _ _ _ _).
Qed.

(** A configuration file of sections and options is read as it was
    written: every option sets its value, in order, in the virtual host of
    its section. *)
Theorem config_file_roundtrip getpwnam getgrnam idna_map fopen reload st file l :
  fopen file = Some (render_items l) → Forall (item_ok [59]) l → Forall value_ok l →
  ('(_, st) ← read_file getpwnam getgrnam idna_map fopen reload st file; Ok st) =
    set_options getpwnam getgrnam idna_map reload st [] l.
Proof. apply read_items. Qed.

(** ** Safety *)

Lemma read_string_safe v l c : v = l ++ [c] → c_isspace c = false → ∃ s, READ_STRING v = Ok s.
Proof.
  intros -> Hc. unfold READ_STRING. rewrite length_app, Nat.add_1_r. cbn [trim_len].
  rewrite (aread_Ok _ _ c); [run; rewrite Hc; by eexists|lia|]. rewrite Nat2Z.id, lookup_app_r by lia.
  by rewrite Nat.sub_diag.
Qed.

Lemma read_numeric_safe w v : ∃ n, READ_NUMERIC w v = Ok n.
Proof.
  unfold READ_NUMERIC. destruct (strtol_nul 10 (v ++ [0])) as (n & e & -> & _); [lia|apply nul_ahead_snoc|].
  by eexists.
Qed.

Lemma read_prio_safe v : ∃ n, READ_PRIO_TOS v = Ok n.
Proof.
  unfold READ_PRIO_TOS. destruct (matches_nul (to_bytes "0x") (v ++ [0])) as [m ->]; [set_solver by lia|apply nul_ahead_snoc|].
  run. destruct m.
  - destruct (strtol_nul 16 (v ++ [0])) as (n & e & -> & _); [lia|apply nul_ahead_snoc|]. by eexists.
  - destruct (strtol_nul 10 (v ++ [0])) as (n & e & -> & _); [lia|apply nul_ahead_snoc|]. by eexists.
Qed.

Lemma extract_prefix_safe v : ∃ r, extract_prefix v = Ok r.
Proof.
  unfold extract_prefix. destruct (strchr_at _ _) as [k|] eqn:E; [|by eexists].
  destruct (strchr_at_nul _ _ _ (nul_ahead_snoc v) E) as [Hd _]; [done|].
  destruct (strtol_nul 10 _ ltac:(lia) Hd) as (n & e & -> & _). by eexists.
Qed.

Lemma upto_comma_safe p : cwp (upto_comma p) (λ _, True) (λ c, c = 1).
Proof. unfold upto_comma. by repeat case_match. Qed.

Lemma brackets1_safe v : cwp (get_brackets_string1 v) (λ _, True) (λ c, c = 1).
Proof.
  unfold get_brackets_string1. destruct (strchr_at _ _) as [k|] eqn:E; [|done].
  destruct (strchr_at_nul _ _ _ (nul_ahead_snoc v) E) as [Hd _]; [done|].
  destruct (skip_spaces_nul _ Hd) as (q & -> & _). run. apply cwp_bind.
  eapply cwp_mono; [apply upto_comma_safe|done|done].
Qed.

(** Arrays have room for the entries of an empty one. *)
Definition vec_ok {A} (a : vec A) : Prop := (DEFAULT_CONFIG_ENTRIES ≤ cap a)%nat.

Lemma add_multi_safe {A} (o : option (vec A)) (v : A) : (∀ a, o = Some a → vec_ok a) →
  ∃ a, _add_multi_line_val o v = Ok a ∧ vec_ok a.
Proof.
  intros Ho. unfold _add_multi_line_val. set (a := default new_vec o).
  assert (vec_ok a) as Ha by (unfold a; destruct o; simpl; [by apply Ho|unfold vec_ok; simpl; done]).
  unfold vec_ok, push in *. destruct (Nat.leb_spec (DEFAULT_CONFIG_ENTRIES - 1) (length (vals a))); cbn [cap vals].
  - destruct (Nat.ltb_spec (S (length (vals a))) (length (vals a) + 2)); [|lia]. eexists. split; [done|]. simpl. lia.
  - destruct (Nat.ltb_spec (S (length (vals a))) (cap a)); [|lia]. eexists. split; [done|]. simpl. lia.
Qed.

Definition count {A} (o : option (vec A)) : nat := from_option (λ a, length (vals a)) O o.

Lemma add_bracket_safe {A} (o : option (vec A)) (v : A) : (∀ a, o = Some a → vec_ok a) → (count o + 1 < DEFAULT_CONFIG_ENTRIES)%nat →
  ∃ a, add_bracket_val o v = Ok a ∧ vec_ok a ∧ length (vals a) = (count o + 1)%nat.
Proof.
  intros Ho Hc. unfold add_bracket_val, push. set (a := default new_vec o).
  assert (vec_ok a ∧ length (vals a) = count o) as [Ha Hl].
  { unfold a. destruct o; simpl; [split; [by apply Ho|done]|]. unfold vec_ok. by simpl. }
  unfold vec_ok in *. destruct (Nat.ltb_spec (length (vals a)) DEFAULT_CONFIG_ENTRIES); [|lia].
  destruct (Nat.ltb_spec (S (length (vals a))) (cap a)); [|lia]. eexists. split; [done|]. split; [done|].
  simpl. rewrite length_app. simpl. lia.
Qed.

Definition fields_ok (c : fields) : Prop := map_Forall (λ _ a, vec_ok a) (lists c).
Definition groups_of (v : vhost) : option (vec (list Z)) := lists (config v) !! "group_list"%string.

(** At most [k] groups can be selected; both arrays are as long. *)
Definition vhost_ok (k : nat) (v : vhost) : Prop :=
  fields_ok (perm v) ∧ fields_ok (config v) ∧ fields_ok (tmp v) ∧
  (∀ a, friendly_group_list v = Some a → vec_ok a) ∧
  (count (groups_of v) ≤ k)%nat ∧ (count (friendly_group_list v) ≤ k)%nat.

Lemma vhost_ok_le k k' v : (k ≤ k')%nat → vhost_ok k v → vhost_ok k' v.
Proof. intros ? (? & ? & ? & ? & ? & ?). split_and!; (done || lia). Qed.

Section safety.
Context (getpwnam getgrnam : list Z → option Z) (idna_map : list Z → list Z).

(** The actions that do not read a group: they leave the groups. *)
Lemma read_field_safe a v c : tidy v → fields_ok c →
  (∀ f, a = MULTI f → f ≠ "group_list"%string) →
  cwp (read_field getpwnam getgrnam a v c) (λ c', fields_ok c' ∧ lists c' !! "group_list"%string = lists c !! "group_list"%string) (λ c, c = 1).
Proof.
  intros [_ (l & d & El & Hd)] Hc Hg.
  assert (c_isspace d = false) as Hds by (unfold blank in Hd; by destruct (c_isspace d)).
  destruct (read_string_safe v l d El Hds) as [s Hs].
  destruct (read_prio_safe v) as [p Hp].
  assert (∀ w, ∃ n, READ_NUMERIC w v = Ok n) as Hn by (intros w; apply read_numeric_safe).
  destruct a; cbn [read_field]; rewrite ?Hs, ?Hp; run; try done;
    try (by repeat case_match);
    try (destruct (Hn w) as [? ->]; done);
    try (destruct (Hn U64) as [? ->]; done);
    try (destruct (Hn U32) as [? ->]; run; by repeat case_match).
  - destruct (add_multi_safe (lists c !! f) v) as (a & -> & Ha); [intros a Ha; by apply (Hc f a)|]. run. split.
    + by apply map_Forall_insert_2.
    + simpl. rewrite lookup_insert_ne; [done|]. by apply Hg.
  - destruct (extract_prefix_safe s) as [[n t] ->]. run. by repeat case_match.
  - destruct (extract_prefix_safe s) as [[n t] ->]. run. by repeat case_match.
Qed.

(** The options that may be looked up. *)
Definition known (o : option_st) : Prop := o ∈ perm_options ∨ o ∈ conf_options.

Lemma find_option_known l name o : find_option l name = Some o → o ∈ l ∧ name = to_bytes (o_name o).
Proof.
  unfold find_option. intros [Hin Hn]%List.find_some. split; [by apply list_elem_of_In|].
  by apply bool_decide_eq_true_1 in Hn.
Qed.

(** Properties of the tables that hold for every option. *)
Definition option_ok (o : option_st) : bool :=
  match o_action o with
  | MULTI f => negb (bool_decide (f = "group_list"%string))
  | SELECT_GROUP => bool_decide (o_name o = "select-group"%string)
  | _ => true
  end.
Lemma known_ok o : known o → option_ok o = true.
Proof.
  assert (forallb option_ok (perm_options ++ conf_options) = true) as H by (vm_compute; reflexivity).
  intros Ho. rewrite List.forallb_forall in H. apply H, List.in_app_iff.
  destruct Ho as [Ho|Ho]; [left|right]; by apply list_elem_of_In.
Qed.

Lemma copy_member_ok a d c : fields_ok c → fields_ok (copy_member a d c) ∧ lists (copy_member a d c) = lists c.
Proof. intros Hc. destruct a; simpl; done. Qed.

Lemma set_place_ok k p c v : vhost_ok k v → fields_ok c →
  lists c !! "group_list"%string = lists (get_place p v) !! "group_list"%string → vhost_ok k (set_place p c v).
Proof.
  intros (Hp & Hc & Ht & Hf & Hg & Hfg) Hok Hl. destruct p; simpl in *; split_and!; try done.
  unfold groups_of in *. simpl. by rewrite Hl.
Qed.

Lemma get_place_ok k p v : vhost_ok k v → fields_ok (get_place p v).
Proof. intros (? & ? & ? & _). by destruct p. Qed.

Lemma select_group_safe k value v : vhost_ok k v → (k + 1 < DEFAULT_CONFIG_ENTRIES)%nat →
  cwp (select_group value v) (λ v', vhost_ok (k + 1) v') (λ c, c = 1).
Proof.
  intros Hv Hk. pose proof Hv as (Hp & Hc & Ht & Hf & Hg & Hfg). unfold select_group.
  apply cwp_bind. eapply cwp_mono; [apply brackets1_safe| |done]. intros fr _.
  destruct (add_bracket_safe (lists (config v) !! "group_list"%string)
    (match strchr_at (value ++ [0]) 91 with Some k => take k value | None => value end)) as (a & -> & Ha & Hla).
  { intros a Ha. exact (Hc "group_list"%string a Ha). } { unfold groups_of in Hg. lia. }
  run. destruct (add_bracket_safe (friendly_group_list v) fr Hf) as (fa & -> & Hfa & Hlf); [lia|]. run.
  split_and!; try done; simpl.
  - by apply map_Forall_insert_2.
  - by intros ? [= <-].
  - unfold groups_of in *. simpl. rewrite lookup_insert_eq. simpl. lia.
  - lia.
Qed.

(** One option; [select-group] needs room. *)
Lemma apply_option_safe k st d v o value : vhost_ok k v → tidy value → known o →
  (k + 1 < DEFAULT_CONFIG_ENTRIES)%nat →
  cwp (apply_option getpwnam getgrnam st d v o value)
    (λ r, vhosts r.1 = vhosts st ∧ vhost_ok (if bool_decide (o_name o = "select-group"%string) then k + 1 else k) r.2)
    (λ c, c = 1).
Proof.
  intros Hv Ht Ho Hk. pose proof (known_ok o Ho) as Hok. unfold option_ok in Hok.
  assert (∀ v', vhost_ok k v' → vhost_ok (if bool_decide (o_name o = "select-group"%string) then k + 1 else k) v') as Hle.
  { intros v' Hv'. case_bool_decide; [|done]. eapply vhost_ok_le; [|exact Hv']. lia. }
  unfold apply_option. destruct (o_global o && _).
  { simpl. split; [done|]. apply Hle. apply set_place_ok; [done|apply copy_member_ok; by eapply get_place_ok|].
    by rewrite (proj2 (copy_member_ok _ _ _ (get_place_ok _ _ _ Hv))). }
  destruct (o_action o) as [f|f w|f|f|f n|f|f|f|f|f| | | | | | | | | | | |] eqn:Ea;
    try (apply cwp_bind; eapply cwp_mono; [apply read_field_safe; [done|by eapply get_place_ok|]| |done];
         [intros g Eg; try discriminate Eg; injection Eg as <-; by destruct (bool_decide_reflect (f = "group_list"%string))|];
         intros c' [Hc' Hl]; simpl; split; [done|]; by apply Hle, set_place_ok).
  - apply cwp_bind. eapply cwp_mono; [apply ports_safe| |done]. intros [r l] _. destruct (r <? 0); [done|].
    simpl. split; [done|]. apply Hle. exact Hv.
  - apply cwp_bind. eapply cwp_mono; [by apply select_group_safe| |done]. intros v' Hv'. simpl. split; [done|].
    by rewrite Hok.
  - simpl. split; [done|]. by apply Hle.
  - cbn [cwp fst snd]. split; [by destruct (bool_decide (pid_file st = []))|]. by apply Hle.
Qed.

Lemma strlen_nul p : nul_ahead p → ∃ n, strlen p = Ok n ∧ (n ≤ length p)%nat.
Proof.
  induction p as [|c p IH]; intros Hp; [by apply elem_of_nil in Hp|]. simpl.
  destruct (Z.eqb_spec c 0); [exists O; split; [done|lia]|].
  destruct IH as (n' & -> & ?); [by eapply nul_ahead_cons|]. exists (S n'). split; [done|lia].
Qed.

Lemma sanitize_name_safe name : ∃ r, sanitize_name idna_map name = Ok r.
Proof.
  unfold sanitize_name. destruct (skip_spaces_word _ (nul_ahead_snoc name)) as (p & -> & Hp). run.
  destruct (strlen_nul p (proj1 Hp)) as (n & -> & Hn). run. destruct (Nat.ltb_spec 0 n); run; [|by eexists].
  destruct (trim_len_word p n Hp ltac:(lia)) as (k & -> & _). by eexists.
Qed.

(** The loader has a default virtual host. *)
Definition loader_ok (k : nat) (st : loader) : Prop := vhosts st ≠ [] ∧ Forall (vhost_ok k) (vhosts st).

Lemma vhost_add_ok k name reload : vhost_ok k (vhost_add name reload).
Proof.
  assert (groups_of (vhost_add name reload) = None) as Hg by reflexivity.
  unfold vhost_ok. rewrite Hg. simpl. split_and!; try done; try lia.
  all: destruct reload; apply map_Forall_empty.
Qed.

Lemma section_vhost_safe k l section reload : l ≠ [] → Forall (vhost_ok k) l →
  cwp (section_vhost idna_map l section reload)
    (λ o, match o with Some (l', i) => l' ≠ [] ∧ Forall (vhost_ok k) l' ∧ (i < length l')%nat | None => True end)
    (λ c, c = 1).
Proof.
  intros Hne Hl. unfold section_vhost. case_bool_decide.
  { simpl. split_and!; [done..|]. destruct l; [done|simpl; lia]. }
  destruct (negb _); [done|]. destruct (sanitize_name_safe (drop 6 section)) as [vname ->]. run.
  case_bool_decide; [done|]. destruct (find_name l vname) as [i|] eqn:Ef; simpl.
  - split_and!; [done..|]. unfold find_name in Ef. destruct (list_find _ l) as [[i' v]|] eqn:E; [|done].
    simplify_eq/=. apply list_find_Some in E as (Hi & _). by eapply lookup_lt_Some.
  - split_and!; [done| |lia]. apply Forall_cons. split; [apply vhost_add_ok|done].
Qed.

Lemma set_option_safe reload k st section name value : loader_ok k st → tidy value →
  (k + 1 < DEFAULT_CONFIG_ENTRIES)%nat →
  cwp (set_option getpwnam getgrnam idna_map reload st section name value)
    (loader_ok (if bool_decide (name = to_bytes "select-group") then k + 1 else k)) (λ c, c = 1).
Proof.
  intros [Hne Hl] Ht Hk. unfold set_option. destruct (default_vhost (vhosts st)) as [d|] eqn:Ed; [|by apply last_None in Ed].
  set (k' := if bool_decide _ then _ else _). assert (k ≤ k')%nat as Hkk by (unfold k'; case_bool_decide; lia).
  assert (∀ l, Forall (vhost_ok k) l → Forall (vhost_ok k') l) as Hle.
  { intros l H. eapply Forall_impl; [exact H|]. intros v Hv. by eapply vhost_ok_le. }
  apply cwp_bind. eapply cwp_mono; [by apply section_vhost_safe| |done]. intros o Ho. simpl in Ho.
  destruct o as [[l i]|]; [|simpl; split; [done|by apply Hle]]. destruct Ho as (Hne' & Hl' & Hi).
  unfold set_value. cbn [vhosts]. destruct (lookup_lt_is_Some_2 l i Hi) as [v Hv]. rewrite Hv.
  assert (∀ o, (match (if auth_init v then None else find_option perm_options name) with
                Some o => Some o | None => find_option conf_options name end) = Some o →
    known o ∧ name = to_bytes (o_name o)) as Hkn.
  { intros o. destruct (auth_init v); [intros H%find_option_known; unfold known; naive_solver|].
    destruct (find_option perm_options name) as [o'|] eqn:E.
    - intros [= ->]. apply find_option_known in E. unfold known. naive_solver.
    - intros H%find_option_known. unfold known. naive_solver. }
  destruct (match (if auth_init v then _ else _) with Some o => Some o | None => _ end) as [o|];
    [|simpl; split; [done|by apply Hle]].
  destruct (Hkn o eq_refl) as [Ho Hname]. apply cwp_bind.
  eapply cwp_mono; [apply (apply_option_safe k); [|done|done|done]| |done].
  { by eapply (Forall_lookup_1 (vhost_ok k)). }
  intros [st' v'] [Hst Hv']. simpl in Hst, Hv'. cbn [cwp]. unfold loader_ok. rewrite Hst. cbn [vhosts]. split.
  - rewrite <-length_zero_iff_nil, length_insert. lia.
  - apply Forall_insert; [by apply Hle|]. unfold k'. subst name.
    assert (bool_decide (to_bytes (o_name o) = to_bytes "select-group") = bool_decide (o_name o = "select-group"%string)) as ->; [|done].
    apply bool_decide_ext. split; [|by intros ->]. apply to_bytes_inj.
Qed.

(** How many groups a file selects. *)
Fixpoint selects (l : list item) : nat :=
  match l with
  | [] => O
  | IPair n _ :: l' => (if bool_decide (n = to_bytes "select-group") then 1 else 0) + selects l'
  | ISection _ :: l' => selects l'
  end.

Lemma set_options_safe reload k st section l : loader_ok k st → Forall value_ok l →
  (k + selects l < DEFAULT_CONFIG_ENTRIES - 1)%nat →
  cwp (set_options getpwnam getgrnam idna_map reload st section l) (loader_ok (k + selects l)) (λ c, c = 1).
Proof.
  intros Hst Hv. revert k st section Hst. induction Hv as [|it l Hit _ IH]; intros k st section Hst Hk; simpl.
  { by rewrite Nat.add_0_r. }
  destruct it as [n|n v]; [by apply IH|]. simpl in Hk. apply cwp_bind.
  eapply cwp_mono; [apply (set_option_safe _ k); [done|done|unfold DEFAULT_CONFIG_ENTRIES in *; lia]| |done].
  intros st' Hst'. simpl in Hst'. case_bool_decide; simpl in *.
  - replace (k + S (selects l))%nat with (k + 1 + selects l)%nat by lia. apply IH; [done|lia].
  - by apply IH.
Qed.
End safety.

(** Reading a configuration file of options and sections whose values
    are not blank and that selects less than 95 groups stays within every
    buffer and array: it is read, or the program exits. *)
Theorem config_file_safe getpwnam getgrnam idna_map fopen reload st file l k :
  fopen file = Some (render_items l) → Forall (item_ok [59]) l → Forall value_ok l →
  loader_ok k st → (k + selects l < DEFAULT_CONFIG_ENTRIES - 1)%nat →
  cwp ('(_, st) ← read_file getpwnam getgrnam idna_map fopen reload st file; Ok st)
    (loader_ok (k + selects l)) (λ c, c = 1).
Proof. intros. rewrite (read_items _ _ _ _ _ _ _ l) by done. by apply set_options_safe. Qed.

Module ConfWitnesses.
Definition items : list item :=
  [IPair (to_bytes "tcp-port") (to_bytes "443"); IPair (to_bytes "run-as-user") (to_bytes "nobody");
   IPair (to_bytes "banner") (to_bytes "Welcome to us"); IPair (to_bytes "select-group") (to_bytes "g1[Group 1]");
   ISection (to_bytes "vhost:www.example.com"); IPair (to_bytes "ipv4-network") (to_bytes "10.0.0.0/8")].
Definition users (name : list Z) : option Z := if bool_decide (name = to_bytes "nobody") then Some 99 else None.
Definition empty_loader : loader := {| vhosts := [vhost_add None false]; comp_methods := []; pid_file := [] |}.
Definition files (name : list Z) : option (list Z) := Some (render_items items).

Lemma config_file_roundtrip_witness :
  ('(_, st) ← read_file users users (λ n, n) files false empty_loader (to_bytes "f"); Ok st) =
    set_options users users (λ n, n) false empty_loader [] items.
Proof. apply config_file_roundtrip; [reflexivity|lines_ok|lines_ok]. Defined.

Lemma config_file_safe_witness :
  cwp ('(_, st) ← read_file users users (λ n, n) files false empty_loader (to_bytes "f"); Ok st)
    (loader_ok (0 + selects items)) (λ c, c = 1).
Proof.
  apply (config_file_safe users users (λ n, n) files false empty_loader (to_bytes "f") items 0);
    [reflexivity|lines_ok|lines_ok| |vm_compute; lia].
  split; [discriminate|]. apply List.Forall_cons; [apply vhost_add_ok|apply List.Forall_nil].
Defined.

Example items_read :
  match read_file users users (λ n, n) files false empty_loader (to_bytes "f") with
  | Ok (_, st) => map (λ v, (num "port" (perm v), num "uid" (perm v), str "banner" (config v), texts "group_list" (config v),
                             str "network.ipv4" (config v))) (vhosts st)
  | _ => []
  end = [(0, 0, None, [], Some (to_bytes "10.0.0.0")); (443, 99, Some (to_bytes "Welcome to us"), [to_bytes "g1"], None)].
Proof. vm_compute. reflexivity. Qed.
End ConfWitnesses.
