(* ===== verification/ConfTheorems.v ===== *)
(** * What holds of a configuration that is loaded (src/config.c) *)

From stdpp Require Import gmap strings.
From S2P Require Import Prelude CString CText Html Ini IpUtil HttpReq PlainAuth ConfPorts ConfSub.
From S2P Require Import ConfValue Config ConfCheck.

(** Takes a computation that succeeded apart. *)
Ltac ok_inv :=
  repeat match goal with
  | H : (_ ≫= _) = Ok _ |- _ => apply bind_Ok in H as (? & ? & H)
  | H : Ok _ = Ok _ |- _ => progress simplify_eq
  | H : Err _ = Ok _ |- _ => discriminate H
  | H : UB = Ok _ |- _ => discriminate H
  | H : Fuel = Ok _ |- _ => discriminate H
  | H : or_exit ?b = Ok _ |- _ => unfold or_exit in H; destruct b eqn:?; [discriminate H|clear H]
  | H : (let '(_, _) := ?p in _) = Ok _ |- _ => destruct p
  end.

Ltac goal_cases :=
  repeat match goal with |- context [match ?x with _ => _ end] => destruct x eqn:? end.

(** Facts from guards that did not hold. *)
Ltac bool_facts :=
  repeat match goal with
  | H : _ = false |- _ =>
    progress rewrite ?andb_false_iff, ?orb_false_iff, ?negb_false_iff, ?bool_decide_eq_true, ?bool_decide_eq_false,
      ?Nat.eqb_neq, ?Nat.eqb_eq, ?Nat.ltb_ge, ?Z.eqb_neq, ?Z.eqb_eq, ?Z.leb_gt in H
  end.

(** ** The parser keeps what its handler keeps *)

Section keeps.
Context (stop : bool) (pre : list Z) {U : Type}.
Context (handler : U → list Z → list Z → list Z → nat → cres (Z * U)).
Context (R : U → U → Prop) `{!PreOrder R}.
Hypothesis HR : ∀ u s n b v r u', handler u s n b v = Ok (r, u') → R u u'.

Lemma fail_keeps_user (st : ini_st U) : user (fail st) = user st.
Proof. unfold fail. by case_match. Qed.

Lemma call_keeps st n b v st' : call handler st n b v = Ok st' → R (user st) (user st').
Proof.
  unfold call. intros H. ok_inv. case_match; rewrite ?fail_keeps_user; by eapply HR.
Qed.

Lemma line_keeps st b st' : ini_line pre handler st b = Ok st' → R (user st) (user st').
Proof.
  unfold ini_line, ini_section, ini_pair. intros H. ok_inv. repeat case_match; ok_inv; rewrite ?fail_keeps_user;
    try done; repeat case_match; ok_inv; rewrite ?fail_keeps_user; try done; by eapply call_keeps in H.
Qed.

Lemma loop_keeps fuel st f st' : ini_loop stop pre handler fuel st f = Ok st' → R (user st) (user st').
Proof.
  revert st f. induction fuel as [|fuel IH]; intros st [|c f] H; simpl in H; ok_inv; try done.
  case_match; ok_inv; [by eapply line_keeps|]. etrans; [by eapply line_keeps|by eapply IH].
Qed.

Lemma parse_keeps f u r u' : ini_parse stop pre handler f u = Ok (r, u') → R u u'.
Proof.
  unfold ini_parse, ini_parse_stream. destruct f; intros H; ok_inv; [|done]. by eapply loop_keeps in H0.
Qed.
End keeps.

(** ** A reload keeps what is set up *)

(** A structure in which only strings that were not set can change. *)
Definition fields_le (p p' : fields) : Prop :=
  nums p' = nums p ∧ lists p' = lists p ∧ strs p ⊆ strs p'.

#[export] Instance fields_le_pre : PreOrder fields_le.
Proof.
  split; [by intros p|]. intros p1 p2 p3 (Hn & Hl & Hs) (Hn' & Hl' & Hs'). split_and!; [congruence..|by etrans].
Qed.

(** A virtual host that is set up stays what it is. *)
Definition setup_kept (v v' : vhost) : Prop :=
  v_name v' = v_name v ∧
  (auth_init v = true →
   auth_init v' = true ∧ auths v' = auths v ∧ acct v' = acct v ∧ sup_config_radius v' = sup_config_radius v ∧
   fields_le (perm v) (perm v')).

#[export] Instance setup_kept_pre : PreOrder setup_kept.
Proof.
  split; [by intros v|]. intros v1 v2 v3 [Hn H] [Hn' H']. split; [congruence|]. intros Hi.
  destruct (H Hi) as (Hi2 & ? & ? & ? & ?). destruct (H' Hi2) as (? & ? & ? & ? & ?).
  split_and!; [done|congruence..|by etrans].
Qed.

(** All virtual hosts are there, in their order, after the new ones. *)
Definition vhosts_kept (l l' : list vhost) : Prop := ∃ fresh old, l' = fresh ++ old ∧ Forall2 setup_kept l old.

#[export] Instance vhosts_kept_pre : PreOrder vhosts_kept.
Proof.
  split; [intros l; by exists [], l|]. intros l1 l2 l3 (f & o & -> & H) (f' & o' & -> & H').
  apply Forall2_app_inv_l in H' as (o1 & o2 & _ & H' & ->).
  exists (f' ++ o1), o2. rewrite <- (assoc_L (++)). split; [done|]. by etrans.
Qed.

Lemma vhosts_kept_insert l i v v' : l !! i = Some v → setup_kept v v' → vhosts_kept l (<[i := v']> l).
Proof.
  intros Hi Hv. exists [], (<[i := v']> l). split; [done|].
  rewrite <- (list_insert_id l i v) at 1 by done. by apply Forall2_insert.
Qed.

Section kept.
Context (getpwnam getgrnam : list Z → option Z) (idna_map : list Z → list Z).
Context (sha1_file : list Z → option (list Z)).
Context (getaddrinfo : kkdcp_url → option (list Z)).
Context (fopen : list Z → option (list Z)).

(** The options that are read again do not write what is set up. *)
Lemma conf_options_place name o : find_option conf_options name = Some o → o_place o ≠ PERM.
Proof.
  assert (forallb (λ o, match o_place o with PERM => false | _ => true end) conf_options = true) as H
    by (vm_compute; reflexivity).
  intros [Ho _]%List.find_some Hp. rewrite List.forallb_forall in H. apply H in Ho. by rewrite Hp in Ho.
Qed.

Lemma set_place_kept p c v : (auth_init v = true → p ≠ PERM) → setup_kept v (set_place p c v).
Proof. intros Hp. split; [by destruct p|]. intros Hi. specialize (Hp Hi). by destruct p. Qed.

Lemma apply_option_kept st d v o value st' v' :
  apply_option getpwnam getgrnam st d v o value = Ok (st', v') → (auth_init v = true → o_place o ≠ PERM) →
  setup_kept v v' ∧ vhosts st' = vhosts st.
Proof.
  unfold apply_option, select_group. intros H Hp. destruct (o_global o && _).
  { ok_inv. split; [by apply set_place_kept|done]. }
  destruct (o_action o); ok_inv; try (split; [by apply set_place_kept|done]); try done.
  - case_match; by ok_inv.
  - by case_match.
Qed.

Lemma section_vhost_kept l section reload l' i :
  section_vhost idna_map l section reload = Ok (Some (l', i)) → vhosts_kept l l'.
Proof.
  unfold section_vhost. intros H. repeat (case_match || ok_inv); try done.
  eexists [_], _. split; [done|done].
Qed.

Lemma handler_kept reload st section name b value r st' :
  cfg_ini_handler getpwnam getgrnam idna_map reload st section name b value = Ok (r, st') →
  vhosts_kept (vhosts st) (vhosts st').
Proof.
  unfold cfg_ini_handler, set_value. intros H. destruct (default_vhost _) as [d|]; [|done]. ok_inv.
  destruct x as [[l i]|]; ok_inv; [|done]. apply section_vhost_kept in H0. etrans; [exact H0|].
  destruct x as [val|]; ok_inv; [|done]. cbn [vhosts] in *. destruct (l !! i) as [v|] eqn:Ev; [|done].
  case_match eqn:Eo; ok_inv; [|done].
  apply apply_option_kept in H as [Hv Hl].
  - simpl. rewrite Hl. by eapply vhosts_kept_insert.
  - intros Hi. rewrite Hi in Eo. by eapply conf_options_place.
Qed.

Lemma read_file_kept reload st file r st' :
  read_file getpwnam getgrnam idna_map fopen reload st file = Ok (r, st') → vhosts_kept (vhosts st) (vhosts st').
Proof.
  assert (PreOrder (λ st st', vhosts_kept (vhosts st) (vhosts st'))) by (split; [by intros ?|intros ???; by etrans]).
  intros Hr. eapply (parse_keeps _ _ _ (λ st st', vhosts_kept (vhosts st) (vhosts st'))); [|exact Hr].
  intros u s n b v r' u'. apply handler_kept.
Qed.
End kept.

(** ** What is accepted *)

(** A structure in which only some numbers and strings differ. *)
Definition same_but (ns ss : list string) (c c' : fields) : Prop :=
  lists c' = lists c ∧ (∀ f, f ∉ ns → nums c' !! f = nums c !! f) ∧ (∀ f, f ∉ ss → strs c' !! f = strs c !! f).

Lemma same_but_refl ns ss c : same_but ns ss c c.
Proof. done. Qed.
Lemma same_but_num ns ss c c' f x : f ∈ ns → same_but ns ss c c' → same_but ns ss c (set_num f x c').
Proof.
  intros Hf (Hl & Hn & Hs). split_and!; [done| |done]. intros g Hg. simpl.
  rewrite lookup_insert_ne by congruence. by apply Hn.
Qed.
Lemma same_but_if ns ss c c' (b : bool) f x : f ∈ ns → same_but ns ss c c' →
  same_but ns ss c (if b then set_num f x c' else c').
Proof. intros ??. destruct b; [by apply same_but_num|done]. Qed.
Lemma same_but_else ns ss c c' (b : bool) f x : f ∈ ns → same_but ns ss c c' →
  same_but ns ss c (if b then c' else set_num f x c').
Proof. intros ??. destruct b; [done|by apply same_but_num]. Qed.
Lemma same_but_str ns ss c c' f x : f ∈ ss → same_but ns ss c c' → same_but ns ss c (set_str f x c').
Proof.
  intros Hf (Hl & Hn & Hs). split_and!; [done|done|]. intros g Hg. simpl.
  rewrite lookup_insert_ne by congruence. by apply Hs.
Qed.
Lemma same_but_copy ns ss c c' f d : f ∈ ss → same_but ns ss c c' → same_but ns ss c (copy_str f d c').
Proof.
  intros Hf (Hl & Hn & Hs). split_and!; [done|done|]. intros g Hg. simpl.
  case_match; [rewrite lookup_insert_ne by congruence|rewrite lookup_delete_ne by congruence]; by apply Hs.
Qed.

Lemma fields_le_str p p' f x : str f p = None → fields_le p' p → fields_le p' (set_str f x p).
Proof. intros Hf (Hn & Hl & Hs). split_and!; [done..|]. etrans; [exact Hs|]. by apply insert_subseteq. Qed.

Lemma default_udp_host_le p : fields_le p (default_udp_host p).
Proof. unfold default_udp_host. goal_cases; try done. by apply fields_le_str. Qed.
Lemma default_occtl_le p : fields_le p (default_occtl_file p).
Proof. unfold default_occtl_file. goal_cases; try done. by apply fields_le_str. Qed.
Lemma hash_cert_le sha1 p : fields_le p (hash_cert sha1 p).
Proof. unfold hash_cert. goal_cases; try done. by apply fields_le_str. Qed.

Section accepted.
Context (sha1_file : list Z → option (list Z)).
Abbreviation derive := (derive sha1_file).

Lemma required_inv v d v' : check_required v d = Ok v' →
  v' = {| v with perm := perm v' |} ∧ fields_le (perm v) (perm v') ∧
  from_option a_enabled false (head (auths v)) = true ∧
  texts "cert" (perm v) ≠ [] ∧ length (texts "cert" (perm v)) = length (texts "key" (perm v)) ∧
  (is_Some (str "network.ipv4" (config v)) ∨ is_Some (str "network.ipv6" (config v))) ∧
  (is_Some (str "network.ipv4" (config v)) → is_Some (str "network.ipv4_netmask" (config v))) ∧
  (is_Some (str "network.ipv6" (config v)) → num "network.ipv6_prefix" (config v) ≠ 0) ∧
  (length (default [] (str "banner" (config v))) ≤ MAX_BANNER_SIZE)%nat.
Proof.
  unfold check_required. intros H. ok_inv.
  assert (v' = {| v with perm := perm v' |} ∧ fields_le (perm v) (perm v')) as [Hv Hle].
  { destruct (str "socket_file_prefix" (perm v)) eqn:Es; [ok_inv; by destruct v'|].
    destruct (v_name v), d; ok_inv. simpl. split; [done|]. unfold copy_str.
    destruct (str "socket_file_prefix" (perm v0)); simpl; split_and!; try done; simpl.
    - by apply insert_subseteq.
    - by rewrite delete_id. }
  rewrite Hv in *. cbn [config] in *. clear Hv.
  assert (lists (perm v') = lists (perm v)) as Hl by apply Hle. unfold texts in *. cbn [perm] in *. rewrite Hl in *.
  bool_facts. assert (∀ {A} (l : list A), length l ≠ 0%nat → l ≠ []) as Hnn by by intros A [].
  split_and!; try done; try (apply Hnn; tauto); try tauto; try lia.
Qed.

Lemma cert_inv v v' : check_cert v = Ok v' →
  v' = {| v with config := config v' |} ∧ same_but ["cert_req"%string] [] (config v) (config v') ∧
  (let req := cert_request (auths v) (num "cisco_client_compat" (config v)) in
   req ≠ 0 → num "cert_req" (config v') = req) ∧
  (num "cert_req" (config v') ≠ 0 → is_Some (str "cert_user_oid" (config v'))) .
Proof.
  unfold check_cert. intros H. ok_inv. cbn [config]. split_and!.
  - done.
  - case_match; [done|]. apply same_but_num; [set_solver|done].
  - cbv zeta. intros Hr. rewrite (proj2 (Z.eqb_neq _ _) Hr). unfold num. simpl. by rewrite lookup_insert_eq.
  - intros Hr. rewrite (proj2 (Z.eqb_neq _ _) Hr) in H0. by destruct (str "cert_user_oid" _).
Qed.

Definition derived_nums : list string :=
  ["mobile_dpd"; "dtls_legacy"; "dtls_psk"; "mobile_idle_timeout"; "no_compress_limit"]%string.
Definition derived_strs : list string := ["xml_config_hash"; "priorities"]%string.

Lemma num_set f g x c : num f (set_num g x c) = if decide (f = g) then x else num f c.
Proof. unfold num. simpl. case_decide; subst; [by rewrite lookup_insert_eq|by rewrite lookup_insert_ne by done]. Qed.

Definition derived (c c' : fields) : Prop := same_but derived_nums derived_strs c c'.
#[local] Instance derived_pre : PreOrder derived.
Proof.
  split; [by intros c|]. intros c1 c2 c3 (Hl & Hn & Hs) (Hl' & Hn' & Hs'). split_and!; [congruence| |].
  - intros f Hf. by rewrite Hn', Hn.
  - intros f Hf. by rewrite Hs', Hs.
Qed.

Ltac derived := first [apply same_but_if|apply same_but_else]; [by compute_done|done].
Lemma default_mobile_dpd_derived c : derived c (default_mobile_dpd c).
Proof. derived. Qed.
Lemma compat_legacy_derived c : derived c (compat_legacy c).
Proof. derived. Qed.
Lemma psk_off_derived p c : derived c (psk_off p c).
Proof. derived. Qed.
Lemma default_mobile_idle_derived c : derived c (default_mobile_idle c).
Proof. derived. Qed.
Lemma raise_limit_derived c : derived c (raise_limit c).
Proof. derived. Qed.
Lemma default_priorities_derived d c : derived c (default_priorities d c).
Proof.
  unfold default_priorities. goal_cases; [done|apply same_but_copy|apply same_but_str]; try done; set_solver.
Qed.

Lemma derived_num f c c' : derived c c' → f ∉ derived_nums → num f c' = num f c.
Proof. intros (_ & Hn & _) Hf. unfold num. by rewrite Hn. Qed.

Lemma raise_limit_num f c : f ≠ "no_compress_limit"%string → num f (raise_limit c) = num f c.
Proof. intros Hf. unfold raise_limit. case_match; [|done]. rewrite num_set. by case_decide. Qed.
Lemma default_mobile_idle_num f c : f ≠ "mobile_idle_timeout"%string → num f (default_mobile_idle c) = num f c.
Proof. intros Hf. unfold default_mobile_idle, copy_num_as. case_match; [|done]. rewrite num_set. by case_decide. Qed.

Lemma derive_inv v d v' : derive v d = Ok v' →
  v' = {| v with perm := perm v'; config := config v' |} ∧ fields_le (perm v) (perm v') ∧
  derived (config v) (config v') ∧
  (num "network.ipv6_prefix" (config v') ≠ 0 →
   num "network.ipv6_prefix" (config v') < num "network.ipv6_subnet_prefix" (config v')) ∧
  MIN_NO_COMPRESS_LIMIT ≤ num "no_compress_limit" (config v') ∧
  (num "match_dtls_and_tls" (config v') ≠ 0 → num "dtls_legacy" (config v') = 0).
Proof.
  unfold ConfCheck.derive. intros H. ok_inv. cbn [config perm].
  assert (derived (config v) (default_priorities d x)) as Hc1.
  { transitivity x; [|apply default_priorities_derived]. destruct (str "xml_config_file" (config v)); ok_inv; [|done].
    apply same_but_str; [set_solver|done]. }
  assert (derived (default_priorities d x) (raise_limit (default_mobile_idle
    (psk_off (default_occtl_file (hash_cert sha1_file (perm v))) (compat_legacy (default_mobile_dpd (default_priorities d x))))))) as Hd.
  { etrans; [apply default_mobile_dpd_derived|]. etrans; [apply compat_legacy_derived|].
    etrans; [apply psk_off_derived|]. etrans; [apply default_mobile_idle_derived|]. apply raise_limit_derived. }
  split_and!.
  - done.
  - etrans; [apply hash_cert_le|]. etrans; [apply default_occtl_le|]. apply default_udp_host_le.
  - by etrans.
  - rewrite !(derived_num _ _ _ Hd) by compute_done. bool_facts. intuition lia.
  - unfold raise_limit. match goal with |- context [?n <? _] => destruct (Z.ltb_spec n MIN_NO_COMPRESS_LIMIT) end;
      [by rewrite num_set|done].
  - rewrite !raise_limit_num, !default_mobile_idle_num by done. bool_facts. intuition lia.
Qed.

(** A route that was checked. *)
Definition checked_route (r : list Z) : Prop := ∃ r0 s, ip_route_sanity_check true r0 = Some s ∧ r = to_bytes s.

Lemma check_routes_checked pre rest l : check_routes pre rest = Ok l → Forall checked_route pre → Forall checked_route l.
Proof.
  revert pre. induction rest as [|r rest IH]; intros pre H Hd; simpl in H; ok_inv; [done|].
  destruct (ip_route_sanity_check true (of_bytes r)) as [s|] eqn:E; [|done].
  destruct (_ || _); ok_inv; [done|]. eapply IH; [exact H|]. apply Forall_app. split; [done|].
  apply Forall_singleton. by eexists _, _.
Qed.

Lemma check_no_routes_checked l l' : check_no_routes l = Ok l' → Forall checked_route l'.
Proof.
  revert l'. induction l as [|r l IH]; intros l' H; simpl in H; ok_inv; [done|].
  destruct (ip_route_sanity_check true (of_bytes r)) as [s|] eqn:E; [|done]. ok_inv.
  apply Forall_cons. split; [by eexists _, _|by apply IH].
Qed.

Lemma texts_set_texts f g l c : texts f (set_texts g l c) = if decide (f = g) then (if lists c !! g is Some _ then l else []) else texts f c.
Proof.
  unfold texts, set_texts. destruct (lists c !! g) eqn:E; simpl.
  - case_decide; subst; [by rewrite lookup_insert_eq|by rewrite lookup_insert_ne].
  - case_decide; subst; [by rewrite E|done].
Qed.

Lemma networks_inv v v' : check_networks v = Ok v' →
  v' = {| v with config := config v' |} ∧ nums (config v') = nums (config v) ∧ strs (config v') = strs (config v) ∧
  Forall checked_route (texts "network.routes" (config v')) ∧
  Forall checked_route (texts "network.no_routes" (config v')) ∧
  to_bytes "local" ∉ texts "network.dns" (config v').
Proof.
  unfold check_networks. intros H. ok_inv. cbn [config]. split_and!.
  - done.
  - unfold set_texts. by repeat case_match.
  - unfold set_texts. by repeat case_match.
  - rewrite !texts_set_texts. simpl. case_match; [|done]. by eapply check_routes_checked.
  - rewrite !texts_set_texts. simpl. case_match; [|done]. by eapply check_no_routes_checked.
  - rewrite !texts_set_texts. simpl. intros Hin.
    assert (existsb (λ d, bool_decide (d = to_bytes "local")) (texts "network.dns" (config v)) = true); [|congruence].
    apply List.existsb_exists. eexists. split; [by apply list_elem_of_In|]. by apply bool_decide_eq_true_2.
Qed.

(** The methods of a virtual host. *)
Definition methods_ok (l : list auth_st) : Prop :=
  (0 < length l < MAX_AUTH_METHODS)%nat ∧ Forall (λ a, a_enabled a = true) l.

(** What holds of a virtual host that was accepted. *)
Record accepted (v : vhost) : Prop := {
  acc_init : auth_init v = true;
  acc_methods : methods_ok (auths v);
  acc_certs : texts "cert" (perm v) ≠ [] ∧ length (texts "cert" (perm v)) = length (texts "key" (perm v));
  acc_network : is_Some (str "network.ipv4" (config v)) ∨ is_Some (str "network.ipv6" (config v));
  acc_netmask : is_Some (str "network.ipv4" (config v)) → is_Some (str "network.ipv4_netmask" (config v));
  acc_prefix : is_Some (str "network.ipv6" (config v)) → num "network.ipv6_prefix" (config v) ≠ 0;
  acc_subnet : num "network.ipv6_prefix" (config v) ≠ 0 →
    num "network.ipv6_prefix" (config v) < num "network.ipv6_subnet_prefix" (config v);
  acc_banner : (length (default [] (str "banner" (config v))) ≤ MAX_BANNER_SIZE)%nat;
  acc_request : existsb is_cert (auths v) = true →
    num "cert_req" (config v) ≠ 0 ∧ is_Some (str "cert_user_oid" (config v));
  acc_require a : auths v = [a] → is_cert a = true → num "cisco_client_compat" (config v) = 0 →
    num "cert_req" (config v) = GNUTLS_CERT_REQUIRE;
  acc_limit : MIN_NO_COMPRESS_LIMIT ≤ num "no_compress_limit" (config v);
  acc_ciphers : num "match_dtls_and_tls" (config v) ≠ 0 → num "dtls_legacy" (config v) = 0;
  acc_routes : Forall checked_route (texts "network.routes" (config v));
  acc_no_routes : Forall checked_route (texts "network.no_routes" (config v));
  acc_dns : to_bytes "local" ∉ texts "network.dns" (config v) }.

Lemma cert_request_some l compat : existsb is_cert l = true → cert_request l compat ≠ 0.
Proof.
  unfold cert_request. intros H. destruct l as [|a [|a' l]]; [done| |by rewrite H].
  simpl in H. rewrite orb_false_r in H. rewrite H. by case_match.
Qed.

Lemma check_cfg_accepted v d v' : check_cfg sha1_file v d = Ok v' → auth_init v = true → methods_ok (auths v) →
  accepted v' ∧ setup_kept v v'.
Proof.
  unfold check_cfg. intros H Hi Hm. ok_inv.
  apply required_inv in H0 as (E0 & Hle0 & Hen & Hc & Hk & Hnet & Hmask & Hpre & Hban).
  apply cert_inv in H1 as (E1 & (Hl1 & Hn1 & Hs1) & Hreq & Hoid).
  apply derive_inv in H2 as (E2 & Hle2 & (Hl2 & Hn2 & Hs2) & Hsub & Hlim & Hdtls).
  apply networks_inv in H as (E3 & Hn3 & Hs3 & Hr & Hnr & Hdns).
  assert (fields_le (perm v) (perm v')) as Hle.
  { rewrite E3. cbn [perm]. etrans; [exact Hle0|]. rewrite E1 in Hle2. exact Hle2. }
  assert (config x = config v ∧ auths x = auths v) as [Ec Ea] by by rewrite E0.
  assert (auths v' = auths v ∧ auth_init v' = auth_init v ∧ v_name v' = v_name v ∧ acct v' = acct v ∧
    sup_config_radius v' = sup_config_radius v) as (Ha & Hi' & ? & ? & ?)
    by (rewrite E3; cbn; rewrite E2; cbn; rewrite E1; cbn; by rewrite E0).
  rewrite Ec in *. rewrite Ea in *.
  assert (∀ f, f ∉ derived_strs → str f (config v') = str f (config v)) as Hstr.
  { intros f Hf. unfold str. rewrite Hs3, Hs2, Hs1 by (done || set_solver). done. }
  assert (∀ f, f ∉ derived_nums → num f (config v') = num f (config x0)) as Hnum0.
  { intros f Hf. unfold num. by rewrite Hn3, Hn2. }
  assert (∀ f, f ∉ derived_nums → f ≠ "cert_req"%string → num f (config v') = num f (config v)) as Hnum.
  { intros f Hf Hf'. rewrite Hnum0 by done. unfold num. rewrite Hn1 by set_solver. done. }
  assert (∀ f, num f (config v') = num f (config x1)) as Hn4 by (intros f; unfold num; by rewrite Hn3).
  split; [|split; [done|by rewrite Hi, Hi'; intros _]].
  destruct Hle as (Hpn & Hpl & Hps).
  split; rewrite ?Ha, ?Hi'; unfold texts in *; rewrite ?Hpl; try done.
  - by rewrite !Hstr by compute_done.
  - by rewrite !Hstr by compute_done.
  - rewrite !Hstr, !Hnum by compute_done. done.
  - by rewrite !Hn4.
  - by rewrite !Hstr by compute_done.
  - intros Hx. apply (cert_request_some _ (num "cisco_client_compat" (config v))) in Hx.
    rewrite Hnum0, Hstr by compute_done. specialize (Hreq Hx). split; [congruence|].
    destruct Hoid as [o Ho]; [congruence|]. exists o. unfold str in *. rewrite <- Ho. symmetry. apply Hs1. set_solver.
  - intros a Hax Hcert Hz. rewrite Hnum0 by compute_done. rewrite (Hnum "cisco_client_compat"%string) in Hz by compute_done.
    rewrite Hz, Hax in Hreq. simpl in Hreq. rewrite Hcert in Hreq. simpl in Hreq. by apply Hreq.
  - by rewrite Hn4.
  - by rewrite !Hn4.
Qed.

(** *** The remaining checks *)

Lemma str_set f g x c : str f (set_str g x c) = if decide (f = g) then Some x else str f c.
Proof. unfold str. simpl. case_decide; subst; [by rewrite lookup_insert_eq|by rewrite lookup_insert_ne]. Qed.
Lemma str_copy f g d c : str f (copy_str g d c) = if decide (f = g) then str g d else str f c.
Proof.
  unfold str, copy_str. simpl. destruct (str g d) eqn:E; unfold str in E; simpl; case_decide; subst;
    rewrite ?lookup_insert_eq, ?lookup_delete_eq, ?lookup_insert_ne, ?lookup_delete_ne by done; done.
Qed.

(** What is set in the permanent settings while they are checked. *)
Definition derived_perm : list string :=
  ["socket_file_prefix"; "cert_hash"; "occtl_socket_file"; "udp_listen_host"]%string.

Lemma required_more v d v' : check_required v d = Ok v' →
  (∀ f, f ∉ derived_perm → str f (perm v') = str f (perm v)) ∧
  (d = None → num "port" (perm v') ≠ 0 ∨ is_Some (str "unix_conn_file" (perm v'))) ∧
  ((∀ d', d = Some d' → is_Some (str "socket_file_prefix" (perm d'))) → is_Some (str "socket_file_prefix" (perm v'))).
Proof.
  unfold check_required. intros H. ok_inv.
  destruct (str "socket_file_prefix" (perm v)) as [sp|] eqn:Es; [|destruct (v_name v), d]; ok_inv;
    bool_facts; (split_and!; [|intros Hd|intros Hd]); cbn [perm]; try done; try tauto.
  - subst d. match goal with H : _ ∨ is_Some None |- _ => destruct H as [?|[? [=]]] end. done.
  - intros f Hf. rewrite str_copy, decide_False; [done|]. intros ->. by apply Hf; left.
  - rewrite str_copy, decide_True by done. by apply Hd.
Qed.

Lemma cert_more v v' : check_cert v = Ok v' → perm v' = perm v ∧
  (num "cert_req" (config v') ≠ 0 → ∃ oid, str "cert_user_oid" (config v') = Some oid ∧
     (c_isdigit (List.hd 0 oid) = true ∨ oid = to_bytes "SAN(rfc822name)")) ∧
  (is_Some (str "unix_conn_file" (perm v')) → num "cert_req" (config v') ≠ 0 →
     num "listen_proxy_proto" (config v') ≠ 0).
Proof.
  unfold check_cert. intros H. ok_inv. cbn [config perm]. split_and!; [done| |].
  - intros Hr. rewrite (proj2 (Z.eqb_neq _ _) Hr) in H0. destruct (str "cert_user_oid" _) as [oid|]; [|done].
    exists oid. ok_inv. bool_facts. tauto.
  - intros Hu Hr. bool_facts. tauto.
Qed.

Lemma derive_perm_str p f : f ∉ derived_perm → str f (default_udp_host (default_occtl_file (hash_cert sha1_file p))) = str f p.
Proof.
  intros Hf. assert (∀ g x q, g ∈ derived_perm → str f (set_str g x q) = str f q) as Hset.
  { intros g x q Hg. rewrite str_set, decide_False; [done|]. by intros ->. }
  unfold default_udp_host. goal_cases; rewrite ?Hset by compute_done;
    unfold default_occtl_file; goal_cases; rewrite ?Hset by compute_done;
    unfold hash_cert; goal_cases; rewrite ?Hset by compute_done; done.
Qed.

Lemma psk_off_num f p c : f ≠ "dtls_psk"%string → num f (psk_off p c) = num f c.
Proof. intros Hf. unfold psk_off. destruct (bool_decide (is_Some (str "unix_conn_file" p))); [|done]. rewrite num_set. by case_decide. Qed.

Lemma derive_more v d v' : derive v d = Ok v' →
  perm v' = default_udp_host (default_occtl_file (hash_cert sha1_file (perm v))) ∧
  (is_Some (str "xml_config_file" (config v)) → is_Some (str "xml_config_hash" (config v'))) ∧
  ((∀ d', d = Some d' → is_Some (str "priorities" (config d'))) → is_Some (str "priorities" (config v'))) ∧
  (v_name v = None → default [] (str "network.name" (config v')) ≠ []) ∧
  (num "cisco_client_compat" (config v) ≠ 0 → num "dtls_legacy" (config v') = 1) ∧
  (is_Some (str "unix_conn_file" (perm v)) → num "dtls_psk" (config v') = 0).
Proof.
  unfold ConfCheck.derive. intros H. ok_inv. cbn [config perm].
  assert (∀ f c p, str f (raise_limit (default_mobile_idle (psk_off p (compat_legacy (default_mobile_dpd c))))) = str f c) as Hs.
  { intros f c p. unfold str. f_equal. unfold raise_limit, default_mobile_idle, psk_off, compat_legacy, default_mobile_dpd, copy_num_as.
    by repeat case_match. }
  assert (str "unix_conn_file" (default_occtl_file (hash_cert sha1_file (perm v))) = str "unix_conn_file" (perm v)) as Hu.
  { rewrite <-(derive_perm_str (perm v) "unix_conn_file"%string) by compute_done. unfold default_udp_host. goal_cases; try done.
    by rewrite str_set. }
  assert (num "cisco_client_compat" (default_mobile_dpd (default_priorities d x)) = num "cisco_client_compat" (config v)) as Hc.
  { rewrite (derived_num _ _ _ (default_mobile_dpd_derived _)) by compute_done.
    rewrite (derived_num _ _ _ (default_priorities_derived d x)) by compute_done.
    destruct (str "xml_config_file" (config v)); by ok_inv. }
  rewrite !Hs, !raise_limit_num, !default_mobile_idle_num by done. split_and!.
  - done.
  - intros [f Hf]. rewrite Hf in *. ok_inv. unfold default_priorities. goal_cases; rewrite ?str_copy, ?str_set; by eexists.
  - intros Hd. unfold default_priorities. destruct (str "priorities" x) eqn:E; [by rewrite E|].
    destruct d as [d|]; [rewrite str_copy, decide_True by done; by apply Hd|rewrite str_set, decide_True by done; by eexists].
  - bool_facts. intros Hn. rewrite Hn in *. destruct Heqb0 as [[? Hf]|]; [done|done].
  - intros Hx. rewrite psk_off_num by done. unfold compat_legacy. rewrite Hc, (proj2 (Z.eqb_neq _ _) Hx). by rewrite num_set.
  - intros Hx. unfold psk_off. rewrite Hu, bool_decide_eq_true_2 by done. by rewrite num_set.
Qed.

Lemma networks_more v v' : check_networks v = Ok v' → perm v' = perm v ∧
  (is_Some (str "per_user_dir" (config v')) ∨ is_Some (str "per_group_dir" (config v')) → sup_config_radius v' = false).
Proof.
  intros H. pose proof (networks_inv v v' H) as (E & _ & Hs & _). unfold check_networks in H. ok_inv. split; [done|].
  cbn [sup_config_radius]. unfold str in *. rewrite Hs. bool_facts.
  match goal with H : _ ∨ sup_config_radius v = false |- _ => destruct H as [[]|?] end; [|done]. tauto.
Qed.

(** What holds of a virtual host after all checks; [first] is the default
    virtual host. *)
Record checked (first : bool) (v : vhost) : Prop := {
  ck_accepted : accepted v;
  ck_socket : is_Some (str "socket_file_prefix" (perm v));
  ck_port : first = true → num "port" (perm v) ≠ 0 ∨ is_Some (str "unix_conn_file" (perm v));
  ck_cert : existsb is_cert (auths v) = true →
    num "cert_req" (config v) = if bool_decide (length (auths v) = 1%nat ∧ num "cisco_client_compat" (config v) = 0)
                                then GNUTLS_CERT_REQUIRE else GNUTLS_CERT_REQUEST;
  ck_oid : num "cert_req" (config v) ≠ 0 → ∃ oid, str "cert_user_oid" (config v) = Some oid ∧
    (c_isdigit (List.hd 0 oid) = true ∨ oid = to_bytes "SAN(rfc822name)");
  ck_clear : is_Some (str "unix_conn_file" (perm v)) → num "cert_req" (config v) ≠ 0 →
    num "listen_proxy_proto" (config v) ≠ 0;
  ck_profile : is_Some (str "xml_config_file" (config v)) → is_Some (str "xml_config_hash" (config v));
  ck_priorities : is_Some (str "priorities" (config v));
  ck_device : v_name v = None → default [] (str "network.name" (config v)) ≠ [];
  ck_legacy : num "cisco_client_compat" (config v) ≠ 0 → num "dtls_legacy" (config v) = 1;
  ck_psk : is_Some (str "unix_conn_file" (perm v)) → num "dtls_psk" (config v) = 0;
  ck_sup : is_Some (str "per_user_dir" (config v)) ∨ is_Some (str "per_group_dir" (config v)) →
    sup_config_radius v = false }.

Lemma cert_request_eq l compat : existsb is_cert l = true →
  cert_request l compat = if bool_decide (length l = 1%nat ∧ compat = 0) then GNUTLS_CERT_REQUIRE else GNUTLS_CERT_REQUEST.
Proof.
  intros H. unfold cert_request. destruct l as [|a [|b l]]; [done| |].
  - simpl in H. rewrite orb_false_r in H. rewrite H. destruct (Z.eqb_spec compat 0); case_bool_decide; naive_solver.
  - rewrite H, bool_decide_eq_false_2; [done|]. by intros [].
Qed.

Lemma check_cfg_checked v d v' : check_cfg sha1_file v d = Ok v' → auth_init v = true → methods_ok (auths v) →
  (∀ d', d = Some d' → checked true d') → checked (bool_decide (d = None)) v'.
Proof.
  intros H Hi Hm Hd. destruct (check_cfg_accepted v d v' H Hi Hm) as [Hacc _]. unfold check_cfg in H. ok_inv.
  pose proof (required_inv _ _ _ H0) as (E0 & _). pose proof (required_more _ _ _ H0) as (Rp & Rport & Rsock).
  pose proof (cert_inv _ _ H1) as (E1 & (_ & Cn & Cs) & Creq & _). pose proof (cert_more _ _ H1) as (Cp & Coid & Cclear).
  pose proof (derive_inv _ _ _ H2) as (E2 & Dle & Dd & _).
  pose proof (derive_more _ _ _ H2) as (Dp & Dxml & Dprio & Ddev & Dleg & Dpsk).
  pose proof (networks_inv _ _ H) as (E3 & Nn & Ns & _). pose proof (networks_more _ _ H) as (Np & Nsup).
  assert (Ename : v_name x0 = v_name v') by (rewrite E3; cbn; by rewrite E2).
  assert (Eauth : auths x = auths v') by (rewrite E3; cbn; rewrite E2; cbn; by rewrite E1).
  assert (Hstr : ∀ f, f ∉ derived_strs → str f (config v') = str f (config x0)).
  { intros f Hf. unfold str. rewrite Ns. by apply Dd. }
  assert (Hstr1 : ∀ f, str f (config v') = str f (config x1)) by (intros f; unfold str; by rewrite Ns).
  assert (Hnum : ∀ f, f ∉ derived_nums → num f (config v') = num f (config x0)).
  { intros f Hf. unfold num. rewrite Nn. by rewrite (proj1 (proj2 Dd)). }
  assert (Hnum1 : ∀ f, num f (config v') = num f (config x1)) by (intros f; unfold num; by rewrite Nn).
  assert (Hperm : ∀ f, f ∉ derived_perm → str f (perm v') = str f (perm x0)).
  { intros f Hf. rewrite Np, Dp. by apply derive_perm_str. }
  split.
  - done.
  - rewrite Np. destruct Dle as (_ & _ & Hs). destruct Rsock as [sp Hsp].
    { intros d' Hd'. apply (ck_socket _ _ (Hd d' Hd')). }
    exists sp. unfold str in *. eapply lookup_weaken; [|exact Hs]. by rewrite Cp.
  - intros Hf%bool_decide_eq_true_1. destruct (Rport Hf) as [?|?]; [left|right].
    + unfold num in *. rewrite Np. destruct Dle as (-> & _). by rewrite Cp.
    + rewrite Hperm by compute_done. by rewrite Cp.
  - intros Hc. rewrite <-Eauth in *. rewrite !Hnum by compute_done.
    assert (num "cisco_client_compat" (config x0) = num "cisco_client_compat" (config x)) as ->
      by (unfold num; by rewrite Cn by set_solver).
    rewrite <-cert_request_eq by done. apply Creq. by apply cert_request_some.
  - rewrite Hnum, Hstr by compute_done. exact Coid.
  - rewrite !Hnum, Hperm by compute_done. exact Cclear.
  - rewrite Hstr, Hstr1 by compute_done. exact Dxml.
  - rewrite Hstr1. apply Dprio. intros d' Hd'. apply (ck_priorities _ _ (Hd d' Hd')).
  - rewrite <-Ename, Hstr1. exact Ddev.
  - rewrite Hnum, Hnum1 by compute_done. exact Dleg.
  - rewrite Hperm, Hnum1 by compute_done. exact Dpsk.
  - exact Nsup.
Qed.

Lemma primary_enabled auth a sup a' sup' : figure_primary auth a sup = Ok (a', sup') →
  auth ≠ [] ∨ a_enabled a = true → a_enabled a' = true.
Proof.
  revert a sup. induction auth as [|t auth IH]; intros a sup H Ha; simpl in H; ok_inv; [naive_solver|].
  destruct (find_method t) as [[[n m] ty]|]; [|done]. ok_inv. destruct (_ && _); [done|].
  eapply IH; [exact H|]. by right.
Qed.

Lemma secondary_ok auth l sup l' sup' : figure_secondary auth l sup = Ok (l', sup') → methods_ok l → methods_ok l'.
Proof.
  revert l sup. induction auth as [|t auth IH]; intros l sup H [Hl Hf]; cbn [figure_secondary] in H; ok_inv; [done|].
  destruct (find_method t) as [[[n m] ty]|]; [|done]. ok_inv.
  match type of H with (if ?b then _ else _) = _ => destruct b eqn:Hlt; [done|] end. apply Nat.leb_gt in Hlt.
  eapply IH; [exact H|]. split; [split; [|done]|by apply Forall_app_2, Forall_singleton]. rewrite length_app. simpl. lia.
Qed.

(** A virtual host that is set up has its methods. *)
Definition setup_ok (v : vhost) : Prop := auth_init v = true → methods_ok (auths v).

Lemma figure_methods_ok v v' : figure_methods v = Ok v' → setup_ok v →
  auth_init v' = true ∧ methods_ok (auths v') ∧ setup_kept v v'.
Proof.
  unfold figure_methods, setup_ok. intros H Hv. destruct (auth_init v) eqn:Ei; ok_inv; [split_and!; [done|by apply Hv|done]|].
  destruct (texts "auth" (tmp v)) as [|t auth] eqn:Et; [done|]. rewrite <- Et in H. ok_inv. simpl.
  split_and!; [done| |].
  - eapply secondary_ok; [done|]. split; [unfold MAX_AUTH_METHODS; simpl; lia|].
    apply Forall_singleton. eapply primary_enabled; [done|]. left. by rewrite Et.
  - split; [done|]. by rewrite Ei.
Qed.
End accepted.

(** ** Loading a file *)

Section load.
Context (getpwnam getgrnam : list Z → option Z) (idna_map : list Z → list Z).
Context (sha1_file : list Z → option (list Z)).
Context (getaddrinfo : kkdcp_url → option (list Z)).
Context (fopen : list Z → option (list Z)) (readdir : list Z → option (list (list Z))).
Abbreviation parse_cfg_file := (parse_cfg_file getpwnam getgrnam idna_map sha1_file getaddrinfo fopen readdir).
Abbreviation reload_cfg_file := (reload_cfg_file getpwnam getgrnam idna_map sha1_file getaddrinfo fopen readdir).

Lemma finish_vhost_ok v d v' : finish_vhost sha1_file getaddrinfo fopen readdir v d = Ok v' → setup_ok v →
  accepted v' ∧ setup_kept v v'.
Proof.
  unfold finish_vhost. intros H Hv. ok_inv. apply figure_methods_ok in H0 as (Hi & Hm & Hk); [|done].
  assert (auth_init x0 = true ∧ methods_ok (auths x0) ∧ setup_kept x x0) as (Hi' & Hm' & Hkx)
    by (destruct (_ =? 0) in H1; by ok_inv).
  apply check_cfg_accepted in H2 as [Hacc Hk']; [|done..].
  assert (setup_kept v x1) as Hk0 by (etrans; [exact Hk|by etrans]). match type of H with (if ?b then _ else _) = _ => destruct b end; ok_inv; [done|].
  split; [by destruct Hacc; split|exact Hk0].
Qed.

Lemma finish_named_ok d l l' : finish_named sha1_file getaddrinfo fopen readdir d l = Ok l' → Forall setup_ok l →
  Forall accepted l' ∧ Forall2 setup_kept l l'.
Proof.
  revert l'. induction l as [|v l IH]; intros l' H Hl; simpl in H; ok_inv; [done|].
  apply Forall_cons in Hl as [Hv Hl]. apply finish_vhost_ok in H0 as []; [|done].
  apply IH in H1 as []; [|done]. split; by constructor.
Qed.

Lemma finish_all_ok l l' : finish_all sha1_file getaddrinfo fopen readdir l = Ok l' → Forall setup_ok l →
  Forall accepted l' ∧ Forall2 setup_kept l l'.
Proof.
  unfold finish_all. intros H Hl. destruct (reverse l) as [|d named] eqn:El; [done|]. ok_inv.
  assert (l = reverse (d :: named)) as -> by by rewrite <- El, reverse_involutive.
  apply Forall_reverse, Forall_cons in Hl as [Hd Hl].
  apply finish_vhost_ok in H0 as [Ha Hk]; [|done]. apply finish_named_ok in H1 as [Has Hks]; [|done].
  split; [apply Forall_reverse; by constructor|apply Forall2_reverse; by constructor].
Qed.

(** *** All checks of all virtual hosts *)

Lemma finish_vhost_checked v d v' : finish_vhost sha1_file getaddrinfo fopen readdir v d = Ok v' → setup_ok v →
  (∀ d', d = Some d' → checked true d') → checked (bool_decide (d = None)) v'.
Proof.
  unfold finish_vhost. intros H Hv Hd. ok_inv. apply figure_methods_ok in H0 as (Hi & Hm & _); [|done].
  assert (auth_init x0 = true ∧ methods_ok (auths x0)) as (Hi' & Hm')
    by (destruct (_ =? 0) in H1; by ok_inv).
  apply check_cfg_checked in H2; [|done..].
  match type of H with (if ?b then _ else _) = _ => destruct b end; ok_inv; [done|].
  destruct H2 as [Hacc]. split; try done. by destruct Hacc; split.
Qed.

Lemma finish_named_checked d l l' : finish_named sha1_file getaddrinfo fopen readdir d l = Ok l' → Forall setup_ok l →
  checked true d → Forall (checked false) l'.
Proof.
  intros H Hl Hd. revert l' H. induction l as [|v l IH]; intros l' H; simpl in H; ok_inv; [done|].
  apply Forall_cons in Hl as [Hv Hl]. apply finish_vhost_checked in H0; [|done|by intros d' [= <-]].
  constructor; [done|by apply IH].
Qed.

Lemma finish_all_checked l l' : finish_all sha1_file getaddrinfo fopen readdir l = Ok l' → Forall setup_ok l →
  ∃ named d, l' = named ++ [d] ∧ Forall (checked false) named ∧ checked true d.
Proof.
  unfold finish_all. intros H Hl. destruct (reverse l) as [|d named] eqn:El; [done|]. ok_inv.
  assert (l = reverse (d :: named)) as -> by by rewrite <- El, reverse_involutive.
  apply Forall_reverse, Forall_cons in Hl as [Hd Hl].
  apply finish_vhost_checked in H0; [|done|done]. rewrite bool_decide_eq_true_2 in H0 by done.
  apply finish_named_checked in H1; [|done..]. eexists (reverse _), _. rewrite reverse_cons. split_and!; [done| |done].
  by apply Forall_reverse.
Qed.

(** *** What the parser does to the methods *)

Lemma apply_option_auths st d v o value st' v' :
  apply_option getpwnam getgrnam st d v o value = Ok (st', v') → setup_ok v → setup_ok v' ∧ vhosts st' = vhosts st.
Proof.
  assert (∀ p c, setup_ok v → setup_ok (set_place p c v)) as Hset by (intros [] ?; done).
  unfold apply_option, select_group. intros H Hv. destruct (o_global o && _).
  { ok_inv. split; [by apply Hset|done]. }
  destruct (o_action o); ok_inv; try (split; [by apply Hset|done]); try done.
  - case_match; by ok_inv.
  - by case_match.
Qed.

Definition setups_kept (st st' : loader) : Prop :=
  vhosts_kept (vhosts st) (vhosts st') ∧ (Forall setup_ok (vhosts st) → Forall setup_ok (vhosts st')).

#[local] Instance setups_kept_pre : PreOrder setups_kept.
Proof. split; [by intros st|]. intros st1 st2 st3 [] []. split; [by etrans|auto]. Qed.

Lemma handler_setups reload st section name b value r st' :
  cfg_ini_handler getpwnam getgrnam idna_map reload st section name b value = Ok (r, st') → setups_kept st st'.
Proof.
  intros H. split; [by eapply handler_kept|]. intros Hst. revert H. unfold cfg_ini_handler, set_value, section_vhost.
  intros H. destruct (default_vhost _) as [d|]; [|done]. ok_inv.
  destruct x as [[l i]|]; ok_inv; [|done].
  assert (Forall setup_ok l) as Hl by (revert H0; clear -Hst; intros H; repeat (case_match || ok_inv); by try constructor).
  destruct x as [val|]; ok_inv; [|done]. cbn [vhosts] in *. destruct (l !! i) as [v|] eqn:Ev; [|done].
  destruct (match (if auth_init v then None else _) with Some _ => _ | None => _ end) as [o|]; ok_inv; [|done].
  apply apply_option_auths in H as [Hv' ->]; [|by eapply (Forall_lookup_1 setup_ok)].
  simpl. by apply Forall_insert.
Qed.

Lemma read_file_setups reload st file r st' :
  read_file getpwnam getgrnam idna_map fopen reload st file = Ok (r, st') → setups_kept st st'.
Proof. apply (parse_keeps _ _ _ setups_kept). intros u s n b v r' u'. apply handler_setups. Qed.

Lemma parse_cfg_file_ok reload st file st' : parse_cfg_file reload st file = Ok st' → Forall setup_ok (vhosts st) →
  Forall accepted (vhosts st') ∧ vhosts_kept (vhosts st) (vhosts st').
Proof.
  unfold ConfCheck.parse_cfg_file. intros H Hst. ok_inv.
  assert (setups_kept st l0) as [Hk Hs].
  { etrans; [by eapply read_file_setups|]. destruct (_ && _) in H1; ok_inv; [by eapply read_file_setups|done]. }
  destruct (z0 <? 0); ok_inv. apply finish_all_ok in H2 as [Ha Hf]; [|by apply Hs]. split; [done|]. simpl.
  etrans; [exact Hk|]. by exists [], x.
Qed.

(** C34: Whatever the files hold, a configuration that is loaded passes the
    checks, in each of its virtual hosts.  It has between one and three methods
    of authentication, as many keys as certificates, a network with its mask or
    prefix, a banner that fits, a socket for the workers and priorities; the
    default host has a port or a socket file and a device.  With certificates
    among the methods they are requested, and required if they are the only
    method and the compatibility with Cisco clients is off, which otherwise
    turns legacy DTLS on; then the field with the user is a digit string or
    SAN(rfc822name), and a clear socket needs the proxy protocol.  Every route
    is valid, and files for users and groups are not combined with Radius. *)
Theorem loaded_config_accepted reload st file st' : Forall setup_ok (vhosts st) →
  parse_cfg_file reload st file = Ok st' →
  ∃ named d, vhosts st' = named ++ [d] ∧ Forall (checked false) named ∧ checked true d.
Proof.
  unfold ConfCheck.parse_cfg_file. intros Hst H. ok_inv.
  assert (setups_kept st l0) as [_ Hs].
  { etrans; [by eapply read_file_setups|]. destruct (_ && _) in H1; ok_inv; [by eapply read_file_setups|done]. }
  destruct (z0 <? 0); ok_inv. apply (finish_all_checked (vhosts l0)); [done|by apply Hs].
Qed.

(** C35: A reload, whatever is in the file now, keeps every virtual host, the
    methods of authentication and the accounting of each, and all that is
    set in its permanent settings, such as ports, users, certificates and keys; new
    virtual hosts come before them. *)
Theorem reload_keeps_setup st file st' : Forall accepted (vhosts st) →
  reload_cfg_file st file = Ok st' → vhosts_kept (vhosts st) (vhosts st') ∧ Forall accepted (vhosts st').
Proof.
  unfold ConfCheck.reload_cfg_file. intros Hst H. apply parse_cfg_file_ok in H as [Ha Hk].
  - split; [|done]. etrans; [|exact Hk]. exists [], (map cfg_new (vhosts st)). split; [done|]. simpl.
    apply Forall2_fmap_r, Forall_Forall2_diag, Forall_true. by intros v.
  - simpl. apply Forall_fmap. eapply Forall_impl; [exact Hst|]. intros v [] _. done.
Qed.
End load.

(** ** Files *)

Definition newline : string := String (Ascii.ascii_of_nat 10) "".
Definition lines (l : list string) : list Z := to_bytes (String.concat newline l ++ newline)%string.

(** A site with two virtual hosts, and a second version of its file. *)
Definition site : list Z := lines
  ["# the server"; "auth = plain[passwd=/etc/passwd]"; "enable-auth = certificate"; "tcp-port = 443";
   "run-as-user = nobody"; "socket-file = /run/socket"; "server-cert = /cert"; "server-key = /key"; "device = vpns";
   "ipv4-network = 192.168.1.0/24"; "ipv6-network = fd00::/48"; "cert-user-oid = 0.9.2342"; "route = 10.0.0.0/8";
   "[vhost:www.example.com]"; "auth = certificate"; "server-cert = /cert2"; "server-key = /key2";
   "cert-user-oid = 2.5.4.3"; "ipv4-network = 192.168.2.0"; "ipv4-netmask = 255.255.255.0"; "tcp-port = 77"]%string.
Definition site2 : list Z := lines
  ["auth = pam"; "tcp-port = 80"; "device = vpns"; "ipv4-network = 192.168.3.0/24"; "cert-user-oid = 2.5.4.3";
   "[vhost:www.example.com]"; "auth = plain[passwd=/tmp/x]"; "ipv4-network = 192.168.2.0/24"; "cert-user-oid = 2.5.4.3";
   "[vhost:new.example.com]"; "auth = certificate"; "server-cert = /cert3"; "server-key = /key3";
   "cert-user-oid = 2.5.4.3"; "ipv4-network = 192.168.4.0/24"]%string.

Definition site_files (name : list Z) : option (list Z) :=
  if bool_decide (name = to_bytes "site") then Some site
  else if bool_decide (name = to_bytes "site2") then Some site2 else None.
Definition site_users (name : list Z) : option Z :=
  if bool_decide (name = to_bytes "nobody") then Some 99 else None.
Definition start : loader := {| vhosts := [vhost_add None false]; comp_methods := []; pid_file := [] |}.

Definition site_load : bool → loader → list Z → cres loader :=
  parse_cfg_file site_users site_users (λ n, n) (λ _, Some (to_bytes "hash")) (λ _, None) site_files (λ _, None).
Definition site_reload : loader → list Z → cres loader :=
  reload_cfg_file site_users site_users (λ n, n) (λ _, Some (to_bytes "hash")) (λ _, None) site_files (λ _, None).
Definition load_file (f : list Z) : cres loader :=
  parse_cfg_file site_users site_users (λ n, n) (λ _, Some (to_bytes "hash")) (λ _, Some (to_bytes "addr")) (λ _, Some f) (λ _, None)
    false start (to_bytes "f").

Definition is_ok {A} (m : cres A) : bool := match m with Ok _ => true | _ => false end.
Lemma is_ok_Ok {A} (m : cres A) : is_ok m = true → ∃ a, m = Ok a.
Proof. destruct m; simpl; [by eexists|done..]. Qed.

Example site_is_read :
  map (λ v, (v_name v, map a_type (auths v), num "port" (perm v), str "network.ipv4_netmask" (config v),
          num "network.ipv6_prefix" (config v), num "cert_req" (config v)))
    match site_load false start (to_bytes "site") with Ok st => vhosts st | _ => [] end =
  [(Some (to_bytes "www.example.com"), [8], 443, Some (to_bytes "255.255.255.0"), 0, GNUTLS_CERT_REQUIRE);
        (None, [5; 8], 443, Some (to_bytes "255.255.255.0"), 48, GNUTLS_CERT_REQUEST)].
Proof. vm_compute. reflexivity. Qed.

Lemma loaded_config_accepted_witness :
  ∃ st, site_load false start (to_bytes "site") = Ok st ∧
    ∃ named d, vhosts st = named ++ [d] ∧ Forall (checked false) named ∧ checked true d.
Proof.
  assert (is_ok (site_load false start (to_bytes "site")) = true) as H by (vm_compute; reflexivity).
  apply is_ok_Ok in H as [st H]. exists st. split; [exact H|].
  eapply loaded_config_accepted; [|exact H]. by apply Forall_singleton.
Defined.

Lemma reload_keeps_setup_witness :
  ∃ st st', site_load false start (to_bytes "site") = Ok st ∧ site_reload st (to_bytes "site2") = Ok st' ∧
    vhosts_kept (vhosts st) (vhosts st') ∧ Forall accepted (vhosts st').
Proof.
  assert (is_ok (st ← site_load false start (to_bytes "site"); site_reload st (to_bytes "site2")) = true) as H
    by (vm_compute; reflexivity).
  apply is_ok_Ok in H as [st' H]. apply bind_Ok in H as (st & H & H'). exists st, st'. split; [exact H|].
  split; [exact H'|]. eapply reload_keeps_setup; [|exact H'].
  eapply parse_cfg_file_ok; [exact H|]. by apply Forall_singleton.
Defined.

(** *** Files the program does not handle *)

(** An option whose text is empty is trimmed from before its start. *)
Example empty_string_option : load_file (lines ["banner ="%string]) = UB.
Proof. vm_compute. reflexivity. Qed.

(** The route that stands for all addresses is refused. *)
Definition simple_site (more : list string) : list Z := lines
  (["auth = plain[passwd=/p]"; "tcp-port = 443"; "socket-file = /s"; "server-cert = /c"; "server-key = /k"; "device = v";
    "ipv4-network = 10.0.0.0/8"]%string ++ more).
Example all_addresses_refused :
  is_ok (load_file (simple_site [])) = true ∧ is_ok (load_file (simple_site ["route = default"]%string)) = true ∧
  load_file (simple_site ["route = 0.0.0.0/0"]%string) = Err 1.
Proof. split_and!; vm_compute; reflexivity. Qed.

(** The 96th group is written after the array. *)
Example too_many_groups :
  is_ok (load_file (simple_site (replicate 95 "select-group = g"%string))) = true ∧
  load_file (simple_site (replicate 96 "select-group = g"%string)) = UB.
Proof. split; vm_compute; reflexivity. Qed.

(** Two realms of one path and another path: the second entry is not where
    the search looks. *)
Example kkdcp_repeated_path :
  is_ok (load_file (simple_site ["kkdcp = /a R1 udp@h:88"; "kkdcp = /b R2 udp@h:88"]%string)) = true ∧
  load_file (simple_site ["kkdcp = /a R1 udp@h:88"; "kkdcp = /a R2 udp@h:88"; "kkdcp = /b R3 udp@h:88"; "kkdcp = /c R3 udp@h:88"]%string) = UB.
Proof. split; vm_compute; reflexivity. Qed.

(** A reload without the Kerberos proxy that was there. *)
Example kkdcp_removed :
  (st ← load_file (simple_site ["kkdcp = /a R1 udp@h:88"]%string);
   reload_cfg_file site_users site_users (λ n, n) (λ _, Some []) (λ _, Some []) (λ _, Some (simple_site [])) (λ _, None) st (to_bytes "f")) = UB.
Proof. vm_compute. reflexivity. Qed.

(** Four methods besides the first are not accepted, and neither are three. *)
Example four_methods :
  is_ok (load_file (simple_site ["cert-user-oid = 2.5.4.3"; "enable-auth = certificate"; "enable-auth = gssapi"]%string)) = true ∧
  load_file (simple_site ["cert-user-oid = 2.5.4.3"; "enable-auth = certificate"; "enable-auth = gssapi"; "enable-auth = pam"]%string) = Err 1.
Proof. split; vm_compute; reflexivity. Qed.

(** With a parser that stops at errors only the first option is read. *)
Example stop_on_error :
  let port stop := match ini_parse stop [59] (cfg_ini_handler site_users site_users (λ n, n) false)
                     (Some (lines ["tcp-port = 1"; "udp-port = 2"]%string)) start with
                   | Ok (_, st) => map (λ v, (num "port" (perm v), num "udp_port" (perm v))) (vhosts st)
                   | _ => [] end in
  port false = [(1, 2)] ∧ port true = [(1, 0)].
Proof. vm_compute. done. Qed.
