(* ===== verification/SupConfig.v ===== *)
(** * Configuration of groups and users (src/sup-config/file.c)

    The files of a group and of a user, and what the main process makes of
    them with the configuration of the virtual host
    (src/main-sec-mod-cmd.c).  [GroupCfgSt] is a structure as in [Config]; a
    number that is there is one whose [has_] member is set.  Allocations
    succeed. *)

From stdpp Require Import gmap strings.
From S2P Require Import Prelude CString CText Html Ini IpUtil ConfPorts ConfValue Config.

Record GroupCfgSt := { gc : fields; gc_fw_ports : list FwPortSt }.
Definition no_group_cfg : GroupCfgSt := {| gc := no_fields; gc_fw_ports := [] |}.

Definition ERR_READ_CONFIG : Z := -7.

(** ** The options *)

Inductive sup_action :=
| S_TF (f : string) | S_NUM (f : string) | S_RATE (f : string) | S_PRIO (f : string)
| S_STR (f : string) | S_MULTI (f : string) | S_IPV4 | S_IPV6 | S_PORTS.

Definition sup_options : list (string * sup_action) := [
  ("no-udp", S_TF "no_udp");
  ("restrict-user-to-routes", S_TF "restrict_user_to_routes");
  ("tunnel_all_dns", S_TF "tunnel_all_dns");
  ("deny-roaming", S_TF "deny_roaming");
  ("route", S_MULTI "routes");
  ("split-dns", S_MULTI "split_dns");
  ("no-route", S_MULTI "no_routes");
  ("iroute", S_MULTI "iroutes");
  ("dns", S_MULTI "dns"); ("ipv6-dns", S_MULTI "dns"); ("ipv4-dns", S_MULTI "dns");
  ("nbns", S_MULTI "nbns"); ("ipv4-nbns", S_MULTI "nbns"); ("ipv6-nbns", S_MULTI "nbns");
  ("cgroup", S_STR "cgroup");
  ("ipv4-network", S_IPV4);
  ("ipv4-netmask", S_STR "ipv4_netmask");
  ("explicit-ipv4", S_STR "explicit_ipv4");
  ("ipv6-network", S_IPV6);
  ("explicit-ipv6", S_STR "explicit_ipv6");
  ("ipv6-subnet-prefix", S_NUM "ipv6_subnet_prefix");
  ("hostname", S_STR "hostname");
  ("rx-data-per-sec", S_RATE "rx_per_sec");
  ("tx-data-per-sec", S_RATE "tx_per_sec");
  ("stats-report-time", S_NUM "interim_update_secs");
  ("session-timeout", S_NUM "session_timeout_secs");
  ("mtu", S_NUM "mtu");
  ("dpd", S_NUM "dpd");
  ("mobile-dpd", S_NUM "mobile_dpd");
  ("idle-timeout", S_NUM "idle_timeout");
  ("mobile-idle-timeout", S_NUM "mobile_idle_timeout");
  ("keepalive", S_NUM "keepalive");
  ("max-same-clients", S_NUM "max_same_clients");
  ("net-priority", S_PRIO "net_priority");
  ("user-profile", S_STR "xml_config_file");
  ("restrict-user-to-ports", S_PORTS) ]%string.

Definition find_sup_option (name : list Z) : option (string * sup_action) :=
  List.find (λ o, bool_decide (name = to_bytes o.1)) sup_options.

Definition on_fields (f : fields → cres fields) (g : GroupCfgSt) : cres (Z * GroupCfgSt) :=
  c ← f (gc g); Ok (0, {| g with gc := c |}).

(** An option with its value; the code the handler returns. *)
Definition sup_apply (a : sup_action) (value : list Z) (g : GroupCfgSt) : cres (Z * GroupCfgSt) :=
  match a with
  | S_TF f => on_fields (λ c, Ok (set_num f (READ_TF value) c)) g
  | S_NUM f => on_fields (λ c, n ← READ_NUMERIC U32 value; Ok (set_num f n c)) g
  | S_RATE f => on_fields (λ c, n ← READ_NUMERIC U32 value; Ok (set_num f (n / 1000) c)) g
  | S_PRIO f => on_fields (λ c, n ← READ_PRIO_TOS value; Ok (set_num f n c)) g
  | S_STR f => on_fields (λ c, Ok (set_str f value c)) g
  | S_MULTI f => on_fields (λ c, l ← _add_multi_line_val (lists c !! f) value; Ok (set_list f l c)) g
  | S_IPV4 => on_fields (λ c,
      '(prefix4, net) ← extract_prefix value;
      let c := set_str "ipv4_net" net c in
      if prefix4 =? 0 then Ok c else
      Ok match ipv4_prefix_to_strmask prefix4 with
         | Some m => set_str "ipv4_netmask" (to_bytes m) c
         | None => {| c with strs := delete "ipv4_netmask"%string (strs c) |}
         end) g
  | S_IPV6 => on_fields (λ c,
      '(prefix, net) ← extract_prefix value;
      let c := set_str "ipv6_net" net c in
      Ok (if prefix =? 0 then c else set_num "ipv6_prefix" prefix c)) g
  | S_PORTS =>
    '(ret, l) ← cfg_parse_ports (gc_fw_ports g) (Some value);
    Ok (if ret <? 0 then -1 else 0, {| g with gc_fw_ports := l |})
  end.

Definition group_cfg_ini_handler (g : GroupCfgSt) (section name b : list Z) (value : nat) : cres (Z * GroupCfgSt) :=
  if negb (bool_decide (section = [])) then Ok (0, g) else
  v ← sanitize_config_value b value;
  match v with
  | None => Ok (0, g)
  | Some value =>
    match find_sup_option name with
    | Some (_, a) => sup_apply a value g
    | None => Ok (0, g)
    end
  end.

(** ** The files *)

(** The loop over an array of routes: those before an error are rewritten. *)
Fixpoint sanity_check_all (l : list (list Z)) : bool * list (list Z) :=
  match l with
  | [] => (true, [])
  | r :: l' =>
    match ip_route_sanity_check true (of_bytes r) with
    | None => (false, r :: l')
    | Some s => let '(ok, l') := sanity_check_all l' in (ok, to_bytes s :: l')
    end
  end.
Definition check_field (f : string) (c : fields) : bool * fields :=
  match lists c !! f with
  | None => (true, c)
  | Some a => let '(ok, l) := sanity_check_all (vals a) in (ok, set_list f {| cap := cap a; vals := l |} c)
  end.
Fixpoint check_fields (fs : list string) (c : fields) : bool * fields :=
  match fs with
  | [] => (true, c)
  | f :: fs' => let '(ok, c) := check_field f c in if ok then check_fields fs' c else (false, c)
  end.

Section files.
(** What is in a file, [None] if it cannot be opened, and [access(file, R_OK) == 0]. *)
Context (fopen : list Z → option (list Z)) (access : list Z → bool).

(** The parser as it is compiled. *)
Definition parse_group_cfg_file (g : GroupCfgSt) (file : list Z) : cres (Z * GroupCfgSt) :=
  '(ret, g) ← ini_parse false [59] group_cfg_ini_handler (fopen file) g;
  if ret <? 0 then Ok (0, g) else
  let '(ok, c) := check_fields ["routes"; "iroutes"; "no_routes"]%string (gc g) in
  Ok (if ok then 0 else ERR_READ_CONFIG, {| g with gc := c |}).

Definition read_sup_config_file (g : GroupCfgSt) (file : list Z) (fallback : option (list Z)) : cres (Z * GroupCfgSt) :=
  match (if access file then Some file else fallback) with
  | None => Ok (0, g)
  | Some file =>
    '(ret, g) ← parse_group_cfg_file g file;
    Ok (if ret <? 0 then ERR_READ_CONFIG else 0, g)
  end.

(** [snprintf(file, sizeof(file), "%s/%s", dir, name)]. *)
Definition path_in (dir name : list Z) : list Z := take 255 (dir ++ 47 :: name).

(** [get_sup_config] for a client with a group and a name. *)
Definition get_sup_config_file (cfg : fields) (groupname username : list Z) (g : GroupCfgSt) : cres (Z * GroupCfgSt) :=
  '(ret, g) ←
    match str "per_group_dir" cfg with
    | Some dir =>
      if bool_decide (groupname = []) then Ok (0, g)
      else read_sup_config_file g (path_in dir groupname) (str "default_group_conf" cfg)
    | None => Ok (0, g)
    end;
  if ret <? 0 then Ok (ret, g) else
  match str "per_user_dir" cfg with
  | Some dir => read_sup_config_file g (path_in dir username) (str "default_user_conf" cfg)
  | None => Ok (0, g)
  end.
End files.

(** ** The defaults of the virtual host (src/main-sec-mod-cmd.c) *)

(** [p[n++] = v] in an array with room for [cap] pointers. *)
Definition put (a : vec (list Z)) (v : list Z) : cres (vec (list Z)) :=
  if (length (vals a) <? cap a)%nat then Ok {| cap := cap a; vals := vals a ++ [v] |} else UB.
Fixpoint put_all (a : vec (list Z)) (l : list (list Z)) : cres (vec (list Z)) :=
  match l with [] => Ok a | v :: l' => a ← put a v; put_all a l' end.

Definition append_routes (cfg : fields) (c : fields) : cres fields :=
  let known := texts "known_iroutes" cfg in
  let all := negb (num "append_routes" cfg =? 0) in
  if (length known =? 0)%nat && negb all then Ok c else
  let old := texts "routes" c in
  let n := (length old + (length known + if all then length (texts "network.routes" cfg) else 0))%nat in
  a ← put_all {| cap := n; vals := [] |} old;
  a ← put_all a (List.filter (λ r, negb (bool_decide (r ∈ texts "iroutes" c))) known);
  if negb all then Ok (set_list "routes" a c) else
  a ← put_all a (texts "network.routes" cfg);
  let c := set_list "routes" a c in
  let no := texts "network.no_routes" cfg in
  if (length no =? 0)%nat then Ok c else
  a ← put_all {| cap := (length (texts "no_routes" c) + length no)%nat; vals := [] |} (texts "no_routes" c);
  a ← put_all a no;
  Ok (set_list "no_routes" a c).

(** A member that is not set takes a value of the virtual host. *)
Definition def_num (f : string) (v : Z) (c : fields) : fields :=
  match nums c !! f with Some _ => c | None => set_num f v c end.
Definition def_str (f : string) (v : option (list Z)) (c : fields) : fields :=
  match strs c !! f, v with None, Some s => set_str f s c | _, _ => c end.
Definition def_list (f : string) (v : option (vec (list Z))) (c : fields) : fields :=
  match lists c !! f, v with None, Some a => set_list f a c | _, _ => c end.

(** The numbers, each with the member of the configuration it comes from. *)
Definition default_nums : list (string * string) := [
  ("interim_update_secs", "stats_report_time"); ("session_timeout_secs", "session_timeout");
  ("deny_roaming", "deny_roaming"); ("ipv6_prefix", "network.ipv6_prefix");
  ("ipv6_subnet_prefix", "network.ipv6_subnet_prefix"); ("rx_per_sec", "rx_per_sec"); ("tx_per_sec", "tx_per_sec");
  ("net_priority", "net_priority"); ("keepalive", "keepalive"); ("dpd", "dpd"); ("mobile_dpd", "mobile_dpd");
  ("max_same_clients", "max_same_clients"); ("tunnel_all_dns", "tunnel_all_dns");
  ("restrict_user_to_routes", "restrict_user_to_routes"); ("mtu", "network.mtu"); ("idle_timeout", "idle_timeout");
  ("mobile_idle_timeout", "mobile_idle_timeout") ]%string.
Definition default_strs : list (string * string) := [
  ("ipv4_net", "network.ipv4_network"); ("ipv4_netmask", "network.ipv4_netmask"); ("ipv6_net", "network.ipv6_network");
  ("cgroup", "cgroup"); ("xml_config_file", "xml_config_file") ]%string.
Definition default_lists : list (string * string) := [
  ("no_routes", "network.no_routes"); ("dns", "network.dns"); ("nbns", "network.nbns"); ("split_dns", "split_dns") ]%string.

Definition apply_default_group (v : vhost) (g : GroupCfgSt) : cres GroupCfgSt :=
  let cfg := config v in
  let c := def_num "no_udp" (if num "udp_port" (perm v) =? 0 then 1 else 0) (gc g) in
  let c := def_list "routes" (lists cfg !! "network.routes"%string) c in
  c ← append_routes cfg c;
  let c := foldl (λ c fd, def_list fd.1 (lists cfg !! fd.2) c) c default_lists in
  let c := foldl (λ c fd, def_num fd.1 (u32 (num fd.2 cfg)) c) c default_nums in
  let c := foldl (λ c fd, def_str fd.1 (str fd.2 cfg) c) c default_strs in
  Ok {| gc := c; gc_fw_ports := match gc_fw_ports g with [] => fw_ports v | l => l end |}.
