(* ===== verification/SupSpec.v ===== *)
(** * Configuration of groups and users: what a session gets *)

From Stdlib Require Import Ascii Btauto.
From stdpp Require Import gmap strings.
From S2P Require Import Prelude CString CText Html HtmlSpec Ini IniSpec IpUtil ConfPorts ConfPortsSpec.
From S2P Require Import ConfValue Config ConfSpec SupConfig.

(** ** The numbers an option sets *)

Definition num_value (a : sup_action) (value : list Z) : option (string * Z) :=
  match a with
  | S_TF f => Some (f, READ_TF value)
  | S_NUM f => match READ_NUMERIC U32 value with Ok n => Some (f, n) | _ => None end
  | S_RATE f => match READ_NUMERIC U32 value with Ok n => Some (f, n / 1000) | _ => None end
  | S_PRIO f => match READ_PRIO_TOS value with Ok n => Some (f, n) | _ => None end
  | S_IPV6 => match extract_prefix value with
              | Ok (p, _) => if p =? 0 then None else Some ("ipv6_prefix"%string, p)
              | _ => None
              end
  | S_STR _ | S_MULTI _ | S_IPV4 | S_PORTS => None
  end.

Definition set_by (f : string) (o : option (string * Z)) (old : option Z) : option Z :=
  match o with Some (f', x) => if decide (f' = f) then Some x else old | None => old end.

Lemma set_by_num f f' x c : nums (set_num f' x c) !! f = set_by f (Some (f', x)) (nums c !! f).
Proof. simpl. case_decide; subst; [by rewrite lookup_insert_eq|by rewrite lookup_insert_ne]. Qed.

(** The text an option adds to a list. *)
Definition adds (f : string) (a : sup_action) (value : list Z) : list (list Z) :=
  match a with S_MULTI g => if decide (g = f) then [value] else [] | _ => [] end.

Lemma add_multi_vals {A} (o : option (vec A)) (v : A) a : _add_multi_line_val o v = Ok a →
  vals a = from_option vals [] o ++ [v].
Proof.
  unfold _add_multi_line_val, push. intros H.
  assert (vals (default new_vec o) = from_option vals [] o) as E by by destruct o. rewrite <-E. clear E.
  destruct (_ <=? _)%nat; simpl in H; destruct (_ <? _)%nat; by simplify_eq.
Qed.

(** An option is read, whatever its value is. *)
Lemma sup_apply_safe a v g : fields_ok (gc g) →
  ∃ r g', sup_apply a v g = Ok (r, g') ∧ fields_ok (gc g') ∧
    (∀ f, nums (gc g') !! f = set_by f (num_value a v) (nums (gc g) !! f)) ∧
    (∀ f, texts f (gc g') = texts f (gc g) ++ adds f a v).
Proof.
  intros Hg. destruct (read_prio_safe v) as [p Hp]. destruct (read_numeric_safe U32 v) as [n Hn].
  destruct (extract_prefix_safe v) as [[k t] Hk].
  assert (∀ c c', lists c' = lists c → ∀ f, texts f c' = texts f c ++ []) as Ht.
  { intros c c' E f. unfold texts. by rewrite E, app_nil_r. }
  destruct a; cbn [sup_apply num_value adds]; unfold on_fields; rewrite ?Hp, ?Hn, ?Hk; run.
  1-4: eexists _, _; split; [reflexivity|]; split; [done|]; split; [intros f'; apply set_by_num|by apply Ht].
  - eexists _, _. split; [reflexivity|]. split_and!; [done|done|by apply Ht].
  - destruct (add_multi_safe (lists (gc g) !! f) v) as (a & Ea & Ha); [intros a Ha; by apply (Hg f a)|]. rewrite Ea. run.
    eexists _, _. split; [reflexivity|]. split; [by apply map_Forall_insert_2|]. split; [done|]. intros f'.
    unfold texts. simpl. destruct (decide (f = f')) as [->|Hne].
    + rewrite lookup_insert_eq. apply add_multi_vals in Ea. simpl. by rewrite Ea.
    + by rewrite lookup_insert_ne, app_nil_r.
  - destruct (k =? 0); run; eexists _, _; (split; [reflexivity|]); simpl; [split_and!; [done|done|by apply Ht]|].
    case_match; (split_and!; [done|done|by apply Ht]).
  - destruct (k =? 0); run; eexists _, _; (split; [reflexivity|]); (split; [done|]); [split; [done|by apply Ht]|].
    split; [|by apply Ht]. intros f. etrans; [apply set_by_num|done].
  - pose proof (ports_safe (gc_fw_ports g) (Some v)) as H. destruct (cfg_parse_ports _ _) as [[r l]| | |]; try done.
    run. eexists _, _. split; [reflexivity|]. split_and!; [done|done|by apply Ht].
Qed.

(** ** A file *)

(** What a line sets, and what a file sets: its last line counts. *)
Definition line_sets (it : item) : option (string * Z) :=
  match it with
  | IPair n v => o ← find_sup_option n; num_value o.2 v
  | ISection _ => None
  end.
Definition line_adds (f : string) (it : item) : list (list Z) :=
  match it with
  | IPair n v => match find_sup_option n with Some (_, a) => adds f a v | None => [] end
  | ISection _ => []
  end.
Definition file_adds (f : string) (l : list item) : list (list Z) := l ≫= line_adds f.

Fixpoint file_sets (f : string) (l : list item) (old : option Z) : option Z :=
  match l with
  | [] => old
  | it :: l' => file_sets f l' (set_by f (line_sets it) old)
  end.

(** A line with an option and a value. *)
Definition option_line (it : item) : Prop := match it with IPair _ v => tidy v | ISection _ => False end.

Lemma sup_handler_pair g n v : tidy v → Forall (λ c, c ≠ 0) v → fields_ok (gc g) →
  ∃ r g', group_cfg_ini_handler g [] n (pair_buf n v) (length n + 3) = Ok (r, g') ∧ fields_ok (gc g') ∧
    (∀ f, nums (gc g') !! f = set_by f (line_sets (IPair n v)) (nums (gc g) !! f)) ∧
    (∀ f, texts f (gc g') = texts f (gc g) ++ line_adds f (IPair n v)).
Proof.
  intros Ht Hv Hg. unfold group_cfg_ini_handler. simpl. rewrite sanitize_tidy by done. run.
  destruct (find_sup_option n) as [[nm a]|]; simpl; [by apply sup_apply_safe|]. eexists _, _.
  split; [done|]. split_and!; [done|done|]. intros f. by rewrite app_nil_r.
Qed.

Lemma sup_items st l : Forall (item_ok [59]) l → Forall option_line l → section st = [] → 0 ≤ lineno st → 0 ≤ error st →
  fields_ok (gc (user st)) →
  ∃ st', spec_items false group_cfg_ini_handler st l = Ok st' ∧ 0 ≤ error st' ∧ fields_ok (gc (user st')) ∧
    (∀ f, nums (gc (user st')) !! f = file_sets f l (nums (gc (user st)) !! f)) ∧
    (∀ f, texts f (gc (user st')) = texts f (gc (user st)) ++ file_adds f l).
Proof.
  intros Hl. revert st. induction Hl as [|it l Hit _ IH]; intros st Ho Hs Hn He Hg.
  { exists st. split_and!; try done. intros f. by rewrite app_nil_r. }
  apply Forall_cons in Ho as [Ht Ho]. destruct it as [n|n v]; [done|].
  destruct Hit as (_ & _ & _ & Hv & _). cbn [spec_items spec_item]. unfold call. cbn [user section]. rewrite Hs.
  destruct (sup_handler_pair (user st) n v Ht) as (r & g' & -> & Hg' & Hset & Hadd); [|done|].
  { eapply Forall_impl; [exact Hv|]. naive_solver. }
  run. cbn [andb]. edestruct IH as (st' & -> & He' & Hf & Hn' & Ht'); [done|..| |].
  5: { exists st'. split; [done|]. split; [done|]. split; [done|]. split; intros f.
       - rewrite Hn'. cbn [file_sets]. f_equal. rewrite <- Hset. unfold fail. by repeat case_match.
       - rewrite Ht'. unfold file_adds. rewrite bind_cons, (assoc_L (++)), <-Hadd. f_equal.
         unfold fail. by repeat case_match. }
  all: unfold fail; repeat case_match; simpl; done || lia.
Qed.

(** *** Routes *)

(** A route of a file that can be used: a text without a dot, or an IPv4
    network with a mask or with a prefix from 1 to 32. *)
Definition valid_route (r : list Z) : bool := bool_decide (is_Some (ip_route_sanity_check true (of_bytes r))).

Lemma strchr_at_split s c p : strchr s c = Some p →
  ∃ a t, s = (a +:+ p)%string ∧ strchr a c = None ∧ p = String c t.
Proof.
  revert p. induction s as [|x s IH]; intros p; simpl; [done|]. destruct (Ascii.eqb_spec x c) as [->|Hne].
  - intros [= <-]. by exists ""%string, s.
  - intros (a & t & -> & Ha & ->)%IH. exists (String x a), t. split_and!; [done| |done]. simpl.
    by destruct (Ascii.eqb_spec x c).
Qed.

Lemma app_assoc_string (x y z : string) : (x +:+ (y +:+ z) = (x +:+ y) +:+ z)%string.
Proof. induction x as [|c x IH]; [done|]. change (String c (x +:+ (y +:+ z)) = String c ((x +:+ y) +:+ z))%string. by f_equal. Qed.

(** The route that is left is one that is left as it is. *)
Lemma route_check_again r s : ip_route_sanity_check true r = Some s → ip_route_sanity_check true s = Some s.
Proof.
  unfold ip_route_sanity_check at 1. destruct (strchr r _) as [p|] eqn:Ep.
  2: { intros [= <-]. unfold ip_route_sanity_check. by rewrite Ep. }
  destruct (strchr p _) as [q|] eqn:Eq; [|done]. destruct (bool_decide _) eqn:Ed.
  { intros [= <-]. unfold ip_route_sanity_check. by rewrite Ep, Eq, Ed. }
  destruct (ipv4_prefix_to_strmask _) as [m|] eqn:Em; [|done]. intros [= <-].
  apply strchr_at_split in Ep as (a & t & -> & Ha & ->). apply strchr_at_split in Eq as (b & u & Eb & Hb & ->).
  destruct b as [|x b]; [discriminate Eb|]. injection Eb as <- ->.
  set (h := (a +:+ String "."%char b)%string).
  assert (String.substring 0 (String.length (a +:+ String "."%char (b +:+ String "/"%char u)) - String.length (String "/"%char u))
            (a +:+ String "."%char (b +:+ String "/"%char u)) = h) as Eh.
  { change (String "."%char (b +:+ String "/"%char u))%string with (String "."%char b +:+ String "/"%char u)%string.
    rewrite app_assoc_string. fold h. rewrite length_app_string, Nat.add_sub. apply substring_app. }
  rewrite Eh. assert (is_Some (strchr m "."%char)) as Hm.
  { assert (∃ p, 1 ≤ p < 1 + 32 ∧ ipv4_prefix_to_strmask p = Some m) as (p & Hp & E).
    { revert Em. unfold ipv4_prefix_to_strmask. set (p := u32 _). intros Em. exists p. split; [|done].
      assert (0 ≤ p) by (apply Z.mod_pos_bound; done). revert Em. unfold ipv4_prefix_mask.
      destruct (Z.eqb_spec p 0), (Z.ltb_spec 32 p); try done. lia. }
    destruct (prefix_notation p Hp) as (_ & _ & m' & E' & Hm' & _). by rewrite E in E'; injection E' as <-. }
  unfold ip_route_sanity_check, h. rewrite !strchr_app, Ha. simpl strchr at 1. simpl. simpl in Hb. rewrite strchr_app, Hb. simpl.
  by rewrite bool_decide_eq_true_2.
Qed.

Lemma sanity_all_spec l : (sanity_check_all l).1 = forallb valid_route l ∧
  (forallb valid_route l = true → forallb valid_route (sanity_check_all l).2 = true).
Proof.
  induction l as [|r l [IH1 IH2]]; [done|]. simpl. unfold valid_route at 1 3.
  destruct (ip_route_sanity_check true (of_bytes r)) as [x|] eqn:E.
  - rewrite bool_decide_eq_true_2 by done. destruct (sanity_check_all l) as [ok l']. simpl in *. split; [done|].
    intros Hl. rewrite (IH2 Hl), andb_true_r. unfold valid_route. rewrite of_to_bytes, (route_check_again _ _ E).
    by apply bool_decide_eq_true_2.
  - rewrite bool_decide_eq_false_2 by by intros []. simpl. split; [done|]. by intros.
Qed.

(** The routes of a client are valid. *)
Definition routes_valid (fs : list string) (c : fields) : bool := forallb (λ f, forallb valid_route (texts f c)) fs.

Lemma check_field_spec f c : fields_ok c →
  nums (check_field f c).2 = nums c ∧ fields_ok (check_field f c).2 ∧
  (check_field f c).1 = forallb valid_route (texts f c) ∧
  ((check_field f c).1 = true → forallb valid_route (texts f (check_field f c).2) = true) ∧
  ∀ g, g ≠ f → texts g (check_field f c).2 = texts g c.
Proof.
  intros Hc. unfold check_field. destruct (lists c !! f) as [a|] eqn:Ea.
  2: { assert (texts f c = []) as E by (unfold texts; by rewrite Ea). simpl. by rewrite E. }
  assert (texts f c = vals a) as -> by (unfold texts; by rewrite Ea).
  destruct (sanity_all_spec (vals a)) as [H1 H2].
  destruct (sanity_check_all _) as [ok l]. simpl in *. split_and!; [done| |done| |].
  - apply map_Forall_insert_2; [|done]. exact (Hc f a Ea).
  - intros ->. unfold texts. simpl. rewrite lookup_insert_eq. simpl. by apply H2.
  - intros g Hg. unfold texts. simpl. by rewrite lookup_insert_ne.
Qed.

Lemma check_fields_spec fs c : NoDup fs → fields_ok c →
  nums (check_fields fs c).2 = nums c ∧ fields_ok (check_fields fs c).2 ∧
  (check_fields fs c).1 = routes_valid fs c ∧
  ((check_fields fs c).1 = true → routes_valid fs (check_fields fs c).2 = true) ∧
  ∀ g, g ∉ fs → texts g (check_fields fs c).2 = texts g c.
Proof.
  intros Hnd. revert c. induction fs as [|f fs IH]; intros c Hc; simpl; [done|]. apply NoDup_cons in Hnd as [Hf Hnd].
  destruct (check_field_spec f c Hc) as (Hn & Hok & H1 & H2 & H3).
  destruct (check_field f c) as [ok c']. simpl in *. subst ok.
  assert (routes_valid fs c' = routes_valid fs c) as Es.
  { unfold routes_valid. clear -H3 Hf. induction fs as [|g fs IH]; [done|]. apply not_elem_of_cons in Hf as [Hg Hf].
    simpl. by rewrite IH, H3. }
  destruct (forallb valid_route (texts f c)); cbn [andb]; [|simpl; split_and!; try done; set_solver].
  destruct (IH Hnd c' Hok) as (In & Iok & I1 & I2 & I3). rewrite In, I1, Es. split_and!; [done|done|done| |].
  - intros Hv. rewrite I1, Es in I2. by rewrite (I3 f Hf), (H2 eq_refl), (I2 Hv).
  - intros g Hg. rewrite I3, H3 by set_solver. done.
Qed.

Definition route_fields : list string := ["routes"; "iroutes"; "no_routes"]%string.

(** A line with a route that cannot be used. *)
Definition bad_route (it : item) : bool :=
  match it with
  | IPair n v => bool_decide (n ∈ to_bytes <$> ["route"; "no-route"; "iroute"]%string) && negb (valid_route v)
  | ISection _ => false
  end.

Lemma line_adds_valid it : forallb (λ f, forallb valid_route (line_adds f it)) route_fields = negb (bad_route it).
Proof.
  destruct it as [n|n v]; [done|]. unfold line_adds, bad_route. destruct (find_sup_option n) as [[nm a]|] eqn:E.
  - unfold find_sup_option in E. apply List.find_some in E as [Hin En%bool_decide_eq_true_1]. simpl in En. subst n.
    generalize valid_route. intros valid.
    repeat (destruct Hin as [[= <- <-]|Hin]; [vm_compute; by destruct (valid v)|]). done.
  - rewrite bool_decide_eq_false_2; [done|]. intros Hin. simpl in Hin.
    rewrite !elem_of_cons in Hin. destruct Hin as [->|[->|[->|?%elem_of_nil]]]; done.
Qed.

Lemma file_adds_valid l : forallb (λ f, forallb valid_route (file_adds f l)) route_fields = negb (existsb bad_route l).
Proof.
  induction l as [|it l IH]; [done|]. cbn [existsb]. rewrite negb_orb, <-IH, <-line_adds_valid.
  unfold file_adds. cbn [forallb route_fields]. rewrite !bind_cons, !forallb_app. btauto.
Qed.

Section files.
Context (fopen : list Z → option (list Z)) (access : list Z → bool).

(** A file is refused exactly if it has a route that cannot be used. *)
Lemma parse_group_items g file l : fopen file = Some (render_items l) → Forall (item_ok [59]) l → Forall option_line l →
  fields_ok (gc g) → routes_valid route_fields (gc g) = true →
  ∃ g', parse_group_cfg_file fopen g file = Ok (if existsb bad_route l then ERR_READ_CONFIG else 0, g') ∧
    fields_ok (gc g') ∧ (existsb bad_route l = false → routes_valid route_fields (gc g') = true) ∧
    ∀ f, nums (gc g') !! f = file_sets f l (nums (gc g) !! f).
Proof.
  intros Hf Hl Ho Hg Hr. unfold parse_group_cfg_file, ini_parse. rewrite Hf, ini_items by done.
  destruct (sup_items (ini_init g) l) as (st & -> & He & Hok & Hn & Ht); [done..|]. run.
  destruct (Z.ltb_spec (error st) 0); [lia|].
  destruct (check_fields_spec route_fields (gc (user st))) as (Hc & Hc' & H1 & H2 & _); [compute_done|done|].
  assert (routes_valid route_fields (gc (user st)) = negb (existsb bad_route l)) as Ev.
  { rewrite <-file_adds_valid. unfold routes_valid in *. cbn [forallb route_fields] in *. rewrite !Ht, !forallb_app. cbn [user ini_init].
    apply andb_true_iff in Hr as [-> Hr]. apply andb_true_iff in Hr as [-> Hr]. apply andb_true_iff in Hr as [-> _]. done. }
  fold route_fields. destruct (check_fields _ _) as [ok c]. cbn [fst snd] in *. rewrite Ev in H1. subst ok.
  exists {| gc := c; gc_fw_ports := gc_fw_ports (user st) |}. split; [|split; [exact Hc'|]].
  - destruct (existsb bad_route l); reflexivity.
  - split; [intros E; rewrite E in H2; by apply H2|]. intros f. cbn [gc]. by rewrite Hc, Hn.
Qed.

Lemma read_sup_items g file fallback l : access file = true → fopen file = Some (render_items l) →
  Forall (item_ok [59]) l → Forall option_line l → fields_ok (gc g) → routes_valid route_fields (gc g) = true →
  ∃ g', read_sup_config_file fopen access g file fallback = Ok (if existsb bad_route l then ERR_READ_CONFIG else 0, g') ∧
    fields_ok (gc g') ∧ (existsb bad_route l = false → routes_valid route_fields (gc g') = true) ∧
    ∀ f, nums (gc g') !! f = file_sets f l (nums (gc g) !! f).
Proof.
  intros Ha Hf Hl Ho Hg Hr. unfold read_sup_config_file. rewrite Ha.
  destruct (parse_group_items g file l Hf Hl Ho Hg Hr) as (g' & -> & Hok & Hv & Hn). run.
  eexists. split; [|done]. by destruct (existsb bad_route l).
Qed.
End files.

(** ** The defaults *)

Lemma put_all_fits a l : (length (vals a) + length l ≤ cap a)%nat →
  put_all a l = Ok {| cap := cap a; vals := vals a ++ l |}.
Proof.
  revert a. induction l as [|v l IH]; intros a Ha; simpl in *; [rewrite app_nil_r; by destruct a|].
  unfold put. destruct (Nat.ltb_spec (length (vals a)) (cap a)); [|lia]. run.
  rewrite IH; [|simpl; rewrite length_app; simpl; lia]. simpl. by rewrite <- (assoc_L (++)).
Qed.

Lemma texts_set f a c : texts f (set_list f a c) = vals a.
Proof. unfold texts. simpl. by rewrite lookup_insert_eq. Qed.
Lemma texts_set_ne f g a c : f ≠ g → texts f (set_list g a c) = texts f c.
Proof. intros H. unfold texts. simpl. by rewrite lookup_insert_ne. Qed.

(** The routes of a client: its own, those behind other clients, and those
    of the server if these are appended. *)
Definition spec_routes (cfg c : fields) : list (list Z) :=
  texts "routes" c ++ List.filter (λ r, negb (bool_decide (r ∈ texts "iroutes" c))) (texts "known_iroutes" cfg) ++
  if num "append_routes" cfg =? 0 then [] else texts "network.routes" cfg.
Definition spec_no_routes (cfg c : fields) : list (list Z) :=
  texts "no_routes" c ++ if num "append_routes" cfg =? 0 then [] else texts "network.no_routes" cfg.

Lemma append_routes_ok cfg c : ∃ c', append_routes cfg c = Ok c' ∧ nums c' = nums c ∧ strs c' = strs c ∧
  texts "routes" c' = spec_routes cfg c ∧ texts "no_routes" c' = spec_no_routes cfg c ∧
  ∀ f, f ≠ "routes"%string → f ≠ "no_routes"%string → lists c' !! f = lists c !! f.
Proof.
  unfold append_routes, spec_routes, spec_no_routes. set (own := texts "routes" c). set (known := texts "known_iroutes" cfg).
  set (fk := List.filter _ known).
  assert (length fk ≤ length known)%nat as Hfk by apply List.filter_length_le.
  destruct (num "append_routes" cfg =? 0); cbn [negb andb].
  - destruct (Nat.eqb_spec (length known) 0) as [E|E]; cbn [andb].
    { exists c. assert (fk = []) as -> by (apply length_zero_iff_nil; lia). by rewrite !app_nil_r. }
    rewrite put_all_fits by (simpl; lia). run. rewrite put_all_fits by (simpl; lia). run.
    eexists. split; [done|]. rewrite texts_set, texts_set_ne by done. cbn [vals]. rewrite !app_nil_r. simpl app.
    split_and!; try done. intros f Hf _. simpl. by rewrite lookup_insert_ne.
  - rewrite andb_false_r.
    rewrite put_all_fits by (simpl; lia). run. rewrite put_all_fits by (simpl; lia). run.
    rewrite put_all_fits by (simpl; rewrite length_app; lia). run. cbn [vals cap]. simpl app at 1.
    destruct (Nat.eqb_spec (length (texts "network.no_routes" cfg)) 0) as [E|E].
    + apply length_zero_iff_nil in E. rewrite E, app_nil_r. eexists. split; [done|].
      rewrite texts_set, texts_set_ne by done. cbn [vals]. rewrite <- !(assoc_L (++)).
      split_and!; try done. intros f Hf _. simpl. by rewrite lookup_insert_ne.
    + rewrite texts_set_ne by done. rewrite put_all_fits by (simpl; lia). run. rewrite put_all_fits by (simpl; lia). run.
      eexists. split; [done|]. rewrite texts_set, texts_set_ne, texts_set by done. cbn [vals]. rewrite <- !(assoc_L (++)).
      split_and!; try done. intros f Hf Hf'. simpl. by rewrite !lookup_insert_ne.
Qed.

Lemma def_num_lookup f g x c : nums (def_num g x c) !! f =
  if decide (f = g) then Some (default x (nums c !! f)) else nums c !! f.
Proof.
  unfold def_num. case_decide as E; subst.
  - destruct (nums c !! g) eqn:Eg; simpl; [by rewrite Eg|by rewrite lookup_insert_eq].
  - destruct (nums c !! g); simpl; [done|by rewrite lookup_insert_ne].
Qed.

Lemma def_nums_lookup cfg l c f : NoDup l.*1 →
  nums (foldl (λ c fd, def_num fd.1 (u32 (num fd.2 cfg)) c) c l) !! f =
  match list_find (λ fd, fd.1 = f) l with
  | Some (_, fd) => Some (default (u32 (num fd.2 cfg)) (nums c !! f))
  | None => nums c !! f
  end.
Proof.
  revert c. induction l as [|[g d] l IH]; intros c Hd; [done|].
  apply NoDup_cons in Hd as [Hg Hd]. cbn [foldl]. rewrite IH by done. rewrite def_num_lookup. simpl.
  destruct (decide (g = f)) as [->|Hne].
  - rewrite decide_True by done. destruct (list_find _ l) as [[i [f' d']]|] eqn:E; [|done].
    apply list_find_Some in E as (Hi & Hf' & _). simpl in Hf'. subst f'.
    destruct Hg. apply list_elem_of_fmap. exists (f, d'). split; [done|]. by eapply list_elem_of_lookup_2.
  - rewrite (decide_False (P := f = g)) by congruence. by destruct (list_find _ l) as [[i [f' d']]|].
Qed.

Lemma foldl_nums {A} (h : fields → A → fields) l c : (∀ c a, nums (h c a) = nums c) → nums (foldl h c l) = nums c.
Proof. intros H. revert c. induction l as [|a l IH]; intros c; [done|]. cbn [foldl]. by rewrite IH, H. Qed.

Lemma def_list_nums f v c : nums (def_list f v c) = nums c.
Proof. unfold def_list. by repeat case_match. Qed.
Lemma def_str_nums f v c : nums (def_str f v c) = nums c.
Proof. unfold def_str. by repeat case_match. Qed.

(** The numbers of a session: of its files, or of the virtual host. *)
Lemma default_group_nums v g : ∃ g', apply_default_group v g = Ok g' ∧
  ∀ f d, (f, d) ∈ default_nums → nums (gc g') !! f = Some (default (u32 (num d (config v))) (nums (gc g) !! f)).
Proof.
  unfold apply_default_group. cbv zeta.
  edestruct append_routes_ok as (c' & -> & Hn & _). run. eexists. split; [done|]. intros f d Hin. cbn [gc].
  rewrite foldl_nums by (intros; apply def_str_nums). rewrite def_nums_lookup by compute_done.
  rewrite foldl_nums by (intros; apply def_list_nums). rewrite Hn, def_list_nums.
  assert (f ≠ "no_udp"%string) as Hf.
  { intros ->. assert ("no_udp"%string ∉ default_nums.*1) as H by compute_done. destruct H.
    apply list_elem_of_fmap. by exists ("no_udp"%string, d). }
  rewrite def_num_lookup, decide_False by done.
  destruct (list_find _ default_nums) as [[i [f' d']]|] eqn:E.
  - apply list_find_Some in E as (Hi & Hf' & _). simpl in Hf'. subst f'. simpl. do 3 f_equal.
    assert (∀ l : list (string * string), NoDup l.*1 → (f, d) ∈ l → (f, d') ∈ l → d = d') as Hu.
    { clear. intros l. induction l as [|[g e] l IH]; [set_solver|]. intros [Hg Hd]%NoDup_cons H1 H2.
      assert (∀ x, (f, x) ∈ l → f ∈ l.*1) by (intros x ?; apply list_elem_of_fmap; by exists (f, x)).
      apply elem_of_cons in H1 as [H1|H1], H2 as [H2|H2]; simplify_eq; naive_solver. }
    f_equal. symmetry. eapply Hu; [|done|by eapply list_elem_of_lookup_2]. compute_done.
  - apply list_find_None in E. rewrite Forall_forall in E. by destruct (E _ Hin).
Qed.

(** The routes a session gets are its own, then those behind other
    clients, then those of the server if these are appended, whatever the
    configurations hold; the arrays that are built have room for them. *)
Theorem append_routes_refines cfg c : ∃ c', append_routes cfg c = Ok c' ∧
  texts "routes" c' = spec_routes cfg c ∧ texts "no_routes" c' = spec_no_routes cfg c.
Proof. destruct (append_routes_ok cfg c) as (c' & ? & _ & _ & ? & ? & _). by exists c'. Qed.

(** Values without '#', which the build means to start a comment. *)
Definition no_hash (it : item) : Prop := match it with IPair _ v => 35 ∉ v | ISection _ => True end.

(** The numbers that a file may set under their documented names and for which
    the virtual host has an option. *)
Definition documented (f : string) : Prop := f ∉ ["tunnel_all_dns"; "mtu"]%string.

(** C37: With a file for the group and one for the user that can be read and
    consist of options with their values (in lines of at most 199 bytes, the
    values not in quotes and without comments or '#'), a session is refused
    exactly if one of the two has a route, no-route or iroute that is not
    valid.  Otherwise it gets each number from the file of the user, if that
    sets it (its last line counts), else from the file of the group, else from
    the configuration of its virtual host.  The number of tunnel-all-dns, whose
    documented name is not known, is left out, and so is the default of the
    MTU. *)
Theorem session_config_precedence fopen access v gdir udir group user gl ul :
  str "per_group_dir" (config v) = Some gdir → str "per_user_dir" (config v) = Some udir → group ≠ [] →
  access (path_in gdir group) = true → fopen (path_in gdir group) = Some (render_items gl) →
  access (path_in udir user) = true → fopen (path_in udir user) = Some (render_items ul) →
  Forall (item_ok [59]) gl → Forall option_line gl → Forall (item_ok [59]) ul → Forall option_line ul →
  Forall no_hash (gl ++ ul) →
  ∃ ret g, get_sup_config_file fopen access (config v) group user no_group_cfg = Ok (ret, g) ∧
    if existsb bad_route (gl ++ ul) then ret = ERR_READ_CONFIG else
    ret = 0 ∧ ∃ g', apply_default_group v g = Ok g' ∧
      (∀ f d, (f, d) ∈ default_nums → documented f →
         num f (gc g') = default (u32 (num d (config v))) (file_sets f ul (file_sets f gl None))) ∧
      (∀ x, file_sets "mtu" ul (file_sets "mtu" gl None) = Some x → num "mtu" (gc g') = x).
Proof.
  intros Hgd Hud Hgr Hga Hgf Hua Huf Hgl Hgo Hul Huo _. unfold get_sup_config_file. rewrite Hgd, Hud.
  rewrite bool_decide_eq_false_2 by done. rewrite existsb_app.
  destruct (read_sup_items fopen access no_group_cfg (path_in gdir group) (str "default_group_conf" (config v)) gl)
    as (g & -> & Hok & Hv & Hn); [done..|apply map_Forall_empty|reflexivity|]. run.
  destruct (existsb bad_route gl); cbn [orb]; simpl Z.ltb; cbv iota; [by eexists _, _|].
  destruct (read_sup_items fopen access g (path_in udir user) (str "default_user_conf" (config v)) ul)
    as (g2 & -> & Hok' & Hv' & Hn'); [done..|by apply Hv|].
  eexists _, _. split; [done|]. destruct (existsb bad_route ul); [done|]. split; [done|].
  destruct (default_group_nums v g2) as (g' & Hg' & Hnum). exists g'. split; [done|].
  assert (∀ f d, (f, d) ∈ default_nums →
    num f (gc g') = default (u32 (num d (config v))) (file_sets f ul (file_sets f gl None))) as Hall.
  { intros f d Hin. unfold num at 1. rewrite (Hnum f d Hin), Hn', Hn. done. }
  split; [by auto|]. intros x Hx. rewrite (Hall "mtu" "network.mtu")%string by compute_done. by rewrite Hx.
Qed.

Module SupWitnesses.
Definition vh : vhost :=
  set_place CONF (set_str "per_user_dir" (to_bytes "/u") (set_str "per_group_dir" (to_bytes "/g") default_config))
    (vhost_add None false).
Definition group_items : list item :=
  [IPair (to_bytes "keepalive") (to_bytes "100"); IPair (to_bytes "mtu") (to_bytes "1400");
   IPair (to_bytes "route") (to_bytes "10.0.0.0/8")].
Definition user_items : list item := [IPair (to_bytes "mtu") (to_bytes "1300"); IPair (to_bytes "no-udp") (to_bytes "yes")].
Definition files (name : list Z) : option (list Z) :=
  if bool_decide (name = to_bytes "/g/admins") then Some (render_items group_items)
  else if bool_decide (name = to_bytes "/u/joe") then Some (render_items user_items) else None.

Lemma session_config_precedence_witness :
  ∃ ret g, get_sup_config_file files (λ _, true) (config vh) (to_bytes "admins") (to_bytes "joe") no_group_cfg = Ok (ret, g) ∧
    ret = 0 ∧ ∃ g', apply_default_group vh g = Ok g' ∧
      (∀ f d, (f, d) ∈ default_nums → documented f →
         num f (gc g') = default (u32 (num d (config vh))) (file_sets f user_items (file_sets f group_items None))) ∧
      (∀ x, file_sets "mtu" user_items (file_sets "mtu" group_items None) = Some x → num "mtu" (gc g') = x).
Proof.
  apply (session_config_precedence files (λ _, true) vh (to_bytes "/g") (to_bytes "/u") (to_bytes "admins") (to_bytes "joe")
    group_items user_items); try reflexivity; try discriminate.
  1-4: lines_ok.
  simpl. repeat (apply List.Forall_cons; [simpl; compute_done|]). apply List.Forall_nil.
Defined.

(** A route that is not valid refuses the session. *)
Example bad_route_refused :
  match get_sup_config_file (λ _, Some (render_items [IPair (to_bytes "route") (to_bytes "10.0.0.0/0")])) (λ _, true)
          (config vh) [] (to_bytes "joe") no_group_cfg with
  | Ok (ret, _) => ret = ERR_READ_CONFIG
  | _ => False
  end.
Proof. vm_compute. reflexivity. Qed.

Example session_numbers :
  match get_sup_config_file files (λ _, true) (config vh) (to_bytes "admins") (to_bytes "joe") no_group_cfg with
  | Ok (ret, g) =>
    match apply_default_group vh g with
    | Ok g' => Some (ret, map (λ f, num f (gc g')) ["mtu"; "keepalive"; "dpd"; "no_udp"]%string, map of_bytes (texts "routes" (gc g')))
    | _ => None
    end
  | _ => None
  end = Some (0, [1300; 100; 60; 1], ["10.0.0.0/255.0.0.0"%string]).
Proof. vm_compute. reflexivity. Qed.

(** A restriction to ports that cannot be read is ignored: the session is
    started without it. *)
Definition bad_ports (name : list Z) : option (list Z) :=
  Some (render_items [IPair (to_bytes "restrict-user-to-ports") (to_bytes "tcp 443")]).
Example bad_restriction_ignored :
  match get_sup_config_file bad_ports (λ _, true) (config vh) [] (to_bytes "joe") no_group_cfg with
  | Ok (ret, g) => Some (ret, gc_fw_ports g)
  | _ => None
  end = Some (0, []).
Proof. vm_compute. reflexivity. Qed.

(** The documented name of an option is not known. *)
Example tunnel_all_dns_unknown :
  find_sup_option (to_bytes "tunnel-all-dns") = None ∧ is_Some (find_sup_option (to_bytes "tunnel_all_dns")).
Proof. split; [reflexivity|by eexists]. Qed.

(** With append-routes a session without own routes gets the routes of the
    server twice. *)
Definition appending : vhost :=
  set_place CONF (set_num "append_routes" 1 (set_list "network.routes" {| cap := 96; vals := [to_bytes "10.0.0.0/255.0.0.0"] |}
    default_config)) (vhost_add None false).
Example routes_twice :
  match apply_default_group appending no_group_cfg with
  | Ok g => map of_bytes (texts "routes" (gc g))
  | _ => []
  end = ["10.0.0.0/255.0.0.0"; "10.0.0.0/255.0.0.0"]%string.
Proof. vm_compute. reflexivity. Qed.
End SupWitnesses.
