(* ===== verification/ConfAttic.v ===== *)
(** * Configurations in use (src/config.c, src/main-sec-mod-cmd.c, src/main-proc.c)

    A reload replaces the configuration of every virtual host, but the
    sessions that were opened keep pointers into the old one.  Each
    configuration counts them; the old ones are kept in an attic of the
    virtual host until their count is zero.  Configurations are names whose
    counts are in a map; one that is freed is no longer there, and reading its
    count is undefined.  Allocations succeed. *)

From stdpp Require Import gmap fin_maps.
From S2P Require Import Prelude.

(** [perm_config.config], NULL while reloading, and [perm_config.attic]. *)
Record perm_st := { cur : option nat; attic : list nat }.

Record confs_st := {
  counts : gmap nat Z;                (* usage_count of the configurations that are not freed *)
  next : nat;                         (* a name that was not used *)
  hosts : list perm_st;
  procs : gmap nat (option nat) }.    (* config_usage_count of every client *)

(** ** Operations *)

Definition set_host (i : nat) (h : perm_st) (s : confs_st) : confs_st := {| s with hosts := <[i := h]> (hosts s) |}.

(** [cfg_new] for a virtual host. *)
Definition cfg_alloc (i : nat) (h : perm_st) (s : confs_st) : confs_st :=
  let s := {| s with counts := <[next s := 0]> (counts s); next := S (next s) |} in
  set_host i {| h with cur := Some (pred (next s)) |} s.

(** The body of the loop of [archive_cfg]. *)
Definition archive_one (i : nat) (s : confs_st) : cres confs_st :=
  match hosts s !! i with
  | None => Ok s
  | Some h =>
    match cur h with
    | None => UB
    | Some c =>
      match counts s !! c with
      | None => UB
      | Some n =>
        Ok (if n =? 0 then set_host i {| h with cur := None |} {| s with counts := delete c (counts s) |}
            else set_host i {| cur := None; attic := c :: attic h |} s)
      end
    end
  end.

(** The body of the loop of [reload_cfg_file]. *)
Definition renew_one (i : nat) (s : confs_st) : cres confs_st :=
  match hosts s !! i with
  | None => Ok s
  | Some h => Ok match cur h with None => cfg_alloc i h s | Some _ => s end
  end.

(** The inner loop of [clear_old_configs]. *)
Fixpoint clear_attic (cs : gmap nat Z) (l : list nat) : cres (gmap nat Z * list nat) :=
  match l with
  | [] => Ok (cs, [])
  | c :: l' =>
    match cs !! c with
    | None => UB
    | Some n =>
      if n =? 0 then clear_attic (delete c cs) l'
      else '(cs, l') ← clear_attic cs l'; Ok (cs, c :: l')
    end
  end.
Definition clear_one (i : nat) (s : confs_st) : cres confs_st :=
  match hosts s !! i with
  | None => Ok s
  | Some h =>
    '(cs, l) ← clear_attic (counts s) (attic h);
    Ok (set_host i {| h with attic := l |} {| s with counts := cs |})
  end.

(** [list_for_each(head, vhost, list)]. *)
Fixpoint for_hosts (f : nat → confs_st → cres confs_st) (l : list nat) (s : confs_st) : cres confs_st :=
  match l with [] => Ok s | i :: l' => s ← f i s; for_hosts f l' s end.
Definition each_host f s := for_hosts f (seq 0 (length (hosts s))) s.

(** The part of [reload_cfg_file] before the file is read, in the main
    process, and [clear_old_configs]. *)
Definition reload_configs (s : confs_st) : cres confs_st := s ← each_host archive_one s; each_host renew_one s.
Definition clear_old_configs (s : confs_st) : cres confs_st := each_host clear_one s.

(** A virtual host that the file adds. *)
Definition add_host (s : confs_st) : confs_st :=
  {| s with counts := <[next s := 0]> (counts s); next := S (next s);
            hosts := {| cur := Some (next s); attic := [] |} :: hosts s |}.

(** The end of [apply_default_config] for the client [p] of a virtual host. *)
Definition use_config (p i : nat) (s : confs_st) : cres confs_st :=
  match hosts s !! i with
  | None => Ok s
  | Some h =>
    match cur h with
    | None => UB
    | Some c =>
      match counts s !! c with
      | None => UB
      | Some n => Ok {| s with counts := <[c := n + 1]> (counts s); procs := <[p := Some c]> (procs s) |}
      end
    end
  end.

(** The end of [remove_proc]. *)
Definition release_config (p : nat) (s : confs_st) : cres confs_st :=
  match procs s !! p with
  | Some (Some c) =>
    match counts s !! c with
    | None => UB
    | Some n => Ok {| s with counts := if 0 <? n then <[c := n - 1]> (counts s) else counts s; procs := delete p (procs s) |}
    end
  | _ => Ok {| s with procs := delete p (procs s) |}
  end.

(** ** Runs *)

Inductive event := EvConnect (p : nat) | EvOpen (p i : nat) | EvRemove (p : nat) | EvReload | EvClear | EvAddHost.

(** A client is new when it connects, and is there when it opens a session. *)
Definition event_ok (s : confs_st) (ev : event) : Prop :=
  match ev with
  | EvConnect p => procs s !! p = None
  | EvOpen p _ => procs s !! p = Some None
  | _ => True
  end.

Definition do_event (s : confs_st) (ev : event) : cres confs_st :=
  match ev with
  | EvConnect p => Ok {| s with procs := <[p := None]> (procs s) |}
  | EvOpen p i => use_config p i s
  | EvRemove p => release_config p s
  | EvReload => reload_configs s
  | EvClear => clear_old_configs s
  | EvAddHost => Ok (add_host s)
  end.

Definition start : confs_st := add_host {| counts := ∅; next := 0; hosts := []; procs := ∅ |}.

Inductive run : list event → confs_st → Prop :=
| run_start : run [] start
| run_step evs s ev s' : run evs s → event_ok s ev → do_event s ev = Ok s' → run (evs ++ [ev]) s'.

(** ** What holds *)

(** The clients that use a configuration. *)
Definition users (s : confs_st) (c : nat) : gmap nat (option nat) := filter (λ kv, kv.2 = Some c) (procs s).

Definition names (h : perm_st) : list nat := option_list (cur h) ++ attic h.
Definition all_names (l : list perm_st) : list nat := l ≫= names.

Record confs_ok (s : confs_st) : Prop := {
  ok_users c : default 0 (counts s !! c) = Z.of_nat (size (users s c));
  ok_names : NoDup (all_names (hosts s));
  ok_live c : is_Some (counts s !! c) ↔ c ∈ all_names (hosts s);
  ok_next c : is_Some (counts s !! c) → (c < next s)%nat }.

Lemma names_insert l i h h' : l !! i = Some h →
  ∃ r, all_names l ≡ₚ names h ++ r ∧ all_names (<[i := h']> l) ≡ₚ names h' ++ r.
Proof.
  intros Hi. exists (all_names (take i l) ++ all_names (drop (S i) l)). unfold all_names.
  assert (∀ x, ((take i l ++ x :: drop (S i) l) ≫= names) ≡ₚ names x ++ (take i l ≫= names) ++ (drop (S i) l ≫= names)) as H.
  { intros x. rewrite bind_app, bind_cons. by rewrite !(assoc_L (++)), (Permutation_app_comm (names x)). }
  split; [by rewrite <- H, take_drop_middle|].
  rewrite <- H, insert_take_drop; [done|]. by eapply lookup_lt_Some.
Qed.

(** ** Operations keep it *)

Lemma users_insert s c p o : procs s !! p = None ∨ procs s !! p = Some None →
  size (filter (λ kv : nat * option nat, kv.2 = Some c) (<[p := o]> (procs s))) =
    (size (users s c) + if decide (o = Some c) then 1 else 0)%nat.
Proof.
  intros Hp. unfold users. set (f := λ kv : nat * option nat, kv.2 = Some c).
  assert (filter f (procs s) !! p = None) as Hn.
  { apply map_lookup_filter_None. right. intros x Hx. unfold f. simpl. destruct Hp; naive_solver. }
  case_decide as E.
  - rewrite map_filter_insert_True by done. rewrite map_size_insert_None by done. lia.
  - rewrite map_filter_insert_False by done. rewrite map_filter_delete, delete_id by done. lia.
Qed.

Lemma users_delete s c p : size (filter (λ kv : nat * option nat, kv.2 = Some c) (delete p (procs s))) =
  (size (users s c) - if decide (procs s !! p = Some (Some c)) then 1 else 0)%nat.
Proof.
  unfold users. rewrite map_filter_delete. case_decide as E.
  - rewrite map_size_delete_Some; [lia|]. exists (Some c). apply map_lookup_filter_Some. by split.
  - rewrite delete_id; [lia|]. apply map_lookup_filter_None. right. intros x Hx Hc. simpl in Hc. congruence.
Qed.

Lemma users_pos s c p : procs s !! p = Some (Some c) → (0 < size (users s c))%nat.
Proof.
  intros Hp. destruct (decide (size (users s c) = 0%nat)) as [E|]; [|lia].
  apply map_size_empty_inv in E. exfalso. assert (users s c !! p = Some (Some c)) as H by by apply map_lookup_filter_Some.
  by rewrite E, lookup_empty in H.
Qed.

(** A configuration that nobody uses can be freed. *)
Lemma ok_free s c i h h' : confs_ok s → counts s !! c = Some 0 → hosts s !! i = Some h →
  names h ≡ₚ c :: names h' → confs_ok (set_host i h' {| s with counts := delete c (counts s) |}).
Proof.
  intros [Hu Hnd Hl Hn] Hc Hi Hh. destruct (names_insert (hosts s) i h h' Hi) as (r & Hr & Hr').
  assert (NoDup (c :: names h' ++ r)) as Hnd' by (rewrite app_comm_cons, <- Hh, <- Hr; done).
  apply NoDup_cons in Hnd' as [Hcr Hnd'].
  split; simpl.
  - intros d. destruct (decide (d = c)) as [->|]; [|by rewrite lookup_delete_ne].
    rewrite lookup_delete_eq. simpl. specialize (Hu c). rewrite Hc in Hu. exact Hu.
  - by rewrite Hr'.
  - intros d. rewrite Hr'. destruct (decide (d = c)) as [->|Hd].
    + rewrite lookup_delete_eq. split; [by intros []|done].
    + rewrite lookup_delete_ne by done. rewrite Hl, Hr, Hh. set_solver.
  - intros d. rewrite lookup_delete_is_Some. intros [_ ?]. by apply Hn.
Qed.

(** Names may be moved around in a virtual host. *)
Lemma ok_move s i h h' : confs_ok s → hosts s !! i = Some h → names h ≡ₚ names h' → confs_ok (set_host i h' s).
Proof.
  intros [Hu Hnd Hl Hn] Hi Hh. destruct (names_insert (hosts s) i h h' Hi) as (r & Hr & Hr').
  assert (all_names (<[i := h']> (hosts s)) ≡ₚ all_names (hosts s)) as E by by rewrite Hr, Hr', Hh.
  split; simpl; [done|by rewrite E|intros c; by rewrite E|done].
Qed.

Lemma archive_one_ok i s : confs_ok s → (∀ h, hosts s !! i = Some h → is_Some (cur h)) →
  ∃ s', archive_one i s = Ok s' ∧ confs_ok s' ∧ procs s' = procs s ∧ next s' = next s ∧
    (hosts s !! i = None → s' = s) ∧
    (∀ h, hosts s !! i = Some h → ∃ l, hosts s' = <[i := {| cur := None; attic := l |}]> (hosts s)).
Proof.
  intros Hs Hcur. unfold archive_one. destruct (hosts s !! i) as [h|] eqn:Hi; [|by exists s].
  destruct (Hcur h eq_refl) as [c Hc]. rewrite Hc.
  assert (is_Some (counts s !! c)) as [n Hn].
  { apply (ok_live s Hs). destruct (names_insert _ _ _ h Hi) as (r & -> & _). unfold names. rewrite Hc. set_solver. }
  rewrite Hn. eexists. split; [done|]. destruct (Z.eqb_spec n 0) as [->|Hn0].
  - split_and!; try done; [|by eexists]. eapply ok_free; [done|done|done|]. unfold names. by rewrite Hc.
  - split_and!; try done; [|by eexists]. eapply ok_move; [done|done|]. unfold names. by rewrite Hc.
Qed.

Lemma renew_one_ok i s : confs_ok s →
  ∃ s', renew_one i s = Ok s' ∧ confs_ok s' ∧ procs s' = procs s ∧
    ((s' = s ∧ ∀ h, hosts s !! i = Some h → is_Some (cur h)) ∨
     ∃ h c, hosts s !! i = Some h ∧ hosts s' = <[i := {| cur := Some c; attic := attic h |}]> (hosts s)).
Proof.
  intros Hs. unfold renew_one. destruct (hosts s !! i) as [h|] eqn:Hi; [|exists s; naive_solver].
  destruct (cur h) as [c|] eqn:Hc; [exists s; naive_solver|]. eexists. split; [done|].
  split_and!; [|done|right; by eexists _, _].
  destruct Hs as [Hu Hnd Hl Hn].
  assert (counts s !! next s = None) as Hnx.
  { apply eq_None_not_Some. intros ?%Hn. lia. }
  destruct (names_insert (hosts s) i h {| cur := Some (next s); attic := attic h |} Hi) as (r & Hr & Hr').
  assert (names {| cur := Some (next s); attic := attic h |} = next s :: names h) as En by (unfold names; by rewrite Hc).
  assert (all_names (<[i := {| cur := Some (next s); attic := attic h |}]> (hosts s)) ≡ₚ next s :: all_names (hosts s)) as E
    by by rewrite Hr', En, Hr.
  split; simpl.
  - intros d. destruct (decide (d = next s)) as [->|]; [|by rewrite lookup_insert_ne].
    rewrite lookup_insert_eq. simpl. specialize (Hu (next s)). by rewrite Hnx in Hu.
  - rewrite E. apply NoDup_cons. split; [|done]. rewrite <- Hl, Hnx. by intros [].
  - intros d. rewrite E, elem_of_cons, <- Hl, lookup_insert_is_Some'. naive_solver.
  - intros d. rewrite lookup_insert_is_Some'. intros [->|?%Hn]; lia.
Qed.

Lemma set_host_twice i h h' s : set_host i h (set_host i h' s) = set_host i h s.
Proof. unfold set_host. simpl. by rewrite list_insert_insert_eq. Qed.

Lemma clear_attic_ok s i h l rest cs : hosts s !! i = Some h →
  confs_ok (set_host i {| cur := cur h; attic := l ++ rest |} {| s with counts := cs |}) →
  ∃ cs' l', clear_attic cs rest = Ok (cs', l') ∧
    confs_ok (set_host i {| cur := cur h; attic := l ++ l' |} {| s with counts := cs' |}) ∧
    Forall (λ c, size (users s c) ≠ 0%nat) l'.
Proof.
  intros Hi. revert l cs. induction rest as [|c rest IH]; intros l cs Hs; simpl; [by eexists _, _|].
  set (s0 := set_host i _ _) in Hs. assert (hosts s0 !! i = Some {| cur := cur h; attic := l ++ c :: rest |}) as Hi0.
  { unfold s0. simpl. apply list_lookup_insert_eq. by eapply lookup_lt_Some. }
  assert (is_Some (cs !! c)) as [n Hn].
  { change cs with (counts s0). apply (ok_live s0 Hs). destruct (names_insert _ _ _ h Hi0) as (r & -> & _).
    unfold names. simpl. set_solver. }
  rewrite Hn. assert (n = Z.of_nat (size (users s c))) as Hu.
  { pose proof (ok_users s0 Hs c) as Hu. change (counts s0) with cs in Hu. by rewrite Hn in Hu. }
  destruct (Z.eqb_spec n 0) as [E|E].
  - destruct (IH l (delete c cs)) as (cs' & l' & H & Hok & Hf); [|by eexists _, _].
    assert (set_host i {| cur := cur h; attic := l ++ rest |} {| s with counts := delete c cs |} =
      set_host i {| cur := cur h; attic := l ++ rest |} {| s0 with counts := delete c (counts s0) |}) as ->.
    { unfold set_host. simpl. by rewrite list_insert_insert_eq. }
    eapply ok_free; [done| |exact Hi0|]; [simpl; by rewrite Hn, E|].
    unfold names. simpl. by rewrite <- !Permutation_middle.
  - destruct (IH (l ++ [c]) cs) as (cs' & l' & H & Hok & Hf).
    { by rewrite <- (assoc_L (++)). }
    rewrite H. run. eexists _, _. split; [done|]. rewrite <- (assoc_L (++)) in Hok. split; [done|].
    apply Forall_cons. split; [lia|done].
Qed.

Lemma clear_one_ok i s : confs_ok s →
  ∃ s', clear_one i s = Ok s' ∧ confs_ok s' ∧ procs s' = procs s ∧
    (hosts s !! i = None ∧ s' = s ∨
     ∃ h l, hosts s !! i = Some h ∧ hosts s' = <[i := {| cur := cur h; attic := l |}]> (hosts s) ∧
       Forall (λ c, size (users s c) ≠ 0%nat) l).
Proof.
  intros Hs. unfold clear_one. destruct (hosts s !! i) as [h|] eqn:Hi; [|exists s; naive_solver].
  destruct (clear_attic_ok s i h [] (attic h) (counts s) Hi) as (cs & l & -> & Hok & Hf).
  { simpl. assert (set_host i {| cur := cur h; attic := attic h |} {| s with counts := counts s |} = s) as ->; [|done].
    unfold set_host. simpl. destruct h, s; simpl in *. by rewrite list_insert_id. }
  run. eexists. split; [done|]. split; [exact Hok|]. split; [done|]. right. by exists h, l.
Qed.

(** The loops over the virtual hosts, from [j] on. *)
Lemma archive_loop k : ∀ j s, confs_ok s → length (hosts s) = (j + k)%nat →
  (∀ i h, (j ≤ i)%nat → hosts s !! i = Some h → is_Some (cur h)) →
  ∃ s', for_hosts archive_one (seq j k) s = Ok s' ∧ confs_ok s' ∧ procs s' = procs s ∧ length (hosts s') = length (hosts s).
Proof.
  induction k as [|k IH]; intros j s Hs Hlen Hcur; [by exists s|]. cbn [seq for_hosts].
  destruct (lookup_lt_is_Some_2 (hosts s) j) as [h Hh]; [lia|].
  destruct (archive_one_ok j s Hs) as (s1 & -> & Hs1 & Hp & _ & _ & Hh1); [intros ? ?; by eapply Hcur|]. run.
  destruct (Hh1 h Hh) as [l El]. assert (length (hosts s1) = length (hosts s)) as Hl by by rewrite El, length_insert.
  destruct (IH (S j) s1) as (s' & -> & Hs' & Hp' & Hl'); [done|lia| |exists s'; split_and!; congruence].
  intros i h' Hi. rewrite El, list_lookup_insert_ne by lia. apply Hcur. lia.
Qed.

Lemma renew_loop k : ∀ j s, confs_ok s → length (hosts s) = (j + k)%nat →
  (∀ i h, (i < j)%nat → hosts s !! i = Some h → is_Some (cur h)) →
  ∃ s', for_hosts renew_one (seq j k) s = Ok s' ∧ confs_ok s' ∧ procs s' = procs s ∧ Forall (λ h, is_Some (cur h)) (hosts s').
Proof.
  induction k as [|k IH]; intros j s Hs Hlen Hcur.
  { exists s. split_and!; try done. apply Forall_lookup. intros i h Hi. eapply Hcur; [|exact Hi].
    apply lookup_lt_Some in Hi. lia. }
  cbn [seq for_hosts]. destruct (renew_one_ok j s Hs) as (s1 & -> & Hs1 & Hp & Hh1). run.
  destruct (IH (S j) s1) as (s' & -> & Hs' & Hp' & Hf); [done| | |exists s'; split_and!; congruence].
  - destruct Hh1 as [[-> _]|(h & c & _ & ->)]; rewrite ?length_insert; lia.
  - intros i h' Hi. destruct (decide (i = j)) as [->|Hne].
    + destruct Hh1 as [[-> Hc]|(h & c & Hj & ->)]; [apply Hc|].
      rewrite list_lookup_insert_eq by (by eapply lookup_lt_Some). intros [= <-]. by eexists.
    + destruct Hh1 as [[-> Hc]|(h & c & Hj & ->)]; [|rewrite list_lookup_insert_ne by done]; apply Hcur; lia.
Qed.

Definition attic_used (s : confs_st) (h : perm_st) : Prop := Forall (λ c, size (users s c) ≠ 0%nat) (attic h).

Lemma clear_loop k : ∀ j s, confs_ok s → length (hosts s) = (j + k)%nat → Forall (λ h, is_Some (cur h)) (hosts s) →
  (∀ i h, (i < j)%nat → hosts s !! i = Some h → attic_used s h) →
  ∃ s', for_hosts clear_one (seq j k) s = Ok s' ∧ confs_ok s' ∧ procs s' = procs s ∧
    Forall (λ h, is_Some (cur h)) (hosts s') ∧ Forall (attic_used s') (hosts s').
Proof.
  induction k as [|k IH]; intros j s Hs Hlen Hcur Hu.
  { exists s. split_and!; try done. apply Forall_lookup. intros i h Hi. eapply Hu; [|exact Hi].
    apply lookup_lt_Some in Hi. lia. }
  cbn [seq for_hosts]. destruct (lookup_lt_is_Some_2 (hosts s) j) as [h Hh]; [lia|].
  destruct (clear_one_ok j s Hs) as (s1 & -> & Hs1 & Hp & [[Hn _]|(h' & l & Hh' & El & Hl)]); [congruence|]. run.
  assert (∀ c, users s1 c = users s c) as Hus by (intros c; unfold users; by rewrite Hp).
  destruct (IH (S j) s1) as (s' & -> & Hs' & Hp' & Hc' & Hf'); [done| | | |exists s'; split_and!; congruence].
  - rewrite El, length_insert. lia.
  - rewrite El. apply Forall_insert; [done|]. simpl. rewrite Forall_lookup in Hcur. by eapply Hcur.
  - intros i h2 Hi. rewrite El. destruct (decide (i = j)) as [->|Hne].
    + rewrite list_lookup_insert_eq by lia. intros [= <-]. unfold attic_used. simpl.
      eapply Forall_impl; [exact Hl|]. intros c. by rewrite Hus.
    + rewrite list_lookup_insert_ne by done. intros Hi2. unfold attic_used.
      eapply Forall_impl; [apply (Hu i h2); [lia|done]|]. intros c. by rewrite Hus.
Qed.

(** ** Runs *)

Definition stable (s : confs_st) : Prop := confs_ok s ∧ Forall (λ h, is_Some (cur h)) (hosts s).

Lemma add_host_ok s : stable s → stable (add_host s).
Proof.
  intros [[Hu Hnd Hl Hn] Hc]. assert (counts s !! next s = None) as Hnx.
  { apply eq_None_not_Some. intros ?%Hn. lia. }
  split; [|by constructor; [by eexists|]]. split; simpl.
  - intros d. destruct (decide (d = next s)) as [->|]; [|by rewrite lookup_insert_ne].
    rewrite lookup_insert_eq. simpl. specialize (Hu (next s)). by rewrite Hnx in Hu.
  - apply NoDup_cons. split; [|done]. change (next s ∉ all_names (hosts s)). rewrite <- Hl, Hnx. by intros [].
  - intros d. change (is_Some (<[next s := 0]> (counts s) !! d) ↔ d ∈ next s :: all_names (hosts s)).
    rewrite elem_of_cons, <- Hl, lookup_insert_is_Some'. naive_solver.
  - intros d. rewrite lookup_insert_is_Some'. intros [->|?%Hn]; lia.
Qed.

Lemma use_config_ok p i s : stable s → procs s !! p = Some None → ∃ s', use_config p i s = Ok s' ∧ stable s'.
Proof.
  intros [Hs Hc] Hp. unfold use_config. destruct (hosts s !! i) as [h|] eqn:Hi; [|by exists s].
  rewrite Forall_lookup in Hc. destruct (Hc i h Hi) as [c Ec]. rewrite Ec.
  assert (is_Some (counts s !! c)) as [n Hn].
  { apply (ok_live s Hs). destruct (names_insert _ _ _ h Hi) as (r & -> & _). unfold names. rewrite Ec. set_solver. }
  rewrite Hn. eexists. split; [done|]. split; [|by apply Forall_lookup]. destruct Hs as [Hu Hnd Hl Hnx]. split; simpl.
  - intros d. unfold users. simpl. rewrite users_insert by auto. specialize (Hu d).
    destruct (decide (d = c)) as [->|Hd].
    + rewrite lookup_insert_eq, decide_True by done. rewrite Hn in Hu. simpl in *. lia.
    + rewrite lookup_insert_ne, decide_False by congruence. rewrite Hu. lia.
  - done.
  - intros d. rewrite lookup_insert_is_Some', <- Hl. split; [|naive_solver]. intros [<-|]; [by eexists|done].
  - intros d. rewrite lookup_insert_is_Some'. intros [<-|]; apply Hnx; [by eexists|done].
Qed.

Lemma release_config_ok p s : stable s → ∃ s', release_config p s = Ok s' ∧ stable s'.
Proof.
  intros [[Hu Hnd Hl Hnx] Hc]. unfold release_config. destruct (procs s !! p) as [[c|]|] eqn:Hp.
  - pose proof (users_pos s c p Hp) as Hpos. specialize (Hu c) as Huc.
    destruct (counts s !! c) as [n|] eqn:Hn; [|simpl in Huc; lia]. simpl in Huc.
    eexists. split; [done|]. split; [|done]. destruct (Z.ltb_spec 0 n); [|lia]. split; simpl.
    + intros d. unfold users. simpl. rewrite users_delete, Hp. specialize (Hu d).
      destruct (decide (d = c)) as [->|Hd].
      * rewrite lookup_insert_eq, decide_True by done. simpl. lia.
      * rewrite lookup_insert_ne, decide_False by congruence. rewrite Hu. lia.
    + done.
    + intros d. rewrite lookup_insert_is_Some', <- Hl. split; [|naive_solver]. intros [<-|]; [by eexists|done].
    + intros d. rewrite lookup_insert_is_Some'. intros [<-|]; apply Hnx; [by eexists|done].
  - eexists. split; [done|]. split; [|done]. split; simpl; [|done..]. intros d. unfold users. simpl.
    rewrite users_delete, Hp, decide_False by done. rewrite Hu. f_equal. lia.
  - eexists. split; [done|]. split; [|done]. split; simpl; [|done..]. intros d. unfold users. simpl.
    rewrite users_delete, Hp, decide_False by done. rewrite Hu. f_equal. lia.
Qed.

Lemma do_event_ok s ev : stable s → event_ok s ev → ∃ s', do_event s ev = Ok s' ∧ stable s'.
Proof.
  intros Hs Hev. destruct ev; simpl in *; [|by apply use_config_ok|by apply release_config_ok| | |].
  - eexists. split; [done|]. destruct Hs as [[Hu Hnd Hl Hnx] Hc]. split; [|done]. split; simpl; [|done..].
    intros d. unfold users. simpl. rewrite users_insert by auto. rewrite decide_False by done. rewrite Hu. f_equal. lia.
  - unfold reload_configs, each_host. destruct Hs as [Hs Hc]. rewrite Forall_lookup in Hc.
    destruct (archive_loop (length (hosts s)) 0 s) as (s1 & -> & Hs1 & _ & Hl); [done|done|intros i h _; apply Hc|]. run.
    destruct (renew_loop (length (hosts s1)) 0 s1) as (s2 & -> & Hs2 & _ & Hc2); [done|done|intros; lia|]. by exists s2.
  - unfold clear_old_configs, each_host. destruct Hs as [Hs Hc].
    destruct (clear_loop (length (hosts s)) 0 s) as (s1 & -> & Hs1 & _ & Hc1 & _); [done|done|done|intros; lia|]. by exists s1.
  - eexists. split; [done|]. by apply add_host_ok.
Qed.

Lemma start_stable : stable start.
Proof.
  apply add_host_ok. split; [|done]. split; simpl; try done.
  - constructor.
  - intros c. rewrite lookup_empty. split; [by intros []|by intros ?%elem_of_nil].
  - intros c. rewrite lookup_empty. by intros [].
Qed.

Lemma run_stable evs s : run evs s → stable s.
Proof.
  induction 1 as [|evs s ev s' _ IH Hev H]; [apply start_stable|].
  destruct (do_event_ok s ev IH Hev) as (s'' & E & Hs). congruence.
Qed.

(** C36: However clients come and go and whenever the configuration is
    reloaded or old ones are cleared, no configuration is used after it was
    freed: every event can be handled, and the configuration a client points
    to is there, with a count of exactly the clients that use it. *)
Theorem config_in_use_kept evs s : run evs s →
  (∀ ev, event_ok s ev → ∃ s', do_event s ev = Ok s') ∧
  (∀ p c, procs s !! p = Some (Some c) → counts s !! c = Some (Z.of_nat (size (users s c)))).
Proof.
  intros H. apply run_stable in H. split.
  - intros ev Hev. destruct (do_event_ok s ev H Hev) as (s' & E & _). by exists s'.
  - intros p c Hp. pose proof (users_pos s c p Hp). destruct H as [H _]. pose proof (ok_users s H c) as Hu.
    destruct (counts s !! c); simpl in Hu; [by rewrite Hu|lia].
Qed.

(** Clearing old configurations leaves only those that are current or
    that a client uses. *)
Theorem unused_configs_freed evs s : run evs s →
  ∃ s', clear_old_configs s = Ok s' ∧
    ∀ c, is_Some (counts s' !! c) → (∃ h, h ∈ hosts s' ∧ cur h = Some c) ∨ (∃ p, procs s' !! p = Some (Some c)).
Proof.
  intros [Hs Hc]%run_stable. unfold clear_old_configs, each_host.
  destruct (clear_loop (length (hosts s)) 0 s) as (s1 & E & Hs1 & _ & _ & Hu); [done|done|done|intros; lia|].
  exists s1. split; [done|]. intros c Hl. apply (ok_live s1 Hs1), list_elem_of_bind in Hl as (h & Hin & Hh).
  unfold names in Hin. apply elem_of_app in Hin as [Hin|Hin].
  - left. exists h. split; [done|]. destruct (cur h); [|set_solver]. simpl in Hin. f_equal. set_solver.
  - right. rewrite Forall_forall in Hu. pose proof (Hu h Hh) as Hf. unfold attic_used in Hf. rewrite Forall_forall in Hf.
    specialize (Hf c Hin). destruct (map_choose (users s1 c)) as (p & o & Hp).
    { intros E'. by rewrite E', map_size_empty in Hf. }
    apply map_lookup_filter_Some in Hp as [Hp Ho]. simpl in Ho. subst o. by exists p.
Qed.

Module AtticWitnesses.
Definition after (s : confs_st) (ev : event) : confs_st := match do_event s ev with Ok s' => s' | _ => s end.
Definition s1 := after start (EvConnect 7).
Definition s2 := after s1 (EvOpen 7 0).
Definition s3 := after s2 EvReload.
Definition s4 := after s3 EvClear.
Definition evs : list event := [EvConnect 7; EvOpen 7 0; EvReload; EvClear].

Lemma run4 : run evs s4.
Proof.
  apply (run_step [EvConnect 7; EvOpen 7 0; EvReload] s3 EvClear); [|exact I|vm_compute; reflexivity].
  apply (run_step [EvConnect 7; EvOpen 7 0] s2 EvReload); [|exact I|vm_compute; reflexivity].
  apply (run_step [EvConnect 7] s1 (EvOpen 7 0)); [|vm_compute; reflexivity|vm_compute; reflexivity].
  apply (run_step [] start (EvConnect 7)); [apply run_start|reflexivity|vm_compute; reflexivity].
Qed.

(** The old configuration stays for the client, and goes with it. *)
Example attic_example :
  map (λ h, (cur h, attic h)) (hosts s4) = [(Some 1%nat, [0%nat])] ∧
  map (λ h, (cur h, attic h)) (hosts (after (after s4 (EvRemove 7)) EvClear)) = [(Some 1%nat, [])].
Proof. split; vm_compute; reflexivity. Qed.

Lemma config_in_use_kept_witness : run evs s4 ∧
  (∀ ev, event_ok s4 ev → ∃ s', do_event s4 ev = Ok s') ∧
  (∀ p c, procs s4 !! p = Some (Some c) → counts s4 !! c = Some (Z.of_nat (size (users s4 c)))).
Proof. split; [apply run4|]. apply (config_in_use_kept evs s4). apply run4. Defined.

Lemma unused_configs_freed_witness : run evs s4 ∧ ∃ s', clear_old_configs s4 = Ok s' ∧
  ∀ c, is_Some (counts s' !! c) → (∃ h, h ∈ hosts s' ∧ cur h = Some c) ∨ (∃ p, procs s' !! p = Some (Some c)).
Proof. split; [apply run4|]. apply (unused_configs_freed evs s4). apply run4. Defined.
End AtticWitnesses.
