(* ===== verification/MainCtl.v ===== *)
(** * The control socket (src/main-ctl-unix.c)

    The commands of occtl, which the main process serves for root: its state,
    its clients and its ban list are shown, clients are disconnected and
    addresses are no longer banned.  A request is what was unpacked from the
    message, [None] if that failed.  Sockets and messages that could be sent
    are logged; of the information on a client the fields that [proc_st] has
    are modelled. *)

From S2P Require Import Prelude CString Htable Store SecModData SecModDb IpUtil NetText Ban IpLease.
From S2P Require Import ProcTable MainUdp MainProc MainProcSpec MainTheorems.

(** [user_info_rep]. *)
Record user_info := UserInfo {
  ui_id : Z; ui_username : string; ui_groupname : string; ui_ip : string; ui_tun : string;
  ui_local_ip : string; ui_remote_ip : string; ui_local_ip6 : string; ui_remote_ip6 : string;
  ui_conn_time : Z; ui_status : ps_auth; ui_safe_id : string; ui_mtu : option Z }.

Inductive ctl_req :=
| CtlNothing                                  (* nothing could be read *)
| CtlTop | CtlStatus | CtlReload | CtlStop | CtlList | CtlListBanned | CtlListCookies
| CtlUserInfo (name : option string) | CtlIdInfo (id : option Z)
| CtlUnbanIp (ip : option (list Z))
| CtlDisconnectName (name : option string) | CtlDisconnectId (id : option Z)
| CtlUnknown.

Inductive ctl_out :=
| RepStatus (st : main_stats_st) (banned : Z)
| RepBool (cmd : string) (status : bool)
| RepUsers (l : list user_info)
| RepBans (l : list (list Z * Z * option Z))
| RepTop (connected : bool) (reason : option Z) (u : user_info)
| FwdCookies
| Signal (name : string).

(** The answers of the outside: those of a step of the main process, whether
    there is memory for the n-th entry of a list, and the result of
    sending. *)
Record ctl_ext := CtlExt { c_main : main_ext; c_mem : nat → bool; c_send : Z }.

Section ctl.
Context {T : Type} `{HT : HTable T, Env : SecModEnv}.

(** The main process with its control connections. *)
Record ctl_st := Ctl {
  mn : main_server_st T;
  top_fd : Z;                 (* the connection that gets updates, or -1 *)
  conns : list Z;             (* the connections whose watchers run *)
  sent : list (Z * ctl_out) }.
Implicit Types (s : ctl_st) (m : main_server_st T) (x : ctl_ext) (c : proc_st) (p : ptr).

Definition send (fd : Z) (o : ctl_out) s : ctl_st := {| s with sent := sent s ++ [(fd, o)] |}.

Definition IPBUF_SIZE : Z := 64.

Definition lease_text (v6 : bool) (ntop6 : list Z → string) (h : option held) (f : ip_lease_st → list Z) : string :=
  match h with
  | None => ""
  | Some h => if v6 then ntop6 (f (lease h)) else inet_ntop4 (be (f (lease h)))
  end.

(** The address of the peer. *)
Definition peer_text x c : cres string :=
  ip ← human_addr2 (x_ntop6 (c_main x)) (remote_addr c) (remote_addr_len c) IPBUF_SIZE false;
  Ok (default ""%string ip).

Definition shown_mtu c : option Z := if 0 <? mtu c then Some (mtu c) else None.

(** Of the reply the members that [proc_st] has here: the names of host, agent,
    virtual host, ciphers and compression, the address of the server and what
    comes from the client's configuration are not built. *)
Definition append_user_info x c : cres user_info :=
  let ntop6 := x_ntop6 (c_main x) in
  ip ← peer_text x c;
  Ok {| ui_id := pid c; ui_username := username c; ui_groupname := groupname c;
        ui_ip := ip; ui_tun := tun_name c;
        ui_local_ip := lease_text false ntop6 (ipv4 (leases c)) rip;
        ui_remote_ip := lease_text false ntop6 (ipv4 (leases c)) lip;
        ui_local_ip6 := lease_text true ntop6 (ipv6 (leases c)) rip;
        ui_remote_ip6 := lease_text true ntop6 (ipv6 (leases c)) lip;
        ui_conn_time := conn_time c; ui_status := status c; ui_safe_id := calc_safe_id (sid c);
        ui_mtu := shown_mtu c |}.

(** The loop over the list of clients; [sel] decides who is shown, [once]
    whether the first one ends it.  [None] if there is no memory. *)
Fixpoint collect_users x m (sel : proc_st → bool) (once : bool) (n : nat) (l : list ptr) : cres (option (list user_info)) :=
  match l with
  | [] => Ok (Some [])
  | p :: l' =>
    match proc_at m p with
    | None => UB
    | Some c =>
      if negb (sel c) then collect_users x m sel once n l' else
      if negb (c_mem x n) then Ok None else
      u ← append_user_info x c;
      if once then Ok (Some [u]) else
      o ← collect_users x m sel once (S n) l';
      Ok (option_map (cons u) o)
    end
  end.

Definition reply_users (fd : Z) (o : option (list user_info)) s : ctl_st :=
  match o with Some l => send fd (RepUsers l) s | None => s end.

Definition method_list_users x s (fd : Z) : cres ctl_st :=
  o ← collect_users x (mn s) (λ _, true) false 0 (proc_list (mn s));
  Ok (reply_users fd o s).

Definition method_top x s (fd : Z) : cres ctl_st :=
  method_list_users x (if top_fd s =? -1 then {| s with top_fd := fd |} else s) fd.

(** [single_info_common] with a name, or with an [unsigned] number. *)
Definition single_info_name x s (fd : Z) (user : string) : cres ctl_st :=
  o ← collect_users x (mn s) (λ c, bool_decide (username c = user)) false 0 (proc_list (mn s));
  Ok (reply_users fd o s).
Definition single_info_id x s (fd : Z) (id : Z) : cres ctl_st :=
  o ← collect_users x (mn s) (λ c, negb (id =? 0) && negb (id =? u32 (-1)) && (id =? u32 (pid c))) (negb (id =? 0)) 0
        (proc_list (mn s));
  Ok (reply_users fd o s).

(** [append_ban_info]; the configuration's limit is an [int], compared as
    unsigned with the score. *)
Definition append_ban_info (cfg : ban_config) (e : ban_entry_st) : list Z * Z * option Z :=
  (ip e, score e,
   if (0 <? cfg_max_ban_score cfg) && (u32 (cfg_max_ban_score cfg) <=? score e) then Some (u32 (expires e)) else None).

Definition method_list_banned x (cfg : ban_config) s (fd : Z) : ctl_st :=
  let db := ban_db (mn s) in
  let l := omap (λ p, objs db !! p) (htable_walk (tbl db)) in
  if forallb (c_mem x) (seq 0 (length l)) then send fd (RepBans (map (append_ban_info cfg) l)) s else s.

Definition method_unban_ip s (fd : Z) (a : list Z) : ctl_st :=
  let m := mn s in
  let '(r, db) := remove_ip_from_ban_list (ban_db m) a in
  send fd (RepBool "unban" (negb (r =? 0))) {| s with mn := {| m with ban_db := db |} |}.

(** [terminate_proc] (src/main.h). *)
Definition terminate_proc x m p c : cres (main_server_st T) :=
  if negb (pid c =? -1) && negb (pid c =? 0) then Ok (emit (EvKill (pid c)) m)
  else remove_proc (c_main x) m p true false.

(** [list_for_each_safe]; whether somebody was disconnected. *)
Fixpoint terminate_all x m (sel : proc_st → bool) (once : bool) (l : list ptr) : cres (bool * main_server_st T) :=
  match l with
  | [] => Ok (false, m)
  | p :: l' =>
    match proc_at m p with
    | None => UB
    | Some c =>
      if negb (sel c) then terminate_all x m sel once l' else
      m ← terminate_proc x m p c;
      if once then Ok (true, m) else
      '(_, m) ← terminate_all x m sel once l'; Ok (true, m)
    end
  end.

Definition method_disconnect_user_name x s (fd : Z) (user : string) : cres ctl_st :=
  '(b, m) ← terminate_all x (mn s) (λ c, bool_decide (username c = user)) false (proc_list (mn s));
  Ok (send fd (RepBool "disconnect" b) {| s with mn := m |}).
Definition method_disconnect_user_id x s (fd : Z) (id : Z) : cres ctl_st :=
  '(b, m) ← terminate_all x (mn s) (λ c, pid c =? id) (negb (id =? -1)) (proc_list (mn s));
  Ok (send fd (RepBool "disconnect" b) {| s with mn := m |}).

(** The table of methods; a request that cannot be unpacked has no reply. *)
Definition run_method x (cfg : main_config) s (fd : Z) (r : ctl_req) : cres ctl_st :=
  match r with
  | CtlNothing | CtlUnknown | CtlUserInfo None | CtlIdInfo None | CtlUnbanIp None
  | CtlDisconnectName None | CtlDisconnectId None => Ok s
  | CtlTop => method_top x s fd
  | CtlStatus => Ok (send fd (RepStatus (stats (mn s)) (main_ban_db_elems (ban_db (mn s)))) s)
  | CtlReload => Ok (send fd (RepBool "reload" true) (send (-1) (Signal "HUP") s))
  | CtlStop => Ok (send fd (RepBool "stop" true) (send (-1) (Signal "TERM") s))
  | CtlList => method_list_users x s fd
  | CtlListBanned => Ok (method_list_banned x (ban_cfg cfg) s fd)
  | CtlListCookies => Ok (send fd FwdCookies s)
  | CtlUserInfo (Some name) => single_info_name x s fd name
  | CtlIdInfo (Some id) => single_info_id x s fd (u32 id)
  | CtlUnbanIp (Some a) => Ok (method_unban_ip s fd a)
  | CtlDisconnectName (Some name) => method_disconnect_user_name x s fd name
  | CtlDisconnectId (Some id) => method_disconnect_user_id x s fd id
  end.

Definition indefinite (r : ctl_req) : bool := match r with CtlTop => true | _ => false end.

(** [ctl_cmd_wacher_cb] for the connection [fd]. *)
Definition ctl_cmd_watcher_cb x cfg s (fd : Z) (r : ctl_req) : cres ctl_st :=
  s ← run_method x cfg s fd r;
  Ok (if indefinite r then s else
      {| s with top_fd := if top_fd s =? fd then -1 else top_fd s; conns := filter (λ f, f ≠ fd) (conns s) |}).

(** [ctl_handle_commands]: [accept] gives a descriptor that is not in use;
    [peer] is the result of [check_upeer_id], which asks for root. *)
Definition ctl_handle_commands (cfd peer : Z) (mem : bool) s : ctl_st :=
  if (cfd =? -1) || (peer <? 0) || negb mem then s else {| s with conns := cfd :: conns s |}.

(** [ctl_handler_notify] for a client that is connected or disconnected. *)
Definition ctl_handler_notify x s c (connect : bool) : cres ctl_st :=
  if top_fd s =? -1 then Ok s else
  if negb (c_mem x 0) then Ok {| s with top_fd := -1 |} else
  u ← append_user_info x c;
  if c_send x <? 0 then Ok {| s with top_fd := -1 |} else
  Ok (send (top_fd s) (RepTop connect (if negb connect && negb (discon_reason c =? 0) then Some (discon_reason c) else None) u) s).
End ctl.
Arguments ctl_st _ : clear implicits.

(** ** What the commands do *)

Section ctl_spec.
Context {T : Type} `{HT : HTable T, HS : !HTableSpec T, Env : SecModEnv}.
Implicit Types (s : ctl_st T) (m : main_server_st T) (x : ctl_ext) (c : proc_st) (p : ptr).

(** The signals of a log, the last one first. *)
Definition signals (l : list main_event) : list Z := omap (λ e, match e with EvKill k => Some k | _ => None end) l.

(** The connect script of a client that still runs. *)
Definition script_pid (l : list (ptr * Z)) p : option Z :=
  '(_, (_, k)) ← list_find (λ e, e.1 = p) l; if 0 <? k then Some k else None.

Lemma remove_script_pid p l : (remove_from_script_list p l).1 = script_pid l p.
Proof.
  unfold script_pid. induction l as [|[q k] l IH]; [done|]. simpl. case_bool_decide as E.
  - by rewrite decide_True.
  - rewrite decide_False by done. destruct (remove_from_script_list p l) as [o l']. simpl in *. rewrite IH.
    by destruct (list_find _ l) as [[? []]|].
Qed.

Lemma remove_script_other p q l : q ≠ p → script_pid (remove_from_script_list p l).2 q = script_pid l q.
Proof.
  intros Hq. unfold script_pid. induction l as [|[r k] l IH]; [done|]. simpl. case_bool_decide as E.
  - rewrite decide_False by congruence. cbn [snd]. destruct (list_find _ l) as [[? []]|]; reflexivity.
  - destruct (remove_from_script_list p l) as [o l']. simpl in *. destruct (decide (r = q)); [done|].
    destruct (list_find _ l) as [[? []]|], (list_find _ l') as [[? []]|]; simpl in *; congruence.
Qed.

Definition has_worker c : Prop := pid c ≠ -1 ∧ pid c ≠ 0.
#[global] Instance has_worker_dec c : Decision (has_worker c).
Proof. unfold has_worker. apply _. Defined.

Lemma has_worker_bool c : negb (pid c =? -1) && negb (pid c =? 0) = bool_decide (has_worker c).
Proof.
  unfold has_worker. destruct (Z.eqb_spec (pid c) (-1)), (Z.eqb_spec (pid c) 0); cbn [negb andb]; case_bool_decide; naive_solver.
Qed.

(** What is signalled to end a client: its worker, or, if it has none, the
    script that runs for it. *)
Definition signal_of m p c : list Z :=
  if bool_decide (has_worker c) then [pid c] else option_list (script_pid (script_list m) p).

(** A client with a worker stays until the worker is gone, another one is
    removed. *)
Definition terminated m' p c : Prop :=
  proc_at m' p = if bool_decide (has_worker c) then Some c else None.

(** What ending the client [p] changes beside the client: the signals that
    were sent and the users that were reported as disconnected. *)
Definition touches_only m m' p (k : list Z) : Prop :=
  (∀ q, q ≠ p → proc_at m' q = proc_at m q ∧ script_pid (script_list m') q = script_pid (script_list m) q) ∧
  signals (elog m') = k ++ signals (elog m) ∧
  (∀ q, EvDisconnected q ∈ elog m' → q = p ∨ EvDisconnected q ∈ elog m).

Lemma end_scripts_frame (x : main_ext) m p c :
  touches_only m (end_scripts x m p c) p (option_list (script_pid (script_list m) p)) ∧ ps (end_scripts x m p c) = ps m.
Proof.
  unfold end_scripts, touches_only. pose proof (remove_script_pid p (script_list m)) as E.
  pose proof (λ q, remove_script_other p q (script_list m)) as Ho.
  destruct (remove_from_script_list p (script_list m)) as [[k|] l]; rewrite <-E; clear E;
    [destruct (x_script_exit x =? 0)|destruct (bool_decide _)];
    (split; [split_and!|]; simpl; try done; intros q; [by split; [|apply Ho]|rewrite ?elem_of_cons; naive_solver]).
Qed.

(** Other clients stay as they are. *)
Lemma remove_proc_frame (x : main_ext) m p c quit m' : ¬ has_worker c → proc_at m p = Some c →
  remove_proc x m p true quit = Ok m' → touches_only m m' p (option_list (script_pid (script_list m) p)).
Proof.
  intros Hw Hc. unfold remove_proc. rewrite Hc. cbn [andb]. cbv zeta.
  rewrite has_worker_bool, bool_decide_eq_false_2 by done. intros H.
  apply bind_Ok in H as ([c' m2] & Hcl & H).
  assert (ps m2 = ps m ∧ script_list m2 = script_list m ∧ signals (elog m2) = signals (elog m) ∧
    ∀ q, EvDisconnected q ∈ elog m2 → EvDisconnected q ∈ elog m) as (Hp & Hs & Hk & Hd).
  { destruct (active_sid c && negb quit); [|by simplify_eq]. unfold session_close in Hcl.
    destruct (x_close x) as [msg|]; [|done]. simpl in Hcl. destruct (vhost c); [|done]. simplify_eq. simpl.
    split_and!; try done. intros q. rewrite !elem_of_cons. naive_solver. }
  destruct (end_scripts_frame x m2 p c') as [(Hq & Hk' & Hd') Hp']. destruct (remove_ip_leases _ _) as [db pl].
  injection H as <-. rewrite Hs in *. split_and!; simpl.
  - intros q Hne. destruct (Hq q Hne) as [Hq1 Hq2]. split; [|done]. unfold proc_at. simpl.
    by rewrite lookup_delete_ne, Hp', Hp by done.
  - by rewrite Hk', Hk.
  - intros q H. destruct (Hd' q H); auto.
Qed.

Lemma terminate_proc_spec x m R p c : main_inv None R m → proc_at m p = Some c →
  cwp (terminate_proc x m p c)
    (λ m', (∃ R', main_inv None R' m') ∧ terminated m' p c ∧ touches_only m m' p (signal_of m p c))
    (λ code, code = 1 ∧ x_close (c_main x) = None).
Proof.
  intros Hinv Hc. unfold terminate_proc, terminated, signal_of. rewrite has_worker_bool. case_bool_decide as Hw.
  - simpl. split_and!; [exists R; by apply main_inv_log|done|]. split_and!; simpl; [done..|].
    intros q. rewrite elem_of_cons. naive_solver.
  - pose proof (remove_proc_spec (c_main x) m R p c true false Hinv Hc) as H.
    destruct (remove_proc (c_main x) m p true false) as [m'| | |] eqn:E; [|done..].
    destruct H as (Hinv' & Hn & Hb). simpl. split_and!; [by eauto|done|]. by eapply remove_proc_frame.
Qed.

(** What is signalled to end those of a list that [sel] selects. *)
Definition signals_for m (sel : proc_st → bool) (l : list ptr) : list Z :=
  p ← l; match proc_at m p with Some c => if sel c then signal_of m p c else [] | None => [] end.

Lemma signals_for_same m m' sel l :
  (∀ q, q ∈ l → proc_at m' q = proc_at m q ∧ script_pid (script_list m') q = script_pid (script_list m) q) →
  signals_for m' sel l = signals_for m sel l.
Proof.
  unfold signals_for. induction l as [|p l IH]; intros H; [done|]. rewrite !bind_cons, IH by (intros q Hq; apply H; by right).
  destruct (H p) as [-> E]; [left|]. unfold signal_of. by rewrite E.
Qed.

Lemma signal_of_reverse m p c : reverse (signal_of m p c) = signal_of m p c.
Proof. unfold signal_of. case_bool_decide; [done|]. by destruct (script_pid _ _). Qed.

Lemma terminate_all_spec x sel once l : ∀ m R, main_inv None R m → NoDup l → (∀ p, p ∈ l → is_Some (proc_at m p)) →
  cwp (terminate_all x m sel once l)
    (λ bm, (∃ R', main_inv None R' bm.2) ∧
       (∀ q, q ∉ l → proc_at bm.2 q = proc_at m q) ∧
       (bm.1 = true ↔ ∃ p c, p ∈ l ∧ proc_at m p = Some c ∧ sel c = true) ∧
       (∀ q c, q ∈ l → proc_at m q = Some c → sel c = false → proc_at bm.2 q = Some c) ∧
       (∀ q, EvDisconnected q ∈ elog bm.2 →
          EvDisconnected q ∈ elog m ∨ ∃ c, proc_at m q = Some c ∧ sel c = true) ∧
       (once = false → signals (elog bm.2) = reverse (signals_for m sel l) ++ signals (elog m) ∧
          ∀ q c, q ∈ l → proc_at m q = Some c → sel c = true → terminated bm.2 q c))
    (λ code, code = 1 ∧ x_close (c_main x) = None).
Proof.
  induction l as [|p l IH]; intros m R Hinv Hnd Hl.
  { simpl. split_and!; [by exists R|done| |by intros ?? ?%elem_of_nil|by auto|].
    - split; [done|]. intros (? & ? & ?%elem_of_nil & _). done.
    - intros _. split; [done|]. by intros ?? ?%elem_of_nil. }
  apply NoDup_cons in Hnd as [Hp Hnd]. cbn [terminate_all]. unfold signals_for. rewrite bind_cons. fold (signals_for m sel l).
  destruct (Hl p) as [c Hc]; [left|]. rewrite Hc. destruct (sel c) eqn:Es; cbn [negb].
  - apply cwp_bind. eapply cwp_mono; [by apply (terminate_proc_spec x m R p c)| |done].
    intros m1 ((R1 & Hinv1) & Ht & Hf1 & Hk1 & Hd1). destruct once.
    + simpl. split_and!; [by exists R1| | | | |done].
      * intros q [Hq _]%not_elem_of_cons. by apply Hf1.
      * split; [|done]. intros _. exists p, c. split_and!; [left|done|done].
      * intros q d Hq Hd Hs. destruct (decide (q = p)) as [->|Hne]; [congruence|]. by rewrite (proj1 (Hf1 q Hne)).
      * intros q [->|Hq]%Hd1; [right; by exists c|by left].
    + assert (∀ q, q ∈ l → q ≠ p) as Hne by (by intros q Hq ->).
      apply cwp_bind. eapply cwp_mono; [apply (IH m1 R1); [done|done|]| |done].
      { intros q Hq. rewrite (proj1 (Hf1 q (Hne q Hq))). apply Hl. by right. }
      intros [b m2] (Hinv2 & Hout & _ & Hkeep & Hd2 & Hterm). simpl in *. destruct (Hterm eq_refl) as [Hk2 Ht2].
      split_and!; [done| | | | |intros _; split].
      * intros q [Hq Hql]%not_elem_of_cons. rewrite Hout by done. by apply Hf1.
      * split; [|done]. intros _. exists p, c. split_and!; [left|done|done].
      * intros q d [->|Hq]%elem_of_cons Hd Hs; [congruence|]. apply Hkeep; [done| |done]. by rewrite (proj1 (Hf1 q (Hne q Hq))).
      * intros q [Hq|(d & Hd & Hs)]%Hd2.
        -- destruct (Hd1 q Hq) as [->|]; [right; by exists c|by left].
        -- right. destruct (decide (q = p)) as [->|Hqp]; [by exists c|]. exists d. by rewrite <-(proj1 (Hf1 q Hqp)).
      * rewrite Hk2, Hk1, (signals_for_same m m1) by (intros q Hq; by apply Hf1, Hne).
        by rewrite reverse_app, signal_of_reverse, <-app_assoc.
      * intros q d [->|Hq]%elem_of_cons Hd Hs.
        -- assert (d = c) as -> by congruence. unfold terminated in *. by rewrite Hout.
        -- apply Ht2; [done| |done]. by rewrite (proj1 (Hf1 q (Hne q Hq))).
  - eapply cwp_mono; [apply (IH m R); [done|done|]| |done].
    { intros q Hq. apply Hl. by right. }
    intros [b m2] (Hinv2 & Hout & Hb & Hkeep & Hd2 & Hterm). simpl in *.
    split_and!; [done| | | |done|].
    + intros q [_ Hq]%not_elem_of_cons. by apply Hout.
    + rewrite Hb. split; intros (q & d & Hq & Hd & Hs).
      * exists q, d. split_and!; [by right|done|done].
      * apply elem_of_cons in Hq as [->|Hq]; [congruence|]. by exists q, d.
    + intros q d [->|Hq]%elem_of_cons Hd Hs; [by rewrite Hout|by apply Hkeep].
    + intros Ho. destruct (Hterm Ho) as [Hk2 Ht2]. split; [done|].
      intros q d [->|Hq]%elem_of_cons Hd Hs; [congruence|by apply Ht2].
Qed.

Lemma proc_list_all m R : main_inv None R m → NoDup (proc_list m) ∧ ∀ p, p ∈ proc_list m → is_Some (proc_at m p).
Proof. intros Hinv. split; [apply Hinv|]. intros p Hp. by apply (mi_elem _ _ _ Hinv). Qed.

(** C39: Disconnecting a user by name ends exactly the clients of this name.
    The signals that are sent are, in the order of the list of clients, one
    for the worker of each client of the name, or for the connect script that
    still runs for it if it has no worker, and no other.  A client of the name
    without a worker is removed; all other clients stay as they are, and none
    of them is reported as disconnected.  The reply says whether there was a
    client of the name.  The only way to exit is a security module that does
    not answer. *)
Theorem disconnect_user_exact x s R fd user : main_inv None R (mn s) →
  cwp (method_disconnect_user_name x s fd user)
    (λ s', (∃ R', main_inv None R' (mn s')) ∧
       signals (elog (mn s')) =
         reverse (signals_for (mn s) (λ c, bool_decide (username c = user)) (proc_list (mn s))) ++ signals (elog (mn s)) ∧
       (∀ p c, proc_at (mn s) p = Some c →
          if bool_decide (username c = user) then terminated (mn s') p c else proc_at (mn s') p = Some c) ∧
       (∀ p, EvDisconnected p ∈ elog (mn s') →
          EvDisconnected p ∈ elog (mn s) ∨ ∃ c, proc_at (mn s) p = Some c ∧ username c = user) ∧
       ∃ b, sent s' = sent s ++ [(fd, RepBool "disconnect" b)] ∧
         (b = true ↔ ∃ p c, proc_at (mn s) p = Some c ∧ username c = user))
    (λ code, code = 1 ∧ x_close (c_main x) = None).
Proof.
  intros Hinv. destruct (proc_list_all _ _ Hinv) as [Hnd Hl]. unfold method_disconnect_user_name. apply cwp_bind.
  eapply cwp_mono; [by apply (terminate_all_spec x _ false _ (mn s) R)| |done].
  intros [b m] (Hinv' & Hout & Hany & Hkeep & Hdis & Hterm). simpl in *. destruct (Hterm eq_refl) as [Hk Ht].
  assert (∀ p c, proc_at (mn s) p = Some c → p ∈ proc_list (mn s)) as Hin.
  { intros p c Hp. apply (mi_elem _ _ _ Hinv). by eexists. }
  split_and!; [done|done| | |].
  - intros p c Hp. case_bool_decide as E.
    + apply Ht; [by eapply Hin|done|]. by apply bool_decide_eq_true_2.
    + apply Hkeep; [by eapply Hin|done|]. by apply bool_decide_eq_false_2.
  - intros p [H|(c & Hc & E%bool_decide_eq_true_1)]%Hdis; eauto.
  - exists b. split; [done|]. rewrite Hany. split.
    + intros (p & c & _ & Hp & E%bool_decide_eq_true_1). by exists p, c.
    + intros (p & c & Hp & E). exists p, c. split_and!; [by eapply Hin|done|]. by apply bool_decide_eq_true_2.
Qed.

(** What a client is shown as, and that it can be shown. *)
Lemma user_info_ok x m R p c : main_inv None R m → proc_at m p = Some c →
  ∃ u, append_user_info x c = Ok u ∧ ui_id u = pid c ∧ ui_username u = username c.
Proof.
  intros Hinv Hc. destruct (pi_procs _ _ (mi_ps _ _ _ Hinv) p c Hc) as [_ [Hr _ _ _ _ _]].
  unfold append_user_info, peer_text. destruct (human_addr2_defined (x_ntop6 (c_main x)) (remote_addr c) (remote_addr_len c) IPBUF_SIZE)
    as [o ->]; [unfold SOCKADDR_STORAGE_SIZE in Hr; destruct (_ =? 28); lia|]. run. by eexists.
Qed.

(** The clients that are shown. *)
Lemma collect_users_ok x m R sel once l : main_inv None R m → (∀ p, p ∈ l → is_Some (proc_at m p)) → ∀ n,
  ∃ o, collect_users x m sel once n l = Ok o ∧
    (once = false → (∀ k, c_mem x k = true) →
     ∃ us, o = Some us ∧ map (λ u, (ui_id u, ui_username u)) us =
       map (λ c, (pid c, username c)) (List.filter sel (omap (proc_at m) l))).
Proof.
  intros Hinv. induction l as [|p l IH]; intros Hl n; [by eexists; split; [done|]; intros; eexists|].
  cbn [collect_users]. destruct (Hl p) as [c Hc]; [left|]. rewrite Hc. simpl omap. rewrite Hc. cbn [List.filter].
  destruct (sel c); cbn [negb]; [|apply IH; intros q Hq; apply Hl; by right].
  destruct (c_mem x n) eqn:En; cbn [negb]; [|eexists; split; [done|]; intros _ Hm; by rewrite Hm in En].
  destruct (user_info_ok x m R p c Hinv Hc) as (u & -> & Hid & Hname). run. destruct once; [by eexists|].
  destruct (IH (λ q Hq, Hl q (proj2 (elem_of_cons l q p) (or_intror Hq))) (S n)) as (o & -> & Ho). run. eexists. split; [done|].
  intros _ Hm. destruct (Ho eq_refl Hm) as (us & -> & Hus). simpl. eexists. split; [done|]. simpl. by rewrite Hid, Hname, Hus.
Qed.

(** The list of users has every client, in the order of the list of
    processes, each with its identifier and its name. *)
Theorem list_users_complete x s R fd : main_inv None R (mn s) → (∀ k, c_mem x k = true) →
  ∃ s' us, method_list_users x s fd = Ok s' ∧ sent s' = sent s ++ [(fd, RepUsers us)] ∧
    map (λ u, (ui_id u, ui_username u)) us =
      map (λ c, (pid c, username c)) (omap (proc_at (mn s)) (proc_list (mn s))).
Proof.
  intros Hinv Hm. destruct (proc_list_all _ _ Hinv) as [_ Hl]. unfold method_list_users.
  destruct (collect_users_ok x (mn s) R (λ _, true) false (proc_list (mn s)) Hinv Hl 0) as (o & -> & Ho). run.
  destruct (Ho eq_refl Hm) as (us & -> & Hus). eexists _, us. split; [done|]. split; [done|]. rewrite Hus.
  assert (∀ l : list proc_st, List.filter (λ _, true) l = l) as Hf by (intros l; induction l; simpl; congruence).
  by rewrite Hf.
Qed.

(** ** The control connections *)

(** The state of the main process, and the connection that gets updates is
    open. *)
Definition ctl_ok s : Prop :=
  (∃ R, main_inv None R (mn s)) ∧ (top_fd s = -1 ∨ top_fd s ∈ conns s).

Lemma unban_ok (db : store T ban_entry_st) a : ban_ok db → ban_ok (remove_ip_from_ban_list db a).2.
Proof.
  intros Hdb. unfold remove_ip_from_ban_list. destruct (_ || _); [|done].
  destruct (slookup _ _ _ _) as [[p e]|] eqn:E; [|done]. simpl. apply slookup_Some in E as [He _].
  by eapply sset_ok.
Qed.

Lemma run_method_ok x cfg s fd r : ctl_ok s → fd ∈ conns s →
  cwp (run_method x cfg s fd r)
    (λ s', (∃ R, main_inv None R (mn s')) ∧ conns s' = conns s ∧ (top_fd s' = top_fd s ∨ top_fd s' = fd))
    (λ code, code = 1 ∧ x_close (c_main x) = None).
Proof.
  intros [[R Hinv] Htop] Hfd. destruct (proc_list_all _ _ Hinv) as [Hnd Hl].
  assert (∀ sel once s0, mn s0 = mn s → conns s0 = conns s → top_fd s0 = top_fd s ∨ top_fd s0 = fd →
    cwp (o ← collect_users x (mn s0) sel once 0 (proc_list (mn s0)); Ok (reply_users fd o s0))
      (λ s', (∃ R, main_inv None R (mn s')) ∧ conns s' = conns s ∧ (top_fd s' = top_fd s ∨ top_fd s' = fd))
      (λ code, code = 1 ∧ x_close (c_main x) = None)) as Husers.
  { intros sel once s0 Hm Hc Ht. rewrite Hm. destruct (collect_users_ok x (mn s) R sel once _ Hinv Hl 0) as (o & -> & _).
    run. destruct o; simpl; rewrite Hm; eauto. }
  assert (∀ sel once, cwp ('(b, m) ← terminate_all x (mn s) sel once (proc_list (mn s));
      Ok (send fd (RepBool "disconnect" b) {| s with mn := m |}))
      (λ s', (∃ R, main_inv None R (mn s')) ∧ conns s' = conns s ∧ (top_fd s' = top_fd s ∨ top_fd s' = fd))
      (λ code, code = 1 ∧ x_close (c_main x) = None)) as Hterm.
  { intros sel once. apply cwp_bind. eapply cwp_mono; [by apply (terminate_all_spec x sel once _ (mn s) R)| |done].
    intros [b m] (Hinv' & _). simpl. eauto. }
  destruct r as [| | | | | | | |[n|]|[n|]|[a|]|[n|]|[n|]|]; cbn [run_method]; try (simpl; by eauto);
    try (apply Husers; by auto); try (apply Hterm).
  - unfold method_top. destruct (top_fd s =? -1); apply Husers; auto.
  - simpl. unfold method_list_banned. destruct (forallb _ _); simpl; eauto.
  - simpl. unfold method_unban_ip. pose proof (unban_ok (ban_db (mn s)) a (mi_ban _ _ _ Hinv)) as Hb.
    destruct (remove_ip_from_ban_list _ _) as [r db]. simpl. split; [|auto]. exists R. by apply main_inv_ban.
Qed.

(** Every command of the control socket leaves the main process in a
    good state and performs no undefined operation, and the connection that
    gets updates is always an open one; the only way to exit is a security
    module that does not answer. *)
Theorem ctl_commands_safe x cfg s fd r : ctl_ok s → fd ∈ conns s →
  cwp (ctl_cmd_watcher_cb x cfg s fd r) ctl_ok (λ code, code = 1 ∧ x_close (c_main x) = None).
Proof.
  intros Hs Hfd. unfold ctl_cmd_watcher_cb. apply cwp_bind.
  eapply cwp_mono; [by apply run_method_ok| |done]. intros s' (HR & Hc & Ht).
  destruct Hs as [_ Htop]. destruct (indefinite r); simpl; (split; [done|]); simpl.
  - rewrite Hc. destruct Ht as [-> | ->]; auto.
  - destruct (Z.eqb_spec (top_fd s') fd) as [|Hne]; [by left|]. destruct Ht as [Ht|Ht]; [|congruence].
    rewrite Ht in *. destruct Htop as [|Hin]; [by left|right]. apply list_elem_of_filter. by rewrite Hc.
Qed.
End ctl_spec.

Module CtlWitnesses.
Import SecModTheorems.Demo MainTheorems.MainWitnesses.

(** Three clients, two of the session of one user and one of another. *)
Definition ctl0 : ctl_st rtable := Ctl m6 (-1) [5] [].
Definition ext : ctl_ext := CtlExt (ans 3 other) (λ _, true) 0.

Lemma inv6 : ∃ R, main_inv None R (mn ctl0).
Proof. eapply main_reachable_inv, reach_m6. Qed.

Lemma disconnect_user_exact_witness :
  cwp (method_disconnect_user_name ext ctl0 5 "bob")
    (λ s', (∃ R', main_inv None R' (mn s')) ∧
       signals (elog (mn s')) =
         reverse (signals_for (mn ctl0) (λ c, bool_decide (username c = "bob"%string)) (proc_list (mn ctl0))) ++
         signals (elog (mn ctl0)) ∧
       (∀ p c, proc_at (mn ctl0) p = Some c →
          if bool_decide (username c = "bob"%string) then terminated (mn s') p c else proc_at (mn s') p = Some c) ∧
       (∀ p, EvDisconnected p ∈ elog (mn s') →
          EvDisconnected p ∈ elog (mn ctl0) ∨ ∃ c, proc_at (mn ctl0) p = Some c ∧ username c = "bob"%string) ∧
       ∃ b, sent s' = sent ctl0 ++ [(5, RepBool "disconnect" b)] ∧
         (b = true ↔ ∃ p c, proc_at (mn ctl0) p = Some c ∧ username c = "bob"%string))
    (λ code, code = 1 ∧ x_close (c_main ext) = None).
Proof. destruct inv6 as [R HR]. apply (disconnect_user_exact ext ctl0 R 5 "bob" HR). Defined.

(** Of the three clients only the worker of bob's is signalled. *)
Example disconnect_signals :
  signals_for (mn ctl0) (λ c, bool_decide (username c = "bob"%string)) (proc_list (mn ctl0)) = [3] ∧
  length (proc_list (mn ctl0)) = 3%nat.
Proof. split; vm_compute; reflexivity. Qed.

Lemma ctl_commands_safe_witness :
  cwp (ctl_cmd_watcher_cb ext conf ctl0 5 CtlTop) ctl_ok (λ code, code = 1 ∧ x_close (c_main ext) = None).
Proof.
  apply (ctl_commands_safe ext conf ctl0 5 CtlTop); [|left]. split; [exact inv6|left; reflexivity].
Defined.

Example disconnect_example :
  match method_disconnect_user_name ext ctl0 5 "bob" with
  | Ok s => Some (sent s, take 1 (elog (mn s)))
  | _ => None
  end = Some ([(5, RepBool "disconnect" true)], [EvKill 3]).
Proof. vm_compute. reflexivity. Qed.

Example list_example :
  match ctl_cmd_watcher_cb ext conf ctl0 5 CtlList with
  | Ok s => Some (map (λ o, match o.2 with RepUsers l => map (λ u, (ui_id u, ui_username u, ui_ip u)) l | _ => [] end) (sent s), conns s)
  | _ => None
  end = Some ([[(3, "bob"%string, "10.0.0.1"%string); (2, "alice"%string, "10.0.0.1"%string); (1, "alice"%string, "10.0.0.1"%string)]], []).
Proof. vm_compute. reflexivity. Qed.
End CtlWitnesses.
